(* ===== verification/_CoqProject ===== *)
-Q . S2P
Prelude.v
Riscv.v
Mem.v
StringC.v
Core.v
Spinlock.v
Kalloc.v
Vm.v
Pt.v
Uvm.v
Machine.v
Cow.v
Asm.v
AsmOk.v
Copy.v
Copyout.v
State.v
Csr.v
Proc.v
Sched.v
SleepWake.v
Uart.v
Printf.v
Console.v
Sleeplock.v
Virtio.v
Bio.v
Dll.v
Cache.v
VirtioOk.v
Block.v
Log.v
Commit.v
Txn.v
Sample.v
Driver.v
Crash.v
Scheduler.v
Fs.v
FsOk.v
FsFile.v
FsCrash.v
FsDir.v
Mkfs.v
MkfsOk.v
MkfsImage.v
MkfsSpec.v
Pipe.v
PipeFifo.v
File.v
Process.v
Exec.v
Sysfile.v
Trap.v
Trampoline.v
Initcode.v
Boot.v
User.v
Ulib.v
Uprintf.v
Grep.v
Progs.v
ProgsOk.v
Shell.v
ShellParse.v
ShellOk.v
ShellSyntax.v
ShellRun.v
Umalloc.v
UmallocOk.v
UmallocSpec.v
