(* ===== verification/Prelude.v ===== *)
(** * xv6-riscv with copy-on-write fork

    A verification of the xv6 kernel, the tool that makes its disk image, and its
    user programs, translated from the C and assembly sources under src/.

    ** The program

    The kernel runs processes on RISC-V harts.  Memory: a page allocator with
    reference counts (kalloc.c), Sv39 page tables and address spaces (vm.c), and
    the copy-on-write extension: fork() shares the pages of the parent read-only
    (uvmcopy() of vm.c), and a store to a shared page faults into copy_on_write()
    of trap.c, which gives the process a copy of its own.  Processes: the
    process table, the scheduler, sleep and wakeup (proc.c, swtch.S), spin locks
    and sleep locks.  Files, from the bottom: the virtio disk driver, the block
    cache (bio.c), the log (log.c), inodes and directories (fs.c), open files and
    pipes (file.c, pipe.c), the system calls (sysfile.c, sysproc.c).  Traps:
    trampoline.S, kernelvec.S, trap.c, plic.c, syscall.c.  Console: uart.c,
    console.c, printf.c.  mkfs.c runs on the host and makes the disk image the kernel
    boots with.  User level: the library (ulib.c, printf.c, umalloc.c),
    the shell and the small programs.

    ** How the sources are represented

    Kernel code is a function of the monad [M S A] of this file: it takes the
    state and returns an [outcome].  panic(), undefined behaviour, a thread
    that is never resumed and a loop that does not end are outcomes of their own,
    so a theorem that says [Ok] excludes all of them.  A C function is one
    definition with the name it has in the source.  State is explicit:
    [kst] (Kalloc.v) is physical memory, locks, processes and the page allocator;
    [st] (State.v) is the whole kernel, and [zoom] runs code on the part of it
    that it uses.  Integers are [Z] with [u8], [u16], [u32], [u64] and [i32]
    written where C wraps around.  Memory is a function from addresses to bytes,
    page tables and the allocator's free list live in it.  Pointers to objects of
    a static array are indices.  User programs run in the monad of User.v, in
    their own memory, over the system calls of the class [Unix].

    ** Files

    - Prelude.v, Riscv.v, Mem.v, Block.v: the monad and its rules, the constants
      and macros of riscv.h, memlayout.h and param.h, memory, integers in blocks.
    - StringC.v: string.c.
    - Core.v, Spinlock.v: struct cpu, struct proc, spinlock.c; acquire() and
      release() are lists of atomic actions, which one hart runs in the rest of
      the development and all harts run as a step relation in [Module Smp].
    - Kalloc.v: kalloc.c.  Vm.v: vm.c and the copy-on-write functions of trap.c;
      proofs in Pt.v (page tables), Uvm.v (address spaces), Cow.v (copy-on-write
      fork), Copy.v and Copyout.v (copies from and to user memory).  Machine.v
      is a concrete machine for examples.
    - Asm.v: entry.S, swtch.S, trampoline.S, kernelvec.S instruction by
      instruction; proofs in AsmOk.v and Trampoline.v.  Initcode.v: the machine
      code in initcode[].
    - State.v, Csr.v: the state of the kernel, the control registers.
    - Proc.v, Process.v: proc.c; proofs in Sched.v, Scheduler.v and SleepWake.v,
      which is sleep() and wakeup() as a step relation over all processes.
    - Uart.v, Printf.v, Console.v: uart.c, printf.c, console.c.
    - Sleeplock.v: sleeplock.c.  Virtio.v: virtio_disk.c; proofs in VirtioOk.v
      and Driver.v.
    - Bio.v: bio.c, over the class [BlockDev] of a block device; Dll.v and
      Cache.v prove its list and its contents.
    - Log.v: log.c; proofs in Commit.v (commit and recovery), Txn.v
      (transactions) and Crash.v.  Sample.v is a concrete state for examples.
    - Fs.v: fs.c; proofs in FsOk.v (block allocation and bmap()), FsFile.v
      (readi() and writei()), FsCrash.v (a write in a transaction, with crashes)
      and FsDir.v (directories).
    - Mkfs.v: mkfs/mkfs.c; proofs in MkfsOk.v (iappend()), MkfsImage.v (the files of
      the image) and MkfsSpec.v (the image as the kernel reads it).
    - Pipe.v, PipeFifo.v: pipe.c.  File.v: file.c.  Exec.v: exec.c.  Sysfile.v:
      sysfile.c and argument fetching.  Trap.v: trap.c, syscall.c, sysproc.c,
      plic.c.  Boot.v: start.c, main.c.
    - User.v, Ulib.v, Uprintf.v: user.h, ulib.c, user/printf.c.  Grep.v, Progs.v,
      ProgsOk.v: grep, cat, wc, echo, kill, ln, mkdir, rm, ls.
    - Shell.v: sh.c; ShellParse.v, ShellOk.v, ShellSyntax.v and ShellRun.v prove
      its parser and its processes.  Umalloc.v: umalloc.c; proofs in UmallocOk.v
      and UmallocSpec.v.

    ** What the theorems show

    - Copy-on-write: fork() shares every page, marked and counted; a fault or a
      copyout() gives the writer a page of its own with the same bytes; hence a
      store instruction of parent or child, which the hart checks against the
      page table and which faults and is retried, is invisible to the other.
    - Page allocator and page tables: the free list holds exactly the pages
      without references; mapping, unmapping, growing and the copies do what
      they say on every path, failures included, and touch nothing else.
    - Assembly: a trap into the kernel and back restores all user registers;
      swtch() exchanges the callee-saved registers; an interrupt in the kernel
      leaves the registers, except tp, and the stack of the interrupted code as
      they were; every hart starts on a stack of its own.
    - Concurrency: mutual exclusion of acquire() and release(), action by action
      over all interleavings of the harts; no lost wakeup; fairness of a pass of
      the scheduler.
    - Disk: the virtio driver implements the block device the cache is written
      against; the block updates of a transaction reach the disk all or nothing
      whatever write the machine stops after, also when recovery is interrupted;
      writei() in a transaction is atomic in the same sense for the bytes of the
      file; readi() reads back what writei() wrote; a directory is a finite map
      that dirlookup() and dirlink() read and extend; the image mkfs makes holds the
      files it was given, in the form these theorems assume.
    - Pipes are bounded queues, also when they fill up in the middle of a write;
      the shell's parser ends, inverts its printer, and
      the processes it starts have exactly the descriptors the line asks for;
      malloc() and free() give programs separate arrays; grep's matcher is
      regular expression matching; the number printed by %d is read by atoi().
    - Errors: the kernel panics and the other faults that modelling showed are
      theorems as well (copyout() at MAXVA, a failed copy-on-write in copyout(),
      a transaction begin_op() admits and log_write() does not, buffers lost by
      recovery).

    ** Bounds and fuel

    [loop] runs a body for at most 2^64 iterations and is [Diverge] after that;
    theorems about loops prove the bound from a measure ([wp_loop], [loops],
    [iterates]), so no result depends on running out.  The recursive functions of
    the shell take fuel; parsecmd() gives [parse_fuel], four steps for each
    character of the line and four more, and is proved to end within it.  walk()
    and freewalk() recurse over the three levels of the tree.  The matcher of grep
    recurses on its pattern and text.

    ** Parameters

    Code outside the sources is a parameter with documented behaviour as
    hypotheses, each with an instance in an example: the addresses of the linker
    script ([KernelImage], [Symbols]), devices and whatever runs while a thread is
    switched out ([World]), the virtio device, the system calls as user programs
    see them ([Unix]), the host of mkfs ([Host]), sbrk() for malloc() ([Break]), and for the shell's main() what
    a forked child does.

    ** Not modelled

    - Test programs (usertests.c, grind.c, cowtest.c, cowtest2.c, forktest.c,
      stressfs.c, zombie.c): they check the kernel from outside and have no
      contract of their own.
    - init.c opens the console and restarts the shell for ever; it computes nothing.
    - usys.pl generates the stubs of the system calls, which are not in the
      sources; kernel.ld is data for the linker; types.h, defs.h and date.h are
      declarations; ramdisk.c is not built and does not fit struct buf.
    - The kernel's C functions run as one thread: other harts appear through the
      locks they hold and through [World].  Only the spin lock and sleep/wakeup
      are also modelled with all harts interleaving.
    - There is no TLB and no store buffer: sfence.vma and fence do nothing.
    - panic() does not print; the control registers sp and ra have no accessor. *)

From stdpp Require Import base list gmap strings numbers.
From Stdlib Require Import ZArith Lia String.

Local Open Scope Z_scope.

(** ** Outcomes and the kernel monad *)

(** What running kernel code can lead to.  [Ok] returns normally.  [Panic]
    is a call of panic().  [Undefined] is undefined behaviour of the C code,
    such as an array access out of bounds.  [Sleep] is a thread that never
    gets the CPU (or the lock it spins on) back.  [Diverge] is a loop that
    is still running after 2^64 iterations. *)
Inductive outcome (S A : Type) : Type :=
| Ok (a : A) (s : S)
| Panic (msg : string)
| Undefined (what : string)
| Sleep (s : S)
| Diverge.
Arguments Ok {S A}.
Arguments Panic {S A}.
Arguments Undefined {S A}.
Arguments Sleep {S A}.
Arguments Diverge {S A}.

Definition M (S A : Type) : Type := S -> outcome S A.

Section Monad.
Context {S : Type}.

Definition ret {A} (a : A) : M S A := fun s => Ok a s.

Definition bind {A B} (m : M S A) (k : A -> M S B) : M S B :=
  fun s =>
    match m s with
    | Ok a s' => k a s'
    | Panic msg => Panic msg
    | Undefined w => Undefined w
    | Sleep s' => Sleep s'
    | Diverge => Diverge
    end.

Definition panic {A} (msg : string) : M S A := fun _ => Panic msg.
Definition undefined {A} (what : string) : M S A := fun _ => Undefined what.
Definition get : M S S := fun s => Ok s s.
Definition gets {A} (f : S -> A) : M S A := fun s => Ok (f s) s.
Definition modify (f : S -> S) : M S unit := fun s => Ok tt (f s).

(** [when b m] is C's [if (b) m;]. *)
Definition when (b : bool) (m : M S unit) : M S unit := if b then m else ret tt.

(** [iter d body a] runs at most 2^d iterations of a loop body: [inl] goes
    on with a new loop state, [inr] exits the loop. *)
Fixpoint iter {A B} (d : nat) (body : A -> M S (A + B)) (a : A) : M S (A + B) :=
  match d with
  | O => body a
  | Datatypes.S d' =>
      bind (iter d' body a)
        (fun r => match r with
                  | inl a' => iter d' body a'
                  | inr b => ret (inr b)
                  end)
  end.

(** A C loop.  Every loop of the kernel that ends does so within 2^64
    iterations: its counter is at most 64 bits wide. *)
Definition loop {A B} (body : A -> M S (A + B)) (a : A) : M S B :=
  bind (iter 64 body a)
    (fun r => match r with
              | inl _ => fun _ => Diverge
              | inr b => ret b
              end).

(** A loop over a fixed range, [for(i = 0; i < n; i++)]. *)
Fixpoint forM {A} (l : list A) (body : A -> M S unit) : M S unit :=
  match l with
  | [] => ret tt
  | a :: l' => bind (body a) (fun _ => forM l' body)
  end.

(** A search: run the body on each element until one returns a value. *)
Fixpoint findM {A B} (l : list A) (body : A -> M S (option B)) : M S (option B) :=
  match l with
  | [] => ret None
  | a :: l' => bind (body a) (fun r => match r with
                                       | Some b => ret (Some b)
                                       | None => findM l' body
                                       end)
  end.

(** A loop over a fixed range that carries a value [b] and can be left early
    with a result. *)
Fixpoint scanM {A B C} (l : list A) (b : B) (body : A -> B -> M S (B + C)) : M S (B + C) :=
  match l with
  | [] => ret (inl b)
  | a :: l' => bind (body a b) (fun r => match r with
                                         | inl b' => scanM l' b' body
                                         | inr c => ret (inr c)
                                         end)
  end.
End Monad.

Declare Scope kern_scope.
Delimit Scope kern_scope with kern.
Notation "'let*' x ':=' m 'in' k" := (bind m (fun x => k))
  (at level 10, x name, m at level 100, k at level 200) : kern_scope.
Notation "m ';;;' k" := (bind m (fun _ => k))
  (at level 199, right associativity) : kern_scope.

(** ** Weakest preconditions (total correctness) *)

(** [wp m Q s]: run from [s], [m] returns normally, and [Q] holds of its
    result and of the final state.  No panic, no undefined behaviour, no
    thread left asleep, no divergence. *)
Definition wp {S A} (m : M S A) (Q : A -> S -> Prop) (s : S) : Prop :=
  match m s with
  | Ok a s' => Q a s'
  | _ => False
  end.

Section WP.
Context {S : Type}.

Lemma wp_ret {A} (a : A) (Q : A -> S -> Prop) s : Q a s -> wp (ret a) Q s.
Proof. done. Qed.

Lemma wp_bind {A B} (m : M S A) (k : A -> M S B) Q s :
  wp m (fun a s' => wp (k a) Q s') s -> wp (bind m k) Q s.
Proof. unfold wp, bind. by destruct (m s). Qed.

Lemma wp_bind_inv {A B} (m : M S A) (k : A -> M S B) Q s :
  wp (bind m k) Q s -> wp m (fun a s' => wp (k a) Q s') s.
Proof. unfold wp, bind. by destruct (m s). Qed.

Lemma wp_bind_assoc {A B C} (m : M S A) (k : A -> M S B) (k' : B -> M S C) Q s :
  wp (bind (bind m k) k') Q s -> wp (bind m (fun a => bind (k a) k')) Q s.
Proof. unfold wp, bind. by destruct (m s). Qed.

Lemma wp_mono {A} (m : M S A) (P Q : A -> S -> Prop) s :
  wp m P s -> (forall a s', P a s' -> Q a s') -> wp m Q s.
Proof. unfold wp. destruct (m s); naive_solver. Qed.

Lemma wp_gets {A} (f : S -> A) (Q : A -> S -> Prop) s :
  Q (f s) s -> wp (gets f) Q s.
Proof. done. Qed.

Lemma wp_modify (f : S -> S) (Q : unit -> S -> Prop) s :
  Q tt (f s) -> wp (modify f) Q s.
Proof. done. Qed.

Lemma wp_when (b : bool) (m : M S unit) (Q : unit -> S -> Prop) s :
  (b = true -> wp m Q s) -> (b = false -> Q tt s) -> wp (when b m) Q s.
Proof. destruct b; intros H1 H2; [by apply H1|by apply H2]. Qed.

Lemma wp_if {A} (b : bool) (m1 m2 : M S A) Q s :
  (b = true -> wp m1 Q s) -> (b = false -> wp m2 Q s) ->
  wp (if b then m1 else m2) Q s.
Proof. destruct b; auto. Qed.

Lemma bind_run {A B} (m : M S A) (k : A -> M S B) a s s' : m s = Ok a s' -> bind m k s = k a s'.
Proof. intros E. unfold bind. by rewrite E. Qed.

Lemma wp_Ok {A} (m : M S A) (Q : A -> S -> Prop) s a s' :
  m s = Ok a s' -> Q a s' -> wp m Q s.
Proof. unfold wp. by intros ->. Qed.

Lemma wp_elim {A} (m : M S A) (Q : A -> S -> Prop) s :
  wp m Q s -> exists a s', m s = Ok a s' /\ Q a s'.
Proof. unfold wp. destruct (m s) eqn:?; naive_solver. Qed.

(** The loop rule: [I n a s] is an invariant indexed by the number of
    iterations still allowed, which every iteration decreases. *)
Section Loop.
Context {A B : Type} (body : A -> M S (A + B)).
Context (I : Z -> A -> S -> Prop) (Q : B -> S -> Prop).
Hypothesis Hstep : forall n a s, 0 <= n -> I n a s ->
  wp (body a) (fun r s' => match r with
                           | inl a' => exists n', 0 <= n' < n /\ I n' a' s'
                           | inr b => Q b s'
                           end) s.

Lemma wp_iter d n a s :
  0 <= n -> I n a s ->
  wp (iter d body a) (fun r s' => match r with
      | inl a' => exists n', 0 <= n' /\ n' + 2 ^ Z.of_nat d <= n /\ I n' a' s'
      | inr b => Q b s'
      end) s.
Proof.
  revert n a s. induction d as [|d IH]; intros n a s Hn HI.
  - eapply wp_mono; [by eapply Hstep|].
    intros [a'|b] s'; [|done]. intros (n' & ? & ?). exists n'. split_and!; [lia|simpl; lia|done].
  - cbn [iter]. apply wp_bind. eapply wp_mono; [by apply IH|].
    assert (H2 : 2 ^ Z.of_nat (Datatypes.S d) = 2 * 2 ^ Z.of_nat d).
    { rewrite Nat2Z.inj_succ, Z.pow_succ_r; lia. }
    intros [a'|b] s'; [|done]. intros (n' & ? & ? & ?).
    eapply wp_mono; [by apply (IH n')|].
    intros [a''|b] s''; [|done]. intros (n'' & ? & ? & ?).
    exists n''. split_and!; [lia|lia|done].
Qed.

Lemma wp_loop n a s :
  0 <= n < 2 ^ 64 -> I n a s -> wp (loop body a) Q s.
Proof.
  intros Hn HI. apply wp_bind. eapply wp_mono; [apply (wp_iter 64 n); [lia|done]|].
  intros [a'|b] s'; [|done]. intros (n' & ? & ? & ?).
  exfalso. change (Z.of_nat 64) with 64 in *. lia.
Qed.
End Loop.

(** A loop whose first iteration panics. *)
Lemma iter_panic {A B} (body : A -> M S (A + B)) d a s msg :
  body a s = Panic msg -> iter d body a s = Panic msg.
Proof. intros E. induction d as [|d IH]; cbn [iter]; [done|]. unfold bind. by rewrite IH. Qed.

Lemma loop_panic {A B} (body : A -> M S (A + B)) a s msg :
  body a s = Panic msg -> loop body a s = Panic msg.
Proof. intros E. unfold loop, bind. by rewrite (iter_panic _ _ _ _ msg). Qed.

(** A loop that is left in its first iteration. *)
Lemma iter_once {A B} (body : A -> M S (A + B)) d a s b s' :
  body a s = Ok (inr b) s' -> iter d body a s = Ok (inr b) s'.
Proof. intros E. induction d as [|d IH]; cbn [iter]; [done|]. unfold bind. by rewrite IH. Qed.

Lemma loop_once {A B} (body : A -> M S (A + B)) a s b s' :
  body a s = Ok (inr b) s' -> loop body a s = Ok b s'.
Proof. intros E. unfold loop, bind. by rewrite (iter_once _ _ _ _ b s'). Qed.

(** A loop whose first iteration gives the CPU away for good. *)
Lemma iter_sleep {A B} (body : A -> M S (A + B)) d a s s' :
  body a s = Sleep s' -> iter d body a s = Sleep s'.
Proof. intros E. induction d as [|d IH]; cbn [iter]; [done|]. unfold bind. by rewrite IH. Qed.

Lemma loop_sleep {A B} (body : A -> M S (A + B)) a s s' :
  body a s = Sleep s' -> loop body a s = Sleep s'.
Proof. intros E. unfold loop, bind. by rewrite (iter_sleep _ _ _ _ s'). Qed.

(** A loop that is left after [n] more iterations. *)
Inductive loops {A B} (body : A -> M S (A + B)) : nat -> A -> S -> B -> S -> Prop :=
| loops_end a s b s' : body a s = Ok (inr b) s' -> loops body 0 a s b s'
| loops_more n a s a' s1 b s' :
    body a s = Ok (inl a') s1 -> loops body n a' s1 b s' -> loops body (Datatypes.S n) a s b s'.

Lemma loops_loop {A B} (body : A -> M S (A + B)) n a s b s' :
  loops body n a s b s' -> Z.of_nat n < 2 ^ 64 -> loop body a s = Ok b s'.
Proof.
  intros Hl Hn. enough (wp (loop body a) (fun b' t => b' = b /\ t = s') s) as W.
  { apply wp_elim in W as (? & ? & E & -> & ->). exact E. }
  apply (wp_loop body (fun m a s => exists k, m = Z.of_nat k /\ loops body k a s b s')) with (n := Z.of_nat n).
  - intros m a0 s0 _ (k & -> & Hk). destruct Hk as [a0 s0 b s' E|k a0 s0 a' s1 b s' E Hk].
    + eapply wp_Ok; [exact E|done].
    + eapply wp_Ok; [exact E|]. exists (Z.of_nat k). split; [lia|]. eauto.
  - lia.
  - eauto.
Qed.
(** [n] iterations that lead from [a] and [s] to [a'] and [s']. *)
Inductive iterates {A B} (body : A -> M S (A + B)) : nat -> A -> S -> A -> S -> Prop :=
| iterates_0 a s : iterates body 0 a s a s
| iterates_S n a s a1 s1 a' s' :
    body a s = Ok (inl a1) s1 -> iterates body n a1 s1 a' s' -> iterates body (Datatypes.S n) a s a' s'.

(** How an iteration that is not followed by another one ends the loop. *)
Definition exits {A B} (o : outcome S (A + B)) : option (outcome S B) :=
  match o with
  | Ok (inl _) _ => None
  | Ok (inr b) s => Some (Ok b s)
  | Panic msg => Some (Panic msg)
  | Undefined w => Some (Undefined w)
  | Sleep s => Some (Sleep s)
  | Diverge => Some Diverge
  end.

Lemma iterates_split {A B} (body : A -> M S (A + B)) n m a s a' s' :
  iterates body (n + m) a s a' s' ->
  exists a1 s1, iterates body n a s a1 s1 /\ iterates body m a1 s1 a' s'.
Proof.
  revert a s. induction n as [|n IH]; intros a s Hi.
  - exists a, s. split; [constructor|exact Hi].
  - inversion Hi as [|? ? ? b t ? ? E Hi']; subst. destruct (IH _ _ Hi') as (a1 & s1 & H1 & H2).
    exists a1, s1. split; [by econstructor|done].
Qed.

Lemma iterates_snoc {A B} (body : A -> M S (A + B)) n a s a1 s1 a' s' :
  iterates body n a s a1 s1 -> body a1 s1 = Ok (inl a') s' -> iterates body (Datatypes.S n) a s a' s'.
Proof. induction 1; intros E; econstructor; eauto. constructor. Qed.

Lemma iter_iterates {A B} (body : A -> M S (A + B)) d a s a' s' :
  iterates body (Nat.pow 2 d) a s a' s' -> iter d body a s = Ok (inl a') s'.
Proof.
  revert a s a' s'. induction d as [|d IH]; intros a s a' s' Hi; cbn [iter].
  - inversion Hi as [|? ? ? b t ? ? E Hi']; subst. by inversion Hi'; subst.
  - rewrite Nat.pow_succ_r', <- Nat.double_twice in Hi. unfold Nat.double in Hi.
    apply iterates_split in Hi as (a1 & s1 & H1 & H2). unfold bind. by rewrite (IH _ _ _ _ H1), (IH _ _ _ _ H2).
Qed.

Lemma iter_exits {A B} (body : A -> M S (A + B)) d n a s a' s' o :
  iterates body n a s a' s' -> (n < Nat.pow 2 d)%nat -> exits (body a' s') = Some o ->
  exits (iter d body a s) = Some o.
Proof.
  revert n a s. induction d as [|d IH]; intros n a s Hi Hn Hl; cbn [iter].
  - assert (n = 0%nat) as -> by (simpl in Hn; lia). by inversion Hi; subst.
  - rewrite Nat.pow_succ_r' in Hn. unfold bind. destruct (decide (n < Nat.pow 2 d)%nat) as [H1|H1].
    + specialize (IH n a s Hi H1 Hl). by destruct (iter d body a s) as [[]| | | |].
    + replace n with (Nat.pow 2 d + (n - Nat.pow 2 d))%nat in Hi by lia.
      apply iterates_split in Hi as (a1 & s1 & H2 & H3). rewrite (iter_iterates _ _ _ _ _ _ H2).
      eapply IH; [exact H3|lia|done].
Qed.

(** A loop that is left, in whatever way, after [n] iterations. *)
Lemma loop_exits {A B} (body : A -> M S (A + B)) n a s a' s' o :
  iterates body n a s a' s' -> Z.of_nat n < 2 ^ 64 -> exits (body a' s') = Some o -> loop body a s = o.
Proof.
  intros Hi Hn Hl. unfold loop, bind.
  assert (Hn' : (n < Nat.pow 2 64)%nat) by (apply Nat2Z.inj_lt; rewrite Nat2Z.inj_pow; exact Hn).
  pose proof (iter_exits body 64 n a s a' s' o Hi Hn' Hl) as E.
  by destruct (iter 64 body a s) as [[]| | | |]; [discriminate E|injection E as <-..].
Qed.
End WP.

(** Loops are reasoned about with [wp_loop] only. *)
#[global] Opaque iter loop.

(** ** Lenses: a component's state inside a larger state *)

(** A component is written over its own state [T]; [zoom] runs it inside a
    larger state [S] that has a [T] as a part. *)
Class Lens (S T : Type) := {
  lget : S -> T;
  lput : T -> S -> S;
  lget_lput : forall t s, lget (lput t s) = t;
  lput_lget : forall s, lput (lget s) s = s;
  lput_lput : forall t t' s, lput t (lput t' s) = lput t s;
}.

Section Zoom.
Context {S T : Type} `{!Lens S T}.

Definition zoom {A} (m : M T A) : M S A :=
  fun s =>
    match m (lget s) with
    | Ok a t => Ok a (lput t s)
    | Panic msg => Panic msg
    | Undefined w => Undefined w
    | Sleep t => Sleep (lput t s)
    | Diverge => Diverge
    end.

Lemma wp_zoom {A} (m : M T A) (Q : A -> S -> Prop) s :
  wp m (fun a t => Q a (lput t s)) (lget s) -> wp (zoom m) Q s.
Proof. unfold wp, zoom. by destruct (m (lget s)). Qed.
End Zoom.

#[export] Instance lens_id {S} : Lens S S | 10.
Proof. by exists (fun s => s) (fun t _ => t). Defined.

(** ** Machine integers *)

(** uint64, uint32 and int arithmetic of the C code, written out as wrap-around
    on [Z]. *)
Definition u64 (z : Z) : Z := z mod 2 ^ 64.
Definition u32 (z : Z) : Z := z mod 2 ^ 32.
Definition u16 (z : Z) : Z := z mod 2 ^ 16.
Definition i32 (z : Z) : Z := (z + 2 ^ 31) mod 2 ^ 32 - 2 ^ 31.
Definition i16 (z : Z) : Z := (z + 2 ^ 15) mod 2 ^ 16 - 2 ^ 15.

Lemma u64_small z : 0 <= z < 2 ^ 64 -> u64 z = z.
Proof. apply Z.mod_small. Qed.

Lemma u64_range z : 0 <= u64 z < 2 ^ 64.
Proof. apply Z.mod_pos_bound. lia. Qed.

Lemma u32_small z : 0 <= z < 2 ^ 32 -> u32 z = z.
Proof. apply Z.mod_small. Qed.

Lemma u32_range z : 0 <= u32 z < 2 ^ 32.
Proof. apply Z.mod_pos_bound. lia. Qed.

Lemma i32_small z : - 2 ^ 31 <= z < 2 ^ 31 -> i32 z = z.
Proof. intros. unfold i32. rewrite Z.mod_small; lia. Qed.

Lemma i32_range z : - 2 ^ 31 <= i32 z < 2 ^ 31.
Proof. unfold i32. pose proof (Z.mod_pos_bound (z + 2 ^ 31) (2 ^ 32)). lia. Qed.

(** ** Automation *)

Create HintDb xv6.
Create Rewrite HintDb xv6.
#[export] Hint Resolve u64_range u32_range i32_range : xv6.

(** Turns boolean comparisons in the context into propositions. *)
Ltac bools :=
  repeat match goal with
  | H : _ && _ = true |- _ => apply andb_true_iff in H; destruct H
  | H : _ || _ = false |- _ => apply orb_false_iff in H; destruct H
  | H : negb _ = true |- _ => apply negb_true_iff in H
  | H : negb _ = false |- _ => apply negb_false_iff in H
  | H : (_ =? _) = true |- _ => apply Z.eqb_eq in H
  | H : (_ =? _) = false |- _ => apply Z.eqb_neq in H
  | H : (_ <=? _) = true |- _ => apply Z.leb_le in H
  | H : (_ <=? _) = false |- _ => apply Z.leb_gt in H
  | H : (_ <? _) = true |- _ => apply Z.ltb_lt in H
  | H : (_ <? _) = false |- _ => apply Z.ltb_ge in H
  | H : bool_decide _ = true |- _ => apply bool_decide_eq_true in H
  | H : bool_decide _ = false |- _ => apply bool_decide_eq_false in H
  end.

(** One step of symbolic execution of a monadic program under [wp]. *)
Ltac wp_step :=
  match goal with
  | |- wp (bind _ _) _ _ => apply wp_bind
  | |- wp (ret _) _ _ => apply wp_ret
  | |- wp (gets _) _ _ => apply wp_gets
  | |- wp (modify _) _ _ => apply wp_modify
  | |- wp (when _ _) _ _ => apply wp_when; intros
  | |- wp (if _ then _ else _) _ _ => apply wp_if; intros
  end.
Ltac wp_steps := repeat (wp_step; cbv beta iota).

(** Runs the first operation of a program, given its equation, or reads the state. *)
Ltac run E := apply wp_bind; eapply wp_Ok; [exact E|].
Ltac step_get := apply wp_bind, wp_gets.
