(* ===== verification/Riscv.v ===== *)
(** Constants and macros of kernel/riscv.h, kernel/memlayout.h and
    kernel/param.h: page arithmetic, page-table entries, the Sv39 index
    split of a virtual address, and the memory layout.

    The macros are translated as the bit operations they are; the lemmas
    give their arithmetic meaning, which is what the clients use. *)

From stdpp Require Import base tactics.
From Stdlib Require Import ZArith Lia Bool.
From S2P Require Import Prelude.

Local Open Scope Z_scope.
#[local] Ltac Zify.zify_post_hook ::= Z.to_euclidean_division_equations.

(** ** riscv.h *)

Definition PGSIZE : Z := 4096.
Definition PGSHIFT : Z := 12.

Definition PGROUNDUP (sz : Z) : Z := Z.land (u64 (sz + PGSIZE - 1)) (Z.lnot (PGSIZE - 1)).
Definition PGROUNDDOWN (a : Z) : Z := Z.land a (Z.lnot (PGSIZE - 1)).

Definition PTE_V : Z := Z.shiftl 1 0.
Definition PTE_R : Z := Z.shiftl 1 1.
Definition PTE_W : Z := Z.shiftl 1 2.
Definition PTE_X : Z := Z.shiftl 1 3.
Definition PTE_U : Z := Z.shiftl 1 4.
Definition PTE_COW : Z := Z.shiftl 1 8.

Definition PA2PTE (pa : Z) : Z := Z.shiftl (Z.shiftr pa 12) 10.
Definition PTE2PA (pte : Z) : Z := u64 (Z.shiftl (Z.shiftr pte 10) 12).
Definition PTE_FLAGS (pte : Z) : Z := Z.land pte 0x3FF.

Definition PXMASK : Z := 0x1FF.
Definition PXSHIFT (level : Z) : Z := PGSHIFT + 9 * level.
Definition PX (level va : Z) : Z := Z.land (Z.shiftr va (PXSHIFT level)) PXMASK.

Definition MAXVA : Z := Z.shiftl 1 (9 + 9 + 9 + 12 - 1).

Definition SATP_SV39 : Z := Z.shiftl 8 60.
Definition MAKE_SATP (pagetable : Z) : Z := Z.lor SATP_SV39 (Z.shiftr pagetable 12).

Definition SSTATUS_SPP : Z := Z.shiftl 1 8.
Definition SSTATUS_SPIE : Z := Z.shiftl 1 5.
Definition SSTATUS_SIE : Z := Z.shiftl 1 1.

(** Does the page-table entry have the flag bit(s) [f]?  C's [pte & f]. *)
Definition has (pte f : Z) : bool := negb (Z.land pte f =? 0).

(** ** memlayout.h *)

Definition UART0 : Z := 0x10000000.
Definition UART0_IRQ : Z := 10.
Definition VIRTIO0 : Z := 0x10001000.
Definition VIRTIO0_IRQ : Z := 1.
Definition CLINT : Z := 0x2000000.
Definition CLINT_MTIMECMP (hartid : Z) : Z := CLINT + 0x4000 + 8 * hartid.
Definition CLINT_MTIME : Z := CLINT + 0xBFF8.
Definition PLIC : Z := 0x0c000000.
Definition PLIC_SENABLE (hart : Z) : Z := PLIC + 0x2080 + hart * 0x100.
Definition PLIC_SPRIORITY (hart : Z) : Z := PLIC + 0x201000 + hart * 0x2000.
Definition PLIC_SCLAIM (hart : Z) : Z := PLIC + 0x201004 + hart * 0x2000.

Definition KERNBASE : Z := 0x80000000.
Definition PHYSTOP : Z := KERNBASE + 128 * 1024 * 1024.
Definition TRAMPOLINE : Z := MAXVA - PGSIZE.
Definition KSTACK (p : Z) : Z := TRAMPOLINE - (p + 1) * 2 * PGSIZE.
Definition TRAPFRAME : Z := TRAMPOLINE - PGSIZE.

(** ** param.h *)

Definition NPROC : nat := 64.
Definition NCPU : Z := 8.
Definition NOFILE : nat := 16.
Definition NFILE : nat := 100.
Definition NINODE : nat := 50.
Definition NDEV : Z := 10.
Definition ROOTDEV : Z := 1.
Definition MAXARG : nat := 32.
Definition MAXOPBLOCKS : Z := 10.
Definition LOGSIZE : Z := MAXOPBLOCKS * 3.
Definition NBUF : nat := 30.
Definition FSSIZE : Z := 1000.
Definition MAXPATH : Z := 128.

(** ** The linked kernel image *)

(** The addresses kernel.ld assigns.  [end] is the first address after the
    kernel, [etext] the end of its code (page aligned by the script), and
    [trampoline] the page of trampoline.S inside the code. *)
Class KernelImage := {
  image_end : Z;
  etext : Z;
  trampoline : Z;
  etext_aligned : etext mod PGSIZE = 0;
  trampoline_aligned : trampoline mod PGSIZE = 0;
  image_layout : KERNBASE <= trampoline /\ trampoline + PGSIZE <= etext /\
                 etext <= image_end /\ image_end <= PHYSTOP;
}.

(** A physical page that kalloc() may hand out. *)
Definition page_ok `{KernelImage} (pa : Z) : Prop :=
  pa mod PGSIZE = 0 /\ image_end <= pa < PHYSTOP.

(** A kernel image that leaves the allocator three pages, for examples. *)
Definition small_image : KernelImage.
Proof.
  refine {| image_end := PHYSTOP - 3 * PGSIZE; etext := KERNBASE + 8 * PGSIZE;
            trampoline := KERNBASE + 7 * PGSIZE |}; [reflexivity|reflexivity|].
  unfold PHYSTOP, KERNBASE, PGSIZE. lia.
Defined.

(** ** Arithmetic meaning of the macros *)

Lemma PGROUNDDOWN_eq a : PGROUNDDOWN a = a / PGSIZE * PGSIZE.
Proof.
  unfold PGROUNDDOWN, PGSIZE. change (4096 - 1) with (Z.ones 12).
  rewrite <- Z.ldiff_land, Z.ldiff_ones_r by lia.
  rewrite Z.shiftl_mul_pow2, Z.shiftr_div_pow2 by lia. done.
Qed.

Lemma PGROUNDUP_eq sz :
  PGROUNDUP sz = u64 (sz + PGSIZE - 1) / PGSIZE * PGSIZE.
Proof. unfold PGROUNDUP. apply PGROUNDDOWN_eq. Qed.

Lemma PTE2PA_eq pte : PTE2PA pte = u64 (pte / 1024 * PGSIZE).
Proof.
  unfold PTE2PA, PGSIZE. by rewrite Z.shiftl_mul_pow2, Z.shiftr_div_pow2 by lia.
Qed.

Lemma PA2PTE_eq pa : PA2PTE pa = pa / PGSIZE * 1024.
Proof.
  unfold PA2PTE, PGSIZE. by rewrite Z.shiftl_mul_pow2, Z.shiftr_div_pow2 by lia.
Qed.

Lemma PTE_FLAGS_eq pte : PTE_FLAGS pte = pte mod 1024.
Proof. unfold PTE_FLAGS. change 0x3FF with (Z.ones 10). by rewrite Z.land_ones by lia. Qed.

Lemma PX_eq level va : 0 <= level -> PX level va = va / 2 ^ (12 + 9 * level) mod 512.
Proof.
  intros. unfold PX, PXMASK, PXSHIFT, PGSHIFT. change 0x1FF with (Z.ones 9).
  rewrite Z.land_ones, Z.shiftr_div_pow2 by lia. done.
Qed.

Lemma PX_range level va : 0 <= level -> 0 <= PX level va < 512.
Proof. intros. rewrite PX_eq by done. apply Z.mod_pos_bound. lia. Qed.

Lemma MAXVA_eq : MAXVA = 2 ^ 38.
Proof. reflexivity. Qed.

Lemma PGROUNDDOWN_bounds a : PGROUNDDOWN a <= a < PGROUNDDOWN a + PGSIZE.
Proof. rewrite PGROUNDDOWN_eq. unfold PGSIZE. lia. Qed.

Lemma PGROUNDDOWN_aligned a : PGROUNDDOWN a mod PGSIZE = 0.
Proof. rewrite PGROUNDDOWN_eq. by apply Z.mod_mul. Qed.

Lemma PGROUNDDOWN_id a : a mod PGSIZE = 0 -> PGROUNDDOWN a = a.
Proof. rewrite PGROUNDDOWN_eq. unfold PGSIZE. lia. Qed.

Lemma PGROUNDDOWN_iff a va :
  a mod PGSIZE = 0 -> PGROUNDDOWN va = a <-> a <= va < a + PGSIZE.
Proof. rewrite PGROUNDDOWN_eq. unfold PGSIZE. lia. Qed.

(** Rounding up, when it does not wrap around, is the least multiple of the
    page size that is not smaller. *)
Lemma PGROUNDUP_spec sz :
  0 <= sz <= 2 ^ 64 - PGSIZE ->
  PGROUNDUP sz mod PGSIZE = 0 /\ sz <= PGROUNDUP sz < sz + PGSIZE.
Proof.
  intros H. rewrite PGROUNDUP_eq, u64_small by (unfold PGSIZE in *; lia).
  split; [by apply Z.mod_mul|]. unfold PGSIZE in *. lia.
Qed.

(** The bits of a page-table entry. *)
Lemma has_bit pte k : 0 <= k -> has pte (Z.shiftl 1 k) = Z.testbit pte k.
Proof.
  intros Hk. unfold has. rewrite Z.shiftl_1_l.
  destruct (Z.testbit pte k) eqn:E.
  - apply negb_true_iff, Z.eqb_neq. intros H0.
    assert (Z.testbit (Z.land pte (2 ^ k)) k = false) as Hf by (rewrite H0; apply Z.testbit_0_l).
    rewrite Z.land_spec, E, Z.pow2_bits_true in Hf by done. done.
  - apply negb_false_iff, Z.eqb_eq. apply Z.bits_inj'. intros n Hn.
    rewrite Z.land_spec, Z.testbit_0_l, Z.pow2_bits_eqb by done.
    destruct (Z.eqb_spec k n) as [->|]; [by rewrite E|apply andb_false_r].
Qed.

Lemma lor_disjoint k f : 0 <= f < 1024 -> Z.lor (k * 1024) f = k * 1024 + f.
Proof.
  intros Hf. rewrite <- Z.add_lor_land.
  assert (Z.land (k * 1024) f = 0) as ->; [|lia].
  apply Z.bits_inj'. intros n Hn. rewrite Z.land_spec, Z.testbit_0_l.
  change 1024 with (2 ^ 10). destruct (Z.ltb_spec n 10).
  - by rewrite Z.mul_pow2_bits_low.
  - rewrite <- (Z.mod_small f (2 ^ 10)) by done.
    rewrite Z.mod_pow2_bits_high by lia. apply andb_false_r.
Qed.

Lemma shiftr_cow pte w f :
  Z.shiftr (Z.lnot w) 10 = -1 -> Z.shiftr f 10 = 0 ->
  Z.shiftr (Z.lor (Z.land pte (Z.lnot w)) f) 10 = Z.shiftr pte 10.
Proof.
  intros Hw Hf. by rewrite Z.shiftr_lor, Z.shiftr_land, Hw, Hf, Z.lor_0_r, Z.land_m1_r.
Qed.

(** Packing an address and flags into an entry and taking them out again. *)
Lemma PTE2PA_pack pa f :
  pa mod PGSIZE = 0 -> 0 <= pa < 2 ^ 56 -> 0 <= f < 1024 ->
  PTE2PA (Z.lor (PA2PTE pa) f) = pa.
Proof.
  intros Ha Hr Hf. rewrite PA2PTE_eq, lor_disjoint, PTE2PA_eq by done.
  unfold PGSIZE in *. rewrite u64_small; lia.
Qed.

Lemma PTE_FLAGS_pack pa f :
  0 <= f < 1024 -> PTE_FLAGS (Z.lor (PA2PTE pa) f) = f.
Proof.
  intros Hf. rewrite PA2PTE_eq, lor_disjoint, PTE_FLAGS_eq by done. lia.
Qed.

Lemma has_flags pte f : 0 <= f < 1024 -> has pte f = has (PTE_FLAGS pte) f.
Proof.
  intros Hf. unfold has, PTE_FLAGS. rewrite <- Z.land_assoc.
  assert (Z.land 0x3FF f = f) as ->; [|done].
  rewrite Z.land_comm. change 0x3FF with (Z.ones 10).
  rewrite Z.land_ones by lia. by apply Z.mod_small.
Qed.

(** The three indices and the page offset determine the address. *)
Lemma PX_split va :
  0 <= va < MAXVA ->
  va = PX 2 va * 2 ^ 30 + PX 1 va * 2 ^ 21 + PX 0 va * 2 ^ 12 + va mod PGSIZE.
Proof.
  intros Hva. rewrite MAXVA_eq in Hva. rewrite !PX_eq by lia. unfold PGSIZE.
  change (12 + 9 * 2) with 30. change (12 + 9 * 1) with 21. change (12 + 9 * 0) with 12.
  lia.
Qed.

Lemma PX_inj va va' :
  0 <= va < MAXVA -> 0 <= va' < MAXVA ->
  PX 2 va = PX 2 va' -> PX 1 va = PX 1 va' -> PX 0 va = PX 0 va' ->
  PGROUNDDOWN va = PGROUNDDOWN va'.
Proof.
  intros H1 H2 E2 E1 E0. apply PX_split in H1, H2. rewrite !PGROUNDDOWN_eq.
  unfold PGSIZE in *. lia.
Qed.

Lemma PX_rounddown level va : 0 <= level -> PX level (PGROUNDDOWN va) = PX level va.
Proof.
  intros Hl. rewrite !PX_eq, PGROUNDDOWN_eq by done.
  unfold PGSIZE. rewrite Z.pow_add_r by lia. change (2 ^ 12) with 4096.
  rewrite <- !Z.div_div by lia. by rewrite Z.div_mul.
Qed.

Lemma page_ok_range `{KernelImage} pa : page_ok pa -> KERNBASE <= pa < PHYSTOP.
Proof. intros [_ ?]. pose proof image_layout. unfold PGSIZE in *. lia. Qed.

Lemma page_ok_disjoint `{KernelImage} p q :
  page_ok p -> page_ok q -> p <> q -> p + PGSIZE <= q \/ q + PGSIZE <= p.
Proof. intros [Hp _] [Hq _]. unfold PGSIZE in *. lia. Qed.
