(* ===== verification/Mem.v ===== *)
(** Physical memory.

    A memory maps every physical address to a byte.  The routines of
    string.c are translated loop by loop in StringC.v; their theorems
    say what the loops compute, in terms of [fill], [copy] and [wr], the
    range operations the rest of the development uses. *)

From stdpp Require Import base tactics list numbers.
From Stdlib Require Import ZArith Lia FunctionalExtensionality.
From coqutil Require Import Byte Word.LittleEndianList.
From S2P Require Import Prelude.

Local Open Scope Z_scope.
Local Open Scope kern_scope.

Definition mem : Type := Z -> byte.

#[export] Instance byte_eq_dec : EqDecision byte.
Proof. intros x y. apply Byte.byte_eq_dec. Defined.

(** ** Reading and writing ranges *)

Definition in_range (a n x : Z) : bool := (a <=? x) && (x <? a + n).

Definition upd (m : mem) (a : Z) (b : byte) : mem :=
  fun x => if x =? a then b else m x.

(** The [n] bytes from address [a] on. *)
Definition rd (m : mem) (a : Z) (n : nat) : list byte :=
  List.map (fun i => m (a + Z.of_nat i)) (seq 0 n).

(** Write the bytes [bs] from address [a] on. *)
Definition wr (m : mem) (a : Z) (bs : list byte) : mem :=
  fun x => if in_range a (Z.of_nat (length bs)) x
           then nth (Z.to_nat (x - a)) bs Byte.x00 else m x.

(** Set [n] bytes from [a] on to (the low byte of) [c]. *)
Definition fill (m : mem) (a c n : Z) : mem :=
  fun x => if in_range a n x then byte.of_Z c else m x.

(** Copy [n] bytes from [src] to [dst], as if through a temporary. *)
Definition copy (m : mem) (dst src n : Z) : mem :=
  fun x => if in_range dst n x then m (src + (x - dst)) else m x.

(** 64-bit little-endian loads and stores (RISC-V). *)
Definition load64 (m : mem) (a : Z) : Z := le_combine (rd m a 8).
Definition store64 (m : mem) (a v : Z) : mem := wr m a (le_split 8 v).

(** Two memories agree on a range. *)
Definition same_on (m m' : mem) (a n : Z) : Prop :=
  forall x, a <= x < a + n -> m' x = m x.

(** ** Lemmas *)

Lemma in_range_spec a n x : in_range a n x = true <-> a <= x < a + n.
Proof. unfold in_range. rewrite andb_true_iff, Z.leb_le, Z.ltb_lt. lia. Qed.

Lemma in_range_false a n x : in_range a n x = false <-> ~ (a <= x < a + n).
Proof. rewrite <- in_range_spec. by destruct (in_range a n x). Qed.

Lemma length_rd m a n : length (rd m a n) = n.
Proof. unfold rd. by rewrite length_map, length_seq. Qed.

Lemma rd_ext m m' a n : same_on m m' a (Z.of_nat n) -> rd m' a n = rd m a n.
Proof.
  intros H. unfold rd. apply map_ext_in. intros i Hi%in_seq. apply H. lia.
Qed.

Lemma rd_nth m a n i : (i < n)%nat -> nth i (rd m a n) Byte.x00 = m (a + Z.of_nat i).
Proof.
  intros Hi. unfold rd.
  rewrite (nth_indep _ Byte.x00 (m (a + Z.of_nat 0))) by (rewrite length_map, length_seq; lia).
  rewrite (map_nth (fun i => m (a + Z.of_nat i))), seq_nth by lia. done.
Qed.

Lemma wr_in m a bs x :
  a <= x < a + Z.of_nat (length bs) -> wr m a bs x = nth (Z.to_nat (x - a)) bs Byte.x00.
Proof. intros H. unfold wr. by rewrite (proj2 (in_range_spec _ _ _) H). Qed.

Lemma wr_out m a bs x :
  ~ (a <= x < a + Z.of_nat (length bs)) -> wr m a bs x = m x.
Proof. intros H. unfold wr. by rewrite (proj2 (in_range_false _ _ _) H). Qed.

Lemma fill_in m a c n x : a <= x < a + n -> fill m a c n x = byte.of_Z c.
Proof. intros H. unfold fill. by rewrite (proj2 (in_range_spec _ _ _) H). Qed.

Lemma fill_out m a c n x : ~ (a <= x < a + n) -> fill m a c n x = m x.
Proof. intros H. unfold fill. by rewrite (proj2 (in_range_false _ _ _) H). Qed.

Lemma copy_in m d s n x : d <= x < d + n -> copy m d s n x = m (s + (x - d)).
Proof. intros H. unfold copy. by rewrite (proj2 (in_range_spec _ _ _) H). Qed.

Lemma copy_out m d s n x : ~ (d <= x < d + n) -> copy m d s n x = m x.
Proof. intros H. unfold copy. by rewrite (proj2 (in_range_false _ _ _) H). Qed.

Lemma rd_wr_same m a bs : rd (wr m a bs) a (length bs) = bs.
Proof.
  apply (nth_ext _ _ Byte.x00 Byte.x00); [apply length_rd|].
  intros i Hi. rewrite length_rd in Hi. rewrite rd_nth by done.
  rewrite wr_in by lia. f_equal. lia.
Qed.

Lemma store64_out m a v x : ~ (a <= x < a + 8) -> store64 m a v x = m x.
Proof. intros. apply wr_out. rewrite length_le_split. lia. Qed.

Lemma load64_store64_same m a v : load64 (store64 m a v) a = u64 v.
Proof.
  unfold load64, store64.
  pose proof (rd_wr_same m a (le_split 8 v)) as H.
  rewrite length_le_split in H. rewrite H. apply le_combine_split.
Qed.

Lemma load64_ext m m' a : same_on m m' a 8 -> load64 m' a = load64 m a.
Proof. intros H. unfold load64. by rewrite (rd_ext m m'). Qed.

Lemma load64_store64_other m a b v :
  a + 8 <= b \/ b + 8 <= a -> load64 (store64 m a v) b = load64 m b.
Proof. intros H. apply load64_ext. intros x Hx. apply store64_out. lia. Qed.

Lemma load64_range m a : 0 <= load64 m a < 2 ^ 64.
Proof.
  unfold load64. pose proof (le_combine_bound (rd m a 8)) as H.
  rewrite length_rd in H. exact H.
Qed.

Lemma load64_fill0 m a n b : a <= b -> b + 8 <= a + n -> load64 (fill m a 0 n) b = 0.
Proof.
  intros H1 H2. unfold load64.
  assert (rd (fill m a 0 n) b 8 = List.repeat Byte.x00 8) as ->; [|apply le_combine_0].
  apply (nth_ext _ _ Byte.x00 Byte.x00); [by rewrite length_rd|].
  intros i Hi. rewrite length_rd in Hi. rewrite rd_nth by done.
  rewrite fill_in by lia. rewrite nth_repeat_lt by done. done.
Qed.

Lemma same_on_refl m a n : same_on m m a n.
Proof. by intros x _. Qed.

Lemma same_on_trans m1 m2 m3 a n :
  same_on m1 m2 a n -> same_on m2 m3 a n -> same_on m1 m3 a n.
Proof. intros H1 H2 x Hx. rewrite (H2 x Hx). by apply H1. Qed.

Lemma same_on_sub m m' a n b k :
  same_on m m' a n -> a <= b -> b + k <= a + n -> same_on m m' b k.
Proof. intros H ? ? x Hx. apply H. lia. Qed.

#[export] Hint Resolve same_on_refl load64_range : xv6.
