(* ===== verification/StringC.v ===== *)
(** The routines of kernel/string.c, translated loop by loop over memory,
    and what each of them computes.

    The state of the monad is the memory itself.  [cstr m s l]
    says that the C string at address [s] is [l]. *)

From stdpp Require Import base tactics list numbers.
From Stdlib Require Import ZArith Lia FunctionalExtensionality.
From coqutil Require Import Byte.
From S2P Require Import Prelude Mem.

Local Open Scope Z_scope.
Local Open Scope kern_scope.

(** ** Definitions *)

Definition getb (a : Z) : M mem Z := gets (fun m => byte.unsigned (m a)).
Definition putb (a v : Z) : M mem unit := modify (fun m => upd m a (byte.of_Z v)).

(** for(i = 0; i < n; i++) cdst[i] = c;   with int i and uint n *)
Definition memset (dst c n : Z) : M mem Z :=
  loop (fun i =>
          if u32 i <? n
          then putb (dst + i) c ;;; ret (inl (i32 (i + 1)))
          else ret (inr dst)) 0.

(** while(n-- > 0){ if( *s1 != *s2 ) return *s1 - *s2; s1++, s2++; } *)
Definition memcmp (v1 v2 n : Z) : M mem Z :=
  loop (fun '(s1, s2, n) =>
          if 0 <? n
          then let* a := getb s1 in
               let* b := getb s2 in
               if negb (a =? b) then ret (inr (a - b))
               else ret (inl (s1 + 1, s2 + 1, u32 (n - 1)))
          else ret (inr 0)) (v1, v2, n).

(** while(n-- > 0) *--d = *--s; *)
Definition move_down (d s n : Z) : M mem unit :=
  loop (fun '(d, s, n) =>
          if 0 <? n
          then let* b := getb (s - 1) in
               putb (d - 1) b ;;;
               ret (inl (d - 1, s - 1, u32 (n - 1)))
          else ret (inr tt)) (d, s, n).

(** while(n-- > 0) *d++ = *s++; *)
Definition move_up (d s n : Z) : M mem unit :=
  loop (fun '(d, s, n) =>
          if 0 <? n
          then let* b := getb s in
               putb d b ;;;
               ret (inl (d + 1, s + 1, u32 (n - 1)))
          else ret (inr tt)) (d, s, n).

Definition memmove (dst src n : Z) : M mem Z :=
  (if (src <? dst) && (dst <? src + n)
   then move_down (dst + n) (src + n) n
   else move_up dst src n) ;;;
  ret dst.

Definition memcpy (dst src n : Z) : M mem Z := memmove dst src n.

Definition strncmp (p q n : Z) : M mem Z :=
  let* r := loop (fun '(p, q, n) =>
      if 0 <? n
      then let* a := getb p in
           let* b := getb q in
           if negb (a =? 0) && (a =? b)
           then ret (inl (p + 1, q + 1, n - 1))
           else ret (inr (p, q, n))
      else ret (inr (p, q, n))) (p, q, n) in
  let '(p, q, n) := r in
  if n =? 0 then ret 0
  else let* a := getb p in
       let* b := getb q in
       ret (a - b).

(** while(n-- > 0 && ( *s++ = *t++ ) != 0) ;  while(n-- > 0) *s++ = 0; *)
Definition strncpy (s t n : Z) : M mem Z :=
  let* r := loop (fun '(s, t, n) =>
      if 0 <? n
      then let* b := getb t in
           putb s b ;;;
           if negb (b =? 0) then ret (inl (s + 1, t + 1, n - 1))
           else ret (inr (s + 1, n - 1))
      else ret (inr (s, n - 1))) (s, t, n) in
  loop (fun '(s, n) =>
      if 0 <? n
      then putb s 0 ;;; ret (inl (s + 1, n - 1))
      else ret (inr tt)) r ;;;
  ret s.

(** if(n <= 0) return os;  while(--n > 0 && ( *s++ = *t++ ) != 0) ;  *s = 0; *)
Definition safestrcpy (s t n : Z) : M mem Z :=
  if n <=? 0 then ret s
  else
    let* s' := loop (fun '(s, t, n) =>
        if 0 <? n - 1
        then let* b := getb t in
             putb s b ;;;
             if negb (b =? 0) then ret (inl (s + 1, t + 1, n - 1))
             else ret (inr (s + 1))
        else ret (inr s)) (s, t, n) in
    putb s' 0 ;;;
    ret s.

Definition strlen (s : Z) : M mem Z :=
  loop (fun n =>
          let* b := getb (s + n) in
          if negb (b =? 0) then ret (inl (i32 (n + 1))) else ret (inr n)) 0.

(** The C string at [s], cut after [n] bytes: what strncmp() and strncpy()
    look at. *)
Fixpoint cname (m : mem) (s : Z) (n : nat) : list byte :=
  match n with
  | O => []
  | S n' => if byte.unsigned (m s) =? 0 then [] else m s :: cname m (s + 1) n'
  end.

(** The C string at [s] is [l]: no NUL in it, and a NUL after it. *)
Definition cstr (m : mem) (s : Z) (l : list byte) : Prop :=
  cname m s (length l) = l /\ byte.unsigned (m (s + Z.of_nat (length l))) = 0.

(** ** Theorems *)

Lemma upd_fill m a c i : 0 <= i -> upd (fill m a c i) (a + i) (byte.of_Z c) = fill m a c (i + 1).
Proof.
  intros Hi. extensionality x. unfold upd, fill, in_range.
  destruct (Z.eqb_spec x (a + i)); destruct (Z.leb_spec a x);
    destruct (Z.ltb_spec x (a + i)); destruct (Z.ltb_spec x (a + (i + 1))); simpl; lia || done.
Qed.

(** memset() writes its byte to every address of the range, leaves the
    rest of memory alone, terminates, and returns its destination. *)
Theorem memset_correct m dst c n :
  0 <= n < 2 ^ 31 -> memset dst c n m = Ok dst (fill m dst c n).
Proof.
  intros Hn. enough (wp (memset dst c n) (fun r m' => r = dst /\ m' = fill m dst c n) m) as H.
  { apply wp_elim in H as (? & ? & -> & -> & ->). done. }
  unfold memset, memcmp, move_up, move_down. apply wp_loop with (n := n) (I := fun k i m' => 0 <= i <= n /\ k = n - i /\ m' = fill m dst c i).
  - intros k i m' Hk (Hi & -> & ->). rewrite (u32_small i) by lia.
    unfold getb, putb; wp_steps; bools.
    + exists (n - (i + 1)). rewrite i32_small by lia. split_and!; try lia.
      apply upd_fill. lia.
    + assert (i = n) as -> by lia. done.
  - lia.
  - split_and!; try lia. extensionality x. unfold fill, in_range.
    destruct (Z.leb_spec dst x), (Z.ltb_spec x (dst + 0)); simpl; lia || done.
Qed.

(** Case analysis on every range test in the goal. *)
Ltac ranges :=
  unfold upd, copy, fill, in_range;
  repeat match goal with
  | |- context [?a <=? ?b] => destruct (Z.leb_spec a b)
  | |- context [?a <? ?b] => destruct (Z.ltb_spec a b)
  | |- context [?a =? ?b] => destruct (Z.eqb_spec a b)
  end; simpl; try lia; try done; try (f_equal; lia).

Lemma move_up_wp m d s n :
  0 <= n < 2 ^ 32 -> d <= s \/ s + n <= d ->
  wp (move_up d s n) (fun _ m' => m' = copy m d s n) m.
Proof.
  intros Hn Hd.
  unfold memset, memcmp, move_up, move_down. apply wp_loop with (n := n)
    (I := fun k '(d', s', n') m' => exists i, 0 <= i <= n /\ k = n - i /\ n' = n - i /\
                                     d' = d + i /\ s' = s + i /\ m' = copy m d s i).
  - intros k [[d' s'] n'] m' Hk (i & Hi & -> & -> & -> & -> & ->).
    unfold getb, putb; wp_steps; bools.
    + exists (n - (i + 1)). split; [lia|]. exists (i + 1).
      rewrite u32_small by lia. split_and!; try lia.
      rewrite byte.of_Z_unsigned, copy_out by lia.
      extensionality x. ranges.
    + by assert (i = n) as -> by lia.
  - lia.
  - exists 0. split_and!; try lia. extensionality x. ranges.
Qed.

Lemma move_down_wp m d s n :
  0 <= n < 2 ^ 32 -> s < d ->
  wp (move_down (d + n) (s + n) n) (fun _ m' => m' = copy m d s n) m.
Proof.
  intros Hn Hd.
  unfold memset, memcmp, move_up, move_down. apply wp_loop with (n := n)
    (I := fun k '(d', s', n') m' => 0 <= n' <= n /\ k = n' /\ d' = d + n' /\
                                     s' = s + n' /\ m' = copy m d' s' (n - n')).
  - intros k [[d' s'] n'] m' Hk (Hn' & -> & -> & -> & ->).
    unfold getb, putb; wp_steps; bools.
    + exists (n' - 1). rewrite u32_small by lia. split_and!; try lia.
      rewrite byte.of_Z_unsigned, copy_out by lia.
      extensionality x. ranges.
    + assert (n' = 0) as -> by lia. f_equal; lia.
  - lia.
  - split_and!; try lia. extensionality x. ranges.
Qed.

Lemma memmove_eq m dst src n :
  0 <= n < 2 ^ 32 -> memmove dst src n m = Ok dst (copy m dst src n).
Proof.
  intros Hn.
  enough (wp (memmove dst src n) (fun r m' => r = dst /\ m' = copy m dst src n) m) as H.
  { apply wp_elim in H as (? & ? & -> & -> & ->). done. }
  unfold memmove. wp_step. wp_step; bools.
  - eapply wp_mono; [apply move_down_wp; lia|]. intros _ m' ->. by wp_step.
  - eapply wp_mono; [apply move_up_wp; [lia|]|].
    + apply andb_false_iff in H. destruct H; bools; lia.
    + intros _ m' ->. by wp_step.
Qed.

(** Memmove() is a copy through a temporary, whichever way the two
    regions overlap: it terminates, returns its destination, every byte of
    the destination is the old byte of the source, and no other byte
    changes. *)
Theorem memmove_correct m dst src n :
  0 <= n < 2 ^ 32 -> memmove dst src n m = Ok dst (copy m dst src n).
Proof. apply memmove_eq. Qed.

(** Overlapping regions, with the destination above the source. *)
Lemma memmove_correct_witness :
  memmove 3 1 4 byte.of_Z = Ok 3 (copy byte.of_Z 3 1 4) /\ copy byte.of_Z 3 1 4 5 = Byte.x03.
Proof. split; [apply (memmove_correct byte.of_Z 3 1 4); lia|reflexivity]. Defined.

Theorem memcpy_correct m dst src n :
  0 <= n < 2 ^ 32 -> memcpy dst src n m = Ok dst (copy m dst src n).
Proof. apply memmove_eq. Qed.

(** memcmp returns 0 exactly when the two regions hold the same bytes, and
    otherwise the difference of the first two bytes that differ. *)
Theorem memcmp_correct m v1 v2 n :
  0 <= n < 2 ^ 32 ->
  exists r, memcmp v1 v2 n m = Ok r m /\
    ((r = 0 /\ forall i, 0 <= i < n -> m (v1 + i) = m (v2 + i)) \/
     (exists i, 0 <= i < n /\ (forall j, 0 <= j < i -> m (v1 + j) = m (v2 + j)) /\
        r = byte.unsigned (m (v1 + i)) - byte.unsigned (m (v2 + i)) /\ r <> 0)).
Proof.
  intros Hn.
  match goal with |- exists r, _ = _ /\ @?Q r =>
    enough (wp (memcmp v1 v2 n) (fun r m' => m' = m /\ Q r) m) as H end.
  { apply wp_elim in H as (r & ? & -> & -> & H). eauto. }
  unfold memset, memcmp, move_up, move_down. apply wp_loop with (n := n)
    (I := fun k '(s1, s2, n') m' => exists i, 0 <= i <= n /\ k = n - i /\ n' = n - i /\
       s1 = v1 + i /\ s2 = v2 + i /\ m' = m /\ forall j, 0 <= j < i -> m (v1 + j) = m (v2 + j)).
  - intros k [[s1 s2] n'] m' Hk (i & Hi & -> & -> & -> & -> & -> & Heq).
    unfold getb, putb; wp_steps; bools.
    + split; [done|right]. exists i. split_and!; try lia; done.
    + exists (n - (i + 1)). split; [lia|]. exists (i + 1).
      rewrite u32_small by lia. split_and!; try lia; try done.
      intros j Hj. destruct (decide (j = i)) as [->|]; [by apply byte.unsigned_inj|].
      apply Heq. lia.
    + split; [done|left]. split; [done|]. intros j Hj. apply Heq. lia.
  - lia.
  - exists 0. split_and!; try lia; done || lia.
Qed.

(** *** Facts about [cname] *)

Lemma cname_length m s n : (length (cname m s n) <= n)%nat.
Proof.
  revert s. induction n as [|n IH]; intros s; simpl; [done|].
  case_match; simpl; [lia|]. specialize (IH (s + 1)). lia.
Qed.

Lemma cname_ext m m' s n :
  (forall x, s <= x < s + Z.of_nat n -> m' x = m x) -> cname m' s n = cname m s n.
Proof.
  revert s. induction n as [|n IH]; intros s H; simpl; [done|].
  rewrite (H s) by lia. case_match; [done|]. rewrite IH; [done|].
  intros x Hx. apply H. lia.
Qed.

(** Byte [i] of a C string that is at least [i] long. *)
Lemma cname_snoc m s i n :
  length (cname m s i) = i -> (i < n)%nat ->
  cname m s n = if byte.unsigned (m (s + Z.of_nat i)) =? 0 then cname m s i
                else cname m s i ++ m (s + Z.of_nat i) :: cname m (s + Z.of_nat i + 1) (n - i - 1).
Proof.
  revert s n. induction i as [|i IH]; intros s n Hl Hn; (destruct n as [|n]; [lia|]).
  - rewrite Z.add_0_r. simpl. by rewrite !Nat.sub_0_r.
  - replace (s + Z.of_nat (S i)) with (s + 1 + Z.of_nat i) by lia.
    cbn [cname] in *. destruct (byte.unsigned (m s) =? 0) eqn:E; [done|].
    cbn [length] in Hl. rewrite (IH (s + 1) n) by lia.
    by destruct (byte.unsigned (m (s + 1 + Z.of_nat i)) =? 0).
Qed.

Lemma cname_S_len m s i :
  length (cname m s i) = i -> byte.unsigned (m (s + Z.of_nat i)) <> 0 ->
  length (cname m s (S i)) = S i.
Proof.
  intros Hl Hb. rewrite (cname_snoc m s i (S i)) by lia.
  rewrite (proj2 (Z.eqb_neq _ _) Hb), length_app, Hl. simpl.
  replace (S i - i - 1)%nat with 0%nat by lia. simpl. lia.
Qed.

(** The part of a C string before position [i] has length [i] exactly when
    no NUL comes before. *)
Lemma cname_take m s i n :
  (i <= n)%nat -> cname m s i = take i (cname m s n).
Proof.
  revert s n. induction i as [|i IH]; intros s n Hn; [done|].
  destruct n as [|n]; [lia|]. simpl. case_match; [done|]. simpl. f_equal. apply IH. lia.
Qed.

(** strlen counts the bytes before the NUL. *)
Theorem strlen_correct m s l :
  cstr m s l -> Z.of_nat (length l) < 2 ^ 31 -> strlen s m = Ok (Z.of_nat (length l)) m.
Proof.
  intros [Hl H0] Hlen.
  enough (wp (strlen s) (fun r m' => r = Z.of_nat (length l) /\ m' = m) m) as H.
  { apply wp_elim in H as (? & ? & -> & -> & ->). done. }
  unfold strlen. apply wp_loop with (n := Z.of_nat (length l))
    (I := fun k i m' => 0 <= i <= Z.of_nat (length l) /\ k = Z.of_nat (length l) - i /\ m' = m).
  - intros k i m' Hk (Hi & -> & ->). unfold getb; wp_steps; bools.
    + exists (Z.of_nat (length l) - (i + 1)).
      assert (i <> Z.of_nat (length l)) by (intros ->; congruence).
      rewrite i32_small by lia. split_and!; lia || done.
    + split; [|done]. destruct (decide (i = Z.of_nat (length l))) as [|Hne]; [done|exfalso].
      assert (length (cname m s (Z.to_nat i)) = Z.to_nat i) as Hi'.
      { rewrite (cname_take m s _ (length l)), Hl, length_take by lia. lia. }
      pose proof (cname_snoc m s _ (length l) Hi' ltac:(lia)) as E.
      rewrite Z2Nat.id, H, Hl in E by lia. simpl in E.
      assert (length l = length (cname m s (Z.to_nat i))) as E' by (by rewrite E at 1). lia.
  - lia.
  - split_and!; lia || done.
Qed.

(** strncmp compares two C strings cut after [n] bytes: the result is 0
    exactly when they are equal. *)
Theorem strncmp_correct m p q n :
  0 <= n < 2 ^ 32 ->
  exists r, strncmp p q n m = Ok r m /\
    (r = 0 <-> cname m p (Z.to_nat n) = cname m q (Z.to_nat n)).
Proof.
  intros Hn.
  enough (wp (strncmp p q n)
            (fun r m' => m' = m /\ (r = 0 <-> cname m p (Z.to_nat n) = cname m q (Z.to_nat n))) m) as H.
  { apply wp_elim in H as (r & ? & -> & -> & H). eauto. }
  unfold strncmp. wp_step.
  apply wp_loop with (n := n)
    (I := fun k '(p', q', n') m' => 0 <= n' <= n /\ k = n' /\ m' = m /\
       (cname m p (Z.to_nat n) = cname m q (Z.to_nat n) <->
        cname m p' (Z.to_nat n') = cname m q' (Z.to_nat n'))).
  - intros k [[p' q'] n'] m' Hk (Hn' & -> & -> & Heq).
    assert (0 < n' -> forall s, cname m s (Z.to_nat n') =
              if byte.unsigned (m s) =? 0 then [] else m s :: cname m (s + 1) (Z.to_nat (n' - 1))) as Hc.
    { intros ? s. by replace (Z.to_nat n') with (S (Z.to_nat (n' - 1))) by lia. }
    unfold getb; wp_steps; bools.
    + exists (n' - 1). split_and!; try lia; try done. rewrite Heq, !Hc by lia.
      rewrite <- (byte.unsigned_inj _ _ H1), (proj2 (Z.eqb_neq _ _) H0). split; [by intros [= ?]|by intros ->].
    + lia.
    + split; [done|]. rewrite Heq, !Hc by lia.
      destruct (Z.eqb_spec (byte.unsigned (m p')) 0) as [E1|E1],
               (Z.eqb_spec (byte.unsigned (m q')) 0) as [E2|E2]; simpl in *.
      * rewrite E1, E2. done.
      * split; [lia|done].
      * split; [lia|done].
      * apply Z.eqb_neq in H0. split; [lia|]. intros [= E _]. by rewrite E in H0.
    + assert (n' = 0) as -> by lia. split; [done|]. split; [intros _; by rewrite Heq|done].
    + lia.
  - lia.
  - split_and!; lia || done.
Qed.

Lemma wr_snoc m s l b :
  upd (wr m s l) (s + Z.of_nat (length l)) b = wr m s (l ++ [b]).
Proof.
  extensionality x. unfold upd, wr, in_range. rewrite length_app. simpl.
  destruct (Z.eqb_spec x (s + Z.of_nat (length l))) as [->|Hne].
  - rewrite (proj2 (Z.leb_le _ _)), (proj2 (Z.ltb_lt _ _)) by lia. simpl.
    replace (Z.to_nat _) with (length l) by lia. by rewrite nth_middle.
  - destruct (Z.leb_spec s x); [simpl|done].
    destruct (Z.ltb_spec x (s + Z.of_nat (length l))).
    + rewrite (proj2 (Z.ltb_lt _ _)) by lia. by rewrite app_nth1 by lia.
    + rewrite (proj2 (Z.ltb_ge _ _)) by lia. done.
Qed.

Lemma wr_nil m s : wr m s [] = m.
Proof. extensionality x. unfold wr, in_range. simpl. ranges. Qed.

(** A copied C string with the rest of the [n] bytes zeroed, as strncpy()
    leaves it. *)
Definition padded (l : list byte) (n : nat) : list byte :=
  l ++ List.repeat Byte.x00 (n - length l).

Lemma wr_far m s l x n :
  (length l <= n)%nat -> s + Z.of_nat n <= x \/ x < s -> wr m s l x = m x.
Proof. intros. apply wr_out. lia. Qed.

(** The first loop of strncpy(): after it, the string has been copied, with
    its NUL if it is shorter than [n]. *)
Lemma strncpy_copy m s t n :
  0 <= n < 2 ^ 31 -> s + n <= t \/ t + n <= s ->
  wp (loop (fun '(s, t, n) =>
        if 0 <? n
        then let* b := getb t in
             putb s b ;;;
             if negb (b =? 0) then ret (inl (s + 1, t + 1, n - 1))
             else ret (inr (s + 1, n - 1))
        else ret (inr (s, n - 1))) (s, t, n))
     (fun '(s1, n1) m' => exists l, m' = wr m s l /\ s1 = s + Z.of_nat (length l) /\
        (length l <= Z.to_nat n)%nat /\
        l ++ List.repeat Byte.x00 (Z.to_nat n - length l)
          = padded (cname m t (Z.to_nat n)) (Z.to_nat n) /\
        Z.max n1 0 = n - Z.of_nat (length l)) m.
Proof.
  intros Hn Hd.
  apply wp_loop with (n := n)
    (I := fun k '(s', t', n') m' => exists i, k = n' /\ n' = n - Z.of_nat i /\ 0 <= n' /\
       s' = s + Z.of_nat i /\ t' = t + Z.of_nat i /\ length (cname m t i) = i /\
       m' = wr m s (cname m t i)).
  - intros k [[s' t'] n'] m' Hk (i & -> & -> & Hi & -> & -> & Hl & ->).
    assert (forall b, upd (wr m s (cname m t i)) (s + Z.of_nat i) b = wr m s (cname m t i ++ [b])) as W.
    { intros b. rewrite <- wr_snoc. by rewrite Hl. }
    assert (forall x, 0 < n - Z.of_nat i -> x = t + Z.of_nat i -> wr m s (cname m t i) x = m x) as Ht.
    { intros x ? ->. apply (wr_far _ _ _ _ i); [by rewrite Hl|lia]. }
    unfold getb, putb; wp_steps; bools; rewrite ?Ht in * by done.
    + exists (n - Z.of_nat (S i)). split; [lia|]. exists (S i). split_and!; try lia.
      * by apply cname_S_len.
      * rewrite byte.of_Z_unsigned, W. f_equal.
        rewrite (cname_snoc m t i (S i)) by lia. rewrite (proj2 (Z.eqb_neq _ _)) by done.
        by replace (S i - i - 1)%nat with 0%nat by lia.
    + exists (cname m t i ++ [Byte.x00]). rewrite length_app, Hl. simpl.
      pose proof (cname_snoc m t i (Z.to_nat n) Hl ltac:(lia)) as E. rewrite H0 in E. simpl in E.
      split_and!; try lia.
      * rewrite H0. apply W.
      * unfold padded. rewrite E, Hl, <- app_assoc. f_equal.
        replace (Z.to_nat n - i)%nat with (S (Z.to_nat n - (i + 1))) by lia. done.
    + assert (i = Z.to_nat n) as -> by lia. exists (cname m t (Z.to_nat n)).
      split_and!; try done; try lia.
  - lia.
  - exists 0%nat. split_and!; try lia; try done. simpl. by rewrite wr_nil.
Qed.

(** strncpy copies the source string cut after [n] bytes and zeroes the rest
    of the [n] destination bytes. *)
Theorem strncpy_correct m s t n :
  0 <= n < 2 ^ 31 -> s + n <= t \/ t + n <= s ->
  strncpy s t n m = Ok s (wr m s (padded (cname m t (Z.to_nat n)) (Z.to_nat n))).
Proof.
  intros Hn Hd.
  enough (wp (strncpy s t n) (fun r m' => r = s /\
            m' = wr m s (padded (cname m t (Z.to_nat n)) (Z.to_nat n))) m) as H.
  { apply wp_elim in H as (? & ? & -> & -> & ->). done. }
  unfold strncpy. wp_step. eapply wp_mono; [by apply strncpy_copy|].
  intros [s1 n1] m1 (l & -> & -> & Hl & Hpad & Hn1). wp_step.
  apply wp_loop with (n := n - Z.of_nat (length l))
    (I := fun k '(s', n') m' => exists j, Z.max n' 0 = n - Z.of_nat (length l) - Z.of_nat j /\
       k = n - Z.of_nat (length l) - Z.of_nat j /\
       s' = s + Z.of_nat (length l) + Z.of_nat j /\ m' = wr m s (l ++ List.repeat Byte.x00 j)).
  - intros k [s' n'] m' Hk (j & Hn' & -> & -> & ->). unfold putb; wp_steps; bools.
    + exists (n - Z.of_nat (length l) - Z.of_nat (S j)). split; [lia|]. exists (S j).
      split_and!; try lia. change (byte.of_Z 0) with Byte.x00.
      replace (s + Z.of_nat (length l) + Z.of_nat j) with
        (s + Z.of_nat (length (l ++ List.repeat Byte.x00 j)))
        by (rewrite length_app, repeat_length; lia).
      rewrite wr_snoc, <- app_assoc. by rewrite <- repeat_cons.
    + split; [done|]. rewrite <- Hpad. by replace j with (Z.to_nat n - length l)%nat by lia.
  - lia.
  - exists 0%nat. split_and!; try lia. by rewrite app_nil_r.
Qed.

(** The loop of safestrcpy(): the bytes copied are the string cut after
    [n - 1] bytes, plus its NUL if it is shorter. *)
Lemma safestrcpy_copy m s t n :
  0 < n < 2 ^ 31 -> s + n <= t \/ t + n <= s ->
  wp (loop (fun '(s, t, n) =>
        if 0 <? n - 1
        then let* b := getb t in
             putb s b ;;;
             if negb (b =? 0) then ret (inl (s + 1, t + 1, n - 1))
             else ret (inr (s + 1))
        else ret (inr s)) (s, t, n))
     (fun s1 m' => exists l, m' = wr m s l /\ s1 = s + Z.of_nat (length l) /\
        (length l < Z.to_nat n)%nat /\
        (l = cname m t (Z.to_nat n - 1) \/ l = cname m t (Z.to_nat n - 1) ++ [Byte.x00])) m.
Proof.
  intros Hn Hd.
  apply wp_loop with (n := n)
    (I := fun k '(s', t', n') m' => exists i, k = n' /\ n' = n - Z.of_nat i /\ 0 < n' /\
       s' = s + Z.of_nat i /\ t' = t + Z.of_nat i /\ length (cname m t i) = i /\
       m' = wr m s (cname m t i)).
  - intros k [[s' t'] n'] m' Hk (i & -> & -> & Hi & -> & -> & Hl & ->).
    assert (forall b, upd (wr m s (cname m t i)) (s + Z.of_nat i) b = wr m s (cname m t i ++ [b])) as W.
    { intros b. rewrite <- wr_snoc. by rewrite Hl. }
    assert (forall x, x = t + Z.of_nat i -> wr m s (cname m t i) x = m x) as Ht.
    { intros x ->. apply (wr_far _ _ _ _ i); [by rewrite Hl|lia]. }
    unfold getb, putb; wp_steps; bools; rewrite ?Ht in * by done.
    + exists (n - Z.of_nat (S i)). split; [lia|]. exists (S i). split_and!; try lia.
      * by apply cname_S_len.
      * rewrite byte.of_Z_unsigned, W. f_equal.
        rewrite (cname_snoc m t i (S i)) by lia. rewrite (proj2 (Z.eqb_neq _ _)) by done.
        by replace (S i - i - 1)%nat with 0%nat by lia.
    + exists (cname m t i ++ [Byte.x00]). rewrite length_app, Hl. simpl.
      pose proof (cname_snoc m t i (Z.to_nat n - 1) Hl ltac:(lia)) as E. rewrite H0 in E. simpl in E.
      split_and!; try lia.
      * rewrite H0. apply W.
      * right. by rewrite E.
    + exists (cname m t i). split_and!; try done; try lia.
      left. by replace (Z.to_nat n - 1)%nat with i by lia.
  - lia.
  - exists 0%nat. split_and!; try lia; try done. simpl. by rewrite wr_nil.
Qed.

Lemma cname_wr m s l r n :
  Forall (fun b => byte.unsigned b <> 0) l -> (length l < n)%nat ->
  cname (wr m s (l ++ Byte.x00 :: r)) s n = l.
Proof.
  intros Hl Hn.
  assert (forall k l', drop k (l ++ Byte.x00 :: r) = l' ++ Byte.x00 :: r ->
            Forall (fun b => byte.unsigned b <> 0) l' -> forall j, (length l' < j)%nat ->
            (k <= length l)%nat ->
            cname (wr m s (l ++ Byte.x00 :: r)) (s + Z.of_nat k) j = l') as H.
  { intros k l'. revert k. induction l' as [|b l' IH]; intros k Hk Hf j Hj Hkl;
      (destruct j as [|j]; [simpl in Hj; lia|]);
      assert (nth k (l ++ Byte.x00 :: r) Byte.x00
              = nth 0 (drop k (l ++ Byte.x00 :: r)) Byte.x00) as Hd
        by (by rewrite nth_skipn, Nat.add_0_r);
      cbn [cname];
      (rewrite wr_in by (rewrite length_app; simpl; lia));
      replace (Z.to_nat (s + Z.of_nat k - s)) with k by lia; rewrite Hd, Hk; simpl; [done|].
    apply Forall_cons_iff in Hf as [Hb Hf]. rewrite (proj2 (Z.eqb_neq _ _) Hb). f_equal.
    assert (k < length l)%nat.
    { apply (f_equal length) in Hk. rewrite length_drop, !length_app in Hk. simpl in Hk. lia. }
    replace (s + Z.of_nat k + 1) with (s + Z.of_nat (S k)) by lia.
    apply IH; [|done|simpl in Hj; lia|lia].
    replace (S k) with (k + 1)%nat by lia. by rewrite <- drop_drop, Hk. }
  specialize (H 0%nat l ltac:(done) Hl n Hn ltac:(lia)). by rewrite Z.add_0_r in H.
Qed.

Lemma cname_nonzero m s n : Forall (fun b => byte.unsigned b <> 0) (cname m s n).
Proof.
  revert s. induction n as [|n IH]; intros s; simpl; [by constructor|].
  destruct (Z.eqb_spec (byte.unsigned (m s)) 0); [by constructor|by constructor].
Qed.

(** safestrcpy always leaves a NUL-terminated string, the source cut after
    [n - 1] bytes, and writes nothing outside the [n] destination bytes. *)
Theorem safestrcpy_correct m s t n :
  0 < n < 2 ^ 31 -> s + n <= t \/ t + n <= s ->
  exists m', safestrcpy s t n m = Ok s m' /\
    cstr m' s (cname m t (Z.to_nat n - 1)) /\
    (forall x, ~ (s <= x < s + n) -> m' x = m x).
Proof.
  intros Hn Hd.
  enough (wp (safestrcpy s t n) (fun r m' => r = s /\ cstr m' s (cname m t (Z.to_nat n - 1)) /\
            (forall x, ~ (s <= x < s + n) -> m' x = m x)) m) as H.
  { apply wp_elim in H as (? & m' & -> & -> & ?). eauto. }
  unfold safestrcpy. wp_step; bools; [lia|].
  wp_step. eapply wp_mono; [by apply safestrcpy_copy|].
  intros s1 m1 (l & -> & -> & Hl & Hor). unfold putb; wp_steps. split; [done|].
  change (byte.of_Z 0) with Byte.x00. rewrite wr_snoc. set (src := cname m t (Z.to_nat n - 1)) in *.
  assert (Hf : Forall (fun b => byte.unsigned b <> 0) src) by apply cname_nonzero.
  assert (exists r, l ++ [Byte.x00] = src ++ Byte.x00 :: r) as [r Hr].
  { destruct Hor as [->| ->]; [by exists []|]. exists [Byte.x00]. by rewrite <- app_assoc. }
  split.
  - rewrite Hr. assert (forall k, (length src < k)%nat ->
      cname (wr m s (src ++ Byte.x00 :: r)) s k = src) as Hc by (intros; by apply cname_wr).
    split.
    + rewrite (cname_take _ _ _ (S (length src))) by lia. rewrite Hc by lia. by rewrite firstn_all.
    + rewrite wr_in by (rewrite length_app; simpl; lia).
      replace (Z.to_nat _) with (length src) by lia. by rewrite nth_middle.
  - intros x Hx. apply wr_out. rewrite length_app. simpl. lia.
Qed.
