(* ===== verification/Core.v ===== *)
(** The state every part of the kernel shares: the CPU the code runs on, the
    spin locks, and the process table (kernel/proc.h, kernel/spinlock.h).

    The model runs one thread of the kernel at a time.  [core] has the
    struct cpu of the hart it runs on; the other harts show only through the
    locks they hold. *)

From stdpp Require Import base tactics list strings.
From Stdlib Require Import ZArith Lia FunctionalExtensionality.
From coqutil Require Import Byte.
From S2P Require Import Prelude Riscv.

Local Open Scope Z_scope.

(** ** Names of locks and of sleep channels *)

(** The sleep locks of the kernel: one per buffer, one per cached inode. *)
Inductive slock := BufLock (i : nat) | InodeLock (i : nat).

(** The spin locks.  [SleepLk l] is the spin lock inside sleep lock [l]; a
    pipe's lock is named by the page the pipe lives in. *)
Inductive lock :=
| KmemLock | PagerefLock | PidLock | ProcLock (i : nat) | TicksLock
| BcacheLock | SleepLk (l : slock) | LogLock | IcacheLock | FtableLock
| ConsLock | UartLock | PrLock | VdiskLock | PipeLock (pi : Z).

(** What a process can sleep on: the address passed to sleep(). *)
Inductive chan :=
| ChProc (i : nat) | ChTicks | ChLog | ChSleep (l : slock)
| ChPipeRead (pi : Z) | ChPipeWrite (pi : Z) | ChCons | ChUart
| ChDiskFree | ChBuf (i : nat).

#[export] Instance slock_eq_dec : EqDecision slock.
Proof. solve_decision. Defined.
#[export] Instance lock_eq_dec : EqDecision lock.
Proof. solve_decision. Defined.
#[export] Instance chan_eq_dec : EqDecision chan.
Proof. solve_decision. Defined.

(** ** Total maps *)

Definition fupd {A B} `{EqDecision A} (f : A -> B) (a : A) (b : B) : A -> B :=
  fun x => if decide (x = a) then b else f x.

(** ** struct spinlock, struct cpu *)

Record spinlock := mkspinlock { locked : Z; lkcpu : option Z }.

Definition spin_free : spinlock := mkspinlock 0 None.

Record cpu := mkcpu {
  cproc : option nat;  (** c->proc: index of the running process *)
  noff : Z;            (** depth of push_off() nesting *)
  intena : bool;       (** were interrupts enabled before push_off()? *)
  sie : bool           (** the SIE bit of this hart's sstatus register *)
}.

(** ** struct proc *)

Inductive procstate := UNUSED | SLEEPING | RUNNABLE | RUNNING | ZOMBIE.

#[export] Instance procstate_eq_dec : EqDecision procstate.
Proof. solve_decision. Defined.

(** Saved registers for kernel context switches. *)
Record context := mkcontext { ctx_ra : Z; ctx_sp : Z; ctx_s : list Z }.

Record proc := mkproc {
  state : procstate;
  parent : option nat;
  chan_ : option chan;
  killed : Z;
  xstate : Z;
  pid : Z;
  kstack : Z;
  sz : Z;
  pagetable : Z;
  trapframe : Z;
  pcontext : context;
  ofile : list (option nat);
  cwd : option nat;
  pname : list byte
}.

(** ** The shared state *)

Record core := mkcore {
  hartid : Z;                  (** tp: this core's number *)
  ccpu : cpu;
  lks : lock -> spinlock;
  procs : nat -> proc;         (** proc[NPROC] *)
  nextpid : Z;
  initproc : option nat;
  ticks : Z
}.

Definition set_cproc (v : option nat) (c : cpu) : cpu :=
  mkcpu v (noff c) (intena c) (sie c).
Definition set_noff (v : Z) (c : cpu) : cpu :=
  mkcpu (cproc c) v (intena c) (sie c).
Definition set_intena (v : bool) (c : cpu) : cpu :=
  mkcpu (cproc c) (noff c) v (sie c).
Definition set_sie (v : bool) (c : cpu) : cpu :=
  mkcpu (cproc c) (noff c) (intena c) v.

Definition set_ccpu (v : cpu) (c : core) : core :=
  mkcore (hartid c) v (lks c) (procs c) (nextpid c) (initproc c) (ticks c).
Definition set_lks (v : lock -> spinlock) (c : core) : core :=
  mkcore (hartid c) (ccpu c) v (procs c) (nextpid c) (initproc c) (ticks c).
Definition set_procs (v : nat -> proc) (c : core) : core :=
  mkcore (hartid c) (ccpu c) (lks c) v (nextpid c) (initproc c) (ticks c).
Definition set_nextpid (v : Z) (c : core) : core :=
  mkcore (hartid c) (ccpu c) (lks c) (procs c) v (initproc c) (ticks c).
Definition set_initproc (v : option nat) (c : core) : core :=
  mkcore (hartid c) (ccpu c) (lks c) (procs c) (nextpid c) v (ticks c).
Definition set_ticks (v : Z) (c : core) : core :=
  mkcore (hartid c) (ccpu c) (lks c) (procs c) (nextpid c) (initproc c) v.

Definition set_state (v : procstate) (p : proc) : proc :=
  mkproc v (parent p) (chan_ p) (killed p) (xstate p) (pid p) (kstack p) (sz p) (pagetable p)
         (trapframe p) (pcontext p) (ofile p) (cwd p) (pname p).
Definition set_parent (v : option nat) (p : proc) : proc :=
  mkproc (state p) v (chan_ p) (killed p) (xstate p) (pid p) (kstack p) (sz p) (pagetable p)
         (trapframe p) (pcontext p) (ofile p) (cwd p) (pname p).
Definition set_chan (v : option chan) (p : proc) : proc :=
  mkproc (state p) (parent p) v (killed p) (xstate p) (pid p) (kstack p) (sz p) (pagetable p)
         (trapframe p) (pcontext p) (ofile p) (cwd p) (pname p).
Definition set_killed (v : Z) (p : proc) : proc :=
  mkproc (state p) (parent p) (chan_ p) v (xstate p) (pid p) (kstack p) (sz p) (pagetable p)
         (trapframe p) (pcontext p) (ofile p) (cwd p) (pname p).
Definition set_xstate (v : Z) (p : proc) : proc :=
  mkproc (state p) (parent p) (chan_ p) (killed p) v (pid p) (kstack p) (sz p) (pagetable p)
         (trapframe p) (pcontext p) (ofile p) (cwd p) (pname p).
Definition set_pid (v : Z) (p : proc) : proc :=
  mkproc (state p) (parent p) (chan_ p) (killed p) (xstate p) v (kstack p) (sz p) (pagetable p)
         (trapframe p) (pcontext p) (ofile p) (cwd p) (pname p).
Definition set_kstack (v : Z) (p : proc) : proc :=
  mkproc (state p) (parent p) (chan_ p) (killed p) (xstate p) (pid p) v (sz p) (pagetable p)
         (trapframe p) (pcontext p) (ofile p) (cwd p) (pname p).
Definition set_sz (v : Z) (p : proc) : proc :=
  mkproc (state p) (parent p) (chan_ p) (killed p) (xstate p) (pid p) (kstack p) v (pagetable p)
         (trapframe p) (pcontext p) (ofile p) (cwd p) (pname p).
Definition set_pagetable (v : Z) (p : proc) : proc :=
  mkproc (state p) (parent p) (chan_ p) (killed p) (xstate p) (pid p) (kstack p) (sz p) v
         (trapframe p) (pcontext p) (ofile p) (cwd p) (pname p).
Definition set_trapframe (v : Z) (p : proc) : proc :=
  mkproc (state p) (parent p) (chan_ p) (killed p) (xstate p) (pid p) (kstack p) (sz p) (pagetable p)
         v (pcontext p) (ofile p) (cwd p) (pname p).
Definition set_pcontext (v : context) (p : proc) : proc :=
  mkproc (state p) (parent p) (chan_ p) (killed p) (xstate p) (pid p) (kstack p) (sz p) (pagetable p)
         (trapframe p) v (ofile p) (cwd p) (pname p).
Definition set_ofile (v : list (option nat)) (p : proc) : proc :=
  mkproc (state p) (parent p) (chan_ p) (killed p) (xstate p) (pid p) (kstack p) (sz p) (pagetable p)
         (trapframe p) (pcontext p) v (cwd p) (pname p).
Definition set_cwd (v : option nat) (p : proc) : proc :=
  mkproc (state p) (parent p) (chan_ p) (killed p) (xstate p) (pid p) (kstack p) (sz p) (pagetable p)
         (trapframe p) (pcontext p) (ofile p) v (pname p).
Definition set_pname (v : list byte) (p : proc) : proc :=
  mkproc (state p) (parent p) (chan_ p) (killed p) (xstate p) (pid p) (kstack p) (sz p) (pagetable p)
         (trapframe p) (pcontext p) (ofile p) (cwd p) v.

(** Change the fields of process [i]. *)
Definition upd_proc (i : nat) (f : proc -> proc) (c : core) : core :=
  set_procs (fupd (procs c) i (f (procs c i))) c.

(** A process slot that was never used. *)
Definition proc_zero : proc :=
  mkproc UNUSED None None 0 0 0 0 0 0 0 (mkcontext 0 0 (List.repeat 0 12))
         (List.repeat None NOFILE) None (List.repeat Byte.x00 16).

(** Hart 0 as main() finds it: no lock held, interrupts on, no process. *)
Definition boot_core : core :=
  mkcore 0 (mkcpu None 0 false true) (fun _ => spin_free) (fun _ => proc_zero) 1 None 0.

(** ** Lemmas *)

Lemma fupd_eq {A B} `{EqDecision A} (f : A -> B) a b : fupd f a b a = b.
Proof. unfold fupd. by rewrite decide_True. Qed.

Lemma fupd_ne {A B} `{EqDecision A} (f : A -> B) a b x : x <> a -> fupd f a b x = f x.
Proof. intros. unfold fupd. by rewrite decide_False. Qed.

Lemma fupd_fupd {A B} `{EqDecision A} (f : A -> B) a b b' :
  fupd (fupd f a b) a b' = fupd f a b'.
Proof. extensionality x. unfold fupd. by case_decide. Qed.

Lemma fupd_id {A B} `{EqDecision A} (f : A -> B) a : fupd f a (f a) = f.
Proof. extensionality x. unfold fupd. by case_decide; subst. Qed.

#[export] Hint Rewrite @fupd_eq @fupd_fupd @fupd_id : xv6.
