(* ===== verification/Spinlock.v ===== *)
(** Spin locks and interrupt nesting (kernel/spinlock.c, the interrupt
    switches of kernel/riscv.h, and cpuid/mycpu/myproc of kernel/proc.c).

    The first part translates the C functions as they run on one hart.
    [acq lk c] is the state in which lock [lk] has just been taken from
    state [c]; the rules [wp_acquire] and [wp_release] are what the clients
    use.  acquire() and release() are lists of atomic actions; [Module Smp] runs
    these lists on all harts at once, in any interleaving. *)

From stdpp Require Import base tactics list strings.
From Stdlib Require Import ZArith Lia FunctionalExtensionality.
From S2P Require Import Prelude Riscv Core.

Local Open Scope Z_scope.
Local Open Scope kern_scope.

(** ** Operations *)

Definition set_cpu (f : cpu -> cpu) : M core unit := modify (fun c => set_ccpu (f (ccpu c)) c).

Definition intr_on : M core unit := set_cpu (set_sie true).
Definition intr_off : M core unit := set_cpu (set_sie false).
Definition intr_get : M core bool := gets (fun c => sie (ccpu c)).

Definition cpuid : M core Z := gets hartid.

Definition push_off : M core unit :=
  let* old := intr_get in
  intr_off ;;;
  let* n := gets (fun c => noff (ccpu c)) in
  when (n =? 0) (set_cpu (set_intena old)) ;;;
  set_cpu (fun c => set_noff (noff c + 1) c).

Definition pop_off : M core unit :=
  let* on := intr_get in
  if on then panic "pop_off - interruptible"
  else
    let* n := gets (fun c => noff (ccpu c)) in
    if n <? 1 then panic "pop_off"
    else
      set_cpu (fun c => set_noff (noff c - 1) c) ;;;
      let* n := gets (fun c => noff (ccpu c)) in
      let* ena := gets (fun c => intena (ccpu c)) in
      when ((n =? 0) && ena) intr_on.

Definition myproc : M core (option nat) :=
  push_off ;;;
  let* p := gets (fun c => cproc (ccpu c)) in
  pop_off ;;;
  ret p.

Definition set_lock (lk : lock) (v : spinlock) : M core unit :=
  modify (fun c => set_lks (fupd (lks c) lk v) c).

(** lk->name is for debugging and is not part of the state. *)
Definition initlock (lk : lock) : M core unit := set_lock lk spin_free.

(** r = (lk->locked && lk->cpu == mycpu()); *)
Definition holding (lk : lock) : M core bool :=
  gets (fun c => negb (locked (lks c lk) =? 0) && bool_decide (lkcpu (lks c lk) = Some (hartid c))).

(** The amoswap: set locked to 1 and return the old value. *)
Definition lock_test_and_set (lk : lock) : M core Z :=
  let* old := gets (fun c => locked (lks c lk)) in
  modify (fun c => set_lks (fupd (lks c) lk (mkspinlock 1 (lkcpu (lks c lk)))) c) ;;;
  ret old.

(** acquire() and release() are sequences of atomic actions on the lock and on
    the hart's own state.  [Until0] is a while loop around an action that is
    repeated until it returns 0; [act] is true if the hart goes on to the next
    action. *)
Inductive action :=
| Do (m : M core unit)
| Until0 (m : M core Z).

Definition act (a : action) : M core bool :=
  match a with
  | Do m => m ;;; ret true
  | Until0 m => let* old := m in ret (old =? 0)
  end.

(** A sequence run by one hart.  The hart spins while another hart has the
    lock; as that hart makes no progress in such a run, a first failed attempt
    is the end of it.  [Module Smp] runs the same sequences on all harts. *)
Fixpoint exec (l : list action) : M core unit :=
  match l with
  | [] => ret tt
  | a :: l' => let* done := act a in if done then exec l' else (fun c => Sleep c)
  end.

Definition acquire_code (lk : lock) : list action :=
  [ Do push_off;
    Do (let* h := holding lk in if h then panic "acquire" else ret tt);
    Until0 (lock_test_and_set lk);
    Do (let* me := cpuid in
        modify (fun c => set_lks (fupd (lks c) lk (mkspinlock (locked (lks c lk)) (Some me))) c)) ].

Definition acquire (lk : lock) : M core unit := exec (acquire_code lk).

Definition release_code (lk : lock) : list action :=
  [ Do (let* h := holding lk in if negb h then panic "release" else ret tt);
    Do (modify (fun c => set_lks (fupd (lks c) lk (mkspinlock (locked (lks c lk)) None)) c));
    Do (modify (fun c => set_lks (fupd (lks c) lk (mkspinlock 0 (lkcpu (lks c lk)))) c));
    Do pop_off ].

Definition release (lk : lock) : M core unit := exec (release_code lk).

(** ** Specifications *)

(** The nesting depth is not negative, and interrupts are off inside. *)
Definition cpu_ok (c : core) : Prop :=
  0 <= noff (ccpu c) /\ (0 < noff (ccpu c) -> sie (ccpu c) = false).

Definition free (lk : lock) (c : core) : Prop := lks c lk = spin_free.

(** [c'] is [c], except that intena may have been overwritten with SIE while
    no push_off() was pending, when nobody reads it. *)
Definition core_eqv (c c' : core) : Prop :=
  exists b, (b = intena (ccpu c) \/ (noff (ccpu c) <= 0 /\ b = sie (ccpu c))) /\
    c' = set_ccpu (set_intena b (ccpu c)) c.

(** A state in which that makes no difference: intena already has the value
    the next push_off() would give it. *)
Definition calm (c : core) : Prop :=
  cpu_ok c /\ (noff (ccpu c) = 0 -> intena (ccpu c) = sie (ccpu c)).

(** The state after acquire(lk) from [c]. *)
Definition acq (lk : lock) (c : core) : core :=
  mkcore (hartid c)
    (mkcpu (cproc (ccpu c)) (noff (ccpu c) + 1)
           (if noff (ccpu c) =? 0 then sie (ccpu c) else intena (ccpu c)) false)
    (fupd (lks c) lk (mkspinlock 1 (Some (hartid c))))
    (procs c) (nextpid c) (initproc c) (ticks c).

(** ** Lemmas *)

Lemma core_eqv_refl c : core_eqv c c.
Proof. exists (intena (ccpu c)). split; [by left|]. by destruct c as [? []]. Qed.

Lemma core_eqv_trans c1 c2 c3 : core_eqv c1 c2 -> core_eqv c2 c3 -> core_eqv c1 c3.
Proof.
  intros (b & Hb & ->) (b' & Hb' & ->). exists b'. simpl in *. split; [|done].
  destruct Hb' as [->|?]; [done|by right].
Qed.

Lemma core_eqv_calm c c' : calm c -> core_eqv c c' -> c' = c.
Proof.
  intros [[Hn _] Hi] (b & Hb & ->). assert (b = intena (ccpu c)) as ->.
  { destruct Hb as [->|[? ->]]; [done|]. symmetry. apply Hi. lia. }
  by destruct c as [? []].
Qed.

(** Everything but intena is untouched. *)
Lemma core_eqv_fields c c' :
  core_eqv c c' ->
  hartid c' = hartid c /\ lks c' = lks c /\ procs c' = procs c /\ nextpid c' = nextpid c /\
  initproc c' = initproc c /\ ticks c' = ticks c /\ noff (ccpu c') = noff (ccpu c) /\
  cproc (ccpu c') = cproc (ccpu c) /\ sie (ccpu c') = sie (ccpu c).
Proof. by intros (b & _ & ->). Qed.

Lemma core_eqv_ok c c' : core_eqv c c' -> cpu_ok c -> cpu_ok c'.
Proof. intros (b & _ & ->). done. Qed.

Lemma core_eqv_free lk c c' : core_eqv c c' -> free lk c -> free lk c'.
Proof. intros (b & _ & ->). done. Qed.

Lemma core_eqv_acq lk c c' : cpu_ok c -> core_eqv (acq lk c) c' -> c' = acq lk c.
Proof.
  intros [Hn _] (b & Hb & ->). unfold acq. simpl in *.
  destruct Hb as [->|[? _]]; [done|lia].
Qed.

Lemma acq_ok lk c : cpu_ok c -> cpu_ok (acq lk c).
Proof. intros [Hn _]. split; simpl; [lia|done]. Qed.

Lemma acq_free lk lk' c : lk <> lk' -> free lk' c -> free lk' (acq lk c).
Proof. intros Hne H. unfold free, acq. simpl. by rewrite fupd_ne. Qed.

#[export] Hint Resolve core_eqv_refl core_eqv_trans core_eqv_ok core_eqv_free acq_ok acq_free : xv6.

Lemma push_off_eq c :
  push_off c = Ok tt (set_ccpu (mkcpu (cproc (ccpu c)) (noff (ccpu c) + 1)
    (if noff (ccpu c) =? 0 then sie (ccpu c) else intena (ccpu c)) false) c).
Proof.
  destruct c as [h [p n i s] l ps np ip t]. unfold push_off, bind, gets, modify, when. simpl.
  by destruct (n =? 0).
Qed.

Lemma acquire_eq lk c : cpu_ok c -> free lk c -> acquire lk c = Ok tt (acq lk c).
Proof.
  intros Hok Hf. unfold acquire, acquire_code. cbn [exec act]. unfold bind. rewrite push_off_eq.
  unfold holding, lock_test_and_set, bind, gets, modify, ret, cpuid, free in *. simpl.
  repeat (rewrite Hf; simpl). unfold acq, set_lks. simpl. by rewrite fupd_eq, fupd_fupd.
Qed.

Lemma pop_off_eq c :
  0 < noff (ccpu c) -> sie (ccpu c) = false ->
  pop_off c = Ok tt (set_ccpu (mkcpu (cproc (ccpu c)) (noff (ccpu c) - 1) (intena (ccpu c))
    ((noff (ccpu c) - 1 =? 0) && intena (ccpu c))) c).
Proof.
  intros Hn Hs. destruct c as [h [p n i s] l ps np ip t]. simpl in *. subst s.
  unfold pop_off, bind, gets, modify, when, ret. simpl.
  rewrite (proj2 (Z.ltb_ge n 1)) by lia. simpl.
  by destruct (n - 1 =? 0), i.
Qed.

(** Interrupts and nesting depth after a push_off() undone by a pop_off(). *)
Lemma pop_push c b :
  cpu_ok c ->
  core_eqv c (set_ccpu (mkcpu (cproc (ccpu c)) (noff (ccpu c) + 1 - 1)
     (if noff (ccpu c) =? 0 then sie (ccpu c) else intena (ccpu c))
     ((noff (ccpu c) + 1 - 1 =? 0) &&
      (if noff (ccpu c) =? 0 then sie (ccpu c) else intena (ccpu c)))) (set_ccpu b c)).
Proof.
  intros [Hn Hs]. destruct c as [h [p n i s] l ps np ip t]. simpl in *.
  replace (n + 1 - 1) with n by lia. unfold set_ccpu. simpl.
  exists (if n =? 0 then s else i). simpl. destruct (Z.eqb_spec n 0) as [->|]; simpl.
  - split; [right; split; [lia|done]|done].
  - split; [by left|]. unfold set_ccpu, set_intena; simpl. by rewrite Hs by lia.
Qed.

Lemma release_acq lk c :
  cpu_ok c -> free lk c -> exists c', release lk (acq lk c) = Ok tt c' /\ core_eqv c c'.
Proof.
  intros Hok Hf. unfold release, release_code. cbn [exec act]. unfold bind, holding, gets, modify, ret. simpl. rewrite !fupd_eq. simpl.
  rewrite bool_decide_true by done. simpl. rewrite !fupd_fupd, !fupd_eq. simpl.
  rewrite pop_off_eq; [|simpl; destruct Hok; lia|done].
  eexists. split; [done|]. simpl.
  replace (fupd (lks c) lk (mkspinlock 0 None)) with (lks c)
    by (rewrite <- Hf; by rewrite fupd_id).
  apply (pop_push c (ccpu c)) in Hok. exact Hok.
Qed.

Lemma myproc_eq c :
  cpu_ok c -> exists c', myproc c = Ok (cproc (ccpu c)) c' /\ core_eqv c c'.
Proof.
  intros Hok. unfold myproc, bind. rewrite push_off_eq. unfold gets, ret. simpl.
  rewrite pop_off_eq; [|simpl; destruct Hok; lia|done].
  eexists. split; [done|]. apply (pop_push c _ Hok).
Qed.

(** *** Rules for the clients *)

Lemma wp_acquire lk (Q : unit -> core -> Prop) c :
  cpu_ok c -> free lk c -> Q tt (acq lk c) -> wp (acquire lk) Q c.
Proof. intros Hok Hf HQ. eapply wp_Ok; [by apply acquire_eq|done]. Qed.

Lemma wp_release lk (Q : unit -> core -> Prop) c c0 :
  core_eqv (acq lk c0) c -> cpu_ok c0 -> free lk c0 ->
  (forall c', core_eqv c0 c' -> Q tt c') -> wp (release lk) Q c.
Proof.
  intros He Hok Hf HQ. apply core_eqv_acq in He; [subst c|done].
  destruct (release_acq lk c0 Hok Hf) as (c' & E & Hc'). eapply wp_Ok; eauto.
Qed.

Lemma wp_myproc (Q : option nat -> core -> Prop) c :
  cpu_ok c -> (forall c', core_eqv c c' -> Q (cproc (ccpu c)) c') -> wp myproc Q c.
Proof.
  intros Hok HQ. destruct (myproc_eq c Hok) as (c' & E & Hc'). eapply wp_Ok; eauto.
Qed.

(** ** Properties *)

(** [n] nested push_off()s, and [n] pop_off()s. *)
Fixpoint pushes (n : nat) : M core unit :=
  match n with O => ret tt | S n' => push_off ;;; pushes n' end.
Fixpoint pops (n : nat) : M core unit :=
  match n with O => ret tt | S n' => pop_off ;;; pops n' end.

(** A critical section.  From a state in which the lock is free,
    acquire() succeeds, and inside the section this hart holds the lock and
    interrupts are off; a second acquire() of the same lock panics instead of
    deadlocking silently.  release() then gives the lock back and leaves
    everything as before: nesting depth, interrupt flag, all locks.  Calling
    release() without holding the lock panics. *)
Theorem critical_section lk c :
  cpu_ok c -> free lk c ->
  exists c1 c2,
    acquire lk c = Ok tt c1 /\ holding lk c1 = Ok true c1 /\ sie (ccpu c1) = false /\
    acquire lk c1 = Panic "acquire" /\
    release lk c1 = Ok tt c2 /\ core_eqv c c2 /\ free lk c2 /\
    release lk c2 = Panic "release".
Proof.
  intros Hok Hf. destruct (release_acq lk c Hok Hf) as (c2 & E & He).
  assert (Hf2 : free lk c2) by eauto with xv6.
  exists (acq lk c), c2. split_and!; auto using acquire_eq.
  - unfold holding, gets. simpl. rewrite fupd_eq. simpl. by rewrite bool_decide_true.
  - unfold acquire, acquire_code. cbn [exec act]. unfold bind. rewrite push_off_eq. unfold ret, holding, gets. simpl. rewrite fupd_eq. simpl.
    by rewrite bool_decide_true.
  - unfold release, release_code. cbn [exec act]. unfold bind, holding, gets. unfold free in Hf2. by rewrite Hf2.
Qed.

(** The state with [n] more push_off()s pending. *)
Definition pushed (n : Z) (c : core) : core :=
  set_ccpu (mkcpu (cproc (ccpu c)) (noff (ccpu c) + n)
              (if noff (ccpu c) =? 0 then sie (ccpu c) else intena (ccpu c)) false) c.

Lemma push_pushed n c : 0 <= noff (ccpu c) -> 0 < n -> push_off (pushed n c) = Ok tt (pushed (n + 1) c).
Proof.
  intros Hc Hn. rewrite push_off_eq. unfold pushed, set_ccpu. simpl.
  rewrite (proj2 (Z.eqb_neq (noff (ccpu c) + n) 0)) by lia. do 3 f_equal. lia.
Qed.

Lemma pushes_pushed k n c :
  0 <= noff (ccpu c) -> 0 < n -> pushes k (pushed n c) = Ok tt (pushed (n + Z.of_nat k) c).
Proof.
  revert n. induction k as [|k IH]; intros n Hc Hn; cbn [pushes].
  - by rewrite Z.add_0_r.
  - unfold bind. rewrite push_pushed, IH by lia. do 2 f_equal. lia.
Qed.

Lemma pops_pushed k n c :
  0 <= noff (ccpu c) -> Z.of_nat k < n -> pops k (pushed n c) = Ok tt (pushed (n - Z.of_nat k) c).
Proof.
  revert n. induction k as [|k IH]; intros n Hc Hn; cbn [pops].
  - by rewrite Z.sub_0_r.
  - unfold bind. rewrite pop_off_eq by (simpl; lia || done). simpl.
    rewrite (proj2 (Z.eqb_neq (noff (ccpu c) + n - 1) 0)) by lia. simpl.
    replace (set_ccpu _ _) with (pushed (n - 1) c)
      by (unfold pushed, set_ccpu; simpl; do 2 f_equal; lia).
    rewrite IH by lia. do 2 f_equal. lia.
Qed.

Lemma critical_section_witness :
  exists c1, acquire KmemLock boot_core = Ok tt c1 /\ sie (ccpu c1) = false.
Proof.
  destruct (critical_section KmemLock boot_core) as (c1 & c2 & H1 & _ & H2 & _).
  - split; simpl; [lia|done].
  - reflexivity.
  - by exists c1.
Defined.

(** Push_off/pop_off nest.  After [n] push_off()s, interrupts stay off
    through every pop_off() but the last one, and the matching last pop_off()
    brings back exactly the interrupt state from before the first push_off(). *)
Theorem push_pop_nest n k c :
  cpu_ok c -> (k <= n)%nat -> (0 < n)%nat ->
  exists c1, (pushes n ;;; pops k) c = Ok tt c1 /\
    noff (ccpu c1) = noff (ccpu c) + Z.of_nat (n - k) /\
    ((k < n)%nat -> sie (ccpu c1) = false) /\
    (k = n -> core_eqv c c1).
Proof.
  intros Hok Hk Hn. destruct n as [|n]; [lia|].
  assert (E : pushes (S n) c = Ok tt (pushed (Z.of_nat (S n)) c)).
  { cbn [pushes]. unfold bind. rewrite push_off_eq. fold (pushed 1 c).
    rewrite pushes_pushed by (destruct Hok; lia). do 2 f_equal. lia. }
  unfold bind. rewrite E. destruct (decide (k = S n)) as [->|Hne].
  - assert (Hp : forall j m c', pops (j + m) c' = (pops j ;;; pops m) c').
    { intros j m. induction j as [|j IH]; intros c'; [done|]. cbn [pops Nat.add]. unfold bind in *.
      destruct (pop_off c'); [apply IH|done..]. }
    specialize (Hp n 1%nat (pushed (Z.of_nat (S n)) c)).
    replace (n + 1)%nat with (S n) in Hp by lia. rewrite Hp. unfold bind.
    rewrite pops_pushed by (destruct Hok; lia). cbn [pops]. unfold bind.
    replace (Z.of_nat (S n) - Z.of_nat n) with 1 by lia.
    rewrite pop_off_eq by (simpl; destruct Hok; lia || done).
    eexists. split; [done|]. simpl. split_and!; [lia|lia|]. intros _.
    apply (pop_push c (ccpu (pushed 1 c)) Hok).
  - rewrite pops_pushed by (destruct Hok; lia). eexists. split; [done|]. simpl. split_and!; lia || done.
Qed.

Lemma push_pop_nest_witness :
  exists c1, (pushes 3 ;;; pops 3) boot_core = Ok tt c1 /\ sie (ccpu c1) = true.
Proof.
  destruct (push_pop_nest 3 3 boot_core) as (c1 & H1 & _ & _ & H2).
  - split; simpl; [lia|done].
  - lia.
  - lia.
  - exists c1. split; [done|]. by destruct (core_eqv_fields _ _ (H2 eq_refl)) as (_&_&_&_&_&_&_&_&->).
Defined.

(** ** All harts use one lock *)

Module Smp.
Section Smp.
Context (l : lock).

(** Where a hart is: outside acquire() and release() without the lock, in
    acquire() with the actions still to be done, between acquire() and
    release(), in release() with the actions still to be done. *)
Inductive mode :=
| Outside
| Acquiring (rest : list action)
| Inside
| Releasing (rest : list action).

(** The state the harts share (the hart identity and the struct cpu in [sh]
    are not used), the struct cpu of each hart, and where each hart is. *)
Record smp := mksmp { sh : core; cpus : Z -> cpu; modes : Z -> mode }.

(** The state as hart [i] sees it, and what [i] makes of it. *)
Definition view (s : smp) (i : Z) : core :=
  mkcore i (cpus s i) (lks (sh s)) (procs (sh s)) (nextpid (sh s)) (initproc (sh s)) (ticks (sh s)).
Definition put (i : Z) (c : core) (m : mode) (s : smp) : smp :=
  mksmp c (fupd (cpus s) i (ccpu c)) (fupd (modes s) i m).

(** One action of hart [i].  [step_other] is everything else the kernel does
    on a hart that is not in acquire() or release() of this lock: it leaves
    the lock alone, and keeps interrupts off if it holds the lock. *)
Inductive step (i : Z) (s : smp) : smp -> Prop :=
| step_call_acquire :
    modes s i = Outside -> step i s (put i (view s i) (Acquiring (acquire_code l)) s)
| step_acquire a rest done c :
    modes s i = Acquiring (a :: rest) -> act a (view s i) = Ok done c ->
    step i s (put i c (Acquiring (if done then rest else a :: rest)) s)
| step_acquired :
    modes s i = Acquiring [] -> step i s (put i (view s i) Inside s)
| step_call_release :
    modes s i = Inside -> step i s (put i (view s i) (Releasing (release_code l)) s)
| step_release a rest done c :
    modes s i = Releasing (a :: rest) -> act a (view s i) = Ok done c ->
    step i s (put i c (Releasing (if done then rest else a :: rest)) s)
| step_released :
    modes s i = Releasing [] -> step i s (put i (view s i) Outside s)
| step_other c :
    modes s i = Outside \/ modes s i = Inside -> lks c l = lks (sh s) l -> cpu_ok c ->
    (modes s i = Inside -> 0 < noff (ccpu c)) ->
    step i s (put i c (modes s i) s).

(** initlock(), with every hart outside. *)
Inductive reachable : smp -> Prop :=
| reach_init c0 c cs :
    initlock l c0 = Ok tt c -> (forall i, cpu_ok (set_ccpu (cs i) c)) ->
    reachable (mksmp c cs (fun _ => Outside))
| reach_step s s' i : reachable s -> step i s s' -> reachable s'.

(** A hart [owns] the lock from the amoswap that returned 0 to the store that
    unlocks, its name is in lk->cpu for part of that time ([named]), and it is
    [nested] from its push_off() to its pop_off(). *)
Definition owns (m : mode) : bool :=
  match m with
  | Outside => false | Acquiring r => (length r <=? 1)%nat | Inside => true | Releasing r => (2 <=? length r)%nat
  end.
Definition named (m : mode) : bool :=
  match m with
  | Outside => false | Acquiring r => (length r =? 0)%nat | Inside => true | Releasing r => (3 <=? length r)%nat
  end.
Definition nested (m : mode) : bool :=
  match m with
  | Outside => false | Acquiring r => (length r <=? 3)%nat | Inside => true | Releasing r => (1 <=? length r)%nat
  end.

(** What is left of a call is a suffix of its code. *)
Definition suffix (m : mode) : Prop :=
  match m with
  | Acquiring r => exists k, (k <= 4)%nat /\ r = drop k (acquire_code l)
  | Releasing r => exists k, (k <= 4)%nat /\ r = drop k (release_code l)
  | _ => True
  end.

Record inv (s : smp) : Prop := {
  inv_suffix : forall i, suffix (modes s i);
  inv_cpu : forall i, cpu_ok (view s i);
  inv_nested : forall i, nested (modes s i) = true -> 0 < noff (cpus s i);
  inv_locked : forall i, owns (modes s i) = true -> locked (lks (sh s) l) = 1;
  inv_one : forall i j, owns (modes s i) = true -> owns (modes s j) = true -> i = j;
  inv_named : forall i, lkcpu (lks (sh s) l) = Some i <-> named (modes s i) = true
}.

Lemma named_owns m : named m = true -> owns m = true.
Proof. destruct m; cbn [named owns]; rewrite ?Nat.eqb_eq, ?Nat.leb_le; try done; lia. Qed.

(** What a step of hart [i] has to keep. *)
Lemma put_inv i c m s :
  inv s -> suffix m -> cpu_ok c -> (nested m = true -> 0 < noff (ccpu c)) ->
  (owns m = true -> locked (lks c l) = 1 /\ (owns (modes s i) = true \/ forall j, owns (modes s j) = false)) ->
  (forall j, j <> i -> owns (modes s j) = true -> locked (lks c l) = 1) ->
  (forall j, lkcpu (lks c l) = Some j <-> if decide (j = i) then named m = true else named (modes s j) = true) ->
  inv (put i c m s).
Proof.
  intros [I1 I2 I3 I4 I5 I6] Hs Hc Hn Ho Hl Hname.
  assert (Hone : forall j, j <> i -> owns m = true -> owns (modes s j) = true -> False).
  { intros j Hj Hm Hoj. destruct (Ho Hm) as [_ [Hi|Hi]]; [by apply Hj, I5|congruence]. }
  split; unfold put, fupd, view; cbn [modes cpus sh ccpu noff].
  - intros j. by case_decide.
  - intros j. case_decide; [exact Hc|apply I2].
  - intros j. case_decide; [exact Hn|apply I3].
  - intros j. case_decide; [intros E; by apply Ho|by apply Hl].
  - intros j k. repeat case_decide; subst; try done; [| |apply I5]; intros; exfalso; eauto.
  - intros j. rewrite Hname. by repeat case_decide.
Qed.

(** A step that only moves on in the code, with the lock as it is. *)
Lemma keep_inv i c m s :
  inv s -> suffix m -> cpu_ok c -> lks c l = lks (sh s) l ->
  (nested m = true -> 0 < noff (ccpu c)) -> owns m = owns (modes s i) -> named m = named (modes s i) ->
  inv (put i c m s).
Proof.
  intros Hi Hs Hc Hl Hn Ho Hm. pose proof Hi as [I1 I2 I3 I4 I5 I6]. apply put_inv; [done..| | |]; rewrite Hl.
  - intros E. rewrite Ho in E. split; [by apply (I4 i)|by left].
  - intros j _. apply I4.
  - intros j. rewrite I6, Hm. by case_decide; subst.
Qed.

Lemma push_off_inv i s c done :
  inv s -> act (Do push_off) (view s i) = Ok done c ->
  done = true /\ cpu_ok c /\ 0 < noff (ccpu c) /\ lks c = lks (sh s).
Proof.
  intros [_ I2 _ _ _ _] E. cbn [act] in E. unfold bind in E. rewrite push_off_eq in E. injection E as <- <-.
  destruct (I2 i) as [Hn _]. cbn in Hn. split_and!; [done| |cbn; lia|done]. split; cbn; [lia|done].
Qed.

Lemma not_named i s : inv s -> named (modes s i) = false ->
  holding l (view s i) = Ok false (view s i).
Proof.
  intros [_ _ _ _ _ I6] Hn. unfold holding, gets. cbn. rewrite bool_decide_false; [by rewrite andb_false_r|].
  intros E%I6. congruence.
Qed.

Lemma is_named i s : inv s -> named (modes s i) = true -> holding l (view s i) = Ok true (view s i).
Proof.
  intros [_ _ _ I4 _ I6] Hn. unfold holding, gets. cbn. rewrite (I4 i) by by apply named_owns.
  by rewrite bool_decide_true by by apply I6.
Qed.

Lemma pop_off_inv i s :
  inv s -> nested (modes s i) = true ->
  exists c, pop_off (view s i) = Ok tt c /\ cpu_ok c /\ lks c = lks (sh s).
Proof.
  intros [_ I2 I3 _ _ _] Hn. specialize (I3 i Hn). destruct (I2 i) as [_ Hs].
  eexists. split; [apply pop_off_eq; [done|by apply Hs]|]. split; [|done]. split; cbn; [lia|].
  intros Hp. rewrite (proj2 (Z.eqb_neq _ 0)) by lia. done.
Qed.

(** The rest of a call, one case for each action. *)
Ltac cases4 k := destruct k as [|[|[|[|[|k]]]]]; [..|exfalso; lia].

(** Every action of acquire() succeeds and keeps the invariant. *)
Lemma acquire_inv i s a rest :
  inv s -> modes s i = Acquiring (a :: rest) ->
  exists done c, act a (view s i) = Ok done c /\ inv (put i c (Acquiring (if done then rest else a :: rest)) s).
Proof.
  intros Hi Hm. pose proof (inv_suffix _ Hi i) as Hs. pose proof (inv_cpu _ Hi i) as Hc.
  pose proof (inv_nested _ Hi i) as Hn. rewrite Hm in Hs, Hn. destruct Hs as (k & Hk & E).
  assert (Hsuf : forall j, (j <= 4)%nat -> suffix (Acquiring (drop j (acquire_code l)))) by (intros j ?; by exists j).
  cases4 k; try discriminate E; injection E as -> ->.
  - destruct (act (Do push_off) (view s i)) as [done c| | | |] eqn:E;
      [|by cbn [act] in E; unfold bind in E; rewrite push_off_eq in E..].
    destruct (push_off_inv _ _ _ _ Hi E) as (-> & Hc' & Hn' & Hl). exists true, c. split; [done|].
    apply keep_inv; [done|apply (Hsuf 1%nat); lia|done|by rewrite Hl|done|by rewrite Hm|by rewrite Hm].
  - eexists true, (view s i). split; [cbn [act]; unfold bind; rewrite not_named; [done|done|by rewrite Hm]|].
    apply keep_inv; [done|apply (Hsuf 2%nat); lia|done|done|done|by rewrite Hm|by rewrite Hm].
  - eexists _, _. split; [reflexivity|]. cbn [lks view]. destruct (Z.eqb_spec (locked (lks (sh s) l)) 0) as [E0|E0].
    + apply put_inv; [done|apply (Hsuf 3%nat); lia|exact Hc|exact Hn|..]; cbn; rewrite fupd_eq; cbn.
      * intros _. split; [done|]. right. intros j. destruct (owns (modes s j)) eqn:Ej; [|done].
        apply (inv_locked _ Hi) in Ej. lia.
      * done.
      * intros j. rewrite (inv_named _ Hi j). case_decide; [subst; by rewrite Hm|done].
    + apply put_inv; [done|apply (Hsuf 2%nat); lia|exact Hc|exact Hn|..]; cbn; rewrite fupd_eq; cbn; [done|done|].
      intros j. rewrite (inv_named _ Hi j). case_decide; [subst; by rewrite Hm|done].
  - eexists true, _. split; [reflexivity|]. pose proof (inv_locked _ Hi i) as Hl. rewrite Hm in Hl.
    apply put_inv; [done|apply (Hsuf 4%nat); lia|exact Hc|exact Hn|..]; cbn; rewrite fupd_eq; cbn.
    + intros _. split; [by apply Hl|]. left. by rewrite Hm.
    + intros j _ _. by apply Hl.
    + intros j. case_decide as Ej; [by subst|]. split; [congruence|]. intros Ho%named_owns. exfalso. apply Ej.
      apply (inv_one _ Hi); [done|by rewrite Hm].
Qed.

(** And so does every action of release(). *)
Lemma release_inv i s a rest :
  inv s -> modes s i = Releasing (a :: rest) ->
  exists done c, act a (view s i) = Ok done c /\ inv (put i c (Releasing (if done then rest else a :: rest)) s).
Proof.
  intros Hi Hm. pose proof (inv_suffix _ Hi i) as Hs. pose proof (inv_cpu _ Hi i) as Hc.
  pose proof (inv_nested _ Hi i) as Hn. rewrite Hm in Hs, Hn. destruct Hs as (k & Hk & E).
  assert (Hsuf : forall j, (j <= 4)%nat -> suffix (Releasing (drop j (release_code l)))) by (intros j ?; by exists j).
  pose proof (inv_locked _ Hi i) as Hl. pose proof (fun j => inv_one _ Hi j i) as Hone. rewrite Hm in Hl, Hone.
  cases4 k; try discriminate E; injection E as -> ->.
  - eexists true, (view s i). split; [cbn [act]; unfold bind; rewrite is_named; [done|done|by rewrite Hm]|].
    apply keep_inv; [done|apply (Hsuf 1%nat); lia|done|done|done|by rewrite Hm|by rewrite Hm].
  - eexists true, _. split; [reflexivity|].
    apply put_inv; [done|apply (Hsuf 2%nat); lia|exact Hc|exact Hn|..]; cbn; rewrite fupd_eq; cbn.
    + intros _. split; [by apply Hl|]. left. by rewrite Hm.
    + intros j _ _. by apply Hl.
    + intros j. split; [done|]. case_decide as Ej; [done|]. intros Ho%named_owns. exfalso. by apply Ej, Hone.
  - eexists true, _. split; [reflexivity|].
    apply put_inv; [done|apply (Hsuf 3%nat); lia|exact Hc|exact Hn|..]; cbn; rewrite fupd_eq; cbn.
    + done.
    + intros j Ej Ho. exfalso. by apply Ej, Hone.
    + intros j. rewrite (inv_named _ Hi j). case_decide; [subst; by rewrite Hm|done].
  - destruct (pop_off_inv i s Hi) as (c & E & Hc' & Hl'); [by rewrite Hm|].
    exists true, c. split; [cbn [act]; unfold bind; by rewrite E|].
    apply keep_inv; [done|apply (Hsuf 4%nat); lia|done|by rewrite Hl'|done|by rewrite Hm|by rewrite Hm].
Qed.

Lemma step_inv i s s' : step i s s' -> inv s -> inv s'.
Proof.
  intros Hs Hi. pose proof (inv_cpu _ Hi i) as Hc. pose proof (inv_nested _ Hi i) as Hn.
  destruct Hs as [Hm|a rest done c Hm E|Hm|Hm|a rest done c Hm E|Hm|c Hm Hl Hc' Hn'].
  - apply keep_inv; [done|exists 0%nat; split; [lia|done]|done|done|done|by rewrite Hm|by rewrite Hm].
  - destruct (acquire_inv i s a rest Hi Hm) as (d & c' & E' & Hi'). rewrite E in E'. by injection E' as <- <-.
  - rewrite Hm in Hn. by apply keep_inv; [..|rewrite Hm|rewrite Hm].
  - rewrite Hm in Hn. apply keep_inv; [done|exists 0%nat; split; [lia|done]|done|done|done|by rewrite Hm|by rewrite Hm].
  - destruct (release_inv i s a rest Hi Hm) as (d & c' & E' & Hi'). rewrite E in E'. by injection E' as <- <-.
  - by apply keep_inv; [..|rewrite Hm|rewrite Hm].
  - apply keep_inv; [done| |done|done| |done|done]; destruct Hm as [Hm|Hm]; rewrite Hm; try done. auto.
Qed.

Lemma reachable_inv s : reachable s -> inv s.
Proof.
  induction 1 as [c0 c cs E Hc|s s' i _ IH Hs]; [|by eapply step_inv].
  injection E as <-. split; try done. intros i. cbn. by rewrite fupd_eq.
Qed.

(** C33: acquire() and release() give mutual exclusion among the harts.  In
    every state the harts can reach by running the actions of acquire() and
    release() of a lock in any interleaving, at most one hart is between the
    two calls.  On that hart holding() is true and interrupts are off; on a
    hart outside it is false.  No hart panics: the next action of a call always
    succeeds. *)
Theorem mutual_exclusion s i j :
  reachable s ->
  (modes s i = Inside -> modes s j = Inside -> i = j) /\
  (modes s i = Inside -> holding l (view s i) = Ok true (view s i) /\ sie (cpus s i) = false) /\
  (modes s i = Outside -> holding l (view s i) = Ok false (view s i)) /\
  (forall a rest, modes s i = Acquiring (a :: rest) \/ modes s i = Releasing (a :: rest) ->
     exists done c, act a (view s i) = Ok done c).
Proof.
  intros Hi%reachable_inv. split; [|split; [|split]].
  - intros E1 E2. apply (inv_one _ Hi); [by rewrite E1|by rewrite E2].
  - intros E. split; [apply is_named; [done|by rewrite E]|]. apply (inv_cpu _ Hi i), (inv_nested _ Hi). by rewrite E.
  - intros E. apply not_named; [done|by rewrite E].
  - intros a rest [Hm|Hm].
    + destruct (acquire_inv i s a rest Hi Hm) as (d & c & E & _). eauto.
    + destruct (release_inv i s a rest Hi Hm) as (d & c & E & _). eauto.
Qed.
End Smp.

(** Hart 1 takes the kernel memory lock, hart 2 then calls acquire(). *)
Definition run1 (i : Z) (s : smp) : smp :=
  match modes s i with
  | Outside => put i (view s i) (Acquiring (acquire_code KmemLock)) s
  | Acquiring (a :: rest) =>
      match act a (view s i) with
      | Ok done c => put i c (Acquiring (if done then rest else a :: rest)) s
      | _ => s
      end
  | Acquiring [] => put i (view s i) Inside s
  | _ => s
  end.
Definition smp0 : smp := mksmp boot_core (fun _ => ccpu boot_core) (fun _ => Outside).
Definition smp1 : smp := fold_left (fun s i => run1 i s) [1; 1; 2; 1; 1; 2; 1; 1; 2; 2; 2] smp0.

Lemma run1_reachable i s : reachable KmemLock s -> reachable KmemLock (run1 i s).
Proof.
  intros Hr. unfold run1. destruct (modes s i) as [|[|a r]| |r] eqn:E; try done.
  - by apply (reach_step _ _ _ i Hr), step_call_acquire.
  - by apply (reach_step _ _ _ i Hr), step_acquired.
  - destruct (acquire_inv _ i s a r (reachable_inv _ _ Hr) E) as (d & c & E' & _). rewrite E'.
    apply (reach_step _ _ _ i Hr). by apply step_acquire.
Qed.

Lemma smp1_reachable : reachable KmemLock smp1.
Proof.
  assert (Hall : forall hs s, reachable KmemLock s -> reachable KmemLock (fold_left (fun s i => run1 i s) hs s)).
  { induction hs as [|i hs IH]; intros s Hs; [done|]. by apply IH, run1_reachable. }
  apply Hall. apply (reach_init KmemLock boot_core); [|intros i; split; cbn; [lia|done]].
  unfold initlock, set_lock, modify. do 2 f_equal. unfold set_lks. f_equal.
  apply functional_extensionality. intros lk. unfold fupd. by case_decide.
Qed.

Lemma mutual_exclusion_witness :
  modes smp1 1 = Inside /\ sie (cpus smp1 1) = false /\ (modes smp1 2 = Inside -> 1 = 2) /\
  modes smp1 2 = Acquiring (drop 2 (acquire_code KmemLock)).
Proof.
  destruct (mutual_exclusion KmemLock smp1 1 2 smp1_reachable) as (H1 & H2 & _).
  assert (E : modes smp1 1 = Inside) by reflexivity.
  split; [exact E|]. split; [apply (H2 E)|]. split; [exact (H1 E)|reflexivity].
Defined.
End Smp.
