(* ===== verification/Kalloc.v ===== *)
(** The physical page allocator with reference counts (kernel/kalloc.c).

    Free pages form a linked list threaded through the pages themselves:
    the first eight bytes of a free page are struct run's next pointer.
    pageref[] counts the mappings of every page; kfree() drops one, and the
    page is free when the count reaches zero.

    [heap_ok s l] is the allocator's invariant: [l] is the list of the free
    pages.  The specifications [wp_kalloc], [wp_kfree], [wp_pageRef] and
    [wp_cow_kalloc] cover every path of the code. *)

From stdpp Require Import base tactics list strings.
From Stdlib Require Import ZArith Lia FunctionalExtensionality.
From S2P Require Import Prelude Riscv Mem Core Spinlock.

Local Open Scope Z_scope.
Local Open Scope kern_scope.

(** ** State *)

Record kst := mkkst {
  k_core : core;
  k_mem : mem;            (** physical memory *)
  k_free : Z;             (** kmem.freelist *)
  k_ref : Z -> Z;         (** pageref[] *)
  k_kpt : Z               (** kernel_pagetable *)
}.

Definition set_core (v : core) (s : kst) : kst := mkkst v (k_mem s) (k_free s) (k_ref s) (k_kpt s).
Definition set_mem (v : mem) (s : kst) : kst := mkkst (k_core s) v (k_free s) (k_ref s) (k_kpt s).
Definition set_free (v : Z) (s : kst) : kst := mkkst (k_core s) (k_mem s) v (k_ref s) (k_kpt s).
Definition set_ref (v : Z -> Z) (s : kst) : kst := mkkst (k_core s) (k_mem s) (k_free s) v (k_kpt s).
Definition set_kpt (v : Z) (s : kst) : kst := mkkst (k_core s) (k_mem s) (k_free s) (k_ref s) v.

#[export] Instance kst_core : Lens kst core.
Proof. refine {| lget := k_core; lput := set_core |}; [done|by intros []|done]. Defined.

(** ** Memory accesses *)

Definition ld64 (a : Z) : M kst Z := gets (fun s => load64 (k_mem s) a).
Definition st64 (a v : Z) : M kst unit := modify (fun s => set_mem (store64 (k_mem s) a v) s).
Definition memset (a c n : Z) : M kst unit := modify (fun s => set_mem (fill (k_mem s) a c n) s).
Definition memmove (dst src n : Z) : M kst unit :=
  modify (fun s => set_mem (copy (k_mem s) dst src n) s).

(** ** Operations *)

Section Kalloc.
Context `{KernelImage}.

Definition PA2PAGE_ID (pa : Z) : Z := u64 (pa - KERNBASE) / PGSIZE.
Definition PAGE_COUNT : Z := PA2PAGE_ID PHYSTOP.

(** Reading and writing PAGE2REF(pa); outside the array this is undefined. *)
Definition get_ref (pa : Z) : M kst Z :=
  if PA2PAGE_ID pa <? PAGE_COUNT then gets (fun s => k_ref s (PA2PAGE_ID pa))
  else undefined "pageref index".
Definition put_ref (pa v : Z) : M kst unit :=
  if PA2PAGE_ID pa <? PAGE_COUNT
  then modify (fun s => set_ref (fupd (k_ref s) (PA2PAGE_ID pa) v) s)
  else undefined "pageref index".

Definition pageRef (pa : Z) : M kst unit :=
  zoom (acquire PagerefLock) ;;;
  let* r := get_ref pa in
  put_ref pa (i32 (r + 1)) ;;;
  zoom (release PagerefLock).

Definition kfree (pa : Z) : M kst unit :=
  if negb (pa mod PGSIZE =? 0) || (pa <? image_end) || (PHYSTOP <=? pa)
  then panic "kfree"
  else
    zoom (acquire PagerefLock) ;;;
    let* r := get_ref pa in
    put_ref pa (i32 (r - 1)) ;;;
    when (i32 (r - 1) <=? 0)
      (memset pa 1 PGSIZE ;;;
       zoom (acquire KmemLock) ;;;
       let* head := gets k_free in
       st64 pa head ;;;
       modify (set_free pa) ;;;
       zoom (release KmemLock)) ;;;
    zoom (release PagerefLock).

Definition kalloc : M kst Z :=
  zoom (acquire KmemLock) ;;;
  let* r := gets k_free in
  when (negb (r =? 0))
    (let* next := ld64 r in modify (set_free next)) ;;;
  zoom (release KmemLock) ;;;
  when (negb (r =? 0))
    (memset r 5 PGSIZE ;;;
     put_ref r 1) ;;;
  ret r.

Definition cow_kalloc (pa : Z) : M kst Z :=
  zoom (acquire PagerefLock) ;;;
  let* r := get_ref pa in
  if r <=? 1 then
    zoom (release PagerefLock) ;;;
    ret pa
  else
    let* new_pa := kalloc in
    if new_pa =? 0 then
      zoom (release PagerefLock) ;;;
      ret 0
    else
      memmove new_pa pa PGSIZE ;;;
      let* r := get_ref pa in
      put_ref pa (i32 (r - 1)) ;;;
      zoom (release PagerefLock) ;;;
      ret new_pa.

Definition freerange (pa_start pa_end : Z) : M kst unit :=
  loop (fun p =>
          if p + PGSIZE <=? pa_end
          then kfree p ;;; ret (inl (p + PGSIZE))
          else ret (inr tt)) (PGROUNDUP pa_start).

Definition kinit : M kst unit :=
  zoom (initlock KmemLock) ;;;
  zoom (initlock PagerefLock) ;;;
  freerange image_end PHYSTOP.

(** ** The invariant *)

(** [l] is the linked list that starts at [head]. *)
Fixpoint fl_rep (m : mem) (head : Z) (l : list Z) : Prop :=
  match l with
  | [] => head = 0
  | p :: l' => head = p /\ page_ok p /\ fl_rep m (load64 m p) l'
  end.

Definition ref (s : kst) (pa : Z) : Z := k_ref s (PA2PAGE_ID pa).

(** The free list is well formed, has no page twice, and consists of exactly
    the pages whose count is not positive. *)
Definition heap_ok (s : kst) (l : list Z) : Prop :=
  fl_rep (k_mem s) (k_free s) l /\ NoDup l /\
  (forall p, page_ok p -> (p ∈ l <-> ref s p <= 0)) /\
  (forall p, page_ok p -> - 2 ^ 31 <= ref s p < 2 ^ 31).

(** No lock of the allocator is held. *)
Definition unlocked (s : kst) : Prop :=
  cpu_ok (k_core s) /\ free KmemLock (k_core s) /\ free PagerefLock (k_core s).

(** ** Lemmas *)

Lemma PAGE_COUNT_eq : PAGE_COUNT = 32768.
Proof. reflexivity. Qed.

Lemma page_id pa : page_ok pa -> PA2PAGE_ID pa = (pa - KERNBASE) / PGSIZE.
Proof.
  intros Hp%page_ok_range. unfold PA2PAGE_ID. rewrite u64_small; [done|].
  unfold PHYSTOP, KERNBASE in *. lia.
Qed.

Lemma page_id_lt pa : page_ok pa -> (PA2PAGE_ID pa <? PAGE_COUNT) = true.
Proof.
  intros Hp. rewrite page_id by done. apply page_ok_range in Hp.
  rewrite PAGE_COUNT_eq. apply Z.ltb_lt, Z.div_lt_upper_bound; unfold PGSIZE, PHYSTOP, KERNBASE in *; lia.
Qed.

Lemma page_id_inj p q : page_ok p -> page_ok q -> PA2PAGE_ID p = PA2PAGE_ID q -> p = q.
Proof.
  intros Hp Hq. rewrite !page_id by done. destruct Hp as [Hp _], Hq as [Hq _].
  unfold PGSIZE, KERNBASE in *. intros E.
  apply Z.mod_divide in Hp as [k ->]; [|lia]. apply Z.mod_divide in Hq as [k' ->]; [|lia].
  change 2147483648 with (524288 * 4096) in E. rewrite <- !Z.mul_sub_distr_r, !Z.div_mul in E; lia.
Qed.

Lemma page_ok_nonzero p : page_ok p -> p <> 0.
Proof. intros ?%page_ok_range. unfold KERNBASE in *. lia. Qed.

Lemma fl_rep_ext m m' head l :
  (forall p, p ∈ l -> same_on m m' p PGSIZE) -> fl_rep m head l -> fl_rep m' head l.
Proof.
  revert head. induction l as [|p l IH]; intros head Hs; simpl; [done|].
  intros (-> & Hp & Hl). split_and!; [done|done|].
  rewrite (load64_ext m m').
  - apply IH; [|done]. intros q Hq. apply Hs. by right.
  - eapply same_on_sub; [apply Hs; by left| |]; unfold PGSIZE; lia.
Qed.

Lemma fl_rep_ok m head l p : fl_rep m head l -> p ∈ l -> page_ok p.
Proof.
  revert head. induction l as [|q l IH]; intros head Hl; [by intros ?%elem_of_nil|].
  destruct Hl as (-> & Hq & Hl). intros [->|]%elem_of_cons; eauto.
Qed.

(** A change confined to one page leaves the other pages alone. *)
Lemma other_page m m' p q :
  page_ok p -> page_ok q -> p <> q ->
  (forall x, ~ (p <= x < p + PGSIZE) -> m' x = m x) -> same_on m m' q PGSIZE.
Proof.
  intros Hp Hq Hne Hm x Hx. apply Hm. pose proof (page_ok_disjoint p q Hp Hq Hne). lia.
Qed.

Lemma fl_rep_page m m' head l p :
  page_ok p -> p ∉ l -> (forall x, ~ (p <= x < p + PGSIZE) -> m' x = m x) ->
  fl_rep m head l -> fl_rep m' head l.
Proof.
  intros Hp Hn Hm Hl. eapply fl_rep_ext; [|done]. intros q Hq.
  apply (other_page _ _ p q); [done|by eapply fl_rep_ok|by intros ->|done].
Qed.

Lemma ref_upd s p q v :
  page_ok p -> page_ok q ->
  ref (set_ref (fupd (k_ref s) (PA2PAGE_ID p) v) s) q = if decide (q = p) then v else ref s q.
Proof.
  intros Hp Hq. unfold ref. simpl. case_decide as E; [subst; apply fupd_eq|].
  apply fupd_ne. intros E'. apply E. by apply page_id_inj.
Qed.

Lemma heap_ok_ext s s' l :
  k_mem s' = k_mem s -> k_free s' = k_free s -> k_ref s' = k_ref s -> heap_ok s l -> heap_ok s' l.
Proof. unfold heap_ok, ref. by intros -> -> ->. Qed.

Lemma heap_ok_free s l p : heap_ok s l -> p ∈ l -> page_ok p /\ ref s p <= 0.
Proof.
  intros (Hf & _ & Hi & _) Hp. assert (page_ok p) by by eapply fl_rep_ok. by split; [|apply Hi].
Qed.

Lemma heap_ok_used s l p : heap_ok s l -> page_ok p -> 0 < ref s p -> p ∉ l.
Proof. intros (_ & _ & Hi & _) Hp Hr Hin. apply Hi in Hin; [lia|done]. Qed.

Lemma heap_ok_unfree s l p : heap_ok s l -> page_ok p -> p ∉ l -> 0 < ref s p.
Proof. intros (_ & _ & Hi & _) Hp Hn. destruct (Z.ltb_spec 0 (ref s p)); [done|]. by apply Hi in H0. Qed.

Lemma heap_ok_iff s l p : heap_ok s l -> page_ok p -> ref s p <= 0 -> p ∈ l.
Proof. intros (_ & _ & Hi & _) Hp Hr. by apply Hi. Qed.

(** Taking the first free page, giving a page back, changing a count, and
    writing into a page in use keep the invariant. *)
Lemma heap_ok_alloc s p l c m :
  heap_ok s (p :: l) -> (forall x, ~ (p <= x < p + PGSIZE) -> m x = k_mem s x) ->
  heap_ok (mkkst c m (load64 (k_mem s) p) (fupd (k_ref s) (PA2PAGE_ID p) 1) (k_kpt s)) l.
Proof.
  intros Hok Hm. pose proof (heap_ok_free _ _ p Hok ltac:(by left)) as [Hp _].
  destruct Hok as ((E & _ & Hl) & [Hn Hd]%NoDup_cons & Hi & Hb).
  split_and!; [|done|intros q Hq|intros q Hq].
  - by eapply (fl_rep_page (k_mem s) m _ _ p).
  - change (ref _ q) with (ref (set_ref (fupd (k_ref s) (PA2PAGE_ID p) 1) s) q).
    rewrite ref_upd by done. specialize (Hi q Hq). case_decide as E'.
    + subst. split; [done|lia].
    + rewrite <- Hi, elem_of_cons. tauto.
  - change (ref _ q) with (ref (set_ref (fupd (k_ref s) (PA2PAGE_ID p) 1) s) q).
    rewrite ref_upd by done. specialize (Hb q Hq). case_decide; lia.
Qed.

Lemma heap_ok_giveback s p l c m :
  heap_ok s l -> page_ok p -> p ∉ l -> (forall x, ~ (p <= x < p + PGSIZE) -> m x = k_mem s x) ->
  load64 m p = k_free s ->
  heap_ok (mkkst c m p (fupd (k_ref s) (PA2PAGE_ID p) 0) (k_kpt s)) (p :: l).
Proof.
  intros Hok Hp Hn Hm Hld. destruct Hok as (Hl & Hd & Hi & Hb).
  split_and!; [|by apply NoDup_cons|intros q Hq|intros q Hq].
  - simpl. rewrite Hld. split_and!; [done|done|]. by eapply (fl_rep_page (k_mem s) m _ _ p).
  - change (ref _ q) with (ref (set_ref (fupd (k_ref s) (PA2PAGE_ID p) 0) s) q).
    rewrite ref_upd by done. specialize (Hi q Hq). case_decide as E'.
    + subst. split; [lia|by left].
    + rewrite <- Hi, elem_of_cons. tauto.
  - change (ref _ q) with (ref (set_ref (fupd (k_ref s) (PA2PAGE_ID p) 0) s) q).
    rewrite ref_upd by done. specialize (Hb q Hq). case_decide; lia.
Qed.

Lemma heap_ok_ref s p l v :
  heap_ok s l -> page_ok p -> p ∉ l -> 0 < v < 2 ^ 31 ->
  heap_ok (set_ref (fupd (k_ref s) (PA2PAGE_ID p) v) s) l.
Proof.
  intros Hok Hp Hn Hv. destruct Hok as (Hl & Hd & Hi & Hb).
  split_and!; [done|done|intros q Hq|intros q Hq]; rewrite ref_upd by done.
  - specialize (Hi q Hq). case_decide as E'; [|done]. subst. split; [done|lia].
  - specialize (Hb q Hq). case_decide; lia.
Qed.

Lemma heap_ok_mem s p l m :
  heap_ok s l -> page_ok p -> p ∉ l -> (forall x, ~ (p <= x < p + PGSIZE) -> m x = k_mem s x) ->
  heap_ok (set_mem m s) l.
Proof.
  intros Hok Hp Hn Hm. destruct Hok as (Hl & Hd & Hi & Hb). split_and!; try done.
  by eapply (fl_rep_page (k_mem s) m _ _ p).
Qed.

(** ** Rules *)

Lemma k_acquire lk (Q : unit -> kst -> Prop) s :
  cpu_ok (k_core s) -> free lk (k_core s) ->
  Q tt (set_core (acq lk (k_core s)) s) -> wp (zoom (acquire lk)) Q s.
Proof. intros. apply wp_zoom. by apply wp_acquire. Qed.

Lemma k_release lk (Q : unit -> kst -> Prop) s c0 :
  core_eqv (acq lk c0) (k_core s) -> cpu_ok c0 -> free lk c0 ->
  (forall c', core_eqv c0 c' -> Q tt (set_core c' s)) -> wp (zoom (release lk)) Q s.
Proof. intros. apply wp_zoom. eapply wp_release; eauto. Qed.

Lemma wp_get_ref (Q : Z -> kst -> Prop) s p :
  page_ok p -> Q (ref s p) s -> wp (get_ref p) Q s.
Proof. intros Hp HQ. unfold get_ref. by rewrite page_id_lt. Qed.

Lemma wp_put_ref (Q : unit -> kst -> Prop) s p v :
  page_ok p -> Q tt (set_ref (fupd (k_ref s) (PA2PAGE_ID p) v) s) -> wp (put_ref p v) Q s.
Proof. intros Hp HQ. unfold put_ref. by rewrite page_id_lt. Qed.

Lemma wp_kalloc (Q : Z -> kst -> Prop) s l :
  cpu_ok (k_core s) -> free KmemLock (k_core s) -> heap_ok s l ->
  (forall c', core_eqv (k_core s) c' ->
     match l with
     | [] => Q 0 (set_core c' s)
     | p :: l' =>
         let s' := mkkst c' (fill (k_mem s) p 5 PGSIZE) (load64 (k_mem s) p)
                         (fupd (k_ref s) (PA2PAGE_ID p) 1) (k_kpt s) in
         page_ok p -> ref s p <= 0 -> heap_ok s' l' -> Q p s'
     end) ->
  wp kalloc Q s.
Proof.
  intros Hc Hf Hok HQ. unfold kalloc. wp_step. apply k_acquire; [done|done|].
  wp_step. wp_step. simpl. destruct l as [|p l].
  - destruct Hok as (E & _). simpl in E. rewrite E. simpl. wp_step. wp_step. wp_step.
    eapply k_release; [apply core_eqv_refl|done|done|]. intros c' He. wp_step. wp_step. wp_step.
    apply (HQ c' He).
  - pose proof (heap_ok_free _ _ p Hok ltac:(by left)) as [Hp Hr].
    pose proof Hok as ((E & _ & _) & _). simpl in E. rewrite E.
    pose proof (page_ok_nonzero p Hp) as E0. apply Z.eqb_neq in E0. rewrite E0. simpl.
    unfold ld64, memset. wp_steps. eapply k_release; [apply core_eqv_refl|done|done|].
    intros c' He. wp_steps. apply wp_put_ref; [done|]. wp_step.
    apply (HQ c' He); [done|done|]. eapply heap_ok_alloc; [done|].
    intros x Hx. by apply fill_out.
Qed.

(** kfree() on any page of the allocator's range, whatever its count. *)
Lemma wp_kfree_raw (Q : unit -> kst -> Prop) s p :
  unlocked s -> page_ok p -> - 2 ^ 31 < ref s p < 2 ^ 31 ->
  (forall c', core_eqv (k_core s) c' ->
     if ref s p <=? 1 then
       Q tt (mkkst c' (store64 (fill (k_mem s) p 1 PGSIZE) p (k_free s)) p
                   (fupd (k_ref s) (PA2PAGE_ID p) (ref s p - 1)) (k_kpt s))
     else
       Q tt (mkkst c' (k_mem s) (k_free s)
                   (fupd (k_ref s) (PA2PAGE_ID p) (ref s p - 1)) (k_kpt s))) ->
  wp (kfree p) Q s.
Proof.
  intros (Hc & Hfk & Hfp) Hp Hr HQ. unfold kfree. destruct Hp as [Ha [Hlo Hhi]].
  rewrite Ha, (proj2 (Z.ltb_ge p image_end)), (proj2 (Z.leb_gt PHYSTOP p)) by lia. simpl.
  assert (Hp : page_ok p) by done.
  wp_step. apply k_acquire; [done|done|]. wp_step. apply wp_get_ref; [done|].
  wp_step. apply wp_put_ref; [done|]. wp_step.
  change (ref (set_core _ s) p) with (ref s p). rewrite i32_small by lia.
  apply wp_when; intros Hle; bools.
  - unfold memset, st64. wp_steps.
    apply k_acquire; [by apply acq_ok|by apply acq_free|].
    wp_steps. simpl. eapply k_release; [apply core_eqv_refl|by apply acq_ok|by apply acq_free|].
    intros c1 Hc1. simpl. eapply k_release; [done|done|done|].
    intros c' Hc'. specialize (HQ c' Hc').
    rewrite (proj2 (Z.leb_le (ref s p) 1)) in HQ by lia. apply HQ.
  - eapply k_release; [apply core_eqv_refl|done|done|].
    intros c' Hc'. specialize (HQ c' Hc').
    rewrite (proj2 (Z.leb_gt (ref s p) 1)) in HQ by lia. apply HQ.
Qed.

(** The page that comes back to the free list, with its link. *)
Lemma freed_link s l p :
  heap_ok s l -> load64 (store64 (fill (k_mem s) p 1 PGSIZE) p (k_free s)) p = k_free s.
Proof.
  intros (Hl & _). rewrite load64_store64_same. apply u64_small.
  destruct l as [|q l]; [simpl in Hl; rewrite Hl; lia|]. destruct Hl as (-> & Hq & _).
  apply page_ok_range in Hq. unfold PHYSTOP, KERNBASE in *. lia.
Qed.

Lemma freed_outside m p v x :
  ~ (p <= x < p + PGSIZE) -> store64 (fill m p 1 PGSIZE) p v x = m x.
Proof. intros Hx. rewrite store64_out by (unfold PGSIZE in *; lia). by apply fill_out. Qed.

(** kfree() of a page in use. *)
Lemma wp_kfree (Q : unit -> kst -> Prop) s l p :
  unlocked s -> heap_ok s l -> page_ok p -> 1 <= ref s p ->
  (forall c', core_eqv (k_core s) c' ->
     if ref s p =? 1 then
       let s' := mkkst c' (store64 (fill (k_mem s) p 1 PGSIZE) p (k_free s)) p
                       (fupd (k_ref s) (PA2PAGE_ID p) 0) (k_kpt s) in
       heap_ok s' (p :: l) -> Q tt s'
     else
       let s' := mkkst c' (k_mem s) (k_free s)
                       (fupd (k_ref s) (PA2PAGE_ID p) (ref s p - 1)) (k_kpt s) in
       heap_ok s' l -> Q tt s') ->
  wp (kfree p) Q s.
Proof.
  intros Hu Hok Hp Hr HQ.
  assert (Hnl : p ∉ l) by (eapply heap_ok_used; [done|done|lia]).
  pose proof Hok as (_ & _ & _ & Hb). specialize (Hb p Hp).
  apply wp_kfree_raw; [done|done|lia|]. intros c' Hc'. specialize (HQ c' Hc').
  destruct (Z.eqb_spec (ref s p) 1) as [E|E].
  - rewrite E in *. apply HQ. eapply heap_ok_giveback; [done|done|done|..].
    + intros x. apply freed_outside.
    + by eapply freed_link.
  - rewrite (proj2 (Z.leb_gt (ref s p) 1)) by lia. apply HQ.
    eapply heap_ok_ext; [..|apply (heap_ok_ref s p l (ref s p - 1))]; try done. lia.
Qed.

Lemma wp_pageRef (Q : unit -> kst -> Prop) s l p :
  unlocked s -> heap_ok s l -> page_ok p -> 1 <= ref s p < 2 ^ 31 - 1 ->
  (forall c', core_eqv (k_core s) c' ->
     let s' := set_core c' (set_ref (fupd (k_ref s) (PA2PAGE_ID p) (ref s p + 1)) s) in
     heap_ok s' l -> Q tt s') ->
  wp (pageRef p) Q s.
Proof.
  intros (Hc & Hfk & Hfp) Hok Hp Hr HQ. unfold pageRef. wp_step. apply k_acquire; [done|done|].
  wp_step. apply wp_get_ref; [done|]. wp_step. apply wp_put_ref; [done|].
  change (ref (set_core _ s) p) with (ref s p). rewrite i32_small by lia.
  eapply k_release; [apply core_eqv_refl|done|done|]. intros c' Hc'. apply (HQ c' Hc').
  eapply heap_ok_ext; [..|apply (heap_ok_ref s p l (ref s p + 1))]; try done; [|lia].
  eapply heap_ok_used; [done|done|lia].
Qed.

(** A copy-on-write page that is not shared is returned as it is; a shared
    one is copied into a fresh page, if there is one. *)
Lemma wp_cow_kalloc (Q : Z -> kst -> Prop) s l pa :
  unlocked s -> heap_ok s l -> page_ok pa -> 1 <= ref s pa ->
  (forall c', core_eqv (k_core s) c' ->
     if ref s pa =? 1 then Q pa (set_core c' s)
     else match l with
          | [] => Q 0 (set_core c' s)
          | q :: l' =>
              let s' := mkkst c' (copy (fill (k_mem s) q 5 PGSIZE) q pa PGSIZE) (load64 (k_mem s) q)
                              (fupd (fupd (k_ref s) (PA2PAGE_ID q) 1) (PA2PAGE_ID pa) (ref s pa - 1))
                              (k_kpt s) in
              page_ok q -> q <> pa -> ref s q <= 0 -> heap_ok s' l' -> Q q s'
          end) ->
  wp (cow_kalloc pa) Q s.
Proof.
  intros (Hc & Hfk & Hfp) Hok Hp Hr HQ.
  pose proof Hok as (_ & _ & _ & Hb). specialize (Hb pa Hp).
  assert (Hnl : pa ∉ l) by (eapply heap_ok_used; [done|done|lia]).
  unfold cow_kalloc. wp_step. apply k_acquire; [done|done|].
  wp_step. apply wp_get_ref; [done|]. change (ref (set_core _ s) pa) with (ref s pa).
  apply wp_if; intros Hle; bools.
  - wp_step. eapply k_release; [apply core_eqv_refl|done|done|]. intros c' Hc'. wp_step.
    specialize (HQ c' Hc'). rewrite (proj2 (Z.eqb_eq (ref s pa) 1)) in HQ by lia. exact HQ.
  - wp_step. eapply (wp_kalloc _ _ l); [by apply acq_ok|by apply acq_free|by eapply heap_ok_ext|].
    intros c1 Hc1. destruct l as [|q l].
    + wp_steps; [|done]. eapply k_release; [exact Hc1|done|done|]. intros c' Hc'. wp_step.
      specialize (HQ c' Hc'). rewrite (proj2 (Z.eqb_neq (ref s pa) 1)) in HQ by lia. exact HQ.
    + simpl. intros Hq Hrq Hok'. rewrite (proj2 (Z.eqb_neq q 0)) by (by apply page_ok_nonzero).
      assert (Hne : q <> pa) by (intros ->; apply Hnl; by left).
      assert (Hnl' : pa ∉ l) by (intros ?; apply Hnl; by right).
      unfold memmove. wp_steps. apply wp_get_ref; [done|]. wp_step. apply wp_put_ref; [done|]. wp_step.
      set (s1 := mkkst c1 _ _ _ _) in *.
      assert (Hr1 : ref (set_mem (copy (k_mem s1) q pa PGSIZE) s1) pa = ref s pa).
      { unfold ref. simpl. apply fupd_ne. intros E. by apply page_id_inj in E. }
      rewrite Hr1, i32_small by lia.
      eapply k_release; [exact Hc1|done|done|]. intros c' Hc'. wp_step.
      specialize (HQ c' Hc'). rewrite (proj2 (Z.eqb_neq (ref s pa) 1)) in HQ by lia.
      apply HQ; [done|done|done|].
      eapply (heap_ok_mem _ q _ (copy (k_mem s1) q pa PGSIZE)) in Hok'; [|done| |].
      * eapply heap_ok_ext; [..|eapply (heap_ok_ref _ pa l (ref s pa - 1)); [exact Hok'|done|done|lia]]; done.
      * eapply heap_ok_used; [exact Hok'|done|]. unfold ref. simpl. rewrite fupd_eq. lia.
      * intros x Hx. simpl. by rewrite copy_out.
Qed.

(** *** Boot *)

(** The first page the allocator owns. *)
Definition first_page : Z := PGROUNDUP image_end.

Lemma first_page_spec :
  first_page mod PGSIZE = 0 /\ image_end <= first_page < image_end + PGSIZE /\ first_page <= PHYSTOP.
Proof.
  destruct image_layout as (? & ? & ? & ?). unfold PHYSTOP, KERNBASE, PGSIZE in *.
  destruct (PGROUNDUP_spec image_end) as [Ha Hb]; [unfold PGSIZE; lia|].
  fold first_page in *. unfold PGSIZE in *. split_and!; try lia.
  assert (first_page < 2281701376 + 4096) by lia.
  apply Z.mod_divide in Ha as [k Hk]; lia.
Qed.

(** The pages below [p], most recently freed first. *)
Fixpoint pages_below (n : nat) : list Z :=
  match n with
  | O => []
  | S n' => (first_page + Z.of_nat n' * PGSIZE) :: pages_below n'
  end.

Lemma elem_pages_below n p :
  p ∈ pages_below n <-> p mod PGSIZE = 0 /\ first_page <= p < first_page + Z.of_nat n * PGSIZE.
Proof.
  pose proof first_page_spec as (Ha & _). apply Z.mod_divide in Ha as [k Hk]; [|done].
  induction n as [|n IH]; cbn [pages_below].
  - rewrite elem_of_nil. unfold PGSIZE. lia.
  - rewrite elem_of_cons, IH. split.
    + intros [->|?]; unfold PGSIZE in *; [|lia]. split; [|lia].
      rewrite Hk, <- Z.mul_add_distr_r. by apply Z.mod_mul.
    + intros [Hm ?]. destruct (decide (p = first_page + Z.of_nat n * PGSIZE)); [by left|right].
      split; [done|]. apply Z.mod_divide in Hm as [j Hj]; unfold PGSIZE in *; lia.
Qed.

Lemma NoDup_pages_below n : NoDup (pages_below n).
Proof.
  induction n as [|n IH]; cbn [pages_below]; constructor; [|done].
  rewrite elem_pages_below. lia.
Qed.

(** From the state the loader leaves (free list empty, counts zero). *)
Lemma wp_kinit s :
  cpu_ok (k_core s) -> k_free s = 0 -> (forall p, page_ok p -> ref s p = 0) ->
  wp kinit (fun _ s' => exists l, heap_ok s' l /\ unlocked s' /\ (forall p, page_ok p <-> p ∈ l)) s.
Proof.
  intros Hc H0 Hr. unfold kinit, freerange. fold first_page.
  pose proof first_page_spec as (Ha & Hlo & Hhi).
  wp_step. apply wp_zoom, wp_modify. wp_step. apply wp_zoom, wp_modify. simpl.
  set (s0 := set_core _ _).
  set (n := (PHYSTOP - first_page) / PGSIZE).
  assert (Hn : PHYSTOP = first_page + n * PGSIZE /\ 0 <= n <= 32768).
  { apply Z.mod_divide in Ha as [k Hk]; [|done]. unfold n. destruct image_layout as (? & ? & ? & ?).
    unfold PHYSTOP, KERNBASE, PGSIZE in *.
    replace (2147483648 + 128 * 1024 * 1024 - first_page) with ((557056 - k) * 4096) by lia.
    rewrite Z.div_mul by lia. lia. }
  apply wp_loop with (n := n)
    (I := fun k p s' => exists i, k = n - Z.of_nat i /\ p = first_page + Z.of_nat i * PGSIZE /\
       unlocked s' /\ fl_rep (k_mem s') (k_free s') (pages_below i) /\
       forall q, page_ok q -> ref s' q = if decide (q ∈ pages_below i) then -1 else 0).
  - intros k p s' Hk (i & -> & -> & Hu & Hfl & Href).
    set (p := first_page + Z.of_nat i * PGSIZE).
    apply wp_if; intros Hle; bools.
    + assert (Hp : page_ok p).
      { split; [|unfold PGSIZE in *; lia]. unfold p. apply Z.mod_divide in Ha as [j ->]; [|done].
        rewrite <- Z.mul_add_distr_r. by apply Z.mod_mul. }
      assert (Hnp : p ∉ pages_below i) by (rewrite elem_pages_below; unfold p; lia).
      assert (Hrp : ref s' p = 0) by (by rewrite Href, decide_False).
      wp_step. apply wp_kfree_raw; [done|done|rewrite Hrp; lia|].
      intros c' Hc'. rewrite Hrp. simpl. wp_step.
      exists (n - Z.of_nat (S i)). split; [unfold p, PGSIZE in *; lia|]. exists (S i).
      split_and!; [done|unfold p, PGSIZE; lia|..].
      * destruct Hu as (? & ? & ?). split_and!; simpl; eauto with xv6.
      * cbn [pages_below]. fold p. simpl. split_and!; [done|done|].
        rewrite load64_store64_same, u64_small.
        -- eapply (fl_rep_page (k_mem s')); [exact Hp|done|intros x; apply freed_outside|done].
        -- destruct (pages_below i) as [|q ?]; [simpl in Hfl; rewrite Hfl; lia|].
           destruct Hfl as (-> & Hq & _). apply page_ok_range in Hq. unfold PHYSTOP, KERNBASE in *. lia.
      * intros q Hq.
        change (ref _ q) with (ref (set_ref (fupd (k_ref s') (PA2PAGE_ID p) (-1)) s') q).
        rewrite ref_upd by done. cbn [pages_below]. fold p. case_decide as E.
        -- subst. rewrite decide_True; [done|by left].
        -- rewrite Href by done. case_decide as E'; case_decide as E''; try done; exfalso.
           ++ apply E''. by right.
           ++ apply elem_of_cons in E'' as [?|?]; done.
    + assert (Hi : Z.of_nat i = n) by (unfold PGSIZE in *; lia).
      wp_step. exists (pages_below i).
      assert (Hall : forall q, page_ok q <-> q ∈ pages_below i).
      { intros q. rewrite elem_pages_below, Hi. unfold page_ok.
        split; intros [Hm ?]; (split; [done|]).
        - destruct Hn as [Hn _]. apply Z.mod_divide in Hm as [j ->]; [|done].
          apply Z.mod_divide in Ha as [j' E]; [|done]. unfold PGSIZE in *. lia.
        - lia. }
      split; [|done]. split_and!; [done|apply NoDup_pages_below|intros q Hq|intros q Hq].
      * rewrite Href by done. case_decide as E; [by split|].
        exfalso. apply E. by apply Hall.
      * rewrite Href by done. case_decide; lia.
  - lia.
  - exists 0%nat. simpl. split_and!; try lia; try done.
Qed.

(** *** Properties *)

Lemma unlocked_eqv s s' : core_eqv (k_core s) (k_core s') -> unlocked s -> unlocked s'.
Proof. intros He (? & ? & ?). split_and!; eauto with xv6. Qed.

(** C25: after kinit(), run on the state the loader leaves, every physical
    page between the end of the kernel and PHYSTOP is on the free list exactly
    once, and nothing else is. *)
Theorem kinit_correct s :
  cpu_ok (k_core s) -> k_free s = 0 -> (forall p, page_ok p -> ref s p = 0) ->
  exists s' l, kinit s = Ok tt s' /\ heap_ok s' l /\ unlocked s' /\ (forall p, page_ok p <-> p ∈ l).
Proof.
  intros Hc H0 Hr. pose proof (wp_kinit s Hc H0 Hr) as (? & s' & E & l & ?)%wp_elim.
  destruct x. eauto.
Qed.

(** C24: kalloc() takes the first page off the free list.  The page it returns
    was free, now has reference count 1 and is filled with 5s; no other page,
    count or memory changes.  With an empty free list it returns 0 and changes
    nothing. *)
Theorem kalloc_correct s l :
  unlocked s -> heap_ok s l ->
  exists r s', kalloc s = Ok r s' /\ unlocked s' /\
    match l with
    | [] => r = 0 /\ heap_ok s' [] /\ k_mem s' = k_mem s /\ k_ref s' = k_ref s
    | p :: l' =>
        r = p /\ page_ok p /\ ref s p <= 0 /\ heap_ok s' l' /\ ref s' p = 1 /\
        (forall q, page_ok q -> q <> p -> ref s' q = ref s q) /\
        k_mem s' = fill (k_mem s) p 5 PGSIZE
    end.
Proof.
  intros Hu Hok. apply wp_elim.
  apply (wp_kalloc _ _ l); [apply Hu|apply Hu|done|].
  intros c' Hc'. destruct l as [|p l].
  - split; [by eapply unlocked_eqv|]. by split_and!; try eapply heap_ok_ext.
  - intros s' Hp Hr Hok'. split; [by eapply unlocked_eqv|]. split_and!; try done.
    + unfold ref. simpl. by rewrite fupd_eq.
    + intros q Hq Hne. unfold ref. simpl. apply fupd_ne. intros E. apply Hne. by apply page_id_inj.
Qed.

(** C22: kfree() drops one reference.  While others remain, only the count
    changes.  When it was the last one, the page goes to the front of the free
    list.  Memory outside the page never changes. *)
Theorem kfree_correct s l p :
  unlocked s -> heap_ok s l -> page_ok p -> 1 <= ref s p ->
  exists s', kfree p s = Ok tt s' /\ unlocked s' /\
    ref s' p = ref s p - 1 /\
    (forall q, page_ok q -> q <> p -> ref s' q = ref s q) /\
    (forall x, ~ (p <= x < p + PGSIZE) -> k_mem s' x = k_mem s x) /\
    (if ref s p =? 1 then heap_ok s' (p :: l) else heap_ok s' l /\ k_mem s' = k_mem s).
Proof.
  intros Hu Hok Hp Hr.
  enough (wp (kfree p) (fun _ s' => unlocked s' /\ ref s' p = ref s p - 1 /\
    (forall q, page_ok q -> q <> p -> ref s' q = ref s q) /\
    (forall x, ~ (p <= x < p + PGSIZE) -> k_mem s' x = k_mem s x) /\
    (if ref s p =? 1 then heap_ok s' (p :: l) else heap_ok s' l /\ k_mem s' = k_mem s)) s) as W.
  { apply wp_elim in W as ([] & s' & E & W). eauto. }
  apply (wp_kfree _ _ l); try done. intros c' Hc'.
  assert (Hother : forall v q, page_ok q -> q <> p -> fupd (k_ref s) (PA2PAGE_ID p) v (PA2PAGE_ID q) = ref s q).
  { intros v q Hq Hne. unfold ref. apply fupd_ne. intros E. apply Hne. by apply page_id_inj. }
  destruct (Z.eqb_spec (ref s p) 1) as [E|E]; intros s' Hok'.
  - split; [by eapply unlocked_eqv|]. rewrite E. split_and!; try done.
    + unfold ref. simpl. by rewrite fupd_eq.
    + intros q Hq Hne. by apply Hother.
    + intros x. apply freed_outside.
  - split; [by eapply unlocked_eqv|]. split_and!; try done.
    + unfold ref. simpl. by rewrite fupd_eq.
    + intros q Hq Hne. by apply Hother.
Qed.

(** Kfree() panics on an address that is not a page of the allocator:
    unaligned, inside the kernel image, or beyond the physical memory. *)
Theorem kfree_panics s pa : ~ page_ok pa -> kfree pa s = Panic "kfree".
Proof.
  intros Hn. unfold kfree. destruct (negb _ || _ || _) eqn:E; [done|].
  exfalso. apply Hn. bools. by split.
Qed.

(** Cow_kalloc() gives the faulting process a page of its own.  A page
    with a single reference is returned unchanged.  A shared page is copied
    into a fresh page, which holds the same bytes and has count 1, and the
    shared page loses one reference; its bytes and those of every other page
    in use stay as they are.  With no free page it returns 0 and changes
    nothing. *)
Theorem cow_kalloc_correct s l pa :
  unlocked s -> heap_ok s l -> page_ok pa -> 1 <= ref s pa ->
  exists r s', cow_kalloc pa s = Ok r s' /\ unlocked s' /\
    if ref s pa =? 1 then r = pa /\ heap_ok s' l /\ k_mem s' = k_mem s /\ k_ref s' = k_ref s
    else match l with
    | [] => r = 0 /\ heap_ok s' [] /\ k_mem s' = k_mem s /\ k_ref s' = k_ref s
    | q :: l' =>
        r = q /\ page_ok q /\ q <> pa /\ heap_ok s' l' /\
        ref s' q = 1 /\ ref s' pa = ref s pa - 1 /\
        (forall i, 0 <= i < PGSIZE -> k_mem s' (q + i) = k_mem s (pa + i)) /\
        (forall x, ~ (q <= x < q + PGSIZE) -> k_mem s' x = k_mem s x)
    end.
Proof.
  intros Hu Hok Hp Hr. apply wp_elim. apply (wp_cow_kalloc _ _ l); try done.
  intros c' Hc'. destruct (ref s pa =? 1).
  { split; [by eapply unlocked_eqv|]. split_and!; done || by eapply heap_ok_ext. }
  destruct l as [|q l].
  { split; [by eapply unlocked_eqv|]. split_and!; done || by eapply heap_ok_ext. }
  intros s' Hq Hne Hrq Hok'. split; [by eapply unlocked_eqv|]. split_and!; try done.
  - unfold ref. simpl. rewrite fupd_ne, fupd_eq; [done|]. intros E. by apply page_id_inj in E.
  - unfold ref. simpl. by rewrite fupd_eq.
  - intros i Hi. simpl. rewrite copy_in by lia. rewrite fill_out; [f_equal; lia|].
    pose proof (page_ok_disjoint q pa Hq Hp Hne). lia.
  - intros x Hx. simpl. by rewrite copy_out, fill_out.
Qed.

(** A page that is allocated and freed again is the next one to be
    allocated: kalloc() then kfree() puts the free list back as it was. *)
Theorem kalloc_kfree_roundtrip s p l :
  unlocked s -> heap_ok s (p :: l) ->
  exists s', (let* r := kalloc in kfree r) s = Ok tt s' /\ heap_ok s' (p :: l) /\ unlocked s'.
Proof.
  intros Hu Hok.
  enough (wp (let* r := kalloc in kfree r) (fun _ s' => heap_ok s' (p :: l) /\ unlocked s') s) as W.
  { apply wp_elim in W as ([] & s' & E & W). eauto. }
  wp_step. apply (wp_kalloc _ _ (p :: l)); [apply Hu|apply Hu|done|].
  intros c' Hc' s1 Hp Hr Hok1.
  assert (E1 : ref s1 p = 1) by (unfold ref; simpl; by rewrite fupd_eq).
  apply (wp_kfree _ _ l); [by eapply unlocked_eqv|done|done|lia|].
  intros c2 Hc2. rewrite E1. simpl. intros Hok2. split; [done|].
  eapply (unlocked_eqv s1); [done|by eapply unlocked_eqv].
Qed.

End Kalloc.

(** ** Examples: a machine with three pages *)

Section Witness.
#[local] Existing Instance small_image.

Definition page0 : Z := PHYSTOP - 3 * PGSIZE.
Definition page1 : Z := PHYSTOP - 2 * PGSIZE.
Definition page2 : Z := PHYSTOP - 1 * PGSIZE.

(** Before kinit(). *)
Definition kst_loaded : kst := mkkst boot_core (fun _ => Byte.x00) 0 (fun _ => 0) 0.

(** Two pages free, page0 in use with [n] references. *)
Definition kst_small (n : Z) : kst :=
  mkkst boot_core (store64 (fun _ => Byte.x00) page2 page1) page2
        (fupd (fun _ => 0) (PA2PAGE_ID page0) n) 0.

Lemma boot_unlocked m f r k : unlocked (mkkst boot_core m f r k).
Proof. split_and!; simpl; try done; lia. Qed.

Lemma small_pages p : page_ok p -> p = page0 \/ p = page1 \/ p = page2.
Proof.
  intros [Ha Hr]. unfold page0, page1, page2. apply Z.mod_divide in Ha as [k Hk]; [|done].
  change (@image_end small_image) with (PHYSTOP - 3 * PGSIZE) in Hr.
  unfold PHYSTOP, KERNBASE, PGSIZE in *. lia.
Qed.

Lemma page0_ok : page_ok page0. Proof. by split. Qed.
Lemma page1_ok : page_ok page1. Proof. by split. Qed.
Lemma page2_ok : page_ok page2. Proof. by split. Qed.

Lemma kst_small_ok n : 1 <= n < 2 ^ 31 -> heap_ok (kst_small n) [page2; page1].
Proof.
  intros Hn.
  assert (R0 : ref (kst_small n) page0 = n) by (unfold ref; simpl; apply fupd_eq).
  assert (R1 : ref (kst_small n) page1 = 0) by reflexivity.
  assert (R2 : ref (kst_small n) page2 = 0) by reflexivity.
  split_and!.
  - split; [done|]. split; [by split|]. split; [vm_compute; done|]. split; [by split|].
    vm_compute; done.
  - apply NoDup_cons. split; [by intros ?%list_elem_of_singleton|]. apply NoDup_singleton.
  - intros p Hp. rewrite !elem_of_cons, elem_of_nil.
    destruct (small_pages p Hp) as [->|[->| ->]]; rewrite ?R0, ?R1, ?R2.
    + split; [by intros [?|[?|?]]|lia].
    + split; [lia|auto].
    + split; [lia|auto].
  - intros p Hp. destruct (small_pages p Hp) as [->|[->| ->]]; rewrite ?R0, ?R1, ?R2; lia.
Qed.

Lemma kinit_correct_witness :
  exists s' l, kinit kst_loaded = Ok tt s' /\ heap_ok s' l /\ page2 ∈ l.
Proof.
  destruct (kinit_correct kst_loaded) as (s' & l & H1 & H2 & _ & H3).
  - split; simpl; [lia|done].
  - reflexivity.
  - intros p Hp. reflexivity.
  - exists s', l. split_and!; [done|done|]. apply H3. apply page2_ok.
Defined.

Lemma kalloc_correct_witness :
  exists s', kalloc (kst_small 1) = Ok page2 s' /\ ref s' page2 = 1.
Proof.
  destruct (kalloc_correct (kst_small 1) [page2; page1]) as (r & s' & H1 & _ & -> & _ & _ & _ & H2 & _).
  - apply boot_unlocked.
  - by apply kst_small_ok.
  - by exists s'.
Defined.

Lemma kfree_correct_witness :
  exists s', kfree page0 (kst_small 1) = Ok tt s' /\ heap_ok s' [page0; page2; page1].
Proof.
  destruct (kfree_correct (kst_small 1) [page2; page1] page0) as (s' & H1 & _ & _ & _ & _ & H2).
  - apply boot_unlocked.
  - by apply kst_small_ok.
  - apply page0_ok.
  - vm_compute. done.
  - exists s'. split; [done|]. exact H2.
Defined.

Lemma kfree_panics_witness : kfree 12 (kst_small 1) = Panic "kfree".
Proof. apply (kfree_panics (kst_small 1) 12). intros [Ha _]. discriminate Ha. Defined.

Lemma cow_kalloc_correct_witness :
  exists s', cow_kalloc page0 (kst_small 2) = Ok page2 s' /\ ref s' page0 = 1.
Proof.
  destruct (cow_kalloc_correct (kst_small 2) [page2; page1] page0) as (r & s' & H1 & _ & H2).
  - apply boot_unlocked.
  - by apply kst_small_ok.
  - apply page0_ok.
  - vm_compute. done.
  - change (ref (kst_small 2) page0 =? 1) with false in H2.
    destruct H2 as (-> & _ & _ & _ & _ & H2 & _). by exists s'.
Defined.

Lemma kalloc_kfree_roundtrip_witness :
  exists s', (let* r := kalloc in kfree r) (kst_small 1) = Ok tt s' /\ heap_ok s' [page2; page1].
Proof.
  destruct (kalloc_kfree_roundtrip (kst_small 1) page2 [page1]) as (s' & H1 & H2 & _).
  - apply boot_unlocked.
  - by apply kst_small_ok.
  - by exists s'.
Defined.
End Witness.
