(* ===== verification/Vm.v ===== *)
(** Virtual memory (kernel/vm.c) and the copy-on-write fault path
    (should_copyon_write and copy_on_write of kernel/trap.c): definitions.

    Page tables are 64-bit words in physical memory, as the hardware walks
    them; pointers to entries are physical addresses and NULL is 0.  A kernel
    buffer passed to copyout() is given by its bytes, and copyin() and
    copyinstr() return the bytes they stored.  The theorems are in Pt.v, Uvm.v and Cow.v. *)

From stdpp Require Import base tactics list strings.
From Stdlib Require Import ZArith Lia.
From coqutil Require Import Byte.
From S2P Require Import Prelude Riscv Mem Core Spinlock Kalloc.

Local Open Scope Z_scope.
Local Open Scope kern_scope.

Section Vm.
Context `{KernelImage}.

(** ** Walking and mapping *)

(** The loop of walk(), from [level] down to 1. *)
Fixpoint walk_loop (level : nat) (pagetable va : Z) (alloc : bool) : M kst Z :=
  match level with
  | O => ret (pagetable + 8 * PX 0 va)
  | S level' =>
      let pte := pagetable + 8 * PX (Z.of_nat level) va in
      let* e := ld64 pte in
      if has e PTE_V then walk_loop level' (PTE2PA e) va alloc
      else if negb alloc then ret 0
      else
        let* pagetable' := kalloc in
        if pagetable' =? 0 then ret 0
        else
          memset pagetable' 0 PGSIZE ;;;
          st64 pte (Z.lor (PA2PTE pagetable') PTE_V) ;;;
          walk_loop level' pagetable' va alloc
  end.

Definition walk (pagetable va : Z) (alloc : bool) : M kst Z :=
  if MAXVA <=? va then panic "walk" else walk_loop 2 pagetable va alloc.

Definition walkaddr (pagetable va : Z) : M kst Z :=
  if MAXVA <=? va then ret 0
  else
    let* pte := walk pagetable va false in
    if pte =? 0 then ret 0
    else
      let* e := ld64 pte in
      if negb (has e PTE_V) then ret 0
      else if negb (has e PTE_U) then ret 0
      else ret (PTE2PA e).

Definition mappages (pagetable va size pa perm : Z) : M kst Z :=
  let a := PGROUNDDOWN va in
  let last := PGROUNDDOWN (u64 (va + size - 1)) in
  loop (fun '(a, pa) =>
      let* pte := walk pagetable a true in
      if pte =? 0 then ret (inr (-1))
      else
        let* e := ld64 pte in
        if has e PTE_V then panic "remap"
        else
          st64 pte (Z.lor (Z.lor (PA2PTE pa) perm) PTE_V) ;;;
          if a =? last then ret (inr 0)
          else ret (inl (u64 (a + PGSIZE), u64 (pa + PGSIZE)))) (a, pa).

Definition kvmmap (va pa sz perm : Z) : M kst unit :=
  let* kpt := gets k_kpt in
  let* r := mappages kpt va sz pa perm in
  if negb (r =? 0) then panic "kvmmap" else ret tt.

Definition kvmpa (va : Z) : M kst Z :=
  let off := va mod PGSIZE in
  let* kpt := gets k_kpt in
  let* pte := walk kpt va false in
  if pte =? 0 then panic "kvmpa"
  else
    let* e := ld64 pte in
    if negb (has e PTE_V) then panic "kvmpa"
    else ret (u64 (PTE2PA e + off)).

(** Using a NULL page, which the code does not test for. *)
Definition deref (p : Z) : M kst unit :=
  if p =? 0 then undefined "null page" else ret tt.

Definition kvminit : M kst unit :=
  let* kpt := kalloc in
  modify (set_kpt kpt) ;;;
  deref kpt ;;;
  memset kpt 0 PGSIZE ;;;
  kvmmap UART0 UART0 PGSIZE (Z.lor PTE_R PTE_W) ;;;
  kvmmap VIRTIO0 VIRTIO0 PGSIZE (Z.lor PTE_R PTE_W) ;;;
  kvmmap CLINT CLINT 0x10000 (Z.lor PTE_R PTE_W) ;;;
  kvmmap PLIC PLIC 0x400000 (Z.lor PTE_R PTE_W) ;;;
  kvmmap KERNBASE KERNBASE (etext - KERNBASE) (Z.lor PTE_R PTE_X) ;;;
  kvmmap etext etext (PHYSTOP - etext) (Z.lor PTE_R PTE_W) ;;;
  kvmmap TRAMPOLINE trampoline PGSIZE (Z.lor PTE_R PTE_X).

(** ** User address spaces *)

Definition uvmunmap (pagetable va npages : Z) (do_free : bool) : M kst unit :=
  if negb (va mod PGSIZE =? 0) then panic "uvmunmap: not aligned"
  else
    loop (fun a =>
        if a <? u64 (va + npages * PGSIZE) then
          let* pte := walk pagetable a false in
          if pte =? 0 then panic "uvmunmap: walk"
          else
            let* e := ld64 pte in
            if negb (has e PTE_V) then panic "uvmunmap: not mapped"
            else if PTE_FLAGS e =? PTE_V then panic "uvmunmap: not a leaf"
            else
              when do_free (kfree (PTE2PA e)) ;;;
              st64 pte 0 ;;;
              ret (inl (u64 (a + PGSIZE)))
        else ret (inr tt)) va.

Definition uvmcreate : M kst Z :=
  let* pagetable := kalloc in
  if pagetable =? 0 then ret 0
  else
    memset pagetable 0 PGSIZE ;;;
    ret pagetable.

Definition user_rwx : Z := Z.lor (Z.lor (Z.lor PTE_W PTE_X) PTE_R) PTE_U.

Definition uvminit (pagetable : Z) (src : list byte) : M kst unit :=
  if PGSIZE <=? Z.of_nat (length src) then panic "inituvm: more than a page"
  else
    let* mem := kalloc in
    deref mem ;;;
    memset mem 0 PGSIZE ;;;
    let* _ := mappages pagetable 0 PGSIZE mem user_rwx in
    modify (fun s => set_mem (wr (k_mem s) mem src) s).

Definition uvmdealloc (pagetable oldsz newsz : Z) : M kst Z :=
  if oldsz <=? newsz then ret oldsz
  else
    when (PGROUNDUP newsz <? PGROUNDUP oldsz)
      (let npages := i32 (u64 (PGROUNDUP oldsz - PGROUNDUP newsz) / PGSIZE) in
       uvmunmap pagetable (PGROUNDUP newsz) (u64 npages) true) ;;;
    ret newsz.

Definition uvmalloc (pagetable oldsz newsz : Z) : M kst Z :=
  if newsz <? oldsz then ret oldsz
  else
    let oldsz := PGROUNDUP oldsz in
    loop (fun a =>
        if a <? newsz then
          let* mem := kalloc in
          if mem =? 0 then
            let* _ := uvmdealloc pagetable a oldsz in ret (inr 0)
          else
            memset mem 0 PGSIZE ;;;
            let* r := mappages pagetable a PGSIZE mem user_rwx in
            if negb (r =? 0) then
              kfree mem ;;;
              let* _ := uvmdealloc pagetable a oldsz in ret (inr 0)
            else ret (inl (u64 (a + PGSIZE)))
        else ret (inr newsz)) oldsz.

(** The recursion of freewalk() follows the table; [fuel] bounds its depth. *)
Fixpoint freewalk_at (fuel : nat) (pagetable : Z) : M kst unit :=
  match fuel with
  | O => fun _ => Diverge
  | S fuel' =>
      forM (seqZ 0 512) (fun i =>
        let* pte := ld64 (pagetable + 8 * i) in
        if has pte PTE_V && (Z.land pte (Z.lor (Z.lor PTE_R PTE_W) PTE_X) =? 0) then
          freewalk_at fuel' (PTE2PA pte) ;;;
          st64 (pagetable + 8 * i) 0
        else if has pte PTE_V then panic "freewalk: leaf"
        else ret tt) ;;;
      kfree pagetable
  end.

Definition freewalk (pagetable : Z) : M kst unit := freewalk_at 64 pagetable.

Definition uvmfree (pagetable sz : Z) : M kst unit :=
  when (0 <? sz) (uvmunmap pagetable 0 (PGROUNDUP sz / PGSIZE) true) ;;;
  freewalk pagetable.

Definition uvmcopy (old new sz : Z) : M kst Z :=
  loop (fun i =>
      if i <? sz then
        let* pte := walk old i false in
        if pte =? 0 then panic "uvmcopy: pte should exist"
        else
          let* e := ld64 pte in
          if negb (has e PTE_V) then panic "uvmcopy: page not present"
          else
            let pa := PTE2PA e in
            let e' := Z.lor (Z.land e (Z.lnot PTE_W)) PTE_COW in
            st64 pte e' ;;;
            let* r := mappages new i PGSIZE pa (PTE_FLAGS e') in
            if negb (r =? 0) then
              uvmunmap new 0 (i / PGSIZE) true ;;;
              ret (inr (-1))
            else
              pageRef pa ;;;
              ret (inl (u64 (i + PGSIZE)))
      else ret (inr 0)) 0.

Definition uvmclear (pagetable va : Z) : M kst unit :=
  let* pte := walk pagetable va false in
  if pte =? 0 then panic "uvmclear"
  else
    let* e := ld64 pte in
    st64 pte (Z.land e (Z.lnot PTE_U)).

(** ** Copy-on-write (kernel/trap.c) *)

(** myproc(), then its fields. *)
Definition cur : M kst proc :=
  let* p := zoom myproc in
  match p with
  | Some i => gets (fun s => procs (k_core s) i)
  | None => undefined "myproc() is null"
  end.

Definition should_copyon_write (va : Z) : M kst bool :=
  let* p := cur in
  let* pte := walk (pagetable p) va false in
  if pte =? 0 then ret false
  else
    let* e := ld64 pte in
    ret ((PGROUNDDOWN va <? sz p) && has e PTE_V && has e PTE_COW).

Definition copy_on_write (va : Z) : M kst Z :=
  let* p := cur in
  let* pte := walk (pagetable p) va false in
  deref pte ;;;
  let* e := ld64 pte in
  let old_pa := PTE2PA e in
  let* new_pa := cow_kalloc old_pa in
  if new_pa =? 0 then ret (-1)
  else
    let* e := ld64 pte in
    let flags := Z.lor (Z.land (PTE_FLAGS e) (Z.lnot PTE_COW)) PTE_W in
    if new_pa =? old_pa then
      st64 pte (Z.lor (Z.land e (Z.lnot PTE_COW)) PTE_W) ;;;
      ret 0
    else
      uvmunmap (pagetable p) (PGROUNDDOWN va) 1 false ;;;
      let* r := mappages (pagetable p) (PGROUNDDOWN va) PGSIZE new_pa flags in
      if negb (r =? 0) then
        kfree new_pa ;;;
        ret (-1)
      else ret 0.

(** usertrap() on a page fault (scause 13 or 15) of process [p] at [va]. *)
Definition page_fault (p : nat) (va : Z) : M kst unit :=
  let* cow := should_copyon_write va in
  if cow then
    let* r := copy_on_write va in
    when (negb (r =? 0)) (modify (fun s => set_core (upd_proc p (set_killed 1) (k_core s)) s))
  else ret tt.

(** ** Copying between kernel and user memory *)

(** copyout() asks about the current process, whatever [pagetable] is. *)
Definition copyout (pagetable dstva : Z) (src : list byte) : M kst Z :=
  loop (fun '(dstva, src) =>
      if 0 <? Z.of_nat (length src) then
        let* cow := should_copyon_write dstva in
        when cow (let* _ := copy_on_write dstva in ret tt) ;;;
        let va0 := PGROUNDDOWN dstva in
        let* pa0 := walkaddr pagetable va0 in
        if pa0 =? 0 then ret (inr (-1))
        else
          let n := Z.min (PGSIZE - (dstva - va0)) (Z.of_nat (length src)) in
          modify (fun s => set_mem (wr (k_mem s) (pa0 + (dstva - va0)) (take (Z.to_nat n) src)) s) ;;;
          ret (inl (u64 (va0 + PGSIZE), drop (Z.to_nat n) src))
      else ret (inr 0)) (dstva, src).

Definition copyin (pagetable srcva len : Z) : M kst (Z * list byte) :=
  loop (fun '(srcva, len, dst) =>
      if 0 <? len then
        let va0 := PGROUNDDOWN srcva in
        let* pa0 := walkaddr pagetable va0 in
        if pa0 =? 0 then ret (inr (-1, dst))
        else
          let n := Z.min (PGSIZE - (srcva - va0)) len in
          let* bs := gets (fun s => rd (k_mem s) (pa0 + (srcva - va0)) (Z.to_nat n)) in
          ret (inl (u64 (va0 + PGSIZE), len - n, dst ++ bs))
      else ret (inr (0, dst))) (srcva, len, []).

(** The inner loop of copyinstr(): the bytes stored, and whether a NUL was
    among them. *)
Fixpoint copystr (m : mem) (p : Z) (n : nat) : list byte * bool :=
  match n with
  | O => ([], false)
  | S n' =>
      if byte.unsigned (m p) =? 0 then ([Byte.x00], true)
      else let '(l, b) := copystr m (p + 1) n' in (m p :: l, b)
  end.

Definition copyinstr (pagetable srcva max : Z) : M kst (Z * list byte) :=
  loop (fun '(srcva, max, dst) =>
      if 0 <? max then
        let va0 := PGROUNDDOWN srcva in
        let* pa0 := walkaddr pagetable va0 in
        if pa0 =? 0 then ret (inr (-1, dst))
        else
          let n := Z.min (PGSIZE - (srcva - va0)) max in
          let* r := gets (fun s => copystr (k_mem s) (pa0 + (srcva - va0)) (Z.to_nat n)) in
          let '(l, got_null) := r in
          if got_null : bool then ret (inr (0, dst ++ l))
          else ret (inl (u64 (va0 + PGSIZE), max - n, dst ++ l))
      else ret (inr (-1, dst))) (srcva, max, []).

End Vm.
