(* ===== verification/Pt.v ===== *)
(** The page tables of kernel/vm.c: walk(), mappages() and uvmunmap() proved
    against a functional view of the three-level tree.

    [tab m root p] is the table page that the path of indices [p] leads to,
    and [pte_of m root va] the entry that maps [va] (0 when there is none).
    [pt_ok] is the invariant of a page table: its pages are distinct, owned
    (count 1), and its inner entries are pointers.  [pt_step] says what
    building the tree may do to the rest of the machine: it takes pages
    off the free list and touches nothing else that is in use. *)

From stdpp Require Import base tactics list strings.
From Stdlib Require Import ZArith Lia.
From S2P Require Import Prelude Riscv Mem Core Spinlock Kalloc Vm.

Local Open Scope Z_scope.
Local Open Scope kern_scope.

(** ** The functional view *)

(** The table that entry [i] of table [t] points to. *)
Definition next (m : mem) (t i : Z) : option Z :=
  let e := load64 m (t + 8 * i) in
  if has e PTE_V then Some (PTE2PA e) else None.

Fixpoint tab (m : mem) (t : Z) (path : list Z) : option Z :=
  match path with
  | [] => Some t
  | i :: path' => match next m t i with
                  | Some t' => tab m t' path'
                  | None => None
                  end
  end.

(** The address of the entry for [va], and the entry. *)
Definition slot (m : mem) (root va : Z) : option Z :=
  match tab m root [PX 2 va; PX 1 va] with
  | Some t => Some (t + 8 * PX 0 va)
  | None => None
  end.

Definition pte_of (m : mem) (root va : Z) : Z :=
  match slot m root va with Some a => load64 m a | None => 0 end.

(** A path to a table: at most two indices. *)
Definition is_path (p : list Z) : Prop :=
  Forall (fun i => 0 <= i < 512) p /\ (length p <= 2)%nat.

Definition is_table (m : mem) (root q : Z) : Prop :=
  exists p, is_path p /\ tab m root p = Some q.

(** An entry as mappages() makes it, and the address space in which the [n]
    pages from [a] on map to the physical pages from [pa] on. *)
Definition mkpte (pa perm : Z) : Z := Z.lor (Z.lor (PA2PTE pa) perm) PTE_V.

Definition mapped (f : Z -> Z) (a n pa perm : Z) : Z -> Z :=
  fun va => if (a <=? va) && (va <? a + n * PGSIZE)
            then mkpte (pa + (PGROUNDDOWN va - a)) perm else f va.

(** The address space without the [n] pages from [a] on. *)
Definition unmapped (f : Z -> Z) (a n : Z) : Z -> Z :=
  fun va => if (a <=? va) && (va <? a + n * PGSIZE) then 0 else f va.

(** Two address spaces that agree on every address a page table can map. *)
Definition as_eq (f g : Z -> Z) : Prop := forall va, 0 <= va < MAXVA -> f va = g va.

Section Pt.
Context `{KernelImage}.

Record pt_ok (s : kst) (root : Z) : Prop := {
  pt_page : forall q, is_table (k_mem s) root q -> page_ok q /\ ref s q = 1;
  pt_inj : forall p p' q, is_path p -> is_path p' ->
    tab (k_mem s) root p = Some q -> tab (k_mem s) root p' = Some q -> p = p';
  pt_dir : forall p i t, is_path (p ++ [i]) -> tab (k_mem s) root p = Some t ->
    has (load64 (k_mem s) (t + 8 * i)) PTE_V = true ->
    PTE_FLAGS (load64 (k_mem s) (t + 8 * i)) = PTE_V
}.

Record pt_step (root : Z) (qs : list Z) (s : kst) (l : list Z) (s' : kst) (l' : list Z) : Prop := {
  ps_core : core_eqv (k_core s) (k_core s');
  ps_kpt : k_kpt s' = k_kpt s;
  ps_heap : heap_ok s' l';
  ps_pt : pt_ok s' root;
  ps_tab : forall p q, is_path p -> tab (k_mem s) root p = Some q -> tab (k_mem s') root p = Some q;
  ps_new : forall q, is_table (k_mem s') root q -> is_table (k_mem s) root q \/ q ∈ l;
  ps_frame : forall q, page_ok q -> q ∉ l -> ~ is_table (k_mem s) root q ->
    same_on (k_mem s) (k_mem s') q PGSIZE;
  ps_ref : forall q, page_ok q -> q ∉ l -> ref s' q = ref s q;
  ps_sub : forall q, q ∈ l' -> q ∈ l;
  ps_used : forall q, q ∈ l -> q ∈ l' \/ is_table (k_mem s') root q \/ q ∈ qs;
  ps_data : forall q, q ∈ qs ->
    page_ok q /\ q ∈ l /\ ~ (q ∈ l') /\ ref s' q = 1 /\ ~ is_table (k_mem s') root q;
  ps_nodup : NoDup qs
}.

(** What unmapping may do: the pages [pas] lose one reference each, those
    without one left go to the free list, and every other page outside
    the table is untouched. *)
Definition cnt (pas : list Z) (q : Z) : Z := Z.of_nat (count_occ Z.eq_dec pas q).

Record pt_free (root : Z) (pas : list Z) (s : kst) (l : list Z) (s' : kst) (l' : list Z) : Prop := {
  pf_core : core_eqv (k_core s) (k_core s');
  pf_kpt : k_kpt s' = k_kpt s;
  pf_heap : heap_ok s' l';
  pf_list : pas = [] -> l' = l;
  pf_pt : pt_ok s' root;
  pf_tab : forall p, is_path p -> tab (k_mem s') root p = tab (k_mem s) root p;
  pf_ref : forall q, page_ok q -> ref s' q = ref s q - cnt pas q;
  pf_frame : forall q, page_ok q -> 0 < ref s' q -> ~ is_table (k_mem s) root q ->
    same_on (k_mem s) (k_mem s') q PGSIZE
}.

(** ** Paths *)

Lemma path_nil : is_path [].
Proof. by split; [constructor|simpl; lia]. Qed.

Lemma path_app p i : is_path (p ++ [i]) <-> is_path p /\ 0 <= i < 512 /\ (length p <= 1)%nat.
Proof.
  unfold is_path. rewrite Forall_app, Forall_singleton, length_app. simpl.
  split; [intros [[? ?] ?]|intros ([? ?] & ? & ?)]; split_and!; (done || lia).
Qed.

Lemma path_va va : is_path [PX 2 va; PX 1 va].
Proof.
  split; [|simpl; lia]. apply Forall_cons; split; [apply PX_range; lia|].
  rewrite Forall_singleton; apply PX_range; lia.
Qed.

Lemma path_va1 va : is_path [PX 2 va].
Proof. split; [|simpl; lia]. rewrite Forall_singleton; apply PX_range; lia. Qed.

Hint Resolve path_nil path_va path_va1 : xv6.

(** Every path is empty, or a shorter path and an index. *)
Lemma path_ind (P : list Z -> Prop) :
  P [] -> (forall p i, is_path (p ++ [i]) -> P p -> P (p ++ [i])) -> forall p, is_path p -> P p.
Proof.
  intros H0 HS p. induction p as [|i p IH] using rev_ind; [done|].
  intros Hp. apply HS; [done|]. apply IH. by apply path_app in Hp as [? _].
Qed.

Lemma tab_app m t p i :
  tab m t (p ++ [i]) = match tab m t p with Some t' => next m t' i | None => None end.
Proof.
  revert t. induction p as [|j p IH]; intros t; simpl; [by destruct (next m t i)|].
  destruct (next m t j); [apply IH|done].
Qed.

Lemma next_ext m m' t i :
  load64 m' (t + 8 * i) = load64 m (t + 8 * i) -> next m' t i = next m t i.
Proof. unfold next. by intros ->. Qed.

Lemma load_in_page m m' t i :
  same_on m m' t PGSIZE -> 0 <= i < 512 -> load64 m' (t + 8 * i) = load64 m (t + 8 * i).
Proof.
  intros Hs Hi. apply load64_ext. eapply same_on_sub; [done| |]; unfold PGSIZE; lia.
Qed.

(** A memory that agrees on the inner tables has the same tables. *)
Lemma tab_ext m m' root :
  (forall p t, is_path p -> (length p <= 1)%nat -> tab m root p = Some t ->
     forall i, 0 <= i < 512 -> load64 m' (t + 8 * i) = load64 m (t + 8 * i)) ->
  forall p, is_path p -> tab m' root p = tab m root p.
Proof.
  intros Hs. apply path_ind; [done|]. intros p i Hp IH. rewrite !tab_app, IH.
  destruct (tab m root p) eqn:E; [|done]. apply path_app in Hp as (? & ? & ?).
  apply next_ext. by eapply Hs.
Qed.

Lemma tab_same m m' root :
  (forall q, is_table m root q -> same_on m m' q PGSIZE) ->
  forall p, is_path p -> tab m' root p = tab m root p.
Proof.
  intros Hs. apply tab_ext. intros p t Hp _ Ht i Hi. apply load_in_page; [|done].
  apply Hs. by exists p.
Qed.

Lemma is_table_same m m' root :
  (forall p, is_path p -> tab m' root p = tab m root p) ->
  forall q, is_table m' root q <-> is_table m root q.
Proof.
  intros He q. split; intros (p & Hp & E); exists p; (split; [done|]).
  - by rewrite <- He.
  - by rewrite He.
Qed.

Lemma is_table_root m root : is_table m root root.
Proof. exists []. split; [apply path_nil|done]. Qed.

Lemma pte_of_same m m' root va :
  (forall q, is_table m root q -> same_on m m' q PGSIZE) -> pte_of m' root va = pte_of m root va.
Proof.
  intros Hs. unfold pte_of, slot. rewrite (tab_same m m') by auto with xv6.
  destruct (tab m root _) as [t|] eqn:E; [|done].
  apply load_in_page; [|apply PX_range; lia]. apply Hs. exists [PX 2 va; PX 1 va]. auto with xv6.
Qed.

(** Changing anything but the table pages keeps the page table. *)
Lemma pt_ok_same s s' root :
  (forall q, is_table (k_mem s) root q -> same_on (k_mem s) (k_mem s') q PGSIZE /\ ref s' q = ref s q) ->
  pt_ok s root -> pt_ok s' root.
Proof.
  intros Hs [Hpage Hinj Hdir].
  assert (Ht : forall p, is_path p -> tab (k_mem s') root p = tab (k_mem s) root p).
  { apply tab_same. intros q Hq. by apply Hs. }
  constructor.
  - intros q Hq%(is_table_same _ _ _ Ht). destruct (Hs q Hq) as [_ ->]. by apply Hpage.
  - intros p p' q Hp Hp'. rewrite !Ht by done. by apply Hinj.
  - intros p i t Hpi. pose proof Hpi as (Hp & Hi & Hl)%path_app. rewrite Ht by done. intros Et.
    rewrite (load_in_page (k_mem s) (k_mem s')); [by eapply Hdir| |done].
    apply Hs. by exists p.
Qed.

Lemma pt_tab_page s root p q :
  pt_ok s root -> is_path p -> tab (k_mem s) root p = Some q -> page_ok q /\ ref s q = 1.
Proof. intros Hpt Hp E. apply (pt_page s root Hpt). by exists p. Qed.

(** Two tables at different paths do not overlap. *)
Lemma pt_disjoint s root p p' q q' :
  pt_ok s root -> is_path p -> is_path p' -> p <> p' ->
  tab (k_mem s) root p = Some q -> tab (k_mem s) root p' = Some q' ->
  q + PGSIZE <= q' \/ q' + PGSIZE <= q.
Proof.
  intros Hpt Hp Hp' Hne Eq Eq'. apply page_ok_disjoint.
  - by apply (pt_tab_page s root p).
  - by apply (pt_tab_page s root p').
  - intros ->. apply Hne. by eapply (pt_inj s root Hpt).
Qed.

(** ** Changing one entry *)

Lemma V_flag : 0 <= PTE_V < 1024.
Proof. done. Qed.

Lemma flags_V q : PTE_FLAGS (Z.lor (PA2PTE q) PTE_V) = PTE_V.
Proof. apply PTE_FLAGS_pack, V_flag. Qed.

Lemma has_V e : has e PTE_V = has (PTE_FLAGS e) PTE_V.
Proof. apply has_flags, V_flag. Qed.

Lemma page_pte_range pa f : 0 <= pa < 2 ^ 56 -> 0 <= f < 1024 -> 0 <= Z.lor (PA2PTE pa) f < 2 ^ 64.
Proof.
  intros Hp Hf. rewrite PA2PTE_eq, lor_disjoint by done. unfold PGSIZE.
  pose proof (Z.div_pos pa 4096 ltac:(lia) ltac:(lia)).
  pose proof (Z.div_lt_upper_bound pa 4096 (2 ^ 44) ltac:(lia) ltac:(lia)). lia.
Qed.

Lemma page_ok_56 q : page_ok q -> 0 <= q < 2 ^ 56.
Proof. intros ?%page_ok_range. unfold PHYSTOP, KERNBASE in *. lia. Qed.

(** A store to an entry of the last level. *)
Lemma leaf_tab s root i j t k v :
  pt_ok s root -> is_path [i; j] -> 0 <= k < 512 -> tab (k_mem s) root [i; j] = Some t ->
  forall p, is_path p -> tab (store64 (k_mem s) (t + 8 * k) v) root p = tab (k_mem s) root p.
Proof.
  intros Hpt Hp Hk Et. apply tab_ext. intros p' t' Hp' Hl Et' i' Hi'.
  assert (p' <> [i; j]) as Hne by (intros ->; simpl in Hl; lia).
  pose proof (pt_disjoint s root p' [i; j] t' t Hpt Hp' Hp Hne Et' Et) as Hd.
  apply load64_store64_other. unfold PGSIZE in Hd. lia.
Qed.

Lemma leaf_pte s root va t v va' :
  pt_ok s root -> 0 <= va < MAXVA -> 0 <= va' < MAXVA ->
  tab (k_mem s) root [PX 2 va; PX 1 va] = Some t ->
  pte_of (store64 (k_mem s) (t + 8 * PX 0 va) v) root va' =
  if PGROUNDDOWN va' =? PGROUNDDOWN va then u64 v else pte_of (k_mem s) root va'.
Proof.
  intros Hpt Hva Hva' Et.
  pose proof (PX_range 0 va ltac:(lia)) as HX. pose proof (PX_range 0 va' ltac:(lia)) as HX'.
  unfold pte_of, slot.
  rewrite (leaf_tab s root (PX 2 va) (PX 1 va)) by auto with xv6.
  destruct (Z.eqb_spec (PGROUNDDOWN va') (PGROUNDDOWN va)) as [E|E].
  - rewrite <- (PX_rounddown 2 va'), <- (PX_rounddown 1 va'), <- (PX_rounddown 0 va') by lia.
    rewrite E, !PX_rounddown by lia. rewrite Et. apply load64_store64_same.
  - destruct (tab (k_mem s) root [PX 2 va'; PX 1 va']) as [t'|] eqn:Et'; [|done].
    apply load64_store64_other.
    destruct (decide ([PX 2 va'; PX 1 va'] = [PX 2 va; PX 1 va])) as [Ep|Ep].
    + rewrite Ep in Et'. rewrite Et in Et'. injection Et' as <-. injection Ep as E2 E1.
      assert (PX 0 va' <> PX 0 va); [|lia].
      intros E0. apply E. by apply PX_inj.
    + pose proof (pt_disjoint s root _ _ t' t Hpt (path_va va') (path_va va) Ep Et' Et) as Hd.
      unfold PGSIZE in Hd. lia.
Qed.

(** A store to an inner entry that was not valid, making it point to the
    zeroed page [q]. *)
Lemma dir_tab s root p t i q m1 :
  pt_ok s root -> is_path (p ++ [i]) -> tab (k_mem s) root p = Some t ->
  next (k_mem s) t i = None -> page_ok q -> ~ is_table (k_mem s) root q ->
  (forall x, ~ (q <= x < q + PGSIZE) -> m1 x = k_mem s x) ->
  (forall k, 0 <= k < 512 -> load64 m1 (q + 8 * k) = 0) ->
  forall p', is_path p' ->
    tab (store64 m1 (t + 8 * i) (Z.lor (PA2PTE q) PTE_V)) root p' =
    if decide (p' = p ++ [i]) then Some q else tab (k_mem s) root p'.
Proof.
  intros Hpt Hpi Et En Hq Hnt Hout Hz. set (m' := store64 _ _ _).
  pose proof Hpi as (Hp & Hi & Hl)%path_app.
  destruct (pt_tab_page s root p t Hpt Hp Et) as [Htok _].
  assert (Hqt : q <> t) by (intros ->; apply Hnt; by exists p).
  pose proof (page_ok_disjoint q t Hq Htok Hqt) as Hdq.
  assert (Hm' : forall t' j, page_ok t' -> t' <> q -> 0 <= j < 512 -> t' <> t \/ j <> i ->
            load64 m' (t' + 8 * j) = load64 (k_mem s) (t' + 8 * j)).
  { intros t' j Ht' Hne Hj Hor. unfold m'. rewrite load64_store64_other.
    - apply load64_ext. intros x Hx. apply Hout.
      pose proof (page_ok_disjoint t' q Ht' Hq Hne). unfold PGSIZE in *. lia.
    - destruct (decide (t' = t)) as [->|Htt]; [destruct Hor; [done|lia]|].
      pose proof (page_ok_disjoint t' t Ht' Htok Htt). unfold PGSIZE in *. lia. }
  apply path_ind.
  { rewrite decide_False; [done|]. by destruct p. }
  intros p' i' Hpi' IH. pose proof Hpi' as (Hp' & Hi' & Hl')%path_app. rewrite !tab_app, IH.
  destruct (decide (p' = p ++ [i])) as [->|Hne].
  - rewrite tab_app, Et, En. rewrite decide_False.
    2:{ intros E%(f_equal length). rewrite !length_app in E. simpl in E. lia. }
    unfold next, m'. rewrite load64_store64_other by (unfold PGSIZE in *; lia). by rewrite Hz.
  - destruct (tab (k_mem s) root p') as [t'|] eqn:Et'.
    2:{ rewrite decide_False; [done|]. intros [-> ->]%app_inj_tail. by rewrite Et in Et'. }
    destruct (pt_tab_page s root p' t' Hpt Hp' Et') as [Htok' _].
    assert (t' <> q) by (intros ->; apply Hnt; by exists p').
    destruct (decide (p' ++ [i'] = p ++ [i])) as [[-> ->]%app_inj_tail|Hne'].
    + rewrite Et in Et'. injection Et' as <-. unfold next, m'. rewrite load64_store64_same.
      rewrite u64_small by (apply page_pte_range; [by apply page_ok_56|apply V_flag]).
      rewrite has_V, flags_V. simpl. rewrite PTE2PA_pack; [done|apply Hq|by apply page_ok_56|].
      apply V_flag.
    + apply next_ext, Hm'; [done|done|done|].
      destruct (decide (t' = t)) as [->|]; [|by left]. right. intros ->. apply Hne'.
      by rewrite (pt_inj s root Hpt p' p t).
Qed.

(** ** Steps *)

Lemma no_data (P : Z -> Prop) : forall q, q ∈ @nil Z -> P q.
Proof. by intros q ?%elem_of_nil. Qed.

Hint Resolve NoDup_nil_2 : xv6.

Lemma pt_step_core root s l c :
  heap_ok s l -> pt_ok s root -> core_eqv (k_core s) c -> pt_step root [] s l (set_core c s) l.
Proof.
  intros Hh Hpt Hc. constructor; try done; simpl; auto with xv6.
  - by eapply pt_ok_same; [|done].
  - apply no_data.
Qed.

Lemma pt_step_refl root s l : heap_ok s l -> pt_ok s root -> pt_step root [] s l s l.
Proof. intros. constructor; try done; auto with xv6. apply no_data. Qed.

Lemma pt_step_table root qs s l s' l' q :
  pt_step root qs s l s' l' -> is_table (k_mem s) root q -> is_table (k_mem s') root q.
Proof. intros Hs (p & Hp & E). exists p. split; [done|]. by apply (ps_tab _ _ _ _ _ _ Hs). Qed.

Lemma pt_step_app root qs1 qs2 s l s1 l1 s2 l2 :
  pt_step root qs1 s l s1 l1 -> pt_step root qs2 s1 l1 s2 l2 -> pt_step root (qs1 ++ qs2) s l s2 l2.
Proof.
  intros H1 H2. constructor.
  - eapply core_eqv_trans; [apply H1|apply H2].
  - rewrite (ps_kpt _ _ _ _ _ _ H2). apply H1.
  - apply H2.
  - apply H2.
  - intros p q Hp E. apply H2; [done|]. by apply H1.
  - intros q Hq. apply (ps_new _ _ _ _ _ _ H2) in Hq as [Hq|Hq].
    + by apply (ps_new _ _ _ _ _ _ H1).
    + right. by apply (ps_sub _ _ _ _ _ _ H1).
  - intros q Hq Hl Ht. eapply same_on_trans; [by apply H1|]. apply H2; [done| |].
    + intros Hq1. by apply Hl, (ps_sub _ _ _ _ _ _ H1).
    + by intros [?|?]%(ps_new _ _ _ _ _ _ H1).
  - intros q Hq Hl. rewrite (ps_ref _ _ _ _ _ _ H2); [by apply H1|done|].
    intros Hq1. by apply Hl, (ps_sub _ _ _ _ _ _ H1).
  - intros q Hq. by apply (ps_sub _ _ _ _ _ _ H1), (ps_sub _ _ _ _ _ _ H2).
  - intros q Hq. rewrite elem_of_app. apply (ps_used _ _ _ _ _ _ H1) in Hq as [Hq|[Hq|Hq]]; [..|tauto].
    + apply (ps_used _ _ _ _ _ _ H2) in Hq as [?|[?|?]]; tauto.
    + right. left. by eapply pt_step_table.
  - intros q [Hq|Hq]%elem_of_app.
    + destruct (ps_data _ _ _ _ _ _ H1 q Hq) as (Hok & Hl & Hl1 & Hr & Hn). split_and!; [done|done|..].
      * intros ?%(ps_sub _ _ _ _ _ _ H2). done.
      * by rewrite (ps_ref _ _ _ _ _ _ H2).
      * by intros [?|?]%(ps_new _ _ _ _ _ _ H2).
    + destruct (ps_data _ _ _ _ _ _ H2 q Hq) as (Hok & Hl & Hl1 & Hr & Hn). split_and!; try done. by apply (ps_sub _ _ _ _ _ _ H1).
  - apply NoDup_app. split_and!; [apply H1| |apply H2]. intros q Hq1 Hq2.
    apply (ps_data _ _ _ _ _ _ H1) in Hq1 as (_ & _ & Hn & _). by apply (ps_data _ _ _ _ _ _ H2) in Hq2 as (_ & ? & _).
Qed.

Lemma pt_step_trans root s l s1 l1 s2 l2 :
  pt_step root [] s l s1 l1 -> pt_step root [] s1 l1 s2 l2 -> pt_step root [] s l s2 l2.
Proof. apply (pt_step_app root [] []). Qed.

Lemma pt_table_used s l root q : heap_ok s l -> pt_ok s root -> is_table (k_mem s) root q -> q ∉ l.
Proof.
  intros Hh Hpt Hq. destruct (pt_page s root Hpt q Hq) as [Hok Hr].
  eapply heap_ok_used; [done|done|lia].
Qed.

(** A store to an entry of the last level is a step. *)
Lemma pt_step_leaf root s l i j t k v :
  heap_ok s l -> pt_ok s root -> is_path [i; j] -> 0 <= k < 512 ->
  tab (k_mem s) root [i; j] = Some t ->
  pt_step root [] s l (set_mem (store64 (k_mem s) (t + 8 * k) v) s) l.
Proof.
  intros Hh Hpt Hp Hk Et.
  pose proof (leaf_tab s root i j t k v Hpt Hp Hk Et) as Htab.
  destruct (pt_tab_page s root [i; j] t Hpt Hp Et) as [Ht Hr].
  assert (Htl : t ∉ l) by (eapply heap_ok_used; [done|done|lia]).
  assert (Hout : forall x, ~ (t <= x < t + PGSIZE) -> store64 (k_mem s) (t + 8 * k) v x = k_mem s x).
  { intros x Hx. apply store64_out. unfold PGSIZE in Hx. lia. }
  constructor; simpl; try done; auto with xv6.
  - by eapply (heap_ok_mem s t).
  - constructor; simpl.
    + intros q Hq%(is_table_same _ _ _ Htab). by apply (pt_page s root).
    + intros p p' q Hp1 Hp2. rewrite !Htab by done. by apply (pt_inj s root Hpt).
    + intros p' i' t' Hpi. pose proof Hpi as (Hp' & Hi' & Hl')%path_app. rewrite Htab by done.
      intros Et'. rewrite load64_store64_other; [by eapply (pt_dir s root Hpt)|].
      assert (p' <> [i; j]) as Hne by (intros ->; simpl in Hl'; lia).
      pose proof (pt_disjoint s root p' _ t' t Hpt Hp' Hp Hne Et' Et). unfold PGSIZE in *. lia.
  - intros p q Hp1. by rewrite Htab.
  - intros q Hq%(is_table_same _ _ _ Htab). by left.
  - intros q Hq _ Hnt. apply (other_page _ _ t q); [done|done| |done].
    intros ->. apply Hnt. by exists [i; j].
  - apply no_data.
Qed.

(** Hanging a fresh, zeroed page into an inner entry is a step, and maps and
    unmaps nothing. *)
Lemma pt_step_dir root s q l p t i c m1 :
  heap_ok s (q :: l) -> pt_ok s root -> core_eqv (k_core s) c ->
  is_path (p ++ [i]) -> tab (k_mem s) root p = Some t -> next (k_mem s) t i = None ->
  (forall x, ~ (q <= x < q + PGSIZE) -> m1 x = k_mem s x) ->
  (forall k, 0 <= k < 512 -> load64 m1 (q + 8 * k) = 0) ->
  let s' := mkkst c (store64 m1 (t + 8 * i) (Z.lor (PA2PTE q) PTE_V)) (load64 (k_mem s) q)
                  (fupd (k_ref s) (PA2PAGE_ID q) 1) (k_kpt s) in
  pt_step root [] s (q :: l) s' l /\ tab (k_mem s') root (p ++ [i]) = Some q /\
  (forall va, pte_of (k_mem s') root va = pte_of (k_mem s) root va).
Proof.
  intros Hh Hpt Hc Hpi Et En Hout Hz s'.
  destruct (heap_ok_free s _ q Hh ltac:(by left)) as [Hq Hrq].
  assert (Hnt : ~ is_table (k_mem s) root q).
  { intros Hq'. apply (pt_table_used _ _ _ _ Hh Hpt Hq'). by left. }
  pose proof (dir_tab s root p t i q m1 Hpt Hpi Et En Hq Hnt Hout Hz) as Htab.
  pose proof Hpi as (Hp & Hi & Hl)%path_app.
  destruct (pt_tab_page s root p t Hpt Hp Et) as [Ht Hrt].
  assert (Htq : t <> q) by (intros ->; apply Hnt; by exists p).
  assert (Hr' : forall q', page_ok q' -> q' <> q -> ref s' q' = ref s q').
  { intros q' Hq' Hne. unfold ref. simpl. apply fupd_ne. intros E. apply Hne. by apply page_id_inj. }
  assert (Hout' : forall q', page_ok q' -> q' <> q -> q' <> t -> same_on (k_mem s) (k_mem s') q' PGSIZE).
  { intros q' Hq' Hne Hne' x Hx. simpl.
    pose proof (page_ok_disjoint q' q Hq' Hq Hne). pose proof (page_ok_disjoint q' t Hq' Ht Hne').
    rewrite store64_out by (unfold PGSIZE in *; lia). apply Hout. lia. }
  assert (Hnew : forall q', is_table (k_mem s') root q' -> is_table (k_mem s) root q' \/ q' = q).
  { intros q' (p' & Hp' & E). simpl in E. rewrite Htab in E by done.
    case_decide; [right; congruence|left; by exists p']. }
  assert (Htabp : tab (k_mem s') root (p ++ [i]) = Some q).
  { simpl. rewrite Htab by done. by rewrite decide_True. }
  assert (Hkeep : forall p' q', is_path p' -> tab (k_mem s) root p' = Some q' ->
                    tab (k_mem s') root p' = Some q').
  { intros p' q' Hp' E. simpl. rewrite Htab by done. rewrite decide_False; [done|].
    intros ->. by rewrite tab_app, Et, En in E. }
  split_and!; [|done|].
  - constructor; try done.
    + eapply (heap_ok_ext (set_mem (store64 m1 (t + 8 * i) (Z.lor (PA2PTE q) PTE_V))
                (mkkst c m1 (load64 (k_mem s) q) (fupd (k_ref s) (PA2PAGE_ID q) 1) (k_kpt s)))); try done.
      pose proof (heap_ok_alloc s q l c m1 Hh Hout) as Hh1.
      eapply (heap_ok_mem _ t); [done|done| |intros x Hx; apply store64_out; unfold PGSIZE in Hx; lia].
      intros Hin. eapply (pt_table_used _ _ _ t Hh Hpt); [by exists p|by right].
    + constructor.
      * intros q' [Hq'| ->]%Hnew; [|split; [done|unfold ref; simpl; apply fupd_eq]].
        destruct (pt_page s root Hpt q' Hq') as [Hok' <-]. split; [done|].
        apply Hr'; [done|]. by intros ->.
      * intros p1 p2 q' Hp1 Hp2. simpl. rewrite !Htab by done.
        case_decide as E1; case_decide as E2; [congruence|..|by apply (pt_inj s root Hpt)];
          intros [= <-] E; exfalso || (symmetry in E; exfalso).
        -- apply Hnt. by exists p2.
        -- apply Hnt. by exists p1.
      * intros p' i' t' Hpi'. pose proof Hpi' as (Hp' & Hi' & Hl')%path_app. simpl.
        rewrite Htab by done. case_decide as E1.
        -- intros [= <-]. rewrite load64_store64_other, Hz; [done|done|].
           pose proof (page_ok_disjoint t q Ht Hq Htq). unfold PGSIZE in *. lia.
        -- intros Et'. destruct (pt_tab_page s root p' t' Hpt Hp' Et') as [Ht' _].
           assert (Hne : t' <> q) by (intros ->; apply Hnt; by exists p').
           destruct (decide (t' = t)) as [->|Hne'].
           ++ destruct (decide (i' = i)) as [->|].
              ** rewrite load64_store64_same, u64_small; [intros _; apply flags_V|].
                 apply page_pte_range; [by apply page_ok_56|apply V_flag].
              ** rewrite load64_store64_other by lia. rewrite (load64_ext (k_mem s) m1); [by eapply (pt_dir s root Hpt)|].
                 intros x Hx. apply Hout. pose proof (page_ok_disjoint t q Ht Hq Htq). unfold PGSIZE in *. lia.
           ++ pose proof (Hout' t' Ht' Hne Hne') as Hs. simpl in Hs.
              rewrite (load_in_page _ _ _ _ Hs Hi'). by eapply (pt_dir s root Hpt).
    + intros q' [?| ->]%Hnew; [by left|right; by left].
    + intros q' Hq' Hnl Hnt'. apply Hout'; [done| |].
      * intros ->. apply Hnl. by left.
      * intros ->. apply Hnt'. by exists p.
    + intros q' Hq' Hnl. apply Hr'; [done|]. intros ->. apply Hnl. by left.
    + intros q' Hq'. by right.
    + intros q' [->|Hq']%elem_of_cons; [right; left; by exists (p ++ [i])|by left].
    + apply no_data.
    + apply NoDup_nil_2.
  - intros va. unfold pte_of, slot. change (k_mem s') with (store64 m1 (t + 8 * i) (Z.lor (PA2PTE q) PTE_V)) at 1.
    rewrite Htab by apply path_va. case_decide as E.
    + rewrite E, tab_app, Et, En. simpl. rewrite load64_store64_other, Hz; [done|apply PX_range; lia|].
      pose proof (page_ok_disjoint t q Ht Hq Htq). pose proof (PX_range 0 va). unfold PGSIZE in *. lia.
    + destruct (tab (k_mem s) root [PX 2 va; PX 1 va]) as [t'|] eqn:Et'; [|done].
      destruct (pt_tab_page s root _ t' Hpt (path_va va) Et') as [Ht' _].
      apply (load_in_page (k_mem s) (k_mem s')); [|apply PX_range; lia]. apply Hout'; [done| |].
      * intros ->. apply Hnt. exists [PX 2 va; PX 1 va]. auto with xv6.
      * intros ->. assert ([PX 2 va; PX 1 va] = p) as <- by (by eapply (pt_inj s root Hpt); auto with xv6).
        simpl in Hl. lia.
Qed.

(** ** walk() *)

(** Without allocation: a lookup. *)
Lemma walk_loop_lookup n t va s :
  walk_loop n t va false s =
  Ok match tab (k_mem s) t (List.map (fun k => PX (Z.of_nat k) va) (rev (seq 1 n))) with
     | Some t' => t' + 8 * PX 0 va
     | None => 0
     end s.
Proof.
  revert t. induction n as [|n IH]; intros t; [done|].
  rewrite seq_S, rev_app_distr. cbn [rev app List.map tab walk_loop].
  replace (1 + n)%nat with (S n) by lia.
  unfold bind, ld64, gets, next. destruct (has _ PTE_V); [apply IH|done].
Qed.

Lemma wp_walk root va (Q : Z -> kst -> Prop) s :
  va < MAXVA -> Q match slot (k_mem s) root va with Some a => a | None => 0 end s ->
  wp (walk root va false) Q s.
Proof.
  intros Hva HQ. unfold walk. rewrite (proj2 (Z.leb_gt MAXVA va)) by lia.
  eapply wp_Ok; [apply walk_loop_lookup|]. unfold slot in HQ. cbn in HQ |- *.
  destruct (next _ _ _); [|done]. by destruct (next _ _ _).
Qed.

(** With allocation, one level down. *)
Lemma wp_descend root p t lvl va (Q : Z -> kst -> Prop) s l :
  unlocked s -> heap_ok s l -> pt_ok s root ->
  is_path (p ++ [PX (Z.of_nat (S lvl)) va]) -> tab (k_mem s) root p = Some t ->
  (forall s' l' t', pt_step root [] s l s' l' ->
     (forall va', pte_of (k_mem s') root va' = pte_of (k_mem s) root va') ->
     tab (k_mem s') root (p ++ [PX (Z.of_nat (S lvl)) va]) = Some t' ->
     wp (walk_loop lvl t' va true) Q s') ->
  (forall c, l = [] -> core_eqv (k_core s) c -> Q 0 (set_core c s)) ->
  wp (walk_loop (S lvl) t va true) Q s.
Proof.
  intros Hu Hh Hpt Hpi Et HS H0. cbn [walk_loop]. set (i := PX (Z.of_nat (S lvl)) va) in *.
  unfold ld64. wp_step. wp_step. destruct (has _ PTE_V) eqn:Ev.
  { apply (HS s l); [by apply pt_step_refl|done|]. rewrite tab_app, Et. unfold next. by rewrite Ev. }
  cbn [negb]. wp_step. apply (wp_kalloc _ _ l); [apply Hu|apply Hu|done|]. intros c Hc.
  destruct l as [|q l]; [wp_steps; [auto|done]|].
  intros s1 Hq Hr Hh1. rewrite (proj2 (Z.eqb_neq q 0)) by (by apply page_ok_nonzero).
  unfold memset, st64. wp_steps.
  destruct (pt_step_dir root s q l p t i c (fill (k_mem s1) q 0 PGSIZE)) as (Hs & Ht & Hv); try done.
  - unfold next. by rewrite Ev.
  - intros x Hx. simpl. by rewrite !fill_out.
  - intros k Hk. apply load64_fill0; unfold PGSIZE; lia.
  - by apply (HS _ l).
Qed.

Lemma unlocked_step root qs s l s' l' : pt_step root qs s l s' l' -> unlocked s -> unlocked s'.
Proof. intros Hs. apply unlocked_eqv, Hs. Qed.

Hint Resolve unlocked_step ps_heap ps_pt : xv6.

(** With allocation: the entry exists afterwards, or memory ran out. *)
Lemma wp_walk_alloc root va (Q : Z -> kst -> Prop) s l :
  unlocked s -> heap_ok s l -> pt_ok s root -> va < MAXVA ->
  (forall s' l' t, pt_step root [] s l s' l' ->
     (forall va', pte_of (k_mem s') root va' = pte_of (k_mem s) root va') ->
     tab (k_mem s') root [PX 2 va; PX 1 va] = Some t -> Q (t + 8 * PX 0 va) s') ->
  (forall s', pt_step root [] s l s' [] ->
     (forall va', pte_of (k_mem s') root va' = pte_of (k_mem s) root va') -> Q 0 s') ->
  wp (walk root va true) Q s.
Proof.
  intros Hu Hh Hpt Hva HS H0. unfold walk. rewrite (proj2 (Z.leb_gt MAXVA va)) by lia.
  apply (wp_descend root [] root 1 va _ s l); auto with xv6.
  - exact (path_va1 va).
  - intros s1 l1 t1 Hs1 Hv1 Ht1. apply (wp_descend root [PX 2 va] t1 0 va _ s1 l1); eauto with xv6.
    + intros s2 l2 t2 Hs2 Hv2 Ht2. cbn [walk_loop]. wp_step. apply (HS s2 l2 t2); [..|exact Ht2].
      * by eapply pt_step_trans.
      * intros va'. by rewrite Hv2.
    + intros c -> Hc. apply H0; [|done]. eapply pt_step_trans; [exact Hs1|].
      apply pt_step_core; eauto with xv6.
  - intros c -> Hc. apply H0; [|done]. by apply pt_step_core.
Qed.

(** ** mappages() *)

Lemma mkpte_eq pa perm : mkpte pa perm = Z.lor (PA2PTE pa) (Z.lor perm PTE_V).
Proof. unfold mkpte. by rewrite Z.lor_assoc. Qed.

Lemma perm_V perm : 0 <= perm < 1024 -> 0 <= Z.lor perm PTE_V < 1024.
Proof.
  intros Hp. assert (0 <= Z.lor perm PTE_V) by (apply Z.lor_nonneg; split; [lia|done]).
  split; [done|]. apply Z.log2_lt_cancel. rewrite Z.log2_lor by (lia || done).
  change (Z.log2 PTE_V) with 0. change (Z.log2 1024) with 10.
  destruct (decide (perm = 0)) as [->|]; [done|].
  assert (Z.log2 perm < 10); [|lia]. apply Z.log2_lt_pow2; [lia|]. simpl; lia.
Qed.

Lemma mkpte_range pa perm : 0 <= pa < 2 ^ 56 -> 0 <= perm < 1024 -> 0 <= mkpte pa perm < 2 ^ 64.
Proof. intros. rewrite mkpte_eq. apply page_pte_range; [done|by apply perm_V]. Qed.

Lemma mkpte_V pa perm : 0 <= perm < 1024 -> has (mkpte pa perm) PTE_V = true.
Proof.
  intros Hp. rewrite mkpte_eq, has_V, PTE_FLAGS_pack by by apply perm_V.
  unfold PTE_V. rewrite has_bit by lia. rewrite Z.lor_spec. by rewrite orb_true_r.
Qed.

Lemma mkpte_pa pa perm :
  pa mod PGSIZE = 0 -> 0 <= pa < 2 ^ 56 -> 0 <= perm < 1024 -> PTE2PA (mkpte pa perm) = pa.
Proof. intros. rewrite mkpte_eq. apply PTE2PA_pack; [done|done|by apply perm_V]. Qed.

Lemma mkpte_flags pa perm : 0 <= perm < 1024 -> PTE_FLAGS (mkpte pa perm) = Z.lor perm PTE_V.
Proof. intros. rewrite mkpte_eq. apply PTE_FLAGS_pack. by apply perm_V. Qed.

Lemma mapped_0 f a pa perm : as_eq (mapped f a 0 pa perm) f.
Proof. intros va _. unfold mapped. destruct (_ && _) eqn:E; [bools; lia|done]. Qed.

Lemma page_of_iff a va : a mod PGSIZE = 0 ->
  (PGROUNDDOWN va =? a) = (a <=? va) && (va <? a + PGSIZE).
Proof.
  intros Ha. apply eq_true_iff_eq. rewrite Z.eqb_eq, andb_true_iff, Z.leb_le, Z.ltb_lt.
  by apply PGROUNDDOWN_iff.
Qed.

Lemma aligned_add a i : a mod PGSIZE = 0 -> (a + i * PGSIZE) mod PGSIZE = 0.
Proof. intros Ha. by rewrite Z_mod_plus_full. Qed.

(** Mapping one more page. *)
Lemma mapped_S f a i pa perm va :
  a mod PGSIZE = 0 -> 0 <= i ->
  mapped f a (i + 1) pa perm va =
  if PGROUNDDOWN va =? a + i * PGSIZE then mkpte (pa + i * PGSIZE) perm else mapped f a i pa perm va.
Proof.
  intros Ha Hi. rewrite page_of_iff by by apply aligned_add. unfold mapped.
  destruct (_ && (va <? a + (i + 1) * PGSIZE)) eqn:E1;
    destruct ((a + i * PGSIZE <=? va) && _) eqn:E2; unfold PGSIZE in *; bools; try lia.
  - do 2 f_equal. enough (PGROUNDDOWN va = a + i * PGSIZE) by (unfold PGSIZE in *; lia).
    apply PGROUNDDOWN_iff; [by apply aligned_add|unfold PGSIZE; lia].
  - destruct (_ && (va <? a + i * _)) eqn:E3; [done|].
    apply andb_false_iff in E2, E3. rewrite Z.leb_gt, Z.ltb_ge in E2, E3. lia.
  - destruct (_ && (va <? a + i * _)) eqn:E3; [|done].
    apply andb_false_iff in E1. rewrite Z.leb_gt, Z.ltb_ge in E1. bools. lia.
Qed.

(** The entry walk() finds. *)
Lemma load_slot m root va t :
  tab m root [PX 2 va; PX 1 va] = Some t -> load64 m (t + 8 * PX 0 va) = pte_of m root va.
Proof. intros E. unfold pte_of, slot. by rewrite E. Qed.

Lemma mapped_out f a n pa perm va : ~ (a <= va < a + n * PGSIZE) -> mapped f a n pa perm va = f va.
Proof. intros Hn. unfold mapped. destruct (_ && _) eqn:E; [bools; lia|done]. Qed.

Lemma table_nonzero s root va t :
  pt_ok s root -> tab (k_mem s) root [PX 2 va; PX 1 va] = Some t -> t + 8 * PX 0 va <> 0.
Proof.
  intros Hpt E. destruct (pt_tab_page s root _ t Hpt (path_va va) E) as [Ht _].
  apply page_ok_range in Ht. pose proof (PX_range 0 va). unfold KERNBASE in Ht. lia.
Qed.

(** A store through the pointer walk() returned changes the entry of one page. *)
Lemma set_pte root s l va t v :
  heap_ok s l -> pt_ok s root -> 0 <= va < MAXVA -> tab (k_mem s) root [PX 2 va; PX 1 va] = Some t ->
  let s' := set_mem (store64 (k_mem s) (t + 8 * PX 0 va) v) s in
  pt_step root [] s l s' l /\
  forall va', 0 <= va' < MAXVA ->
    pte_of (k_mem s') root va' =
    if PGROUNDDOWN va' =? PGROUNDDOWN va then u64 v else pte_of (k_mem s) root va'.
Proof.
  intros Hh Hpt Hva Et s'. split.
  - apply (pt_step_leaf root s l (PX 2 va) (PX 1 va)); auto with xv6. apply PX_range. lia.
  - intros va' Hva'. by apply leaf_pte.
Qed.

(** [n] pages from the page of [va] on, [n] given by the size. *)
Lemma wp_mappages root va size pa perm n (Q : Z -> kst -> Prop) s l :
  unlocked s -> heap_ok s l -> pt_ok s root ->
  0 <= va -> 0 < size -> va + size <= MAXVA ->
  PGROUNDDOWN (va + size - 1) = PGROUNDDOWN va + (n - 1) * PGSIZE ->
  0 <= pa -> pa + n * PGSIZE <= 2 ^ 56 -> 0 <= perm < 1024 ->
  (forall i, 0 <= i < n -> has (pte_of (k_mem s) root (PGROUNDDOWN va + i * PGSIZE)) PTE_V = false) ->
  (forall k s' l', pt_step root [] s l s' l' ->
     as_eq (pte_of (k_mem s') root) (mapped (pte_of (k_mem s) root) (PGROUNDDOWN va) k pa perm) ->
     (k = n -> Q 0 s') /\ (0 <= k < n -> l' = [] -> Q (-1) s')) ->
  wp (mappages root va size pa perm) Q s.
Proof.
  intros Hu Hh Hpt Hva Hsize Hmax Hlast Hpa Hpa' Hperm Hfree HQ. unfold mappages.
  rewrite MAXVA_eq in Hmax. rewrite u64_small by lia. rewrite Hlast. set (a0 := PGROUNDDOWN va) in *.
  pose proof (PGROUNDDOWN_aligned va) as Ha0. pose proof (PGROUNDDOWN_bounds va) as Hb0.
  pose proof (PGROUNDDOWN_bounds (va + size - 1)) as Hb1. fold a0 in Ha0, Hb0. rewrite Hlast in Hb1.
  assert (Hn : 1 <= n) by (unfold PGSIZE in *; lia).
  assert (Ha0' : 0 <= a0) by (apply Z.mod_divide in Ha0 as [? ?]; unfold PGSIZE in *; lia).
  assert (Htop : a0 + (n - 1) * PGSIZE < MAXVA) by (rewrite MAXVA_eq; lia).
  apply wp_loop with (n := n)
    (I := fun k '(a, pa') s' => exists i l', k = n - i /\ 0 <= i < n /\ a = a0 + i * PGSIZE /\
       pa' = pa + i * PGSIZE /\ pt_step root [] s l s' l' /\
       as_eq (pte_of (k_mem s') root) (mapped (pte_of (k_mem s) root) a0 i pa perm)).
  - intros k [a pa'] s1 Hk (i & l1 & -> & Hi & -> & -> & Hs1 & Hv1).
    assert (Hai : 0 <= a0 + i * PGSIZE < MAXVA) by (unfold PGSIZE in *; lia).
    pose proof (aligned_add a0 i Ha0) as Hal. wp_step.
    apply (wp_walk_alloc _ _ _ s1 l1); eauto with xv6; [lia| |].
    + intros s2 l2 t Hs2 Hv2 Et.
      pose proof (ps_pt _ _ _ _ _ _ Hs2) as Hpt2. pose proof (ps_heap _ _ _ _ _ _ Hs2) as Hh2.
      rewrite (proj2 (Z.eqb_neq _ 0)) by (by eapply table_nonzero).
      unfold ld64, st64. wp_step. wp_step. rewrite (load_slot _ _ _ _ Et), Hv2, Hv1, mapped_out by lia.
      rewrite Hfree by lia. wp_steps.
      all: destruct (set_pte root s2 l2 _ t (mkpte (pa + i * PGSIZE) perm) Hh2 Hpt2 Hai Et) as [Hs3 Hv3];
        fold (mkpte (pa + i * PGSIZE) perm); set (s3 := set_mem _ s2) in *;
        assert (Hs3' : pt_step root [] s l s3 l2) by eauto using pt_step_trans;
        assert (Hv3' : as_eq (pte_of (k_mem s3) root) (mapped (pte_of (k_mem s) root) a0 (i + 1) pa perm)) by
          (intros va' Hva'; rewrite Hv3, mapped_S, (PGROUNDDOWN_id (a0 + i * PGSIZE)), Hv2, Hv1 by (done || lia);
           rewrite u64_small by (apply mkpte_range; unfold PGSIZE in *; lia); done).
      * bools. apply (HQ (i + 1) s3 l2 Hs3' Hv3'). unfold PGSIZE in *. lia.
      * bools. exists (n - (i + 1)). split; [lia|].
        exists (i + 1), l2. rewrite MAXVA_eq in Hai.
        rewrite (u64_small (a0 + i * PGSIZE + PGSIZE)), (u64_small (pa + i * PGSIZE + PGSIZE))
          by (unfold PGSIZE in *; lia).
        assert (i + 1 <> n) by (unfold PGSIZE in *; lia).
        split_and!; done || unfold PGSIZE; lia.
    + intros s2 Hs2 Hv2. wp_steps; [|done]. apply (HQ i s2 []); [|intros va' Hva'|done|done].
      * by eapply pt_step_trans.
      * rewrite Hv2. by apply Hv1.
  - assert (n * PGSIZE <= 2 ^ 56) by lia. unfold PGSIZE in *. lia.
  - exists 0, l. split_and!; try lia.
    + by apply pt_step_refl.
    + intros va' Hva'. symmetry. by apply mapped_0.
Qed.

(** ** uvmunmap() *)

Lemma cnt_app l1 l2 q : cnt (l1 ++ l2) q = cnt l1 q + cnt l2 q.
Proof. unfold cnt. rewrite count_occ_app. lia. Qed.

Lemma cnt_one p q : cnt [p] q = if decide (p = q) then 1 else 0.
Proof. unfold cnt. simpl. destruct (Z.eq_dec p q); by case_decide. Qed.

Lemma cnt_nonneg l q : 0 <= cnt l q.
Proof. unfold cnt. lia. Qed.

Lemma cnt_in l q : q ∈ l -> 1 <= cnt l q.
Proof. intros Hq%list_elem_of_In. apply (count_occ_In Z.eq_dec) in Hq. unfold cnt. lia. Qed.

Lemma pt_free_trans root pas1 pas2 s l s1 l1 s2 l2 :
  pt_free root pas1 s l s1 l1 -> pt_free root pas2 s1 l1 s2 l2 ->
  pt_free root (pas1 ++ pas2) s l s2 l2.
Proof.
  intros H1 H2. constructor.
  - eapply core_eqv_trans; [apply H1|apply H2].
  - rewrite (pf_kpt _ _ _ _ _ _ H2). apply H1.
  - apply H2.
  - intros [-> ->]%app_nil. rewrite (pf_list _ _ _ _ _ _ H2) by done. by apply H1.
  - apply H2.
  - intros p Hp. rewrite (pf_tab _ _ _ _ _ _ H2) by done. by apply H1.
  - intros q Hq. rewrite (pf_ref _ _ _ _ _ _ H2), (pf_ref _ _ _ _ _ _ H1), cnt_app by done. lia.
  - intros q Hq Hr Hn. eapply same_on_trans; [apply H1|apply H2]; try done.
    + rewrite (pf_ref _ _ _ _ _ _ H2) in Hr by done. pose proof (cnt_nonneg pas2 q). lia.
    + intros Ht. apply Hn. by apply (is_table_same _ _ _ (pf_tab _ _ _ _ _ _ H1)).
Qed.

(** Clearing an entry frees nothing. *)
Lemma pt_free_leaf root s l va t v :
  heap_ok s l -> pt_ok s root -> 0 <= va < MAXVA -> tab (k_mem s) root [PX 2 va; PX 1 va] = Some t ->
  pt_free root [] s l (set_mem (store64 (k_mem s) (t + 8 * PX 0 va) v) s) l.
Proof.
  intros Hh Hpt Hva Et. destruct (set_pte root s l va t v Hh Hpt Hva Et) as [Hs _].
  constructor; try done; try apply Hs.
  - apply (leaf_tab s root (PX 2 va) (PX 1 va)); auto with xv6. apply PX_range. lia.
  - intros q Hq. unfold cnt, ref. simpl. lia.
  - intros q Hq Hr Hn. apply Hs; [done| |done]. by eapply heap_ok_used.
Qed.

(** Dropping one reference of a page that is not a table. *)
Lemma pt_free_kfree root s l pa (Q : unit -> kst -> Prop) :
  unlocked s -> heap_ok s l -> pt_ok s root -> page_ok pa -> 1 <= ref s pa ->
  ~ is_table (k_mem s) root pa ->
  (forall s' l', pt_free root [pa] s l s' l' ->
     (forall va, pte_of (k_mem s') root va = pte_of (k_mem s) root va) -> Q tt s') ->
  wp (kfree pa) Q s.
Proof.
  intros Hu Hh Hpt Hp Hr Hn HQ. apply (wp_kfree _ _ l); try done. intros c Hc.
  assert (Href : forall v q, page_ok q -> v = ref s pa - 1 ->
            fupd (k_ref s) (PA2PAGE_ID pa) v (PA2PAGE_ID q) = ref s q - cnt [pa] q).
  { intros v q Hq ->. rewrite cnt_one. case_decide as E.
    - subst. rewrite fupd_eq. done.
    - unfold ref. rewrite fupd_ne; [lia|]. intros E'. apply E. symmetry. by apply page_id_inj. }
  destruct (Z.eqb_spec (ref s pa) 1) as [E|E]; intros s' Hh'.
  - assert (Hsame : forall q, page_ok q -> q <> pa -> same_on (k_mem s) (k_mem s') q PGSIZE).
    { intros q Hq Hne. apply (other_page _ _ pa q); [done|done|done|].
      intros x Hx. by apply freed_outside. }
    assert (Htab : forall q, is_table (k_mem s) root q -> same_on (k_mem s) (k_mem s') q PGSIZE).
    { intros q Hq. apply Hsame; [by apply (pt_page s root Hpt)|by intros ->]. }
    apply (HQ s' (pa :: l)); [|intros va; by apply pte_of_same].
    constructor; try done.
    + eapply pt_ok_same; [|exact Hpt]. intros q Hq. split; [by apply Htab|].
      assert (page_ok q) by by apply (pt_page s root Hpt). unfold ref at 1. simpl.
      rewrite Href by (done || lia). rewrite cnt_one, decide_False by by intros ->. lia.
    + by apply tab_same.
    + intros q Hq. apply Href; [done|lia].
    + intros q Hq Hr' _. apply Hsame; [done|]. intros ->. unfold ref in Hr'. simpl in Hr'.
      rewrite fupd_eq in Hr'. lia.
  - apply (HQ s' l); [|done]. constructor; try done.
    + eapply pt_ok_same; [|exact Hpt]. intros q Hq. split; [done|].
      assert (page_ok q) by by apply (pt_page s root Hpt). unfold ref at 1. simpl.
      rewrite Href by (done || lia). rewrite cnt_one, decide_False by by intros ->. lia.
    + intros q Hq. by apply Href.
Qed.

Lemma unlocked_free root pas s l s' l' : pt_free root pas s l s' l' -> unlocked s -> unlocked s'.
Proof. intros Hs. apply unlocked_eqv, Hs. Qed.

Hint Resolve unlocked_free pf_heap pf_pt : xv6.

(** The physical pages of the [n] pages from [a] on. *)
Definition pas_of (m : mem) (root a : Z) (n : nat) : list Z :=
  List.map (fun i => PTE2PA (pte_of m root (a + Z.of_nat i * PGSIZE))) (seq 0 n).

Lemma pas_of_S m root a n :
  pas_of m root a (S n) = pas_of m root a n ++ [PTE2PA (pte_of m root (a + Z.of_nat n * PGSIZE))].
Proof. unfold pas_of. by rewrite seq_S, List.map_app. Qed.

Lemma unmapped_0 f a : as_eq (unmapped f a 0) f.
Proof. intros va _. unfold unmapped. destruct (_ && _) eqn:E; [bools; lia|done]. Qed.

Lemma unmapped_S f a i va :
  a mod PGSIZE = 0 -> 0 <= i ->
  unmapped f a (i + 1) va = if PGROUNDDOWN va =? a + i * PGSIZE then 0 else unmapped f a i va.
Proof.
  intros Ha Hi. rewrite page_of_iff by by apply aligned_add. unfold unmapped.
  destruct (_ && (va <? a + (i + 1) * PGSIZE)) eqn:E1;
    destruct ((a + i * PGSIZE <=? va) && _) eqn:E2; unfold PGSIZE in *; bools; try lia;
    destruct (_ && (va <? a + i * _)) eqn:E3; try done;
    apply andb_false_iff in E1 || apply andb_false_iff in E2;
    try apply andb_false_iff in E3; rewrite ?Z.leb_gt, ?Z.ltb_ge in *; bools; lia.
Qed.

Lemma pas_of_take m root a n i : (i <= n)%nat ->
  exists rest, pas_of m root a n = pas_of m root a i ++ rest.
Proof.
  intros Hi. unfold pas_of. replace n with (i + (n - i))%nat by lia.
  rewrite seq_app, List.map_app. eauto.
Qed.

Lemma pas_of_in m root a n i :
  (i < n)%nat -> PTE2PA (pte_of m root (a + Z.of_nat i * PGSIZE)) ∈ pas_of m root a n.
Proof.
  intros Hi. apply list_elem_of_In, in_map_iff. exists i. split; [done|]. apply in_seq. lia.
Qed.

(** What may be unmapped: valid leaves; and, to free their pages, pages of
    the allocator that have a reference for each of the mappings. *)
Definition can_unmap (s : kst) (root a : Z) (n : nat) (do_free : bool) : Prop :=
  (forall i, (i < n)%nat -> let e := pte_of (k_mem s) root (a + Z.of_nat i * PGSIZE) in
     has e PTE_V = true /\ PTE_FLAGS e <> PTE_V) /\
  (do_free = true -> forall q, q ∈ pas_of (k_mem s) root a n ->
     page_ok q /\ ~ is_table (k_mem s) root q /\ cnt (pas_of (k_mem s) root a n) q <= ref s q).

Definition freed (s : kst) (root a : Z) (n : nat) (do_free : bool) : list Z :=
  if do_free then pas_of (k_mem s) root a n else [].

Lemma slot_valid m root va :
  has (pte_of m root va) PTE_V = true -> exists t, tab m root [PX 2 va; PX 1 va] = Some t.
Proof. unfold pte_of, slot. destruct (tab _ _ _); [eauto|done]. Qed.

(** The body of the loop. *)
Lemma wp_unmap1 root a i n do_free s0 s l (Q : unit -> kst -> Prop) :
  unlocked s -> heap_ok s l -> pt_ok s root -> can_unmap s0 root a n do_free -> (i < n)%nat ->
  0 <= a + Z.of_nat i * PGSIZE < MAXVA ->
  pte_of (k_mem s) root (a + Z.of_nat i * PGSIZE) = pte_of (k_mem s0) root (a + Z.of_nat i * PGSIZE) ->
  (forall p, is_path p -> tab (k_mem s) root p = tab (k_mem s0) root p) ->
  (forall q, page_ok q -> ref s q = ref s0 q - cnt (freed s0 root a i do_free) q) ->
  (forall s' l',
     pt_free root (if do_free then [PTE2PA (pte_of (k_mem s0) root (a + Z.of_nat i * PGSIZE))] else []) s l s' l' ->
     (forall va', 0 <= va' < MAXVA -> pte_of (k_mem s') root va' =
        if PGROUNDDOWN va' =? PGROUNDDOWN (a + Z.of_nat i * PGSIZE) then 0 else pte_of (k_mem s) root va') ->
     Q tt s') ->
  forall t, tab (k_mem s) root [PX 2 (a + Z.of_nat i * PGSIZE); PX 1 (a + Z.of_nat i * PGSIZE)] = Some t ->
  wp (when do_free (kfree (PTE2PA (pte_of (k_mem s) root (a + Z.of_nat i * PGSIZE)))) ;;;
      st64 (t + 8 * PX 0 (a + Z.of_nat i * PGSIZE)) 0) Q s.
Proof.
  intros Hu Hh Hpt [Hleaf Hfree] Hi Hva Hpte Htab Href HQ t Et.
  set (va := a + Z.of_nat i * PGSIZE) in *. rewrite Hpte. set (pa := PTE2PA _) in *.
  assert (Hst : forall s1 l1 pas, pt_free root pas s l s1 l1 ->
            (forall va', pte_of (k_mem s1) root va' = pte_of (k_mem s) root va') ->
            (if do_free then [pa] else []) = pas ->
            wp (st64 (t + 8 * PX 0 va) 0) Q s1).
  { intros s1 l1 pas Hs1 Hv1 <-. unfold st64. wp_step.
    assert (Et1 : tab (k_mem s1) root [PX 2 va; PX 1 va] = Some t).
    { rewrite (pf_tab _ _ _ _ _ _ Hs1); auto with xv6. }
    destruct (set_pte root s1 l1 va t 0) as [_ Hv2]; eauto with xv6.
    eapply HQ.
    - rewrite <- (app_nil_r (if do_free then _ else _)).
      eapply pt_free_trans; [exact Hs1|]. eapply pt_free_leaf; eauto with xv6.
    - intros va' Hva'. rewrite Hv2 by done. by rewrite Hv1. }
  wp_step. destruct do_free; simpl.
  - destruct (Hfree eq_refl pa) as (Hok & Hn & Hc); [by apply pas_of_in|].
    apply (pt_free_kfree root s l); auto.
    + rewrite Href by done. unfold freed.
      destruct (pas_of_take (k_mem s0) root a n (S i)) as [rest E]; [lia|].
      rewrite E, pas_of_S, !cnt_app, cnt_one in Hc. fold va in Hc. fold pa in Hc.
      rewrite decide_True in Hc by done. pose proof (cnt_nonneg rest pa). lia.
    + intros Ht. apply Hn. by apply (is_table_same _ _ _ Htab).
    + intros s' l' Hs' Hv'. by eapply Hst.
  - wp_step. eapply (Hst s l []); [|done|done].
    constructor; try done; auto with xv6. intros q Hq. unfold cnt. simpl. lia.
Qed.

Lemma freed_S s root a i do_free :
  freed s root a (S i) do_free =
  freed s root a i do_free ++
  (if do_free then [PTE2PA (pte_of (k_mem s) root (a + Z.of_nat i * PGSIZE))] else []).
Proof. destruct do_free; [apply pas_of_S|done]. Qed.

Lemma wp_uvmunmap root a n do_free s l (Q : unit -> kst -> Prop) :
  unlocked s -> heap_ok s l -> pt_ok s root ->
  a mod PGSIZE = 0 -> 0 <= a -> a + Z.of_nat n * PGSIZE <= MAXVA ->
  can_unmap s root a n do_free ->
  (forall s' l', pt_free root (freed s root a n do_free) s l s' l' ->
     as_eq (pte_of (k_mem s') root) (unmapped (pte_of (k_mem s) root) a (Z.of_nat n)) -> Q tt s') ->
  wp (uvmunmap root a (Z.of_nat n) do_free) Q s.
Proof.
  intros Hu Hh Hpt Ha Ha0 Hmax Hcan HQ. unfold uvmunmap. rewrite Ha. simpl.
  rewrite u64_small by (rewrite MAXVA_eq in Hmax; unfold PGSIZE in *; lia).
  apply wp_loop with (n := Z.of_nat n)
    (I := fun k va s' => exists i l', k = Z.of_nat n - Z.of_nat i /\ (i <= n)%nat /\
       va = a + Z.of_nat i * PGSIZE /\ pt_free root (freed s root a i do_free) s l s' l' /\
       as_eq (pte_of (k_mem s') root) (unmapped (pte_of (k_mem s) root) a (Z.of_nat i))).
  - intros k va s1 Hk (i & l1 & -> & Hi & -> & Hs1 & Hv1).
    apply wp_if; intros Hlt; bools.
    + assert (Hin : (i < n)%nat) by (unfold PGSIZE in *; lia).
      assert (Hva : 0 <= a + Z.of_nat i * PGSIZE < MAXVA) by (unfold PGSIZE in *; lia).
      assert (Hpte : pte_of (k_mem s1) root (a + Z.of_nat i * PGSIZE) =
                     pte_of (k_mem s) root (a + Z.of_nat i * PGSIZE)).
      { rewrite Hv1 by done. unfold unmapped. destruct (_ && _) eqn:E; [bools; lia|done]. }
      pose proof (proj1 Hcan i Hin) as [HV HF]. rewrite <- Hpte in HV, HF.
      destruct (slot_valid _ _ _ HV) as [t Et].
      wp_step. apply wp_walk; [lia|]. unfold slot. rewrite Et.
      rewrite (proj2 (Z.eqb_neq _ 0)) by (eapply (table_nonzero s1); eauto with xv6).
      unfold ld64. wp_step. wp_step. rewrite (load_slot _ _ _ _ Et), HV. simpl.
      rewrite (proj2 (Z.eqb_neq _ _)) by done. apply wp_bind_assoc, wp_bind.
      eapply (wp_unmap1 root a i n do_free s s1 l1); eauto with xv6; try apply Hs1.
      intros s' l' Hs' Hv'. wp_step. exists (Z.of_nat n - Z.of_nat (S i)). split; [lia|].
      exists (S i), l'. rewrite u64_small by (rewrite MAXVA_eq in Hva; unfold PGSIZE in *; lia).
      split_and!; [done|lia|unfold PGSIZE; lia|rewrite freed_S; by eapply pt_free_trans|].
      intros va' Hva'. rewrite Hv' by done. replace (Z.of_nat (S i)) with (Z.of_nat i + 1) by lia.
      rewrite unmapped_S, (PGROUNDDOWN_id (a + Z.of_nat i * PGSIZE)) by (done || lia || by apply aligned_add). by rewrite Hv1.
    + wp_step. assert (i = n) as -> by (unfold PGSIZE in *; lia). by eapply HQ.
  - rewrite MAXVA_eq in Hmax. unfold PGSIZE in *. lia.
  - exists 0%nat, l. split_and!; try lia.
    + destruct do_free; constructor; try done; auto with xv6; intros q Hq; unfold cnt; simpl; lia.
    + intros va Hva. symmetry. by apply unmapped_0.
Qed.


(** ** Properties *)

(** C26: mappages() maps consecutive pages.  On a range with no valid entry it
    returns 0 and every page of the range maps to the next physical page,
    with the given flags and PTE_V; all other entries of the table keep
    their value.  If memory runs out it returns -1 with only the first [k]
    pages mapped.  Either way pages come off the free list only to become
    tables, and nothing else in use changes. *)
Theorem mappages_correct root va size pa perm n s l :
  unlocked s -> heap_ok s l -> pt_ok s root ->
  0 <= va -> 0 < size -> va + size <= MAXVA ->
  PGROUNDDOWN (va + size - 1) = PGROUNDDOWN va + (n - 1) * PGSIZE ->
  0 <= pa -> pa + n * PGSIZE <= 2 ^ 56 -> 0 <= perm < 1024 ->
  (forall i, 0 <= i < n -> has (pte_of (k_mem s) root (PGROUNDDOWN va + i * PGSIZE)) PTE_V = false) ->
  exists r k s' l', mappages root va size pa perm s = Ok r s' /\
    pt_step root [] s l s' l' /\
    as_eq (pte_of (k_mem s') root) (mapped (pte_of (k_mem s) root) (PGROUNDDOWN va) k pa perm) /\
    ((r = 0 /\ k = n) \/ (r = -1 /\ 0 <= k < n /\ l' = [])).
Proof.
  intros. enough (wp (mappages root va size pa perm) (fun r s' => exists k l',
    pt_step root [] s l s' l' /\
    as_eq (pte_of (k_mem s') root) (mapped (pte_of (k_mem s) root) (PGROUNDDOWN va) k pa perm) /\
    ((r = 0 /\ k = n) \/ (r = -1 /\ 0 <= k < n /\ l' = []))) s) as W.
  { apply wp_elim in W as (r & s' & E & k & l' & W). exists r, k, s', l'. split; [exact E|exact W]. }
  apply (wp_mappages _ _ _ _ _ n _ _ l); try done.
  intros k s' l' Hs Hv. split.
  - intros ->. exists n, l'. auto.
  - intros Hk ->. exists k, []. auto 6.
Qed.

(** C27: uvmunmap() removes [n] mappings and, when asked to, drops one
    reference of each of their pages; a page without references left goes to
    the free list.  All other entries, counts and pages in use stay as they are. *)
Theorem uvmunmap_correct root a n do_free s l :
  unlocked s -> heap_ok s l -> pt_ok s root ->
  a mod PGSIZE = 0 -> 0 <= a -> a + Z.of_nat n * PGSIZE <= MAXVA ->
  can_unmap s root a n do_free ->
  exists s' l', uvmunmap root a (Z.of_nat n) do_free s = Ok tt s' /\
    pt_free root (freed s root a n do_free) s l s' l' /\
    as_eq (pte_of (k_mem s') root) (unmapped (pte_of (k_mem s) root) a (Z.of_nat n)).
Proof.
  intros. enough (wp (uvmunmap root a (Z.of_nat n) do_free) (fun _ s' => exists l',
    pt_free root (freed s root a n do_free) s l s' l' /\
    as_eq (pte_of (k_mem s') root) (unmapped (pte_of (k_mem s) root) a (Z.of_nat n))) s) as W.
  { apply wp_elim in W as ([] & s' & E & l' & W). exists s', l'. split; [exact E|exact W]. }
  apply (wp_uvmunmap _ _ _ _ _ l); try done. eauto.
Qed.

End Pt.

#[export] Hint Resolve path_nil path_va path_va1 NoDup_nil_2 : xv6.
#[export] Hint Resolve unlocked_step ps_heap ps_pt unlocked_free pf_heap pf_pt : xv6.
