(* ===== verification/Uvm.v ===== *)
(** User address spaces (kernel/vm.c): growing and shrinking a process,
    copy-on-write fork, and copies between kernel and user memory.

    The rules are stated with [pt_step] and [pt_free] of Pt.v, so they say
    what happens to the page table, to the reference counts, to the free
    list, and to the memory of everybody else. *)

From stdpp Require Import base tactics list sets strings.
From Stdlib Require Import ZArith Lia.
From coqutil Require Import Byte.
From S2P Require Import Prelude Riscv Mem Core Spinlock Kalloc Vm Pt.

Local Open Scope Z_scope.
Local Open Scope kern_scope.

(** The address space in which the pages from [a] on map to [qs]. *)
Definition mapped_pages (f : Z -> Z) (a : Z) (qs : list Z) (perm : Z) : Z -> Z :=
  fun va => if (a <=? va) && (va <? a + Z.of_nat (length qs) * PGSIZE)
            then mkpte (nth (Z.to_nat ((va - a) / PGSIZE)) qs 0) perm else f va.

Definition zero_page (m : mem) (q : Z) : Prop := forall x, q <= x < q + PGSIZE -> m x = Byte.x00.

(** The number of pages from address [a] (aligned) to [sz]. *)
Definition npages (a sz : Z) : nat := Z.to_nat ((PGROUNDUP sz - a) / PGSIZE).

Section Uvm.
Context `{KernelImage}.

(** ** Address-space arithmetic *)

Lemma mapped_pages_nil f a perm : as_eq (mapped_pages f a [] perm) f.
Proof. intros va _. unfold mapped_pages. simpl. destruct (_ && _) eqn:E; [bools; lia|done]. Qed.

Lemma page_index a i va :
  a mod PGSIZE = 0 -> 0 <= i ->
  (PGROUNDDOWN va =? a + i * PGSIZE) = (a <=? va) && ((va - a) / PGSIZE =? i).
Proof.
  intros Ha Hi. rewrite page_of_iff by by apply aligned_add. apply eq_true_iff_eq.
  rewrite !andb_true_iff, !Z.leb_le, Z.ltb_lt, Z.eqb_eq. unfold PGSIZE in *. split.
  - intros [? ?]. split; [lia|]. symmetry. apply (Z.div_unique _ _ _ (va - a - i * 4096)); lia.
  - intros [? E]. pose proof (Z.div_mod (va - a) 4096 ltac:(lia)).
    pose proof (Z.mod_pos_bound (va - a) 4096 ltac:(lia)). lia.
Qed.

Lemma mapped_pages_snoc f a qs q perm va :
  a mod PGSIZE = 0 ->
  mapped_pages f a (qs ++ [q]) perm va =
  if PGROUNDDOWN va =? a + Z.of_nat (length qs) * PGSIZE then mkpte q perm
  else mapped_pages f a qs perm va.
Proof.
  intros Ha. rewrite page_index by (done || lia). unfold mapped_pages. rewrite length_app. simpl.
  destruct (Z.leb_spec a va); simpl; [|done].
  pose proof (Z.div_mod (va - a) PGSIZE ltac:(done)) as Hd.
  pose proof (Z.mod_pos_bound (va - a) PGSIZE ltac:(done)) as Hm.
  pose proof (Z.div_pos (va - a) PGSIZE ltac:(lia) ltac:(done)) as Hp.
  set (d := (va - a) / PGSIZE) in *.
  destruct (Z.eqb_spec d (Z.of_nat (length qs))) as [E|E].
  - rewrite (proj2 (Z.ltb_lt _ _)) by (unfold PGSIZE in *; lia).
    rewrite E, Nat2Z.id, app_nth2, Nat.sub_diag by lia. done.
  - destruct (Z.ltb_spec va (a + Z.of_nat (length qs) * PGSIZE)).
    + rewrite (proj2 (Z.ltb_lt _ _)) by (unfold PGSIZE in *; lia).
      rewrite app_nth1; [done|]. unfold PGSIZE in *. lia.
    + rewrite (proj2 (Z.ltb_ge _ _)); [done|]. unfold PGSIZE in *. lia.
Qed.

Lemma mapped_pages_at f a qs perm i :
  (i < length qs)%nat ->
  mapped_pages f a qs perm (a + Z.of_nat i * PGSIZE) = mkpte (nth i qs 0) perm.
Proof.
  intros Hi. unfold mapped_pages.
  rewrite (proj2 (Z.leb_le _ _)), (proj2 (Z.ltb_lt _ _)) by (unfold PGSIZE; lia). simpl.
  replace (a + Z.of_nat i * PGSIZE - a) with (Z.of_nat i * PGSIZE) by lia.
  by rewrite Z.div_mul, Nat2Z.id.
Qed.

(** The last byte of one page. *)
Lemma one_page a : a mod PGSIZE = 0 -> PGROUNDDOWN (a + PGSIZE - 1) = PGROUNDDOWN a + (1 - 1) * PGSIZE.
Proof.
  intros Ha. rewrite (PGROUNDDOWN_id a) by done. rewrite Z.add_0_r.
  apply PGROUNDDOWN_iff; [done|unfold PGSIZE; lia].
Qed.

Lemma user_rwx_range : 0 <= user_rwx < 1024.
Proof. done. Qed.

(** ** Data pages *)

(** kalloc() and memset() give a zeroed page that nothing refers to. *)
Lemma pt_step_data root s q l c :
  heap_ok s (q :: l) -> pt_ok s root -> core_eqv (k_core s) c ->
  let s' := mkkst c (fill (fill (k_mem s) q 5 PGSIZE) q 0 PGSIZE) (load64 (k_mem s) q)
                  (fupd (k_ref s) (PA2PAGE_ID q) 1) (k_kpt s) in
  pt_step root [q] s (q :: l) s' l /\ zero_page (k_mem s') q /\
  (forall va, pte_of (k_mem s') root va = pte_of (k_mem s) root va).
Proof.
  intros Hh Hpt Hc s'.
  destruct (heap_ok_free s _ q Hh ltac:(by left)) as [Hq Hrq].
  assert (Hout : forall x, ~ (q <= x < q + PGSIZE) -> k_mem s' x = k_mem s x).
  { intros x Hx. simpl. by rewrite !fill_out. }
  assert (Hnt : ~ is_table (k_mem s) root q).
  { intros Ht. apply (pt_table_used _ _ _ _ Hh Hpt Ht). by left. }
  assert (Hsame : forall p, page_ok p -> p <> q -> same_on (k_mem s) (k_mem s') p PGSIZE).
  { intros p Hp Hne. by apply (other_page _ _ q p). }
  assert (Hts : forall p, is_table (k_mem s) root p -> same_on (k_mem s) (k_mem s') p PGSIZE).
  { intros p Hp. apply Hsame; [by apply (pt_page s root Hpt)|by intros ->]. }
  assert (Hr : forall p, page_ok p -> p <> q -> ref s' p = ref s p).
  { intros p Hp Hne. unfold ref. simpl. apply fupd_ne. intros E. apply Hne. by apply page_id_inj. }
  pose proof (tab_same _ _ root Hts) as Htab.
  pose proof (is_table_same _ _ _ Htab) as Hit.
  pose proof (heap_ok_alloc s q l c (k_mem s') Hh Hout) as Hh'.
  split_and!; [|intros x Hx; simpl; by rewrite fill_in|intros va; by apply pte_of_same].
  constructor; try done.
  - eapply pt_ok_same; [|exact Hpt]. intros p Hp. split; [by apply Hts|].
    apply Hr; [by apply (pt_page s root Hpt)|by intros ->].
  - intros p p' Hp. by rewrite Htab.
  - intros p Hp. left. by apply Hit.
  - intros p Hp Hn _. apply Hsame; [done|]. intros ->. apply Hn. by left.
  - intros p Hp Hn. apply Hr; [done|]. intros ->. apply Hn. by left.
  - intros p Hp. by right.
  - intros p [->|Hp]%elem_of_cons; [right; right; by left|by left].
  - intros p ->%list_elem_of_singleton. split_and!; [done|by left| | |by intros ?%Hit].
    + intros Hin. destruct Hh as (_ & [? _]%NoDup_cons & _). done.
    + unfold ref. simpl. apply fupd_eq.
  - apply NoDup_singleton.
Qed.

(** Giving the pages [qs2] back undoes taking them. *)
Lemma pt_step_undo root qs1 qs2 s l s1 l1 s2 l2 :
  heap_ok s l -> pt_step root (qs1 ++ qs2) s l s1 l1 -> pt_free root qs2 s1 l1 s2 l2 ->
  pt_step root qs1 s l s2 l2.
Proof.
  intros Hh H1 H2.
  assert (Hcnt : forall q, q ∉ qs2 -> cnt qs2 q = 0).
  { intros q Hq. unfold cnt. rewrite (proj1 (count_occ_not_In Z.eq_dec qs2 q)); [done|].
    by rewrite <- list_elem_of_In. }
  assert (Hlo : forall q, page_ok q -> q ∉ l -> ref s2 q = ref s q).
  { intros q Hq Hn. rewrite (pf_ref _ _ _ _ _ _ H2), (ps_ref _ _ _ _ _ _ H1), Hcnt by
      (done || (intros Hq2; apply Hn; eapply ps_data; [exact H1|set_solver])). lia. }
  pose proof (is_table_same _ _ _ (pf_tab _ _ _ _ _ _ H2)) as Hit.
  pose proof (ps_nodup _ _ _ _ _ _ H1) as (Hnd1 & Hnd & Hnd2)%NoDup_app.
  constructor.
  - eapply core_eqv_trans; [apply H1|apply H2].
  - rewrite (pf_kpt _ _ _ _ _ _ H2). apply H1.
  - apply H2.
  - apply H2.
  - intros p q Hp E. rewrite (pf_tab _ _ _ _ _ _ H2) by done. by apply H1.
  - intros q Hq%Hit. by apply (ps_new _ _ _ _ _ _ H1).
  - intros q Hq Hn Ht. pose proof (heap_ok_unfree s l q Hh Hq Hn) as Hr.
    eapply same_on_trans; [by apply H1|]. apply H2; [done| |].
    + by rewrite Hlo.
    + by intros [?|?]%(ps_new _ _ _ _ _ _ H1).
  - apply Hlo.
  - intros q Hq. destruct (heap_ok_free _ _ q (pf_heap _ _ _ _ _ _ H2) Hq) as [Hok Hr].
    destruct (decide (q ∈ l)) as [|Hn]; [done|]. exfalso.
    rewrite Hlo in Hr by done. pose proof (heap_ok_unfree s l q Hh Hok Hn). lia.
  - intros q Hq. rewrite Hit. destruct (heap_ok_free _ _ q Hh Hq) as [Hok _].
    apply (ps_used _ _ _ _ _ _ H1) in Hq as [Hq|[Hq|[Hq|Hq]%elem_of_app]]; [|tauto|tauto|].
    + left. apply (heap_ok_free _ _ q (ps_heap _ _ _ _ _ _ H1)) in Hq as [_ Hr].
      eapply heap_ok_iff; [apply H2|done|]. rewrite (pf_ref _ _ _ _ _ _ H2) by done.
      pose proof (cnt_nonneg qs2 q). lia.
    + left. eapply heap_ok_iff; [apply H2|done|]. rewrite (pf_ref _ _ _ _ _ _ H2) by done.
      destruct (ps_data _ _ _ _ _ _ H1 q) as (_ & _ & _ & -> & _); [rewrite elem_of_app; auto using list_elem_of_here|].
      pose proof (cnt_in qs2 q Hq). lia.
  - intros q Hq. destruct (ps_data _ _ _ _ _ _ H1 q) as (Hok & Hl & Hl1 & Hr & Hn); [rewrite elem_of_app; auto using list_elem_of_here|].
    assert (ref s2 q = 1) as Hr2.
    { rewrite (pf_ref _ _ _ _ _ _ H2), Hcnt by (done || by apply Hnd). lia. }
    split_and!; [done|done| |done|by rewrite Hit].
    intros ?%(heap_ok_free _ _ q (pf_heap _ _ _ _ _ _ H2)). lia.
  - done.
Qed.

(** ** uvmdealloc() and uvmalloc() *)

Lemma PGROUNDUP_id a : 0 <= a <= MAXVA -> a mod PGSIZE = 0 -> PGROUNDUP a = a.
Proof.
  intros Hr Ha. rewrite MAXVA_eq in Hr. destruct (PGROUNDUP_spec a) as [Hm Hb]; [unfold PGSIZE; lia|].
  apply Z.mod_divide in Ha as [k Hk], Hm as [j Hj]; unfold PGSIZE in *; lia.
Qed.

Lemma PGROUNDUP_max sz : 0 <= sz <= MAXVA -> PGROUNDUP sz mod PGSIZE = 0 /\ sz <= PGROUNDUP sz <= MAXVA.
Proof.
  intros Hr. rewrite MAXVA_eq in *. destruct (PGROUNDUP_spec sz) as [Hm Hb]; [unfold PGSIZE; lia|].
  apply Z.mod_divide in Hm as [j Hj]; [|done]. rewrite Hj, Z.mod_mul by done. unfold PGSIZE in *. lia.
Qed.

(** Shrinking, with the sizes the callers pass. *)
Lemma wp_uvmdealloc root oldsz newsz s l (Q : Z -> kst -> Prop) :
  unlocked s -> heap_ok s l -> pt_ok s root -> 0 <= newsz -> oldsz <= MAXVA ->
  let a := PGROUNDUP newsz in
  let n := if newsz <? oldsz then npages a oldsz else 0%nat in
  can_unmap s root a n true ->
  (forall s' l', pt_free root (pas_of (k_mem s) root a n) s l s' l' ->
     as_eq (pte_of (k_mem s') root) (unmapped (pte_of (k_mem s) root) a (Z.of_nat n)) ->
     Q (if newsz <? oldsz then newsz else oldsz) s') ->
  wp (uvmdealloc root oldsz newsz) Q s.
Proof.
  intros Hu Hh Hpt Hn Ho a n Hcan HQ. unfold uvmdealloc.
  assert (H0 : n = 0%nat -> Q (if newsz <? oldsz then newsz else oldsz) s).
  { intros E. apply (HQ s l); rewrite E.
    - constructor; try done; auto with xv6. intros q Hq. unfold cnt. simpl. lia.
    - intros va Hva. symmetry. by apply unmapped_0. }
  destruct (Z.leb_spec oldsz newsz) as [Hle|Hlt].
  { wp_step. unfold n in H0. rewrite (proj2 (Z.ltb_ge newsz oldsz)) in H0 by lia. by apply H0. }
  unfold n in *. rewrite (proj2 (Z.ltb_lt newsz oldsz)) in * by lia.
  destruct (PGROUNDUP_max newsz) as [Ha1 Ha2]; [lia|]. destruct (PGROUNDUP_max oldsz) as [Hb1 Hb2]; [lia|].
  fold a. fold a in Ha1, Ha2. rewrite MAXVA_eq in *.
  assert (Hdiv : exists k, PGROUNDUP oldsz - a = k * PGSIZE).
  { apply Z.mod_divide in Ha1 as [x Hx], Hb1 as [y Hy]; try done. exists (y - x). lia. }
  destruct Hdiv as [k Hk]. assert (Hkr : k < 2 ^ 27) by (unfold PGSIZE in *; lia).
  assert (En : npages a oldsz = Z.to_nat k) by (unfold npages; by rewrite Hk, Z.div_mul).
  wp_step. apply wp_when; intros Hab; bools.
  - assert (0 < k) by (unfold PGSIZE in *; lia).
    rewrite Hk, (u64_small (k * PGSIZE)), Z.div_mul, i32_small, u64_small by (done || unfold PGSIZE in *; lia).
    replace k with (Z.of_nat (npages a oldsz)) by lia.
    apply (wp_uvmunmap _ _ _ _ _ l); try done; try (rewrite ?MAXVA_eq; unfold PGSIZE in *; lia).
  - wp_step. apply H0. rewrite En. unfold PGSIZE in *. lia.
Qed.

(** Freeing the pages uvmalloc() has just added takes it back to the start. *)
Lemma wp_dealloc_undo root s0 l0 s l a qs (Q : Z -> kst -> Prop) :
  unlocked s -> heap_ok s0 l0 -> a mod PGSIZE = 0 -> 0 <= a ->
  a + Z.of_nat (length qs) * PGSIZE <= MAXVA ->
  pt_step root qs s0 l0 s l ->
  as_eq (pte_of (k_mem s) root) (mapped_pages (pte_of (k_mem s0) root) a qs user_rwx) ->
  (forall va, a <= va < a + Z.of_nat (length qs) * PGSIZE -> pte_of (k_mem s0) root va = 0) ->
  (forall r s' l', pt_step root [] s0 l0 s' l' ->
     as_eq (pte_of (k_mem s') root) (pte_of (k_mem s0) root) -> Q r s') ->
  wp (uvmdealloc root (a + Z.of_nat (length qs) * PGSIZE) a) Q s.
Proof.
  intros Hu Hh0 Ha Ha0 Hmax Hs Hv Hz HQ.
  assert (Hpas : pas_of (k_mem s) root a (length qs) = qs).
  { apply (nth_ext _ _ 0 0); [unfold pas_of; by rewrite length_map, length_seq|].
    intros i Hi. unfold pas_of in *. rewrite length_map, length_seq in Hi.
    rewrite (nth_indep _ 0 (PTE2PA (pte_of (k_mem s) root (a + Z.of_nat 0 * PGSIZE))))
      by (by rewrite length_map, length_seq).
    rewrite (map_nth (fun i => PTE2PA (pte_of (k_mem s) root (a + Z.of_nat i * PGSIZE)))), seq_nth by done.
    simpl. rewrite Hv by (unfold PGSIZE in *; lia). rewrite mapped_pages_at by done.
    assert (Hin : nth i qs 0 ∈ qs) by by apply list_elem_of_In, nth_In.
    apply (ps_data _ _ _ _ _ _ Hs) in Hin as [Hok _].
    apply mkpte_pa; [apply Hok|by apply page_ok_56|apply user_rwx_range]. }
  assert (Eup : PGROUNDUP a = a) by (apply PGROUNDUP_id; [unfold PGSIZE in *; lia|done]).
  assert (En : (if a <? a + Z.of_nat (length qs) * PGSIZE
                then npages (PGROUNDUP a) (a + Z.of_nat (length qs) * PGSIZE) else 0%nat) = length qs).
  { destruct (Z.ltb_spec a (a + Z.of_nat (length qs) * PGSIZE)).
    - unfold npages. rewrite !PGROUNDUP_id; try done; try lia; [|by apply aligned_add].
      replace (a + _ - a) with (Z.of_nat (length qs) * PGSIZE) by lia. by rewrite Z.div_mul, Nat2Z.id.
    - unfold PGSIZE in *. lia. }
  assert (Hcnt : forall q, cnt qs q <= 1).
  { intros q. pose proof (proj1 (NoDup_count_occ Z.eq_dec qs) (proj1 (NoDup_ListNoDup qs) (ps_nodup _ _ _ _ _ _ Hs)) q).
    unfold cnt. lia. }
  apply (wp_uvmdealloc _ _ _ _ l); eauto with xv6; cbv zeta; rewrite ?En, ?Eup, ?Hpas.
  - split.
    + intros i Hi e. unfold e. rewrite Hv by (unfold PGSIZE in *; lia). rewrite mapped_pages_at by done.
      split; [by apply mkpte_V|]. by rewrite mkpte_flags.
    + intros _ q. rewrite Hpas. intros Hq. apply (ps_data _ _ _ _ _ _ Hs) in Hq as (? & _ & _ & -> & ?).
      split_and!; auto.
  - intros s' l' Hs' Hv'. eapply HQ; [by eapply (pt_step_undo root [] qs)|].
    intros va Hva. rewrite Hv' by done. unfold unmapped. rewrite Hv by done. unfold mapped_pages.
    destruct (_ && _) eqn:E; [|done]. bools. symmetry. apply Hz. lia.
Qed.

(** One round of uvmalloc(): a zeroed page is added at the end. *)
Definition grown (root a0 : Z) (s0 : kst) (l0 : list Z) (qs : list Z) (s : kst) (l : list Z) : Prop :=
  pt_step root qs s0 l0 s l /\
  as_eq (pte_of (k_mem s) root) (mapped_pages (pte_of (k_mem s0) root) a0 qs user_rwx) /\
  (forall q, q ∈ qs -> zero_page (k_mem s) q).

Lemma zero_page_step root s l s' l' qs q :
  pt_step root qs s l s' l' -> page_ok q -> ~ (q ∈ l) -> ~ is_table (k_mem s) root q ->
  zero_page (k_mem s) q -> zero_page (k_mem s') q.
Proof. intros Hs Hq Hl Ht Hz x Hx. rewrite (ps_frame _ _ _ _ _ _ Hs q Hq Hl Ht x Hx). by apply Hz. Qed.

Lemma grown_app root a0 s0 l0 qs s l q s1 l1 s2 l2 :
  grown root a0 s0 l0 qs s l -> a0 mod PGSIZE = 0 ->
  pt_step root [q] s l s1 l1 -> zero_page (k_mem s1) q ->
  (forall va, pte_of (k_mem s1) root va = pte_of (k_mem s) root va) ->
  pt_step root [] s1 l1 s2 l2 ->
  as_eq (pte_of (k_mem s2) root)
        (mapped (pte_of (k_mem s1) root) (a0 + Z.of_nat (length qs) * PGSIZE) 1 q user_rwx) ->
  grown root a0 s0 l0 (qs ++ [q]) s2 l2.
Proof.
  intros (Hs & Hv & Hz) Ha Hs1 Hz1 Hv1 Hs2 Hv2.
  assert (Hs12 : pt_step root [q] s l s2 l2) by (rewrite <- (app_nil_r [q]); by eapply pt_step_app).
  split_and!.
  - by eapply pt_step_app.
  - intros va Hva. rewrite Hv2, mapped_pages_snoc by done. rewrite (mapped_S _ _ 0) by
      (lia || by apply aligned_add). rewrite !Z.add_0_r.
    destruct (_ =? _); [done|]. rewrite mapped_0 by done. rewrite Hv1. by apply Hv.
  - intros q' [Hq'| ->%list_elem_of_singleton]%elem_of_app.
    + destruct (ps_data _ _ _ _ _ _ Hs q' Hq') as (? & _ & ? & _ & ?).
      eapply zero_page_step; [exact Hs12|done|done|done|by apply Hz].
    + destruct (ps_data _ _ _ _ _ _ Hs1 q) as (? & _ & ? & _ & ?); [by left|].
      eapply zero_page_step; [exact Hs2|..]; done.
Qed.

(** Growing to [newsz]: all the pages, or none of them. *)
Lemma wp_uvmalloc root oldsz newsz s l (Q : Z -> kst -> Prop) :
  unlocked s -> heap_ok s l -> pt_ok s root ->
  0 <= oldsz <= newsz -> newsz <= MAXVA ->
  let a0 := PGROUNDUP oldsz in
  (forall va, a0 <= va < PGROUNDUP newsz -> pte_of (k_mem s) root va = 0) ->
  (forall qs s' l', length qs = npages a0 newsz -> grown root a0 s l qs s' l' -> Q newsz s') ->
  (forall s' l', pt_step root [] s l s' l' ->
     as_eq (pte_of (k_mem s') root) (pte_of (k_mem s) root) -> Q 0 s') ->
  wp (uvmalloc root oldsz newsz) Q s.
Proof.
  intros Hu Hh Hpt Hsz Hmax a0 Hz HQ H0. unfold uvmalloc.
  rewrite (proj2 (Z.ltb_ge newsz oldsz)) by lia. fold a0.
  destruct (PGROUNDUP_max oldsz) as [Ha1 Ha2]; [lia|]. destruct (PGROUNDUP_max newsz) as [Hb1 Hb2]; [lia|].
  destruct (PGROUNDUP_spec newsz) as [_ Hb3]; [rewrite MAXVA_eq in *; unfold PGSIZE; lia|].
  fold a0 in Ha1, Ha2. set (n := npages a0 newsz) in *.
  assert (Hn : a0 <= newsz -> PGROUNDUP newsz = a0 + Z.of_nat n * PGSIZE).
  { intros Hle. apply Z.mod_divide in Ha1 as [x Hx], Hb1 as [y Hy]; try done. unfold n, npages.
    rewrite Hy, Hx, <- Z.mul_sub_distr_r, Z.div_mul by done. unfold PGSIZE in *. lia. }
  assert (Hn0 : newsz < a0 -> n = 0%nat).
  { intros Hlt. assert (PGROUNDUP newsz <= a0).
    { apply Z.mod_divide in Ha1 as [x Hx], Hb1 as [y Hy]; unfold PGSIZE in *; lia. }
    unfold n, npages. assert ((PGROUNDUP newsz - a0) / PGSIZE <= 0) by (apply Z.div_le_upper_bound; unfold PGSIZE; lia).
    lia. }
  apply wp_loop with (n := Z.of_nat n)
    (I := fun k a s' => exists qs l', k = Z.of_nat n - Z.of_nat (length qs) /\
       a = a0 + Z.of_nat (length qs) * PGSIZE /\ grown root a0 s l qs s' l').
  - intros k a s1 Hk (qs & l1 & -> & -> & Hg). pose proof Hg as (Hs1 & Hv1 & Hz1).
    assert (Hu1 : unlocked s1) by eauto with xv6.
    apply wp_if; intros Hlt; bools.
    2:{ wp_step. apply (HQ qs s1 l1); [|done].
        destruct (Z.le_gt_cases a0 newsz); [specialize (Hn ltac:(lia)); unfold PGSIZE in *; lia|].
        rewrite Hn0 in * by lia. lia. }
    assert (Hin : Z.of_nat (length qs) < Z.of_nat n) by
      (specialize (Hn ltac:(unfold PGSIZE in *; lia)); unfold PGSIZE in *; lia).
    rewrite Hn in * by (unfold PGSIZE in *; lia).
    assert (Hva : 0 <= a0 + Z.of_nat (length qs) * PGSIZE < MAXVA) by (unfold PGSIZE in *; lia).
    assert (Hundo : forall s2 l2, pt_step root qs s l s2 l2 ->
              as_eq (pte_of (k_mem s2) root) (mapped_pages (pte_of (k_mem s) root) a0 qs user_rwx) ->
              wp (let* _ := uvmdealloc root (a0 + Z.of_nat (length qs) * PGSIZE) a0 in ret (inr 0))
                 (fun r s' => match r with
                    | inl a' => exists n', 0 <= n' < Z.of_nat n - Z.of_nat (length qs) /\
                        exists qs l', n' = Z.of_nat n - Z.of_nat (length qs) /\
                          a' = a0 + Z.of_nat (length qs) * PGSIZE /\ grown root a0 s l qs s' l'
                    | inr b => Q b s' end) s2).
    { intros s2 l2 Hs2 Hv2. wp_step. apply (wp_dealloc_undo root s l _ l2 a0 qs); eauto with xv6; try lia.
      intros va Hva'. apply Hz. unfold PGSIZE in *. lia. }
    wp_step. apply (wp_kalloc _ _ l1); [apply Hu1|apply Hu1|eauto with xv6|]. intros c Hc.
    destruct l1 as [|q l1].
    { cbn [Z.eqb]. apply (Hundo _ []); [|done]. rewrite <- (app_nil_r qs). eapply pt_step_app; [exact Hs1|].
      apply pt_step_core; eauto with xv6. }
    intros sk Hq Hr _. rewrite (proj2 (Z.eqb_neq q 0)) by (by apply page_ok_nonzero).
    destruct (pt_step_data root s1 q l1 c) as (Hs2 & Hz2 & Hv2); eauto with xv6.
    unfold memset. wp_step. wp_step.
    set (s2 := set_mem _ sk). change (mkkst _ _ _ _ _) with s2 in Hs2, Hz2, Hv2.
    pose proof (one_page _ (aligned_add a0 (Z.of_nat (length qs)) Ha1)) as Hone.
    pose proof (PGROUNDDOWN_id _ (aligned_add a0 (Z.of_nat (length qs)) Ha1)) as Hid.
    wp_step. apply (wp_mappages _ _ _ _ _ 1 _ s2 l1); eauto with xv6; try apply user_rwx_range; try lia.
    + apply Z.mod_divide in Ha1 as [x Hx]; [|done].
      rewrite MAXVA_eq in *. unfold PGSIZE in *. lia.
    + apply page_ok_56 in Hq. lia.
    + apply page_ok_range in Hq. unfold PHYSTOP, KERNBASE, PGSIZE in *. lia.
    + intros i Hi. assert (i = 0) as -> by lia. rewrite Hid, Z.add_0_r, Hv2, Hv1 by lia.
      unfold mapped_pages. destruct (_ && _) eqn:E; [bools; lia|]. rewrite Hz; [done|]. unfold PGSIZE in *. lia.
    + rewrite Hid. intros k s3 l3 Hs3 Hv3. split.
      * intros ->. cbn [negb Z.eqb]. wp_step.
        pose proof (grown_app _ _ _ _ _ _ _ _ _ _ _ _ Hg Ha1 Hs2 Hz2 Hv2 Hs3 Hv3) as Hg3.
        exists (Z.of_nat n - Z.of_nat (length (qs ++ [q]))). rewrite length_app in *. simpl.
        split; [lia|]. exists (qs ++ [q]), l3. rewrite length_app.
        rewrite u64_small by (rewrite MAXVA_eq in *; unfold PGSIZE in *; lia).
        split; [done|]. split; [simpl; unfold PGSIZE; lia|done].
      * intros Hk' ->. assert (k = 0) as -> by lia. cbn [negb Z.eqb]. wp_step.
        assert (Hs23 : pt_step root (qs ++ [q]) s l s3 []).
        { eapply pt_step_app; [exact Hs1|]. rewrite <- (app_nil_r [q]). by eapply pt_step_app. }
        destruct (ps_data _ _ _ _ _ _ Hs23 q) as (_ & _ & _ & Hr3 & Hn3); [rewrite elem_of_app; auto using list_elem_of_here|].
        apply (pt_free_kfree root s3 []); eauto with xv6; [lia|].
        intros s4 l4 Hs4 Hv4. apply (Hundo s4 l4); [by eapply pt_step_undo|].
        intros va Hva'. rewrite Hv4, Hv3, mapped_0, Hv2 by done. by apply Hv1.
  - rewrite MAXVA_eq in *. destruct (Z.le_gt_cases a0 newsz).
    + specialize (Hn ltac:(lia)). unfold PGSIZE in *. lia.
    + rewrite Hn0 by lia. lia.
  - exists [], l. split; [simpl; lia|]. split; [simpl; lia|]. split; [by apply pt_step_refl|]. split.
    + intros va Hva. symmetry. by apply mapped_pages_nil.
    + by intros q ?%elem_of_nil.
Qed.


(** ** Properties *)

(** C28: uvmalloc() grows a process all or nothing.  It returns [newsz] with
    every new page mapped to a fresh zeroed page, readable, writable and
    executable by the user; or, when memory runs out halfway, it returns 0 after
    freeing what it had allocated: the same entries are mapped as
    before, and no page but the new table pages has left the free list. *)
Theorem uvmalloc_correct root oldsz newsz s l :
  unlocked s -> heap_ok s l -> pt_ok s root -> 0 <= oldsz <= newsz -> newsz <= MAXVA ->
  (forall va, PGROUNDUP oldsz <= va < PGROUNDUP newsz -> pte_of (k_mem s) root va = 0) ->
  exists r s' l', uvmalloc root oldsz newsz s = Ok r s' /\ unlocked s' /\
    ((r = newsz /\ exists qs, length qs = npages (PGROUNDUP oldsz) newsz /\
        grown root (PGROUNDUP oldsz) s l qs s' l') \/
     (r = 0 /\ pt_step root [] s l s' l' /\
        as_eq (pte_of (k_mem s') root) (pte_of (k_mem s) root))).
Proof.
  intros Hu Hh Hpt Hsz Hmax Hz.
  enough (wp (uvmalloc root oldsz newsz) (fun r s' => exists l', unlocked s' /\
    ((r = newsz /\ exists qs, length qs = npages (PGROUNDUP oldsz) newsz /\
        grown root (PGROUNDUP oldsz) s l qs s' l') \/
     (r = 0 /\ pt_step root [] s l s' l' /\
        as_eq (pte_of (k_mem s') root) (pte_of (k_mem s) root)))) s) as W.
  { apply wp_elim in W as (r & s' & E & l' & W). exists r, s', l'. split; [exact E|exact W]. }
  apply (wp_uvmalloc _ _ _ _ l); try done.
  - intros qs s' l' Hl Hg. exists l'. split; [|left; eauto]. destruct Hg as [Hs _]. eauto with xv6.
  - intros s' l' Hs Hv. exists l'. split; [eauto with xv6|]. by right.
Qed.

End Uvm.
