(* ===== verification/Machine.v ===== *)
(** A small concrete machine for examples: eight pages of memory, one page
    table that maps one page, one empty page table, three free pages. *)

From stdpp Require Import base tactics list strings.
From Stdlib Require Import ZArith Lia.
From coqutil Require Import Byte.
From S2P Require Import Prelude Riscv Mem Core Spinlock Kalloc Vm Pt Uvm.

Local Open Scope Z_scope.
Local Open Scope kern_scope.

Section Machine.

Definition image8 : KernelImage.
Proof.
  refine {| image_end := PHYSTOP - 8 * PGSIZE; etext := KERNBASE + 8 * PGSIZE;
            trampoline := KERNBASE + 7 * PGSIZE |}; [reflexivity|reflexivity|].
  unfold PHYSTOP, KERNBASE, PGSIZE. lia.
Defined.
#[local] Existing Instance image8.

Definition pg (k : Z) : Z := PHYSTOP - 8 * PGSIZE + k * PGSIZE.

(** Pages 0 to 2 are a page table that maps address 0 to page 3 with flags
    [f]; page 4 is an empty page table; pages 5 to 7 are free. *)
Definition mem8 (f : Z) : mem :=
  upd (store64 (store64 (store64 (store64 (store64 (fun _ => Byte.x00)
    (pg 5) (pg 6)) (pg 6) (pg 7))
    (pg 0) (Z.lor (PA2PTE (pg 1)) PTE_V)) (pg 1) (Z.lor (PA2PTE (pg 2)) PTE_V))
    (pg 2) (mkpte (pg 3) f)) (pg 3 + 7) Byte.x2a.

Definition ref8 (n : Z) (id : Z) : Z :=
  if id =? PA2PAGE_ID (pg 3) then n else if id <=? PA2PAGE_ID (pg 4) then 1 else 0.

(** Process 0 has page table 4, process 1 has page table 0. *)
Definition core8 (i : nat) : core :=
  set_ccpu (mkcpu (Some i) 0 false true)
    (set_procs (fupd (fupd (fun _ => proc_zero) 0%nat (set_sz PGSIZE (set_pagetable (pg 4) proc_zero))) 1%nat
                     (set_sz PGSIZE (set_pagetable (pg 0) proc_zero))) boot_core).

Definition kst8 (f n : Z) (i : nat) : kst := mkkst (core8 i) (mem8 f) (pg 5) (ref8 n) 0.

Lemma pages8 p : page_ok p -> exists k, 0 <= k < 8 /\ p = pg k.
Proof.
  intros [Ha Hr]. apply Z.mod_divide in Ha as [k Hk]; [|done].
  change (@image_end image8) with (PHYSTOP - 8 * PGSIZE) in Hr.
  exists (k - (PHYSTOP / PGSIZE - 8)). unfold pg. change (PHYSTOP / PGSIZE) with 557056.
  unfold PHYSTOP, KERNBASE, PGSIZE in *. lia.
Qed.

Lemma pg_ok k : 0 <= k < 8 -> page_ok (pg k).
Proof.
  intros Hk. unfold pg. split.
  - change (PHYSTOP - 8 * PGSIZE) with ((557056 - 8) * PGSIZE). rewrite <- Z.mul_add_distr_r. by apply Z.mod_mul.
  - change (@image_end image8) with (PHYSTOP - 8 * PGSIZE). unfold PGSIZE. lia.
Qed.

Ltac pages k Hk :=
  assert (k = 0 \/ k = 1 \/ k = 2 \/ k = 3 \/ k = 4 \/ k = 5 \/ k = 6 \/ k = 7)
    as [->|[->|[->|[->|[->|[->|[->| ->]]]]]]] by lia; clear Hk.

Lemma ref8_pg f n i k : 0 <= k < 8 ->
  ref (kst8 f n i) (pg k) = if k =? 3 then n else if k <=? 4 then 1 else 0.
Proof. intros Hk. pages k Hk; reflexivity. Qed.

Lemma heap8 f n i : 1 <= n < 2 ^ 31 -> heap_ok (kst8 f n i) [pg 5; pg 6; pg 7].
Proof.
  intros Hn. split; [|split; [|split]].
  - split; [done|]. split; [by apply pg_ok|]. split; [reflexivity|]. split; [by apply pg_ok|].
    split; [reflexivity|]. split; [by apply pg_ok|]. reflexivity.
  - repeat constructor; rewrite ?elem_of_cons, ?elem_of_nil; vm_compute; intuition discriminate.
  - intros p (k & Hk & ->)%pages8. rewrite ref8_pg, !elem_of_cons, elem_of_nil by done.
    pages k Hk; simpl; split; try lia; try (vm_compute; intuition discriminate); auto.
  - intros p (k & Hk & ->)%pages8. rewrite ref8_pg by done.
    destruct (k =? 3), (k <=? 4); lia.
Qed.

Lemma load_zero a : load64 (fun _ => Byte.x00) a = 0.
Proof. reflexivity. Qed.

Lemma load_upd m a b x : ~ (a <= x < a + 8) -> load64 (upd m x b) a = load64 m a.
Proof. intros Hx. apply load64_ext. intros y Hy. unfold upd. by rewrite (proj2 (Z.eqb_neq y x)) by lia. Qed.

(** Every entry but the three is zero. *)
Lemma load8 f k i : 0 <= k < 5 -> 0 <= i < 512 -> k <> 3 ->
  load64 (mem8 f) (pg k + 8 * i) =
  if i =? 0 then match k with
                 | 0 => Z.lor (PA2PTE (pg 1)) PTE_V
                 | 1 => Z.lor (PA2PTE (pg 2)) PTE_V
                 | 2 => u64 (mkpte (pg 3) f)
                 | _ => 0
                 end
  else 0.
Proof.
  intros Hk Hi H3. unfold mem8. rewrite load_upd by (unfold pg, PGSIZE; lia).
  destruct (Z.eqb_spec i 0) as [->|Hi0].
  - rewrite Z.add_0_r.
    assert (k = 0 \/ k = 1 \/ k = 2 \/ k = 4) as [->|[->|[->| ->]]] by lia.
    + rewrite load64_store64_other by (unfold pg, PGSIZE; lia). reflexivity.
    + rewrite load64_store64_other by (unfold pg, PGSIZE; lia). reflexivity.
    + apply load64_store64_same.
    + rewrite load64_store64_other by (unfold pg, PGSIZE; lia). reflexivity.
  - rewrite !load64_store64_other by (unfold pg, PGSIZE; lia). apply load_zero.
Qed.

Lemma next8 f k i : 0 <= k < 5 -> 0 <= i < 512 -> k <> 3 -> k <> 2 ->
  next (mem8 f) (pg k) i = if (i =? 0) && (k <? 2) then Some (pg (k + 1)) else None.
Proof.
  intros Hk Hi H3 H2. unfold next. rewrite load8 by done.
  destruct (i =? 0); [|done].
  assert (k = 0 \/ k = 1 \/ k = 4) as [->|[->| ->]] by lia; reflexivity.
Qed.

Lemma tab8_old f p : is_path p ->
  tab (mem8 f) (pg 0) p = if decide (Forall (fun i => i = 0) p) then Some (pg (Z.of_nat (length p))) else None.
Proof.
  intros [Hp Hl]. destruct p as [|i [|j [|]]]; [done| | |simpl in Hl; lia].
  - rewrite Forall_singleton in Hp. cbn [tab]. rewrite next8 by lia.
    destruct (Z.eqb_spec i 0) as [->|Hi]; [done|]. rewrite decide_False; [done|]. by rewrite Forall_singleton.
  - apply Forall_cons in Hp as [Hi Hj]. rewrite Forall_singleton in Hj. cbn [tab]. rewrite next8 by lia.
    destruct (Z.eqb_spec i 0) as [->|Hi0].
    + cbn [andb Z.ltb Z.compare]. change (pg (0 + 1)) with (pg 1). rewrite next8 by lia.
      destruct (Z.eqb_spec j 0) as [->|Hj0]; [done|].
      rewrite decide_False; [done|]. by rewrite !Forall_cons_iff; intros (_ & ? & _).
    + simpl. rewrite decide_False; [done|]. by rewrite !Forall_cons_iff; intros (? & _).
Qed.

Lemma tab8_new f p : is_path p -> tab (mem8 f) (pg 4) p = if decide (p = []) then Some (pg 4) else None.
Proof.
  intros [Hp Hl]. destruct p as [|i p]; [done|]. apply Forall_cons in Hp as [Hi Hp].
  cbn [tab]. rewrite next8 by lia. rewrite andb_false_r. by rewrite decide_False.
Qed.


Lemma zeros_eq (p p' : list Z) :
  Forall (fun i => i = 0) p -> Forall (fun i => i = 0) p' -> length p = length p' -> p = p'.
Proof.
  intros Hp. revert p'. induction Hp as [|i p -> Hp IH]; intros p' Hp' Hl;
    destruct Hp' as [|j p' -> Hp']; try discriminate Hl; [done|]. f_equal. apply IH; [done|]. by injection Hl.
Qed.

Lemma pg_inj k k' : pg k = pg k' -> k = k'.
Proof. unfold pg, PGSIZE. lia. Qed.

Lemma table8_old f q : is_table (mem8 f) (pg 0) q -> exists k, 0 <= k < 3 /\ q = pg k.
Proof.
  intros (p & Hp & E). rewrite tab8_old in E by done. case_decide; [|done]. injection E as <-.
  exists (Z.of_nat (length p)). destruct Hp. split; [lia|done].
Qed.

Lemma table8_new f q : is_table (mem8 f) (pg 4) q -> q = pg 4.
Proof. intros (p & Hp & E). rewrite tab8_new in E by done. case_decide; congruence. Qed.

Lemma pt8_old f n i : pt_ok (kst8 f n i) (pg 0).
Proof.
  constructor; cbn [k_mem kst8].
  - intros q (k & Hk & ->)%table8_old. split; [apply pg_ok; lia|]. rewrite ref8_pg by lia.
    rewrite (proj2 (Z.eqb_neq k 3)), (proj2 (Z.leb_le k 4)) by lia. done.
  - intros p p' q Hp Hp'. rewrite !tab8_old by done. case_decide; case_decide; try done.
    intros [= <-] [= E%pg_inj]. apply zeros_eq; [done|done|lia].
  - intros p j t (Hp & Hj & Hl)%path_app. rewrite tab8_old by done. case_decide; [|done]. intros [= <-].
    rewrite load8 by lia. destruct (j =? 0); [|done].
    destruct p as [|? [|]]; [reflexivity|reflexivity|simpl in Hl; lia].
Qed.

Lemma pt8_new f n i : pt_ok (kst8 f n i) (pg 4).
Proof.
  constructor; cbn [k_mem kst8].
  - intros q ->%table8_new. split; [by apply pg_ok|]. by rewrite ref8_pg.
  - intros p p' q Hp Hp'. rewrite !tab8_new by done. by case_decide; case_decide; subst.
  - intros p j t (Hp & Hj & Hl)%path_app. rewrite tab8_new by done. case_decide; [|done]. intros [= <-].
    rewrite load8 by lia. by destruct (j =? 0).
Qed.

Lemma pte8_old f : 0 <= f < 1024 -> pte_of (mem8 f) (pg 0) 0 = mkpte (pg 3) f.
Proof.
  intros Hf. unfold pte_of, slot. rewrite tab8_old by apply path_va. rewrite decide_True by by repeat constructor.
  change (pg (Z.of_nat _)) with (pg 2). rewrite load8 by done. apply u64_small, mkpte_range; [|done].
  by apply page_ok_56, pg_ok.
Qed.

Lemma unlocked8 f n i : unlocked (kst8 f n i).
Proof. split_and!; simpl; try done; lia. Qed.


Lemma pte8_new f va : pte_of (mem8 f) (pg 4) va = 0.
Proof. unfold pte_of, slot. by rewrite tab8_new by apply path_va. Qed.

Lemma mappages_correct_witness :
  exists r s', mappages (pg 4) 0 PGSIZE (pg 3) user_rwx (kst8 user_rwx 1 0) = Ok r s'.
Proof.
  destruct (mappages_correct (pg 4) 0 PGSIZE (pg 3) user_rwx 1 (kst8 user_rwx 1 0) [pg 5; pg 6; pg 7])
    as (r & k & s' & l' & H1 & _).
  - apply unlocked8.
  - by apply heap8.
  - apply pt8_new.
  - lia.
  - reflexivity.
  - rewrite MAXVA_eq. unfold PGSIZE. lia.
  - reflexivity.
  - by apply page_ok_56, pg_ok.
  - vm_compute. discriminate.
  - done.
  - intros i Hi. cbn [k_mem kst8]. by rewrite pte8_new.
  - exists r, s'. exact H1.
Defined.

Lemma uvmunmap_correct_witness :
  exists s', uvmunmap (pg 0) 0 1 true (kst8 user_rwx 1 1) = Ok tt s'.
Proof.
  destruct (uvmunmap_correct (pg 0) 0 1 true (kst8 user_rwx 1 1) [pg 5; pg 6; pg 7]) as (s' & l' & H1 & _).
  - apply unlocked8.
  - by apply heap8.
  - apply pt8_old.
  - reflexivity.
  - lia.
  - rewrite MAXVA_eq. unfold PGSIZE. lia.
  - assert (E : pas_of (mem8 user_rwx) (pg 0) 0 1 = [pg 3]).
    { unfold pas_of. cbn [seq List.map Z.of_nat Z.mul Z.add]. rewrite pte8_old by done. f_equal. }
    split.
    + intros i Hi e. assert (e = mkpte (pg 3) user_rwx) as ->.
      { unfold e. replace (0 + Z.of_nat i * PGSIZE) with 0 by (assert (i = 0%nat) as -> by lia; reflexivity). exact (pte8_old user_rwx user_rwx_range). } split; [reflexivity|]. vm_compute. discriminate.
    + intros _ q. cbn [k_mem kst8]. rewrite E. intros ->%list_elem_of_singleton.
      split; [apply pg_ok; lia|]. split.
      * intros (k & Hk & E'%pg_inj)%(table8_old user_rwx). lia.
      * rewrite ref8_pg by lia. unfold cnt. simpl. lia.
  - exists s'. exact H1.
Defined.

Lemma uvmalloc_correct_witness :
  exists r s', uvmalloc (pg 4) 0 100 (kst8 user_rwx 1 0) = Ok r s' /\ unlocked s'.
Proof.
  destruct (uvmalloc_correct (pg 4) 0 100 (kst8 user_rwx 1 0) [pg 5; pg 6; pg 7]) as (r & s' & l' & H1 & H2 & _).
  - apply unlocked8.
  - by apply heap8.
  - apply pt8_new.
  - lia.
  - rewrite MAXVA_eq. lia.
  - intros va _. apply pte8_new.
  - exists r, s'. split; [exact H1|exact H2].
Defined.

End Machine.
