(* ===== verification/Cow.v ===== *)
(** Copy-on-write: uvmcopy() of kernel/vm.c shares the parent's pages with
    the child, and copy_on_write() of kernel/trap.c gives a process its own
    copy of a page it writes to.  [user_store] is a store instruction of a
    process, with the page fault and the retry. *)

From stdpp Require Import base tactics list strings.
From Stdlib Require Import ZArith Lia.
From coqutil Require Import Byte.
From S2P Require Import Prelude Riscv Mem Core Spinlock Kalloc Vm Pt Uvm Machine.

Local Open Scope Z_scope.
Local Open Scope kern_scope.

(** ** Entries of shared pages *)

(** What uvmcopy() makes of an entry: not writable, marked copy-on-write. *)
Definition cow (e : Z) : Z := Z.lor (Z.land e (Z.lnot PTE_W)) PTE_COW.

(** What copy_on_write() makes of its flags: writable, not marked. *)
Definition uncow (e : Z) : Z := Z.lor (Z.land e (Z.lnot PTE_COW)) PTE_W.

(** The first [n] pages of an address space marked. *)
Definition cow_range (f : Z -> Z) (n : Z) : Z -> Z :=
  fun va => if (0 <=? va) && (va <? n * PGSIZE) then cow (f va) else f va.

(** The child's address space: the first [n] pages of the parent's, marked. *)
Definition shared (g f : Z -> Z) (n : Z) : Z -> Z :=
  fun va => if (0 <=? va) && (va <? n * PGSIZE) then cow (f va) else g va.

(** The byte a process with page table [root] has at [va], and a store to it. *)
Definition uaddr (m : mem) (root va : Z) : Z := PTE2PA (pte_of m root va) + va mod PGSIZE.
Definition ubyte (m : mem) (root va : Z) : byte := m (uaddr m root va).
Definition ustore (root va : Z) (b : byte) (s : kst) : kst :=
  set_mem (upd (k_mem s) (uaddr (k_mem s) root va) b) s.

Lemma testbit_PA2PTE pa k : k < 10 -> Z.testbit (PA2PTE pa) k = false.
Proof.
  intros Hk. unfold PA2PTE. destruct (Z.ltb_spec k 0); [by apply Z.testbit_neg_r|].
  apply Z.shiftl_spec_low. lia.
Qed.

(** Changing flag bits of an entry changes the flags only. *)
Lemma flip_mkpte pa f w c :
  0 <= w < 10 -> 0 <= c < 10 -> w <> 0 ->
  Z.lor (Z.land (mkpte pa f) (Z.lnot (Z.shiftl 1 w))) (Z.shiftl 1 c) =
  mkpte pa (Z.lor (Z.land f (Z.lnot (Z.shiftl 1 w))) (Z.shiftl 1 c)).
Proof.
  intros Hw Hc Hw0. unfold mkpte, PTE_V. apply Z.bits_inj'. intros n Hn.
  rewrite !Z.lor_spec, !Z.land_spec, !Z.lor_spec, Z.lnot_spec, !Z.shiftl_1_l, !Z.pow2_bits_eqb by lia.
  destruct (Z.eqb_spec w n) as [<-|].
  - rewrite testbit_PA2PTE, (proj2 (Z.eqb_neq 0 w)) by lia.
    by destruct (Z.testbit f w), (c =? w).
  - rewrite !andb_true_r. destruct (Z.testbit (PA2PTE pa) n), (Z.testbit f n), (0 =? n), (c =? n); done.
Qed.

Lemma cow_mkpte pa f : cow (mkpte pa f) = mkpte pa (cow f).
Proof. apply flip_mkpte; lia. Qed.

Lemma uncow_mkpte pa f : uncow (mkpte pa f) = mkpte pa (uncow f).
Proof. apply flip_mkpte; lia. Qed.

Lemma flags_range f : 0 <= f < 1024 <-> Z.shiftr f 10 = 0.
Proof.
  rewrite Z.shiftr_div_pow2 by lia. change (2 ^ 10) with 1024. split.
  - apply Z.div_small.
  - intros E. pose proof (Z.div_mod f 1024 ltac:(lia)). pose proof (Z.mod_pos_bound f 1024 ltac:(lia)). lia.
Qed.

Lemma cow_range_flags f : 0 <= f < 1024 -> 0 <= cow f < 1024.
Proof. rewrite !flags_range. intros E. unfold cow. by rewrite shiftr_cow. Qed.

Lemma uncow_range_flags f : 0 <= f < 1024 -> 0 <= uncow f < 1024.
Proof. rewrite !flags_range. intros E. unfold uncow. by rewrite shiftr_cow. Qed.

Lemma mkpte_V_idem pa f : mkpte pa (Z.lor f PTE_V) = mkpte pa f.
Proof. unfold mkpte. by rewrite <- !Z.lor_assoc, Z.lor_diag. Qed.

Lemma has_mkpte p f k : 0 < k < 10 -> has (mkpte p f) (Z.shiftl 1 k) = has f (Z.shiftl 1 k).
Proof.
  intros Hk. rewrite !has_bit by lia. unfold mkpte. rewrite !Z.lor_spec, testbit_PA2PTE by lia.
  unfold PTE_V. rewrite Z.shiftl_spec by lia. rewrite (Z.bits_above_log2 1 (k - 0)) by (simpl; lia).
  by rewrite orb_false_r.
Qed.

Lemma has_cow e k : 0 <= k ->
  has (cow e) (Z.shiftl 1 k) = ((has e (Z.shiftl 1 k) && negb (k =? 2)) || (k =? 8)).
Proof.
  intros Hk. rewrite !has_bit by done. unfold cow, PTE_W, PTE_COW.
  rewrite Z.lor_spec, Z.land_spec, Z.lnot_spec, !Z.shiftl_1_l, !Z.pow2_bits_eqb by lia.
  by rewrite (Z.eqb_sym 2 k), (Z.eqb_sym 8 k).
Qed.

Lemma has_uncow e k : 0 <= k ->
  has (uncow e) (Z.shiftl 1 k) = ((has e (Z.shiftl 1 k) && negb (k =? 8)) || (k =? 2)).
Proof.
  intros Hk. rewrite !has_bit by done. unfold uncow, PTE_W, PTE_COW.
  rewrite Z.lor_spec, Z.land_spec, Z.lnot_spec, !Z.shiftl_1_l, !Z.pow2_bits_eqb by lia.
  by rewrite (Z.eqb_sym 2 k), (Z.eqb_sym 8 k).
Qed.

Lemma pte_of_page m root va : pte_of m root (PGROUNDDOWN va) = pte_of m root va.
Proof. unfold pte_of, slot. by rewrite !PX_rounddown by lia. Qed.

Section Cow.
Context `{KernelImage}.

(** ** Two page tables *)

Definition disj (s : kst) (r1 r2 : Z) : Prop :=
  forall q, is_table (k_mem s) r1 q -> ~ is_table (k_mem s) r2 q.

(** Work on one table leaves the other one alone. *)
Lemma pt_step_other r1 r2 qs s l s' l' :
  pt_step r1 qs s l s' l' -> heap_ok s l -> pt_ok s r2 -> disj s r1 r2 ->
  (forall q, is_table (k_mem s) r2 q -> same_on (k_mem s) (k_mem s') q PGSIZE) /\
  pt_ok s' r2 /\ disj s' r1 r2.
Proof.
  intros Hs Hh Hpt Hd.
  assert (Hsame : forall q, is_table (k_mem s) r2 q ->
            same_on (k_mem s) (k_mem s') q PGSIZE /\ ref s' q = ref s q).
  { intros q Hq. pose proof (pt_table_used _ _ _ _ Hh Hpt Hq) as Hl.
    destruct (pt_page _ _ Hpt q Hq) as [Hok _].
    split; [|by apply Hs]. apply Hs; [done|done|]. intros Ht. by apply (Hd q). }
  split_and!.
  - intros q Hq. by apply Hsame.
  - by eapply pt_ok_same.
  - intros q Hq1 Hq2. apply (is_table_same (k_mem s)) in Hq2.
    + apply (ps_new _ _ _ _ _ _ Hs) in Hq1 as [Hq1|Hq1]; [by apply (Hd q)|].
      by apply (pt_table_used _ _ _ _ Hh Hpt Hq2).
    + apply tab_same. intros q' Hq'. by apply Hsame.
Qed.

Lemma pt_free_other r1 r2 pas s l s' l' :
  pt_free r1 pas s l s' l' -> heap_ok s l -> pt_ok s r2 -> disj s r1 r2 ->
  (forall q, q ∈ pas -> ~ is_table (k_mem s) r2 q) ->
  (forall q, is_table (k_mem s) r2 q -> same_on (k_mem s) (k_mem s') q PGSIZE) /\
  pt_ok s' r2 /\ disj s' r1 r2.
Proof.
  intros Hs Hh Hpt Hd Hpas.
  assert (Hsame : forall q, is_table (k_mem s) r2 q ->
            same_on (k_mem s) (k_mem s') q PGSIZE /\ ref s' q = ref s q).
  { intros q Hq. destruct (pt_page _ _ Hpt q Hq) as [Hok Hr].
    assert (Hr' : ref s' q = ref s q).
    { rewrite (pf_ref _ _ _ _ _ _ Hs) by done. unfold cnt.
      rewrite (proj1 (count_occ_not_In Z.eq_dec pas q)); [lia|].
      rewrite <- list_elem_of_In. intros Hin. by apply (Hpas q). }
    split; [|done]. apply Hs; [done|lia|]. intros Ht. by apply (Hd q). }
  split_and!.
  - intros q Hq. by apply Hsame.
  - by eapply pt_ok_same.
  - intros q Hq1 Hq2. apply (is_table_same (k_mem s)) in Hq2.
    + apply (Hd q); [|done]. by apply (is_table_same _ _ _ (pf_tab _ _ _ _ _ _ Hs)).
    + apply tab_same. intros q' Hq'. by apply Hsame.
Qed.

(** ** uvmcopy() *)

(** What fork() may share: [n] mapped pages of the parent, each an allocator
    page, and room for them in the child. *)
Record forkable (old new : Z) (n : nat) (s : kst) : Prop := {
  fk_old : pt_ok s old;
  fk_new : pt_ok s new;
  fk_disj : disj s old new;
  fk_leaf : forall i, (i < n)%nat -> exists pa f,
    pte_of (k_mem s) old (Z.of_nat i * PGSIZE) = mkpte pa f /\ 0 <= f < 1024 /\
    page_ok pa /\ ~ is_table (k_mem s) old pa /\ ~ is_table (k_mem s) new pa /\
    1 <= ref s pa /\ ref s pa + Z.of_nat n < 2 ^ 31;
  fk_zero : forall va, 0 <= va < Z.of_nat n * PGSIZE -> pte_of (k_mem s) new va = 0
}.

(** The first [n] pages of the parent. *)
Definition ppages (s : kst) (old : Z) (n : nat) : list Z := pas_of (k_mem s) old 0 n.

(** [j] pages of the parent are marked, [k] are mapped in the child and
    counted. *)
Record sharing (old new : Z) (j k : nat) (s : kst) (l : list Z) (s' : kst) (l' : list Z) : Prop := {
  sh_core : core_eqv (k_core s) (k_core s');
  sh_kpt : k_kpt s' = k_kpt s;
  sh_heap : heap_ok s' l';
  sh_old : pt_ok s' old;
  sh_new : pt_ok s' new;
  sh_disj : disj s' old new;
  sh_told : forall p, is_path p -> tab (k_mem s') old p = tab (k_mem s) old p;
  sh_tnew : forall q, is_table (k_mem s') new q -> is_table (k_mem s) new q \/ q ∈ l;
  sh_frame : forall q, page_ok q -> q ∉ l -> ~ is_table (k_mem s) old q -> ~ is_table (k_mem s) new q ->
    same_on (k_mem s) (k_mem s') q PGSIZE;
  sh_ref : forall q, page_ok q -> q ∉ l -> ref s' q = ref s q + cnt (ppages s old k) q;
  sh_sub : forall q, q ∈ l' -> q ∈ l;
  sh_pold : as_eq (pte_of (k_mem s') old) (cow_range (pte_of (k_mem s) old) (Z.of_nat j));
  sh_pnew : as_eq (pte_of (k_mem s') new) (shared (pte_of (k_mem s) new) (pte_of (k_mem s) old) (Z.of_nat k))
}.

Lemma in_first_S i va :
  (0 <=? va) && (va <? (Z.of_nat i + 1) * PGSIZE) =
  (PGROUNDDOWN va =? Z.of_nat i * PGSIZE) || ((0 <=? va) && (va <? Z.of_nat i * PGSIZE)).
Proof.
  rewrite page_of_iff by (by apply Z.mod_mul). apply eq_true_iff_eq. unfold PGSIZE.
  rewrite orb_true_iff, !andb_true_iff, !Z.leb_le, !Z.ltb_lt. lia.
Qed.

Lemma cow_range_S f i va :
  (forall v, f (PGROUNDDOWN v) = f v) ->
  cow_range f (Z.of_nat i + 1) va =
  if PGROUNDDOWN va =? Z.of_nat i * PGSIZE then cow (f (Z.of_nat i * PGSIZE))
  else cow_range f (Z.of_nat i) va.
Proof.
  intros Hf. unfold cow_range. rewrite in_first_S.
  destruct (Z.eqb_spec (PGROUNDDOWN va) (Z.of_nat i * PGSIZE)) as [E|E]; simpl; [|done].
  by rewrite <- E, Hf.
Qed.

Lemma shared_S g f i va :
  (forall v, f (PGROUNDDOWN v) = f v) ->
  shared g f (Z.of_nat i + 1) va =
  if PGROUNDDOWN va =? Z.of_nat i * PGSIZE then cow (f (Z.of_nat i * PGSIZE))
  else shared g f (Z.of_nat i) va.
Proof.
  intros Hf. unfold shared. rewrite in_first_S.
  destruct (Z.eqb_spec (PGROUNDDOWN va) (Z.of_nat i * PGSIZE)) as [E|E]; simpl; [|done].
  by rewrite <- E, Hf.
Qed.

Lemma cow_range_0 f : as_eq (cow_range f 0) f.
Proof. intros va _. unfold cow_range. destruct (_ && _) eqn:E; [bools; lia|done]. Qed.

Lemma shared_0 g f : as_eq (shared g f 0) g.
Proof. intros va _. unfold shared. destruct (_ && _) eqn:E; [bools; lia|done]. Qed.

Lemma ppages_S s old i :
  ppages s old (S i) = ppages s old i ++ [PTE2PA (pte_of (k_mem s) old (Z.of_nat i * PGSIZE))].
Proof. unfold ppages. by rewrite pas_of_S, Z.add_0_l. Qed.

Lemma sharing_0 old new n s l :
  heap_ok s l -> forkable old new n s -> sharing old new 0 0 s l s l.
Proof.
  intros Hh Hf. constructor; try done; try apply Hf; auto with xv6.
  - intros q Hq _. unfold cnt. simpl. lia.
  - intros va Hva. symmetry. by apply cow_range_0.
  - intros va Hva. symmetry. by apply shared_0.
Qed.

(** Marking the next page of the parent. *)
Lemma sharing_mark old new n i s l s1 l1 t :
  forkable old new n s -> (i < n)%nat -> Z.of_nat n * PGSIZE <= MAXVA ->
  sharing old new i i s l s1 l1 ->
  tab (k_mem s1) old [PX 2 (Z.of_nat i * PGSIZE); PX 1 (Z.of_nat i * PGSIZE)] = Some t ->
  let e := pte_of (k_mem s) old (Z.of_nat i * PGSIZE) in
  let s2 := set_mem (store64 (k_mem s1) (t + 8 * PX 0 (Z.of_nat i * PGSIZE)) (cow e)) s1 in
  sharing old new (S i) i s l s2 l1.
Proof.
  intros Hf Hi Hmax Hs Et e s2.
  destruct (fk_leaf _ _ _ _ Hf i Hi) as (pa & f & Ee & Hfl & Hpa & _). fold e in Ee.
  assert (Hva : 0 <= Z.of_nat i * PGSIZE < MAXVA) by (unfold PGSIZE in *; lia).
  destruct (set_pte old s1 l1 _ t (cow e) (sh_heap _ _ _ _ _ _ _ _ Hs) (sh_old _ _ _ _ _ _ _ _ Hs) Hva Et)
    as [Hp Hv]. fold s2 in Hp, Hv.
  destruct (pt_step_other old new [] s1 l1 s2 l1) as (Hsame & Hnew & Hd); try apply Hs; [done|].
  assert (Htn : forall p, is_path p -> tab (k_mem s2) new p = tab (k_mem s1) new p) by by apply tab_same.
  constructor; try done; try apply Hs; try apply Hp.
  - intros p Hpp. rewrite <- (sh_told _ _ _ _ _ _ _ _ Hs) by done.
    apply (leaf_tab s1 old (PX 2 (Z.of_nat i * PGSIZE)) (PX 1 (Z.of_nat i * PGSIZE))); auto with xv6; [apply Hs|].
    apply PX_range. lia.
  - intros q Hq%(is_table_same _ _ _ Htn). by apply (sh_tnew _ _ _ _ _ _ _ _ Hs).
  - intros q Hq Hl Hno Hnn. eapply same_on_trans; [by apply Hs|]. apply Hp; [done| |].
    + intros Hin. by apply Hl, (sh_sub _ _ _ _ _ _ _ _ Hs).
    + intros Ht. apply Hno. by apply (is_table_same _ _ _ (sh_told _ _ _ _ _ _ _ _ Hs)).
  - intros va Hva'. rewrite Hv by done. replace (Z.of_nat (S i)) with (Z.of_nat i + 1) by lia.
    rewrite cow_range_S by apply pte_of_page. rewrite (PGROUNDDOWN_id (_ * _)) by by apply Z.mod_mul.
    destruct (_ =? _); [|by apply (sh_pold _ _ _ _ _ _ _ _ Hs)].
    fold e. rewrite Ee, cow_mkpte. apply u64_small, mkpte_range; [by apply page_ok_56|by apply cow_range_flags].
  - intros va Hva'. rewrite (pte_of_same _ _ _ _ Hsame). by apply (sh_pnew _ _ _ _ _ _ _ _ Hs).
Qed.

(** Mapping it in the child and counting the reference. *)
Lemma sharing_map old new n i s l s2 l2 s3 l3 c pa f :
  heap_ok s l -> forkable old new n s -> (i < n)%nat ->
  sharing old new (S i) i s l s2 l2 ->
  pte_of (k_mem s) old (Z.of_nat i * PGSIZE) = mkpte pa f -> 0 <= f < 1024 -> page_ok pa -> 1 <= ref s pa ->
  ~ is_table (k_mem s) old pa -> ~ is_table (k_mem s) new pa ->
  pt_step new [] s2 l2 s3 l3 ->
  as_eq (pte_of (k_mem s3) new) (mapped (pte_of (k_mem s2) new) (Z.of_nat i * PGSIZE) 1 pa (cow f)) ->
  core_eqv (k_core s3) c ->
  let s4 := set_core c (set_ref (fupd (k_ref s3) (PA2PAGE_ID pa) (ref s3 pa + 1)) s3) in
  heap_ok s4 l3 -> sharing old new (S i) (S i) s l s4 l3.
Proof.
  intros Hh Hf Hi Hs Ee Hfl Hpa Hr Hno Hnn Hp Hv Hc s4 Hh4.
  assert (Hpal : pa ∉ l) by (eapply heap_ok_used; [done|done|lia]).
  assert (Hsub : forall q, q ∉ l -> q ∉ l2) by (intros q Hq Hq2; by apply Hq, (sh_sub _ _ _ _ _ _ _ _ Hs)).
  pose proof (is_table_same _ _ _ (sh_told _ _ _ _ _ _ _ _ Hs)) as Hto.
  assert (Hnn2 : ~ is_table (k_mem s2) new pa) by (by intros [?|?]%(sh_tnew _ _ _ _ _ _ _ _ Hs)).
  destruct (pt_step_other new old [] s2 l2 s3 l3) as (Hsame & Hold & Hd); try apply Hs; [done| |].
  { intros q Hq1 Hq2. by apply (sh_disj _ _ _ _ _ _ _ _ Hs q). }
  assert (Hto3 : forall p, is_path p -> tab (k_mem s3) old p = tab (k_mem s2) old p) by by apply tab_same.
  assert (Href4 : forall q, page_ok q -> ref s4 q = ref s3 q + cnt [pa] q).
  { intros q Hq. change (ref s4 q) with (ref (set_ref (fupd (k_ref s3) (PA2PAGE_ID pa) (ref s3 pa + 1)) s3) q).
    rewrite ref_upd, cnt_one by done. case_decide; case_decide; subst; try done; lia. }
  assert (Hpt4 : forall r, pt_ok s3 r -> ~ is_table (k_mem s3) r pa -> pt_ok s4 r).
  { intros r Hr3 Hn3. eapply pt_ok_same; [|exact Hr3]. intros q Hq. split; [done|].
    destruct (pt_page _ _ Hr3 q Hq) as [Hok _]. rewrite Href4, cnt_one, decide_False by
      (done || by intros ->). lia. }
  constructor; try done.
  - eapply core_eqv_trans; [apply Hs|]. eapply core_eqv_trans; [apply Hp|done].
  - simpl. rewrite (ps_kpt _ _ _ _ _ _ Hp). apply Hs.
  - apply Hpt4; [done|]. rewrite (is_table_same _ _ _ Hto3). by rewrite Hto.
  - apply Hpt4; [apply Hp|]. intros [?|?]%(ps_new _ _ _ _ _ _ Hp); [done|]. by apply (Hsub pa).
  - intros q Hq1 Hq2. by apply (Hd q).
  - intros p Hpp. simpl. rewrite Hto3 by done. by apply Hs.
  - intros q Hq. apply (ps_new _ _ _ _ _ _ Hp) in Hq as [Hq|Hq].
    + by apply (sh_tnew _ _ _ _ _ _ _ _ Hs).
    + right. by apply (sh_sub _ _ _ _ _ _ _ _ Hs).
  - intros q Hq Hl Ho Hn. eapply same_on_trans; [by apply Hs|]. apply Hp; [done|by apply Hsub|].
    by intros [?|?]%(sh_tnew _ _ _ _ _ _ _ _ Hs).
  - intros q Hq Hl. rewrite Href4, ppages_S, cnt_app, Ee, mkpte_pa by
      (done || apply Hpa || by apply page_ok_56).
    rewrite (ps_ref _ _ _ _ _ _ Hp), (sh_ref _ _ _ _ _ _ _ _ Hs) by auto. lia.
  - intros q Hq. by apply (sh_sub _ _ _ _ _ _ _ _ Hs), (ps_sub _ _ _ _ _ _ Hp).
  - intros va Hva. simpl. rewrite (pte_of_same _ _ _ _ Hsame). by apply (sh_pold _ _ _ _ _ _ _ _ Hs).
  - intros va Hva. simpl. rewrite Hv by done. replace (Z.of_nat (S i)) with (Z.of_nat i + 1) by lia.
    rewrite shared_S by apply pte_of_page. rewrite (mapped_S _ _ 0) by (lia || by apply Z.mod_mul).
    rewrite !Z.add_0_r, Ee, cow_mkpte. destruct (_ =? _); [done|].
    rewrite mapped_0 by done. by apply (sh_pnew _ _ _ _ _ _ _ _ Hs).
Qed.

(** A step on the child's table that maps nothing. *)
Lemma sharing_more old new j k s l s2 l2 s3 l3 :
  heap_ok s l -> (forall q, q ∉ l -> q ∉ l2) -> sharing old new j k s l s2 l2 -> pt_step new [] s2 l2 s3 l3 ->
  as_eq (pte_of (k_mem s3) new) (pte_of (k_mem s2) new) -> sharing old new j k s l s3 l3.
Proof.
  intros Hh Hsub Hs Hp Hv.
  destruct (pt_step_other new old [] s2 l2 s3 l3) as (Hsame & Hold & Hd); try apply Hs; [done| |].
  { intros q Hq1 Hq2. by apply (sh_disj _ _ _ _ _ _ _ _ Hs q). }
  constructor; try apply Hp; try done.
  - eapply core_eqv_trans; [apply Hs|apply Hp].
  - rewrite (ps_kpt _ _ _ _ _ _ Hp). apply Hs.
  - intros q Hq1 Hq2. by apply (Hd q).
  - intros p Hpath. rewrite (tab_same _ _ _ Hsame) by done. by apply Hs.
  - intros q [Hq|Hq]%(ps_new _ _ _ _ _ _ Hp); [by apply (sh_tnew _ _ _ _ _ _ _ _ Hs)|].
    right. by apply (sh_sub _ _ _ _ _ _ _ _ Hs).
  - intros q Hq Hl Ho Hn. eapply same_on_trans; [by apply Hs|]. apply Hp; [done|by apply Hsub|].
    by intros [?|?]%(sh_tnew _ _ _ _ _ _ _ _ Hs).
  - intros q Hq Hl. rewrite (ps_ref _ _ _ _ _ _ Hp) by auto. by apply Hs.
  - intros q Hq. by apply (sh_sub _ _ _ _ _ _ _ _ Hs), (ps_sub _ _ _ _ _ _ Hp).
  - intros va Hva. rewrite (pte_of_same _ _ _ _ Hsame). by apply (sh_pold _ _ _ _ _ _ _ _ Hs).
  - intros va Hva. rewrite Hv by done. by apply (sh_pnew _ _ _ _ _ _ _ _ Hs).
Qed.

(** When the child runs out of memory its mappings are dropped again; the
    marks in the parent stay. *)
Lemma sharing_undo old new n i j s l s3 l3 s4 l4 :
  heap_ok s l -> forkable old new n s -> (i <= n)%nat -> Z.of_nat n * PGSIZE <= MAXVA ->
  sharing old new j i s l s3 l3 ->
  pt_free new (pas_of (k_mem s3) new 0 i) s3 l3 s4 l4 ->
  pas_of (k_mem s3) new 0 i = ppages s old i ->
  as_eq (pte_of (k_mem s4) new) (unmapped (pte_of (k_mem s3) new) 0 (Z.of_nat i)) ->
  sharing old new j 0 s l s4 l4.
Proof.
  intros Hh Hf Hi Hmax Hs Hp Epas Hv.
  pose proof (is_table_same _ _ _ (sh_told _ _ _ _ _ _ _ _ Hs)) as Hto.
  assert (Hpp : forall q, q ∈ ppages s old i -> page_ok q /\ ~ (q ∈ l) /\ ~ is_table (k_mem s) old q).
  { intros q Hq. apply list_elem_of_In, in_map_iff in Hq as (k & <- & Hk%in_seq).
    destruct (fk_leaf _ _ _ _ Hf k) as (pa & f & E & Hfl & Hpa & Hn & _ & Hr & _); [lia|].
    rewrite Z.add_0_l, E, mkpte_pa by (done || apply Hpa || by apply page_ok_56).
    split; [done|]. split; [eapply heap_ok_used; [done|done|lia]|done]. }
  rewrite Epas in Hp.
  destruct (pt_free_other new old (ppages s old i) s3 l3 s4 l4) as (Hsame & Hold & Hd); try apply Hs; [done|..].
  { intros q Hq1 Hq2. by apply (sh_disj _ _ _ _ _ _ _ _ Hs q). }
  { intros q Hq. rewrite Hto. by apply Hpp. }
  assert (Hto4 : forall p, is_path p -> tab (k_mem s4) old p = tab (k_mem s3) old p) by by apply tab_same.
  assert (Href : forall q, page_ok q -> q ∉ l -> ref s4 q = ref s q).
  { intros q Hq Hl. rewrite (pf_ref _ _ _ _ _ _ Hp), (sh_ref _ _ _ _ _ _ _ _ Hs) by done. lia. }
  constructor; try apply Hp; try done.
  - eapply core_eqv_trans; [apply Hs|apply Hp].
  - rewrite (pf_kpt _ _ _ _ _ _ Hp). apply Hs.
  - intros q Hq1 Hq2. by apply (Hd q).
  - intros p Hpath. rewrite Hto4 by done. by apply Hs.
  - intros q Hq%(is_table_same _ _ _ (pf_tab _ _ _ _ _ _ Hp)). by apply (sh_tnew _ _ _ _ _ _ _ _ Hs).
  - intros q Hq Hl Ho Hn. eapply same_on_trans; [by apply Hs|]. apply Hp; [done| |].
    + rewrite Href by done. by eapply heap_ok_unfree.
    + by intros [?|?]%(sh_tnew _ _ _ _ _ _ _ _ Hs).
  - intros q Hq Hl. rewrite Href by done. unfold cnt. simpl. lia.
  - intros q Hq. destruct (heap_ok_free _ _ q (pf_heap _ _ _ _ _ _ Hp) Hq) as [Hok Hr].
    destruct (decide (q ∈ l)) as [|Hn]; [done|]. rewrite Href in Hr by done.
    pose proof (heap_ok_unfree s l q Hh Hok Hn). lia.
  - intros va Hva. rewrite (pte_of_same _ _ _ _ Hsame). by apply (sh_pold _ _ _ _ _ _ _ _ Hs).
  - intros va Hva. rewrite Hv, shared_0 by done. unfold unmapped.
    rewrite (sh_pnew _ _ _ _ _ _ _ _ Hs) by done. unfold shared. rewrite Z.add_0_l.
    destruct (_ && _) eqn:E; [|done]. bools. symmetry. eapply fk_zero; [done|unfold PGSIZE in *; lia].
Qed.

Lemma sharing_pas old new n i j s l s3 l3 :
  forkable old new n s -> (i <= n)%nat -> Z.of_nat n * PGSIZE <= MAXVA ->
  sharing old new j i s l s3 l3 -> pas_of (k_mem s3) new 0 i = ppages s old i.
Proof.
  intros Hf Hi Hmax Hs. apply List.map_ext_in. intros k Hk%in_seq. rewrite Z.add_0_l.
  rewrite (sh_pnew _ _ _ _ _ _ _ _ Hs) by (unfold PGSIZE in *; lia). unfold shared.
  rewrite (proj2 (Z.leb_le 0 _)), (proj2 (Z.ltb_lt _ _)) by (unfold PGSIZE; lia). simpl.
  destruct (fk_leaf _ _ _ _ Hf k) as (pa & f & E & Hfl & Hpa & _); [lia|].
  rewrite E, cow_mkpte, !mkpte_pa; try done; try apply Hpa; try by apply page_ok_56.
  by apply cow_range_flags.
Qed.

(** The child's mappings can be dropped again. *)
Lemma sharing_unmap old new n i j s l s3 l3 :
  heap_ok s l -> forkable old new n s -> (i <= n)%nat -> Z.of_nat n * PGSIZE <= MAXVA ->
  sharing old new j i s l s3 l3 -> can_unmap s3 new 0 i true.
Proof.
  intros Hh Hf Hi Hmax Hs. split.
  - intros k Hk e. unfold e. rewrite Z.add_0_l.
    rewrite (sh_pnew _ _ _ _ _ _ _ _ Hs) by (unfold PGSIZE in *; lia). unfold shared.
    rewrite (proj2 (Z.leb_le 0 _)), (proj2 (Z.ltb_lt _ _)) by (unfold PGSIZE; lia). simpl.
    destruct (fk_leaf _ _ _ _ Hf k) as (pa & f & E & Hfl & Hpa & _); [lia|].
    rewrite E, cow_mkpte. pose proof (cow_range_flags f Hfl) as Hc. split; [by apply mkpte_V|].
    rewrite mkpte_flags by done. intros E'. apply (f_equal (fun x => Z.testbit x 8)) in E'.
    unfold cow in E'. rewrite !Z.lor_spec in E'. change (Z.testbit PTE_COW 8) with true in E'.
    by rewrite orb_true_r in E'.
  - intros _ q. rewrite (sharing_pas old new n i j s l s3 l3) by done. intros Hq.
    assert (exists k, (k < i)%nat /\ q = PTE2PA (pte_of (k_mem s) old (Z.of_nat k * PGSIZE))) as (k & Hk & Eq).
    { apply list_elem_of_In, in_map_iff in Hq as (k & <- & Hk%in_seq). exists k. split; [lia|by rewrite Z.add_0_l]. }
    destruct (fk_leaf _ _ _ _ Hf k) as (pa & f & E & Hfl & Hpa & Ho & Hn & Hr & _); [lia|].
    rewrite E, mkpte_pa in Eq by (done || apply Hpa || by apply page_ok_56). subst q.
    assert (Hl : pa ∉ l) by (eapply heap_ok_used; [done|done|lia]).
    split; [done|]. split; [by intros [?|?]%(sh_tnew _ _ _ _ _ _ _ _ Hs)|].
    rewrite (sh_ref _ _ _ _ _ _ _ _ Hs) by done. lia.
Qed.

Lemma cnt_ppages_le s old i q : cnt (ppages s old i) q <= Z.of_nat i.
Proof.
  unfold cnt, ppages, pas_of. pose proof (count_occ_bound Z.eq_dec q
    (List.map (fun i => PTE2PA (pte_of (k_mem s) old (0 + Z.of_nat i * PGSIZE))) (seq 0 i))) as Hb.
  rewrite length_map, length_seq in Hb. lia.
Qed.

Lemma wp_uvmcopy old new sz s l (Q : Z -> kst -> Prop) :
  let n := npages 0 sz in
  unlocked s -> heap_ok s l -> 0 <= sz <= MAXVA -> forkable old new n s ->
  (forall s' l', sharing old new n n s l s' l' -> Q 0 s') ->
  (forall j s' l', (j <= n)%nat -> sharing old new j 0 s l s' l' -> Q (-1) s') ->
  wp (uvmcopy old new sz) Q s.
Proof.
  intros n Hu Hh Hsz Hf HQ Hfail. unfold uvmcopy.
  destruct (PGROUNDUP_max sz Hsz) as [Hm1 Hm2].
  destruct (PGROUNDUP_spec sz) as [_ Hm3]; [rewrite MAXVA_eq in *; unfold PGSIZE; lia|].
  assert (Hn : PGROUNDUP sz = Z.of_nat n * PGSIZE).
  { unfold n, npages. apply Z.mod_divide in Hm1 as [k Hk]; [|done].
    rewrite Hk, Z.sub_0_r, Z.div_mul by done. unfold PGSIZE in *. lia. }
  rewrite Hn in *.
  apply wp_loop with (n := Z.of_nat n)
    (I := fun k va s' => exists i l', k = Z.of_nat n - Z.of_nat i /\ (i <= n)%nat /\
       va = Z.of_nat i * PGSIZE /\ sharing old new i i s l s' l').
  - intros k va s1 Hk (i & l1 & -> & Hi & -> & Hs1).
    apply wp_if; intros Hlt; bools.
    2:{ wp_step. assert (i = n) as -> by (unfold PGSIZE in *; lia). by apply (HQ s1 l1). }
    assert (Hin : (i < n)%nat) by (unfold PGSIZE in *; lia).
    assert (Hva : 0 <= Z.of_nat i * PGSIZE < MAXVA) by (unfold PGSIZE in *; lia).
    destruct (fk_leaf _ _ _ _ Hf i Hin) as (pa & f & Ee & Hfl & Hpa & Ho & Hnn & Hr & Hrn).
    assert (Hpal : pa ∉ l) by (eapply heap_ok_used; [done|done|lia]).
    assert (Hpte : pte_of (k_mem s1) old (Z.of_nat i * PGSIZE) = mkpte pa f).
    { rewrite (sh_pold _ _ _ _ _ _ _ _ Hs1) by done. unfold cow_range.
      rewrite (proj2 (Z.ltb_ge (Z.of_nat i * PGSIZE) _)), andb_false_r by lia. done. }
    assert (HV : has (pte_of (k_mem s1) old (Z.of_nat i * PGSIZE)) PTE_V = true) by (rewrite Hpte; by apply mkpte_V).
    destruct (slot_valid _ _ _ HV) as [t Et].
    wp_step. apply wp_walk; [lia|]. unfold slot. rewrite Et.
    rewrite (proj2 (Z.eqb_neq _ 0)) by (by eapply (table_nonzero s1 old); [apply Hs1|]).
    unfold ld64, st64. wp_step. wp_step. rewrite (load_slot _ _ _ _ Et), HV. cbn [negb]. rewrite Hpte.
    fold (cow (mkpte pa f)). wp_step. wp_step.
    pose proof (sharing_mark old new n i s l s1 l1 t Hf Hin ltac:(lia) Hs1 Et) as Hs2.
    cbv zeta in Hs2. rewrite Ee in Hs2. set (s2 := set_mem _ s1) in *.
    rewrite mkpte_pa by (done || apply Hpa || by apply page_ok_56).
    pose proof (cow_range_flags f Hfl) as Hcf.
    rewrite cow_mkpte, mkpte_flags by done.
    assert (Hu2 : unlocked s2) by (eapply unlocked_eqv; [apply Hs2|done]).
    pose proof (one_page (Z.of_nat i * PGSIZE) ltac:(by apply Z.mod_mul)) as Hone.
    pose proof (PGROUNDDOWN_id (Z.of_nat i * PGSIZE) ltac:(by apply Z.mod_mul)) as Hid.
    wp_step. apply (wp_mappages _ _ _ _ _ 1 _ s2 l1); try apply Hs2; try done; try lia.
    { unfold PGSIZE in *. lia. }
    { apply page_ok_56 in Hpa. lia. }
    { apply page_ok_range in Hpa. unfold PHYSTOP, KERNBASE, PGSIZE in *. lia. }
    { by apply perm_V. }
    { intros j Hj. assert (j = 0) as -> by lia. rewrite Hid, Z.add_0_r, (sh_pnew _ _ _ _ _ _ _ _ Hs2) by done.
      unfold shared. rewrite (proj2 (Z.ltb_ge (Z.of_nat i * PGSIZE) _)), andb_false_r by lia.
      rewrite (fk_zero _ _ _ _ Hf); [done|unfold PGSIZE in *; lia]. }
    rewrite Hid. intros k s3 l3 Hs3 Hv3.
    assert (Hu3 : unlocked s3) by eauto with xv6. split.
    + intros ->. cbn [negb Z.eqb]. wp_step.
      assert (Hr3 : ref s3 pa = ref s pa + cnt (ppages s old i) pa).
      { rewrite (ps_ref _ _ _ _ _ _ Hs3), (sh_ref _ _ _ _ _ _ _ _ Hs2); try done.
        intros Hin'. by apply Hpal, (sh_sub _ _ _ _ _ _ _ _ Hs2). }
      pose proof (cnt_ppages_le s old i pa). pose proof (cnt_nonneg (ppages s old i) pa).
      apply (wp_pageRef _ _ l3); eauto with xv6; [lia|]. intros c Hc s4 Hh4. wp_step.
      exists (Z.of_nat n - Z.of_nat (S i)). split; [lia|]. exists (S i), l3.
      rewrite u64_small by (rewrite MAXVA_eq in *; unfold PGSIZE in *; lia).
      split; [done|]. split; [lia|]. split; [unfold PGSIZE; lia|].
      eapply (sharing_map old new n i s l s2 l1 s3 l3 c pa f); try done.
      intros va Hva'. rewrite Hv3 by done. unfold mapped. destruct (_ && _); [|done]. apply mkpte_V_idem.
    + intros Hk' ->. assert (k = 0) as -> by lia. cbn [negb Z.eqb].
      assert (Hs3' : sharing old new (S i) i s l s3 []).
      { eapply sharing_more; [done| |exact Hs2|exact Hs3|].
        - intros q Hq Hq2. by apply Hq, (sh_sub _ _ _ _ _ _ _ _ Hs2).
        - intros va Hva'. rewrite Hv3 by done. by apply mapped_0. }
      rewrite Z.div_mul by done. wp_step.
      apply (wp_uvmunmap new 0 i true s3 []); [done|apply Hs3'|apply Hs3'|done|lia|..].
      { unfold PGSIZE in *. lia. }
      { eapply sharing_unmap; eauto; lia. }
      intros s4 l4 Hs4 Hv4. wp_step. apply (Hfail (S i) s4 l4); [lia|].
      eapply (sharing_undo old new n i); eauto; try lia. eapply sharing_pas; eauto; lia.
  - rewrite MAXVA_eq in *. unfold PGSIZE in *. lia.
  - exists 0%nat, l. split; [lia|]. split; [lia|]. split; [lia|]. by eapply sharing_0.
Qed.

(** ** copy_on_write() *)

Lemma wp_cur (Q : proc -> kst -> Prop) s i :
  cpu_ok (k_core s) -> cproc (ccpu (k_core s)) = Some i ->
  (forall c, core_eqv (k_core s) c -> Q (procs (k_core s) i) (set_core c s)) -> wp cur Q s.
Proof.
  intros Hok Hi HQ. unfold cur. wp_step. apply wp_zoom, wp_myproc; [done|]. intros c Hc.
  simpl. rewrite Hi. wp_step. simpl.
  destruct (core_eqv_fields _ _ Hc) as (_ & _ & -> & _). by apply HQ.
Qed.

(** When the entry's table is there, walk() allocates nothing, and
    mappages() of one page cannot fail. *)
Lemma wp_walk_present root va t (Q : Z -> kst -> Prop) s :
  va < MAXVA -> tab (k_mem s) root [PX 2 va; PX 1 va] = Some t ->
  Q (t + 8 * PX 0 va) s -> wp (walk root va true) Q s.
Proof.
  intros Hva Et HQ. unfold walk. rewrite (proj2 (Z.leb_gt MAXVA va)) by lia.
  cbn [tab] in Et. unfold next in Et. cbn [walk_loop]. unfold ld64. wp_step. wp_step.
  change (Z.of_nat 2) with 2. destruct (has _ PTE_V); [|done]. wp_step. wp_step.
  change (Z.of_nat 1) with 1. destruct (has _ PTE_V); [|done]. wp_step. by injection Et as <-.
Qed.

Lemma wp_mappages_present root a pa perm t (Q : Z -> kst -> Prop) s l :
  heap_ok s l -> pt_ok s root -> 0 <= a < MAXVA -> a mod PGSIZE = 0 ->
  tab (k_mem s) root [PX 2 a; PX 1 a] = Some t -> has (pte_of (k_mem s) root a) PTE_V = false ->
  Q 0 (set_mem (store64 (k_mem s) (t + 8 * PX 0 a) (mkpte pa perm)) s) ->
  wp (mappages root a PGSIZE pa perm) Q s.
Proof.
  intros Hh Hpt Ha Hal Et HV HQ. unfold mappages.
  rewrite u64_small by (rewrite MAXVA_eq in *; unfold PGSIZE; lia).
  rewrite one_page, Z.add_0_r, PGROUNDDOWN_id by done.
  apply wp_loop with (n := 0) (I := fun _ x s' => x = (a, pa) /\ s' = s); [|lia|done].
  intros n [a' pa'] s' _ [[= -> ->] ->]. wp_step. apply (wp_walk_present root a t); [lia|done|].
  rewrite (proj2 (Z.eqb_neq _ 0)) by (by eapply table_nonzero).
  unfold ld64, st64. wp_step. wp_step. rewrite (load_slot _ _ _ _ Et), HV. wp_step. wp_step.
  rewrite Z.eqb_refl. by wp_step.
Qed.

Lemma mkpte_uncow_V pa f : mkpte pa (uncow (Z.lor f PTE_V)) = mkpte pa (uncow f).
Proof. by rewrite <- !uncow_mkpte, mkpte_V_idem. Qed.

(** The entry of one page replaced. *)
Definition repoint (g : Z -> Z) (va e : Z) : Z -> Z :=
  fun va' => if PGROUNDDOWN va' =? PGROUNDDOWN va then e else g va'.

(** The process now has page [q], not shared, writable and with the bytes
    that [pa] had.  Every other page in use is as before. *)
Record own_page (root va pa f q : Z) (s : kst) (l : list Z) (s' : kst) (l' : list Z) : Prop := {
  op_core : core_eqv (k_core s) (k_core s');
  op_kpt : k_kpt s' = k_kpt s;
  op_heap : heap_ok s' l';
  op_pt : pt_ok s' root;
  op_tab : forall p, is_path p -> tab (k_mem s') root p = tab (k_mem s) root p;
  op_page : page_ok q;
  op_pte : as_eq (pte_of (k_mem s') root) (repoint (pte_of (k_mem s) root) va (mkpte q (uncow f)));
  op_own : ref s' q = 1;
  op_copy : forall i, 0 <= i < PGSIZE -> k_mem s' (q + i) = k_mem s (pa + i);
  op_which : (q = pa /\ l' = l /\ ref s pa = 1) \/ (l = q :: l' /\ 1 < ref s pa /\ ref s' pa = ref s pa - 1);
  op_frame : forall x, page_ok x -> ~ (x ∈ l) -> ~ is_table (k_mem s) root x ->
    same_on (k_mem s) (k_mem s') x PGSIZE;
  op_ref : forall x, page_ok x -> ~ (x ∈ l) -> x <> pa -> ref s' x = ref s x
}.

(** A page with one reference keeps its place. *)
Lemma own_page_same root va pa f t s l c :
  heap_ok s l -> pt_ok s root -> core_eqv (k_core s) c -> 0 <= va < MAXVA -> page_ok pa ->
  ref s pa = 1 -> 0 <= f < 1024 -> ~ is_table (k_mem s) root pa ->
  tab (k_mem s) root [PX 2 va; PX 1 va] = Some t ->
  own_page root va pa f pa s l
    (set_mem (store64 (k_mem s) (t + 8 * PX 0 va) (mkpte pa (uncow f))) (set_core c s)) l.
Proof.
  intros Hh Hpt Hc Hva Hpa Hr Hf Hn Et.
  destruct (set_pte root s l va t (mkpte pa (uncow f)) Hh Hpt Hva Et) as [Hs Hv].
  constructor; try done; simpl.
  - exact (ps_heap _ _ _ _ _ _ Hs).
  - eapply pt_ok_same; [|exact (ps_pt _ _ _ _ _ _ Hs)]. by intros q _.
  - intros p Hp. apply (leaf_tab s root (PX 2 va) (PX 1 va)); auto with xv6. apply PX_range. lia.
  - intros va' Hva'. etransitivity; [by apply Hv|]. unfold repoint. rewrite u64_small; [done|].
    apply mkpte_range; [by apply page_ok_56|by apply uncow_range_flags].
  - intros i Hi. apply (ps_frame _ _ _ _ _ _ Hs pa Hpa); [|done|lia].
    eapply heap_ok_used; [done|done|lia].
  - by left.
  - intros x Hx Hl Ht. by apply (ps_frame _ _ _ _ _ _ Hs).
Qed.

(** The state after cow_kalloc() has copied [pa] to [q]. *)
Lemma cow_alloc_tables root pa q s l c :
  heap_ok s (q :: l) -> pt_ok s root -> page_ok pa -> page_ok q -> q <> pa -> 1 <= ref s pa ->
  ~ is_table (k_mem s) root pa ->
  let s1 := mkkst c (copy (fill (k_mem s) q 5 PGSIZE) q pa PGSIZE) (load64 (k_mem s) q)
                  (fupd (fupd (k_ref s) (PA2PAGE_ID q) 1) (PA2PAGE_ID pa) (ref s pa - 1)) (k_kpt s) in
  (forall x, page_ok x -> x <> q -> same_on (k_mem s) (k_mem s1) x PGSIZE) /\
  (forall x, page_ok x -> ref s1 x = if decide (x = pa) then ref s pa - 1 else if decide (x = q) then 1 else ref s x) /\
  (forall x, is_table (k_mem s) root x -> same_on (k_mem s) (k_mem s1) x PGSIZE) /\
  pt_ok s1 root.
Proof.
  intros Hh Hpt Hpa Hq Hne Hr Hn s1.
  assert (Hout : forall x, ~ (q <= x < q + PGSIZE) -> k_mem s1 x = k_mem s x).
  { intros x Hx. simpl. by rewrite copy_out, fill_out. }
  assert (Hsame : forall x, page_ok x -> x <> q -> same_on (k_mem s) (k_mem s1) x PGSIZE).
  { intros x Hx Hxq. by apply (other_page _ _ q x). }
  assert (Href : forall x, page_ok x ->
            ref s1 x = if decide (x = pa) then ref s pa - 1 else if decide (x = q) then 1 else ref s x).
  { intros x Hx. unfold ref at 1. simpl. case_decide as E1; [subst; by rewrite fupd_eq|].
    rewrite fupd_ne by (intros E; apply E1; by apply page_id_inj).
    case_decide as E2; [subst; by rewrite fupd_eq|].
    rewrite fupd_ne; [done|]. intros E. apply E2. by apply page_id_inj. }
  assert (Htq : forall x, is_table (k_mem s) root x -> page_ok x /\ x <> q /\ x <> pa).
  { intros x Hx. destruct (pt_page _ _ Hpt x Hx) as [Hok _]. split; [done|]. split; [|by intros ->].
    intros ->. apply (pt_table_used _ _ _ _ Hh Hpt Hx). by left. }
  split; [done|]. split; [done|]. split.
  - intros x Hx. apply Hsame; by apply Htq.
  - eapply pt_ok_same; [|exact Hpt]. intros x Hx. destruct (Htq x Hx) as (? & ? & ?).
    split; [by apply Hsame|]. by rewrite Href, !decide_False by done.
Qed.


(** The copying path: the entry is taken out and put back for [q]. *)
Lemma wp_repoint root va pa f q s l c (Q : Z -> kst -> Prop) :
  let s1 := mkkst c (copy (fill (k_mem s) q 5 PGSIZE) q pa PGSIZE) (load64 (k_mem s) q)
                  (fupd (fupd (k_ref s) (PA2PAGE_ID q) 1) (PA2PAGE_ID pa) (ref s pa - 1)) (k_kpt s) in
  unlocked s -> core_eqv (k_core s) c -> heap_ok s (q :: l) -> heap_ok s1 l -> pt_ok s root ->
  0 <= va < MAXVA -> page_ok pa -> page_ok q -> q <> pa -> 1 < ref s pa ->
  0 <= f < 1024 -> has f PTE_COW = true -> ~ is_table (k_mem s) root pa ->
  pte_of (k_mem s) root va = mkpte pa f ->
  (forall s' l', own_page root va pa f q s (q :: l) s' l' -> Q 0 s') ->
  wp (uvmunmap root (PGROUNDDOWN va) 1 false ;;;
      let* r := mappages root (PGROUNDDOWN va) PGSIZE q (uncow (Z.lor f PTE_V)) in
      if negb (r =? 0) then kfree q ;;; ret (-1) else ret 0) Q s1.
Proof.
  intros s1 Hu Hc Hh Hh1 Hpt Hva Hpa Hq Hne Hr Hf Hcow Hn Ee HQ.
  destruct (cow_alloc_tables root pa q s l c Hh Hpt Hpa Hq Hne ltac:(lia) Hn) as (Hsame & Href & Htab & Hpt1).
  fold s1 in Hsame, Href, Htab, Hpt1.
  assert (Hpte1 : forall v, pte_of (k_mem s1) root v = pte_of (k_mem s) root v) by (intros; by apply pte_of_same).
  assert (Hu1 : unlocked s1) by (by eapply unlocked_eqv).
  set (a := PGROUNDDOWN va). pose proof (PGROUNDDOWN_bounds va) as Hb. pose proof (PGROUNDDOWN_aligned va) as Hal.
  fold a in Hb, Hal. assert (Ha : 0 <= a < MAXVA).
  { apply Z.mod_divide in Hal as [k Hk]; [|done]. unfold PGSIZE in *. lia. }
  assert (Hea : pte_of (k_mem s1) root a = mkpte pa f) by (rewrite Hpte1; unfold a; by rewrite pte_of_page).
  wp_step. apply (wp_uvmunmap root a 1 false s1 l); [done|done|done|done|lia|..].
  { rewrite MAXVA_eq in *. apply Z.mod_divide in Hal as [k Hk]; [|done]. unfold PGSIZE in *. lia. }
  { split; [|done]. intros i Hi e. unfold e. assert (i = 0%nat) as -> by lia. rewrite Z.add_0_r.
    rewrite Hea. split; [by apply mkpte_V|]. rewrite mkpte_flags by done. intros E.
    apply (f_equal (fun x => Z.testbit x 8)) in E. unfold PTE_COW in Hcow. rewrite has_bit in Hcow by lia.
    by rewrite Z.lor_spec, Hcow in E. }
  intros s2 l2 Hs2 Hv2. pose proof (pf_list _ _ _ _ _ _ Hs2 eq_refl) as ->.
  destruct (slot_valid (k_mem s1) root a) as [t Et1]; [rewrite Hea; by apply mkpte_V|].
  assert (Et : tab (k_mem s2) root [PX 2 a; PX 1 a] = Some t).
  { rewrite (pf_tab _ _ _ _ _ _ Hs2); [done|apply path_va]. }
  wp_step. apply (wp_mappages_present root a q _ t _ s2 l); eauto with xv6.
  { rewrite Hv2 by done. unfold unmapped. rewrite (proj2 (Z.leb_le a a)), (proj2 (Z.ltb_lt a _)) by
      (unfold PGSIZE; lia). done. }
  cbn [negb Z.eqb]. wp_step. rewrite mkpte_uncow_V.
  destruct (set_pte root s2 l a t (mkpte q (uncow f))) as [Hs3 Hv3]; eauto with xv6. set (s3 := set_mem _ s2) in *.
  assert (Hr2 : forall x, page_ok x -> ref s3 x = ref s1 x).
  { intros x Hx. change (ref s3 x) with (ref s2 x). rewrite (pf_ref _ _ _ _ _ _ Hs2) by done. unfold cnt. simpl. lia. }
  assert (Hrq : ref s1 q = 1) by (by rewrite Href, decide_False, decide_True by done).
  assert (Hnq : ~ is_table (k_mem s) root q).
  { intros Ht. apply (pt_table_used _ _ _ _ Hh Hpt Ht). by left. }
  assert (Htab1 : forall p, is_path p -> tab (k_mem s1) root p = tab (k_mem s) root p) by by apply tab_same.
  assert (Htab3 : forall p, is_path p -> tab (k_mem s3) root p = tab (k_mem s) root p).
  { intros p Hp. rewrite <- Htab1, <- (pf_tab _ _ _ _ _ _ Hs2) by done.
    apply (leaf_tab s2 root (PX 2 a) (PX 1 a)); eauto with xv6. apply PX_range. lia. }
  assert (Hfr : forall x, page_ok x -> 0 < ref s1 x -> ~ is_table (k_mem s) root x ->
            same_on (k_mem s1) (k_mem s3) x PGSIZE).
  { intros x Hx Hrx Hnx. assert (Hnx1 : ~ is_table (k_mem s1) root x) by (by rewrite (is_table_same _ _ _ Htab1)).
    eapply same_on_trans; [apply Hs2; [done| |done]|].
    - change (ref s2 x) with (ref s3 x). by rewrite Hr2.
    - apply Hs3; [done| |].
      + eapply heap_ok_used; [apply Hs2|done|]. change (ref s2 x) with (ref s3 x). by rewrite Hr2.
      + by rewrite (is_table_same _ _ _ (pf_tab _ _ _ _ _ _ Hs2)). }
  apply (HQ s3 l). constructor; try done.
  - eapply core_eqv_trans; [exact Hc|]. apply (pf_core _ _ _ _ _ _ Hs2).
  - apply (pf_kpt _ _ _ _ _ _ Hs2).
  - apply (ps_heap _ _ _ _ _ _ Hs3).
  - apply (ps_pt _ _ _ _ _ _ Hs3).
  - intros va' Hva'. rewrite Hv3 by done. unfold repoint.
    rewrite (PGROUNDDOWN_id a) by done. fold a. rewrite u64_small by
      (apply mkpte_range; [by apply page_ok_56|by apply uncow_range_flags]).
    destruct (Z.eqb_spec (PGROUNDDOWN va') a) as [|E]; [done|]. rewrite Hv2, <- Hpte1 by done. unfold unmapped.
    destruct (_ && _) eqn:Eb; [|done]. bools. exfalso. apply E.
    apply PGROUNDDOWN_iff; [done|unfold PGSIZE in *; lia].
  - by rewrite Hr2.
  - intros i Hi. rewrite (Hfr q Hq ltac:(lia) Hnq) by lia. simpl. rewrite copy_in, fill_out by
      (pose proof (page_ok_disjoint q pa Hq Hpa Hne); lia). f_equal. lia.
  - right. split; [done|]. split; [done|]. by rewrite Hr2, Href, decide_True by done.
  - intros x Hx Hl Ht. assert (x <> q) by (intros ->; apply Hl; by left).
    eapply same_on_trans; [by apply Hsame|]. apply Hfr; [done| |done]. rewrite Href by done.
    case_decide; [lia|]. rewrite decide_False by done. by eapply heap_ok_unfree.
  - intros x Hx Hl Hxp. rewrite Hr2, Href, !decide_False; try done. intros ->. apply Hl. by left.
Qed.


Lemma wp_copy_on_write va i pa f s l (Q : Z -> kst -> Prop) :
  let root := pagetable (procs (k_core s) i) in
  unlocked s -> heap_ok s l -> cproc (ccpu (k_core s)) = Some i -> pt_ok s root ->
  0 <= va < MAXVA -> pte_of (k_mem s) root va = mkpte pa f -> 0 <= f < 1024 -> has f PTE_COW = true ->
  page_ok pa -> ~ is_table (k_mem s) root pa -> 1 <= ref s pa ->
  (forall q s' l', own_page root va pa f q s l s' l' -> Q 0 s') ->
  (forall c, l = [] -> 1 < ref s pa -> core_eqv (k_core s) c -> Q (-1) (set_core c s)) ->
  wp (copy_on_write va) Q s.
Proof.
  intros root Hu Hh Hi Hpt Hva Ee Hf Hcow Hpa Hn Hr HQ Hfail.
  assert (HV : has (pte_of (k_mem s) root va) PTE_V = true) by (rewrite Ee; by apply mkpte_V).
  destruct (slot_valid _ _ _ HV) as [t Et].
  assert (Et0 : t + 8 * PX 0 va <> 0) by by eapply table_nonzero.
  unfold copy_on_write. wp_step. apply (wp_cur _ _ i); [apply Hu|done|]. intros c0 Hc0. fold root.
  wp_step. apply wp_walk; [lia|]. cbn [k_mem set_core]. unfold slot. rewrite Et. unfold deref.
  rewrite (proj2 (Z.eqb_neq _ 0)) by done. unfold ld64. do 4 wp_step. cbn [k_mem set_core].
  rewrite (load_slot _ _ _ _ Et), Ee, mkpte_pa by (done || apply Hpa || by apply page_ok_56).
  assert (Hh0 : heap_ok (set_core c0 s) l) by by eapply heap_ok_ext.
  assert (Hu0 : unlocked (set_core c0 s)) by by eapply unlocked_eqv.
  wp_step. apply (wp_cow_kalloc _ _ l); [done|done|done|done|].
  change (ref (set_core c0 s) pa) with (ref s pa). intros c Hc. change (k_core (set_core c0 s)) with c0 in Hc.
  assert (Hcc : core_eqv (k_core s) c) by by eapply core_eqv_trans.
  destruct (Z.eqb_spec (ref s pa) 1) as [E1|E1].
  - rewrite (proj2 (Z.eqb_neq pa 0)) by by apply page_ok_nonzero. wp_step. wp_step. cbn [k_mem set_core].
    rewrite (load_slot _ _ _ _ Et), Ee, Z.eqb_refl. fold (uncow (mkpte pa f)). rewrite uncow_mkpte.
    unfold st64. do 3 wp_step. apply (HQ pa _ l). by apply (own_page_same root va pa f t s l c).
  - destruct l as [|q l].
    + cbn [Z.eqb]. wp_step. apply (Hfail c); [done|lia|done].
    + intros s1 Hq Hne Hrq Hh1.
      rewrite (proj2 (Z.eqb_neq q 0)), (proj2 (Z.eqb_neq q pa)) by (done || by apply page_ok_nonzero).
      destruct (cow_alloc_tables root pa q s l c Hh Hpt Hpa Hq Hne ltac:(lia) Hn) as (_ & _ & Htab & _).
      wp_step. wp_step.
      assert (Et1 : tab (k_mem s1) root [PX 2 va; PX 1 va] = Some t).
      { rewrite (tab_same _ _ _ Htab); [done|apply path_va]. }
      rewrite (load_slot _ _ _ _ Et1). rewrite (pte_of_same _ _ _ _ Htab), Ee, mkpte_flags by done.
      fold (uncow (Z.lor f PTE_V)).
      eapply (wp_repoint root va pa f q s l c); try done; [lia|]. intros s' l' Hs'. by apply (HQ q s' l').
Qed.


(** ** A store of a process *)

(** The hart lets a user process store to [va]: the entry is valid, for user
    mode, and writable. *)
Definition store_ok (m : mem) (root va : Z) : bool :=
  let e := pte_of m root va in
  (0 <=? va) && (va <? MAXVA) && has e PTE_V && has e PTE_U && has e PTE_W.

(** The instruction that stores byte [b] at [va], executed by process [p] in
    user mode.  A store the hart does not allow is a page fault; usertrap()
    handles it, and then the process exits if it has been killed and executes
    the instruction again otherwise.  True if the byte was stored, false if
    the process was killed. *)
Definition user_store (p : nat) (va : Z) (b : byte) : M kst bool :=
  loop (fun _ : unit =>
    let* root := gets (fun s => pagetable (procs (k_core s) p)) in
    let* ok := gets (fun s => store_ok (k_mem s) root va) in
    if ok : bool then
      modify (ustore root va b) ;;;
      ret (inr true)
    else
      page_fault p va ;;;
      let* k := gets (fun s => killed (procs (k_core s) p)) in
      if negb (k =? 0) then ret (inr false) else ret (inl tt)) tt.

Lemma should_copy_true va i s :
  cpu_ok (k_core s) -> cproc (ccpu (k_core s)) = Some i ->
  let root := pagetable (procs (k_core s) i) in
  va < MAXVA -> pt_ok s root -> PGROUNDDOWN va < sz (procs (k_core s) i) ->
  has (pte_of (k_mem s) root va) PTE_V = true -> has (pte_of (k_mem s) root va) PTE_COW = true ->
  wp (should_copyon_write va) (fun r s' => r = true /\ exists c, core_eqv (k_core s) c /\ s' = set_core c s) s.
Proof.
  intros Hc Hi root Hva Hpt Hsz HV HC. unfold should_copyon_write. wp_step. apply (wp_cur _ _ i); [done|done|].
  intros c He. fold root. wp_step. apply wp_walk; [done|]. cbn [k_mem set_core].
  destruct (slot_valid _ _ _ HV) as [t Et]. unfold slot. rewrite Et.
  rewrite (proj2 (Z.eqb_neq _ 0)) by by eapply table_nonzero. unfold ld64. wp_step. wp_step. wp_step. cbn [k_mem set_core].
  rewrite (load_slot _ _ _ _ Et), HC, HV, (proj2 (Z.ltb_lt _ _)) by done. eauto.
Qed.

Lemma store_ok_mkpte m root va pa f :
  0 <= va < MAXVA -> pte_of m root va = mkpte pa f -> 0 <= f < 1024 -> store_ok m root va = has f PTE_U && has f PTE_W.
Proof.
  intros Hva E Hf. unfold store_ok. rewrite E, mkpte_V by done. unfold PTE_U, PTE_W. rewrite !has_mkpte by lia.
  by rewrite (proj2 (Z.leb_le _ _)), (proj2 (Z.ltb_lt _ _)) by lia.
Qed.

(** A store to a shared page: the fault makes the page the process's own, and
    the store then succeeds; without memory for the copy the process is killed. *)
Lemma wp_user_store i va b pa f s l (Q : bool -> kst -> Prop) :
  let root := pagetable (procs (k_core s) i) in
  unlocked s -> heap_ok s l -> cproc (ccpu (k_core s)) = Some i -> pt_ok s root ->
  0 <= va < MAXVA -> PGROUNDDOWN va < sz (procs (k_core s) i) -> killed (procs (k_core s) i) = 0 ->
  pte_of (k_mem s) root va = mkpte pa f -> 0 <= f < 1024 ->
  has f PTE_COW = true -> has f PTE_U = true -> has f PTE_W = false ->
  page_ok pa -> ~ is_table (k_mem s) root pa -> 1 <= ref s pa ->
  (forall c q s' l', core_eqv (k_core s) c -> own_page root va pa f q (set_core c s) l s' l' -> Q true (ustore root va b s')) ->
  (forall c, l = [] -> 1 < ref s pa -> Q false (set_core c s)) ->
  wp (user_store i va b) Q s.
Proof.
  intros root Hu Hh Hi Hpt Hva Hsz Hk E Hf HC HU HW Hpa Hn Hr HQ Hfail. unfold user_store.
  apply (wp_loop _ (fun n _ s' => (n = 1 /\ s' = s) \/
    (n = 0 /\ exists c q l', core_eqv (k_core s) c /\ own_page root va pa f q (set_core c s) l s' l'))) with (n := 1);
    [|lia|by left].
  intros n [] s' _ [[-> ->]|(-> & c & q & l' & He & Ho)].
  - do 2 (apply wp_bind, wp_gets). fold root. rewrite (store_ok_mkpte _ _ _ pa f Hva E Hf), HU, HW. cbn [andb].
    apply wp_bind. unfold page_fault. apply wp_bind.
    eapply wp_mono; [apply (should_copy_true va i s); try done; [apply Hu|lia| |]; fold root; rewrite E;
      [by apply mkpte_V|unfold PTE_COW in *; by rewrite has_mkpte by lia]|].
    intros r s1 (-> & c & He & ->). destruct (core_eqv_fields _ _ He) as (_ & _ & Hprocs & _ & _ & _ & _ & Hcp & _).
    assert (Hroot : pagetable (procs (k_core (set_core c s)) i) = root) by (cbn; by rewrite Hprocs).
    apply wp_bind. apply (wp_copy_on_write va i pa f (set_core c s) l); rewrite ?Hroot; try done.
    + by eapply unlocked_eqv.
    + cbn. by rewrite Hcp.
    + by eapply pt_ok_same; [|exact Hpt].
    + intros q s2 l2 Ho. apply wp_ret, wp_bind, wp_gets.
      destruct (core_eqv_fields _ _ (op_core _ _ _ _ _ _ _ _ _ Ho)) as (_ & _ & Hp2 & _).
      rewrite Hp2. cbn [k_core set_core]. rewrite Hprocs, Hk. apply wp_ret. exists 0. split; [lia|]. right. eauto 7.
    + intros c2 -> Hlt _. apply wp_modify, wp_bind, wp_gets. cbn. rewrite fupd_eq. cbn. by apply wp_ret, Hfail.
  - destruct (core_eqv_fields _ _ (op_core _ _ _ _ _ _ _ _ _ Ho)) as (_ & _ & Hp2 & _).
    destruct (core_eqv_fields _ _ He) as (_ & _ & Hprocs & _).
    do 2 (apply wp_bind, wp_gets). rewrite Hp2. cbn [k_core set_core]. rewrite Hprocs. fold root.
    rewrite (store_ok_mkpte _ _ _ q (uncow f) Hva); [|rewrite (op_pte _ _ _ _ _ _ _ _ _ Ho) by done; unfold repoint;
      by rewrite Z.eqb_refl|by apply uncow_range_flags].
    unfold PTE_U, PTE_W in *. rewrite !has_uncow, HU by lia. rewrite orb_true_r. apply wp_bind, wp_modify, wp_ret. by eapply HQ.
Qed.

(** ** Properties *)

Lemma fk_page old new n s va :
  forkable old new n s -> 0 <= va < Z.of_nat n * PGSIZE -> exists pa f,
    pte_of (k_mem s) old va = mkpte pa f /\ 0 <= f < 1024 /\
    page_ok pa /\ ~ is_table (k_mem s) old pa /\ ~ is_table (k_mem s) new pa /\
    1 <= ref s pa /\ ref s pa + Z.of_nat n < 2 ^ 31 /\ 1 <= cnt (ppages s old n) pa.
Proof.
  intros Hf Hva. set (k := Z.to_nat (va / PGSIZE)).
  pose proof (Z.div_pos va PGSIZE ltac:(lia) ltac:(done)).
  assert (Hk : (k < n)%nat) by (assert (va / PGSIZE < Z.of_nat n) by (apply Z.div_lt_upper_bound; unfold PGSIZE in *; lia); lia).
  destruct (fk_leaf _ _ _ _ Hf k Hk) as (pa & f & E & Hfl & Hpa & Ho & Hn & Hr & Hrn).
  exists pa, f. rewrite <- pte_of_page, PGROUNDDOWN_eq. replace (va / PGSIZE) with (Z.of_nat k) by lia.
  repeat split; try done; try lia; try apply Hpa. apply cnt_in.
  pose proof (pas_of_in (k_mem s) old 0 n k Hk) as Hin. unfold ppages. rewrite Z.add_0_l, E, mkpte_pa in Hin by
    (done || apply Hpa || by apply page_ok_56). done.
Qed.

Lemma off_range va : 0 <= va mod PGSIZE < PGSIZE.
Proof. by apply Z.mod_pos_bound. Qed.

Lemma in_pages n va : 0 <= va < n * PGSIZE -> (0 <=? va) && (va <? n * PGSIZE) = true.
Proof. intros Hva. rewrite (proj2 (Z.leb_le 0 va)), (proj2 (Z.ltb_lt _ _)) by lia. done. Qed.

(** After uvmcopy() both processes see the bytes the parent had. *)
Lemma sharing_view old new n s l s1 l1 va :
  heap_ok s l -> forkable old new n s -> Z.of_nat n * PGSIZE <= MAXVA ->
  sharing old new n n s l s1 l1 -> 0 <= va < Z.of_nat n * PGSIZE ->
  exists pa f, 0 <= f < 1024 /\ page_ok pa /\ 2 <= ref s1 pa /\
    ~ is_table (k_mem s1) old pa /\ ~ is_table (k_mem s1) new pa /\
    pte_of (k_mem s) old va = mkpte pa f /\
    pte_of (k_mem s1) old va = mkpte pa (cow f) /\ pte_of (k_mem s1) new va = mkpte pa (cow f) /\
    forall i, 0 <= i < PGSIZE -> k_mem s1 (pa + i) = k_mem s (pa + i).
Proof.
  intros Hh Hf Hmax Hs Hva.
  destruct (fk_page _ _ _ _ _ Hf Hva) as (pa & f & E & Hfl & Hpa & Ho & Hn & Hr & Hrn & Hc).
  assert (Hl : pa ∉ l) by (eapply heap_ok_used; [done|done|lia]).
  exists pa, f. split; [done|]. split; [done|]. split_and!.
  - rewrite (sh_ref _ _ _ _ _ _ _ _ Hs) by done. lia.
  - by rewrite (is_table_same _ _ _ (sh_told _ _ _ _ _ _ _ _ Hs)).
  - by intros [?|?]%(sh_tnew _ _ _ _ _ _ _ _ Hs).
  - done.
  - rewrite (sh_pold _ _ _ _ _ _ _ _ Hs) by lia. unfold cow_range. by rewrite in_pages, E, cow_mkpte.
  - rewrite (sh_pnew _ _ _ _ _ _ _ _ Hs) by lia. unfold shared. by rewrite in_pages, E, cow_mkpte.
  - intros i Hi. apply (sh_frame _ _ _ _ _ _ _ _ Hs pa); [done|done|done|done|lia].
Qed.

Lemma ubyte_mkpte m root va pa f :
  pte_of m root va = mkpte pa f -> 0 <= f < 1024 -> page_ok pa -> uaddr m root va = pa + va mod PGSIZE.
Proof.
  intros E Hf Hpa. unfold uaddr. rewrite E, mkpte_pa; [done|apply Hpa|by apply page_ok_56|done].
Qed.

(** A store into a page leaves the tables and the pages elsewhere alone. *)
Lemma upd_other m p a b x : page_ok p -> page_ok x -> x <> p -> p <= a < p + PGSIZE ->
  same_on m (upd m a b) x PGSIZE.
Proof.
  intros Hp Hx Hne Ha y Hy. unfold upd. pose proof (page_ok_disjoint p x Hp Hx ltac:(done)).
  destruct (Z.eqb_spec y a); [lia|done].
Qed.

(** Writing to the fresh copy: what the owner [r1] and another process [r2]
    see afterwards. *)
Lemma own_page_write r1 r2 va pa f q s l s' l' b :
  own_page r1 va pa f q s l s' l' -> heap_ok s l -> pt_ok s r1 -> 2 <= ref s pa -> pt_ok s r2 -> disj s r1 r2 ->
  0 <= va < MAXVA -> 0 <= f < 1024 -> page_ok pa -> ~ is_table (k_mem s) r1 pa ->
  let s'' := ustore r1 va b s' in
  (forall v p g, 0 <= v < MAXVA -> pte_of (k_mem s) r2 v = mkpte p g -> 0 <= g < 1024 -> page_ok p ->
     ~ is_table (k_mem s) r1 p -> 1 <= ref s p -> ubyte (k_mem s'') r2 v = ubyte (k_mem s) r2 v) /\
  (forall v p g, 0 <= v < MAXVA -> pte_of (k_mem s) r1 v = mkpte p g -> 0 <= g < 1024 -> page_ok p ->
     ~ is_table (k_mem s) r1 p -> 1 <= ref s p -> pte_of (k_mem s) r1 va = mkpte pa f ->
     ubyte (k_mem s'') r1 v = if v =? va then b else ubyte (k_mem s) r1 v).
Proof.
  intros Ho Hh Hpt1 Hr Hpt2 Hd Hva Hf Hpa Hn s''.
  pose proof Ho as [_ _ Hh' Hpt1' Htab Hq Hpte Hown Hcopy Hwhich Hfr _].
  destruct Hwhich as [(_ & _ & ?)|(-> & _ & _)]; [lia|].
  assert (Hql : forall x, page_ok x -> 1 <= ref s x -> ~ (x ∈ q :: l') /\ x <> q).
  { intros x Hx Hrx. assert (x ∉ q :: l') by (eapply heap_ok_used; [done|done|lia]).
    split; [done|]. intros ->. apply H0. by left. }
  pose proof (uncow_range_flags f Hf) as Hf'. pose proof (off_range va) as Hoff.
  assert (Ha : uaddr (k_mem s') r1 va = q + va mod PGSIZE).
  { apply (ubyte_mkpte _ _ _ q (uncow f)); [|done|done]. rewrite Hpte by done. unfold repoint. by rewrite Z.eqb_refl. }
  assert (Hin : q <= uaddr (k_mem s') r1 va < q + PGSIZE) by lia.
  assert (Hother : forall x, page_ok x -> 1 <= ref s x -> ~ is_table (k_mem s) r1 x ->
            same_on (k_mem s) (k_mem s'') x PGSIZE).
  { intros x Hx Hrx Hnx. destruct (Hql x Hx Hrx) as [Hxl Hxq].
    eapply same_on_trans; [by apply Hfr|]. by apply (upd_other _ q). }
  split.
  - intros v p g Hv E Hg Hp Hnp Hrp.
    assert (Hpte2 : pte_of (k_mem s'') r2 v = mkpte p g).
    { rewrite (pte_of_same (k_mem s)); [done|]. intros x Hx. destruct (pt_page _ _ Hpt2 x Hx) as [Hok Hr1].
      apply Hother; [done|lia|]. intros Ht. by apply (Hd x). }
    unfold ubyte. rewrite !(ubyte_mkpte _ _ _ p g) by done. pose proof (off_range v).
    apply (Hother p Hp Hrp Hnp). lia.
  - intros v p g Hv E Hg Hp Hnp Hrp Ee.
    assert (Hnq : ~ is_table (k_mem s) r1 q).
    { intros Ht. apply (pt_table_used _ _ _ _ Hh Hpt1 Ht). by left. }
    assert (Hpte1 : pte_of (k_mem s'') r1 v = pte_of (k_mem s') r1 v).
    { apply pte_of_same. intros x Hx. apply (upd_other _ q); [done| | |done].
      - by apply (pt_page _ _ Hpt1').
      - intros ->. apply Hnq. by apply (is_table_same _ _ _ Htab). }
    rewrite Hpte in Hpte1 by done. unfold repoint in Hpte1.
    destruct (Z.eqb_spec (PGROUNDDOWN v) (PGROUNDDOWN va)) as [Epg|Epg].
    + assert (Hpv : pte_of (k_mem s) r1 v = mkpte pa f) by (by rewrite <- pte_of_page, Epg, pte_of_page).
      unfold ubyte. rewrite (ubyte_mkpte _ _ _ _ _ Hpte1), (ubyte_mkpte _ _ _ _ _ Hpv) by done.
      unfold s'', ustore. cbn [k_mem set_mem]. unfold upd. rewrite Ha. pose proof (off_range v).
      assert (Hoffv : forall x, x mod PGSIZE = x - PGROUNDDOWN x).
      { intros x. rewrite PGROUNDDOWN_eq. pose proof (Z.div_mod x PGSIZE ltac:(done)). lia. }
      destruct (Z.eqb_spec v va) as [->|Hvv]; [by rewrite Z.eqb_refl|].
      rewrite (proj2 (Z.eqb_neq _ _)) by (rewrite !Hoffv, Epg; lia). by apply Hcopy.
    + unfold ubyte. rewrite E in Hpte1. rewrite (ubyte_mkpte _ _ _ _ _ Hpte1), (ubyte_mkpte _ _ _ _ _ E) by done.
      rewrite (proj2 (Z.eqb_neq v va)) by (intros ->; done). pose proof (off_range v).
      apply (Hother p Hp Hrp Hnp). lia.
Qed.


(** C2: uvmcopy() shares the parent's pages instead of copying them.  On
    success the child maps the same physical pages, parent and child lose
    write permission and get the copy-on-write mark, every page gains one
    reference per mapping, and nothing else in use changes.  When a table
    page for the child cannot be allocated it returns -1, the child maps nothing,
    and every count is as before; the marks in the parent stay. *)
Theorem uvmcopy_correct old new sz s l :
  unlocked s -> heap_ok s l -> 0 <= sz <= MAXVA -> forkable old new (npages 0 sz) s ->
  exists r s' l', uvmcopy old new sz s = Ok r s' /\ unlocked s' /\
    ((r = 0 /\ sharing old new (npages 0 sz) (npages 0 sz) s l s' l') \/
     (r = -1 /\ exists j, (j <= npages 0 sz)%nat /\ sharing old new j 0 s l s' l')).
Proof.
  intros Hu Hh Hsz Hf.
  enough (wp (uvmcopy old new sz) (fun r s' => exists l', unlocked s' /\
    ((r = 0 /\ sharing old new (npages 0 sz) (npages 0 sz) s l s' l') \/
     (r = -1 /\ exists j, (j <= npages 0 sz)%nat /\ sharing old new j 0 s l s' l'))) s) as W.
  { apply wp_elim in W as (r & s' & E & l' & W). eauto. }
  apply (wp_uvmcopy _ _ _ _ l); try done.
  - intros s' l' Hs. exists l'. split; [eapply unlocked_eqv; [apply Hs|done]|]. by left.
  - intros j s' l' Hj Hs. exists l'. split; [eapply unlocked_eqv; [apply Hs|done]|]. right. eauto.
Qed.

(** C3: copy_on_write() resolves a write fault on a shared page.  The entry
    ends up writable and unmarked, and points to a page that nobody else
    refers to and that has the bytes of the old one; a page with a single
    reference stays in place, a shared one loses a reference.  No other
    entry and no other page in use changes.  When the page is shared and
    memory has run out it returns -1 and changes nothing. *)
Theorem copy_on_write_correct va i pa f s l :
  let root := pagetable (procs (k_core s) i) in
  unlocked s -> heap_ok s l -> cproc (ccpu (k_core s)) = Some i -> pt_ok s root ->
  0 <= va < MAXVA -> pte_of (k_mem s) root va = mkpte pa f -> 0 <= f < 1024 -> has f PTE_COW = true ->
  page_ok pa -> ~ is_table (k_mem s) root pa -> 1 <= ref s pa ->
  exists r s', copy_on_write va s = Ok r s' /\ unlocked s' /\
    ((r = 0 /\ exists q l', own_page root va pa f q s l s' l') \/
     (r = -1 /\ l = [] /\ 1 < ref s pa /\ exists c, core_eqv (k_core s) c /\ s' = set_core c s)).
Proof.
  intros root Hu Hh Hi Hpt Hva Ee Hf Hcow Hpa Hn Hr. apply wp_elim.
  apply (wp_copy_on_write va i pa f s l); try done.
  - intros q s' l' Ho. split; [eapply unlocked_eqv; [apply Ho|done]|]. left. eauto.
  - intros c -> Hlt Hc. split; [by eapply unlocked_eqv|]. right. eauto 6.
Qed.

(** Process [i] with page table [root] is about to execute an instruction of
    its own that stores to [va], an address below its size. *)
Record user_runs (c : core) (i : nat) (root va : Z) : Prop := {
  ur_ok : cpu_ok c;
  ur_kmem : free KmemLock c;
  ur_pageref : free PagerefLock c;
  ur_cur : cproc (ccpu c) = Some i;
  ur_root : pagetable (procs c i) = root;
  ur_sz : PGROUNDDOWN va < sz (procs c i);
  ur_killed : killed (procs c i) = 0
}.

(** After uvmcopy(), in whatever state [c] the processes are then: process [i],
    parent or child, stores to a page it shares with [other]. *)
Lemma shared_store old new n s l s1 l1 c i root other va b :
  heap_ok s l -> forkable old new n s -> Z.of_nat n * PGSIZE <= MAXVA -> sharing old new n n s l s1 l1 ->
  0 <= va < Z.of_nat n * PGSIZE -> has (pte_of (k_mem s) old va) PTE_U = true ->
  (root = old /\ other = new) \/ (root = new /\ other = old) -> user_runs c i root va ->
  wp (user_store i va b) (fun r s2 => r = negb (k_free s1 =? 0) /\
    forall v, 0 <= v < Z.of_nat n * PGSIZE ->
      ubyte (k_mem s2) other v = ubyte (k_mem s) old v /\
      ubyte (k_mem s2) root v = if r && (v =? va) then b else ubyte (k_mem s) old v) (set_core c s1).
Proof.
  intros Hh Hf Hmax Hs Hva HU Hwho [R1 R2 R3 R4 R5 R6 R7].
  assert (Hview : forall v, 0 <= v < Z.of_nat n * PGSIZE -> exists p g, 0 <= g < 1024 /\ page_ok p /\ 2 <= ref s1 p /\
    ~ is_table (k_mem s1) root p /\ pte_of (k_mem s) old v = mkpte p g /\
    pte_of (k_mem s1) root v = mkpte p (cow g) /\ pte_of (k_mem s1) other v = mkpte p (cow g) /\
    k_mem s1 (p + v mod PGSIZE) = ubyte (k_mem s) old v).
  { intros v Hv. destruct (sharing_view _ _ _ _ _ _ _ v Hh Hf Hmax Hs Hv) as (p & g & Hg & Hp & Hr & Ho & Hn & E & Eo & En & Hb).
    exists p, g. unfold ubyte. rewrite (ubyte_mkpte _ _ _ _ _ E), Hb by (done || apply off_range).
    by destruct Hwho as [[-> ->]|[-> ->]]. }
  assert (Hpt : pt_ok s1 root /\ pt_ok s1 other /\ disj s1 root other).
  { pose proof (sh_old _ _ _ _ _ _ _ _ Hs). pose proof (sh_new _ _ _ _ _ _ _ _ Hs).
    pose proof (sh_disj _ _ _ _ _ _ _ _ Hs) as Hd. destruct Hwho as [[-> ->]|[-> ->]]; split_and!; try done.
    intros x Hx1 Hx2. by apply (Hd x). }
  destruct Hpt as (Hpr & Hpo & Hd). pose proof (sh_heap _ _ _ _ _ _ _ _ Hs) as Hh1.
  destruct (Hview va Hva) as (pa & f & Hfl & Hpa & Hr2 & Hnt & E & Er & Eo & _).
  assert (Hlist : (k_free s1 =? 0) = bool_decide (l1 = [])).
  { destruct Hh1 as [Hfl1 _]. destruct l1 as [|q l1]; cbn [fl_rep] in Hfl1; [by rewrite Hfl1|].
    destruct Hfl1 as (-> & Hq & _). by rewrite (proj2 (Z.eqb_neq q 0)) by by apply page_ok_nonzero. }
  pose proof (cow_range_flags f Hfl) as Hcf.
  apply (wp_user_store i va b pa (cow f) (set_core c s1) l1); cbn [k_core k_mem set_core]; rewrite ?R5; try done; try lia.
  - by eapply pt_ok_same; [|exact Hpr].
  - unfold PTE_COW. rewrite has_cow by lia. by rewrite orb_true_r.
  - rewrite E in HU. unfold PTE_U in *. rewrite has_mkpte in HU by lia. by rewrite has_cow, HU by lia.
  - unfold PTE_W. rewrite has_cow by lia. by rewrite andb_false_r.
  - change (ref (set_core c s1) pa) with (ref s1 pa). lia.
  - intros c' q s2 l2 He Ho. assert (l1 <> []) as Hl1.
    { intros ->. destruct (op_which _ _ _ _ _ _ _ _ _ Ho) as [(_ & _ & ?)|(? & _)]; [|done].
      change (ref (set_core c' (set_core c s1)) pa) with (ref s1 pa) in *. lia. }
    rewrite Hlist, bool_decide_false by done. split; [done|]. intros v Hv. cbn [negb andb].
    destruct (own_page_write root other va pa (cow f) q (set_core c' (set_core c s1)) l1 s2 l2 b) as [Hw1 Hw2]; try done;
      [by eapply pt_ok_same; [|exact Hpr]|by eapply pt_ok_same; [|exact Hpo]|lia|].
    destruct (Hview v Hv) as (p & g & Hg & Hp & Hrp & Hnp & Ev & Erv & Eov & Hb). pose proof (cow_range_flags g Hg) as Hcg.
    assert (Hrp1 : 1 <= ref s1 p) by lia. assert (Hvm : 0 <= v < MAXVA) by lia. split.
    + rewrite (Hw1 v p (cow g) Hvm Eov Hcg Hp Hnp Hrp1). unfold ubyte at 1. cbn [k_mem set_core].
      by rewrite (ubyte_mkpte _ _ _ _ _ Eov).
    + rewrite (Hw2 v p (cow g) Hvm Erv Hcg Hp Hnp Hrp1 Er). destruct (v =? va); [done|]. unfold ubyte at 1. cbn [k_mem set_core].
      by rewrite (ubyte_mkpte _ _ _ _ _ Erv).
  - intros c' -> _. rewrite Hlist, bool_decide_true by done. split; [done|]. intros v Hv.
    destruct (Hview v Hv) as (p & g & Hg & Hp & _ & _ & _ & Erv & Eov & Hb). pose proof (cow_range_flags g Hg) as Hcg.
    unfold ubyte at 1 3. cbn [k_mem set_core andb negb].
    by rewrite (ubyte_mkpte _ _ _ _ _ Eov), (ubyte_mkpte _ _ _ _ _ Erv).
Qed.

(** C1: fork is isolated.  uvmcopy() shares the pages of the parent with the
    child; afterwards one of the two processes, whichever it is, executes a
    store to one of these pages.  The hart refuses the store and the kernel
    handles the fault.  If there is a free page, the store then succeeds: the
    other process still sees every byte the parent had before the fork, and
    the process that stored sees these bytes except for the one it wrote.  If
    memory has run out, the process is killed and neither sees a change. *)
Theorem fork_write_isolated old new sz va b s l :
  let n := npages 0 sz in
  unlocked s -> heap_ok s l -> 0 <= sz <= MAXVA -> forkable old new n s -> 0 <= va < Z.of_nat n * PGSIZE ->
  has (pte_of (k_mem s) old va) PTE_U = true ->
  exists r s1, uvmcopy old new sz s = Ok r s1 /\ (r = 0 \/ r = -1) /\
    (r = 0 -> forall c i root other,
       (root = old /\ other = new) \/ (root = new /\ other = old) -> user_runs c i root va ->
       exists stored s2, user_store i va b (set_core c s1) = Ok stored s2 /\ stored = negb (k_free s1 =? 0) /\
         forall v, 0 <= v < Z.of_nat n * PGSIZE ->
           ubyte (k_mem s2) other v = ubyte (k_mem s) old v /\
           ubyte (k_mem s2) root v = if stored && (v =? va) then b else ubyte (k_mem s) old v).
Proof.
  intros n Hu Hh Hsz Hf Hva HU. apply wp_elim. destruct (PGROUNDUP_max sz Hsz) as [Hm1 Hm2].
  assert (Hmax : Z.of_nat n * PGSIZE <= MAXVA).
  { unfold n, npages. apply Z.mod_divide in Hm1 as [k Hk]; [|done].
    rewrite Hk, Z.sub_0_r, Z.div_mul by done. unfold PGSIZE in *. lia. }
  apply (wp_uvmcopy _ _ _ _ l); try done.
  - intros s1 l1 Hs. split; [by left|]. intros _ c i root other Hwho Hr. apply wp_elim.
    by apply (shared_store old new n s l s1 l1).
  - intros j s1 l1 _ _. split; [by right|done].
Qed.

End Cow.

(** ** Examples, on the machine with eight pages *)

Section Witness.
#[local] Existing Instance image8.

Lemma fork8 n : 1 <= n < 2 ^ 31 - 1 -> forkable (pg 0) (pg 4) 1 (kst8 user_rwx n 0).
Proof.
  intros Hn. constructor; [apply pt8_old|apply pt8_new|..].
  - intros q (k & Hk & ->)%table8_old E%table8_new%pg_inj. lia.
  - intros i Hi. assert (i = 0%nat) as -> by lia. exists (pg 3), user_rwx.
    split; [by apply pte8_old|]. split; [done|]. split; [by apply pg_ok|].
    split; [intros (k & Hk & E%pg_inj)%table8_old; lia|].
    split; [by intros E%table8_new%pg_inj|]. rewrite ref8_pg by done. simpl. lia.
  - intros va Hva. unfold pte_of, slot. cbn [k_mem kst8]. rewrite tab8_new by apply path_va. done.
Qed.

Lemma uvmcopy_correct_witness :
  exists r s', uvmcopy (pg 0) (pg 4) 100 (kst8 user_rwx 1 0) = Ok r s' /\ unlocked s'.
Proof.
  destruct (uvmcopy_correct (pg 0) (pg 4) 100 (kst8 user_rwx 1 0) [pg 5; pg 6; pg 7]) as (r & s' & l' & H1 & H2 & _).
  - apply unlocked8.
  - by apply heap8.
  - rewrite MAXVA_eq. lia.
  - by apply fork8.
  - exists r, s'. split; [exact H1|exact H2].
Defined.

Lemma copy_on_write_correct_witness :
  exists r s', copy_on_write 5 (kst8 (cow user_rwx) 2 1) = Ok r s' /\ unlocked s'.
Proof.
  destruct (copy_on_write_correct 5 1 (pg 3) (cow user_rwx) (kst8 (cow user_rwx) 2 1) [pg 5; pg 6; pg 7])
    as (r & s' & H1 & H2 & _).
  - apply unlocked8.
  - by apply heap8.
  - done.
  - apply pt8_old.
  - rewrite MAXVA_eq. lia.
  - change (pagetable _) with (pg 0). rewrite <- pte_of_page. by apply pte8_old.
  - done.
  - done.
  - by apply pg_ok.
  - intros (k & Hk & E%pg_inj)%table8_old. lia.
  - by rewrite ref8_pg.
  - exists r, s'. split; [exact H1|exact H2].
Defined.

Lemma fork_write_isolated_witness :
  exists s1, uvmcopy (pg 0) (pg 4) 100 (kst8 user_rwx 1 0) = Ok 0 s1 /\
    exists s2, user_store 0 7 Byte.xff (set_core (core8 0) s1) = Ok true s2 /\
      ubyte (k_mem s2) (pg 0) 7 = Byte.x2a /\ ubyte (k_mem s2) (pg 4) 7 = Byte.xff.
Proof.
  destruct (fork_write_isolated (pg 0) (pg 4) 100 7 Byte.xff (kst8 user_rwx 1 0) [pg 5; pg 6; pg 7]) as (r & s1 & H1 & _ & H2).
  - apply unlocked8.
  - by apply heap8.
  - rewrite MAXVA_eq. lia.
  - by apply fork8.
  - split; [lia|reflexivity].
  - rewrite <- pte_of_page. change (PGROUNDDOWN 7) with 0. cbn [k_mem kst8]. by rewrite pte8_old.
  - assert (Hc : match uvmcopy (pg 0) (pg 4) 100 (kst8 user_rwx 1 0) with Ok r s => r = 0 /\ k_free s <> 0 | _ => False end)
      by (vm_compute; split; [reflexivity|discriminate]).
    rewrite H1 in Hc. destruct Hc as [-> Hfree]. exists s1. split; [exact H1|].
    destruct (H2 eq_refl (core8 0) 0%nat (pg 4) (pg 0)) as (r & s2 & H3 & -> & H4);
      [right; split; reflexivity|split; reflexivity || (split; cbn; lia)|].
    rewrite (proj2 (Z.eqb_neq _ 0) Hfree) in H3, H4. exists s2. split; [exact H3|].
    destruct (H4 7) as [H5 H6]; [split; [lia|reflexivity]|]. split; [exact (eq_trans H5 eq_refl)|exact H6].
Defined.

End Witness.
