(* ===== verification/Asm.v ===== *)
(** The assembly of the kernel: entry.S, swtch.S, trampoline.S and kernelvec.S.

    A hart has its registers, a few control registers and the memory it sees
    through the page table in satp.  Each routine is its list of instructions;
    [run] executes one.  C functions the assembly calls are a parameter. *)

From stdpp Require Import base tactics list strings.
From Stdlib Require Import ZArith Lia FunctionalExtensionality.
From coqutil Require Import Byte.
From S2P Require Import Prelude Riscv Mem Core Spinlock Kalloc Vm Pt Cow.

Local Open Scope Z_scope.

(** ** The machine *)

Inductive reg :=
| ra | sp | gp | tp | t0 | t1 | t2 | s0 | s1 | a0 | a1 | a2 | a3 | a4 | a5 | a6 | a7
| s2 | s3 | s4 | s5 | s6 | s7 | s8 | s9 | s10 | s11 | t3 | t4 | t5 | t6.

Inductive csr := sscratch | satp | mscratch | sip | mhartid.

#[export] Instance reg_eq_dec : EqDecision reg.
Proof. solve_decision. Defined.
#[export] Instance csr_eq_dec : EqDecision csr.
Proof. solve_decision. Defined.

Record hart := mkhart { xr : reg -> Z; cs : csr -> Z; hm : mem }.

Definition set_xr (r : reg) (v : Z) (h : hart) : hart := mkhart (fupd (xr h) r v) (cs h) (hm h).
Definition set_cs (c : csr) (v : Z) (h : hart) : hart := mkhart (xr h) (fupd (cs h) c v) (hm h).
Definition set_hm (m : mem) (h : hart) : hart := mkhart (xr h) (cs h) m.

(** Machine mode uses physical addresses, and so does supervisor mode while
    satp is 0; otherwise Sv39 translation applies, in which supervisor mode
    must not touch user pages.  None is a fault. *)
Inductive mode := MachineMode | SupervisorMode.

Definition canonical (va : Z) : bool := (0 <=? va) && (va <? 2 ^ 38) || (2 ^ 64 - 2 ^ 38 <=? va) && (va <? 2 ^ 64).

Definition satp_root (v : Z) : Z := Z.shiftl (Z.land v (Z.ones 44)) 12.

Definition xlate (md : mode) (v perm : Z) (m : mem) (va : Z) : option Z :=
  if negb (va mod 8 =? 0) then None
  else
    match md with
    | MachineMode => Some va
    | SupervisorMode =>
        if v =? 0 then Some va
        else
          let e := pte_of m (satp_root v) va in
          if canonical va && has e PTE_V && has e perm && negb (has e PTE_U)
          then Some (PTE2PA e + va mod PGSIZE) else None
    end.

Inductive instr :=
| SD (rs2 : reg) (off : Z) (rs1 : reg)
| LD (rd : reg) (off : Z) (rs1 : reg)
| ADDI (rd rs : reg) (imm : Z)
| ADD (rd rs1 rs2 : reg)
| MUL (rd rs1 rs2 : reg)
| LI (rd : reg) (imm : Z)
| LA (rd : reg) (symbol : string)
| CSRRW (rd : reg) (c : csr) (rs : reg)
| CSRR (rd : reg) (c : csr)
| CSRW (c : csr) (rs : reg)
| SFENCE_VMA
| CALL (f : string)
| JR (rs : reg)
| RET
| SRET
| MRET
| J_SELF.

(** How a routine ends. *)
Inductive leaves :=
| Jumps (pc : Z) (h : hart)  (** jr, ret *)
| Srets (h : hart)
| Mrets (h : hart)
| NoReturn (f : string) (h : hart)  (** in a C function that does not return *)
| Spins (h : hart)
| Faults (h : hart)
| FallsThrough (h : hart).

Section Run.
(** Where the linker puts a symbol, and what the C functions do. *)
Context (symbol : string -> Z) (cfun : string -> hart -> option hart) (md : mode).

Fixpoint run (code : list instr) (h : hart) : leaves :=
  match code with
  | [] => FallsThrough h
  | i :: code =>
      match i with
      | SD rs2 off rs1 =>
          match xlate md (cs h satp) PTE_W (hm h) (u64 (xr h rs1 + off)) with
          | Some pa => run code (set_hm (store64 (hm h) pa (xr h rs2)) h)
          | None => Faults h
          end
      | LD rd off rs1 =>
          match xlate md (cs h satp) PTE_R (hm h) (u64 (xr h rs1 + off)) with
          | Some pa => run code (set_xr rd (load64 (hm h) pa) h)
          | None => Faults h
          end
      | ADDI rd rs imm => run code (set_xr rd (u64 (xr h rs + imm)) h)
      | ADD rd rs1 rs2 => run code (set_xr rd (u64 (xr h rs1 + xr h rs2)) h)
      | MUL rd rs1 rs2 => run code (set_xr rd (u64 (xr h rs1 * xr h rs2)) h)
      | LI rd imm => run code (set_xr rd (u64 imm) h)
      | LA rd s => run code (set_xr rd (symbol s) h)
      | CSRRW rd c rs => run code (set_xr rd (cs h c) (set_cs c (xr h rs) h))
      | CSRR rd c => run code (set_xr rd (cs h c) h)
      | CSRW c rs => run code (set_cs c (xr h rs) h)
      | SFENCE_VMA => run code h
      | CALL f => match cfun f h with Some h' => run code h' | None => NoReturn f h end
      | JR rs => Jumps (xr h rs) h
      | RET => Jumps (xr h ra) h
      | SRET => Srets h
      | MRET => Mrets h
      | J_SELF => Spins h
      end
  end.
End Run.

(** ** entry.S *)

Definition _entry : list instr :=
  [LA sp "stack0";
   LI a0 (1024 * 4);
   CSRR a1 mhartid;
   ADDI a1 a1 1;
   MUL a0 a0 a1;
   ADD sp sp a0;
   CALL "start";
   J_SELF].

(** ** swtch.S *)

Definition swtch : list instr :=
  [SD ra 0 a0; SD sp 8 a0;
   SD s0 16 a0; SD s1 24 a0; SD s2 32 a0; SD s3 40 a0; SD s4 48 a0; SD s5 56 a0;
   SD s6 64 a0; SD s7 72 a0; SD s8 80 a0; SD s9 88 a0; SD s10 96 a0; SD s11 104 a0;
   LD ra 0 a1; LD sp 8 a1;
   LD s0 16 a1; LD s1 24 a1; LD s2 32 a1; LD s3 40 a1; LD s4 48 a1; LD s5 56 a1;
   LD s6 64 a1; LD s7 72 a1; LD s8 80 a1; LD s9 88 a1; LD s10 96 a1; LD s11 104 a1;
   RET].

(** ** trampoline.S *)

Definition uservec : list instr :=
  [CSRRW a0 sscratch a0;
   SD ra 40 a0; SD sp 48 a0; SD gp 56 a0; SD tp 64 a0;
   SD t0 72 a0; SD t1 80 a0; SD t2 88 a0; SD s0 96 a0; SD s1 104 a0;
   SD a1 120 a0; SD a2 128 a0; SD a3 136 a0; SD a4 144 a0; SD a5 152 a0; SD a6 160 a0; SD a7 168 a0;
   SD s2 176 a0; SD s3 184 a0; SD s4 192 a0; SD s5 200 a0; SD s6 208 a0; SD s7 216 a0;
   SD s8 224 a0; SD s9 232 a0; SD s10 240 a0; SD s11 248 a0;
   SD t3 256 a0; SD t4 264 a0; SD t5 272 a0; SD t6 280 a0;
   CSRR t0 sscratch;
   SD t0 112 a0;
   LD sp 8 a0;
   LD tp 32 a0;
   LD t0 16 a0;
   LD t1 0 a0;
   CSRW satp t1;
   SFENCE_VMA;
   JR t0].

Definition userret : list instr :=
  [CSRW satp a1;
   SFENCE_VMA;
   LD t0 112 a0;
   CSRW sscratch t0;
   LD ra 40 a0; LD sp 48 a0; LD gp 56 a0; LD tp 64 a0;
   LD t0 72 a0; LD t1 80 a0; LD t2 88 a0; LD s0 96 a0; LD s1 104 a0;
   LD a1 120 a0; LD a2 128 a0; LD a3 136 a0; LD a4 144 a0; LD a5 152 a0; LD a6 160 a0; LD a7 168 a0;
   LD s2 176 a0; LD s3 184 a0; LD s4 192 a0; LD s5 200 a0; LD s6 208 a0; LD s7 216 a0;
   LD s8 224 a0; LD s9 232 a0; LD s10 240 a0; LD s11 248 a0;
   LD t3 256 a0; LD t4 264 a0; LD t5 272 a0; LD t6 280 a0;
   CSRRW a0 sscratch a0;
   SRET].

(** ** kernelvec.S *)

Definition kernelvec : list instr :=
  [ADDI sp sp (-256);
   SD ra 0 sp; SD sp 8 sp; SD gp 16 sp; SD tp 24 sp;
   SD t0 32 sp; SD t1 40 sp; SD t2 48 sp; SD s0 56 sp; SD s1 64 sp;
   SD a0 72 sp; SD a1 80 sp; SD a2 88 sp; SD a3 96 sp; SD a4 104 sp; SD a5 112 sp; SD a6 120 sp; SD a7 128 sp;
   SD s2 136 sp; SD s3 144 sp; SD s4 152 sp; SD s5 160 sp; SD s6 168 sp; SD s7 176 sp;
   SD s8 184 sp; SD s9 192 sp; SD s10 200 sp; SD s11 208 sp;
   SD t3 216 sp; SD t4 224 sp; SD t5 232 sp; SD t6 240 sp;
   CALL "kerneltrap";
   LD ra 0 sp; LD sp 8 sp; LD gp 16 sp;
   LD t0 32 sp; LD t1 40 sp; LD t2 48 sp; LD s0 56 sp; LD s1 64 sp;
   LD a0 72 sp; LD a1 80 sp; LD a2 88 sp; LD a3 96 sp; LD a4 104 sp; LD a5 112 sp; LD a6 120 sp; LD a7 128 sp;
   LD s2 136 sp; LD s3 144 sp; LD s4 152 sp; LD s5 160 sp; LD s6 168 sp; LD s7 176 sp;
   LD s8 184 sp; LD s9 192 sp; LD s10 200 sp; LD s11 208 sp;
   LD t3 216 sp; LD t4 224 sp; LD t5 232 sp; LD t6 240 sp;
   ADDI sp sp 256;
   SRET].

Definition timervec : list instr :=
  [CSRRW a0 mscratch a0;
   SD a1 0 a0;
   SD a2 8 a0;
   SD a3 16 a0;
   LD a1 32 a0;
   LD a2 40 a0;
   LD a3 0 a1;
   ADD a3 a3 a2;
   SD a3 0 a1;
   LI a1 2;
   CSRW sip a1;
   LD a3 16 a0;
   LD a2 8 a0;
   LD a1 0 a0;
   CSRRW a0 mscratch a0;
   MRET].
