(* ===== verification/AsmOk.v ===== *)
(** What the assembly routines do: saving and restoring registers, the context
    switch, the kernel's own trap vector and the timer vector. *)

From stdpp Require Import base tactics list strings.
From Stdlib Require Import ZArith Lia FunctionalExtensionality.
From coqutil Require Import Byte.
From S2P Require Import Prelude Riscv Mem Core Spinlock Kalloc Vm Pt Cow Asm.

Local Open Scope Z_scope.

(** ** Saving and restoring registers *)

(** The [n] bytes from the virtual address [va] on are the [n] bytes of memory
    from [pa] on, whatever is stored in the memory region [R]. *)
Definition window (R : Z -> Prop) (md : mode) (v perm : Z) (m : mem) (va n pa : Z) : Prop :=
  forall m', (forall y, ~ R y -> m' y = m y) ->
  forall off, 0 <= off -> off + 8 <= n -> off mod 8 = 0 -> xlate md v perm m' (u64 (va + off)) = Some (pa + off).

Definition fits (n : Z) (p : reg * Z) : Prop := 0 <= p.2 /\ p.2 + 8 <= n /\ p.2 mod 8 = 0.

Definition saves (l : list (reg * Z)) (b : reg) : list instr := (fun p => SD p.1 p.2 b) <$> l.
Definition loads (l : list (reg * Z)) (b : reg) : list instr := (fun p => LD p.1 p.2 b) <$> l.

Definition save_all (pa : Z) (x : reg -> Z) (l : list (reg * Z)) (m : mem) : mem :=
  foldl (fun m p => store64 m (pa + p.2) (x p.1)) m l.
Definition load_all (pa : Z) (m : mem) (l : list (reg * Z)) (x : reg -> Z) : reg -> Z :=
  foldl (fun x p => fupd x p.1 (load64 m (pa + p.2))) x l.

Lemma save_all_cons pa x r o l m : save_all pa x ((r, o) :: l) m = save_all pa x l (store64 m (pa + o) (x r)).
Proof. done. Qed.

Lemma load_all_cons pa m r o l x : load_all pa m ((r, o) :: l) x = load_all pa m l (fupd x r (load64 m (pa + o))).
Proof. done. Qed.

Lemma window_change R md v perm m m1 va n pa :
  (forall y, ~ R y -> m1 y = m y) -> window R md v perm m va n pa -> window R md v perm m1 va n pa.
Proof. intros E W m' Hm'. apply W. intros y Hy. by rewrite Hm', E. Qed.

Lemma window_at R md v perm m va n pa off :
  window R md v perm m va n pa -> fits n (ra, off) -> xlate md v perm m (u64 (va + off)) = Some (pa + off).
Proof. intros W (? & ? & ?). by apply W. Qed.

Lemma save_all_out pa n x l m y :
  Forall (fits n) l -> ~ (pa <= y < pa + n) -> save_all pa x l m y = m y.
Proof.
  revert m. induction l as [|[r o] l IH]; intros m Hl Hy; [done|]. apply Forall_cons in Hl as [(Ho & Hn & _) Hl]. rewrite save_all_cons.
  rewrite IH by done. apply store64_out. simpl in *. lia.
Qed.

Lemma load_save_other pa n x l m o :
  Forall (fits n) l -> o ∉ l.*2 -> o mod 8 = 0 -> load64 (save_all pa x l m) (pa + o) = load64 m (pa + o).
Proof.
  revert m. induction l as [|[r o'] l IH]; intros m Hl Ho Hm; [done|]. apply Forall_cons in Hl as [(_ & _ & Hm') Hl].
  rewrite fmap_cons, not_elem_of_cons in Ho. destruct Ho as [Hne Ho]. rewrite save_all_cons.
  rewrite IH by done. apply load64_store64_other. simpl in *. apply Z.div_exact in Hm, Hm'; lia.
Qed.

Lemma load_save pa n x l m r o :
  Forall (fits n) l -> NoDup l.*2 -> (r, o) ∈ l -> load64 (save_all pa x l m) (pa + o) = u64 (x r).
Proof.
  revert m. induction l as [|[r' o'] l IH]; intros m Hl Hn Hin; [by apply not_elem_of_nil in Hin|].
  apply Forall_cons in Hl as [(_ & _ & Hm) Hl]. rewrite fmap_cons in Hn. apply NoDup_cons in Hn as [Hn' Hn].
  rewrite save_all_cons. apply elem_of_cons in Hin as [[= <- <-]|Hin].
  - rewrite (load_save_other pa n) by done. apply load64_store64_same.
  - by apply IH.
Qed.

Lemma load_all_eq pa m l x y :
  (forall r o, (r, o) ∈ l -> load64 m (pa + o) = y r) ->
  load_all pa m l x = fun r => if decide (r ∈ l.*1) then y r else x r.
Proof.
  revert x. induction l as [|[r o] l IH]; intros x Hy; extensionality q.
  - by rewrite decide_False by apply not_elem_of_nil.
  - rewrite load_all_cons, IH by (intros; apply Hy; by right). cbn [fst snd].
    rewrite (Hy r o) by by left. rewrite fmap_cons. cbn [fst]. unfold fupd.
    destruct (decide (q ∈ l.*1)) as [Hq|Hq]; [by rewrite decide_True by by right|].
    destruct (decide (q = r)) as [->|Hqr]; [by rewrite decide_True by by left|].
    rewrite decide_False; [done|]. by apply not_elem_of_cons.
Qed.

Lemma load_all_same pa m l x r : r ∉ l.*1 -> load_all pa m l x r = x r.
Proof.
  revert x. induction l as [|[q o] l IH]; intros x Hr; [done|]. rewrite fmap_cons, not_elem_of_cons in Hr. destruct Hr as [Hq Hr].
  rewrite load_all_cons, IH by done. by apply fupd_ne.
Qed.

Lemma not_loaded (b : reg) (o : Z) (l : list (reg * Z)) (P : Prop) : b ∉ l.*1 -> (b, o) ∈ l -> P.
Proof. intros Hn Hin. destruct Hn. by apply (list_elem_of_fmap_2 fst) in Hin. Qed.

(** A list of saves or loads is checked by computation. *)
Definition fitsb (n : Z) (l : list (reg * Z)) : bool :=
  forallb (fun p => (0 <=? p.2) && (p.2 + 8 <=? n) && (p.2 mod 8 =? 0)) l.

Lemma fitsb_ok n l : fitsb n l = true -> Forall (fits n) l.
Proof.
  intros E. apply Forall_forall. intros p Hp. unfold fitsb in E. rewrite forallb_forall in E.
  apply list_elem_of_In in Hp. apply E in Hp. unfold fits. lia.
Qed.

Section Run.
Context (symbol : string -> Z) (cfun : string -> hart -> option hart) (md : mode).
#[local] Abbreviation run := (run symbol cfun md).

Lemma run_saves R l b k h n pa :
  window R md (cs h satp) PTE_W (hm h) (xr h b) n pa -> (forall y, pa <= y < pa + n -> R y) -> Forall (fits n) l ->
  run (saves l b ++ k) h = run k (set_hm (save_all pa (xr h) l (hm h)) h).
Proof.
  revert h. induction l as [|[r o] l IH]; intros h W HR Hl; [by destruct h|].
  apply Forall_cons in Hl as [Ho Hl]. cbn [saves fmap list_fmap app Asm.run fst snd].
  rewrite (window_at R _ _ _ _ _ n pa) by done. etransitivity; [apply IH|done]; [|done|done]. cbn [cs hm xr set_hm].
  eapply window_change; [|exact W]. intros y Hy. apply store64_out. intros Hin. apply Hy, HR. destruct Ho as (? & ? & _). simpl in *. lia.
Qed.

Lemma run_loads R l b k h n pa :
  window R md (cs h satp) PTE_R (hm h) (xr h b) n pa -> Forall (fits n) l ->
  (forall o, (b, o) ∈ l -> load64 (hm h) (pa + o) = xr h b) ->
  run (loads l b ++ k) h = run k (mkhart (load_all pa (hm h) l (xr h)) (cs h) (hm h)).
Proof.
  revert h. induction l as [|[r o] l IH]; intros h W Hl Hb; [by destruct h|].
  apply Forall_cons in Hl as [Ho Hl]. cbn [loads fmap list_fmap app Asm.run fst snd].
  rewrite (window_at R _ _ _ _ _ n pa) by done.
  assert (Eb : xr (set_xr r (load64 (hm h) (pa + o)) h) b = xr h b).
  { cbn. destruct (decide (r = b)) as [->|Hr]; [rewrite fupd_eq; apply Hb; by left|by rewrite fupd_ne]. }
  etransitivity; [apply IH|done].
  - cbn [cs hm set_xr]. by rewrite Eb.
  - done.
  - intros o' Ho'. rewrite Eb. apply Hb. by right.
Qed.

(** Registers are saved, then the one kept in sscratch, then others loaded. *)
Lemma run_save_swap R l o kl code h n pa :
  (forall perm, perm = PTE_R \/ perm = PTE_W -> window R md (cs h satp) perm (hm h) (xr h a0) n pa) ->
  (forall y, pa <= y < pa + n -> R y) -> Forall (fits n) l -> fits n (t0, o) -> Forall (fits n) kl -> a0 ∉ kl.*1 ->
  let m := store64 (save_all pa (xr h) l (hm h)) (pa + o) (cs h sscratch) in
  run (saves l a0 ++ CSRR t0 sscratch :: saves [(t0, o)] a0 ++ loads kl a0 ++ code) h =
  run code (mkhart (load_all pa m kl (fupd (xr h) t0 (cs h sscratch))) (cs h) m).
Proof.
  intros W HR Hl Ho Hkl Hn m. rewrite (run_saves R _ _ _ _ n pa) by (done || by apply W; right).
  assert (M1 : forall y, ~ R y -> save_all pa (xr h) l (hm h) y = hm h y)
    by (intros y Hy; apply (save_all_out _ n); [done|]; intros Hin; by apply Hy, HR).
  assert (M2 : forall y, ~ R y -> m y = hm h y).
  { intros y Hy. unfold m. rewrite store64_out; [by apply M1|]. intros Hin. apply Hy, HR. destruct Ho as (? & ? & _). simpl in *. lia. }
  assert (X0 : fupd (xr h) t0 (cs h sscratch) a0 = xr h a0) by by apply fupd_ne.
  cbn [Asm.run]. rewrite (run_saves R _ _ _ _ n pa); [|cbn [cs hm xr set_xr set_hm]; rewrite X0|done|by apply Forall_singleton].
  2: { eapply window_change; [exact M1|]. apply W. by right. }
  rewrite save_all_cons. cbn [cs hm xr set_xr set_hm save_all foldl]. rewrite fupd_eq. fold m.
  rewrite (run_loads R _ _ _ _ n pa); [done| |done|intros o'; by apply not_loaded].
  cbn [cs hm xr set_xr set_hm]. rewrite X0. eapply window_change; [exact M2|]. apply W. by left.
Qed.

(** The way back. *)
Lemma run_load_swap R l o code h n pa :
  window R md (cs h satp) PTE_R (hm h) (xr h a0) n pa -> Forall (fits n) l -> fits n (t0, o) -> a0 ∉ l.*1 ->
  let v := load64 (hm h) (pa + o) in
  run (loads [(t0, o)] a0 ++ CSRW sscratch t0 :: loads l a0 ++ code) h =
  run code (mkhart (load_all pa (hm h) l (fupd (xr h) t0 v)) (fupd (cs h) sscratch v) (hm h)).
Proof.
  intros W Hl Ho Hn v. assert (X0 : fupd (xr h) t0 v a0 = xr h a0) by by apply fupd_ne.
  rewrite (run_loads R _ _ _ _ n pa); [|done|by apply Forall_singleton|intros o'; apply not_loaded, (bool_decide_unpack _); by vm_compute].
  rewrite load_all_cons. fold v. cbn [Asm.run load_all foldl]. cbn [xr]. rewrite fupd_eq.
  rewrite (run_loads R _ _ _ _ n pa); [done| |done|intros o'; by apply not_loaded].
  cbn [cs hm xr set_cs]. by rewrite X0, fupd_ne.
Qed.

(** ** swtch() *)

Definition callee_saved : list reg := [s0; s1; s2; s3; s4; s5; s6; s7; s8; s9; s10; s11].

(** The context of the running thread, and one saved in memory. *)
Definition thread (x : reg -> Z) : context := mkcontext (x ra) (x sp) (x <$> callee_saved).
Fixpoint pos (r : reg) (l : list reg) : Z :=
  match l with [] => 0 | x :: l => if decide (x = r) then 0 else 1 + pos r l end.
Definition context_fields : list reg := ra :: sp :: callee_saved.
Definition context_at (m : mem) (a : Z) : context := thread (fun r => load64 m (a + 8 * pos r context_fields)).
Definition sizeof_context : Z := 112.

Definition swtch_regs : list (reg * Z) :=
  [(ra, 0); (sp, 8); (s0, 16); (s1, 24); (s2, 32); (s3, 40); (s4, 48); (s5, 56);
   (s6, 64); (s7, 72); (s8, 80); (s9, 88); (s10, 96); (s11, 104)].

Lemma thread_ext x y : (forall r, r ∈ context_fields -> x r = y r) -> thread x = thread y.
Proof. intros E. unfold thread, callee_saved. cbn [fmap list_fmap]. rewrite !E by (repeat first [by left|right]). done. Qed.

Lemma context_pos r : r ∈ context_fields -> (r, 8 * pos r context_fields) ∈ swtch_regs.
Proof. apply (Forall_forall (fun r => (r, 8 * pos r context_fields) ∈ swtch_regs)), (bool_decide_unpack _). by vm_compute. Qed.

Lemma swtch_code : swtch = saves swtch_regs a0 ++ loads swtch_regs a1 ++ [RET].
Proof. done. Qed.

Definition regs_ok (x : reg -> Z) : Prop := forall r, 0 <= x r < 2 ^ 64.

(** The two contexts of a call of swtch() are kernel data. *)
Record swtch_args (R : Z -> Prop) (h : hart) (old new : Z) : Prop := {
  sa_regs : regs_ok (xr h);
  sa_old : window R md (cs h satp) PTE_W (hm h) (xr h a0) sizeof_context old;
  sa_new : window R md (cs h satp) PTE_R (hm h) (xr h a1) sizeof_context new;
  sa_data : forall y, old <= y < old + sizeof_context -> R y;
  sa_apart : old + sizeof_context <= new \/ new + sizeof_context <= old;
}.

Lemma swtch_eq R h old new :
  swtch_args R h old new ->
  exists h1, run swtch h = Jumps (ctx_ra (context_at (hm h) new)) h1 /\
    thread (xr h1) = context_at (hm h) new /\ context_at (hm h1) old = thread (xr h) /\
    cs h1 = cs h /\ (forall r, r ∉ swtch_regs.*1 -> xr h1 r = xr h r) /\
    (forall y, ~ (old <= y < old + sizeof_context) -> hm h1 y = hm h y).
Proof.
  intros [Hr Ho Hn HR Ha]. assert (Hf := fitsb_ok sizeof_context swtch_regs eq_refl).
  set (m1 := save_all old (xr h) swtch_regs (hm h)).
  assert (Hout : forall y, ~ (old <= y < old + sizeof_context) -> m1 y = hm h y) by (intros; by eapply save_all_out).
  assert (Hld : forall o, 0 <= o -> o + 8 <= sizeof_context -> load64 m1 (new + o) = load64 (hm h) (new + o)).
  { intros o Ho1 Ho2. apply load64_ext. intros y Hy. apply Hout. lia. }
  assert (Eld : load_all new m1 swtch_regs (xr h) = fun r => if decide (r ∈ swtch_regs.*1) then load64 (hm h) (new + 8 * pos r context_fields) else xr h r).
  { apply load_all_eq. intros r o Hin. assert (Hp := proj1 (Forall_forall _ _) Hf _ Hin). destruct Hp as (? & ? & _). rewrite Hld by done.
    do 2 f_equal. clear -Hin. revert Hin. apply (Forall_forall (fun p => p.2 = 8 * pos p.1 context_fields)), (bool_decide_unpack _). by vm_compute. }
  exists (mkhart (load_all new m1 swtch_regs (xr h)) (cs h) m1).
  rewrite swtch_code, (run_saves R _ _ _ _ sizeof_context old), (run_loads R _ _ _ _ sizeof_context new);
    [|by eapply window_change; [|exact Hn]; intros y Hy; apply Hout; intros Hin; apply Hy, HR|done|
      by intros o; apply not_loaded, (bool_decide_unpack _); vm_compute|done|done|done].
  cbn [cs hm set_hm Asm.run xr]. split_and!; [| | |done| |done].
  - apply (f_equal (fun v => Jumps v _)). change (load_all new m1 swtch_regs (xr h) ra = ctx_ra (context_at (hm h) new)).
    rewrite Eld. by rewrite decide_True by by left.
  - apply thread_ext. intros r Hr'. rewrite Eld. rewrite decide_True; [done|]. apply (list_elem_of_fmap_2 fst _ _ (context_pos r Hr')).
  - apply thread_ext. intros r Hr'. unfold m1. erewrite load_save; [by apply u64_small|done| |by apply context_pos].
    apply (bool_decide_unpack _). by vm_compute.
  - intros r Hnr. by apply load_all_same.
Qed.

Lemma context_at_ext m m' a : same_on m m' a sizeof_context -> context_at m' a = context_at m a.
Proof.
  intros E. apply thread_ext. intros r Hr. apply context_pos in Hr. assert (Hf := fitsb_ok sizeof_context swtch_regs eq_refl).
  apply (proj1 (Forall_forall _ _) Hf) in Hr as (? & ? & _). simpl in *. apply load64_ext.
  eapply same_on_sub; [exact E|lia|lia].
Qed.

(** C12: swtch(old, new) is a context switch.  It stores ra, sp and the
    callee-saved registers as the context at [old], loads those of the context
    at [new] and returns to the saved ra of [new]; every other register and
    all other memory is unchanged.  When some thread later switches to [old],
    and the context stored there has not been touched, the first thread goes
    on after its call with the stack and the callee-saved registers it had. *)
Theorem swtch_correct R h old new :
  swtch_args R h old new ->
  exists h1, run swtch h = Jumps (ctx_ra (context_at (hm h) new)) h1 /\
    thread (xr h1) = context_at (hm h) new /\ context_at (hm h1) old = thread (xr h) /\
    (forall r, r ∉ context_fields -> xr h1 r = xr h r) /\
    (forall y, ~ (old <= y < old + sizeof_context) -> hm h1 y = hm h y) /\
    forall h2 cur, swtch_args R h2 cur old -> same_on (hm h1) (hm h2) old sizeof_context ->
      exists h3, run swtch h2 = Jumps (xr h ra) h3 /\ thread (xr h3) = thread (xr h).
Proof.
  intros Ha. destruct (swtch_eq R h old new Ha) as (h1 & E & Ht & Hc & _ & Hx & Hm).
  exists h1. split_and!; [done|done|done|exact Hx|done|]. intros h2 cur Ha2 Hs.
  destruct (swtch_eq R h2 cur old Ha2) as (h3 & E3 & Ht3 & _). apply context_at_ext in Hs. rewrite Hs, Hc in E3, Ht3.
  by exists h3.
Qed.

(** ** kernelvec *)

Definition kernelvec_saves : list (reg * Z) :=
  [(ra, 0); (sp, 8); (gp, 16); (tp, 24); (t0, 32); (t1, 40); (t2, 48); (s0, 56); (s1, 64);
   (a0, 72); (a1, 80); (a2, 88); (a3, 96); (a4, 104); (a5, 112); (a6, 120); (a7, 128);
   (s2, 136); (s3, 144); (s4, 152); (s5, 160); (s6, 168); (s7, 176); (s8, 184); (s9, 192); (s10, 200); (s11, 208);
   (t3, 216); (t4, 224); (t5, 232); (t6, 240)].
Definition kernelvec_loads : list (reg * Z) := filter (fun p => p.1 <> tp) kernelvec_saves.

Lemma kernelvec_code :
  kernelvec = ADDI sp sp (-256) :: saves kernelvec_saves sp ++
    CALL "kerneltrap" :: loads kernelvec_loads sp ++ [ADDI sp sp 256; SRET].
Proof. done. Qed.

(** What kernelvec relies on when it calls a C function: the calling
    convention keeps sp, and the function neither writes to the frame of its
    caller, or to the [n] bytes of the stack above it, nor changes the page
    table. *)
Record returns (R : Z -> Prop) (frame n : Z) (h h' : hart) : Prop := {
  rt_sp : xr h' sp = xr h sp;
  rt_satp : cs h' satp = cs h satp;
  rt_frame : same_on (hm h) (hm h') frame (256 + n);
  rt_mem : forall y, ~ R y -> hm h' y = hm h y;
}.

Record kernel_stack (R : Z -> Prop) (h : hart) (frame : Z) : Prop := {
  ks_regs : regs_ok (xr h);
  ks_room : 256 <= xr h sp;
  ks_write : window R md (cs h satp) PTE_W (hm h) (xr h sp - 256) 256 frame;
  ks_read : window R md (cs h satp) PTE_R (hm h) (xr h sp - 256) 256 frame;
  ks_data : forall y, frame <= y < frame + 256 -> R y;
}.

(** Registers saved in a frame, restored after a call. *)
Lemma frame_call R f ls ll code h frame n hr :
  kernel_stack R h frame -> 0 <= n -> Forall (fits 256) ls -> NoDup ls.*2 -> (forall p, p ∈ ll -> p ∈ ls) ->
  let h1 := set_xr sp (xr h sp - 256) h in
  let hc := set_hm (save_all frame (xr h1) ls (hm h)) h1 in
  cfun f hc = Some hr -> returns R frame n hc hr ->
  run (ADDI sp sp (-256) :: saves ls sp ++ CALL f :: loads ll sp ++ code) h =
  run code (mkhart (fun r => if decide (r ∈ ll.*1) then xr h1 r else xr hr r) (cs hr) (hm hr)).
Proof.
  intros [Hr Hroom HW HRd Hd] Hn Hfs Hnd Hin h1 hc Ek [Ksp Ksatp Kf Km]. assert (Hsp := Hr sp).
  assert (Esp : u64 (xr h sp + -256) = xr h sp - 256) by (rewrite u64_small; lia).
  assert (E1 : xr h1 sp = xr h sp - 256) by apply fupd_eq.
  assert (Hout : forall y, ~ R y -> hm hc y = hm h y).
  { intros y Hy. apply (save_all_out _ 256); [done|]. intros Hy'. by apply Hy, Hd. }
  assert (Hl : forall r o, (r, o) ∈ ls -> load64 (hm hr) (frame + o) = xr h1 r).
  { intros r o Hro. assert (Hp := proj1 (Forall_forall _ _) Hfs _ Hro). destruct Hp as (? & ? & _). cbn [snd] in *.
    rewrite (load64_ext (hm hc) (hm hr)) by (eapply same_on_sub; [exact Kf|lia|lia]).
    unfold hc. cbn [hm set_hm]. rewrite (load_save _ 256) with (r := r) by done. apply u64_small.
    unfold h1. simpl. unfold fupd. case_decide; [lia|apply Hr]. }
  cbn [Asm.run]. rewrite Esp. fold h1.
  rewrite (run_saves R _ _ _ _ 256 frame); [|by rewrite E1|done|done]. cbn [Asm.run]. change (hm h1) with (hm h). fold hc. rewrite Ek.
  rewrite (run_loads R _ _ _ _ 256 frame).
  - by rewrite (load_all_eq _ _ _ _ (xr h1)) by (intros; by apply Hl, Hin).
  - rewrite Ksp, Ksatp. change (xr hc sp) with (xr h1 sp). rewrite E1. eapply window_change; [|exact HRd].
    intros y Hy. rewrite Km by done. by apply Hout.
  - apply Forall_forall. intros p Hp. by apply (proj1 (Forall_forall _ _) Hfs), Hin.
  - intros o Ho. rewrite Ksp. by apply Hl, Hin.
Qed.

Lemma frame_noreturn R f ls code h frame :
  kernel_stack R h frame -> Forall (fits 256) ls ->
  let h1 := set_xr sp (xr h sp - 256) h in
  let hc := set_hm (save_all frame (xr h1) ls (hm h)) h1 in
  cfun f hc = None -> run (ADDI sp sp (-256) :: saves ls sp ++ CALL f :: code) h = NoReturn f hc.
Proof.
  intros [Hr Hroom HW _ Hd] Hfs h1 hc Ek. assert (Hsp := Hr sp).
  assert (Esp : u64 (xr h sp + -256) = xr h sp - 256) by (rewrite u64_small; lia).
  assert (E1 : xr h1 sp = xr h sp - 256) by apply fupd_eq. cbn [Asm.run]. rewrite Esp. fold h1.
  rewrite (run_saves R _ _ _ _ 256 frame); [|by rewrite E1|done|done]. cbn [Asm.run]. change (hm h1) with (hm h). fold hc.
  by rewrite Ek.
Qed.

Lemma kernelvec_loads_all r : r ∈ kernelvec_loads.*1 <-> r <> tp.
Proof.
  rewrite <- (bool_decide_eq_true (r ∈ _)), <- (bool_decide_eq_true (r <> tp)).
  assert (bool_decide (r ∈ kernelvec_loads.*1) = bool_decide (r <> tp)) as ->; [|done]. destruct r; vm_compute; reflexivity.
Qed.

(** The state in which kernelvec calls kerneltrap(). *)
Definition trap_call (h : hart) (frame : Z) : hart :=
  let h1 := set_xr sp (xr h sp - 256) h in
  set_hm (save_all frame (xr h1) kernelvec_saves (hm h)) h1.

(** C13: An interrupt is invisible to the kernel code it interrupts.  If there
    is room for a frame on the kernel stack, kernelvec calls kerneltrap() in a
    state [hc] that differs from the interrupted one in sp and in the frame
    only.  If that call of kerneltrap() returns, having kept sp, the page table
    and the stack of its caller, then kernelvec returns with sret; every
    register but tp has the value it had, and so has the stack of the
    interrupted code; tp, the control registers and the rest of the memory are
    as kerneltrap() left them (tp names the hart the code runs on, which may
    have changed). *)
Theorem kernelvec_transparent R h frame n :
  kernel_stack R h frame -> 0 <= n ->
  exists hc, xr hc = fupd (xr h) sp (xr h sp - 256) /\ cs hc = cs h /\
    (forall y, ~ (frame <= y < frame + 256) -> hm hc y = hm h y) /\
    match cfun "kerneltrap" hc with
    | None => run kernelvec h = NoReturn "kerneltrap" hc
    | Some hr => returns R frame n hc hr -> exists h', run kernelvec h = Srets h' /\
        (forall r, r <> tp -> xr h' r = xr h r) /\ same_on (hm h) (hm h') (frame + 256) n /\
        xr h' tp = xr hr tp /\ cs h' = cs hr /\ hm h' = hm hr
    end.
Proof.
  intros Hst Hn. assert (Hsp := ks_regs _ _ _ Hst sp). pose proof (ks_room _ _ _ Hst).
  assert (Hnd : NoDup kernelvec_saves.*2) by (apply (bool_decide_unpack _); by vm_compute).
  assert (Hin : forall p, p ∈ kernelvec_loads -> p ∈ kernelvec_saves) by (intros p Hp; by apply list_elem_of_filter in Hp as [_ Hp]).
  assert (Hout : forall y, ~ (frame <= y < frame + 256) -> hm (trap_call h frame) y = hm h y)
    by (intros y Hy; apply (save_all_out _ 256); [by apply fitsb_ok|done]).
  exists (trap_call h frame). do 3 (split; [done|]).
  destruct (cfun "kerneltrap" (trap_call h frame)) as [hr|] eqn:Ek.
  2: { rewrite kernelvec_code. exact (frame_noreturn R _ _ _ _ frame Hst (fitsb_ok 256 kernelvec_saves eq_refl) Ek). }
  intros Hret. eexists. split.
  { rewrite kernelvec_code, (frame_call R _ _ _ _ _ frame n hr Hst Hn (fitsb_ok 256 kernelvec_saves eq_refl) Hnd Hin Ek Hret). reflexivity. }
  cbn [xr set_xr hm cs]. split_and!; [| | |done|done].
  - intros r Hne. destruct (decide (r = sp)) as [->|Hs].
    + rewrite fupd_eq, decide_True by by apply kernelvec_loads_all. rewrite fupd_eq, u64_small by lia. lia.
    + rewrite fupd_ne by done. rewrite decide_True by by apply kernelvec_loads_all. by rewrite fupd_ne.
  - intros y Hy. rewrite (rt_frame _ _ _ _ _ Hret) by lia. apply Hout. lia.
  - rewrite fupd_ne by done. rewrite decide_False; [done|]. rewrite kernelvec_loads_all. tauto.
Qed.
End Run.

(** ** Physical addresses *)

Lemma xlate_bare md v p m va : md = MachineMode \/ v = 0 -> va mod 8 = 0 -> xlate md v p m va = Some va.
Proof. intros Hb Hva. unfold xlate. rewrite Hva. cbn [Z.eqb negb]. destruct md; [done|]. by destruct Hb as [?| ->]. Qed.

Lemma bare_window R md v p m va n :
  md = MachineMode \/ v = 0 -> 0 <= va -> va + n <= 2 ^ 64 -> va mod 8 = 0 -> window R md v p m va n va.
Proof.
  intros Hb H0 Hn Hva m' _ off Ho Hon Hm. rewrite u64_small by lia. apply xlate_bare; [done|].
  rewrite Zplus_mod, Hva, Hm. done.
Qed.

(** ** timervec *)

Section Timer.
Context (symbol : string -> Z) (cfun : string -> hart -> option hart).

(** mscratch0[] of this hart, as timerinit() prepares it. *)
Record timer_scratch (h : hart) : Prop := {
  ts_regs : regs_ok (xr h);
  ts_addr : 0 <= cs h mscratch /\ cs h mscratch + 48 <= 2 ^ 64 /\ cs h mscratch mod 8 = 0;
  ts_cmp : let t := load64 (hm h) (cs h mscratch + 32) in t mod 8 = 0 /\
    (t + 8 <= cs h mscratch \/ cs h mscratch + 48 <= t);
}.

Lemma run_advance k h :
  let t := xr h a1 in
  0 <= t < 2 ^ 64 -> t mod 8 = 0 ->
  run symbol cfun MachineMode ([LD a3 0 a1; ADD a3 a3 a2; SD a3 0 a1; LI a1 2; CSRW sip a1] ++ k) h =
  let v := u64 (load64 (hm h) t + xr h a2) in
  run symbol cfun MachineMode k
    (mkhart (fupd (fupd (fupd (xr h) a3 (load64 (hm h) t)) a3 v) a1 2) (fupd (cs h) sip 2) (store64 (hm h) t v)).
Proof.
  intros t Ht Hm. cbn [app run]. fold t. rewrite Z.add_0_r, u64_small, xlate_bare by (done || by left).
  cbn [xr cs hm set_xr]. rewrite !(fupd_ne _ a3 _ a1), !(fupd_ne _ a3 _ a2), !fupd_eq by done. fold t.
  rewrite Z.add_0_r, (u64_small t), xlate_bare by (done || by left). cbn [xr cs hm set_xr set_cs set_hm]. by rewrite fupd_eq.
Qed.

(** The timer interrupt is invisible to the code it interrupts, in either
    mode.  timervec adds the interval to the hart's mtimecmp, raises a
    supervisor software interrupt and returns with mret; all registers are as
    before, and of the memory only mtimecmp and three words of its scratch
    area have changed. *)
Theorem timervec_correct h :
  timer_scratch h ->
  let sc := cs h mscratch in
  let t := load64 (hm h) (sc + 32) in
  exists h', run symbol cfun MachineMode timervec h = Mrets h' /\
    xr h' = xr h /\ cs h' = fupd (cs h) sip 2 /\
    load64 (hm h') t = u64 (load64 (hm h) t + load64 (hm h) (sc + 40)) /\
    (forall y, ~ (t <= y < t + 8) -> ~ (sc <= y < sc + 24) -> hm h' y = hm h y).
Proof.
  intros [Hr (H0 & Hn & Hm) [Ht Hd]] sc t. fold sc in H0, Hn, Hm, Ht, Hd. fold t in Ht, Hd.
  assert (Htr := load64_range (hm h) (sc + 32)). fold t in Htr.
  set (h1 := set_xr a0 sc (set_cs mscratch (xr h a0) h)). set (sv := [(a1, 0); (a2, 8); (a3, 16)]).
  set (m1 := save_all sc (xr h1) sv (hm h)).
  set (m2 := store64 m1 t (u64 (load64 (hm h) t + load64 (hm h) (sc + 40)))).
  assert (W : forall v p m, window (fun _ => True) MachineMode v p m sc 48 sc)
    by (intros; apply bare_window; [by left|done|lia|done]).
  assert (M1 : forall y, ~ (sc <= y < sc + 24) -> m1 y = hm h y)
    by (intros y Hy; apply (save_all_out _ 24); [by apply fitsb_ok|done]).
  assert (L1 : forall b, b + 8 <= sc \/ sc + 24 <= b -> load64 m1 b = load64 (hm h) b).
  { intros b Hb. apply load64_ext. intros y Hy. apply M1. lia. }
  assert (L2 : forall r o, (r, o) ∈ sv -> load64 m2 (sc + o) = xr h1 r).
  { intros r o Hin. assert (0 <= o <= 16) by by repeat (apply elem_of_cons in Hin as [[= -> ->]|Hin]); [lia|lia|lia|apply not_elem_of_nil in Hin].
    unfold m2. rewrite load64_store64_other by lia. unfold m1. rewrite (load_save _ 24) with (r := r);
      [apply u64_small|by apply fitsb_ok|by apply (bool_decide_unpack _)|done].
    unfold h1. simpl. unfold fupd. case_decide; [lia|apply Hr]. }
  assert (X0 : xr h1 a0 = sc) by apply fupd_eq.
  assert (E : timervec = CSRRW a0 mscratch a0 :: saves sv a0 ++ loads [(a1, 32); (a2, 40)] a0 ++
    [LD a3 0 a1; ADD a3 a3 a2; SD a3 0 a1; LI a1 2; CSRW sip a1] ++ loads [(a3, 16); (a2, 8); (a1, 0)] a0 ++
    [CSRRW a0 mscratch a0; MRET]) by done.
  set (h2 := mkhart (fupd (fupd (xr h1) a1 t) a2 (load64 (hm h) (sc + 40))) (cs h1) m1).
  assert (E2 : run symbol cfun MachineMode timervec h = run symbol cfun MachineMode
    ([LD a3 0 a1; ADD a3 a3 a2; SD a3 0 a1; LI a1 2; CSRW sip a1] ++ loads [(a3, 16); (a2, 8); (a1, 0)] a0 ++
     [CSRRW a0 mscratch a0; MRET]) h2).
  { rewrite E. cbn [run]. fold sc. fold h1.
    rewrite (run_saves _ _ MachineMode (fun _ => True) _ _ _ _ 48 sc); [|by rewrite X0; apply W|done|by apply fitsb_ok].
    change (hm h1) with (hm h). fold m1.
    rewrite (run_loads _ _ MachineMode (fun _ => True) _ _ _ _ 48 sc); [|by cbn [xr set_hm]; rewrite X0; apply W|by apply fitsb_ok|].
    2: { intros o. apply not_loaded, (bool_decide_unpack _). by vm_compute. }
    rewrite !load_all_cons. cbn [hm set_hm]. by rewrite !L1 by lia. }
  rewrite E2, run_advance; [|exact Htr|exact Ht]. change (xr h2 a1) with t. change (hm h2) with m1.
  assert (Ev : u64 (load64 m1 t + xr h2 a2) = u64 (load64 (hm h) t + load64 (hm h) (sc + 40)))
    by (rewrite L1 by lia; unfold h2; cbn [xr]; by rewrite fupd_eq).
  rewrite Ev. cbv zeta. fold m2. set (h3 := mkhart _ _ m2).
  assert (X3 : xr h3 a0 = sc) by (unfold h3, h2; cbn [xr]; by rewrite !fupd_ne).
  rewrite (run_loads _ _ MachineMode (fun _ => True) _ _ _ _ 48 sc); [|by rewrite X3; apply W|by apply fitsb_ok|].
  2: { intros o. apply not_loaded, (bool_decide_unpack _). by vm_compute. }
  rewrite (load_all_eq _ _ _ _ (xr h1)) by (intros r o Hin; apply L2; unfold sv; revert Hin; rewrite !elem_of_cons; tauto).
  eexists. split; [reflexivity|]. cbn [xr cs hm set_xr set_cs]. split_and!.
  - extensionality r. unfold h3, h2, h1. cbn [xr cs set_xr set_cs].
    destruct r; repeat (rewrite fupd_eq || rewrite fupd_ne by done); try (rewrite decide_False by (apply (bool_decide_unpack _); by vm_compute));
      try (rewrite decide_True by (apply (bool_decide_unpack _); by vm_compute)); repeat (rewrite fupd_eq || rewrite fupd_ne by done); done.
  - extensionality c. unfold h3, h2, h1. cbn [xr cs set_xr set_cs]. rewrite decide_False by (apply (bool_decide_unpack _); by vm_compute).
    destruct c; by repeat (rewrite fupd_eq || rewrite fupd_ne by done).
  - unfold h3. cbn [hm]. unfold m2. rewrite load64_store64_same. apply u64_small, u64_range.
  - intros y Hy1 Hy2. unfold h3. cbn [hm]. unfold m2. rewrite store64_out by done. by apply M1.
Qed.
End Timer.

(** ** _entry *)

Lemma entry_run symbol cfun h :
  let stack0 := symbol "stack0"%string in
  let id := cs h mhartid in
  0 <= stack0 -> stack0 + 4096 * NCPU < 2 ^ 64 -> 0 <= id < NCPU ->
  exists h1, xr h1 sp = stack0 + 4096 * (id + 1) /\ hm h1 = hm h /\
    run symbol cfun MachineMode _entry h =
    match cfun "start"%string h1 with Some h2 => Spins h2 | None => NoReturn "start" h1 end.
Proof.
  intros stack0 id Hs He Hi. unfold NCPU in *. eexists. split; [|split; [|reflexivity]]; [|done].
  cbn [xr set_xr]. rewrite fupd_eq, (fupd_ne _ a0 _ sp), (fupd_ne _ a1 _ sp), (fupd_ne _ a1 _ sp), (fupd_ne _ a0 _ sp), fupd_eq,
    fupd_eq, fupd_eq, (fupd_ne _ a1 _ a0), (fupd_ne _ a1 _ a0), !fupd_eq by done. cbn [cs set_xr]. fold id. fold stack0.
  rewrite (u64_small (id + 1)), (u64_small (1024 * 4)), (u64_small (1024 * 4 * (id + 1))), u64_small by lia. lia.
Qed.

(** C37: Every hart starts on a stack of its own.  Two harts run _entry and
    call start() with memory as it was; the 4096 bytes below sp of the one are
    inside stack0[4096 * NCPU], and none of them is among the 4096 bytes below
    sp of the other. *)
Theorem entry_stack symbol cfun h h' :
  let stack0 := symbol "stack0"%string in
  0 <= stack0 -> stack0 + 4096 * NCPU < 2 ^ 64 ->
  0 <= cs h mhartid < NCPU -> 0 <= cs h' mhartid < NCPU ->
  exists h1 h1', hm h1 = hm h /\ hm h1' = hm h' /\
    run symbol cfun MachineMode _entry h =
      match cfun "start"%string h1 with Some h2 => Spins h2 | None => NoReturn "start" h1 end /\
    run symbol cfun MachineMode _entry h' =
      match cfun "start"%string h1' with Some h2 => Spins h2 | None => NoReturn "start" h1' end /\
    forall y, xr h1 sp - 4096 <= y < xr h1 sp ->
      stack0 <= y < stack0 + 4096 * NCPU /\
      (cs h mhartid <> cs h' mhartid -> ~ (xr h1' sp - 4096 <= y < xr h1' sp)).
Proof.
  intros stack0 Hs He Hi Hi'.
  destruct (entry_run symbol cfun h Hs He Hi) as (h1 & E1 & M1 & R1).
  destruct (entry_run symbol cfun h' Hs He Hi') as (h1' & E2 & M2 & R2).
  exists h1, h1'. do 4 (split; [done|]). fold stack0 in E1, E2. unfold NCPU in *. intros y Hy. split; [lia|].
  intros Hne Hy'. apply Hne. lia.
Qed.

(** ** Examples *)

Definition hart0 (x : reg -> Z) (mscratch0 : Z) : hart :=
  mkhart x (fupd (fun _ => 0) mscratch mscratch0) (fun _ => Byte.x00).

(** A kerneltrap() that does nothing. *)
Definition cfun0 (f : string) (h : hart) : option hart := Some h.

Lemma swtch_correct_witness :
  exists h1, run (fun _ => 0) cfun0 SupervisorMode swtch (hart0 (fupd (fupd (fun _ => 1) a0 4096) a1 8192) 0) = Jumps 0 h1 /\
    xr h1 sp = 0 /\ load64 (hm h1) 4104 = 1.
Proof.
  destruct (swtch_correct (fun _ => 0) cfun0 SupervisorMode (fun _ => True) (hart0 (fupd (fupd (fun _ => 1) a0 4096) a1 8192) 0) 4096 8192)
    as (h1 & E & Ht & Hc & _).
  - split; [|apply bare_window; [by right|done|done|done]|apply bare_window; [by right|done|done|done]|done|unfold sizeof_context; lia].
    intros r. destruct r; vm_compute; done.
  - exists h1. split; [exact E|]. split.
    + exact (f_equal ctx_sp Ht).
    + exact (f_equal ctx_sp Hc).
Defined.

(** A kerneltrap() that overwrites every register but sp. *)
Definition clobber (f : string) (h : hart) : option hart :=
  Some (mkhart (fun r => if decide (r = sp) then xr h sp else 9) (cs h) (hm h)).

Lemma kernelvec_transparent_witness :
  exists h', run (fun _ => 0) clobber SupervisorMode kernelvec (hart0 (fupd (fun _ => 5) sp 8192) 0) = Srets h' /\
    xr h' s3 = 5 /\ xr h' sp = 8192 /\ xr h' tp = 9.
Proof.
  destruct (kernelvec_transparent (fun _ => 0) clobber SupervisorMode (fun _ => True) (hart0 (fupd (fun _ => 5) sp 8192) 0) 7936 100)
    as (hc & _ & _ & _ & W).
  - split; [|done|apply bare_window; [by right|done|done|done]|apply bare_window; [by right|done|done|done]|done].
    intros r. destruct r; vm_compute; done.
  - lia.
  - destruct W as (h' & E & Hx & _ & Ht & _); [by split|].
    exists h'. split; [exact E|]. split; [by apply (Hx s3)|]. split; [by apply (Hx sp)|exact Ht].
Defined.

Lemma timervec_correct_witness :
  exists h', run (fun _ => 0) cfun0 MachineMode timervec (hart0 (fun _ => 3) 4096) = Mrets h' /\ xr h' a1 = 3 /\ cs h' sip = 2.
Proof.
  destruct (timervec_correct (fun _ => 0) cfun0 (hart0 (fun _ => 3) 4096)) as (h' & E & Hx & Hc & _).
  - split; [by intros r|done|]. split; [by vm_compute|]. left. by vm_compute.
  - exists h'. split; [exact E|]. rewrite Hx, Hc. split; [reflexivity|apply fupd_eq].
Defined.

Lemma entry_stack_witness :
  exists h1 h1', run (fun _ => 0x80000000) (fun _ _ => None) MachineMode _entry (mkhart (fun _ => 0) (fun _ => 3) (fun _ => Byte.x00)) = NoReturn "start" h1 /\
    run (fun _ => 0x80000000) (fun _ _ => None) MachineMode _entry (mkhart (fun _ => 0) (fun _ => 4) (fun _ => Byte.x00)) = NoReturn "start" h1' /\
    forall y, xr h1 sp - 4096 <= y < xr h1 sp -> ~ (xr h1' sp - 4096 <= y < xr h1' sp).
Proof.
  destruct (entry_stack (fun _ => 0x80000000) (fun _ _ => None) (mkhart (fun _ => 0) (fun _ => 3) (fun _ => Byte.x00))
    (mkhart (fun _ => 0) (fun _ => 4) (fun _ => Byte.x00))) as (h1 & h1' & _ & _ & E & E' & Hy); [done|done|done|done|].
  exists h1, h1'. split; [exact E|]. split; [exact E'|]. intros y Hr. apply (Hy y Hr). discriminate.
Defined.
