(* ===== verification/Copy.v ===== *)
(** Copies between kernel and user memory (kernel/vm.c): walkaddr(),
    copyin(), copyinstr() and copyout(), proved against the bytes a process
    sees through its page table. *)

From stdpp Require Import base tactics list strings.
From Stdlib Require Import ZArith Lia.
From coqutil Require Import Byte.
From S2P Require Import Prelude Riscv Mem Core Spinlock Kalloc Vm Pt Uvm Machine Cow.

Local Open Scope Z_scope.
Local Open Scope kern_scope.

(** Is [va] mapped for user code? *)
Definition umapped (m : mem) (root va : Z) : bool :=
  let e := pte_of m root va in
  (va <? MAXVA) && has e PTE_V && has e PTE_U && negb (PTE2PA e =? 0).

(** The [n] user bytes from [va] on. *)
Definition ubytes (m : mem) (root va : Z) (n : nat) : list byte :=
  List.map (fun i => ubyte m root (va + Z.of_nat i)) (seq 0 n).

(** The first [n] addresses from [va] on are mapped, and the next is not. *)
Definition mapped_until (m : mem) (root va : Z) (n : nat) : Prop :=
  (forall i, (i < n)%nat -> umapped m root (va + Z.of_nat i) = true) /\
  umapped m root (va + Z.of_nat n) = false.

Section Copy.
Context `{KernelImage}.

Lemma wp_walkaddr root va (Q : Z -> kst -> Prop) s :
  pt_ok s root ->
  Q (if umapped (k_mem s) root va then PTE2PA (pte_of (k_mem s) root va) else 0) s ->
  wp (walkaddr root va) Q s.
Proof.
  intros Hpt HQ. unfold walkaddr, umapped in *.
  destruct (Z.leb_spec MAXVA va) as [Hle|Hlt].
  { wp_step. by rewrite (proj2 (Z.ltb_ge va MAXVA)) in HQ. }
  rewrite (proj2 (Z.ltb_lt va MAXVA)) in HQ by done. cbn [andb] in HQ.
  wp_step. apply wp_walk; [done|]. unfold slot.
  destruct (tab (k_mem s) root [PX 2 va; PX 1 va]) as [t|] eqn:Et.
  - rewrite (proj2 (Z.eqb_neq _ 0)) by by eapply table_nonzero. unfold ld64. wp_step. wp_step.
    rewrite (load_slot _ _ _ _ Et).
    destruct (has _ PTE_V); [|by wp_step]. destruct (has _ PTE_U); [|by wp_step].
    cbn [negb andb] in *. wp_step. destruct (Z.eqb_spec (PTE2PA (pte_of (k_mem s) root va)) 0) as [E|E]; [|done].
    by rewrite E.
  - unfold pte_of, slot in HQ. rewrite Et in HQ. by wp_step.
Qed.

Lemma umapped_pa m root va : umapped m root va = true -> PTE2PA (pte_of m root va) <> 0.
Proof. unfold umapped. intros Hm. bools. done. Qed.

Lemma MAXVA_page va : PGROUNDDOWN va < MAXVA <-> va < MAXVA.
Proof.
  pose proof (PGROUNDDOWN_bounds va). pose proof (PGROUNDDOWN_aligned va) as Ha.
  rewrite MAXVA_eq. apply Z.mod_divide in Ha as [k Hk]; [|done]. unfold PGSIZE in *. lia.
Qed.

Lemma umapped_page m root va : umapped m root (PGROUNDDOWN va) = umapped m root va.
Proof.
  unfold umapped. rewrite pte_of_page. do 3 f_equal. apply eq_true_iff_eq.
  rewrite !Z.ltb_lt. apply MAXVA_page.
Qed.

(** Addresses of one page. *)
Lemma same_page va i :
  0 <= i < PGSIZE - (va - PGROUNDDOWN va) -> PGROUNDDOWN (va + i) = PGROUNDDOWN va.
Proof.
  intros Hi. apply PGROUNDDOWN_iff; [apply PGROUNDDOWN_aligned|]. pose proof (PGROUNDDOWN_bounds va). lia.
Qed.

Lemma mod_page va : va mod PGSIZE = va - PGROUNDDOWN va.
Proof. rewrite PGROUNDDOWN_eq. pose proof (Z.div_mod va PGSIZE ltac:(done)). lia. Qed.

Lemma ubyte_page m root va i :
  0 <= i < PGSIZE - (va - PGROUNDDOWN va) ->
  ubyte m root (va + i) = m (PTE2PA (pte_of m root (PGROUNDDOWN va)) + (va - PGROUNDDOWN va) + i) /\
  umapped m root (va + i) = umapped m root (PGROUNDDOWN va).
Proof.
  intros Hi. rewrite <- (umapped_page m root (va + i)), (same_page va i Hi). split; [|done].
  unfold ubyte, uaddr. rewrite <- (pte_of_page m root (va + i)), mod_page, (same_page va i Hi).
  f_equal. lia.
Qed.

Lemma map_seq_add {A} (g : nat -> A) a k b :
  List.map g (seq (a + k) b) = List.map (fun i => g (a + i)%nat) (seq k b).
Proof. revert k. induction b as [|b IH]; intros k; simpl; [done|]. by rewrite <- Nat.add_succ_r, IH. Qed.

Lemma ubytes_app m root va a b :
  ubytes m root va (a + b) = ubytes m root va a ++ ubytes m root (va + Z.of_nat a) b.
Proof.
  unfold ubytes. rewrite seq_app, List.map_app. f_equal. simpl.
  rewrite <- (Nat.add_0_r a) at 1. rewrite map_seq_add. apply List.map_ext. intros i. f_equal. lia.
Qed.

Lemma rd_ubytes m root va n :
  Z.of_nat n <= PGSIZE - (va - PGROUNDDOWN va) ->
  rd m (PTE2PA (pte_of m root (PGROUNDDOWN va)) + (va - PGROUNDDOWN va)) n = ubytes m root va n.
Proof.
  intros Hn. unfold rd, ubytes. apply List.map_ext_in. intros i Hi%in_seq.
  symmetry. apply (ubyte_page m root va (Z.of_nat i)). lia.
Qed.

(** One page's worth of user bytes: either the page is not mapped, or the
    next [n] bytes are in it. *)
Lemma page_chunk m root va n :
  0 < n <= PGSIZE - (va - PGROUNDDOWN va) ->
  (umapped m root (PGROUNDDOWN va) = false -> umapped m root va = false) /\
  (umapped m root (PGROUNDDOWN va) = true ->
     forall i, (i < Z.to_nat n)%nat -> umapped m root (va + Z.of_nat i) = true).
Proof.
  intros Hn. split.
  - intros E. by rewrite <- umapped_page.
  - intros E i Hi. rewrite (proj2 (ubyte_page m root va (Z.of_nat i) ltac:(lia))). done.
Qed.

Lemma wp_copyin root srcva len (Q : Z * list byte -> kst -> Prop) s :
  pt_ok s root -> 0 <= srcva -> 0 <= len -> srcva + len < 2 ^ 64 - PGSIZE ->
  ((forall i, (i < Z.to_nat len)%nat -> umapped (k_mem s) root (srcva + Z.of_nat i) = true) ->
     Q (0, ubytes (k_mem s) root srcva (Z.to_nat len)) s) ->
  (forall k, (k < Z.to_nat len)%nat -> mapped_until (k_mem s) root srcva k ->
     Q (-1, ubytes (k_mem s) root srcva k) s) ->
  wp (copyin root srcva len) Q s.
Proof.
  intros Hpt Hva Hlen Hmax HQ Hfail. unfold copyin.
  apply wp_loop with (n := len)
    (I := fun n '(va, len', dst) s' => exists k, n = len' /\ s' = s /\ len' = len - Z.of_nat k /\
       (Z.of_nat k <= len) /\ (0 < len' -> va = srcva + Z.of_nat k) /\ dst = ubytes (k_mem s) root srcva k /\
       forall i, (i < k)%nat -> umapped (k_mem s) root (srcva + Z.of_nat i) = true).
  - intros n [[va len'] dst] s' _ (k & -> & -> & -> & Hk & Hva' & -> & Hm).
    apply wp_if; intros Hlt; bools.
    2:{ wp_step. assert (Z.to_nat len = k) as <- by lia. by apply HQ. }
    rewrite Hva' by done. clear Hva'. set (va' := srcva + Z.of_nat k).
    pose proof (PGROUNDDOWN_bounds va') as Hb.
    wp_step. apply wp_walkaddr; [done|].
    set (n := Z.min (PGSIZE - (va' - PGROUNDDOWN va')) (len - Z.of_nat k)).
    assert (Hn : 0 < n <= PGSIZE - (va' - PGROUNDDOWN va')) by lia.
    destruct (page_chunk (k_mem s) root va' n Hn) as [Hc0 Hc1].
    destruct (umapped (k_mem s) root (PGROUNDDOWN va')) eqn:E.
    2:{ wp_steps; [|done]. apply Hfail; [lia|]. split; [done|]. by apply Hc0. }
    rewrite (proj2 (Z.eqb_neq _ 0)) by by apply umapped_pa.
    wp_steps. rewrite rd_ubytes by lia. fold n.
    exists (len - Z.of_nat k - n). split; [lia|]. exists (k + Z.to_nat n)%nat.
    split; [lia|]. split; [done|]. split; [lia|]. split; [lia|]. split.
    { intros Hpos. assert (n = PGSIZE - (va' - PGROUNDDOWN va')) as En by lia.
      assert (srcva + Z.of_nat (k + Z.to_nat n) = PGROUNDDOWN va' + PGSIZE) as -> by lia.
      apply u64_small. pose proof (PGROUNDDOWN_aligned va') as Ha.
      apply Z.mod_divide in Ha as [j Hj]; [|done]. unfold PGSIZE in *. lia. }
    split; [by rewrite ubytes_app|].
    intros i Hi. destruct (decide (i < k)%nat) as [|Hik]; [by apply Hm|].
    replace (srcva + Z.of_nat i) with (va' + Z.of_nat (i - k)) by lia. apply Hc1; [done|lia].
  - unfold PGSIZE in *. lia.
  - exists 0%nat. split; [done|]. split; [done|]. split; [lia|]. split; [lia|].
    split; [lia|]. split; [done|]. lia.
Qed.


(** No NUL among the first [n] bytes. *)
Definition nonul (m : mem) (root va : Z) (n : nat) : Prop :=
  forall i, (i < n)%nat -> ubyte m root (va + Z.of_nat i) <> Byte.x00.

Lemma unsigned_zero b : byte.unsigned b = 0 <-> b = Byte.x00.
Proof.
  split; [|by intros ->]. intros E. apply byte.unsigned_inj. by rewrite E.
Qed.

Lemma copystr_spec m p n :
  let '(l, b) := copystr m p n in
  if b : bool then exists k, (k < n)%nat /\ m (p + Z.of_nat k) = Byte.x00 /\ l = rd m p (S k) /\
                     forall i, (i < k)%nat -> m (p + Z.of_nat i) <> Byte.x00
  else l = rd m p n /\ forall i, (i < n)%nat -> m (p + Z.of_nat i) <> Byte.x00.
Proof.
  assert (Hrd : forall q k, rd m q (S k) = m q :: rd m (q + 1) k).
  { intros q k. unfold rd. cbn [seq List.map]. rewrite Z.add_0_r. f_equal.
    rewrite <- (seq_shift k 0), List.map_map. apply List.map_ext. intros i. f_equal. lia. }
  revert p. induction n as [|n IH]; intros p; cbn [copystr]; [split; [done|lia]|].
  destruct (Z.eqb_spec (byte.unsigned (m p)) 0) as [E|E]; rewrite unsigned_zero in E.
  - exists 0%nat. rewrite Z.add_0_r. split_and!; [lia|done|by rewrite Hrd, E|lia].
  - specialize (IH (p + 1)). destruct (copystr m (p + 1) n) as [l b]. destruct b.
    + destruct IH as (k & Hk & Hz & -> & Hnz). exists (S k).
      replace (p + Z.of_nat (S k)) with (p + 1 + Z.of_nat k) by lia.
      split_and!; [lia|done|by rewrite (Hrd p (S k))|].
      intros [|i] Hi; [by rewrite Z.add_0_r|]. replace (p + Z.of_nat (S i)) with (p + 1 + Z.of_nat i) by lia.
      apply Hnz. lia.
    + destruct IH as [-> Hnz]. split; [by rewrite (Hrd p n)|].
      intros [|i] Hi; [by rewrite Z.add_0_r|]. replace (p + Z.of_nat (S i)) with (p + 1 + Z.of_nat i) by lia.
      apply Hnz. lia.
Qed.

Lemma wp_copyinstr root srcva max (Q : Z * list byte -> kst -> Prop) s :
  pt_ok s root -> 0 <= srcva -> 0 <= max -> srcva + max < 2 ^ 64 - PGSIZE ->
  (forall k, (k < Z.to_nat max)%nat -> nonul (k_mem s) root srcva k ->
     (forall i, (i <= k)%nat -> umapped (k_mem s) root (srcva + Z.of_nat i) = true) ->
     ubyte (k_mem s) root (srcva + Z.of_nat k) = Byte.x00 ->
     Q (0, ubytes (k_mem s) root srcva (S k)) s) ->
  (forall k, (k <= Z.to_nat max)%nat -> nonul (k_mem s) root srcva k ->
     k = Z.to_nat max \/ mapped_until (k_mem s) root srcva k ->
     Q (-1, ubytes (k_mem s) root srcva k) s) ->
  wp (copyinstr root srcva max) Q s.
Proof.
  intros Hpt Hva Hlen Hmax HQ Hfail. unfold copyinstr.
  apply wp_loop with (n := max)
    (I := fun n '(va, max', dst) s' => exists k, n = max' /\ s' = s /\ max' = max - Z.of_nat k /\
       (Z.of_nat k <= max) /\ (0 < max' -> va = srcva + Z.of_nat k) /\ dst = ubytes (k_mem s) root srcva k /\
       nonul (k_mem s) root srcva k /\
       forall i, (i < k)%nat -> umapped (k_mem s) root (srcva + Z.of_nat i) = true).
  - intros n [[va max'] dst] s' _ (k & -> & -> & -> & Hk & Hva' & -> & Hnz & Hm).
    apply wp_if; intros Hlt; bools.
    2:{ wp_step. assert (Z.to_nat max = k) as E by lia. apply Hfail; [lia|done|by left]. }
    rewrite Hva' by done. clear Hva'. set (va' := srcva + Z.of_nat k).
    pose proof (PGROUNDDOWN_bounds va') as Hb.
    wp_step. apply wp_walkaddr; [done|].
    set (n := Z.min (PGSIZE - (va' - PGROUNDDOWN va')) (max - Z.of_nat k)).
    assert (Hn : 0 < n <= PGSIZE - (va' - PGROUNDDOWN va')) by lia.
    destruct (page_chunk (k_mem s) root va' n Hn) as [Hc0 Hc1].
    destruct (umapped (k_mem s) root (PGROUNDDOWN va')) eqn:E.
    2:{ wp_steps; [|done]. apply Hfail; [lia|done|]. right. split; [done|]. by apply Hc0. }
    rewrite (proj2 (Z.eqb_neq _ 0)) by by apply umapped_pa.
    wp_step. wp_step. fold n.
    pose proof (copystr_spec (k_mem s) (PTE2PA (pte_of (k_mem s) root (PGROUNDDOWN va')) + (va' - PGROUNDDOWN va'))
                  (Z.to_nat n)) as Hspec.
    destruct (copystr _ _ _) as [l b].
    assert (Hub : forall i, (i < Z.to_nat n)%nat -> k_mem s (PTE2PA (pte_of (k_mem s) root (PGROUNDDOWN va')) +
              (va' - PGROUNDDOWN va') + Z.of_nat i) = ubyte (k_mem s) root (srcva + Z.of_nat (k + i))).
    { intros i Hi. replace (srcva + Z.of_nat (k + i)) with (va' + Z.of_nat i) by lia.
      symmetry. apply ubyte_page. lia. }
    assert (Hpre : forall j, (j <= Z.to_nat n)%nat ->
              (forall i, (i < j)%nat -> k_mem s (PTE2PA (pte_of (k_mem s) root (PGROUNDDOWN va')) +
                 (va' - PGROUNDDOWN va') + Z.of_nat i) <> Byte.x00) -> nonul (k_mem s) root srcva (k + j)).
    { intros j Hj Hjz i Hi. destruct (decide (i < k)%nat) as [|Hik]; [by apply Hnz|].
      specialize (Hjz (i - k)%nat ltac:(lia)). rewrite Hub in Hjz by lia. by replace (k + (i - k))%nat with i in Hjz by lia. }
    assert (Hall : forall i, (i < k + Z.to_nat n)%nat -> umapped (k_mem s) root (srcva + Z.of_nat i) = true).
    { intros i Hi. destruct (decide (i < k)%nat) as [|Hik]; [by apply Hm|].
      replace (srcva + Z.of_nat i) with (va' + Z.of_nat (i - k)) by lia. apply Hc1; [done|lia]. }
    destruct b.
    + destruct Hspec as (j & Hj & Hz & -> & Hjz). wp_step. rewrite rd_ubytes by lia.
      rewrite <- ubytes_app, Nat.add_succ_r. apply HQ; [lia|apply Hpre; [lia|done]|intros i Hi; apply Hall; lia|].
      by rewrite <- Hub by done.
    + destruct Hspec as [-> Hjz]. wp_step. rewrite rd_ubytes by lia.
      exists (max - Z.of_nat k - n). split; [lia|]. exists (k + Z.to_nat n)%nat.
      split; [lia|]. split; [done|]. split; [lia|]. split; [lia|]. split.
      { intros Hpos. assert (n = PGSIZE - (va' - PGROUNDDOWN va')) as En by lia.
        assert (srcva + Z.of_nat (k + Z.to_nat n) = PGROUNDDOWN va' + PGSIZE) as -> by lia.
        apply u64_small. pose proof (PGROUNDDOWN_aligned va') as Ha.
        apply Z.mod_divide in Ha as [j Hj]; [|done]. unfold PGSIZE in *. lia. }
      split; [by rewrite ubytes_app|]. split; [by apply Hpre|done].
  - unfold PGSIZE in *. lia.
  - exists 0%nat. split; [done|]. split; [done|]. split; [lia|]. split; [lia|].
    split; [lia|]. split; [done|]. split; [intros i Hi; lia|lia].
Qed.


(** ** Properties *)

(** C29: copyin() reads exactly the bytes the process sees.  It returns 0 and
    the [len] bytes at [srcva] when all of them are mapped for user code;
    otherwise it returns -1 after copying the bytes before the first unmapped
    address.  It never changes the machine. *)
Theorem copyin_correct root srcva len s :
  pt_ok s root -> 0 <= srcva -> 0 <= len -> srcva + len < 2 ^ 64 - PGSIZE ->
  exists r bs, copyin root srcva len s = Ok (r, bs) s /\
    ((r = 0 /\ bs = ubytes (k_mem s) root srcva (Z.to_nat len) /\
      forall i, (i < Z.to_nat len)%nat -> umapped (k_mem s) root (srcva + Z.of_nat i) = true) \/
     (r = -1 /\ exists k, (k < Z.to_nat len)%nat /\ mapped_until (k_mem s) root srcva k /\
        bs = ubytes (k_mem s) root srcva k)).
Proof.
  intros Hpt Hva Hlen Hmax.
  enough (wp (copyin root srcva len) (fun x s' => s' = s /\
    ((x.1 = 0 /\ x.2 = ubytes (k_mem s) root srcva (Z.to_nat len) /\
      forall i, (i < Z.to_nat len)%nat -> umapped (k_mem s) root (srcva + Z.of_nat i) = true) \/
     (x.1 = -1 /\ exists k, (k < Z.to_nat len)%nat /\ mapped_until (k_mem s) root srcva k /\
        x.2 = ubytes (k_mem s) root srcva k))) s) as W.
  { apply wp_elim in W as ([r bs] & s' & E & -> & W). eauto. }
  apply wp_copyin; try done; simpl.
  - intros Hm. split; [done|]. by left.
  - intros k Hk Hu. split; [done|]. right. eauto.
Qed.

(** Copyinstr() copies a NUL-terminated string from user memory.  It
    returns 0 and the bytes up to and including the first NUL when that NUL
    is among the first [max] bytes and everything before it is mapped;
    otherwise it returns -1: no NUL in [max] bytes, or an unmapped address
    first. *)
Theorem copyinstr_correct root srcva max s :
  pt_ok s root -> 0 <= srcva -> 0 <= max -> srcva + max < 2 ^ 64 - PGSIZE ->
  exists r bs, copyinstr root srcva max s = Ok (r, bs) s /\
    ((r = 0 /\ exists k, (k < Z.to_nat max)%nat /\ nonul (k_mem s) root srcva k /\
        (forall i, (i <= k)%nat -> umapped (k_mem s) root (srcva + Z.of_nat i) = true) /\
        ubyte (k_mem s) root (srcva + Z.of_nat k) = Byte.x00 /\
        bs = ubytes (k_mem s) root srcva (S k)) \/
     (r = -1 /\ exists k, (k <= Z.to_nat max)%nat /\ nonul (k_mem s) root srcva k /\
        (k = Z.to_nat max \/ mapped_until (k_mem s) root srcva k))).
Proof.
  intros Hpt Hva Hlen Hmax.
  enough (wp (copyinstr root srcva max) (fun x s' => s' = s /\
    ((x.1 = 0 /\ exists k, (k < Z.to_nat max)%nat /\ nonul (k_mem s) root srcva k /\
        (forall i, (i <= k)%nat -> umapped (k_mem s) root (srcva + Z.of_nat i) = true) /\
        ubyte (k_mem s) root (srcva + Z.of_nat k) = Byte.x00 /\
        x.2 = ubytes (k_mem s) root srcva (S k)) \/
     (x.1 = -1 /\ exists k, (k <= Z.to_nat max)%nat /\ nonul (k_mem s) root srcva k /\
        (k = Z.to_nat max \/ mapped_until (k_mem s) root srcva k)))) s) as W.
  { apply wp_elim in W as ([r bs] & s' & E & -> & W). eauto. }
  apply wp_copyinstr; try done; simpl.
  - intros k Hk Hn Hm Hz. split; [done|]. left. split; [done|]. exists k. auto.
  - intros k Hk Hn Hor. split; [done|]. right. split; [done|]. exists k. auto.
Qed.

(** C31: copyout() to a user address at or beyond MAXVA panics the kernel
    instead of returning -1: it asks should_copyon_write() before walkaddr(),
    and walk() panics on such an address.  Every system call that copies to a
    user pointer reaches this. *)
Theorem copyout_maxva_panics root dstva b src i s :
  cpu_ok (k_core s) -> cproc (ccpu (k_core s)) = Some i -> MAXVA <= dstva ->
  copyout root dstva (b :: src) s = Panic "walk".
Proof.
  intros Hok Hi Hva. unfold copyout. apply loop_panic.
  destruct (myproc_eq _ Hok) as (c & E & Hc).
  assert (Hcur : cur s = Ok (procs (k_core s) i) (set_core c s)).
  { unfold cur, bind, zoom. cbn [lget lput kst_core]. rewrite E, Hi. unfold gets.
    destruct (core_eqv_fields _ _ Hc) as (_ & _ & Hp & _). cbn [k_core set_core]. by rewrite Hp. }
  unfold bind at 1, should_copyon_write. cbn [length]. rewrite (proj2 (Z.ltb_lt 0 _)) by lia.
  unfold bind at 1 2. rewrite Hcur. unfold walk at 1. unfold bind. by rewrite (proj2 (Z.leb_le MAXVA dstva)).
Qed.

End Copy.

(** ** Examples, on the machine with eight pages *)

Section Witness.
#[local] Existing Instance image8.

Lemma copyin_correct_witness :
  exists r bs, copyin (pg 0) 7 1 (kst8 user_rwx 1 1) = Ok (r, bs) (kst8 user_rwx 1 1).
Proof.
  destruct (copyin_correct (pg 0) 7 1 (kst8 user_rwx 1 1)) as (r & bs & H1 & _).
  - apply pt8_old.
  - lia.
  - lia.
  - reflexivity.
  - exists r, bs. exact H1.
Defined.

Lemma copyinstr_correct_witness :
  exists r bs, copyinstr (pg 0) 7 16 (kst8 user_rwx 1 1) = Ok (r, bs) (kst8 user_rwx 1 1).
Proof.
  destruct (copyinstr_correct (pg 0) 7 16 (kst8 user_rwx 1 1)) as (r & bs & H1 & _).
  - apply pt8_old.
  - lia.
  - lia.
  - reflexivity.
  - exists r, bs. exact H1.
Defined.

Lemma copyout_maxva_panics_witness :
  copyout (pg 0) MAXVA [Byte.x2a] (kst8 user_rwx 1 1) = Panic "walk".
Proof.
  apply (copyout_maxva_panics (pg 0) MAXVA Byte.x2a [] 1 (kst8 user_rwx 1 1)).
  - apply unlocked8.
  - reflexivity.
  - reflexivity.
Defined.
End Witness.
