(* ===== verification/Copyout.v ===== *)
(** copyout() to memory of the current process: to pages of its own, and to
    pages shared by a fork, with and without memory for a copy. *)

From stdpp Require Import base tactics list strings.
From Stdlib Require Import ZArith Lia.
From coqutil Require Import Byte.
From S2P Require Import Prelude Riscv Mem Core Spinlock Kalloc Vm Pt Uvm Machine Cow Copy.

Local Open Scope Z_scope.
Local Open Scope kern_scope.

(** [m'] is [m] with the bytes [src] stored at the user addresses from [va] on. *)
Definition stored (m : mem) (root va : Z) (src : list byte) (m' : mem) : Prop :=
  (forall j b, src !! j = Some b -> m' (uaddr m root (va + Z.of_nat j)) = b) /\
  (forall x, (forall j, (j < length src)%nat -> x <> uaddr m root (va + Z.of_nat j)) -> m' x = m x).

Lemma stored_ubytes m root va src m' :
  stored m root va src m' -> (forall v, pte_of m' root v = pte_of m root v) -> ubytes m' root va (length src) = src.
Proof.
  intros [Hin _] Hpte. apply list_eq. intros j. unfold ubytes. rewrite list_lookup_fmap.
  destruct (src !! j) as [b|] eqn:Hj.
  - rewrite lookup_seq_lt by by eapply lookup_lt_Some. simpl. f_equal. unfold ubyte, uaddr. rewrite Hpte. by apply Hin.
  - rewrite lookup_seq_ge by by apply lookup_ge_None. done.
Qed.

Section Copyout.
Context `{KernelImage}.

(** The page that maps [va] is a user page, not a table page of [root], and
    not marked copy-on-write. *)
Definition user_page (m : mem) (root va : Z) : Prop :=
  exists p f, pte_of m root va = mkpte p f /\ page_ok p /\ 0 <= f < 1024 /\
    has f PTE_U = true /\ has f PTE_COW = false /\ ~ is_table m root p.

(** Process [i] runs on page table [root], where the [n] bytes from [va] on
    are its own. *)
Record own_range (s : kst) (i : nat) (root va : Z) (n : nat) : Prop := {
  or_cur : cproc (ccpu (k_core s)) = Some i;
  or_root : pagetable (procs (k_core s) i) = root;
  or_pt : pt_ok s root;
  or_va : 0 <= va /\ va + Z.of_nat n <= MAXVA;
  or_page : forall j, (j < n)%nat -> user_page (k_mem s) root (va + Z.of_nat j);
  or_inj : forall j k, (j < n)%nat -> (k < n)%nat ->
    uaddr (k_mem s) root (va + Z.of_nat j) = uaddr (k_mem s) root (va + Z.of_nat k) -> j = k;
}.

Lemma stored_nil m root va : stored m root va [] m.
Proof. split; [done|]. by intros x _. Qed.

Lemma user_page_addr m root va : user_page m root va ->
  exists p, page_ok p /\ ~ is_table m root p /\ uaddr m root va = p + va mod PGSIZE.
Proof.
  intros (p & f & E & Hp & Hf & _ & _ & Hn). exists p. split_and!; [done|done|]. by eapply ubyte_mkpte.
Qed.

(** Storing to user pages does not touch the page table. *)
Lemma stored_tables m root va src m' q :
  stored m root va src m' -> (forall j, (j < length src)%nat -> user_page m root (va + Z.of_nat j)) ->
  page_ok q -> is_table m root q -> same_on m m' q PGSIZE.
Proof.
  intros [_ Ho] Hu Hq Ht x Hx. apply Ho. intros j Hj ->.
  destruct (user_page_addr _ _ _ (Hu j Hj)) as (p & Hp & Hn & E). rewrite E in Hx.
  pose proof (off_range (va + Z.of_nat j)). assert (p <> q) by (intros ->; done).
  pose proof (page_ok_disjoint p q Hp Hq ltac:(done)). lia.
Qed.

Lemma uaddr_chunk m root va i :
  0 <= i < PGSIZE - (va - PGROUNDDOWN va) ->
  uaddr m root (va + i) = PTE2PA (pte_of m root (PGROUNDDOWN va)) + (va - PGROUNDDOWN va) + i.
Proof.
  intros Hi. unfold uaddr. rewrite <- (pte_of_page m root (va + i)), mod_page, (same_page va i Hi). lia.
Qed.

(** One more chunk, within a page. *)
Lemma stored_chunk m root va src k n m' :
  stored m root va (take k src) m' -> (k + n <= length src)%nat ->
  (forall j j', (j < length src)%nat -> (j' < length src)%nat ->
     uaddr m root (va + Z.of_nat j) = uaddr m root (va + Z.of_nat j') -> j = j') ->
  let v := va + Z.of_nat k in
  Z.of_nat n <= PGSIZE - (v - PGROUNDDOWN v) ->
  stored m root va (take (k + n) src)
    (wr m' (PTE2PA (pte_of m root (PGROUNDDOWN v)) + (v - PGROUNDDOWN v)) (take n (drop k src))).
Proof.
  intros [Hin Hout] Hlen Hinj v Hn. set (a := PTE2PA _ + _).
  assert (Hlt : length (take n (drop k src)) = n) by (rewrite length_take, length_drop; lia).
  assert (Ha : forall j, (j < n)%nat -> uaddr m root (va + Z.of_nat (k + j)) = a + Z.of_nat j).
  { intros j Hj. replace (va + Z.of_nat (k + j)) with (v + Z.of_nat j) by lia. apply uaddr_chunk. lia. }
  split.
  - intros j b Hj. apply lookup_take_Some in Hj as [Hj Hjk]. destruct (decide (j < k)%nat).
    + rewrite wr_out; [apply Hin; by apply lookup_take_Some|]. rewrite Hlt. intros Hx.
      set (x := uaddr m root (va + Z.of_nat j)) in Hx.
      assert (E : j = (k + Z.to_nat (x - a))%nat); [|lia]. apply Hinj; [lia|lia|]. rewrite Ha by lia. lia.
    + replace j with (k + (j - k))%nat by lia. rewrite Ha, wr_in by (rewrite ?Hlt; lia).
      replace (Z.to_nat (a + Z.of_nat (j - k) - a)) with (j - k)%nat by lia.
      apply nth_lookup_Some. apply lookup_take_Some. split; [|lia]. rewrite lookup_drop.
      by replace (k + (j - k))%nat with j by lia.
  - intros x Hx. rewrite length_take_le in Hx by lia. rewrite wr_out.
    + apply Hout. intros j Hj. rewrite length_take in Hj. apply Hx. lia.
    + rewrite Hlt. intros Hr. apply (Hx (k + Z.to_nat (x - a))%nat); [lia|]. rewrite Ha by lia. lia.
Qed.
Lemma user_page_flags m root va : user_page m root va -> va < MAXVA ->
  umapped m root va = true /\ has (pte_of m root va) PTE_V = true /\ has (pte_of m root va) PTE_COW = false.
Proof.
  intros (p & f & E & Hp & Hf & HU & HC & _) Hva. unfold umapped.
  rewrite E, mkpte_pa by (done || apply Hp || by apply page_ok_56). rewrite mkpte_V by done.
  unfold PTE_U, PTE_COW in *. rewrite !has_mkpte, HU, HC by lia.
  rewrite (proj2 (Z.ltb_lt _ _)) by done. rewrite (proj2 (Z.eqb_neq p 0)) by by apply page_ok_nonzero. done.
Qed.

Lemma should_copy_false va i s :
  calm (k_core s) -> cproc (ccpu (k_core s)) = Some i ->
  let root := pagetable (procs (k_core s) i) in
  va < MAXVA -> pt_ok s root -> has (pte_of (k_mem s) root va) PTE_V = true ->
  has (pte_of (k_mem s) root va) PTE_COW = false ->
  should_copyon_write va s = Ok false s.
Proof.
  intros Hc Hi root Hva Hpt HV HC.
  enough (wp (should_copyon_write va) (fun r s' => r = false /\ s' = s) s) as W.
  { apply wp_elim in W as (? & ? & E & -> & ->). exact E. }
  unfold should_copyon_write. wp_step. apply (wp_cur _ _ i); [apply Hc|done|]. intros c He.
  rewrite (core_eqv_calm _ _ Hc He). replace (set_core (k_core s) s) with s by by destruct s.
  fold root. wp_step. apply wp_walk; [done|]. destruct (slot_valid _ _ _ HV) as [t Et]. unfold slot. rewrite Et.
  rewrite (proj2 (Z.eqb_neq _ 0)) by by eapply table_nonzero. unfold ld64. wp_step. wp_step. wp_step.
  rewrite (load_slot _ _ _ _ Et), HC, andb_false_r. done.
Qed.

Lemma own_range_stored s i root va src k m' :
  own_range s i root va (length src) -> stored (k_mem s) root va (take k src) m' ->
  pt_ok (set_mem m' s) root /\ forall v, pte_of m' root v = pte_of (k_mem s) root v.
Proof.
  intros Ho Hs.
  assert (Ht : forall q, is_table (k_mem s) root q -> same_on (k_mem s) m' q PGSIZE).
  { intros q Hq. eapply stored_tables; [exact Hs| |by apply (pt_page _ _ (or_pt _ _ _ _ _ Ho))|done].
    intros j Hj. rewrite length_take in Hj. apply (or_page _ _ _ _ _ Ho). lia. }
  split; [|intros v; by apply pte_of_same]. eapply pt_ok_same; [|apply (or_pt _ _ _ _ _ Ho)]. auto.
Qed.

Lemma copyout_own s i root va src :
  calm (k_core s) -> own_range s i root va (length src) ->
  exists m', copyout root va src s = Ok 0 (set_mem m' s) /\ stored (k_mem s) root va src m'.
Proof.
  intros Hc Ho. destruct (or_va _ _ _ _ _ Ho) as [Hva0 Hva1].
  enough (wp (copyout root va src) (fun r s' => r = 0 /\ exists m', s' = set_mem m' s /\ stored (k_mem s) root va src m') s) as W.
  { apply wp_elim in W as (r & s' & E & -> & m' & -> & Hs). eauto. }
  unfold copyout. assert (HM : MAXVA = 2 ^ 38) by done.
  apply (wp_loop _ (fun n '(v, rest) s' => exists k m', (k <= length src)%nat /\ n = Z.of_nat (length src - k) /\
     rest = drop k src /\ s' = set_mem m' s /\ stored (k_mem s) root va (take k src) m' /\
     ((k < length src)%nat -> v = va + Z.of_nat k))) with (n := Z.of_nat (length src)).
  - intros n [v rest] s' _ (k & m' & Hk & -> & -> & -> & Hs & Hv). rewrite length_drop.
    destruct (Z.ltb_spec 0 (Z.of_nat (length src - k))).
    2: { apply wp_ret. split; [done|]. exists m'. rewrite take_ge in Hs by lia. done. }
    rewrite Hv by lia. clear Hv v. set (v := va + Z.of_nat k).
    destruct (own_range_stored _ _ _ _ _ _ _ Ho Hs) as [Hpt Hpte].
    destruct (user_page_flags _ _ _ (or_page _ _ _ _ _ Ho k ltac:(lia)) ltac:(lia)) as (Hum & HV & HC). fold v in Hum, HV, HC.
    apply wp_bind. eapply wp_Ok; [eapply (should_copy_false v i (set_mem m' s)); [done|apply (or_cur _ _ _ _ _ Ho)|unfold v; lia|..];
      cbn [k_core k_mem set_mem]; rewrite (or_root _ _ _ _ _ Ho), ?Hpte; done|].
    unfold when. wp_step. wp_step. wp_step. apply wp_walkaddr; [done|]. cbn [k_mem set_mem].
    assert (Hu : umapped m' root (PGROUNDDOWN v) = true).
    { rewrite umapped_page. unfold umapped in Hum |- *. by rewrite Hpte. }
    rewrite Hu, Hpte. rewrite <- (pte_of_page _ _ v) in HV.
    rewrite (proj2 (Z.eqb_neq _ 0)) by (apply umapped_pa; by rewrite umapped_page).
    pose proof (PGROUNDDOWN_bounds v) as Hb. set (n := Z.min _ _). wp_step. wp_step. wp_step.
    exists (Z.of_nat (length src - (k + Z.to_nat n))). split; [lia|].
    exists (k + Z.to_nat n)%nat. eexists. split; [lia|]. split; [done|]. split; [by rewrite drop_drop|].
    split; [by destruct s|]. split.
    + eapply stored_chunk; [exact Hs|lia|apply (or_inj _ _ _ _ _ Ho)|fold v; lia].
    + intros Hlt. assert (n = PGSIZE - (v - PGROUNDDOWN v)) as En by lia.
      rewrite u64_small; [|lia]. unfold v in *. lia.
  - unfold PGSIZE in *. lia.
  - exists 0%nat, (k_mem s). split_and!; [lia|by rewrite Nat.sub_0_r|done|by destruct s|apply stored_nil|lia].
Qed.

(** C30: copyout() stores into the memory of the process.  If the addresses
    from [dstva] on are mapped in the page table of the current process, to
    pages that are neither shared by a fork nor mapped twice, then copyout()
    returns 0; the process sees the bytes of [src] there; its page table is as
    before, and so is every byte of memory at another address. *)
Theorem copyout_correct s i root dstva src :
  calm (k_core s) -> own_range s i root dstva (length src) ->
  exists m', copyout root dstva src s = Ok 0 (set_mem m' s) /\
    ubytes m' root dstva (length src) = src /\
    (forall va, pte_of m' root va = pte_of (k_mem s) root va) /\
    (forall x, (forall j, (j < length src)%nat -> x <> uaddr (k_mem s) root (dstva + Z.of_nat j)) -> m' x = k_mem s x).
Proof.
  intros Hc Ho. destruct (copyout_own s i root dstva src Hc Ho) as (m' & E & Hs). exists m'.
  assert (Hs' := Hs). rewrite <- (firstn_all src) in Hs'. destruct (own_range_stored _ _ _ _ _ _ _ Ho Hs') as [_ Hpte].
  split_and!; [done|by apply (stored_ubytes (k_mem s))|done|apply Hs].
Qed.

(** ** Memory shared by a fork *)

Lemma wr_other m p a bs x : page_ok p -> page_ok x -> x <> p -> p <= a -> a + Z.of_nat (length bs) <= p + PGSIZE ->
  same_on m (wr m a bs) x PGSIZE.
Proof.
  intros Hp Hx Hne Ha Hb y Hy. pose proof (page_ok_disjoint p x Hp Hx ltac:(done)). apply wr_out. lia.
Qed.

(** The page after copy_on_write(), and what a chunk stored in it changes. *)
Lemma own_page_wr r1 r2 va pa f q s l s' l' bs :
  own_page r1 va pa f q s l s' l' -> heap_ok s l -> pt_ok s r1 -> 2 <= ref s pa -> pt_ok s r2 -> disj s r1 r2 ->
  0 <= va < MAXVA -> 0 <= f < 1024 -> page_ok pa ->
  Z.of_nat (length bs) <= PGSIZE - va mod PGSIZE ->
  let m := wr (k_mem s') (q + va mod PGSIZE) bs in
  ubytes m r1 va (length bs) = bs /\
  (forall v p g, 0 <= v < MAXVA -> pte_of (k_mem s) r2 v = mkpte p g -> 0 <= g < 1024 -> page_ok p ->
     ~ is_table (k_mem s) r1 p -> 1 <= ref s p -> ubyte m r2 v = ubyte (k_mem s) r2 v).
Proof.
  intros Ho Hh Hpt1 Hr Hpt2 Hd Hva Hf Hpa Hlen m.
  pose proof Ho as [_ _ Hh' Hpt1' Htab Hq Hpte Hown Hcopy Hwhich Hfr _].
  destruct Hwhich as [(_ & _ & ?)|(-> & _ & _)]; [lia|].
  assert (Hxq : forall x, page_ok x -> 1 <= ref s x -> x ∉ q :: l')
    by (intros x Hx Hrx; eapply heap_ok_used; [done|done|lia]).
  pose proof (off_range va) as Hoff. pose proof (uncow_range_flags f Hf) as Hf'.
  assert (Hnq : ~ is_table (k_mem s) r1 q).
  { intros Ht. apply (pt_table_used _ _ _ _ Hh Hpt1 Ht). by left. }
  assert (Hwr : forall x, page_ok x -> x <> q -> same_on (k_mem s') m x PGSIZE).
  { intros x Hx Hxe. apply (wr_other _ q); [done|done|done|lia|lia]. }
  split.
  - assert (Hpte1 : forall v, pte_of m r1 v = pte_of (k_mem s') r1 v).
    { intros v. apply pte_of_same. intros x Hx. apply Hwr; [by apply (pt_page _ _ Hpt1')|].
      intros ->. apply Hnq. by apply (is_table_same _ _ _ Htab). }
    assert (Epg : pte_of m r1 (PGROUNDDOWN va) = mkpte q (uncow f)).
    { rewrite pte_of_page, Hpte1, Hpte by done. unfold repoint. by rewrite Z.eqb_refl. }
    rewrite mod_page in Hlen. rewrite <- rd_ubytes by lia. rewrite Epg, mkpte_pa by (done || apply Hq || by apply page_ok_56).
    unfold m. rewrite mod_page. apply rd_wr_same.
  - intros v p g Hv E Hg Hp Hnp Hrp.
    assert (Hother : forall x, page_ok x -> 1 <= ref s x -> ~ is_table (k_mem s) r1 x -> same_on (k_mem s) m x PGSIZE).
    { intros x Hx Hrx Hnx. eapply same_on_trans; [apply Hfr; auto|]. apply Hwr; [done|].
      intros ->. apply (Hxq q Hx Hrx). by left. }
    assert (Hpte2 : pte_of m r2 v = mkpte p g).
    { rewrite (pte_of_same (k_mem s)); [done|]. intros x Hx. destruct (pt_page _ _ Hpt2 x Hx) as [Hok Hr1].
      apply Hother; [done|lia|]. intros Ht. by apply (Hd x). }
    unfold ubyte. rewrite !(ubyte_mkpte _ _ _ p g) by done. pose proof (off_range v). apply (Hother p Hp Hrp Hnp). lia.
Qed.

(** C4: copyout() breaks the sharing of a fork first.  When it stores within a
    page of the current process that is shared copy-on-write, and memory is
    left for the copy, it returns 0, the process sees the bytes of [src], and
    another process [r2] sees every byte it saw before. *)
Theorem copyout_cow_isolated i r2 dstva src pa f s l :
  let root := pagetable (procs (k_core s) i) in
  unlocked s -> heap_ok s l -> l <> [] -> cproc (ccpu (k_core s)) = Some i -> pt_ok s root -> pt_ok s r2 -> disj s root r2 ->
  0 <= dstva < MAXVA -> PGROUNDDOWN dstva < sz (procs (k_core s) i) ->
  pte_of (k_mem s) root dstva = mkpte pa f -> 0 <= f < 1024 -> has f PTE_COW = true -> has f PTE_U = true ->
  page_ok pa -> ~ is_table (k_mem s) root pa -> 2 <= ref s pa ->
  src <> [] -> Z.of_nat (length src) <= PGSIZE - dstva mod PGSIZE ->
  exists s', copyout root dstva src s = Ok 0 s' /\ unlocked s' /\
    ubytes (k_mem s') root dstva (length src) = src /\
    (forall v p g, 0 <= v < MAXVA -> pte_of (k_mem s) r2 v = mkpte p g -> 0 <= g < 1024 -> page_ok p ->
       ~ is_table (k_mem s) root p -> 1 <= ref s p -> ubyte (k_mem s') r2 v = ubyte (k_mem s) r2 v).
Proof.
  intros root Hu Hh Hl Hi Hpt Hpt2 Hd Hva Hsz Ee Hf HC HU Hpa Hn Hr Hsrc Hlen.
  enough (wp (copyout root dstva src) (fun r s' => r = 0 /\ unlocked s' /\
    ubytes (k_mem s') root dstva (length src) = src /\
    (forall v p g, 0 <= v < MAXVA -> pte_of (k_mem s) r2 v = mkpte p g -> 0 <= g < 1024 -> page_ok p ->
       ~ is_table (k_mem s) root p -> 1 <= ref s p -> ubyte (k_mem s') r2 v = ubyte (k_mem s) r2 v)) s) as W.
  { apply wp_elim in W as (r & s' & E & -> & W). eauto. }
  assert (Hlen0 : (0 < length src)%nat) by (destruct src; [done|simpl; lia]).
  set (len := length src) in *. unfold copyout.
  apply (wp_loop _ (fun n '(v, rest) s' => (n = 1 /\ v = dstva /\ rest = src /\ s' = s) \/
    (n = 0 /\ rest = [] /\ unlocked s' /\ ubytes (k_mem s') root dstva len = src /\
    (forall v p g, 0 <= v < MAXVA -> pte_of (k_mem s) r2 v = mkpte p g -> 0 <= g < 1024 -> page_ok p ->
       ~ is_table (k_mem s) root p -> 1 <= ref s p -> ubyte (k_mem s') r2 v = ubyte (k_mem s) r2 v)))) with (n := 1);
    [|lia|by left].
  intros n [v rest] s' _ [(-> & -> & -> & ->)|(-> & -> & Hrest)]; [|by apply wp_ret].
  rewrite (proj2 (Z.ltb_lt 0 _)) by (fold len; lia).
  assert (HV : has (pte_of (k_mem s) root dstva) PTE_V = true) by (rewrite Ee; by apply mkpte_V).
  apply wp_bind. eapply wp_mono; [apply (should_copy_true dstva i s); try done|].
  { apply Hu. } { lia. } { fold root. rewrite Ee. unfold PTE_COW in *. by rewrite has_mkpte by lia. }
  intros r s1 (-> & c & He & ->). unfold when. set (s1 := set_core c s).
  destruct (core_eqv_fields _ _ He) as (_ & _ & Hprocs & _ & _ & _ & _ & Hcp & _).
  assert (Hroot : pagetable (procs (k_core s1) i) = root) by (unfold s1; cbn; by rewrite Hprocs).
  assert (Hh1 : heap_ok s1 l) by by eapply heap_ok_ext.
  assert (Hu1 : unlocked s1) by by eapply unlocked_eqv.
  assert (Hpt1 : pt_ok s1 root) by (by eapply pt_ok_same; [|exact Hpt]).
  assert (Hpt21 : pt_ok s1 r2) by (by eapply pt_ok_same; [|exact Hpt2]).
  apply wp_bind, wp_bind. apply (wp_copy_on_write dstva i pa f s1 l); rewrite ?Hroot; try done.
  { unfold s1. cbn. by rewrite Hcp. } { change (ref s1 pa) with (ref s pa). lia. }
  intros q s2 l2 Ho. apply wp_ret. apply wp_bind. apply wp_walkaddr; [apply Ho|].
  destruct (own_page_wr root r2 dstva pa f q s1 l s2 l2 src Ho Hh1 Hpt1 Hr Hpt21 Hd Hva Hf Hpa Hlen) as [Hw1 Hw2].
  assert (Epg : pte_of (k_mem s2) root (PGROUNDDOWN dstva) = mkpte q (uncow f)).
  { rewrite pte_of_page. rewrite (op_pte _ _ _ _ _ _ _ _ _ Ho) by lia. unfold repoint. by rewrite Z.eqb_refl. }
  pose proof (op_page _ _ _ _ _ _ _ _ _ Ho) as Hq. pose proof (uncow_range_flags f Hf) as Hf'.
  assert (Hq2 : PTE2PA (mkpte q (uncow f)) = q) by (apply mkpte_pa; [apply Hq|by apply page_ok_56|done]).
  assert (Hum : umapped (k_mem s2) root (PGROUNDDOWN dstva) = true).
  { unfold umapped. rewrite Epg, Hq2, mkpte_V by done. unfold PTE_U in *. rewrite has_mkpte, has_uncow, HU by lia.
    rewrite (proj2 (Z.ltb_lt _ _)) by (apply MAXVA_page; lia). by rewrite (proj2 (Z.eqb_neq q 0)) by by apply page_ok_nonzero. }
  rewrite Hum, Epg, Hq2, (proj2 (Z.eqb_neq q 0)) by by apply page_ok_nonzero.
  rewrite mod_page in Hlen, Hw1, Hw2. fold len in Hlen |- *. rewrite Z.min_r by lia. rewrite Nat2Z.id. unfold len.
  rewrite firstn_all, drop_all. apply wp_bind, wp_modify. apply wp_ret. exists 0. split; [lia|]. right.
  split; [done|]. split; [done|]. split; [|by split].
  eapply (unlocked_eqv s1); [apply Ho|exact Hu1].
Qed.

(** C32: copyout() does not look at the result of copy_on_write().  When it is
    to store within a page of the current process that is shared with another
    process [r2], and no memory is left for a copy, copy_on_write() returns -1,
    but copyout() stores the bytes all the same and returns 0: the other
    process sees them too. *)
Theorem copyout_writes_shared_page i r2 dstva src pa f g s :
  let root := pagetable (procs (k_core s) i) in
  unlocked s -> heap_ok s [] -> cproc (ccpu (k_core s)) = Some i -> pt_ok s root -> pt_ok s r2 ->
  0 <= dstva < MAXVA -> PGROUNDDOWN dstva < sz (procs (k_core s) i) ->
  pte_of (k_mem s) root dstva = mkpte pa f -> pte_of (k_mem s) r2 dstva = mkpte pa g ->
  0 <= f < 1024 -> 0 <= g < 1024 -> has f PTE_COW = true -> has f PTE_U = true ->
  page_ok pa -> ~ is_table (k_mem s) root pa -> ~ is_table (k_mem s) r2 pa -> 2 <= ref s pa ->
  src <> [] -> Z.of_nat (length src) <= PGSIZE - dstva mod PGSIZE ->
  (exists s1, copy_on_write dstva s = Ok (-1) s1) /\
  exists s', copyout root dstva src s = Ok 0 s' /\ ubytes (k_mem s') r2 dstva (length src) = src.
Proof.
  intros root Hu Hh Hi Hpt Hpt2 Hva Hsz Ee Ee2 Hf Hg HC HU Hpa Hn Hn2 Hr Hsrc Hlen.
  assert (Hnocopy : forall c (Q : Z -> kst -> Prop), core_eqv (k_core s) c ->
    (forall c', Q (-1) (set_core c' s)) -> wp (copy_on_write dstva) Q (set_core c s)).
  { intros c Q He HQ. destruct (core_eqv_fields _ _ He) as (_ & _ & Hprocs & _ & _ & _ & _ & Hcp & _).
    assert (Hroot : pagetable (procs (k_core (set_core c s)) i) = root) by (cbn; by rewrite Hprocs).
    apply (wp_copy_on_write dstva i pa f (set_core c s) []); rewrite ?Hroot; try done.
    - by eapply unlocked_eqv.
    - cbn. by rewrite Hcp.
    - by eapply pt_ok_same; [|exact Hpt].
    - change (ref (set_core c s) pa) with (ref s pa). lia.
    - intros q s' l' Ho. destruct (op_which _ _ _ _ _ _ _ _ _ Ho) as [(_ & _ & E)|(E & _)]; [|done].
      change (ref (set_core c s) pa) with (ref s pa) in E. lia.
    - intros c' _ _ _. apply HQ. }
  split.
  { destruct (wp_elim _ _ _ (Hnocopy (k_core s) (fun r _ => r = -1) (core_eqv_refl _) ltac:(done))) as (r & s1 & E & ->).
    exists s1. rewrite <- E. by destruct s. }
  set (m := wr (k_mem s) (pa + dstva mod PGSIZE) src). set (len := length src) in *.
  assert (Hlen0 : (0 < len)%nat) by (unfold len; destruct src; [done|simpl; lia]). pose proof (off_range dstva) as Hoff.
  enough (wp (copyout root dstva src) (fun r s' => r = 0 /\ k_mem s' = m) s) as W.
  { apply wp_elim in W as (r & s' & E & -> & Em). exists s'. split; [exact E|]. rewrite Em.
    assert (Epg : pte_of m r2 (PGROUNDDOWN dstva) = mkpte pa g).
    { rewrite pte_of_page, <- Ee2. apply pte_of_same. intros x Hx. destruct (pt_page _ _ Hpt2 x Hx) as [Hok _].
      apply (wr_other _ pa); [done|done|by intros ->|lia|fold len; lia]. }
    rewrite mod_page in Hlen. rewrite <- rd_ubytes by (fold len; lia).
    rewrite Epg, mkpte_pa by (done || apply Hpa || by apply page_ok_56). unfold m. rewrite mod_page. apply rd_wr_same. }
  unfold copyout.
  apply (wp_loop _ (fun n '(v, rest) s' => (n = 1 /\ v = dstva /\ rest = src /\ s' = s) \/
    (n = 0 /\ rest = [] /\ k_mem s' = m))) with (n := 1); [|lia|by left].
  intros n [v rest] s' _ [(-> & -> & -> & ->)|(-> & -> & Hrest)]; [|by apply wp_ret].
  rewrite (proj2 (Z.ltb_lt 0 _)) by (fold len; lia).
  apply wp_bind. eapply wp_mono; [apply (should_copy_true dstva i s); try done; [apply Hu|lia| |]; fold root; rewrite Ee;
    [by apply mkpte_V|unfold PTE_COW in *; by rewrite has_mkpte by lia]|].
  intros r s1 (-> & c & He & ->). unfold when. apply wp_bind, wp_bind. apply (Hnocopy c); [done|]. intros c'.
  apply wp_ret, wp_bind, wp_walkaddr; [by eapply pt_ok_same; [|exact Hpt]|]. cbn [k_mem set_core].
  assert (Hum : umapped (k_mem s) root (PGROUNDDOWN dstva) = true).
  { unfold umapped. rewrite pte_of_page, Ee, mkpte_pa, mkpte_V by (done || apply Hpa || by apply page_ok_56).
    unfold PTE_U in *. rewrite has_mkpte, HU by lia.
    rewrite (proj2 (Z.ltb_lt _ _)) by (apply MAXVA_page; lia). by rewrite (proj2 (Z.eqb_neq pa 0)) by by apply page_ok_nonzero. }
  rewrite Hum, pte_of_page, Ee, mkpte_pa by (done || apply Hpa || by apply page_ok_56).
  rewrite (proj2 (Z.eqb_neq pa 0)) by by apply page_ok_nonzero.
  rewrite mod_page in Hlen. fold len. rewrite Z.min_r, Nat2Z.id by lia. unfold len. rewrite firstn_all, drop_all.
  apply wp_bind, wp_modify, wp_ret. exists 0. split; [lia|]. right. split; [done|]. split; [done|].
  unfold m. by rewrite mod_page.
Qed.

End Copyout.

(** ** Examples, on the machine with eight pages *)

Section Witness.
#[local] Existing Instance image8.

(** Process 1 runs with interrupts on. *)
Definition calm8 (f n : Z) : kst := set_core (set_ccpu (mkcpu (Some 1%nat) 0 true true) (core8 1)) (kst8 f n 1).

Lemma own8 n : own_range (calm8 user_rwx n) 1 (pg 0) 7 3.
Proof.
  assert (Hpg : forall j, (j < 3)%nat -> pte_of (mem8 user_rwx) (pg 0) (7 + Z.of_nat j) = mkpte (pg 3) user_rwx).
  { intros j Hj. rewrite <- pte_of_page. assert (PGROUNDDOWN (7 + Z.of_nat j) = 0) as ->; [|by apply pte8_old].
    apply PGROUNDDOWN_iff; [done|]. unfold PGSIZE. lia. }
  split; [done|done|by eapply pt_ok_same; [|apply (pt8_old user_rwx n 1)]|rewrite MAXVA_eq; lia| |].
  - intros j Hj. exists (pg 3), user_rwx. split; [by apply Hpg|]. split; [by apply pg_ok|].
    split_and!; [done|done|done|done|]. intros (k & Hk & E%pg_inj)%table8_old. lia.
  - intros j k Hj Hk. unfold uaddr. change (k_mem (calm8 user_rwx n)) with (mem8 user_rwx).
    rewrite !Hpg, !Z.mod_small by (done || unfold PGSIZE; lia). lia.
Qed.

Lemma copyout_correct_witness :
  exists m', copyout (pg 0) 7 [Byte.x01; Byte.x02; Byte.x03] (calm8 user_rwx 1) = Ok 0 (set_mem m' (calm8 user_rwx 1)) /\
    ubytes m' (pg 0) 7 3 = [Byte.x01; Byte.x02; Byte.x03].
Proof.
  destruct (copyout_correct (calm8 user_rwx 1) 1 (pg 0) 7 [Byte.x01; Byte.x02; Byte.x03]) as (m' & E & Hb & _).
  - split; [by split|done].
  - apply own8.
  - exists m'. split; [exact E|exact Hb].
Defined.

Lemma copyout_cow_isolated_witness :
  exists s', copyout (pg 0) 7 [Byte.x01; Byte.x02] (kst8 (cow user_rwx) 2 1) = Ok 0 s' /\
    ubytes (k_mem s') (pg 0) 7 2 = [Byte.x01; Byte.x02].
Proof.
  destruct (copyout_cow_isolated 1 (pg 4) 7 [Byte.x01; Byte.x02] (pg 3) (cow user_rwx) (kst8 (cow user_rwx) 2 1)
    [pg 5; pg 6; pg 7]) as (s' & E & _ & Hb & _).
  - apply unlocked8.
  - by apply heap8.
  - discriminate.
  - reflexivity.
  - apply pt8_old.
  - apply pt8_new.
  - intros q (k & Hk & ->)%table8_old E%table8_new%pg_inj. lia.
  - rewrite MAXVA_eq. lia.
  - reflexivity.
  - change (pagetable _) with (pg 0). rewrite <- pte_of_page. by apply pte8_old.
  - split; [discriminate|reflexivity].
  - reflexivity.
  - reflexivity.
  - by apply pg_ok.
  - intros (k & Hk & E%pg_inj)%table8_old. lia.
  - rewrite ref8_pg by done. simpl. lia.
  - discriminate.
  - vm_compute. discriminate.
  - exists s'. split; [exact E|exact Hb].
Defined.

(** The machine with two free pages, just enough for the page table of the
    child: after the fork no memory is left. *)
Definition ref_two (id : Z) : Z := if id =? PA2PAGE_ID (pg 5) then 1 else ref8 1 id.
Definition kst_two : kst := mkkst (core8 0) (mem8 user_rwx) (pg 6) ref_two 0.

Ltac each_page k Hk :=
  assert (k = 0 \/ k = 1 \/ k = 2 \/ k = 3 \/ k = 4 \/ k = 5 \/ k = 6 \/ k = 7)
    as [->|[->|[->|[->|[->|[->|[->| ->]]]]]]] by lia; clear Hk.

Lemma heap_two : heap_ok kst_two [pg 6; pg 7].
Proof.
  split; [|split; [|split]].
  - split; [done|]. split; [by apply pg_ok|]. split; [reflexivity|]. split; [by apply pg_ok|]. reflexivity.
  - repeat constructor; rewrite ?elem_of_cons, ?elem_of_nil; vm_compute; intuition discriminate.
  - intros p (k & Hk & ->)%pages8. rewrite !elem_of_cons, elem_of_nil.
    each_page k Hk; vm_compute; intuition discriminate.
  - intros p (k & Hk & ->)%pages8. each_page k Hk; vm_compute; split; discriminate || reflexivity.
Qed.

Lemma fork_two : forkable (pg 0) (pg 4) 1 kst_two.
Proof.
  assert (Href : forall k, 0 <= k < 5 -> ref kst_two (pg k) = ref (kst8 user_rwx 1 0) (pg k)).
  { intros k Hk. assert (Hk' : 0 <= k < 8) by lia. by each_page k Hk'; try lia. }
  destruct (fork8 1 ltac:(lia)) as [F1 F2 F3 F4 F5]. constructor; [| |exact F3| |exact F5].
  - eapply pt_ok_same; [|exact F1]. intros q (k & Hk & ->)%table8_old. split; [done|]. apply Href. lia.
  - eapply pt_ok_same; [|exact F2]. intros q ->%table8_new. split; [done|]. apply Href. lia.
  - intros i Hi. assert (i = 0%nat) as -> by lia. exists (pg 3), user_rwx.
    split; [by apply pte8_old|]. split; [done|]. split; [by apply pg_ok|].
    split; [intros (k & Hk & E%pg_inj)%table8_old; lia|].
    split; [by intros E%table8_new%pg_inj|]. rewrite Href by done. rewrite ref8_pg by done. simpl. lia.
Qed.

Lemma copyout_writes_shared_page_witness :
  exists s1 s2, uvmcopy (pg 0) (pg 4) PGSIZE kst_two = Ok 0 s1 /\ ubyte (k_mem kst_two) (pg 0) 7 = Byte.x2a /\
    copyout (pg 4) 7 [Byte.xff; Byte.xfe] s1 = Ok 0 s2 /\ ubytes (k_mem s2) (pg 0) 7 2 = [Byte.xff; Byte.xfe].
Proof.
  assert (Hu : unlocked kst_two) by (split_and!; simpl; try done; lia).
  assert (W : wp (uvmcopy (pg 0) (pg 4) PGSIZE) (fun r s1 => r = 0 -> exists l1, sharing (pg 0) (pg 4) 1 1 kst_two [pg 6; pg 7] s1 l1) kst_two).
  { apply (wp_uvmcopy _ _ _ _ [pg 6; pg 7]); [done|exact heap_two|rewrite MAXVA_eq; unfold PGSIZE; lia|exact fork_two|..].
    - intros s1 l1 Hs _. exists l1. exact Hs.
    - discriminate. }
  assert (Hc : match uvmcopy (pg 0) (pg 4) PGSIZE kst_two with Ok r s => r = 0 /\ k_free s = 0 | _ => False end)
    by (vm_compute; split; reflexivity).
  apply wp_elim in W as (r & s1 & E & W). rewrite E in Hc. destruct Hc as [-> Hfree].
  destruct (W eq_refl) as [l1 Hs]. clear W. pose proof (sh_heap _ _ _ _ _ _ _ _ Hs) as Hh.
  assert (l1 = []) as ->.
  { destruct Hh as [Hfl _]. destruct l1 as [|q l1]; [done|]. destruct Hfl as (Eq & Hq & _).
    by destruct (page_ok_nonzero q Hq); rewrite <- Eq. }
  destruct (sharing_view _ _ _ _ _ _ _ 7 heap_two fork_two ltac:(rewrite MAXVA_eq; unfold PGSIZE; lia) Hs ltac:(split; [lia|reflexivity]))
    as (pa & f & Hf & Hpa & Hr & Hno & Hnn & Ee & Eo & En & _).
  destruct (core_eqv_fields _ _ (sh_core _ _ _ _ _ _ _ _ Hs)) as (_ & _ & Hprocs & _ & _ & _ & _ & Hcp & _).
  assert (Hroot : pagetable (procs (k_core s1) 0%nat) = pg 4) by (by rewrite Hprocs).
  destruct (copyout_writes_shared_page 0 (pg 0) 7 [Byte.xff; Byte.xfe] pa (cow f) (cow f) s1) as (_ & s2 & E2 & Hb).
  - eapply unlocked_eqv; [apply Hs|done].
  - exact Hh.
  - by rewrite Hcp.
  - rewrite Hroot. apply Hs.
  - apply Hs.
  - rewrite MAXVA_eq. lia.
  - rewrite Hprocs. reflexivity.
  - rewrite Hroot. exact En.
  - exact Eo.
  - by apply cow_range_flags.
  - by apply cow_range_flags.
  - unfold PTE_COW. rewrite has_cow by lia. apply orb_true_r.
  - assert (HU : has (mkpte pa f) PTE_U = true).
    { rewrite <- Ee. rewrite <- (pte_of_page (k_mem kst_two) (pg 0) 7).
      exact (f_equal (fun e => has e PTE_U) (pte8_old user_rwx user_rwx_range)). }
    unfold PTE_U in *. rewrite has_mkpte in HU by lia. by rewrite has_cow, HU by lia.
  - exact Hpa.
  - by rewrite Hroot.
  - exact Hno.
  - exact Hr.
  - discriminate.
  - vm_compute. discriminate.
  - rewrite Hroot in E2. exists s1, s2. split; [exact E|]. split; [reflexivity|]. split; [exact E2|exact Hb].
Defined.
End Witness.
