(* ===== verification/State.v ===== *)
(** The state of the whole kernel: what every part keeps in its global
    variables, on top of the page allocator's state [kst] of Kalloc.v.

    Objects the C code points to are named by their index in the array they
    live in (struct buf, struct inode, struct file, struct proc) or by the
    page they were allocated in (struct pipe).  [World] stands for everything
    outside the running thread: the devices behind the memory-mapped
    registers, and whatever runs between a swtch() away from this thread and
    the swtch() back to it. *)

From stdpp Require Import base tactics list strings.
From Stdlib Require Import ZArith Lia FunctionalExtensionality.
From coqutil Require Import Byte.
From S2P Require Import Prelude Riscv Mem Core Spinlock Kalloc.

Local Open Scope Z_scope.

(** ** Control and status registers (kernel/riscv.h) *)

(** The registers of this hart.  The SIE bit of sstatus is [sie] of Core.v. *)
Record csrs := mkcsrs {
  c_mhartid : Z;
  c_mstatus : Z;
  c_mepc : Z;
  c_sstatus : Z;
  c_sip : Z;
  c_sie : Z;
  c_mie : Z;
  c_sepc : Z;
  c_medeleg : Z;
  c_mideleg : Z;
  c_stvec : Z;
  c_mtvec : Z;
  c_satp : Z;
  c_sscratch : Z;
  c_mscratch : Z;
  c_scause : Z;
  c_stval : Z;
  c_mcounteren : Z;
  c_time : Z
}.

Definition set_c_mhartid (v : Z) (s : csrs) : csrs :=
  mkcsrs v (c_mstatus s) (c_mepc s) (c_sstatus s) (c_sip s) (c_sie s) (c_mie s) (c_sepc s)
    (c_medeleg s) (c_mideleg s) (c_stvec s) (c_mtvec s) (c_satp s) (c_sscratch s) (c_mscratch s)
    (c_scause s) (c_stval s) (c_mcounteren s) (c_time s).
Definition set_c_mstatus (v : Z) (s : csrs) : csrs :=
  mkcsrs (c_mhartid s) v (c_mepc s) (c_sstatus s) (c_sip s) (c_sie s) (c_mie s) (c_sepc s)
    (c_medeleg s) (c_mideleg s) (c_stvec s) (c_mtvec s) (c_satp s) (c_sscratch s) (c_mscratch s)
    (c_scause s) (c_stval s) (c_mcounteren s) (c_time s).
Definition set_c_mepc (v : Z) (s : csrs) : csrs :=
  mkcsrs (c_mhartid s) (c_mstatus s) v (c_sstatus s) (c_sip s) (c_sie s) (c_mie s) (c_sepc s)
    (c_medeleg s) (c_mideleg s) (c_stvec s) (c_mtvec s) (c_satp s) (c_sscratch s) (c_mscratch s)
    (c_scause s) (c_stval s) (c_mcounteren s) (c_time s).
Definition set_c_sstatus (v : Z) (s : csrs) : csrs :=
  mkcsrs (c_mhartid s) (c_mstatus s) (c_mepc s) v (c_sip s) (c_sie s) (c_mie s) (c_sepc s)
    (c_medeleg s) (c_mideleg s) (c_stvec s) (c_mtvec s) (c_satp s) (c_sscratch s) (c_mscratch s)
    (c_scause s) (c_stval s) (c_mcounteren s) (c_time s).
Definition set_c_sip (v : Z) (s : csrs) : csrs :=
  mkcsrs (c_mhartid s) (c_mstatus s) (c_mepc s) (c_sstatus s) v (c_sie s) (c_mie s) (c_sepc s)
    (c_medeleg s) (c_mideleg s) (c_stvec s) (c_mtvec s) (c_satp s) (c_sscratch s) (c_mscratch s)
    (c_scause s) (c_stval s) (c_mcounteren s) (c_time s).
Definition set_c_sie (v : Z) (s : csrs) : csrs :=
  mkcsrs (c_mhartid s) (c_mstatus s) (c_mepc s) (c_sstatus s) (c_sip s) v (c_mie s) (c_sepc s)
    (c_medeleg s) (c_mideleg s) (c_stvec s) (c_mtvec s) (c_satp s) (c_sscratch s) (c_mscratch s)
    (c_scause s) (c_stval s) (c_mcounteren s) (c_time s).
Definition set_c_mie (v : Z) (s : csrs) : csrs :=
  mkcsrs (c_mhartid s) (c_mstatus s) (c_mepc s) (c_sstatus s) (c_sip s) (c_sie s) v (c_sepc s)
    (c_medeleg s) (c_mideleg s) (c_stvec s) (c_mtvec s) (c_satp s) (c_sscratch s) (c_mscratch s)
    (c_scause s) (c_stval s) (c_mcounteren s) (c_time s).
Definition set_c_sepc (v : Z) (s : csrs) : csrs :=
  mkcsrs (c_mhartid s) (c_mstatus s) (c_mepc s) (c_sstatus s) (c_sip s) (c_sie s) (c_mie s) v
    (c_medeleg s) (c_mideleg s) (c_stvec s) (c_mtvec s) (c_satp s) (c_sscratch s) (c_mscratch s)
    (c_scause s) (c_stval s) (c_mcounteren s) (c_time s).
Definition set_c_medeleg (v : Z) (s : csrs) : csrs :=
  mkcsrs (c_mhartid s) (c_mstatus s) (c_mepc s) (c_sstatus s) (c_sip s) (c_sie s) (c_mie s)
    (c_sepc s) v (c_mideleg s) (c_stvec s) (c_mtvec s) (c_satp s) (c_sscratch s) (c_mscratch s)
    (c_scause s) (c_stval s) (c_mcounteren s) (c_time s).
Definition set_c_mideleg (v : Z) (s : csrs) : csrs :=
  mkcsrs (c_mhartid s) (c_mstatus s) (c_mepc s) (c_sstatus s) (c_sip s) (c_sie s) (c_mie s)
    (c_sepc s) (c_medeleg s) v (c_stvec s) (c_mtvec s) (c_satp s) (c_sscratch s) (c_mscratch s)
    (c_scause s) (c_stval s) (c_mcounteren s) (c_time s).
Definition set_c_stvec (v : Z) (s : csrs) : csrs :=
  mkcsrs (c_mhartid s) (c_mstatus s) (c_mepc s) (c_sstatus s) (c_sip s) (c_sie s) (c_mie s)
    (c_sepc s) (c_medeleg s) (c_mideleg s) v (c_mtvec s) (c_satp s) (c_sscratch s) (c_mscratch s)
    (c_scause s) (c_stval s) (c_mcounteren s) (c_time s).
Definition set_c_mtvec (v : Z) (s : csrs) : csrs :=
  mkcsrs (c_mhartid s) (c_mstatus s) (c_mepc s) (c_sstatus s) (c_sip s) (c_sie s) (c_mie s)
    (c_sepc s) (c_medeleg s) (c_mideleg s) (c_stvec s) v (c_satp s) (c_sscratch s) (c_mscratch s)
    (c_scause s) (c_stval s) (c_mcounteren s) (c_time s).
Definition set_c_satp (v : Z) (s : csrs) : csrs :=
  mkcsrs (c_mhartid s) (c_mstatus s) (c_mepc s) (c_sstatus s) (c_sip s) (c_sie s) (c_mie s)
    (c_sepc s) (c_medeleg s) (c_mideleg s) (c_stvec s) (c_mtvec s) v (c_sscratch s) (c_mscratch s)
    (c_scause s) (c_stval s) (c_mcounteren s) (c_time s).
Definition set_c_sscratch (v : Z) (s : csrs) : csrs :=
  mkcsrs (c_mhartid s) (c_mstatus s) (c_mepc s) (c_sstatus s) (c_sip s) (c_sie s) (c_mie s)
    (c_sepc s) (c_medeleg s) (c_mideleg s) (c_stvec s) (c_mtvec s) (c_satp s) v (c_mscratch s)
    (c_scause s) (c_stval s) (c_mcounteren s) (c_time s).
Definition set_c_mscratch (v : Z) (s : csrs) : csrs :=
  mkcsrs (c_mhartid s) (c_mstatus s) (c_mepc s) (c_sstatus s) (c_sip s) (c_sie s) (c_mie s)
    (c_sepc s) (c_medeleg s) (c_mideleg s) (c_stvec s) (c_mtvec s) (c_satp s) (c_sscratch s) v
    (c_scause s) (c_stval s) (c_mcounteren s) (c_time s).
Definition set_c_scause (v : Z) (s : csrs) : csrs :=
  mkcsrs (c_mhartid s) (c_mstatus s) (c_mepc s) (c_sstatus s) (c_sip s) (c_sie s) (c_mie s)
    (c_sepc s) (c_medeleg s) (c_mideleg s) (c_stvec s) (c_mtvec s) (c_satp s) (c_sscratch s)
    (c_mscratch s) v (c_stval s) (c_mcounteren s) (c_time s).
Definition set_c_stval (v : Z) (s : csrs) : csrs :=
  mkcsrs (c_mhartid s) (c_mstatus s) (c_mepc s) (c_sstatus s) (c_sip s) (c_sie s) (c_mie s)
    (c_sepc s) (c_medeleg s) (c_mideleg s) (c_stvec s) (c_mtvec s) (c_satp s) (c_sscratch s)
    (c_mscratch s) (c_scause s) v (c_mcounteren s) (c_time s).
Definition set_c_mcounteren (v : Z) (s : csrs) : csrs :=
  mkcsrs (c_mhartid s) (c_mstatus s) (c_mepc s) (c_sstatus s) (c_sip s) (c_sie s) (c_mie s)
    (c_sepc s) (c_medeleg s) (c_mideleg s) (c_stvec s) (c_mtvec s) (c_satp s) (c_sscratch s)
    (c_mscratch s) (c_scause s) (c_stval s) v (c_time s).
Definition set_c_time (v : Z) (s : csrs) : csrs :=
  mkcsrs (c_mhartid s) (c_mstatus s) (c_mepc s) (c_sstatus s) (c_sip s) (c_sie s) (c_mie s)
    (c_sepc s) (c_medeleg s) (c_mideleg s) (c_stvec s) (c_mtvec s) (c_satp s) (c_sscratch s)
    (c_mscratch s) (c_scause s) (c_stval s) (c_mcounteren s) v.

(** ** Sleep locks (kernel/sleeplock.h) *)

(** struct sleeplock; its spin lock is [SleepLk]. *)
Record sleeplock := mksleeplock {
  sl_locked : Z;
  sl_pid : Z
}.

Definition set_sl_locked (v : Z) (s : sleeplock) : sleeplock :=
  mksleeplock v (sl_pid s).
Definition set_sl_pid (v : Z) (s : sleeplock) : sleeplock :=
  mksleeplock (sl_locked s) v.

(** ** Block cache (kernel/buf.h, kernel/bio.c) *)

(** A link of the LRU list: buffer [i], or the list head. *)
Definition bref : Type := option nat.

(** struct buf *)
Record buf := mkbuf {
  b_valid : Z;
  b_disk : Z;
  b_dev : Z;
  b_blockno : Z;
  b_refcnt : Z;
  b_prev : bref;
  b_next : bref;
  b_data : list byte
}.

Definition set_b_valid (v : Z) (s : buf) : buf :=
  mkbuf v (b_disk s) (b_dev s) (b_blockno s) (b_refcnt s) (b_prev s) (b_next s) (b_data s).
Definition set_b_disk (v : Z) (s : buf) : buf :=
  mkbuf (b_valid s) v (b_dev s) (b_blockno s) (b_refcnt s) (b_prev s) (b_next s) (b_data s).
Definition set_b_dev (v : Z) (s : buf) : buf :=
  mkbuf (b_valid s) (b_disk s) v (b_blockno s) (b_refcnt s) (b_prev s) (b_next s) (b_data s).
Definition set_b_blockno (v : Z) (s : buf) : buf :=
  mkbuf (b_valid s) (b_disk s) (b_dev s) v (b_refcnt s) (b_prev s) (b_next s) (b_data s).
Definition set_b_refcnt (v : Z) (s : buf) : buf :=
  mkbuf (b_valid s) (b_disk s) (b_dev s) (b_blockno s) v (b_prev s) (b_next s) (b_data s).
Definition set_b_prev (v : bref) (s : buf) : buf :=
  mkbuf (b_valid s) (b_disk s) (b_dev s) (b_blockno s) (b_refcnt s) v (b_next s) (b_data s).
Definition set_b_next (v : bref) (s : buf) : buf :=
  mkbuf (b_valid s) (b_disk s) (b_dev s) (b_blockno s) (b_refcnt s) (b_prev s) v (b_data s).
Definition set_b_data (v : list byte) (s : buf) : buf :=
  mkbuf (b_valid s) (b_disk s) (b_dev s) (b_blockno s) (b_refcnt s) (b_prev s) (b_next s) v.

(** bcache: the buffers, and the links of its head. *)
Record bcache := mkbcache {
  bc_buf : nat -> buf;
  bc_hprev : bref;
  bc_hnext : bref
}.

Definition set_bc_buf (v : nat -> buf) (s : bcache) : bcache :=
  mkbcache v (bc_hprev s) (bc_hnext s).
Definition set_bc_hprev (v : bref) (s : bcache) : bcache :=
  mkbcache (bc_buf s) v (bc_hnext s).
Definition set_bc_hnext (v : bref) (s : bcache) : bcache :=
  mkbcache (bc_buf s) (bc_hprev s) v.

(** ** Log (kernel/log.c) *)

(** struct log, with the in-memory copy of its header. *)
Record log := mklog {
  l_start : Z;
  l_size : Z;
  l_outstanding : Z;
  l_committing : Z;
  l_dev : Z;
  l_n : Z;
  l_block : list Z
}.

Definition set_l_start (v : Z) (s : log) : log :=
  mklog v (l_size s) (l_outstanding s) (l_committing s) (l_dev s) (l_n s) (l_block s).
Definition set_l_size (v : Z) (s : log) : log :=
  mklog (l_start s) v (l_outstanding s) (l_committing s) (l_dev s) (l_n s) (l_block s).
Definition set_l_outstanding (v : Z) (s : log) : log :=
  mklog (l_start s) (l_size s) v (l_committing s) (l_dev s) (l_n s) (l_block s).
Definition set_l_committing (v : Z) (s : log) : log :=
  mklog (l_start s) (l_size s) (l_outstanding s) v (l_dev s) (l_n s) (l_block s).
Definition set_l_dev (v : Z) (s : log) : log :=
  mklog (l_start s) (l_size s) (l_outstanding s) (l_committing s) v (l_n s) (l_block s).
Definition set_l_n (v : Z) (s : log) : log :=
  mklog (l_start s) (l_size s) (l_outstanding s) (l_committing s) (l_dev s) v (l_block s).
Definition set_l_block (v : list Z) (s : log) : log :=
  mklog (l_start s) (l_size s) (l_outstanding s) (l_committing s) (l_dev s) (l_n s) v.

(** ** File system (kernel/fs.h, kernel/file.h) *)

(** struct superblock *)
Record superblock := mksb {
  sb_magic : Z;
  sb_size : Z;
  sb_nblocks : Z;
  sb_ninodes : Z;
  sb_nlog : Z;
  sb_logstart : Z;
  sb_inodestart : Z;
  sb_bmapstart : Z
}.

(** struct inode: the in-memory copy of an inode. *)
Record inode := mkinode {
  i_dev : Z;
  i_inum : Z;
  i_ref : Z;
  i_valid : Z;
  i_type : Z;
  i_major : Z;
  i_minor : Z;
  i_nlink : Z;
  i_size : Z;
  i_addrs : list Z
}.

Definition set_i_dev (v : Z) (s : inode) : inode :=
  mkinode v (i_inum s) (i_ref s) (i_valid s) (i_type s) (i_major s) (i_minor s) (i_nlink s)
    (i_size s) (i_addrs s).
Definition set_i_inum (v : Z) (s : inode) : inode :=
  mkinode (i_dev s) v (i_ref s) (i_valid s) (i_type s) (i_major s) (i_minor s) (i_nlink s)
    (i_size s) (i_addrs s).
Definition set_i_ref (v : Z) (s : inode) : inode :=
  mkinode (i_dev s) (i_inum s) v (i_valid s) (i_type s) (i_major s) (i_minor s) (i_nlink s)
    (i_size s) (i_addrs s).
Definition set_i_valid (v : Z) (s : inode) : inode :=
  mkinode (i_dev s) (i_inum s) (i_ref s) v (i_type s) (i_major s) (i_minor s) (i_nlink s)
    (i_size s) (i_addrs s).
Definition set_i_type (v : Z) (s : inode) : inode :=
  mkinode (i_dev s) (i_inum s) (i_ref s) (i_valid s) v (i_major s) (i_minor s) (i_nlink s)
    (i_size s) (i_addrs s).
Definition set_i_major (v : Z) (s : inode) : inode :=
  mkinode (i_dev s) (i_inum s) (i_ref s) (i_valid s) (i_type s) v (i_minor s) (i_nlink s)
    (i_size s) (i_addrs s).
Definition set_i_minor (v : Z) (s : inode) : inode :=
  mkinode (i_dev s) (i_inum s) (i_ref s) (i_valid s) (i_type s) (i_major s) v (i_nlink s)
    (i_size s) (i_addrs s).
Definition set_i_nlink (v : Z) (s : inode) : inode :=
  mkinode (i_dev s) (i_inum s) (i_ref s) (i_valid s) (i_type s) (i_major s) (i_minor s) v
    (i_size s) (i_addrs s).
Definition set_i_size (v : Z) (s : inode) : inode :=
  mkinode (i_dev s) (i_inum s) (i_ref s) (i_valid s) (i_type s) (i_major s) (i_minor s)
    (i_nlink s) v (i_addrs s).
Definition set_i_addrs (v : list Z) (s : inode) : inode :=
  mkinode (i_dev s) (i_inum s) (i_ref s) (i_valid s) (i_type s) (i_major s) (i_minor s)
    (i_nlink s) (i_size s) v.

Inductive ftype := FD_NONE | FD_PIPE | FD_INODE | FD_DEVICE.

(** struct file *)
Record file := mkfile {
  f_type : ftype;
  f_ref : Z;
  f_readable : Z;
  f_writable : Z;
  f_pipe : Z;
  f_ip : option nat;
  f_off : Z;
  f_major : Z
}.

Definition set_f_type (v : ftype) (s : file) : file :=
  mkfile v (f_ref s) (f_readable s) (f_writable s) (f_pipe s) (f_ip s) (f_off s) (f_major s).
Definition set_f_ref (v : Z) (s : file) : file :=
  mkfile (f_type s) v (f_readable s) (f_writable s) (f_pipe s) (f_ip s) (f_off s) (f_major s).
Definition set_f_readable (v : Z) (s : file) : file :=
  mkfile (f_type s) (f_ref s) v (f_writable s) (f_pipe s) (f_ip s) (f_off s) (f_major s).
Definition set_f_writable (v : Z) (s : file) : file :=
  mkfile (f_type s) (f_ref s) (f_readable s) v (f_pipe s) (f_ip s) (f_off s) (f_major s).
Definition set_f_pipe (v : Z) (s : file) : file :=
  mkfile (f_type s) (f_ref s) (f_readable s) (f_writable s) v (f_ip s) (f_off s) (f_major s).
Definition set_f_ip (v : option nat) (s : file) : file :=
  mkfile (f_type s) (f_ref s) (f_readable s) (f_writable s) (f_pipe s) v (f_off s) (f_major s).
Definition set_f_off (v : Z) (s : file) : file :=
  mkfile (f_type s) (f_ref s) (f_readable s) (f_writable s) (f_pipe s) (f_ip s) v (f_major s).
Definition set_f_major (v : Z) (s : file) : file :=
  mkfile (f_type s) (f_ref s) (f_readable s) (f_writable s) (f_pipe s) (f_ip s) (f_off s) v.

(** struct devsw.  The only device functions of the kernel are the console's;
    a pointer is NULL or points to one of them. *)
Inductive devread := Consoleread.
Inductive devwrite := Consolewrite.

(** An entry of devsw[]. *)
Record devsw := mkdevsw {
  d_read : option devread;
  d_write : option devwrite
}.

(** ** Pipes (kernel/pipe.c) *)

(** struct pipe *)
Record pipe := mkpipe {
  pi_data : Z -> byte;
  pi_nread : Z;  (** number of bytes read *)
  pi_nwrite : Z;  (** number of bytes written *)
  pi_readopen : Z;
  pi_writeopen : Z
}.

Definition set_pi_data (v : Z -> byte) (s : pipe) : pipe :=
  mkpipe v (pi_nread s) (pi_nwrite s) (pi_readopen s) (pi_writeopen s).
Definition set_pi_nread (v : Z) (s : pipe) : pipe :=
  mkpipe (pi_data s) v (pi_nwrite s) (pi_readopen s) (pi_writeopen s).
Definition set_pi_nwrite (v : Z) (s : pipe) : pipe :=
  mkpipe (pi_data s) (pi_nread s) v (pi_readopen s) (pi_writeopen s).
Definition set_pi_readopen (v : Z) (s : pipe) : pipe :=
  mkpipe (pi_data s) (pi_nread s) (pi_nwrite s) v (pi_writeopen s).
Definition set_pi_writeopen (v : Z) (s : pipe) : pipe :=
  mkpipe (pi_data s) (pi_nread s) (pi_nwrite s) (pi_readopen s) v.

(** ** Console, UART and printf (kernel/console.c, uart.c, printf.c) *)

(** cons: the input buffer. *)
Record cons := mkcons {
  cons_buf : Z -> Z;
  cons_r : Z;  (** Read index *)
  cons_w : Z;  (** Write index *)
  cons_e : Z  (** Edit index *)
}.

Definition set_cons_buf (v : Z -> Z) (s : cons) : cons :=
  mkcons v (cons_r s) (cons_w s) (cons_e s).
Definition set_cons_r (v : Z) (s : cons) : cons :=
  mkcons (cons_buf s) v (cons_w s) (cons_e s).
Definition set_cons_w (v : Z) (s : cons) : cons :=
  mkcons (cons_buf s) (cons_r s) v (cons_e s).
Definition set_cons_e (v : Z) (s : cons) : cons :=
  mkcons (cons_buf s) (cons_r s) (cons_w s) v.

(** The transmit buffer of uart.c. *)
Record uart := mkuart {
  uart_tx_buf : Z -> Z;
  uart_tx_w : Z;
  uart_tx_r : Z
}.

Definition set_uart_tx_buf (v : Z -> Z) (s : uart) : uart :=
  mkuart v (uart_tx_w s) (uart_tx_r s).
Definition set_uart_tx_w (v : Z) (s : uart) : uart :=
  mkuart (uart_tx_buf s) v (uart_tx_r s).
Definition set_uart_tx_r (v : Z) (s : uart) : uart :=
  mkuart (uart_tx_buf s) (uart_tx_w s) v.

(** ** Disk driver (kernel/virtio.h, kernel/virtio_disk.c) *)

(** What the address of a descriptor points to: the request header (type and
    sector) on a kernel stack, the data of a buffer, or the status byte of a
    request. *)
Inductive dma := DmaNull | DmaHdr (pa type sector : Z) | DmaData (b : nat) | DmaStatus (i : nat).

(** struct VRingDesc *)
Record vringdesc := mkdesc {
  vr_addr : dma;
  vr_len : Z;
  vr_flags : Z;
  vr_next : Z
}.

Definition set_vr_addr (v : dma) (s : vringdesc) : vringdesc :=
  mkdesc v (vr_len s) (vr_flags s) (vr_next s).
Definition set_vr_len (v : Z) (s : vringdesc) : vringdesc :=
  mkdesc (vr_addr s) v (vr_flags s) (vr_next s).
Definition set_vr_flags (v : Z) (s : vringdesc) : vringdesc :=
  mkdesc (vr_addr s) (vr_len s) v (vr_next s).
Definition set_vr_next (v : Z) (s : vringdesc) : vringdesc :=
  mkdesc (vr_addr s) (vr_len s) (vr_flags s) v.

(** struct disk *)
Record vdisk := mkvdisk {
  vd_desc : nat -> vringdesc;
  vd_avail : Z -> Z;  (** avail[0] is flags, avail[1] the index *)
  vd_used_id : Z;  (** used->id *)
  vd_used_elems : Z -> Z;  (** used->elems[i].id *)
  vd_free : nat -> bool;
  vd_used_idx : Z;
  vd_info_b : nat -> option nat;
  vd_info_status : nat -> Z
}.

Definition set_vd_desc (v : nat -> vringdesc) (s : vdisk) : vdisk :=
  mkvdisk v (vd_avail s) (vd_used_id s) (vd_used_elems s) (vd_free s) (vd_used_idx s)
    (vd_info_b s) (vd_info_status s).
Definition set_vd_avail (v : Z -> Z) (s : vdisk) : vdisk :=
  mkvdisk (vd_desc s) v (vd_used_id s) (vd_used_elems s) (vd_free s) (vd_used_idx s) (vd_info_b s)
    (vd_info_status s).
Definition set_vd_used_id (v : Z) (s : vdisk) : vdisk :=
  mkvdisk (vd_desc s) (vd_avail s) v (vd_used_elems s) (vd_free s) (vd_used_idx s) (vd_info_b s)
    (vd_info_status s).
Definition set_vd_used_elems (v : Z -> Z) (s : vdisk) : vdisk :=
  mkvdisk (vd_desc s) (vd_avail s) (vd_used_id s) v (vd_free s) (vd_used_idx s) (vd_info_b s)
    (vd_info_status s).
Definition set_vd_free (v : nat -> bool) (s : vdisk) : vdisk :=
  mkvdisk (vd_desc s) (vd_avail s) (vd_used_id s) (vd_used_elems s) v (vd_used_idx s)
    (vd_info_b s) (vd_info_status s).
Definition set_vd_used_idx (v : Z) (s : vdisk) : vdisk :=
  mkvdisk (vd_desc s) (vd_avail s) (vd_used_id s) (vd_used_elems s) (vd_free s) v (vd_info_b s)
    (vd_info_status s).
Definition set_vd_info_b (v : nat -> option nat) (s : vdisk) : vdisk :=
  mkvdisk (vd_desc s) (vd_avail s) (vd_used_id s) (vd_used_elems s) (vd_free s) (vd_used_idx s) v
    (vd_info_status s).
Definition set_vd_info_status (v : nat -> Z) (s : vdisk) : vdisk :=
  mkvdisk (vd_desc s) (vd_avail s) (vd_used_id s) (vd_used_elems s) (vd_free s) (vd_used_idx s)
    (vd_info_b s) v.

(** ** Memory-mapped device registers *)

(** The accesses the kernel makes to device registers. *)
Inductive access := MRead (a : Z) | MWrite (a v : Z).

(** ** The whole state *)

(** The global variables of the kernel and the devices it drives. *)
Record st := mkst {
  s_k : kst;  (** processes, locks, memory *)
  s_csr : csrs;
  s_slock : slock -> sleeplock;
  s_bc : bcache;
  s_log : log;
  s_sb : superblock;
  s_ic : nat -> inode;  (** icache.inode[NINODE] *)
  s_ft : nat -> file;  (** ftable.file[NFILE] *)
  s_devsw : Z -> devsw;
  s_pipe : Z -> pipe;
  s_cons : cons;
  s_uart : uart;
  s_vd : vdisk;
  s_locking : Z;  (** pr.locking *)
  s_panicked : bool;
  s_first : bool;  (** first of forkret() *)
  s_started : bool;  (** started of main() *)
  s_disk : Z -> list byte;  (** the blocks of the disk *)
  s_writes : list (Z * list byte);  (** blocks written to the disk, latest first *)
  s_mmio : list access  (** register accesses, latest first *)
}.

Definition set_s_k (v : kst) (s : st) : st :=
  mkst v (s_csr s) (s_slock s) (s_bc s) (s_log s) (s_sb s) (s_ic s) (s_ft s) (s_devsw s)
    (s_pipe s) (s_cons s) (s_uart s) (s_vd s) (s_locking s) (s_panicked s) (s_first s)
    (s_started s) (s_disk s) (s_writes s) (s_mmio s).
Definition set_s_csr (v : csrs) (s : st) : st :=
  mkst (s_k s) v (s_slock s) (s_bc s) (s_log s) (s_sb s) (s_ic s) (s_ft s) (s_devsw s) (s_pipe s)
    (s_cons s) (s_uart s) (s_vd s) (s_locking s) (s_panicked s) (s_first s) (s_started s)
    (s_disk s) (s_writes s) (s_mmio s).
Definition set_s_slock (v : slock -> sleeplock) (s : st) : st :=
  mkst (s_k s) (s_csr s) v (s_bc s) (s_log s) (s_sb s) (s_ic s) (s_ft s) (s_devsw s) (s_pipe s)
    (s_cons s) (s_uart s) (s_vd s) (s_locking s) (s_panicked s) (s_first s) (s_started s)
    (s_disk s) (s_writes s) (s_mmio s).
Definition set_s_bc (v : bcache) (s : st) : st :=
  mkst (s_k s) (s_csr s) (s_slock s) v (s_log s) (s_sb s) (s_ic s) (s_ft s) (s_devsw s) (s_pipe s)
    (s_cons s) (s_uart s) (s_vd s) (s_locking s) (s_panicked s) (s_first s) (s_started s)
    (s_disk s) (s_writes s) (s_mmio s).
Definition set_s_log (v : log) (s : st) : st :=
  mkst (s_k s) (s_csr s) (s_slock s) (s_bc s) v (s_sb s) (s_ic s) (s_ft s) (s_devsw s) (s_pipe s)
    (s_cons s) (s_uart s) (s_vd s) (s_locking s) (s_panicked s) (s_first s) (s_started s)
    (s_disk s) (s_writes s) (s_mmio s).
Definition set_s_sb (v : superblock) (s : st) : st :=
  mkst (s_k s) (s_csr s) (s_slock s) (s_bc s) (s_log s) v (s_ic s) (s_ft s) (s_devsw s) (s_pipe s)
    (s_cons s) (s_uart s) (s_vd s) (s_locking s) (s_panicked s) (s_first s) (s_started s)
    (s_disk s) (s_writes s) (s_mmio s).
Definition set_s_ic (v : nat -> inode) (s : st) : st :=
  mkst (s_k s) (s_csr s) (s_slock s) (s_bc s) (s_log s) (s_sb s) v (s_ft s) (s_devsw s) (s_pipe s)
    (s_cons s) (s_uart s) (s_vd s) (s_locking s) (s_panicked s) (s_first s) (s_started s)
    (s_disk s) (s_writes s) (s_mmio s).
Definition set_s_ft (v : nat -> file) (s : st) : st :=
  mkst (s_k s) (s_csr s) (s_slock s) (s_bc s) (s_log s) (s_sb s) (s_ic s) v (s_devsw s) (s_pipe s)
    (s_cons s) (s_uart s) (s_vd s) (s_locking s) (s_panicked s) (s_first s) (s_started s)
    (s_disk s) (s_writes s) (s_mmio s).
Definition set_s_devsw (v : Z -> devsw) (s : st) : st :=
  mkst (s_k s) (s_csr s) (s_slock s) (s_bc s) (s_log s) (s_sb s) (s_ic s) (s_ft s) v (s_pipe s)
    (s_cons s) (s_uart s) (s_vd s) (s_locking s) (s_panicked s) (s_first s) (s_started s)
    (s_disk s) (s_writes s) (s_mmio s).
Definition set_s_pipe (v : Z -> pipe) (s : st) : st :=
  mkst (s_k s) (s_csr s) (s_slock s) (s_bc s) (s_log s) (s_sb s) (s_ic s) (s_ft s) (s_devsw s) v
    (s_cons s) (s_uart s) (s_vd s) (s_locking s) (s_panicked s) (s_first s) (s_started s)
    (s_disk s) (s_writes s) (s_mmio s).
Definition set_s_cons (v : cons) (s : st) : st :=
  mkst (s_k s) (s_csr s) (s_slock s) (s_bc s) (s_log s) (s_sb s) (s_ic s) (s_ft s) (s_devsw s)
    (s_pipe s) v (s_uart s) (s_vd s) (s_locking s) (s_panicked s) (s_first s) (s_started s)
    (s_disk s) (s_writes s) (s_mmio s).
Definition set_s_uart (v : uart) (s : st) : st :=
  mkst (s_k s) (s_csr s) (s_slock s) (s_bc s) (s_log s) (s_sb s) (s_ic s) (s_ft s) (s_devsw s)
    (s_pipe s) (s_cons s) v (s_vd s) (s_locking s) (s_panicked s) (s_first s) (s_started s)
    (s_disk s) (s_writes s) (s_mmio s).
Definition set_s_vd (v : vdisk) (s : st) : st :=
  mkst (s_k s) (s_csr s) (s_slock s) (s_bc s) (s_log s) (s_sb s) (s_ic s) (s_ft s) (s_devsw s)
    (s_pipe s) (s_cons s) (s_uart s) v (s_locking s) (s_panicked s) (s_first s) (s_started s)
    (s_disk s) (s_writes s) (s_mmio s).
Definition set_s_locking (v : Z) (s : st) : st :=
  mkst (s_k s) (s_csr s) (s_slock s) (s_bc s) (s_log s) (s_sb s) (s_ic s) (s_ft s) (s_devsw s)
    (s_pipe s) (s_cons s) (s_uart s) (s_vd s) v (s_panicked s) (s_first s) (s_started s)
    (s_disk s) (s_writes s) (s_mmio s).
Definition set_s_panicked (v : bool) (s : st) : st :=
  mkst (s_k s) (s_csr s) (s_slock s) (s_bc s) (s_log s) (s_sb s) (s_ic s) (s_ft s) (s_devsw s)
    (s_pipe s) (s_cons s) (s_uart s) (s_vd s) (s_locking s) v (s_first s) (s_started s) (s_disk s)
    (s_writes s) (s_mmio s).
Definition set_s_first (v : bool) (s : st) : st :=
  mkst (s_k s) (s_csr s) (s_slock s) (s_bc s) (s_log s) (s_sb s) (s_ic s) (s_ft s) (s_devsw s)
    (s_pipe s) (s_cons s) (s_uart s) (s_vd s) (s_locking s) (s_panicked s) v (s_started s)
    (s_disk s) (s_writes s) (s_mmio s).
Definition set_s_started (v : bool) (s : st) : st :=
  mkst (s_k s) (s_csr s) (s_slock s) (s_bc s) (s_log s) (s_sb s) (s_ic s) (s_ft s) (s_devsw s)
    (s_pipe s) (s_cons s) (s_uart s) (s_vd s) (s_locking s) (s_panicked s) (s_first s) v
    (s_disk s) (s_writes s) (s_mmio s).
Definition set_s_disk (v : Z -> list byte) (s : st) : st :=
  mkst (s_k s) (s_csr s) (s_slock s) (s_bc s) (s_log s) (s_sb s) (s_ic s) (s_ft s) (s_devsw s)
    (s_pipe s) (s_cons s) (s_uart s) (s_vd s) (s_locking s) (s_panicked s) (s_first s)
    (s_started s) v (s_writes s) (s_mmio s).
Definition set_s_writes (v : list (Z * list byte)) (s : st) : st :=
  mkst (s_k s) (s_csr s) (s_slock s) (s_bc s) (s_log s) (s_sb s) (s_ic s) (s_ft s) (s_devsw s)
    (s_pipe s) (s_cons s) (s_uart s) (s_vd s) (s_locking s) (s_panicked s) (s_first s)
    (s_started s) (s_disk s) v (s_mmio s).
Definition set_s_mmio (v : list access) (s : st) : st :=
  mkst (s_k s) (s_csr s) (s_slock s) (s_bc s) (s_log s) (s_sb s) (s_ic s) (s_ft s) (s_devsw s)
    (s_pipe s) (s_cons s) (s_uart s) (s_vd s) (s_locking s) (s_panicked s) (s_first s)
    (s_started s) (s_disk s) (s_writes s) v.

#[export] Instance st_kst : Lens st kst.
Proof. refine {| lget := s_k; lput := set_s_k |}; [done|by intros []|done]. Defined.

#[export] Instance st_core : Lens st core.
Proof.
  refine {| lget := fun s => k_core (s_k s);
            lput := fun c s => set_s_k (set_core c (s_k s)) s |};
  [done|by intros [[]]|done].
Defined.

Definition s_core (s : st) : core := k_core (s_k s).
Definition set_s_core (c : core) (s : st) : st := set_s_k (set_core c (s_k s)) s.
Definition s_mem (s : st) : mem := k_mem (s_k s).
Definition set_s_mem (m : mem) (s : st) : st := set_s_k (set_mem m (s_k s)) s.

(** ** The outside world *)

(** [others s] is what the rest of the system does between a swtch() away
    from this thread in state [s] and the swtch() back to it; [None] if it
    never runs again.  [runs i s] is what process [i] does between the
    scheduler's swtch() to it and the swtch() back.  [mmio h a] is what a
    device answers when register [a] is read after the accesses [h]. *)
Class World := {
  others : st -> option st;
  runs : nat -> st -> option st;
  mmio : list access -> Z -> Z;
}.

(** What the compiler and the linker choose: the addresses of functions and
    of the pages of the disk driver, the place of the local variable buf0 of
    virtio_disk_rw() in the kernel stack, and the bytes an uninitialised
    local variable happens to hold. *)
Class Symbols := {
  sym_main : Z; sym_timervec : Z; sym_kernelvec : Z; sym_uservec : Z; sym_userret : Z;
  sym_usertrap : Z; sym_forkret : Z; disk_pages : Z; buf0_off : Z; stack_junk : nat -> byte;
}.

Local Open Scope kern_scope.

Section World.
Context `{World}.

(** swtch() to the scheduler. *)
Definition swtch : M st unit :=
  fun s => match others s with Some s' => Ok tt s' | None => Sleep s end.

(** swtch() from the scheduler to process [i]. *)
Definition swtch_to (i : nat) : M st unit :=
  fun s => match runs i s with Some s' => Ok tt s' | None => Sleep s end.

(** A load from, and a store to, a device register. *)
Definition ReadReg (a : Z) : M st Z :=
  let* v := gets (fun s => mmio (s_mmio s) a) in
  modify (fun s => set_s_mmio (MRead a :: s_mmio s) s) ;;;
  ret v.

Definition WriteReg (a v : Z) : M st unit :=
  modify (fun s => set_s_mmio (MWrite a v :: s_mmio s) s).
End World.

(** ** Locks and processes, from the whole state *)

Definition lock_ (lk : lock) : M st unit := zoom (acquire lk).
Definition unlock_ (lk : lock) : M st unit := zoom (release lk).

(** The current process, which the caller knows to exist. *)
Definition curproc : M st nat :=
  let* p := zoom (S := st) myproc in
  match p with Some i => ret i | None => undefined "myproc() is null" end.

Definition getp {A} (i : nat) (f : proc -> A) : M st A := gets (fun s => f (procs (s_core s) i)).
Definition setp (i : nat) (f : proc -> proc) : M st unit :=
  modify (fun s => set_s_core (upd_proc i f (s_core s)) s).
