(* ===== verification/Csr.v ===== *)
(** The control and status registers (the accessors of kernel/riscv.h), and
    kvminithart() of kernel/vm.c.

    Each accessor is one csrr or csrw instruction.  The SIE bit of sstatus is
    kept with the per-CPU state of Spinlock.v, so that the interrupt switches
    there and a write of the whole register act on the same bit.  There is no
    TLB in the model, so sfence_vma() has nothing to do. *)

From stdpp Require Import base tactics list strings.
From Stdlib Require Import ZArith Lia.
From S2P Require Import Prelude Riscv Mem Core Spinlock Kalloc State.

Local Open Scope Z_scope.
Local Open Scope kern_scope.

Definition csrr (f : csrs -> Z) : M st Z := gets (fun s => f (s_csr s)).
Definition csrw (f : csrs -> csrs) : M st unit := modify (fun s => set_s_csr (f (s_csr s)) s).

Definition r_mhartid : M st Z := csrr c_mhartid.
Definition r_mstatus : M st Z := csrr c_mstatus.
Definition w_mstatus (x : Z) : M st unit := csrw (set_c_mstatus x).
Definition w_mepc (x : Z) : M st unit := csrw (set_c_mepc x).
Definition r_sip : M st Z := csrr c_sip.
Definition w_sip (x : Z) : M st unit := csrw (set_c_sip x).
Definition r_sie : M st Z := csrr c_sie.
Definition w_sie (x : Z) : M st unit := csrw (set_c_sie x).
Definition r_mie : M st Z := csrr c_mie.
Definition w_mie (x : Z) : M st unit := csrw (set_c_mie x).
Definition r_sepc : M st Z := csrr c_sepc.
Definition w_sepc (x : Z) : M st unit := csrw (set_c_sepc x).
Definition r_medeleg : M st Z := csrr c_medeleg.
Definition w_medeleg (x : Z) : M st unit := csrw (set_c_medeleg x).
Definition r_mideleg : M st Z := csrr c_mideleg.
Definition w_mideleg (x : Z) : M st unit := csrw (set_c_mideleg x).
Definition r_stvec : M st Z := csrr c_stvec.
Definition w_stvec (x : Z) : M st unit := csrw (set_c_stvec x).
Definition w_mtvec (x : Z) : M st unit := csrw (set_c_mtvec x).
Definition r_satp : M st Z := csrr c_satp.
Definition w_satp (x : Z) : M st unit := csrw (set_c_satp x).
Definition w_sscratch (x : Z) : M st unit := csrw (set_c_sscratch x).
Definition w_mscratch (x : Z) : M st unit := csrw (set_c_mscratch x).
Definition r_scause : M st Z := csrr c_scause.
Definition r_stval : M st Z := csrr c_stval.
Definition r_mcounteren : M st Z := csrr c_mcounteren.
Definition w_mcounteren (x : Z) : M st unit := csrw (set_c_mcounteren x).
Definition r_time : M st Z := csrr c_time.

Definition r_sstatus : M st Z :=
  let* x := csrr c_sstatus in
  let* on := zoom intr_get in
  ret (Z.lor (Z.land x (Z.lnot SSTATUS_SIE)) (if on then SSTATUS_SIE else 0)).

Definition w_sstatus (x : Z) : M st unit :=
  csrw (set_c_sstatus x) ;;;
  zoom (set_cpu (set_sie (has x SSTATUS_SIE))).

Definition r_tp : M st Z := zoom cpuid.
Definition w_tp (x : Z) : M st unit :=
  modify (fun s =>
    let c := s_core s in
    set_s_core (mkcore x (ccpu c) (lks c) (procs c) (nextpid c) (initproc c) (ticks c)) s).

Definition sfence_vma : M st unit := ret tt.

Definition kvminithart : M st unit :=
  let* kpt := gets (fun s => k_kpt (s_k s)) in
  w_satp (MAKE_SATP kpt) ;;;
  sfence_vma.

(** ** Lemmas *)

(** The bits of sstatus other than SIE, and SIE, are independent. *)
Lemma has_sie x : has (Z.lor (Z.land x (Z.lnot SSTATUS_SIE)) SSTATUS_SIE) SSTATUS_SIE = true.
Proof.
  unfold has. apply negb_true_iff, Z.eqb_neq. intros E.
  apply (f_equal (fun z => Z.testbit z 1)) in E.
  rewrite Z.land_spec, Z.lor_spec, Z.land_spec, Z.lnot_spec in E by lia.
  change (Z.testbit SSTATUS_SIE 1) with true in E. by rewrite orb_true_r in E.
Qed.

Lemma has_no_sie x : has (Z.land x (Z.lnot SSTATUS_SIE)) SSTATUS_SIE = false.
Proof.
  unfold has. apply negb_false_iff, Z.eqb_eq. apply Z.bits_inj_0. intros n.
  rewrite !Z.land_spec. destruct (decide (0 <= n)).
  - rewrite Z.lnot_spec by done. by destruct (Z.testbit x n), (Z.testbit SSTATUS_SIE n).
  - by rewrite !(Z.testbit_neg_r _ n) by lia.
Qed.
