(* ===== verification/Proc.v ===== *)
(** Processes and scheduling (kernel/proc.c), the part that does not use the
    file system: the process table, context switches, sleep and wakeup, and
    the copies to and from user or kernel addresses.  fork(), exit(), wait(),
    userinit() and forkret() are in Process.v.

    A kernel buffer that is a C local variable is passed as its bytes:
    [Local bs] is such a source, and a copy to [Local] returns the bytes. *)

From stdpp Require Import base tactics list strings.
From Stdlib Require Import ZArith Lia FunctionalExtensionality.
From coqutil Require Import Byte.
From S2P Require Import Prelude Riscv Mem Core Spinlock Kalloc Vm State Csr.

Local Open Scope Z_scope.
Local Open Scope kern_scope.

(** ** struct trapframe *)

(** The fields of struct trapframe, in the order of their declaration. *)
Inductive tfreg :=
| TF_kernel_satp | TF_kernel_sp | TF_kernel_trap | TF_epc | TF_kernel_hartid
| TF_ra | TF_sp | TF_gp | TF_tp | TF_t0 | TF_t1 | TF_t2 | TF_s0 | TF_s1
| TF_a0 | TF_a1 | TF_a2 | TF_a3 | TF_a4 | TF_a5 | TF_a6 | TF_a7
| TF_s2 | TF_s3 | TF_s4 | TF_s5 | TF_s6 | TF_s7 | TF_s8 | TF_s9 | TF_s10 | TF_s11
| TF_t3 | TF_t4 | TF_t5 | TF_t6.

#[export] Instance tfreg_eq_dec : EqDecision tfreg.
Proof. solve_decision. Defined.

Definition trapframe_fields : list tfreg :=
  [TF_kernel_satp; TF_kernel_sp; TF_kernel_trap; TF_epc; TF_kernel_hartid;
   TF_ra; TF_sp; TF_gp; TF_tp; TF_t0; TF_t1; TF_t2; TF_s0; TF_s1;
   TF_a0; TF_a1; TF_a2; TF_a3; TF_a4; TF_a5; TF_a6; TF_a7;
   TF_s2; TF_s3; TF_s4; TF_s5; TF_s6; TF_s7; TF_s8; TF_s9; TF_s10; TF_s11;
   TF_t3; TF_t4; TF_t5; TF_t6].

Fixpoint index_of (r : tfreg) (l : list tfreg) : Z :=
  match l with [] => 0 | x :: l' => if decide (x = r) then 0 else 1 + index_of r l' end.

(** The offset of a field: every field is a uint64. *)
Definition tf_off (r : tfreg) : Z := 8 * index_of r trapframe_fields.
Definition sizeof_trapframe : Z := 288.

(** p->trapframe->r *)
Definition tf_get (i : nat) (r : tfreg) : M st Z :=
  let* tf := getp i trapframe in zoom (ld64 (tf + tf_off r)).
Definition tf_set (i : nat) (r : tfreg) (v : Z) : M st unit :=
  let* tf := getp i trapframe in zoom (st64 (tf + tf_off r) v).

(** safestrcpy() into a char array: at most [n - 1] bytes of the string [t],
    up to its NUL, then a NUL. *)
Fixpoint cut (n : nat) (t : list byte) : list byte :=
  match n, t with
  | S n', b :: t' => if byte.unsigned b =? 0 then [] else b :: cut n' t'
  | _, _ => []
  end.
Definition safestrcpy_arr (s t : list byte) (n : nat) : list byte :=
  let c := cut (n - 1) t in
  c ++ Byte.x00 :: drop (S (length c)) s.

Section Proc.
Context `{KernelImage} `{World} `{Symbols}.

(** ** The process table *)

Definition procinit : M st unit :=
  zoom (initlock PidLock) ;;;
  forM (seq 0 NPROC) (fun i =>
    zoom (initlock (ProcLock i)) ;;;
    let* pa := zoom kalloc in
    if pa =? 0 then panic "kalloc"
    else
      let va := KSTACK (Z.of_nat i) in
      zoom (kvmmap va pa PGSIZE (Z.lor PTE_R PTE_W)) ;;;
      setp i (set_kstack va)) ;;;
  kvminithart.

Definition allocpid : M st Z :=
  lock_ PidLock ;;;
  let* pid := gets (fun s => nextpid (s_core s)) in
  modify (fun s => set_s_core (set_nextpid (i32 (nextpid (s_core s) + 1)) (s_core s)) s) ;;;
  unlock_ PidLock ;;;
  ret pid.

Definition proc_pagetable (i : nat) : M st Z :=
  let* pagetable := zoom uvmcreate in
  if pagetable =? 0 then ret 0
  else
    let* r := zoom (mappages pagetable TRAMPOLINE PGSIZE trampoline (Z.lor PTE_R PTE_X)) in
    if r <? 0 then
      zoom (uvmfree pagetable 0) ;;;
      ret 0
    else
      let* tf := getp i trapframe in
      let* r := zoom (mappages pagetable TRAPFRAME PGSIZE tf (Z.lor PTE_R PTE_W)) in
      if r <? 0 then
        zoom (uvmunmap pagetable TRAMPOLINE 1 false) ;;;
        zoom (uvmfree pagetable 0) ;;;
        ret 0
      else ret pagetable.

Definition proc_freepagetable (pagetable sz : Z) : M st unit :=
  zoom (uvmunmap pagetable TRAMPOLINE 1 false) ;;;
  zoom (uvmunmap pagetable TRAPFRAME 1 false) ;;;
  zoom (uvmfree pagetable sz).

Definition freeproc (i : nat) : M st unit :=
  let* tf := getp i trapframe in
  when (negb (tf =? 0)) (zoom (kfree tf)) ;;;
  setp i (set_trapframe 0) ;;;
  let* pt := getp i pagetable in
  let* n := getp i sz in
  when (negb (pt =? 0)) (proc_freepagetable pt n) ;;;
  setp i (set_pagetable 0) ;;;
  setp i (set_sz 0) ;;;
  setp i (set_pid 0) ;;;
  setp i (set_parent None) ;;;
  setp i (fun p => set_pname (<[0%nat := Byte.x00]> (pname p)) p) ;;;
  setp i (set_chan None) ;;;
  setp i (set_killed 0) ;;;
  setp i (set_xstate 0) ;;;
  setp i (set_state UNUSED).

(** The search of allocproc(): the first UNUSED slot, returned locked. *)
Definition find_unused : M st (option nat) :=
  findM (seq 0 NPROC) (fun i =>
    lock_ (ProcLock i) ;;;
    let* st := getp i state in
    if bool_decide (st = UNUSED) then ret (Some i)
    else unlock_ (ProcLock i) ;;; ret None).

Definition allocproc : M st (option nat) :=
  let* r := find_unused in
  match r with
  | None => ret None
  | Some i =>
      let* pid := allocpid in
      setp i (set_pid pid) ;;;
      let* tf := zoom kalloc in
      setp i (set_trapframe tf) ;;;
      if tf =? 0 then
        unlock_ (ProcLock i) ;;;
        ret None
      else
        let* pt := proc_pagetable i in
        setp i (set_pagetable pt) ;;;
        if pt =? 0 then
          freeproc i ;;;
          unlock_ (ProcLock i) ;;;
          ret None
        else
          setp i (fun p => set_pcontext
            (mkcontext sym_forkret (kstack p + PGSIZE) (List.repeat 0 12)) p) ;;;
          ret (Some i)
  end.

(** sz and sz + n are computed in 32 bits. *)
Definition growproc (n : Z) : M st Z :=
  let* i := curproc in
  let* sz0 := getp i sz in
  let* pt := getp i pagetable in
  let sz := u32 sz0 in
  if 0 <? n then
    let* r := zoom (uvmalloc pt sz (u32 (sz + n))) in
    let sz := u32 r in
    if sz =? 0 then ret (-1)
    else setp i (set_sz sz) ;;; ret 0
  else if n <? 0 then
    let* r := zoom (uvmdealloc pt sz (u32 (sz + n))) in
    setp i (set_sz (u32 r)) ;;; ret 0
  else setp i (set_sz sz) ;;; ret 0.

Definition reparent (i : nat) : M st unit :=
  forM (seq 0 NPROC) (fun j =>
    let* par := getp j parent in
    if bool_decide (par = Some i) then
      lock_ (ProcLock j) ;;;
      let* ip := gets (fun s => initproc (s_core s)) in
      setp j (set_parent ip) ;;;
      unlock_ (ProcLock j)
    else ret tt).

(** ** Scheduling *)

(** One pass of the scheduler over the process table. *)
Definition scheduler_pass : M st Z :=
  let* r := scanM (seq 0 NPROC) 0 (fun i nproc =>
    lock_ (ProcLock i) ;;;
    let* st := getp i state in
    let nproc := if bool_decide (st = UNUSED) then nproc else nproc + 1 in
    (if bool_decide (st = RUNNABLE) then
       setp i (set_state RUNNING) ;;;
       zoom (set_cpu (set_cproc (Some i))) ;;;
       swtch_to i ;;;
       zoom (set_cpu (set_cproc None))
     else ret tt) ;;;
    unlock_ (ProcLock i) ;;;
    ret (inl nproc)) in
  match r with inl n => ret n | inr n => ret n end.

(** The first [rounds] iterations of the endless loop of scheduler(). *)
Fixpoint scheduler_loop (rounds : nat) : M st unit :=
  match rounds with
  | O => ret tt
  | S rounds' =>
      zoom intr_on ;;;
      let* nproc := scheduler_pass in
      (if nproc <=? 2 then zoom intr_on else ret tt) ;;;
      scheduler_loop rounds'
  end.

Definition scheduler (rounds : nat) : M st unit :=
  zoom (set_cpu (set_cproc None)) ;;;
  scheduler_loop rounds.

Definition sched : M st unit :=
  let* i := curproc in
  let* h := zoom (holding (ProcLock i)) in
  if negb h then panic "sched p->lock"
  else
    let* n := gets (fun s => noff (ccpu (s_core s))) in
    if negb (n =? 1) then panic "sched locks"
    else
      let* st := getp i state in
      if bool_decide (st = RUNNING) then panic "sched running"
      else
        let* on := zoom intr_get in
        if on then panic "sched interruptible"
        else
          let* ena := gets (fun s => intena (ccpu (s_core s))) in
          swtch ;;;
          zoom (set_cpu (set_intena ena)).

Definition yield : M st unit :=
  let* i := curproc in
  lock_ (ProcLock i) ;;;
  setp i (set_state RUNNABLE) ;;;
  sched ;;;
  unlock_ (ProcLock i).

Definition sleep (ch : chan) (lk : lock) : M st unit :=
  let* i := curproc in
  when (bool_decide (lk <> ProcLock i)) (lock_ (ProcLock i) ;;; unlock_ lk) ;;;
  setp i (set_chan (Some ch)) ;;;
  setp i (set_state SLEEPING) ;;;
  sched ;;;
  setp i (set_chan None) ;;;
  when (bool_decide (lk <> ProcLock i)) (unlock_ (ProcLock i) ;;; lock_ lk).

Definition wakeup (ch : chan) : M st unit :=
  forM (seq 0 NPROC) (fun i =>
    lock_ (ProcLock i) ;;;
    let* p := getp i (fun p => p) in
    when (bool_decide (state p = SLEEPING) && bool_decide (chan_ p = Some ch))
      (setp i (set_state RUNNABLE)) ;;;
    unlock_ (ProcLock i)).

Definition wakeup1 (i : nat) : M st unit :=
  let* h := zoom (holding (ProcLock i)) in
  if negb h then panic "wakeup1"
  else
    let* p := getp i (fun p => p) in
    when (bool_decide (chan_ p = Some (ChProc i)) && bool_decide (state p = SLEEPING))
      (setp i (set_state RUNNABLE)).

Definition kill (pid : Z) : M st Z :=
  let* r := findM (seq 0 NPROC) (fun i =>
    lock_ (ProcLock i) ;;;
    let* p := getp i (fun p => p) in
    if Core.pid p =? pid then
      setp i (set_killed 1) ;;;
      when (bool_decide (state p = SLEEPING)) (setp i (set_state RUNNABLE)) ;;;
      unlock_ (ProcLock i) ;;;
      ret (Some 0)
    else
      unlock_ (ProcLock i) ;;;
      ret None) in
  match r with Some v => ret v | None => ret (-1) end.

(** ** Copies to and from user or kernel addresses *)

Inductive kaddr := User (va : Z) | Kernel (a : Z) | Local (bs : list byte).

(** dst + m *)
Definition kadd (d : kaddr) (m : Z) : kaddr :=
  match d with
  | User va => User (u64 (va + m))
  | Kernel a => Kernel (u64 (a + m))
  | Local bs => Local (drop (Z.to_nat m) bs)
  end.

Definition either_copyout (dst : kaddr) (src : list byte) : M st (Z * list byte) :=
  let* p := zoom (S := st) myproc in
  match dst with
  | User va =>
      match p with
      | None => undefined "myproc() is null"
      | Some i =>
          let* pt := getp i pagetable in
          let* r := zoom (copyout pt va src) in
          ret (r, [])
      end
  | Kernel a => modify (fun s => set_s_mem (wr (s_mem s) a src) s) ;;; ret (0, [])
  | Local _ => ret (0, src)
  end.

Definition either_copyin (src : kaddr) (len : Z) : M st (Z * list byte) :=
  let* p := zoom (S := st) myproc in
  match src with
  | User va =>
      match p with
      | None => undefined "myproc() is null"
      | Some i =>
          let* pt := getp i pagetable in
          zoom (copyin pt va len)
      end
  | Kernel a => gets (fun s => (0, rd (s_mem s) a (Z.to_nat len)))
  | Local bs => ret (0, take (Z.to_nat len) bs)
  end.

End Proc.
