(* ===== verification/Sched.v ===== *)
(** Rules for the locks, the current process, sleep and wakeup on the whole
    state, used by all the components above; and the theorems about
    scheduling (kernel/proc.c).

    In a [calm] state, a critical section leaves the per-CPU state exactly as
    it was, so that the rules below are equations. *)

From stdpp Require Import base tactics list strings.
From Stdlib Require Import ZArith Lia FunctionalExtensionality.
From coqutil Require Import Byte.
From S2P Require Import Prelude Riscv Mem Core Spinlock Kalloc Vm State Csr Proc.

Local Open Scope Z_scope.
Local Open Scope kern_scope.

(** ** The core inside the whole state *)

Lemma s_core_set c s : s_core (set_s_core c s) = c.
Proof. done. Qed.

Lemma set_s_core_set c c' s : set_s_core c (set_s_core c' s) = set_s_core c s.
Proof. done. Qed.

Lemma set_s_core_id s : set_s_core (s_core s) s = s.
Proof. by destruct s as [[]]. Qed.

#[export] Hint Rewrite s_core_set set_s_core_set set_s_core_id : xv6.

Lemma calm_acq lk c : calm c -> calm (acq lk c).
Proof. intros [Hok _]. split; [by apply acq_ok|]. destruct Hok. simpl. lia. Qed.

Lemma calm_procs ps c : calm c -> calm (set_procs ps c).
Proof. done. Qed.

Lemma free_procs lk ps c : free lk c -> free lk (set_procs ps c).
Proof. done. Qed.

Lemma acq_procs lk ps c : acq lk (set_procs ps c) = set_procs ps (acq lk c).
Proof. done. Qed.

Lemma procs_acq lk c : procs (acq lk c) = procs c.
Proof. done. Qed.

Lemma cproc_acq lk c : cproc (ccpu (acq lk c)) = cproc (ccpu c).
Proof. done. Qed.

Lemma holding_acq lk c : holding lk (acq lk c) = Ok true (acq lk c).
Proof. unfold holding, gets. simpl. rewrite fupd_eq. simpl. by rewrite bool_decide_true. Qed.

Lemma acq_comm lk lk' c : cpu_ok c -> lk <> lk' -> acq lk (acq lk' c) = acq lk' (acq lk c).
Proof.
  intros [Hn _] Hne. unfold acq. cbn. rewrite !(proj2 (Z.eqb_neq (noff (ccpu c) + 1) 0)) by lia.
  f_equal. extensionality x. unfold fupd. repeat case_decide; congruence.
Qed.

#[export] Hint Resolve calm_acq calm_procs free_procs : xv6.

(** ** Locks *)

Lemma lock_eq lk s :
  calm (s_core s) -> free lk (s_core s) -> lock_ lk s = Ok tt (set_s_core (acq lk (s_core s)) s).
Proof.
  intros [Hok _] Hf. unfold lock_, zoom. cbn [lget lput st_core].
  change (k_core (s_k s)) with (s_core s). by rewrite acquire_eq.
Qed.

Lemma unlock_eq lk c s :
  s_core s = acq lk c -> calm c -> free lk c -> unlock_ lk s = Ok tt (set_s_core c s).
Proof.
  intros Hs Hc Hf. unfold unlock_, zoom. cbn [lget lput st_core].
  change (k_core (s_k s)) with (s_core s). rewrite Hs.
  destruct (release_acq lk c (proj1 Hc) Hf) as (c' & -> & He).
  by rewrite (core_eqv_calm _ _ Hc He).
Qed.

Lemma wp_lock lk (Q : unit -> st -> Prop) s :
  calm (s_core s) -> free lk (s_core s) -> Q tt (set_s_core (acq lk (s_core s)) s) -> wp (lock_ lk) Q s.
Proof. intros. eapply wp_Ok; [by apply lock_eq|done]. Qed.

Lemma wp_unlock lk c (Q : unit -> st -> Prop) s :
  s_core s = acq lk c -> calm c -> free lk c -> Q tt (set_s_core c s) -> wp (unlock_ lk) Q s.
Proof. intros. eapply wp_Ok; [by apply unlock_eq|done]. Qed.

Lemma curproc_eq i s : calm (s_core s) -> cproc (ccpu (s_core s)) = Some i -> curproc s = Ok i s.
Proof.
  intros Hc Hi. unfold curproc, bind, zoom. cbn [lget lput st_core].
  change (k_core (s_k s)) with (s_core s).
  destruct (myproc_eq (s_core s) (proj1 Hc)) as (c' & -> & He).
  rewrite (core_eqv_calm _ _ Hc He), Hi. cbn. unfold ret. f_equal. apply set_s_core_id.
Qed.

Lemma wp_curproc i (Q : nat -> st -> Prop) s :
  calm (s_core s) -> cproc (ccpu (s_core s)) = Some i -> Q i s -> wp curproc Q s.
Proof. intros. eapply wp_Ok; [by apply curproc_eq|done]. Qed.

(** A critical section whose body changes the processes only. *)
Lemma wp_section lk (body : M st unit) (Q : unit -> st -> Prop) s :
  calm (s_core s) -> free lk (s_core s) ->
  wp body (fun _ s' => exists ps, s_core s' = acq lk (set_procs ps (s_core s)) /\
             Q tt (set_s_core (set_procs ps (s_core s)) s')) (set_s_core (acq lk (s_core s)) s) ->
  wp (lock_ lk ;;; body ;;; unlock_ lk) Q s.
Proof.
  intros Hc Hf Hb. apply wp_bind, wp_lock; [done|done|]. apply wp_bind.
  eapply wp_mono; [exact Hb|]. intros [] s' (ps & E & HQ).
  eapply wp_unlock; [exact E|by apply calm_procs|by apply free_procs|exact HQ].
Qed.

(** ** wakeup() *)

Definition woken (ch : chan) (p : proc) : proc :=
  if bool_decide (state p = SLEEPING) && bool_decide (chan_ p = Some ch) then set_state RUNNABLE p else p.

(** The processes in [l] are woken. *)
Definition wake (ch : chan) (l : list nat) (ps : nat -> proc) : nat -> proc :=
  fun i => if decide (i ∈ l) then woken ch (ps i) else ps i.

(** No lock of a process in [l] is held. *)
Definition procs_free (l : list nat) (c : core) : Prop := forall i, i ∈ l -> free (ProcLock i) c.

Section Sched.
Context `{KernelImage} `{World} `{Symbols}.

(** The body of the loop of wakeup(). *)
Definition wake_one (ch : chan) (i : nat) : M st unit :=
  lock_ (ProcLock i) ;;;
  let* p := getp i (fun p => p) in
  when (bool_decide (state p = SLEEPING) && bool_decide (chan_ p = Some ch))
    (setp i (set_state RUNNABLE)) ;;;
  unlock_ (ProcLock i).

Lemma wake_one_eq ch i s :
  calm (s_core s) -> free (ProcLock i) (s_core s) ->
  wake_one ch i s =
    Ok tt (set_s_core (set_procs (fupd (procs (s_core s)) i (woken ch (procs (s_core s) i))) (s_core s)) s).
Proof.
  intros Hc Hf. unfold wake_one, bind at 1. rewrite lock_eq by done.
  unfold bind, getp, gets, when, woken. rewrite s_core_set, procs_acq.
  destruct (bool_decide _ && _).
  - unfold setp, modify. rewrite s_core_set, set_s_core_set.
    rewrite (unlock_eq _ (upd_proc i (set_state RUNNABLE) (s_core s))); [done|done|by apply calm_procs|done].
  - unfold ret. rewrite (unlock_eq _ (s_core s)) by done. rewrite set_s_core_set, fupd_id.
    by destruct s as [[[]]].
Qed.

Lemma wakeup_list ch l s :
  calm (s_core s) -> procs_free l (s_core s) -> NoDup l ->
  forM l (wake_one ch) s = Ok tt (set_s_core (set_procs (wake ch l (procs (s_core s))) (s_core s)) s).
Proof.
  revert s. induction l as [|i l IH]; intros s Hc Hf Hnd; cbn [forM].
  - unfold ret. f_equal. destruct s as [[[]]]; done.
  - inversion Hnd as [|? ? Hi Hnd']; subst. unfold bind. rewrite wake_one_eq; [|done|apply Hf; by left].
    rewrite IH; [|by apply calm_procs|intros j Hj; apply Hf; by right|done].
    rewrite s_core_set, set_s_core_set. f_equal. f_equal. unfold set_procs. simpl. f_equal.
    extensionality j. unfold wake. destruct (decide (j = i)) as [->|Hne].
    + rewrite decide_False by done. rewrite decide_True by (by left). by rewrite fupd_eq.
    + rewrite fupd_ne by done. destruct (decide (j ∈ l)).
      * by rewrite decide_True by (by right).
      * rewrite decide_False; [done|]. by intros [?|?]%elem_of_cons.
Qed.

Lemma wakeup_eq ch s :
  calm (s_core s) -> procs_free (seq 0 NPROC) (s_core s) ->
  wakeup ch s = Ok tt (set_s_core (set_procs (wake ch (seq 0 NPROC) (procs (s_core s))) (s_core s)) s).
Proof. intros. apply (wakeup_list ch); [done|done|apply NoDup_seq]. Qed.

(** Nobody sleeps on [ch]. *)
Definition no_sleeper (ch : chan) (c : core) : Prop :=
  forall i, (i < NPROC)%nat -> state (procs c i) = SLEEPING -> chan_ (procs c i) <> Some ch.

Lemma wake_none ch c : no_sleeper ch c -> wake ch (seq 0 NPROC) (procs c) = procs c.
Proof.
  intros Hn. extensionality i. unfold wake. case_decide as Hi; [|done].
  apply elem_of_seq in Hi. unfold woken.
  destruct (bool_decide_reflect (state (procs c i) = SLEEPING)) as [Hs|]; [|done].
  rewrite bool_decide_false; [done|]. apply Hn; [lia|done].
Qed.

Lemma wakeup_none ch s :
  calm (s_core s) -> procs_free (seq 0 NPROC) (s_core s) -> no_sleeper ch (s_core s) -> wakeup ch s = Ok tt s.
Proof.
  intros Hc Hf Hn. rewrite wakeup_eq by done. rewrite wake_none by done. f_equal.
  by destruct s as [[[]]].
Qed.

Lemma wp_wakeup ch (Q : unit -> st -> Prop) s :
  calm (s_core s) -> procs_free (seq 0 NPROC) (s_core s) ->
  Q tt (set_s_core (set_procs (wake ch (seq 0 NPROC) (procs (s_core s))) (s_core s)) s) ->
  wp (wakeup ch) Q s.
Proof. intros. eapply wp_Ok; [by apply wakeup_eq|done]. Qed.

(** ** sleep() *)

(** A thread that holds only [lk] gives it up and goes to sleep; [z] is the
    state it hands over to the scheduler. *)
Lemma sleep_gives_up ch lk i c s :
  s_core s = acq lk c -> calm c -> noff (ccpu c) = 0 -> cproc (ccpu c) = Some i ->
  free lk c -> free (ProcLock i) c -> lk <> ProcLock i ->
  let z := set_s_core (acq (ProcLock i)
             (set_procs (fupd (procs c) i (set_state SLEEPING (set_chan (Some ch) (procs c i)))) c)) s in
  others z = None -> sleep ch lk s = Sleep z.
Proof.
  intros Hs Hc Hn Hi Hlk Hpl Hne z Hz. unfold sleep.
  assert (Hcs : calm (s_core s)) by (rewrite Hs; by apply calm_acq).
  rewrite (bind_run _ _ _ _ _ (curproc_eq i s Hcs ltac:(by rewrite Hs))).
  rewrite bool_decide_true by done. unfold when.
  unfold bind at 1 2. rewrite lock_eq; [|done|rewrite Hs; by apply acq_free].
  rewrite (unlock_eq lk (acq (ProcLock i) c)); [|cbn [s_core]; rewrite s_core_set, Hs; by apply acq_comm; [apply Hc|]|by apply calm_acq|by apply acq_free].
  rewrite set_s_core_set. unfold setp. unfold bind at 1, modify. unfold bind at 1.
  rewrite !s_core_set, !set_s_core_set.
  replace (set_s_core _ s) with z by (unfold z, upd_proc, acq; cbn; by rewrite fupd_eq, fupd_fupd).
  enough (sched z = Sleep z) as E by (unfold bind; by rewrite E).
  unfold sched. rewrite (bind_run _ _ _ _ _ (curproc_eq i z ltac:(by apply calm_acq) Hi)).
  assert (Eh : zoom (holding (ProcLock i)) z = Ok true z).
  { unfold zoom. cbn [lget lput st_core]. change (k_core (s_k z)) with (s_core z). unfold z at 1.
    rewrite s_core_set, holding_acq. done. }
  rewrite (bind_run _ _ _ _ _ Eh). cbn [negb].
  assert (En : gets (fun s => noff (ccpu (s_core s))) z = Ok 1 z) by (unfold gets; cbn; by rewrite Hn).
  rewrite (bind_run _ _ _ _ _ En). cbn [Z.eqb negb Pos.eqb].
  assert (Es : getp i state z = Ok SLEEPING z) by (unfold getp, gets; cbn; by rewrite fupd_eq).
  rewrite (bind_run _ _ _ _ _ Es), bool_decide_false by done.
  assert (Ei : zoom intr_get z = Ok false z) by (unfold z; by destruct s as [[]]).
  rewrite (bind_run _ _ _ _ _ Ei). unfold bind, gets, swtch. by rewrite Hz.
Qed.
End Sched.
