(* ===== verification/SleepWake.v ===== *)
(** sleep() and wakeup() with all processes taking part (kernel/proc.c).

    A condition is guarded by a spin lock [lk].  A process that finds it false
    calls sleep(ch, lk); whoever makes it true does so with the lock held and
    calls wakeup(ch).  The steps are the lock operations and the stores of the
    two functions, in the order of the code and arbitrarily interleaved. *)

From stdpp Require Import base tactics.
From Stdlib Require Import ZArith Lia.
From S2P Require Import Prelude Riscv Core Spinlock Sched.

Module SleepWake.
Section SleepWake.
Context (ch : chan).

(** Where a thread is.  Threads below NPROC are the processes; the others are
    interrupt handlers on an idle hart, which never sleep. *)
Inductive pc :=
| Idle               (** holds no lock *)
| Locked             (** holds [lk], about to look at the condition *)
| InSleep            (** called sleep(), holds [lk] *)
| BothLocks          (** holds [lk] and p->lock *)
| HalfLocked         (** has released [lk], holds p->lock *)
| ChanSet            (** p->chan = chan *)
| Marked             (** p->state = SLEEPING; in sched(), holds p->lock *)
| Switched           (** switched away; the scheduler has released p->lock *)
| Resumed            (** switched back to, holds p->lock *)
| Waking (j : nat)   (** in wakeup(), holds [lk]; has visited the processes below [j] *)
| Visiting (j : nat)  (** in wakeup(), holds [lk] and the lock of process [j] *)
.

Record sys := mksys {
  cond : bool;                 (** the condition *)
  lk : option nat;             (** the thread that holds [lk] *)
  pl : nat -> option nat;      (** the thread that holds the lock of a process *)
  ps : nat -> proc;
  pcs : nat -> pc;
}.

Definition goto (i : nat) (p : pc) (s : sys) : sys := mksys (cond s) (lk s) (pl s) (ps s) (fupd (pcs s) i p).
Definition set_cond (b : bool) (s : sys) : sys := mksys b (lk s) (pl s) (ps s) (pcs s).
Definition set_lk (v : option nat) (s : sys) : sys := mksys (cond s) v (pl s) (ps s) (pcs s).
Definition set_pl (j : nat) (v : option nat) (s : sys) : sys := mksys (cond s) (lk s) (fupd (pl s) j v) (ps s) (pcs s).
Definition upd_ps (j : nat) (f : proc -> proc) (s : sys) : sys :=
  mksys (cond s) (lk s) (pl s) (fupd (ps s) j (f (ps s j))) (pcs s).

Inductive step (i : nat) : sys -> sys -> Prop :=
| step_acquire s : pcs s i = Idle -> lk s = None -> step i s (goto i Locked (set_lk (Some i) s))
| step_release s : pcs s i = Locked -> step i s (goto i Idle (set_lk None s))
| step_consume s : pcs s i = Locked -> step i s (set_cond false s)
(* sleep() *)
| step_sleep s : pcs s i = Locked -> cond s = false -> (i < NPROC)%nat -> step i s (goto i InSleep s)
| step_lock_p s : pcs s i = InSleep -> pl s i = None -> step i s (goto i BothLocks (set_pl i (Some i) s))
| step_unlock_lk s : pcs s i = BothLocks -> step i s (goto i HalfLocked (set_lk None s))
| step_chan s : pcs s i = HalfLocked -> step i s (goto i ChanSet (upd_ps i (set_chan (Some ch)) s))
| step_mark s : pcs s i = ChanSet -> step i s (goto i Marked (upd_ps i (set_state SLEEPING) s))
| step_switch s : pcs s i = Marked -> step i s (goto i Switched (set_pl i None s))
| step_schedule s :
    pcs s i = Switched -> pl s i = None -> state (ps s i) = RUNNABLE ->
    step i s (goto i Resumed (upd_ps i (set_state RUNNING) (set_pl i (Some i) s)))
| step_tidy s : pcs s i = Resumed -> step i s (goto i Idle (set_pl i None (upd_ps i (set_chan None) s)))
(* wakeup() *)
| step_notify s : pcs s i = Locked -> step i s (goto i (Waking 0) (set_cond true s))
| step_visit s j :
    pcs s i = Waking j -> (j < NPROC)%nat -> pl s j = None ->
    step i s (goto i (Visiting j) (set_pl j (Some i) s))
| step_wake s j : pcs s i = Visiting j -> step i s (goto i (Waking (S j)) (set_pl j None (upd_ps j (woken ch) s)))
| step_woken s : pcs s i = Waking NPROC -> step i s (goto i Idle (set_lk None s)).

(** Nobody sleeps on [ch] and no lock is held. *)
Definition init (s : sys) : Prop :=
  lk s = None /\ (forall i, pl s i = None /\ pcs s i = Idle /\ (state (ps s i) = SLEEPING -> chan_ (ps s i) <> Some ch)).

Inductive reachable : sys -> Prop :=
| reach_init s : init s -> reachable s
| reach_step s s' i : reachable s -> step i s s' -> reachable s'.

Definition holds_lk (p : pc) : bool :=
  match p with Locked | InSleep | BothLocks | Waking _ | Visiting _ => true | _ => false end.

(** Thread [i] at [p] holds the lock of process [k]. *)
Definition holds_pl (i k : nat) (p : pc) : Prop :=
  match p with BothLocks | HalfLocked | ChanSet | Marked | Resumed => k = i | Visiting j => k = j | _ => False end.

(** Process [i] is past the point where it gave up [lk], and not yet awake. *)
Definition dozing (s : sys) (i : nat) : Prop :=
  match pcs s i with
  | HalfLocked | ChanSet | Marked => True
  | Switched => state (ps s i) = SLEEPING /\ chan_ (ps s i) = Some ch
  | _ => False
  end.

(** Some thread in wakeup() has not come to process [i] yet. *)
Definition noticed (s : sys) (i : nat) : Prop := exists w j, (pcs s w = Waking j \/ pcs s w = Visiting j) /\ (j <= i)%nat.

Record inv (s : sys) : Prop := {
  inv_lk : forall i, holds_lk (pcs s i) = true <-> lk s = Some i;
  inv_pl : forall i k, holds_pl i k (pcs s i) -> pl s k = Some i;
  inv_cond : forall i, pcs s i = InSleep \/ pcs s i = BothLocks -> cond s = false;
  inv_doze : forall i, (i < NPROC)%nat -> dozing s i -> cond s = true -> noticed s i;
  inv_asleep : forall i, state (ps s i) = SLEEPING -> chan_ (ps s i) = Some ch ->
    pcs s i = Marked \/ pcs s i = Switched \/ pcs s i = ChanSet;
}.

Lemma lk_unique s i j : inv s -> holds_lk (pcs s i) = true -> holds_lk (pcs s j) = true -> i = j.
Proof. intros Hi Hi1 Hj1. apply (inv_lk _ Hi) in Hi1, Hj1. congruence. Qed.

Lemma pl_unique s i j k : inv s -> holds_pl i k (pcs s i) -> holds_pl j k (pcs s j) -> i = j.
Proof. intros Hi Hi1 Hj1. apply (inv_pl _ Hi) in Hi1, Hj1. congruence. Qed.

Lemma init_inv s : init s -> inv s.
Proof.
  intros [Hlk Hs]. split.
  - intros i. destruct (Hs i) as (_ & -> & _). rewrite Hlk. simpl. split; congruence.
  - intros i k. destruct (Hs i) as (_ & -> & _). done.
  - intros i. destruct (Hs i) as (_ & -> & _). intros [|]; congruence.
  - intros i _. unfold dozing. destruct (Hs i) as (_ & -> & _). done.
  - intros i Hsl Hc. destruct (Hs i) as (_ & _ & Hn). by apply Hn in Hsl.
Qed.

(** Each part of the invariant, for a step of thread [i]. *)
Ltac cases Hstep Hp :=
  destruct Hstep as [s Hp Hn|s Hp|s Hp|s Hp Hn Hr|s Hp Hn|s Hp|s Hp|s Hp|s Hp|s Hp Hn Hr|s Hp|s Hp|s j Hp Hr Hn|s j Hp|s Hp];
  unfold goto, set_cond, set_lk, set_pl, upd_ps; simpl.

Lemma step_lk i s s' : step i s s' -> inv s -> forall x, holds_lk (pcs s' x) = true <-> lk s' = Some x.
Proof.
  intros Hstep Hinv x. cases Hstep Hp; pose proof (inv_lk _ Hinv x) as Hx; pose proof (inv_lk _ Hinv i) as Hi;
    rewrite Hp in Hi; simpl in Hi; unfold fupd; try case_decide; subst; simpl; rewrite ?Hp in *; simpl in *;
    intuition congruence.
Qed.

Lemma step_pl i s s' : step i s s' -> inv s -> forall x k, holds_pl x k (pcs s' x) -> pl s' k = Some x.
Proof.
  intros Hstep Hinv x k. cases Hstep Hp; pose proof (inv_pl _ Hinv x k) as Hx; pose proof (inv_pl _ Hinv i) as Hi;
    rewrite Hp in Hi; simpl in Hi; unfold fupd; repeat case_decide; subst; simpl; try rewrite Hp in Hx; simpl in *;
    intros Hk; try (specialize (Hx Hk)); subst; try done; try (specialize (Hi _ eq_refl)); congruence.
Qed.

Lemma step_cond i s s' : step i s s' -> inv s -> forall x, pcs s' x = InSleep \/ pcs s' x = BothLocks -> cond s' = false.
Proof.
  intros Hstep Hinv x. cases Hstep Hp; pose proof (inv_cond _ Hinv x) as Hx; try done;
    unfold fupd; try case_decide; subst; try (intros [|]; congruence); try (intros; by apply Hx); try done.
  - intros _. apply Hx. by left.
  - intros Hin. exfalso. assert (x = i); [|done]. eapply lk_unique; [exact Hinv| |].
    + by destruct Hin as [-> | ->].
    + by rewrite Hp.
Qed.

Lemma woken_awake p : state (woken ch p) = SLEEPING -> chan_ (woken ch p) = Some ch -> False.
Proof.
  unfold woken. destruct (bool_decide_reflect (state p = SLEEPING)), (bool_decide_reflect (chan_ p = Some ch)); done.
Qed.

Lemma step_asleep i s s' : step i s s' -> inv s -> forall x,
  state (ps s' x) = SLEEPING -> chan_ (ps s' x) = Some ch -> pcs s' x = Marked \/ pcs s' x = Switched \/ pcs s' x = ChanSet.
Proof.
  intros Hstep Hinv x. cases Hstep Hp; pose proof (inv_asleep _ Hinv x) as Hx;
    unfold fupd; repeat case_decide; subst; simpl; rewrite ?Hp in *;
    try (intros Hs1 Hs2; destruct (woken_awake _ Hs1 Hs2)); intuition congruence.
Qed.

(** A step of a thread that is not in wakeup() leaves the wakers where they are. *)
Lemma noticed_goto s s' i x :
  (forall w, w <> i -> pcs s' w = pcs s w) ->
  match pcs s i with Waking _ | Visiting _ => False | _ => True end -> noticed s x -> noticed s' x.
Proof.
  intros Hw Hn (w & j & Hj & Hle). exists w, j. split; [|done]. rewrite Hw; [done|].
  intros ->. destruct Hj as [E|E]; by rewrite E in Hn.
Qed.

(** The only waker is the thread that holds [lk]. *)
Lemma noticed_by s i j x :
  inv s -> pcs s i = Waking j \/ pcs s i = Visiting j -> noticed s x -> (j <= x)%nat.
Proof.
  intros Hinv Hi (w & j' & Hw & Hle).
  assert (w = i) as -> by (eapply lk_unique; [exact Hinv|destruct Hw as [-> | ->]; done|destruct Hi as [-> | ->]; done]).
  destruct Hi as [E|E], Hw as [E'|E']; rewrite E in E'; by simplify_eq.
Qed.

Lemma step_doze i s s' : step i s s' -> inv s -> forall x,
  (x < NPROC)%nat -> dozing s' x -> cond s' = true -> noticed s' x.
Proof.
  intros Hstep Hinv x Hx. pose proof (inv_doze _ Hinv x Hx) as Hdoze.
  assert (Hother : forall w, w <> i -> pcs s' w = pcs s w).
  { intros w Hw. destruct Hstep; simpl; by rewrite ?fupd_ne. }
  pose proof (fun Hn => noticed_goto s s' i x Hother Hn) as Hgoto.
  cases Hstep Hp; rewrite Hp in Hgoto; unfold dozing in *; simpl in *; try done.
  all: destruct (decide (x = i)) as [->|Hxi]; [rewrite ?fupd_eq, ?Hp in *|rewrite ?(fupd_ne _ i) by done]; simpl; try done.
  all: intros Hd Hc; try (by apply Hgoto, Hdoze).
  - rewrite (inv_cond _ Hinv i) in Hc by auto. done.
  - exists i, 0%nat. simpl. rewrite fupd_eq. split; [by left|lia].
  - exists i, j. simpl. rewrite fupd_eq. split; [by right|]. eapply noticed_by; [exact Hinv|by left|by apply Hdoze].
  - assert (Hxj : x <> j).
    { intros ->. rewrite fupd_eq in Hd. assert (Hpl : holds_pl i j (pcs s i)) by by rewrite Hp.
      assert (Hne : ~ holds_pl j j (pcs s j)) by (intros Hj; apply Hxi; by eapply pl_unique).
      destruct (pcs s j); try done; try (by apply Hne). destruct Hd. by eapply woken_awake. }
    rewrite fupd_ne in Hd by done. exists i, (S j). simpl. rewrite fupd_eq. split; [by left|].
    assert (j <= x)%nat by (eapply noticed_by; [exact Hinv|by right|by apply Hdoze]). lia.
  - assert (NPROC <= x)%nat by (eapply noticed_by; [exact Hinv|by left|by apply Hdoze]). lia.
Qed.

Lemma sleepwake_inv s : reachable s -> inv s.
Proof.
  induction 1 as [s Hi|s s' i _ IH Hs]; [by apply init_inv|].
  split; [by eapply step_lk|by eapply step_pl|by eapply step_cond|by eapply step_doze|by eapply step_asleep].
Qed.

(** C14: No wakeup is lost.  However the processes interleave: when the
    condition holds and the lock that guards it is free, no process sleeps on
    the channel or is about to; each one that had gone to sleep is awake or
    has been made runnable. *)
Theorem no_lost_wakeup s i :
  reachable s -> cond s = true -> lk s = None -> (i < NPROC)%nat ->
  ~ (state (ps s i) = SLEEPING /\ chan_ (ps s i) = Some ch) /\
  pcs s i <> HalfLocked /\ pcs s i <> ChanSet /\ pcs s i <> Marked.
Proof.
  intros Hr Hc Hl Hi. apply sleepwake_inv in Hr as Hinv.
  assert (Hd : ~ dozing s i).
  { intros Hd. destruct (inv_doze _ Hinv i Hi Hd Hc) as (w & j & Hw & _).
    assert (lk s = Some w); [|congruence]. apply (inv_lk _ Hinv). by destruct Hw as [-> | ->]. }
  unfold dozing in Hd. split_and!; [|by intros E; rewrite E in Hd..].
  intros [Hs Hch]. destruct (inv_asleep _ Hinv i Hs Hch) as [E|[E|E]]; rewrite E in Hd; tauto.
Qed.
End SleepWake.
End SleepWake.

(** ** Example *)

(** A waker that meets no lock gets through its loop. *)
Lemma waking_ends ch w n s :
  SleepWake.reachable ch s -> SleepWake.pcs s w = SleepWake.Waking (NPROC - n) -> (n <= NPROC)%nat ->
  (forall j, SleepWake.pl s j = None) ->
  exists s', SleepWake.reachable ch s' /\ SleepWake.pcs s' w = SleepWake.Waking NPROC /\
    SleepWake.cond s' = SleepWake.cond s /\ forall i, i <> w -> SleepWake.pcs s' i = SleepWake.pcs s i.
Proof.
  revert s. induction n as [|n IH]; intros s Hr Hp Hn Hf.
  - exists s. by rewrite Nat.sub_0_r in Hp.
  - set (j := (NPROC - S n)%nat) in *.
    assert (H1 := SleepWake.reach_step _ _ _ w Hr (SleepWake.step_visit ch w s j Hp ltac:(lia) (Hf j))).
    set (s1 := SleepWake.goto w _ _) in H1.
    assert (H2 := SleepWake.reach_step _ _ _ w H1 (SleepWake.step_wake ch w s1 j (fupd_eq _ _ _))).
    set (s2 := SleepWake.goto w _ _) in H2.
    destruct (IH s2 H2) as (s' & R & P & C & O).
    + simpl. rewrite fupd_eq. f_equal. lia.
    + lia.
    + intros k. simpl. unfold fupd. by repeat case_decide.
    + exists s'. split_and!; [done|done|by rewrite C|]. intros i Hi. rewrite O by done. simpl. by rewrite !fupd_ne.
Qed.

Definition asleep_at (i w : nat) : SleepWake.sys :=
  let s := SleepWake.mksys false None (fun _ => None) (fun _ => set_state RUNNING proc_zero) (fun _ => SleepWake.Idle) in
  let s := SleepWake.goto i SleepWake.Locked (SleepWake.set_lk (Some i) s) in
  let s := SleepWake.goto i SleepWake.InSleep s in
  let s := SleepWake.goto i SleepWake.BothLocks (SleepWake.set_pl i (Some i) s) in
  let s := SleepWake.goto i SleepWake.HalfLocked (SleepWake.set_lk None s) in
  let s := SleepWake.goto i SleepWake.ChanSet (SleepWake.upd_ps i (set_chan (Some ChTicks)) s) in
  let s := SleepWake.goto i SleepWake.Marked (SleepWake.upd_ps i (set_state SLEEPING) s) in
  let s := SleepWake.goto i SleepWake.Switched (SleepWake.set_pl i None s) in
  let s := SleepWake.goto w SleepWake.Locked (SleepWake.set_lk (Some w) s) in
  SleepWake.goto w (SleepWake.Waking 0) (SleepWake.set_cond true s).

Lemma asleep_reachable : SleepWake.reachable ChTicks (asleep_at 0 100).
Proof.
  eapply SleepWake.reach_step; [|by apply SleepWake.step_notify].
  eapply SleepWake.reach_step; [|by apply SleepWake.step_acquire].
  eapply SleepWake.reach_step; [|by apply SleepWake.step_switch].
  eapply SleepWake.reach_step; [|by apply SleepWake.step_mark].
  eapply SleepWake.reach_step; [|by apply SleepWake.step_chan].
  eapply SleepWake.reach_step; [|by apply SleepWake.step_unlock_lk].
  eapply SleepWake.reach_step; [|by apply SleepWake.step_lock_p].
  eapply SleepWake.reach_step; [|apply SleepWake.step_sleep; [done|done|unfold NPROC; lia]].
  eapply SleepWake.reach_step; [|by apply SleepWake.step_acquire].
  by apply SleepWake.reach_init.
Qed.

(** Process 0 has gone to sleep on the ticks, and a timer interrupt on an idle
    hart calls wakeup(): process 0 is still switched out, but not asleep. *)
Lemma no_lost_wakeup_witness :
  exists s, SleepWake.reachable ChTicks s /\ SleepWake.cond s = true /\ SleepWake.pcs s 0%nat = SleepWake.Switched /\
    ~ (state (SleepWake.ps s 0%nat) = SLEEPING /\ chan_ (SleepWake.ps s 0%nat) = Some ChTicks).
Proof.
  destruct (waking_ends ChTicks 100 NPROC (asleep_at 0 100)) as (s & R & P & C & O).
  - exact asleep_reachable.
  - reflexivity.
  - lia.
  - intros j. simpl. unfold fupd. by repeat case_decide.
  - assert (R' := SleepWake.reach_step _ _ _ _ R (SleepWake.step_woken ChTicks 100 s P)).
    eexists. split; [exact R'|]. split; [exact C|]. split.
    + simpl. rewrite fupd_ne by done. rewrite O by done. reflexivity.
    + apply (SleepWake.no_lost_wakeup ChTicks _ 0 R'); [exact C|reflexivity|unfold NPROC; lia].
Defined.
