(* ===== verification/Uart.v ===== *)
(** The UART driver (kernel/uart.c).

    The device is behind [mmio] of State.v: a register read depends on the
    accesses made so far.  A write of a register is recorded, so the bytes
    sent are the writes to THR. *)

From stdpp Require Import base tactics list strings.
From Stdlib Require Import ZArith Lia FunctionalExtensionality.
From coqutil Require Import Byte.
From S2P Require Import Prelude Riscv Mem Core Spinlock Kalloc Vm State Csr Proc.

Local Open Scope Z_scope.
Local Open Scope kern_scope.

Definition RHR : Z := 0.
Definition THR : Z := 0.
Definition IER : Z := 1.
Definition IER_TX_ENABLE : Z := Z.shiftl 1 0.
Definition IER_RX_ENABLE : Z := Z.shiftl 1 1.
Definition FCR : Z := 2.
Definition FCR_FIFO_ENABLE : Z := Z.shiftl 1 0.
Definition FCR_FIFO_CLEAR : Z := Z.shiftl 3 1.
Definition LCR : Z := 3.
Definition LCR_EIGHT_BITS : Z := Z.shiftl 3 0.
Definition LCR_BAUD_LATCH : Z := Z.shiftl 1 7.
Definition LSR : Z := 5.
Definition LSR_RX_READY : Z := Z.shiftl 1 0.
Definition LSR_TX_IDLE : Z := Z.shiftl 1 5.

Definition UART_TX_BUF_SIZE : Z := 32.

(** The address of a UART register. *)
Definition Reg (reg : Z) : Z := UART0 + reg.

Section Uart.
Context `{KernelImage} `{World} `{Symbols}.

(** The registers are one byte wide. *)
Definition uart_read (reg : Z) : M st Z :=
  let* v := ReadReg (Reg reg) in ret (v mod 256).
Definition uart_write (reg v : Z) : M st unit := WriteReg (Reg reg) (v mod 256).

Definition set_uart (f : uart -> uart) : M st unit := modify (fun s => set_s_uart (f (s_uart s)) s).

Definition uartinit : M st unit :=
  uart_write IER 0x00 ;;;
  uart_write LCR LCR_BAUD_LATCH ;;;
  uart_write 0 0x03 ;;;
  uart_write 1 0x00 ;;;
  uart_write LCR LCR_EIGHT_BITS ;;;
  uart_write FCR (Z.lor FCR_FIFO_ENABLE FCR_FIFO_CLEAR) ;;;
  uart_write IER (Z.lor IER_TX_ENABLE IER_RX_ENABLE) ;;;
  zoom (initlock UartLock).

(** for(;;) ; *)
Definition hang {A} : M st A := fun _ => Diverge.

Definition uartstart : M st unit :=
  loop (fun _ : unit =>
    let* u := gets s_uart in
    if uart_tx_w u =? uart_tx_r u then ret (inr tt)
    else
      let* lsr := uart_read LSR in
      if Z.land lsr LSR_TX_IDLE =? 0 then ret (inr tt)
      else
        let c := uart_tx_buf u (uart_tx_r u) in
        set_uart (fun u => set_uart_tx_r (Z.rem (uart_tx_r u + 1) UART_TX_BUF_SIZE) u) ;;;
        wakeup ChUart ;;;
        uart_write THR c ;;;
        ret (inl tt)) tt.

Definition uartputc (c : Z) : M st unit :=
  lock_ UartLock ;;;
  let* p := gets s_panicked in
  if p then hang
  else
    loop (fun _ : unit =>
      let* u := gets s_uart in
      if Z.rem (uart_tx_w u + 1) UART_TX_BUF_SIZE =? uart_tx_r u then
        sleep ChUart UartLock ;;;
        ret (inl tt)
      else
        set_uart (fun u => set_uart_tx_buf (fupd (uart_tx_buf u) (uart_tx_w u) (c mod 256)) u) ;;;
        set_uart (fun u => set_uart_tx_w (Z.rem (uart_tx_w u + 1) UART_TX_BUF_SIZE) u) ;;;
        uartstart ;;;
        unlock_ UartLock ;;;
        ret (inr tt)) tt.

Definition uartputc_sync (c : Z) : M st unit :=
  zoom push_off ;;;
  let* p := gets s_panicked in
  if p then hang
  else
    loop (fun _ : unit =>
      let* lsr := uart_read LSR in
      if Z.land lsr LSR_TX_IDLE =? 0 then ret (inl tt) else ret (inr tt)) tt ;;;
    uart_write THR c ;;;
    zoom pop_off.

Definition uartgetc : M st Z :=
  let* lsr := uart_read LSR in
  if negb (Z.land lsr 0x01 =? 0) then uart_read RHR else ret (-1).

End Uart.
