(* ===== verification/Printf.v ===== *)
(** Formatted console output (kernel/printf.c), and consputc() of
    kernel/console.c.

    An argument of printf() is tagged with the type the format has to ask
    for; any other use is undefined behaviour.  panic() is the outcome
    [Panic] of the kernel monad: the kernel prints its message and stops. *)

From stdpp Require Import base tactics list strings.
From Stdlib Require Import ZArith Lia Ascii String.
From coqutil Require Import Byte.
From S2P Require Import Prelude Riscv Mem Core Spinlock Kalloc Vm State Csr Proc Uart.

Local Open Scope Z_scope.
Local Open Scope kern_scope.

Definition BACKSPACE : Z := 0x100.

(** The characters of a string literal, and of a char array up to its NUL. *)
Fixpoint codes (s : string) : list Z :=
  match s with
  | EmptyString => []
  | String c s' => Z.of_nat (nat_of_ascii c) :: codes s'
  end.
Fixpoint chars (l : list byte) : list Z :=
  match l with
  | [] => []
  | b :: l' => if byte.unsigned b =? 0 then [] else byte.unsigned b :: chars l'
  end.
Definition chr (c : ascii) : Z := Z.of_nat (nat_of_ascii c).

Definition digits : list Z := codes "0123456789abcdef".
Definition digit (d : Z) : Z := nth (Z.to_nat d) digits 0.

(** Arguments of printf(). *)
Inductive parg := AInt (x : Z) | APtr (x : Z) | AStr (s : list Z) | ANull.

(** The digits of printint(), most significant first: buf[] read from its
    end.  A uint has at most 32 digits in any base of 2 or more. *)
Fixpoint printint_buf (fuel : nat) (x base : Z) (buf : list Z) : list Z :=
  match fuel with
  | O => buf
  | S fuel' =>
      let buf := digit (x mod base) :: buf in
      if x / base =? 0 then buf else printint_buf fuel' (x / base) base buf
  end.

Definition printint_chars (xx base : Z) (sign : bool) : list Z :=
  let neg := sign && (xx <? 0) in
  let x := if neg then u32 (- xx) else u32 xx in
  let buf := printint_buf 32 x base [] in
  if neg then chr "-" :: buf else buf.

Section Printf.
Context `{KernelImage} `{World} `{Symbols}.

Definition consputc (c : Z) : M st unit :=
  if c =? BACKSPACE then
    uartputc_sync 8 ;;; uartputc_sync 32 ;;; uartputc_sync 8
  else uartputc_sync c.

Definition putcs (l : list Z) : M st unit := forM l consputc.

Definition printint (xx base : Z) (sign : bool) : M st unit := putcs (printint_chars xx base sign).

Definition printptr (x : Z) : M st unit :=
  consputc (chr "0") ;;;
  consputc (chr "x") ;;;
  let* _ := scanM (C := unit) (seq 0 16) x (fun _ x =>
    consputc (digit (Z.shiftr x 60)) ;;;
    ret (inl (u64 (Z.shiftl x 4)))) in
  ret tt.

(** The loop over the format, from the character [fmt] starts with. *)
Fixpoint printf_loop (fmt : list Z) (ap : list parg) : M st unit :=
  match fmt with
  | [] => ret tt
  | c :: fmt' =>
      if negb (c =? chr "%") then consputc c ;;; printf_loop fmt' ap
      else
        match fmt' with
        | [] => ret tt
        | c :: fmt' =>
            if c =? chr "d" then
              match ap with
              | AInt x :: ap' => printint x 10 true ;;; printf_loop fmt' ap'
              | _ => undefined "va_arg"
              end
            else if c =? chr "x" then
              match ap with
              | AInt x :: ap' => printint x 16 true ;;; printf_loop fmt' ap'
              | _ => undefined "va_arg"
              end
            else if c =? chr "p" then
              match ap with
              | APtr x :: ap' => printptr x ;;; printf_loop fmt' ap'
              | _ => undefined "va_arg"
              end
            else if c =? chr "s" then
              match ap with
              | AStr s :: ap' => putcs s ;;; printf_loop fmt' ap'
              | ANull :: ap' => putcs (codes "(null)") ;;; printf_loop fmt' ap'
              | _ => undefined "va_arg"
              end
            else if c =? chr "%" then consputc (chr "%") ;;; printf_loop fmt' ap
            else consputc (chr "%") ;;; consputc c ;;; printf_loop fmt' ap
        end
  end.

Definition printf (fmt : list Z) (ap : list parg) : M st unit :=
  let* locking := gets s_locking in
  when (negb (locking =? 0)) (lock_ PrLock) ;;;
  printf_loop fmt ap ;;;
  when (negb (locking =? 0)) (unlock_ PrLock).

Definition printfinit : M st unit :=
  zoom (initlock PrLock) ;;;
  modify (set_s_locking 1).

End Printf.
