(* ===== verification/Console.v ===== *)
(** The console (kernel/console.c), the UART interrupt handler that feeds it,
    and procdump() of kernel/proc.c. *)

From stdpp Require Import base tactics list strings.
From Stdlib Require Import ZArith Lia Ascii String FunctionalExtensionality.
From coqutil Require Import Byte.
From S2P Require Import Prelude Riscv Mem Core Spinlock Kalloc Vm State Csr Proc Uart Printf.

Local Open Scope Z_scope.
Local Open Scope kern_scope.

Definition INPUT_BUF : Z := 128.
Definition CONSOLE : Z := 1.

(** Control-x *)
Definition C_ (x : ascii) : Z := chr x - chr "@".

Definition nl : Z := 10.
Definition cr : Z := 13.
Definition del : Z := 0x7f.

Section Console.
Context `{KernelImage} `{World} `{Symbols}.

Definition set_cons (f : cons -> cons) : M st unit := modify (fun s => set_s_cons (f (s_cons s)) s).

Definition state_name (st : procstate) : string :=
  match st with
  | UNUSED => "unused" | SLEEPING => "sleep " | RUNNABLE => "runble" | RUNNING => "run   "
  | ZOMBIE => "zombie"
  end.

Definition procdump : M st unit :=
  printf [nl] [] ;;;
  forM (seq 0 NPROC) (fun i =>
    let* p := getp i (fun p => p) in
    if bool_decide (state p = UNUSED) then ret tt
    else
      printf (codes "%d %s %s") [AInt (pid p); AStr (codes (state_name (state p))); AStr (chars (pname p))] ;;;
      printf [nl] []).

Definition consolewrite (src : kaddr) (n : Z) : M st Z :=
  lock_ ConsLock ;;;
  let* i := loop (fun i =>
    if i <? n then
      let* r := either_copyin (kadd src i) 1 in
      let '(rc, bs) := r in
      if rc =? -1 then ret (inr i)
      else
        uartputc (match bs with b :: _ => byte.unsigned b | [] => 0 end) ;;;
        ret (inl (i + 1))
    else ret (inr i)) 0 in
  unlock_ ConsLock ;;;
  ret i.

(** The inner loop of consoleread(): wait for input; true when the process
    was killed meanwhile. *)
Definition console_wait : M st bool :=
  loop (fun _ : unit =>
    let* c := gets s_cons in
    if cons_r c =? cons_w c then
      let* i := curproc in
      let* k := getp i killed in
      if negb (k =? 0) then ret (inr true)
      else
        sleep ChCons ConsLock ;;;
        ret (inl tt)
    else ret (inr false)) tt.

(** target is uint, n int. *)
Definition consoleread (dst : kaddr) (n : Z) : M st Z :=
  let target := u32 n in
  lock_ ConsLock ;;;
  loop (fun '(dst, n) =>
    if 0 <? n then
      let* k := console_wait in
      if k then
        unlock_ ConsLock ;;;
        ret (inr (-1))
      else
        let* c := gets (fun s => cons_buf (s_cons s) (cons_r (s_cons s) mod INPUT_BUF)) in
        set_cons (fun k => set_cons_r (u32 (cons_r k + 1)) k) ;;;
        if c =? C_ "D" then
          when (u32 n <? target) (set_cons (fun k => set_cons_r (u32 (cons_r k - 1)) k)) ;;;
          unlock_ ConsLock ;;;
          ret (inr (i32 (target - n)))
        else
          let* r := either_copyout dst [byte.of_Z c] in
          if r.1 =? -1 then
            unlock_ ConsLock ;;;
            ret (inr (i32 (target - n)))
          else
            let n := n - 1 in
            if c =? nl then
              unlock_ ConsLock ;;;
              ret (inr (i32 (target - n)))
            else ret (inl (kadd dst 1, n))
    else
      unlock_ ConsLock ;;;
      ret (inr (i32 (target - n)))) (dst, n).

(** case C('U') *)
Definition kill_line : M st unit :=
  loop (fun _ : unit =>
    let* c := gets s_cons in
    if negb (cons_e c =? cons_w c) && negb (cons_buf c (u32 (cons_e c - 1) mod INPUT_BUF) =? nl) then
      set_cons (fun k => set_cons_e (u32 (cons_e k - 1)) k) ;;;
      consputc BACKSPACE ;;;
      ret (inl tt)
    else ret (inr tt)) tt.

Definition consoleintr (c : Z) : M st unit :=
  lock_ ConsLock ;;;
  (if c =? C_ "P" then procdump
   else if c =? C_ "U" then kill_line
   else if (c =? C_ "H") || (c =? del) then
     let* k := gets s_cons in
     if negb (cons_e k =? cons_w k) then
       set_cons (fun k => set_cons_e (u32 (cons_e k - 1)) k) ;;;
       consputc BACKSPACE
     else ret tt
   else
     let* k := gets s_cons in
     if negb (c =? 0) && (u32 (cons_e k - cons_r k) <? INPUT_BUF) then
       let c := if c =? cr then nl else c in
       consputc c ;;;
       set_cons (fun k => set_cons_buf (fupd (cons_buf k) (cons_e k mod INPUT_BUF) (c mod 256)) k) ;;;
       set_cons (fun k => set_cons_e (u32 (cons_e k + 1)) k) ;;;
       let* k := gets s_cons in
       if (c =? nl) || (c =? C_ "D") || (cons_e k =? u32 (cons_r k + INPUT_BUF)) then
         set_cons (fun k => set_cons_w (cons_e k) k) ;;;
         wakeup ChCons
       else ret tt
     else ret tt) ;;;
  unlock_ ConsLock.

Definition consoleinit : M st unit :=
  zoom (initlock ConsLock) ;;;
  uartinit ;;;
  modify (fun s => set_s_devsw (fupd (s_devsw s) CONSOLE
                                  (mkdevsw (Some Consoleread) (Some Consolewrite))) s).

(** uartintr() of kernel/uart.c *)
Definition uartintr : M st unit :=
  loop (fun _ : unit =>
    let* c := uartgetc in
    if c =? -1 then ret (inr tt)
    else consoleintr c ;;; ret (inl tt)) tt ;;;
  lock_ UartLock ;;;
  uartstart ;;;
  unlock_ UartLock.

End Console.
