(* ===== verification/Sleeplock.v ===== *)
(** Sleep locks (kernel/sleeplock.c).

    [quiet i c] is the state in which the file system code is verified:
    process [i] runs, no spin lock is held, and nobody waits for a sleep lock
    or for the log.  From there the operations are equations. *)

From stdpp Require Import base tactics list strings.
From Stdlib Require Import ZArith Lia FunctionalExtensionality.
From coqutil Require Import Byte.
From S2P Require Import Prelude Riscv Mem Core Spinlock Kalloc Vm State Csr Proc Sched.

Local Open Scope Z_scope.
Local Open Scope kern_scope.

Section Sleeplock.
Context `{KernelImage} `{World} `{Symbols}.

Definition set_sl (l : slock) (f : sleeplock -> sleeplock) : M st unit :=
  modify (fun s => set_s_slock (fupd (s_slock s) l (f (s_slock s l))) s).

Definition initsleeplock (l : slock) : M st unit :=
  zoom (initlock (SleepLk l)) ;;;
  set_sl l (set_sl_locked 0) ;;;
  set_sl l (set_sl_pid 0).

Definition acquiresleep (l : slock) : M st unit :=
  lock_ (SleepLk l) ;;;
  loop (fun _ : unit =>
    let* v := gets (fun s => sl_locked (s_slock s l)) in
    if negb (v =? 0) then
      sleep (ChSleep l) (SleepLk l) ;;;
      ret (inl tt)
    else ret (inr tt)) tt ;;;
  set_sl l (set_sl_locked 1) ;;;
  let* i := curproc in
  let* me := getp i pid in
  set_sl l (set_sl_pid me) ;;;
  unlock_ (SleepLk l).

Definition releasesleep (l : slock) : M st unit :=
  lock_ (SleepLk l) ;;;
  set_sl l (set_sl_locked 0) ;;;
  set_sl l (set_sl_pid 0) ;;;
  wakeup (ChSleep l) ;;;
  unlock_ (SleepLk l).

(** myproc() is only evaluated when the lock is held. *)
Definition holdingsleep (l : slock) : M st bool :=
  lock_ (SleepLk l) ;;;
  let* v := gets (fun s => s_slock s l) in
  let* r :=
    (if negb (sl_locked v =? 0) then
       let* i := curproc in
       let* me := getp i pid in
       ret (sl_pid v =? me)
     else ret false) in
  unlock_ (SleepLk l) ;;;
  ret r.

(** ** Specifications *)

Record quiet (i : nat) (c : core) : Prop := {
  q_calm : calm c;
  q_cur : cproc (ccpu c) = Some i;
  q_free : forall lk, free lk c;
  q_sleep : forall l, no_sleeper (ChSleep l) c;
  q_log : no_sleeper ChLog c;
}.

(** Lock [l] held by the process with identifier [me], and free. *)
Definition sl_held (me : Z) : sleeplock := mksleeplock 1 me.
Definition sl_free : sleeplock := mksleeplock 0 0.

Definition put_sl (l : slock) (v : sleeplock) (s : st) : st := set_s_slock (fupd (s_slock s) l v) s.

(** The identifier of the current process. *)
Definition me (i : nat) (s : st) : Z := pid (procs (s_core s) i).

Lemma acquiresleep_eq l i s :
  quiet i (s_core s) -> sl_locked (s_slock s l) = 0 ->
  acquiresleep l s = Ok tt (put_sl l (sl_held (me i s)) s).
Proof.
  intros Hq Hl. enough (wp (acquiresleep l) (fun r s' => s' = put_sl l (sl_held (me i s)) s) s) as W.
  { apply wp_elim in W as ([] & s' & E & ->). exact E. }
  unfold acquiresleep. apply wp_bind, wp_lock; [apply Hq|apply (q_free _ _ Hq)|]. apply wp_bind.
  eapply (wp_loop _ (fun k _ s' => k = 0 /\ s' = set_s_core (acq (SleepLk l) (s_core s)) s)) with (n := 0).
  - intros n a s' _ [-> ->]. apply wp_bind, wp_gets. cbn [s_slock set_s_core set_s_k].
    rewrite Hl. cbn [negb Z.eqb]. apply wp_ret. unfold set_sl, setp, getp.
    do 2 (apply wp_bind, wp_modify || apply wp_bind).
    apply (wp_curproc i); [apply calm_acq, Hq|apply (q_cur _ _ Hq)|].
    apply wp_bind, wp_gets, wp_bind, wp_modify.
    apply (wp_unlock _ (s_core s)); [done|apply Hq|apply (q_free _ _ Hq)|].
    unfold put_sl, sl_held, me. destruct s as [[]]. cbn. by rewrite !fupd_eq, !fupd_fupd.
  - lia.
  - done.
Qed.

Lemma releasesleep_eq l i s :
  quiet i (s_core s) -> releasesleep l s = Ok tt (put_sl l sl_free s).
Proof.
  intros Hq. unfold releasesleep, bind, set_sl, modify.
  rewrite lock_eq by (apply Hq || apply (q_free _ _ Hq)).
  rewrite wakeup_none; [|apply calm_acq, Hq| |].
  - rewrite (unlock_eq _ (s_core s)); [|done|apply Hq|apply (q_free _ _ Hq)].
    unfold put_sl, sl_free. destruct s as [[]]. cbn. by rewrite !fupd_eq, !fupd_fupd.
  - intros j _. apply acq_free; [done|apply (q_free _ _ Hq)].
  - apply (q_sleep _ _ Hq).
Qed.

Lemma holdingsleep_eq l i s :
  quiet i (s_core s) ->
  holdingsleep l s = Ok (negb (sl_locked (s_slock s l) =? 0) && (sl_pid (s_slock s l) =? me i s)) s.
Proof.
  intros Hq. unfold holdingsleep, bind, gets.
  rewrite lock_eq by (apply Hq || apply (q_free _ _ Hq)). cbn [s_slock set_s_core set_s_k].
  destruct (negb (sl_locked (s_slock s l) =? 0)); simpl.
  - rewrite (curproc_eq i); [|apply calm_acq, Hq|apply (q_cur _ _ Hq)].
    unfold getp, gets, ret. rewrite (unlock_eq _ (s_core s)); [|done|apply Hq|apply (q_free _ _ Hq)].
    f_equal. by destruct s as [[]].
  - unfold ret. rewrite (unlock_eq _ (s_core s)); [|done|apply Hq|apply (q_free _ _ Hq)].
    f_equal. by destruct s as [[]].
Qed.

End Sleeplock.
