(* ===== verification/Virtio.v ===== *)
(** The disk driver (kernel/virtio_disk.c, kernel/virtio.h).

    The driver shares its descriptors and rings with the device.  In the
    model a descriptor's address says what it points to; the device itself
    is part of the [World]. *)

From stdpp Require Import base tactics list strings.
From Stdlib Require Import ZArith Lia FunctionalExtensionality.
From coqutil Require Import Byte.
From S2P Require Import Prelude Riscv Mem Core Spinlock Kalloc Vm State Csr Proc.

Local Open Scope Z_scope.
Local Open Scope kern_scope.

Definition VIRTIO_MMIO_MAGIC_VALUE : Z := 0x000.
Definition VIRTIO_MMIO_VERSION : Z := 0x004.
Definition VIRTIO_MMIO_DEVICE_ID : Z := 0x008.
Definition VIRTIO_MMIO_VENDOR_ID : Z := 0x00c.
Definition VIRTIO_MMIO_DEVICE_FEATURES : Z := 0x010.
Definition VIRTIO_MMIO_DRIVER_FEATURES : Z := 0x020.
Definition VIRTIO_MMIO_GUEST_PAGE_SIZE : Z := 0x028.
Definition VIRTIO_MMIO_QUEUE_SEL : Z := 0x030.
Definition VIRTIO_MMIO_QUEUE_NUM_MAX : Z := 0x034.
Definition VIRTIO_MMIO_QUEUE_NUM : Z := 0x038.
Definition VIRTIO_MMIO_QUEUE_PFN : Z := 0x040.
Definition VIRTIO_MMIO_QUEUE_NOTIFY : Z := 0x050.
Definition VIRTIO_MMIO_INTERRUPT_STATUS : Z := 0x060.
Definition VIRTIO_MMIO_INTERRUPT_ACK : Z := 0x064.
Definition VIRTIO_MMIO_STATUS : Z := 0x070.

Definition VIRTIO_CONFIG_S_ACKNOWLEDGE : Z := 1.
Definition VIRTIO_CONFIG_S_DRIVER : Z := 2.
Definition VIRTIO_CONFIG_S_DRIVER_OK : Z := 4.
Definition VIRTIO_CONFIG_S_FEATURES_OK : Z := 8.

Definition VIRTIO_BLK_F_RO : Z := 5.
Definition VIRTIO_BLK_F_SCSI : Z := 7.
Definition VIRTIO_BLK_F_CONFIG_WCE : Z := 11.
Definition VIRTIO_BLK_F_MQ : Z := 12.
Definition VIRTIO_F_ANY_LAYOUT : Z := 27.
Definition VIRTIO_RING_F_INDIRECT_DESC : Z := 28.
Definition VIRTIO_RING_F_EVENT_IDX : Z := 29.

Definition NUM : nat := 8.
Definition VRING_DESC_F_NEXT : Z := 1.
Definition VRING_DESC_F_WRITE : Z := 2.
Definition VIRTIO_BLK_T_IN : Z := 0.
Definition VIRTIO_BLK_T_OUT : Z := 1.

Definition BSIZE : Z := 1024.

Definition desc_zero : vringdesc := mkdesc DmaNull 0 0 0.

Section Virtio.
Context `{KernelImage} `{World} `{Symbols}.

(** *R(r) and *R(r) = v *)
Definition vread (r : Z) : M st Z := let* v := ReadReg (VIRTIO0 + r) in ret (u32 v).
Definition vwrite (r v : Z) : M st unit := WriteReg (VIRTIO0 + r) (u32 v).

Definition set_vd (f : vdisk -> vdisk) : M st unit := modify (fun s => set_s_vd (f (s_vd s)) s).
Definition set_desc (i : nat) (f : vringdesc -> vringdesc) : M st unit :=
  set_vd (fun d => set_vd_desc (fupd (vd_desc d) i (f (vd_desc d i))) d).
Definition set_buf (b : nat) (f : buf -> buf) : M st unit :=
  modify (fun s => set_s_bc (set_bc_buf (fupd (bc_buf (s_bc s)) b (f (bc_buf (s_bc s) b))) (s_bc s)) s).

(** features &= ~(1 << n) *)
Definition drop_feature (n features : Z) : Z := Z.land features (Z.lnot (Z.shiftl 1 n)).

Definition virtio_disk_init : M st unit :=
  zoom (initlock VdiskLock) ;;;
  let* magic := vread VIRTIO_MMIO_MAGIC_VALUE in
  let* ok :=
    (if negb (magic =? 0x74726976) then ret false
     else
       let* version := vread VIRTIO_MMIO_VERSION in
       if negb (version =? 1) then ret false
       else
         let* id := vread VIRTIO_MMIO_DEVICE_ID in
         if negb (id =? 2) then ret false
         else
           let* vendor := vread VIRTIO_MMIO_VENDOR_ID in
           ret (vendor =? 0x554d4551)) in
  if negb ok then panic "could not find virtio disk"
  else
    let status := VIRTIO_CONFIG_S_ACKNOWLEDGE in
    vwrite VIRTIO_MMIO_STATUS status ;;;
    let status := Z.lor status VIRTIO_CONFIG_S_DRIVER in
    vwrite VIRTIO_MMIO_STATUS status ;;;
    let* features := vread VIRTIO_MMIO_DEVICE_FEATURES in
    let features := drop_feature VIRTIO_BLK_F_RO features in
    let features := drop_feature VIRTIO_BLK_F_SCSI features in
    let features := drop_feature VIRTIO_BLK_F_CONFIG_WCE features in
    let features := drop_feature VIRTIO_BLK_F_MQ features in
    let features := drop_feature VIRTIO_F_ANY_LAYOUT features in
    let features := drop_feature VIRTIO_RING_F_EVENT_IDX features in
    let features := drop_feature VIRTIO_RING_F_INDIRECT_DESC features in
    vwrite VIRTIO_MMIO_DRIVER_FEATURES features ;;;
    let status := Z.lor status VIRTIO_CONFIG_S_FEATURES_OK in
    vwrite VIRTIO_MMIO_STATUS status ;;;
    let status := Z.lor status VIRTIO_CONFIG_S_DRIVER_OK in
    vwrite VIRTIO_MMIO_STATUS status ;;;
    vwrite VIRTIO_MMIO_GUEST_PAGE_SIZE PGSIZE ;;;
    vwrite VIRTIO_MMIO_QUEUE_SEL 0 ;;;
    let* max := vread VIRTIO_MMIO_QUEUE_NUM_MAX in
    if max =? 0 then panic "virtio disk has no queue 0"
    else if max <? Z.of_nat NUM then panic "virtio disk max queue too short"
    else
      vwrite VIRTIO_MMIO_QUEUE_NUM (Z.of_nat NUM) ;;;
      set_vd (fun d => mkvdisk (fun _ => desc_zero) (fun _ => 0) 0 (fun _ => 0)
                         (vd_free d) (vd_used_idx d) (vd_info_b d) (vd_info_status d)) ;;;
      vwrite VIRTIO_MMIO_QUEUE_PFN (Z.shiftr disk_pages PGSHIFT) ;;;
      forM (seq 0 NUM) (fun i => set_vd (fun d => set_vd_free (fupd (vd_free d) i true) d)).

(** The index of a free descriptor, or None for -1. *)
Definition alloc_desc : M st (option nat) :=
  findM (seq 0 NUM) (fun i =>
    let* f := gets (fun s => vd_free (s_vd s) i) in
    if f : bool then
      set_vd (fun d => set_vd_free (fupd (vd_free d) i false) d) ;;;
      ret (Some i)
    else ret None).

Definition free_desc (i : nat) : M st unit :=
  if (NUM <=? i)%nat then panic "virtio_disk_intr 1"
  else
    let* f := gets (fun s => vd_free (s_vd s) i) in
    if f : bool then panic "virtio_disk_intr 2"
    else
      set_desc i (set_vr_addr DmaNull) ;;;
      set_vd (fun d => set_vd_free (fupd (vd_free d) i true) d) ;;;
      wakeup ChDiskFree.

Definition free_chain (i : nat) : M st unit :=
  loop (fun i =>
    free_desc i ;;;
    let* d := gets (fun s => vd_desc (s_vd s) i) in
    if negb (Z.land (vr_flags d) VRING_DESC_F_NEXT =? 0) then ret (inl (Z.to_nat (vr_next d)))
    else ret (inr tt)) i.

(** Three descriptors, or None after giving back those already taken. *)
Definition alloc3_desc : M st (option (nat * nat * nat)) :=
  let* i0 := alloc_desc in
  match i0 with
  | None => ret None
  | Some i0 =>
      let* i1 := alloc_desc in
      match i1 with
      | None => free_desc i0 ;;; ret None
      | Some i1 =>
          let* i2 := alloc_desc in
          match i2 with
          | None => free_desc i0 ;;; free_desc i1 ;;; ret None
          | Some i2 => ret (Some (i0, i1, i2))
          end
      end
  end.

(** Wait until three descriptors are free. *)
Definition alloc3_wait : M st (nat * nat * nat) :=
  loop (fun _ : unit =>
    let* r := alloc3_desc in
    match r with
    | Some idx => ret (inr idx)
    | None => sleep ChDiskFree VdiskLock ;;; ret (inl tt)
    end) tt.

Definition virtio_disk_rw (b : nat) (write : bool) : M st unit :=
  let* bn := gets (fun s => b_blockno (bc_buf (s_bc s) b)) in
  let sector := u32 (bn * (BSIZE / 512)) in
  lock_ VdiskLock ;;;
  let* idx := alloc3_wait in
  let '(i0, i1, i2) := idx in
  let type := if write then VIRTIO_BLK_T_OUT else VIRTIO_BLK_T_IN in
  let* me := curproc in
  let* ks := getp me kstack in
  let* pa := zoom (kvmpa (ks + buf0_off)) in
  set_desc i0 (fun _ => mkdesc (DmaHdr pa type sector) 16 VRING_DESC_F_NEXT (Z.of_nat i1)) ;;;
  set_desc i1 (fun _ => mkdesc (DmaData b) BSIZE
    (Z.lor (if write then 0 else VRING_DESC_F_WRITE) VRING_DESC_F_NEXT) (Z.of_nat i2)) ;;;
  set_vd (fun d => set_vd_info_status (fupd (vd_info_status d) i0 0) d) ;;;
  set_desc i2 (fun _ => mkdesc (DmaStatus i0) 1 VRING_DESC_F_WRITE 0) ;;;
  set_buf b (set_b_disk 1) ;;;
  set_vd (fun d => set_vd_info_b (fupd (vd_info_b d) i0 (Some b)) d) ;;;
  set_vd (fun d => set_vd_avail
    (fupd (vd_avail d) (2 + vd_avail d 1 mod Z.of_nat NUM) (Z.of_nat i0)) d) ;;;
  set_vd (fun d => set_vd_avail (fupd (vd_avail d) 1 (u16 (vd_avail d 1 + 1))) d) ;;;
  vwrite VIRTIO_MMIO_QUEUE_NOTIFY 0 ;;;
  loop (fun _ : unit =>
    let* dk := gets (fun s => b_disk (bc_buf (s_bc s) b)) in
    if dk =? 1 then sleep (ChBuf b) VdiskLock ;;; ret (inl tt)
    else ret (inr tt)) tt ;;;
  set_vd (fun d => set_vd_info_b (fupd (vd_info_b d) i0 None) d) ;;;
  free_chain i0 ;;;
  unlock_ VdiskLock.

Definition virtio_disk_intr : M st unit :=
  lock_ VdiskLock ;;;
  loop (fun _ : unit =>
    let* d := gets s_vd in
    if negb (vd_used_idx d mod Z.of_nat NUM =? vd_used_id d mod Z.of_nat NUM) then
      let id := Z.to_nat (vd_used_elems d (vd_used_idx d)) in
      if negb (vd_info_status d id =? 0) then panic "virtio_disk_intr status"
      else
        match vd_info_b d id with
        | None => undefined "disk.info[id].b is null"
        | Some b =>
            set_buf b (set_b_disk 0) ;;;
            wakeup (ChBuf b) ;;;
            set_vd (fun d => set_vd_used_idx ((vd_used_idx d + 1) mod Z.of_nat NUM) d) ;;;
            ret (inl tt)
        end
    else ret (inr tt)) tt ;;;
  let* v := vread VIRTIO_MMIO_INTERRUPT_STATUS in
  vwrite VIRTIO_MMIO_INTERRUPT_ACK (Z.land v 0x3) ;;;
  unlock_ VdiskLock.

End Virtio.
