(* ===== verification/Bio.v ===== *)
(** The block cache (kernel/bio.c).

    The cache is a client of a block device: [BlockDev] is the driver's
    virtio_disk_rw(), and its laws say what a read and a write do.  The
    driver of Virtio.v is one implementation. *)

From stdpp Require Import base tactics list strings.
From Stdlib Require Import ZArith Lia FunctionalExtensionality.
From coqutil Require Import Byte.
From S2P Require Import Prelude Riscv Mem Core Spinlock Kalloc Vm State Csr Proc Sched Sleeplock Virtio.

Local Open Scope Z_scope.
Local Open Scope kern_scope.

(** ** The interface of the driver *)

Class BlockDev := { disk_rw : nat -> bool -> M st unit }.

(** ** Operations *)

Definition zero_block : list byte := List.repeat Byte.x00 (Z.to_nat BSIZE).

Section Bio.
Context `{KernelImage} `{World} `{Symbols} `{BlockDev}.

Definition set_bcache (f : bcache -> bcache) : M st unit := modify (fun s => set_s_bc (f (s_bc s)) s).

Definition getb_ {A} (b : nat) (f : buf -> A) : M st A := gets (fun s => f (bc_buf (s_bc s) b)).

(** b->next and b->prev, where b may be the list head. *)
Definition next_of (bc : bcache) (b : bref) : bref :=
  match b with None => bc_hnext bc | Some i => b_next (bc_buf bc i) end.
Definition prev_of (bc : bcache) (b : bref) : bref :=
  match b with None => bc_hprev bc | Some i => b_prev (bc_buf bc i) end.
Definition put_next (b v : bref) (bc : bcache) : bcache :=
  match b with
  | None => set_bc_hnext v bc
  | Some i => set_bc_buf (fupd (bc_buf bc) i (set_b_next v (bc_buf bc i))) bc
  end.
Definition put_prev (b v : bref) (bc : bcache) : bcache :=
  match b with
  | None => set_bc_hprev v bc
  | Some i => set_bc_buf (fupd (bc_buf bc) i (set_b_prev v (bc_buf bc i))) bc
  end.

Definition binit : M st unit :=
  zoom (initlock BcacheLock) ;;;
  set_bcache (put_prev None None) ;;;
  set_bcache (put_next None None) ;;;
  forM (seq 0 NBUF) (fun b =>
    set_bcache (fun bc => put_next (Some b) (next_of bc None) bc) ;;;
    set_bcache (put_prev (Some b) None) ;;;
    initsleeplock (BufLock b) ;;;
    set_bcache (fun bc => put_prev (next_of bc None) (Some b) bc) ;;;
    set_bcache (put_next None (Some b))).

(** The two searches of bget(). *)
Definition bget_cached (dev blockno : Z) : M st (option nat) :=
  let* b := gets (fun s => next_of (s_bc s) None) in
  loop (fun b : bref =>
    match b with
    | None => ret (inr None)
    | Some i =>
        let* x := getb_ i (fun x => x) in
        if (b_dev x =? dev) && (b_blockno x =? blockno) then ret (inr (Some i))
        else ret (inl (b_next x))
    end) b.

Definition bget_unused : M st (option nat) :=
  let* b := gets (fun s => prev_of (s_bc s) None) in
  loop (fun b : bref =>
    match b with
    | None => ret (inr None)
    | Some i =>
        let* x := getb_ i (fun x => x) in
        if b_refcnt x =? 0 then ret (inr (Some i))
        else ret (inl (b_prev x))
    end) b.

Definition bget (dev blockno : Z) : M st nat :=
  lock_ BcacheLock ;;;
  let* r := bget_cached dev blockno in
  match r with
  | Some b =>
      set_buf b (fun x => set_b_refcnt (u32 (b_refcnt x + 1)) x) ;;;
      unlock_ BcacheLock ;;;
      acquiresleep (BufLock b) ;;;
      ret b
  | None =>
      let* r := bget_unused in
      match r with
      | Some b =>
          set_buf b (set_b_dev dev) ;;;
          set_buf b (set_b_blockno blockno) ;;;
          set_buf b (set_b_valid 0) ;;;
          set_buf b (set_b_refcnt 1) ;;;
          unlock_ BcacheLock ;;;
          acquiresleep (BufLock b) ;;;
          ret b
      | None => panic "bget: no buffers"
      end
  end.

Definition bread (dev blockno : Z) : M st nat :=
  let* b := bget (u32 dev) (u32 blockno) in
  let* v := getb_ b b_valid in
  when (v =? 0) (disk_rw b false ;;; set_buf b (set_b_valid 1)) ;;;
  ret b.

Definition bwrite (b : nat) : M st unit :=
  let* h := holdingsleep (BufLock b) in
  if negb h then panic "bwrite" else disk_rw b true.

Definition brelse (b : nat) : M st unit :=
  let* h := holdingsleep (BufLock b) in
  if negb h then panic "brelse"
  else
    releasesleep (BufLock b) ;;;
    lock_ BcacheLock ;;;
    set_buf b (fun x => set_b_refcnt (u32 (b_refcnt x - 1)) x) ;;;
    let* n := getb_ b b_refcnt in
    when (n =? 0)
      (set_bcache (fun bc => put_prev (next_of bc (Some b)) (prev_of bc (Some b)) bc) ;;;
       set_bcache (fun bc => put_next (prev_of bc (Some b)) (next_of bc (Some b)) bc) ;;;
       set_bcache (fun bc => put_next (Some b) (next_of bc None) bc) ;;;
       set_bcache (put_prev (Some b) None) ;;;
       set_bcache (fun bc => put_prev (next_of bc None) (Some b) bc) ;;;
       set_bcache (put_next None (Some b))) ;;;
    unlock_ BcacheLock.

Definition bpin (b : nat) : M st unit :=
  lock_ BcacheLock ;;;
  set_buf b (fun x => set_b_refcnt (u32 (b_refcnt x + 1)) x) ;;;
  unlock_ BcacheLock.

Definition bunpin (b : nat) : M st unit :=
  lock_ BcacheLock ;;;
  set_buf b (fun x => set_b_refcnt (u32 (b_refcnt x - 1)) x) ;;;
  unlock_ BcacheLock.

End Bio.
