(* ===== verification/Dll.v ===== *)
(** The LRU list of the block cache: the doubly linked list through the
    prev and next fields of struct buf (kernel/bio.c) refines a list of
    buffer numbers. *)

From stdpp Require Import base tactics list strings.
From Stdlib Require Import ZArith Lia FunctionalExtensionality.
From coqutil Require Import Byte.
From S2P Require Import Prelude Riscv Mem Core Spinlock Kalloc Vm State Csr Proc Sched Sleeplock Virtio Bio.

Local Open Scope Z_scope.
Local Open Scope kern_scope.

(** [seg bc a l z]: following next from [a] visits [l] and then reaches [z],
    and following prev from [z] goes the same way back. *)
Fixpoint seg (bc : bcache) (a : bref) (l : list nat) (z : bref) : Prop :=
  match l with
  | [] => next_of bc a = z /\ prev_of bc z = a
  | i :: l' => next_of bc a = Some i /\ prev_of bc (Some i) = a /\ seg bc (Some i) l' z
  end.

(** The list of the cache, from the head around to the head. *)
Definition dll (bc : bcache) (l : list nat) : Prop := seg bc None l None.

(** ** Reading the links after an update *)

Lemma next_put_next bc a v b : next_of (put_next a v bc) b = if decide (b = a) then v else next_of bc b.
Proof. case_decide as Hd; [subst b; destruct a|destruct a, b]; simpl; rewrite ?fupd_eq, ?fupd_ne by congruence; done. Qed.

Lemma prev_put_prev bc a v b : prev_of (put_prev a v bc) b = if decide (b = a) then v else prev_of bc b.
Proof. case_decide as Hd; [subst b; destruct a|destruct a, b]; simpl; rewrite ?fupd_eq, ?fupd_ne by congruence; done. Qed.

Lemma next_put_prev bc a v b : next_of (put_prev a v bc) b = next_of bc b.
Proof. destruct a as [a|], b as [b|]; simpl; try done. unfold fupd. by case_decide; subst. Qed.

Lemma prev_put_next bc a v b : prev_of (put_next a v bc) b = prev_of bc b.
Proof. destruct a as [a|], b as [b|]; simpl; try done. unfold fupd. by case_decide; subst. Qed.

(** What a buffer holds apart from its links. *)
Definition same_buf (x y : buf) : Prop :=
  b_valid y = b_valid x /\ b_disk y = b_disk x /\ b_dev y = b_dev x /\ b_blockno y = b_blockno x /\
  b_refcnt y = b_refcnt x /\ b_data y = b_data x.

Lemma same_buf_refl x : same_buf x x.
Proof. done. Qed.

Lemma same_buf_trans x y z : same_buf x y -> same_buf y z -> same_buf x z.
Proof. unfold same_buf. intuition congruence. Qed.

Lemma same_put_next bc a v b : same_buf (bc_buf bc b) (bc_buf (put_next a v bc) b).
Proof. destruct a as [a|]; simpl; [|done]. unfold fupd. by case_decide; subst. Qed.

Lemma same_put_prev bc a v b : same_buf (bc_buf bc b) (bc_buf (put_prev a v bc) b).
Proof. destruct a as [a|]; simpl; [|done]. unfold fupd. by case_decide; subst. Qed.

#[export] Hint Rewrite next_put_next prev_put_prev next_put_prev prev_put_next : xv6.

(** ** Segments *)

(** A segment depends on the next of [a] and of its elements, and on the prev of
    its elements and of [z]. *)
Lemma seg_frame bc bc' a l z :
  seg bc a l z ->
  (forall x, x = a \/ x ∈ Some <$> l -> next_of bc' x = next_of bc x) ->
  (forall x, x = z \/ x ∈ Some <$> l -> prev_of bc' x = prev_of bc x) ->
  seg bc' a l z.
Proof.
  revert a. induction l as [|i l IH]; intros a; cbn [seg].
  - intros [? ?] Hn Hp. rewrite Hn, Hp by (by left). done.
  - intros (? & ? & ?) Hn Hp. rewrite Hn by (by left). rewrite Hp by (right; by left).
    split_and!; [done|done|]. apply IH; [done| |].
    + intros x [->|Hx]; apply Hn; right; [by left|by right].
    + intros x [->|Hx]; apply Hp; [by left|right; by right].
Qed.

Lemma seg_app bc a l1 i l2 z :
  seg bc a (l1 ++ i :: l2) z <-> seg bc a l1 (Some i) /\ seg bc (Some i) l2 z.
Proof. revert a. induction l1 as [|j l1 IH]; intros a; cbn [seg app]; [tauto|]. rewrite IH. tauto. Qed.

(** The element before [z], and the one after [a]. *)
Lemma seg_prev bc a l z : seg bc a l z -> prev_of bc z = default a (Some <$> last l).
Proof.
  revert a. induction l as [|i l IH]; intros a; cbn [seg]; [intros [_ E]; exact E|].
  intros (_ & _ & Hs). rewrite (IH _ Hs). destruct l as [|j l]; [done|].
  cbn [last]. by destruct (last_is_Some (j :: l)) as [_ [x ->]].
Qed.

Lemma seg_next bc a l z : seg bc a l z -> next_of bc a = default z (Some <$> head l).
Proof. destruct l; cbn [seg]; intros (E & _); exact E. Qed.

Lemma seg_next_head bc a l : seg bc a l None -> next_of bc a = head l.
Proof. intros E. rewrite (seg_next _ _ _ _ E). by destruct l. Qed.

Lemma elem_fmap_Some (l : list nat) (x : bref) : x ∈ Some <$> l <-> exists i, x = Some i /\ i ∈ l.
Proof. rewrite list_elem_of_fmap. naive_solver. Qed.

Lemma option_default_last (l : list nat) : default None (Some <$> last l) = last l.
Proof. by destruct (last l). Qed.

Lemma fmap_last_default a (l : list nat) : default a (Some <$> last l) = a \/ exists i, i ∈ l /\ default a (Some <$> last l) = Some i.
Proof.
  destruct (last l) as [i|] eqn:E; [|by left]. right. exists i. split; [|done].
  by apply last_Some_elem_of.
Qed.

(** ** Moving a buffer to the front *)

Definition unlink (b : nat) (bc : bcache) : bcache :=
  let bc := put_prev (next_of bc (Some b)) (prev_of bc (Some b)) bc in
  put_next (prev_of bc (Some b)) (next_of bc (Some b)) bc.

Definition push_front (b : nat) (bc : bcache) : bcache :=
  let bc := put_next (Some b) (next_of bc None) bc in
  let bc := put_prev (Some b) None bc in
  let bc := put_prev (next_of bc None) (Some b) bc in
  put_next None (Some b) bc.

(** The end of a segment can be tied to another place [w]. *)
Lemma seg_relink bc bc' a l z w :
  seg bc a l z -> NoDup l -> a ∉ Some <$> l ->
  let p := default a (Some <$> last l) in
  next_of bc' p = w -> prev_of bc' w = p ->
  (forall x, x <> p -> (x = a \/ x ∈ Some <$> l) -> next_of bc' x = next_of bc x) ->
  (forall x, x ∈ Some <$> l -> prev_of bc' x = prev_of bc x) ->
  seg bc' a l w.
Proof.
  intros Hs Hnd Ha p Hn Hp Hfn Hfp. destruct l as [|q l _] using rev_ind; [by split|].
  assert (p = Some q) as -> by (unfold p; by rewrite last_snoc).
  apply seg_app in Hs as [Hs _]. apply NoDup_app in Hnd as (_ & Hq & _).
  rewrite fmap_app in *. apply seg_app. split; [|by split].
  assert (a <> Some q) by (intros ->; apply Ha, elem_of_app; right; by left).
  eapply seg_frame; [exact Hs| |].
  - intros x Hx. apply Hfn; [|destruct Hx; [by left|right; apply elem_of_app; by left]].
    destruct Hx as [->|Hx]; [done|]. intros ->. apply elem_fmap_Some in Hx as (j & [= <-] & Hj).
    apply (Hq q); [done|by left].
  - intros x [->|Hx]; apply Hfp, elem_of_app; [right; by left|by left].
Qed.

Lemma seg_unlink bc l1 b l2 :
  dll bc (l1 ++ b :: l2) -> NoDup (l1 ++ b :: l2) -> dll (unlink b bc) (l1 ++ l2).
Proof.
  unfold dll. intros [H1 H2]%seg_app Hnd.
  set (p := default None (Some <$> last l1)). set (w := default None (Some <$> head l2)).
  assert (Hp : prev_of bc (Some b) = p) by exact (seg_prev _ _ _ _ H1).
  assert (Hn : next_of bc (Some b) = w) by exact (seg_next _ _ _ _ H2).
  apply NoDup_app in Hnd as (Hnd1 & Hd & [Hb Hnd2]%NoDup_cons).
  assert (Hpl : p = None \/ exists i, i ∈ l1 /\ p = Some i) by apply fmap_last_default.
  assert (Hw : w = None \/ exists i, i ∈ l2 /\ w = Some i).
  { unfold w. destruct l2; [by left|right]. eexists. split; [by left|done]. }
  assert (Hpb : p <> Some b).
  { destruct Hpl as [->|(i & Hi & ->)]; [done|]. intros [= ->]. apply (Hd b); [done|by left]. }
  assert (E : unlink b bc = put_next p w (put_prev w p bc)).
  { unfold unlink. rewrite Hn, Hp, prev_put_prev, next_put_prev, Hn.
    case_decide as Hwb; [|by rewrite Hp]. exfalso.
    destruct Hw as [Hw|(i & Hi & Hw)]; rewrite Hw in Hwb; [done|]. by injection Hwb as ->. }
  assert (Hl1 : seg (unlink b bc) None l1 w).
  { apply (seg_relink bc _ _ _ (Some b)); [done|done|..].
    - rewrite elem_fmap_Some. by intros (? & ? & _).
    - rewrite E, next_put_next. by rewrite decide_True.
    - rewrite E, prev_put_next, prev_put_prev. by rewrite decide_True.
    - intros x Hx _. rewrite E, next_put_next, decide_False by done. apply next_put_prev.
    - intros x (i & -> & Hi)%elem_fmap_Some. rewrite E, prev_put_next, prev_put_prev.
      rewrite decide_False; [done|]. intros Hx. destruct Hw as [Hw|(j & Hj & Hw)]; rewrite Hw in Hx; [done|].
      injection Hx as ->. apply (Hd j); [done|by right]. }
  destruct l2 as [|c l2]; [by rewrite app_nil_r|]. apply seg_app. split; [exact Hl1|].
  destruct H2 as (_ & _ & H2). apply NoDup_cons in Hnd2 as [Hc Hnd2].
  eapply seg_frame; [exact H2| |].
  - intros x Hx. rewrite E, next_put_next, decide_False; [apply next_put_prev|].
    intros ->. destruct Hpl as [Hpl|(i & Hi & Hpl)]; rewrite Hpl in Hx.
    + destruct Hx as [|Hx]; [done|]. apply elem_fmap_Some in Hx as (? & ? & _). done.
    + apply (Hd i); [done|]. right. destruct Hx as [[= ->]|Hx]; [by left|].
      apply elem_fmap_Some in Hx as (? & [= <-] & ?). by right.
  - intros x Hx. rewrite E, prev_put_next, prev_put_prev, decide_False; [done|].
    intros ->. change w with (Some c) in Hx. destruct Hx as [|Hx]; [done|].
    apply elem_fmap_Some in Hx as (? & [= <-] & ?). done.
Qed.

Lemma seg_push_front bc b l : dll bc l -> NoDup (b :: l) -> dll (push_front b bc) (b :: l).
Proof.
  unfold dll. intros Hs [Hb Hnd]%NoDup_cons.
  set (w := default None (Some <$> head l)).
  assert (Hn : next_of bc None = w) by exact (seg_next _ _ _ _ Hs).
  assert (Hwb : w <> Some b) by (unfold w; destruct l; [done|]; intros [= ->]; apply Hb; by left).
  assert (E : push_front b bc =
              put_next None (Some b) (put_prev w (Some b) (put_prev (Some b) None (put_next (Some b) w bc)))).
  { unfold push_front. by rewrite next_put_prev, next_put_next, decide_False, Hn by done. }
  assert (HN : forall x, next_of (push_front b bc) x =
            if decide (x = None) then Some b else if decide (x = Some b) then w else next_of bc x).
  { intros x. rewrite E, next_put_next, !next_put_prev, next_put_next. by repeat case_decide. }
  assert (HP : forall x, prev_of (push_front b bc) x =
            if decide (x = w) then Some b else if decide (x = Some b) then None else prev_of bc x).
  { intros x. rewrite E, prev_put_next, !prev_put_prev, prev_put_next. by repeat case_decide. }
  clear E. cbn [seg]. rewrite HN, HP. rewrite decide_True by done.
  rewrite decide_False by (by intros <-). rewrite decide_True by done. split_and!; [done|done|].
  destruct l as [|c l].
  - split; [rewrite HN|rewrite HP]; [|by rewrite decide_True].
    rewrite decide_False by done. by rewrite decide_True.
  - destruct Hs as (_ & _ & Hs). change w with (Some c) in *. cbn [seg]. rewrite HN, HP.
    assert (c <> b) by (intros ->; apply Hb; by left).
    assert (Hbl : b ∉ l) by (intros ?; apply Hb; by right). apply NoDup_cons in Hnd as [Hc Hnd].
    rewrite decide_False by done. rewrite decide_True by done. rewrite decide_True by done.
    split_and!; [done|done|]. eapply seg_frame; [exact Hs| |].
    + intros x Hx. rewrite HN.
      assert (x <> None /\ x <> Some b) as [??].
      { destruct Hx as [->|(j & -> & ?)%elem_fmap_Some]; [split; congruence|].
        split; [done|]. intros [= ->]. done. }
      by rewrite !decide_False by done.
    + intros x Hx. rewrite HP.
      assert (x <> Some c /\ x <> Some b) as [??].
      { destruct Hx as [->|(j & -> & ?)%elem_fmap_Some]; [done|].
        split; intros [= ->]; done. }
      by rewrite !decide_False by done.
Qed.

(** ** The searches of bget() *)

Section Search.
Context `{KernelImage} `{World} `{Symbols} `{BlockDev}.

Lemma bget_cached_eq dev bn l s :
  dll (s_bc s) l -> Z.of_nat (length l) < 2 ^ 64 ->
  bget_cached dev bn s =
    Ok (find (fun i => (b_dev (bc_buf (s_bc s) i) =? dev) && (b_blockno (bc_buf (s_bc s) i) =? bn)) l) s.
Proof.
  set (f := fun i => _). intros Hd Hl.
  enough (wp (bget_cached dev bn) (fun r s' => r = find f l /\ s' = s) s) as W.
  { apply wp_elim in W as (r & s' & -> & -> & ->). done. }
  unfold bget_cached. apply wp_bind, wp_gets.
  apply (wp_loop _ (fun n a s' => s' = s /\ exists p l2, seg (s_bc s) p l2 None /\ a = head l2 /\
    n = Z.of_nat (length l2) /\ find f l2 = find f l)) with (n := Z.of_nat (length l)).
  - intros n a s' _ (-> & p & l2 & Hs & -> & -> & Hf). destruct l2 as [|i l2]; cbn [head].
    + apply wp_ret. by rewrite <- Hf.
    + unfold getb_. apply wp_bind, wp_gets. fold (f i). destruct Hs as (_ & _ & Hs).
      cbn [find] in Hf. destruct (f i) eqn:E; apply wp_ret; [by rewrite <- Hf|].
      exists (Z.of_nat (length l2)). split; [simpl; lia|]. split; [done|]. exists (Some i), l2.
      split_and!; [done|exact (seg_next_head _ _ _ Hs)|done|done].
  - lia.
  - split; [done|]. exists None, l. split_and!; [done|exact (seg_next_head _ _ _ Hd)|done|done].
Qed.

Lemma bget_unused_eq l s :
  dll (s_bc s) l -> Z.of_nat (length l) < 2 ^ 64 ->
  bget_unused s = Ok (find (fun i => b_refcnt (bc_buf (s_bc s) i) =? 0) (rev l)) s.
Proof.
  set (f := fun i => _). intros Hd Hl.
  enough (wp bget_unused (fun r s' => r = find f (rev l) /\ s' = s) s) as W.
  { apply wp_elim in W as (r & s' & -> & -> & ->). done. }
  unfold bget_unused. apply wp_bind, wp_gets.
  apply (wp_loop _ (fun n a s' => s' = s /\ exists l2 z, seg (s_bc s) None l2 z /\ a = last l2 /\
    n = Z.of_nat (length l2) /\ find f (rev l2) = find f (rev l))) with (n := Z.of_nat (length l)).
  - intros n a s' _ (-> & l2 & z & Hs & -> & -> & Hf). destruct l2 as [|i l2 _] using rev_ind.
    + apply wp_ret. by rewrite <- Hf.
    + rewrite last_snoc. unfold getb_. apply wp_bind, wp_gets. fold (f i).
      apply seg_app in Hs as [Hs _]. rewrite rev_unit in Hf. cbn [find] in Hf.
      destruct (f i) eqn:E; apply wp_ret; [by rewrite <- Hf|].
      exists (Z.of_nat (length l2)). rewrite length_app. split; [simpl; lia|]. split; [done|].
      exists l2, (Some i). split_and!; [done| |done|done].
      rewrite <- (option_default_last l2). exact (seg_prev _ _ _ _ Hs).
  - lia.
  - split; [done|]. exists l, None. split_and!; [done| |done|done].
    rewrite <- (option_default_last l). exact (seg_prev _ _ _ _ Hd).
Qed.
End Search.
