(* ===== verification/Cache.v ===== *)
(** The block cache verified (kernel/bio.c).

    [cache V hs ps lk ...] says that the cache presents the blocks [V]: a
    buffer holds the current contents of its block, and a block without a
    referenced buffer is up to date on the disk.  [hs] are the buffers the
    process has locked, with their block numbers; [ps] the blocks pinned by the
    log; [lk] the buffers whose reference count has been dropped once too
    often.  The rules [bread_ok], [brelse_ok] and so on say what each
    operation does to these. *)

From stdpp Require Import base tactics list strings.
From Stdlib Require Import ZArith Lia FunctionalExtensionality.
From coqutil Require Import Byte.
From S2P Require Import Prelude Riscv Mem Core Spinlock Kalloc Vm State Csr Proc Sched Sleeplock Virtio Bio Dll.

Local Open Scope Z_scope.
Local Open Scope kern_scope.

Definition upd_buf (b : nat) (f : buf -> buf) (bc : bcache) : bcache :=
  set_bc_buf (fupd (bc_buf bc) b (f (bc_buf bc b))) bc.
Definition put_buf (b : nat) (f : buf -> buf) (s : st) : st := set_s_bc (upd_buf b f (s_bc s)) s.

(** ** What the cache expects of the driver *)

(** A read fills the buffer with the block, a write stores the buffer in the
    block; apart from that only the driver's own state changes. *)
Class BlockDevOk `{BlockDev} := {
  disk_ready : vdisk -> kst -> Prop;
  disk_read : forall b s, disk_ready (s_vd s) (s_k s) -> (b < NBUF)%nat ->
    0 <= b_blockno (bc_buf (s_bc s) b) < 2 ^ 31 ->
    exists v h, disk_ready v (s_k s) /\
      disk_rw b false s = Ok tt (set_s_mmio h (set_s_vd v
        (put_buf b (fun x => set_b_disk 0 (set_b_data (s_disk s (b_blockno x)) x)) s)));
  disk_write : forall b s, disk_ready (s_vd s) (s_k s) -> (b < NBUF)%nat ->
    0 <= b_blockno (bc_buf (s_bc s) b) < 2 ^ 31 ->
    let bn := b_blockno (bc_buf (s_bc s) b) in
    let d := b_data (bc_buf (s_bc s) b) in
    exists v h, disk_ready v (s_k s) /\
      disk_rw b true s = Ok tt (set_s_mmio h (set_s_vd v
        (set_s_writes ((bn, d) :: s_writes s) (set_s_disk (fupd (s_disk s) bn d)
          (put_buf b (set_b_disk 0) s)))));
}.

(** ** The state of the cache *)

(** Buffer [b] is for block [bn] of the disk. *)
Definition named (bc : bcache) (b : nat) (bn : Z) : Prop :=
  b_dev (bc_buf bc b) = ROOTDEV /\ b_blockno (bc_buf bc b) = bn.

Definition count (P : Prop) `{Decision P} : Z := if decide P then 1 else 0.

(** The references to a buffer, as a number that may have gone below zero. *)
Definition refs (hs : list (nat * Z)) (ps : list Z) (lk : list nat) (bc : bcache) (b : nat) : Z :=
  count (b ∈ hs.*1) +
  count (b_dev (bc_buf bc b) = ROOTDEV /\ b_blockno (bc_buf bc b) ∈ ps) - count (b ∈ lk).

Record cache (V : Z -> list byte) (hs : list (nat * Z)) (ps : list Z) (lk : list nat)
    (me : Z) (bc : bcache) (sl : nat -> sleeplock) (disk : Z -> list byte) : Prop := {
  ca_list : exists l, dll bc l /\ l ≡ₚ seq 0 NBUF;
  ca_uniq : forall b b' bn, (b < NBUF)%nat -> (b' < NBUF)%nat ->
    named bc b bn -> named bc b' bn -> b = b';
  ca_ref : forall b, (b < NBUF)%nat -> b_refcnt (bc_buf bc b) = u32 (refs hs ps lk bc b);
  ca_held : forall b bn, (b, bn) ∈ hs -> (b < NBUF)%nat /\ named bc b bn /\ sl b = sl_held me;
  ca_nodup : NoDup hs.*1;
  ca_unheld : forall b, (b < NBUF)%nat -> b ∉ hs.*1 -> sl b = sl_free;
  ca_pin : forall bn, bn ∈ ps -> exists b, (b < NBUF)%nat /\ named bc b bn;
  ca_valid : forall b bn, (b < NBUF)%nat -> named bc b bn ->
    b_valid (bc_buf bc b) = 1 /\ b_data (bc_buf bc b) = V bn /\ 0 <= bn < 2 ^ 31;
  ca_clean : forall bn, (forall b, (b < NBUF)%nat -> named bc b bn -> b_refcnt (bc_buf bc b) = 0) ->
    V bn = disk bn;
  ca_len : forall bn, length (disk bn) = Z.to_nat BSIZE;
  ca_vlen : forall bn, length (V bn) = Z.to_nat BSIZE;
}.

(** The invariant of the file system code between two operations. *)
Record bio `{BlockDevOk} (i : nat) (V : Z -> list byte) (hs : list (nat * Z)) (ps : list Z)
    (lk : list nat) (s : st) : Prop := {
  bio_quiet : quiet i (s_core s);
  bio_ready : disk_ready (s_vd s) (s_k s);
  bio_cache : cache V hs ps lk (me i s) (s_bc s) (fun b => s_slock s (BufLock b)) (s_disk s);
}.

(** [s'] is [s] apart from the cache, the driver and the disk. *)
Definition same (s s' : st) : Prop :=
  s' = set_s_bc (s_bc s') (set_s_slock (s_slock s') (set_s_vd (s_vd s') (set_s_mmio (s_mmio s')
         (set_s_disk (s_disk s') (set_s_writes (s_writes s') s))))) /\
  (forall j, s_slock s' (InodeLock j) = s_slock s (InodeLock j)).

(** Nothing was written either. *)
Definition same_disk (s s' : st) : Prop :=
  same s s' /\ s_disk s' = s_disk s /\ s_writes s' = s_writes s.

Lemma same_refl s : same s s.
Proof. split; [by destruct s|done]. Qed.

Lemma same_trans s1 s2 s3 : same s1 s2 -> same s2 s3 -> same s1 s3.
Proof.
  intros [E1 F1] [E2 F2]. split; [|intros; by rewrite F2].
  rewrite E2, E1. by destruct s1.
Qed.

Lemma same_disk_refl s : same_disk s s.
Proof. split; [apply same_refl|done]. Qed.

Lemma same_disk_trans s1 s2 s3 : same_disk s1 s2 -> same_disk s2 s3 -> same_disk s1 s3.
Proof.
  intros (H1 & D1 & W1) (H2 & D2 & W2). split; [by eapply same_trans|]. split; congruence.
Qed.

#[export] Hint Resolve same_refl same_trans same_disk_refl same_disk_trans : xv6.

(** The parts of the state a client relies on. *)
Lemma same_fields s s' :
  same s s' ->
  s_k s' = s_k s /\ s_log s' = s_log s /\ s_sb s' = s_sb s /\ s_ic s' = s_ic s /\
  s_ft s' = s_ft s /\ s_csr s' = s_csr s /\ s_pipe s' = s_pipe s.
Proof. intros [E _]. by rewrite E. Qed.

Lemma same_k s s' : same s s' -> s_k s' = s_k s.
Proof. by intros (? & _)%same_fields. Qed.
Lemma same_log s s' : same s s' -> s_log s' = s_log s.
Proof. by intros (_ & ? & _)%same_fields. Qed.
Lemma same_sb s s' : same s s' -> s_sb s' = s_sb s.
Proof. by intros (_ & _ & ? & _)%same_fields. Qed.
Lemma same_ic s s' : same s s' -> s_ic s' = s_ic s.
Proof. by intros (_ & _ & _ & ? & _)%same_fields. Qed.

(** ** Lemmas *)

Lemma count_range (P : Prop) `{Decision P} : 0 <= count P <= 1.
Proof. unfold count. case_decide; lia. Qed.

Lemma count_true (P : Prop) `{Decision P} : P -> count P = 1.
Proof. intros. unfold count. by rewrite decide_True. Qed.

Lemma count_false (P : Prop) `{Decision P} : ~ P -> count P = 0.
Proof. intros. unfold count. by rewrite decide_False. Qed.

Lemma count_iff (P P' : Prop) `{Decision P, Decision P'} : (P <-> P') -> count P = count P'.
Proof. intros Hi. unfold count. destruct (decide P), (decide P'); tauto. Qed.

(** An update of buffers that keeps the links keeps the list. *)
Lemma seg_same_links bc bc' a l z :
  (forall x, next_of bc' x = next_of bc x) -> (forall x, prev_of bc' x = prev_of bc x) ->
  seg bc a l z -> seg bc' a l z.
Proof. intros Hn Hp Hs. eapply seg_frame; eauto. Qed.

(** [bc'] has the same list and the same blocks in its buffers. *)
Record same_blocks (bc bc' : bcache) : Prop := {
  sb_next : forall x, next_of bc' x = next_of bc x;
  sb_prev : forall x, prev_of bc' x = prev_of bc x;
  sb_dev : forall b, b_dev (bc_buf bc' b) = b_dev (bc_buf bc b);
  sb_blockno : forall b, b_blockno (bc_buf bc' b) = b_blockno (bc_buf bc b);
  sb_valid : forall b, b_valid (bc_buf bc' b) = b_valid (bc_buf bc b);
}.

Lemma upd_buf_same b f bc :
  (forall x, b_next (f x) = b_next x /\ b_prev (f x) = b_prev x /\ b_dev (f x) = b_dev x /\
             b_blockno (f x) = b_blockno x /\ b_valid (f x) = b_valid x) ->
  same_blocks bc (upd_buf b f bc).
Proof.
  intros Hf. split; intros y; try (destruct y; [|done]); cbn; unfold fupd;
    case_decide; subst; try done; cbn; by destruct (Hf (bc_buf bc b)) as (? & ? & ? & ? & ?).
Qed.

Lemma same_named bc bc' b bn : same_blocks bc bc' -> named bc' b bn <-> named bc b bn.
Proof. intros Hs. unfold named. by rewrite (sb_dev _ _ Hs), (sb_blockno _ _ Hs). Qed.

Lemma same_refs bc bc' hs ps lk b : same_blocks bc bc' -> refs hs ps lk bc' b = refs hs ps lk bc b.
Proof. intros Hs. unfold refs. by rewrite (sb_dev _ _ Hs), (sb_blockno _ _ Hs). Qed.

Lemma u32_zero_small z : -1 <= z <= 2 -> u32 z = 0 -> z = 0.
Proof.
  intros Hz E. unfold u32 in E. destruct (decide (z = -1)) as [->|]; [done|].
  rewrite Z.mod_small in E by lia. done.
Qed.

Lemma refs_range hs ps lk bc b : -1 <= refs hs ps lk bc b <= 2.
Proof.
  unfold refs. pose proof (count_range (b ∈ hs.*1)).
  pose proof (count_range (b_dev (bc_buf bc b) = ROOTDEV /\ b_blockno (bc_buf bc b) ∈ ps)).
  pose proof (count_range (b ∈ lk)). lia.
Qed.

Section Cache.
Context `{KernelImage} `{World} `{Symbols} `{BlockDevOk}.

(** ** The operations as equations *)

Lemma lock_quiet lk i s :
  quiet i (s_core s) -> lock_ lk s = Ok tt (set_s_core (acq lk (s_core s)) s).
Proof. intros Hq. apply lock_eq; [apply Hq|apply (q_free _ _ Hq)]. Qed.

Lemma unlock_quiet lk i c s :
  quiet i c -> s_core s = acq lk c -> unlock_ lk s = Ok tt (set_s_core c s).
Proof. intros Hq Hs. apply unlock_eq; [done|apply Hq|apply (q_free _ _ Hq)]. Qed.

(** Updating a buffer under bcache.lock. *)
Lemma locked_set_buf i b f s :
  quiet i (s_core s) ->
  (lock_ BcacheLock ;;; set_buf b f ;;; unlock_ BcacheLock) s = Ok tt (put_buf b f s).
Proof.
  intros Hq. unfold bind. rewrite (lock_quiet _ i) by done. unfold set_buf, modify.
  rewrite (unlock_quiet _ i (s_core s)) by done. by destruct s as [[]].
Qed.

Lemma bpin_eq i b s :
  quiet i (s_core s) ->
  bpin b s = Ok tt (put_buf b (fun x => set_b_refcnt (u32 (b_refcnt x + 1)) x) s).
Proof. intros Hq. by apply (locked_set_buf i). Qed.

Lemma bunpin_eq i b s :
  quiet i (s_core s) ->
  bunpin b s = Ok tt (put_buf b (fun x => set_b_refcnt (u32 (b_refcnt x - 1)) x) s).
Proof. intros Hq. by apply (locked_set_buf i). Qed.

Lemma bget_hit i dev bn l b s :
  quiet i (s_core s) -> dll (s_bc s) l -> Z.of_nat (length l) < 2 ^ 64 ->
  find (fun j => (b_dev (bc_buf (s_bc s) j) =? dev) && (b_blockno (bc_buf (s_bc s) j) =? bn)) l = Some b ->
  sl_locked (s_slock s (BufLock b)) = 0 ->
  bget dev bn s = Ok b (put_sl (BufLock b) (sl_held (me i s))
    (put_buf b (fun x => set_b_refcnt (u32 (b_refcnt x + 1)) x) s)).
Proof.
  intros Hq Hd Hl Hf Hs. unfold bget, bind. rewrite (lock_quiet _ i) by done.
  rewrite (bget_cached_eq _ _ l) by done. cbn [s_bc set_s_core set_s_k]. rewrite Hf.
  unfold set_buf, modify. rewrite (unlock_quiet _ i (s_core s)) by done.
  rewrite (acquiresleep_eq _ i) by done. unfold ret. f_equal. by destruct s as [[]].
Qed.

(** What bget() makes of a recycled buffer. *)
Definition recycled (dev bn : Z) (x : buf) : buf :=
  mkbuf 0 (b_disk x) dev bn 1 (b_prev x) (b_next x) (b_data x).

Lemma bget_miss i dev bn l b s :
  quiet i (s_core s) -> dll (s_bc s) l -> Z.of_nat (length l) < 2 ^ 64 ->
  find (fun j => (b_dev (bc_buf (s_bc s) j) =? dev) && (b_blockno (bc_buf (s_bc s) j) =? bn)) l = None ->
  find (fun j => b_refcnt (bc_buf (s_bc s) j) =? 0) (rev l) = Some b ->
  sl_locked (s_slock s (BufLock b)) = 0 ->
  bget dev bn s = Ok b (put_sl (BufLock b) (sl_held (me i s)) (put_buf b (recycled dev bn) s)).
Proof.
  intros Hq Hd Hl Hf Hu Hs. unfold bget, bind. rewrite (lock_quiet _ i) by done.
  rewrite (bget_cached_eq _ _ l) by done. cbn [s_bc set_s_core set_s_k]. rewrite Hf.
  rewrite (bget_unused_eq l) by done. cbn [s_bc set_s_core set_s_k]. rewrite Hu.
  unfold set_buf, modify. rewrite (unlock_quiet _ i (s_core s)) by done.
  rewrite (acquiresleep_eq _ i) by done. unfold ret. f_equal. destruct s as [[]].
  unfold put_sl, put_buf. cbn. by rewrite !fupd_eq, !fupd_fupd.
Qed.

(** When every buffer is referenced there is no room for another block. *)
Lemma bget_full i dev bn l s :
  quiet i (s_core s) -> dll (s_bc s) l -> Z.of_nat (length l) < 2 ^ 64 ->
  find (fun j => (b_dev (bc_buf (s_bc s) j) =? dev) && (b_blockno (bc_buf (s_bc s) j) =? bn)) l = None ->
  find (fun j => b_refcnt (bc_buf (s_bc s) j) =? 0) (rev l) = None ->
  bget dev bn s = Panic "bget: no buffers".
Proof.
  intros Hq Hd Hl Hf Hu. unfold bget, bind. rewrite (lock_quiet _ i) by done.
  rewrite (bget_cached_eq _ _ l) by done. cbn [s_bc set_s_core set_s_k]. rewrite Hf.
  rewrite (bget_unused_eq l) by done. cbn [s_bc set_s_core set_s_k]. by rewrite Hu.
Qed.

(** brelse() of a buffer this process has locked. *)
Definition released (b : nat) (s : st) : st :=
  let s := put_buf b (fun x => set_b_refcnt (u32 (b_refcnt x - 1)) x) (put_sl (BufLock b) sl_free s) in
  if b_refcnt (bc_buf (s_bc s) b) =? 0 then set_s_bc (push_front b (unlink b (s_bc s))) s else s.

Lemma brelse_eq i b s :
  quiet i (s_core s) -> s_slock s (BufLock b) = sl_held (me i s) -> brelse b s = Ok tt (released b s).
Proof.
  intros Hq Hl. unfold brelse, bind. rewrite (holdingsleep_eq _ i) by done. rewrite Hl. cbn [sl_held sl_locked sl_pid].
  rewrite Z.eqb_refl. cbn [negb andb Z.eqb]. rewrite (releasesleep_eq _ i) by done.
  rewrite (lock_quiet _ i) by done. unfold set_buf, modify, getb_, gets, when, released.
  cbn [s_core set_s_core set_s_k s_k k_core set_core s_bc set_s_bc bc_buf set_bc_buf put_buf upd_buf put_sl].
  rewrite !fupd_eq. destruct (_ =? 0).
  - unfold set_bcache, modify. rewrite (unlock_quiet _ i (s_core s)) by done.
    by destruct s as [[]].
  - unfold ret. rewrite (unlock_quiet _ i (s_core s)) by done. by destruct s as [[]].
Qed.
End Cache.

(** ** How the state of the cache changes *)

(** The buffers keep their blocks; the contents, the counts and the locks
    may change. *)
Lemma cache_change V V' hs hs' ps ps' lk lk' me bc bc' sl sl' disk disk' :
  cache V hs ps lk me bc sl disk -> same_blocks bc bc' ->
  (forall b, (b < NBUF)%nat -> b_refcnt (bc_buf bc' b) = u32 (refs hs' ps' lk' bc b)) ->
  (forall b bn, (b, bn) ∈ hs' -> (b < NBUF)%nat /\ named bc b bn /\ sl' b = sl_held me) ->
  NoDup hs'.*1 ->
  (forall b, (b < NBUF)%nat -> b ∉ hs'.*1 -> sl' b = sl_free) ->
  (forall bn, bn ∈ ps' -> exists b, (b < NBUF)%nat /\ named bc b bn) ->
  (forall b bn, (b < NBUF)%nat -> named bc b bn -> b_data (bc_buf bc' b) = V' bn) ->
  (forall bn, (forall b, (b < NBUF)%nat -> named bc b bn -> b_refcnt (bc_buf bc' b) = 0) -> V' bn = disk' bn) ->
  (forall bn, length (disk' bn) = Z.to_nat BSIZE) -> (forall bn, length (V' bn) = Z.to_nat BSIZE) ->
  cache V' hs' ps' lk' me bc' sl' disk'.
Proof.
  intros Hc Hs Hr Hh Hnd Hu Hp Hd Hcl Hlen Hvlen. split; try done.
  - destruct (ca_list _ _ _ _ _ _ _ _ Hc) as (l & Hl & Hperm). exists l. split; [|done].
    eapply seg_same_links; [apply Hs|apply Hs|exact Hl].
  - intros b b' bn Hb Hb' H1 H2. rewrite same_named in H1, H2 by done.
    by eapply (ca_uniq _ _ _ _ _ _ _ _ Hc).
  - intros b Hb. by rewrite (same_refs _ _ _ _ _ _ Hs), Hr.
  - intros b bn Hin. rewrite same_named by done. by apply Hh.
  - intros bn Hin. destruct (Hp bn Hin) as (b & ? & ?). exists b. by rewrite same_named.
  - intros b bn Hb Hn. rewrite same_named in Hn by done.
    destruct (ca_valid _ _ _ _ _ _ _ _ Hc b bn Hb Hn) as (? & _ & ?).
    rewrite (sb_valid _ _ Hs). split_and!; [done|by apply Hd|lia|lia].
  - intros bn Hall. apply Hcl. intros b Hb Hn. apply Hall; [done|]. by rewrite same_named.
Qed.

(** The buffer a process has locked. *)
Lemma held_unique V hs ps lk me bc sl disk b bn bn' :
  cache V hs ps lk me bc sl disk -> (b, bn) ∈ hs -> (b, bn') ∈ hs -> bn = bn'.
Proof.
  intros Hc H1 H2. destruct (ca_held _ _ _ _ _ _ _ _ Hc _ _ H1) as (_ & [_ E1] & _).
  destruct (ca_held _ _ _ _ _ _ _ _ Hc _ _ H2) as (_ & [_ E2] & _). congruence.
Qed.

Lemma held_fst (hs : list (nat * Z)) b : b ∈ hs.*1 <-> exists bn, (b, bn) ∈ hs.
Proof.
  rewrite list_elem_of_fmap. split.
  - intros ([b' bn] & -> & ?). by exists bn.
  - intros [bn ?]. by exists (b, bn).
Qed.

(** Leaked buffers are not in use. *)
Definition settled (hs : list (nat * Z)) (ps : list Z) (lk : list nat) (bc : bcache) : Prop :=
  forall b, b ∈ lk -> (b ∉ hs.*1) /\ forall bn, named bc b bn -> bn ∉ ps.

(** The buffer for block [bn], if there is one. *)
Definition lookup_buf (bc : bcache) (bn : Z) : option nat :=
  find (fun b => (b_dev (bc_buf bc b) =? ROOTDEV) && (b_blockno (bc_buf bc b) =? bn)) (seq 0 NBUF).

Lemma named_eqb bc b bn :
  (b_dev (bc_buf bc b) =? ROOTDEV) && (b_blockno (bc_buf bc b) =? bn) = true <-> named bc b bn.
Proof. unfold named. by rewrite andb_true_iff, !Z.eqb_eq. Qed.

Lemma free_buffer V hs ps lk me bc sl disk :
  cache V hs ps lk me bc sl disk -> (length hs + length ps + length lk < NBUF)%nat ->
  exists b, (b < NBUF)%nat /\ (b ∉ hs.*1) /\ (b ∉ lk) /\ forall bn, named bc b bn -> bn ∉ ps.
Proof.
  intros Hc Hlen. set (busy := hs.*1 ++ lk ++ omap (lookup_buf bc) ps).
  destruct (find (fun b => negb (bool_decide (b ∈ busy))) (seq 0 NBUF)) as [b|] eqn:E.
  - apply find_some in E as [Hb Hn]. apply in_seq in Hb. bools.
    exists b. split; [lia|]. unfold busy in Hn. rewrite !elem_of_app in Hn.
    split_and!; [tauto|tauto|]. intros bn Hnm Hin. apply Hn. right. right.
    apply list_elem_of_omap. exists bn. split; [done|]. unfold lookup_buf.
    destruct (find _ (seq 0 NBUF)) as [b'|] eqn:E'.
    + apply find_some in E' as [Hb' Hn']. apply in_seq in Hb'. apply named_eqb in Hn'. f_equal.
      eapply (ca_uniq _ _ _ _ _ _ _ _ Hc); [lia|lia|exact Hn'|exact Hnm].
    + exfalso. eapply find_none in E'; [|apply in_seq; split; [lia|]; exact (proj2 Hb)].
      apply named_eqb in Hnm. congruence.
  - exfalso. assert (Hsub : seq 0 NBUF ⊆+ busy).
    { apply NoDup_submseteq; [apply NoDup_seq|]. intros b Hb.
      eapply find_none in E; [|by apply list_elem_of_In]. by bools. }
    apply submseteq_length in Hsub. unfold busy in Hsub.
    rewrite length_seq, !length_app, length_fmap in Hsub.
    assert (length (omap (lookup_buf bc) ps) <= length ps)%nat.
    { clear. induction ps as [|x ps IH]; [done|]. csimpl. destruct (lookup_buf bc x); csimpl; lia. }
    lia.
Qed.

Lemma u32_add_l a b : u32 (u32 a + b) = u32 (a + b).
Proof. unfold u32. by rewrite Zplus_mod_idemp_l. Qed.

Lemma u32_sub_l a b : u32 (u32 a - b) = u32 (a - b).
Proof. unfold u32. by rewrite Zminus_mod_idemp_l. Qed.

(** A reference more, a lock taken. *)
Lemma cache_hit V hs ps lk me bc sl disk b bn :
  cache V hs ps lk me bc sl disk -> (b < NBUF)%nat -> named bc b bn -> b ∉ hs.*1 -> b ∉ lk ->
  cache V ((b, bn) :: hs) ps lk me
    (upd_buf b (fun x => set_b_refcnt (u32 (b_refcnt x + 1)) x) bc) (fupd sl b (sl_held me)) disk.
Proof.
  intros Hc Hb Hn Hh Hlk. eapply cache_change; [exact Hc|by apply upd_buf_same|..].
  - intros b' Hb'. cbn. unfold fupd. case_decide as E.
    + subst b'. cbn. rewrite (ca_ref _ _ _ _ _ _ _ _ Hc) by done. rewrite u32_add_l. f_equal.
      unfold refs. rewrite fmap_cons, (count_false (b ∈ hs.*1)), (count_true (b ∈ _ :: _)) by (done || by left). lia.
    + rewrite (ca_ref _ _ _ _ _ _ _ _ Hc) by done. f_equal. unfold refs. do 2 f_equal.
      apply count_iff. rewrite fmap_cons, elem_of_cons. cbn [fst]. tauto.
  - intros b' bn' [[= -> ->]|Hin]%elem_of_cons.
    + by rewrite fupd_eq.
    + destruct (ca_held _ _ _ _ _ _ _ _ Hc b' bn' Hin) as (? & ? & ?).
      rewrite fupd_ne; [done|]. intros ->. apply Hh, held_fst. eauto.
  - rewrite fmap_cons. by apply NoDup_cons; split; [|apply (ca_nodup _ _ _ _ _ _ _ _ Hc)].
  - intros b' Hb' Hn'. rewrite fmap_cons, elem_of_cons in Hn'. rewrite fupd_ne by tauto.
    apply (ca_unheld _ _ _ _ _ _ _ _ Hc); tauto.
  - apply (ca_pin _ _ _ _ _ _ _ _ Hc).
  - intros b' bn' Hb' Hn'. cbn. unfold fupd. destruct (ca_valid _ _ _ _ _ _ _ _ Hc b' bn' Hb' Hn') as (_ & E & _).
    case_decide; subst; done.
  - intros bn' Hall. destruct (decide (bn' = bn)) as [->|Hne].
    + exfalso. specialize (Hall b Hb Hn). cbn in Hall. rewrite fupd_eq in Hall. cbn in Hall.
      rewrite (ca_ref _ _ _ _ _ _ _ _ Hc), u32_add_l in Hall by done. unfold refs in Hall.
      rewrite (count_false (b ∈ hs.*1)), (count_false (b ∈ lk)) in Hall by done.
      match type of Hall with context [count ?P] => pose proof (count_range P) end.
      rewrite u32_small in Hall; lia.
    + apply (ca_clean _ _ _ _ _ _ _ _ Hc). intros b' Hb' Hn'. specialize (Hall b' Hb' Hn').
      cbn in Hall. rewrite fupd_ne in Hall; [done|]. intros ->. destruct Hn, Hn'. congruence.
  - apply (ca_len _ _ _ _ _ _ _ _ Hc).
  - apply (ca_vlen _ _ _ _ _ _ _ _ Hc).
Qed.

(** A buffer newly filled with block [bn]. *)
Definition filled (bn : Z) (d : list byte) (x : buf) : buf :=
  mkbuf 1 0 ROOTDEV bn 1 (b_prev x) (b_next x) d.

Lemma upd_buf_links b f bc :
  (forall x, b_next (f x) = b_next x /\ b_prev (f x) = b_prev x) ->
  (forall x, next_of (upd_buf b f bc) x = next_of bc x) /\
  (forall x, prev_of (upd_buf b f bc) x = prev_of bc x).
Proof.
  intros Hf. split; intros [y|]; try done; cbn; unfold fupd; case_decide; subst; try done;
    by destruct (Hf (bc_buf bc b)).
Qed.

Lemma named_upd_ne b f bc b' bn : b' <> b -> named (upd_buf b f bc) b' bn <-> named bc b' bn.
Proof. intros. unfold named. cbn. by rewrite fupd_ne. Qed.

Lemma named_filled b bn d bc bn' : named (upd_buf b (filled bn d) bc) b bn' <-> bn' = bn.
Proof. unfold named. cbn. rewrite fupd_eq. cbn. split; [by intros [_ ->]|by intros ->]. Qed.

Lemma cache_recycle V hs ps lk me bc sl disk b bn :
  cache V hs ps lk me bc sl disk -> (b < NBUF)%nat -> b_refcnt (bc_buf bc b) = 0 -> b ∉ hs.*1 -> b ∉ lk ->
  (forall bn', named bc b bn' -> bn' ∉ ps) -> (forall b', (b' < NBUF)%nat -> ~ named bc b' bn) ->
  0 <= bn < 2 ^ 31 ->
  cache V ((b, bn) :: hs) ps lk me (upd_buf b (filled bn (disk bn)) bc) (fupd sl b (sl_held me)) disk.
Proof.
  intros Hc Hb H0 Hh Hlk Hps Hun Hbn.
  assert (Hnp : bn ∉ ps).
  { intros Hin. destruct (ca_pin _ _ _ _ _ _ _ _ Hc bn Hin) as (b' & ? & ?). by eapply Hun. }
  assert (Hne : forall b' bn', (b', bn') ∈ hs -> b' <> b).
  { intros b' bn' Hin ->. apply Hh, held_fst. eauto. }
  split.
  - destruct (ca_list _ _ _ _ _ _ _ _ Hc) as (l & Hl & Hperm). exists l. split; [|done].
    destruct (upd_buf_links b (filled bn (disk bn)) bc) as [??]; [done|].
    by eapply seg_same_links.
  - intros b1 b2 bn' Hb1 Hb2 H1 H2.
    destruct (decide (b1 = b)) as [->|N1], (decide (b2 = b)) as [->|N2]; [done|..].
    + apply named_filled in H1 as ->. apply named_upd_ne in H2; [|done]. by apply Hun in H2.
    + apply named_filled in H2 as ->. apply named_upd_ne in H1; [|done]. by apply Hun in H1.
    + apply named_upd_ne in H1, H2; [|done..]. by eapply (ca_uniq _ _ _ _ _ _ _ _ Hc).
  - intros b' Hb'. unfold refs. cbn. unfold fupd. case_decide as E.
    + subst b'. cbn. rewrite (count_true (b ∈ b :: hs.*1)), (count_false (b ∈ lk)) by (done || by left).
      rewrite count_false by tauto. done.
    + rewrite (ca_ref _ _ _ _ _ _ _ _ Hc) by done. unfold refs. do 3 f_equal. apply count_iff.
      rewrite elem_of_cons. tauto.
  - intros b' bn' [[= -> ->]|Hin]%elem_of_cons.
    + rewrite fupd_eq. split_and!; [done|by apply named_filled|done].
    + destruct (ca_held _ _ _ _ _ _ _ _ Hc b' bn' Hin) as (? & ? & ?). specialize (Hne _ _ Hin).
      rewrite fupd_ne by done. by rewrite named_upd_ne.
  - rewrite fmap_cons. apply NoDup_cons; split; [done|apply (ca_nodup _ _ _ _ _ _ _ _ Hc)].
  - intros b' Hb' Hn'. rewrite fmap_cons, elem_of_cons in Hn'. rewrite fupd_ne by tauto.
    apply (ca_unheld _ _ _ _ _ _ _ _ Hc); tauto.
  - intros bn' Hin. destruct (ca_pin _ _ _ _ _ _ _ _ Hc bn' Hin) as (b' & Hb' & Hn'). exists b'.
    split; [done|]. apply named_upd_ne; [|done]. intros ->. by apply (Hps bn').
  - intros b' bn' Hb' Hn'. cbn. unfold fupd. case_decide as E.
    + subst b'. apply named_filled in Hn' as ->. cbn. split_and!; [done| |lia|lia].
      symmetry. apply (ca_clean _ _ _ _ _ _ _ _ Hc). intros b2 Hb2 Hn2. exfalso. by eapply Hun.
    + apply (ca_valid _ _ _ _ _ _ _ _ Hc); [done|]. by apply named_upd_ne in Hn'.
  - intros bn' Hall. apply (ca_clean _ _ _ _ _ _ _ _ Hc). intros b' Hb' Hn'.
    destruct (decide (b' = b)) as [->|N]; [done|].
    specialize (Hall b' Hb'). rewrite named_upd_ne in Hall by done. specialize (Hall Hn').
    cbn in Hall. by rewrite fupd_ne in Hall.
  - apply (ca_len _ _ _ _ _ _ _ _ Hc).
  - apply (ca_vlen _ _ _ _ _ _ _ _ Hc).
Qed.

(** The contents of a locked buffer change. *)
Lemma cache_data V hs ps lk me bc sl disk b bn f :
  cache V hs ps lk me bc sl disk -> (b, bn) ∈ hs -> b ∉ lk -> length (f (V bn)) = Z.to_nat BSIZE ->
  cache (fupd V bn (f (V bn))) hs ps lk me (upd_buf b (fun x => set_b_data (f (b_data x)) x) bc) sl disk.
Proof.
  intros Hc Hin Hlk Hfl. destruct (ca_held _ _ _ _ _ _ _ _ Hc b bn Hin) as (Hb & Hn & Hsl).
  assert (Href : forall b', b_refcnt (bc_buf (upd_buf b (fun x => set_b_data (f (b_data x)) x) bc) b') =
                            b_refcnt (bc_buf bc b')).
  { intros b'. cbn. unfold fupd. by case_decide; subst. }
  eapply cache_change; [exact Hc|by apply upd_buf_same|..].
  - intros b' Hb'. rewrite Href. by apply (ca_ref _ _ _ _ _ _ _ _ Hc).
  - apply (ca_held _ _ _ _ _ _ _ _ Hc).
  - apply (ca_nodup _ _ _ _ _ _ _ _ Hc).
  - apply (ca_unheld _ _ _ _ _ _ _ _ Hc).
  - apply (ca_pin _ _ _ _ _ _ _ _ Hc).
  - intros b' bn' Hb' Hn'. destruct (ca_valid _ _ _ _ _ _ _ _ Hc b' bn' Hb' Hn') as (_ & E & _).
    cbn. unfold fupd. destruct (decide (b' = b)) as [->|N].
    + assert (bn' = bn) as -> by (destruct Hn, Hn'; congruence). rewrite decide_True by done. cbn. by rewrite E.
    + rewrite decide_False; [done|]. intros ->. apply N. by eapply (ca_uniq _ _ _ _ _ _ _ _ Hc).
  - intros bn' Hall. unfold fupd. case_decide as E; [subst bn'|].
    + exfalso. specialize (Hall b Hb Hn). rewrite Href in Hall.
      rewrite (ca_ref _ _ _ _ _ _ _ _ Hc) in Hall by done. apply u32_zero_small in Hall; [|apply refs_range].
      unfold refs in Hall. rewrite (count_true (b ∈ hs.*1)), (count_false (b ∈ lk)) in Hall by (done || apply held_fst; eauto).
      match type of Hall with context [count ?P] => pose proof (count_range P) end. lia.
    + apply (ca_clean _ _ _ _ _ _ _ _ Hc). intros b' Hb' Hn'. rewrite <- Href. by apply Hall.
  - apply (ca_len _ _ _ _ _ _ _ _ Hc).
  - intros bn'. unfold fupd. case_decide; [done|apply (ca_vlen _ _ _ _ _ _ _ _ Hc)].
Qed.

(** A locked buffer is written to the disk. *)
Lemma cache_write V hs ps lk me bc sl disk b bn :
  cache V hs ps lk me bc sl disk -> (b, bn) ∈ hs ->
  cache V hs ps lk me (upd_buf b (set_b_disk 0) bc) sl (fupd disk bn (V bn)).
Proof.
  intros Hc Hin. destruct (ca_held _ _ _ _ _ _ _ _ Hc b bn Hin) as (Hb & Hn & Hsl).
  assert (Href : forall b', b_refcnt (bc_buf (upd_buf b (set_b_disk 0) bc) b') = b_refcnt (bc_buf bc b')).
  { intros b'. cbn. unfold fupd. by case_decide; subst. }
  eapply cache_change; [exact Hc|by apply upd_buf_same|..].
  - intros b' Hb'. rewrite Href. by apply (ca_ref _ _ _ _ _ _ _ _ Hc).
  - apply (ca_held _ _ _ _ _ _ _ _ Hc).
  - apply (ca_nodup _ _ _ _ _ _ _ _ Hc).
  - apply (ca_unheld _ _ _ _ _ _ _ _ Hc).
  - apply (ca_pin _ _ _ _ _ _ _ _ Hc).
  - intros b' bn' Hb' Hn'. destruct (ca_valid _ _ _ _ _ _ _ _ Hc b' bn' Hb' Hn') as (_ & E & _).
    cbn. unfold fupd. by case_decide; subst.
  - intros bn' Hall. unfold fupd. case_decide as E; [by subst|].
    apply (ca_clean _ _ _ _ _ _ _ _ Hc). intros b' Hb' Hn'. rewrite <- Href. by apply Hall.
  - intros bn'. unfold fupd. case_decide as E; [apply (ca_vlen _ _ _ _ _ _ _ _ Hc)|apply (ca_len _ _ _ _ _ _ _ _ Hc)].
  - apply (ca_vlen _ _ _ _ _ _ _ _ Hc).
Qed.

(** A reordering of the list. *)
Lemma cache_relink V hs ps lk me bc bc' sl disk l :
  cache V hs ps lk me bc sl disk -> (forall b, same_buf (bc_buf bc b) (bc_buf bc' b)) ->
  dll bc' l -> l ≡ₚ seq 0 NBUF -> cache V hs ps lk me bc' sl disk.
Proof.
  intros Hc Hsame Hd Hperm.
  assert (Hnamed : forall b bn, named bc' b bn <-> named bc b bn).
  { intros b bn. unfold named. by destruct (Hsame b) as (_ & _ & -> & -> & _). }
  split.
  - by exists l.
  - intros b b' bn. rewrite !Hnamed. apply (ca_uniq _ _ _ _ _ _ _ _ Hc).
  - intros b Hb. unfold refs. destruct (Hsame b) as (_ & _ & -> & -> & -> & _).
    by apply (ca_ref _ _ _ _ _ _ _ _ Hc).
  - intros b bn. rewrite Hnamed. apply (ca_held _ _ _ _ _ _ _ _ Hc).
  - apply (ca_nodup _ _ _ _ _ _ _ _ Hc).
  - apply (ca_unheld _ _ _ _ _ _ _ _ Hc).
  - intros bn Hin. destruct (ca_pin _ _ _ _ _ _ _ _ Hc bn Hin) as (b & ? & ?). exists b. by rewrite Hnamed.
  - intros b bn Hb. rewrite Hnamed. destruct (Hsame b) as (-> & _ & _ & _ & _ & ->).
    by apply (ca_valid _ _ _ _ _ _ _ _ Hc).
  - intros bn Hall. apply (ca_clean _ _ _ _ _ _ _ _ Hc). intros b Hb Hn.
    destruct (Hsame b) as (_ & _ & _ & _ & <- & _). apply Hall; [done|]. by apply Hnamed.
  - apply (ca_len _ _ _ _ _ _ _ _ Hc).
  - apply (ca_vlen _ _ _ _ _ _ _ _ Hc).
Qed.

Lemma same_move b bc x : same_buf (bc_buf bc x) (bc_buf (push_front b (unlink b bc)) x).
Proof.
  unfold push_front, unlink.
  repeat (eapply same_buf_trans; [|apply same_put_next || apply same_put_prev]).
  apply same_buf_refl.
Qed.

Lemma dll_move bc l b : dll bc l -> NoDup l -> b ∈ l ->
  exists l', dll (push_front b (unlink b bc)) l' /\ l' ≡ₚ l.
Proof.
  intros Hd Hnd (l1 & l2 & ->)%list_elem_of_split. exists (b :: l1 ++ l2). split; [|by rewrite Permutation_middle].
  apply seg_push_front; [by apply seg_unlink|]. by rewrite Permutation_middle.
Qed.

(** The buffers locked apart from [b]. *)
Definition unheld (b : nat) (hs : list (nat * Z)) : list (nat * Z) := filter (fun p => p.1 <> b) hs.

Lemma elem_unheld b hs b' bn : (b', bn) ∈ unheld b hs <-> b' <> b /\ (b', bn) ∈ hs.
Proof. unfold unheld. by rewrite list_elem_of_filter. Qed.

Lemma elem_unheld_fst b hs b' : b' ∈ (unheld b hs).*1 <-> b' <> b /\ b' ∈ hs.*1.
Proof.
  rewrite !held_fst. setoid_rewrite elem_unheld. split; [intros (bn & ? & ?); eauto|intros (? & bn & ?); eauto].
Qed.

Lemma NoDup_unheld b hs : NoDup hs.*1 -> NoDup (unheld b hs).*1.
Proof.
  induction hs as [|[b' bn] hs IH]; [done|]. rewrite fmap_cons. intros [Hn Hnd]%NoDup_cons.
  unfold unheld. rewrite filter_cons. case_decide as E; [|by apply IH].
  rewrite fmap_cons. apply NoDup_cons. split; [|by apply IH].
  intros [? ?]%elem_unheld_fst. done.
Qed.

(** A lock given back, a reference less. *)
Lemma cache_unlock V hs ps lk me bc sl disk b bn :
  cache V hs ps lk me bc sl disk -> (b, bn) ∈ hs -> V bn = disk bn \/ (bn ∈ ps /\ b ∉ lk) ->
  cache V (unheld b hs) ps lk me
    (upd_buf b (fun x => set_b_refcnt (u32 (b_refcnt x - 1)) x) bc) (fupd sl b sl_free) disk.
Proof.
  intros Hc Hin Hclean. destruct (ca_held _ _ _ _ _ _ _ _ Hc b bn Hin) as (Hb & Hn & Hsl).
  assert (Hbh : b ∈ hs.*1) by (apply held_fst; eauto).
  eapply cache_change; [exact Hc|by apply upd_buf_same|..].
  - intros b' Hb'. cbn. unfold fupd. case_decide as E.
    + subst b'. cbn. rewrite (ca_ref _ _ _ _ _ _ _ _ Hc) by done. rewrite u32_sub_l. f_equal.
      unfold refs. rewrite (count_true (b ∈ hs.*1)), (count_false (b ∈ (unheld b hs).*1)); [lia| |done].
      rewrite elem_unheld_fst. tauto.
    + rewrite (ca_ref _ _ _ _ _ _ _ _ Hc) by done. f_equal. unfold refs. do 2 f_equal.
      apply count_iff. rewrite elem_unheld_fst. tauto.
  - intros b' bn' [Hne Hin']%elem_unheld. rewrite fupd_ne by done.
    by apply (ca_held _ _ _ _ _ _ _ _ Hc).
  - apply NoDup_unheld, (ca_nodup _ _ _ _ _ _ _ _ Hc).
  - intros b' Hb' Hn'. destruct (decide (b' = b)) as [->|N]; [by rewrite fupd_eq|].
    rewrite fupd_ne by done. apply (ca_unheld _ _ _ _ _ _ _ _ Hc); [done|].
    intros ?. apply Hn', elem_unheld_fst. done.
  - apply (ca_pin _ _ _ _ _ _ _ _ Hc).
  - intros b' bn' Hb' Hn'. destruct (ca_valid _ _ _ _ _ _ _ _ Hc b' bn' Hb' Hn') as (_ & E & _).
    cbn. unfold fupd. by case_decide; subst.
  - intros bn' Hall. destruct (decide (bn' = bn)) as [->|N].
    + destruct Hclean as [|[Hp Hlk]]; [done|]. exfalso. specialize (Hall b Hb Hn).
      cbn in Hall. rewrite fupd_eq in Hall. cbn in Hall.
      rewrite (ca_ref _ _ _ _ _ _ _ _ Hc), u32_sub_l in Hall by done. unfold refs in Hall.
      destruct Hn as [Hn1 Hn2].
      rewrite (count_true (b ∈ hs.*1)), (count_false (b ∈ lk)), count_true in Hall; [|by rewrite Hn2|done|done].
      done.
    + apply (ca_clean _ _ _ _ _ _ _ _ Hc). intros b' Hb' Hn'. specialize (Hall b' Hb' Hn').
      cbn in Hall. rewrite fupd_ne in Hall; [done|]. intros ->. destruct Hn, Hn'. congruence.
  - apply (ca_len _ _ _ _ _ _ _ _ Hc).
  - apply (ca_vlen _ _ _ _ _ _ _ _ Hc).
Qed.

Lemma u32_sub_inj (z : Z) : -1 <= z <= 2 -> u32 z = 0 <-> z = 0.
Proof. intros Hz. split; [by apply u32_zero_small|by intros ->]. Qed.

(** The references change by pinning or leaking buffer [b]. *)
Lemma cache_recount V hs ps ps' lk lk' me bc sl disk b bn d :
  cache V hs ps lk me bc sl disk -> (b, bn) ∈ hs ->
  (forall b', (b' < NBUF)%nat -> b' <> b -> refs hs ps' lk' bc b' = refs hs ps lk bc b') ->
  refs hs ps' lk' bc b = refs hs ps lk bc b + d ->
  (forall bn', bn' ∈ ps' -> exists b', (b' < NBUF)%nat /\ named bc b' bn') ->
  refs hs ps' lk' bc b <> 0 \/ V bn = disk bn ->
  cache V hs ps' lk' me (upd_buf b (fun x => set_b_refcnt (u32 (b_refcnt x + d)) x) bc) sl disk.
Proof.
  intros Hc Hin Hothers Hb Hpin Hnz. destruct (ca_held _ _ _ _ _ _ _ _ Hc b bn Hin) as (Hbn & Hn & Hsl).
  eapply cache_change; [exact Hc|by apply upd_buf_same|..].
  - intros b' Hb'. cbn. unfold fupd. case_decide as E.
    + subst b'. cbn. rewrite (ca_ref _ _ _ _ _ _ _ _ Hc) by done. by rewrite u32_add_l, Hb.
    + rewrite (ca_ref _ _ _ _ _ _ _ _ Hc) by done. by rewrite Hothers.
  - apply (ca_held _ _ _ _ _ _ _ _ Hc).
  - apply (ca_nodup _ _ _ _ _ _ _ _ Hc).
  - apply (ca_unheld _ _ _ _ _ _ _ _ Hc).
  - done.
  - intros b' bn' Hb' Hn'. destruct (ca_valid _ _ _ _ _ _ _ _ Hc b' bn' Hb' Hn') as (_ & E & _).
    cbn. unfold fupd. by case_decide; subst.
  - intros bn' Hall. destruct (decide (bn' = bn)) as [->|N].
    + destruct Hnz as [Hnz|]; [|done]. exfalso. apply Hnz. specialize (Hall b Hbn Hn).
      cbn in Hall. rewrite fupd_eq in Hall. cbn in Hall.
      rewrite (ca_ref _ _ _ _ _ _ _ _ Hc), u32_add_l, <- Hb in Hall by done.
      apply u32_zero_small in Hall; [done|apply refs_range].
    + apply (ca_clean _ _ _ _ _ _ _ _ Hc). intros b' Hb' Hn'. specialize (Hall b' Hb' Hn').
      cbn in Hall. rewrite fupd_ne in Hall; [done|]. intros ->. destruct Hn, Hn'. congruence.
  - apply (ca_len _ _ _ _ _ _ _ _ Hc).
  - apply (ca_vlen _ _ _ _ _ _ _ _ Hc).
Qed.

(** ** Rules for the clients *)

Section Rules.
Context `{KernelImage} `{World} `{Symbols} `{BlockDevOk}.
Context (i : nat) (V : Z -> list byte) (hs : list (nat * Z)) (ps : list Z) (lk : list nat).

Lemma bio_frame s s' :
  bio i V hs ps lk s -> s_k s' = s_k s -> s_vd s' = s_vd s -> s_bc s' = s_bc s ->
  (forall b, s_slock s' (BufLock b) = s_slock s (BufLock b)) -> s_disk s' = s_disk s ->
  bio i V hs ps lk s'.
Proof.
  intros [Hq Hr Hc] E0 E2 E3 E4 E5. assert (E1 : s_core s' = s_core s) by (unfold s_core; by rewrite E0).
  split; [by rewrite E1|by rewrite E0, E2|].
  unfold me. rewrite E1, E3, E5. replace (fun b => s_slock s' (BufLock b)) with (fun b => s_slock s (BufLock b)); [done|].
  extensionality b. by rewrite E4.
Qed.

Lemma fupd_buflock (f : slock -> sleeplock) b v :
  (fun x => fupd f (BufLock b) v (BufLock x)) = fupd (fun x => f (BufLock x)) b v.
Proof. extensionality x. unfold fupd. repeat case_decide; congruence. Qed.

Lemma held_data b bn s :
  bio i V hs ps lk s -> (b, bn) ∈ hs ->
  (b < NBUF)%nat /\ b_blockno (bc_buf (s_bc s) b) = bn /\ b_data (bc_buf (s_bc s) b) = V bn.
Proof.
  intros Hb Hin. destruct (ca_held _ _ _ _ _ _ _ _ (bio_cache _ _ _ _ _ _ Hb) b bn Hin) as (Hlt & Hn & _).
  destruct (ca_valid _ _ _ _ _ _ _ _ (bio_cache _ _ _ _ _ _ Hb) b bn Hlt Hn) as (_ & E & _).
  split_and!; [done|apply Hn|done].
Qed.

(** The search for block [bn] finds the buffer named [bn]. *)
Lemma find_named bc l bn :
  l ≡ₚ seq 0 NBUF ->
  match find (fun j => (b_dev (bc_buf bc j) =? ROOTDEV) && (b_blockno (bc_buf bc j) =? bn)) l with
  | Some b => (b < NBUF)%nat /\ named bc b bn
  | None => forall b, (b < NBUF)%nat -> ~ named bc b bn
  end.
Proof.
  intros Hp. destruct (find _ l) as [b|] eqn:E.
  - apply find_some in E as [Hin E]. apply named_eqb in E. split; [|done].
    apply list_elem_of_In in Hin. rewrite Hp in Hin. apply elem_of_seq in Hin. lia.
  - intros b Hb Hn. apply named_eqb in Hn. eapply find_none in E; [rewrite Hn in E; done|].
    apply list_elem_of_In. rewrite Hp. apply elem_of_seq. lia.
Qed.

Lemma find_unref bc l :
  l ≡ₚ seq 0 NBUF -> (exists b, (b < NBUF)%nat /\ b_refcnt (bc_buf bc b) = 0) ->
  exists b, find (fun j => b_refcnt (bc_buf bc j) =? 0) (rev l) = Some b /\ (b < NBUF)%nat /\
    b_refcnt (bc_buf bc b) = 0.
Proof.
  intros Hp (b0 & Hb0 & E0). destruct (find _ (rev l)) as [b|] eqn:E.
  - apply find_some in E as [Hin E]. bools. exists b. split_and!; [done| |done].
    apply in_rev, list_elem_of_In in Hin. rewrite Hp in Hin. apply elem_of_seq in Hin. lia.
  - exfalso. eapply find_none in E; [rewrite E0 in E; done|].
    apply -> in_rev. apply list_elem_of_In. rewrite Hp. apply elem_of_seq. lia.
Qed.

(** A buffer with count zero is neither locked, nor pinned, nor leaked. *)
Lemma unref_free me bc sl disk b :
  cache V hs ps lk me bc sl disk -> settled hs ps lk bc -> (b < NBUF)%nat -> b_refcnt (bc_buf bc b) = 0 ->
  (b ∉ hs.*1) /\ (b ∉ lk) /\ forall bn, named bc b bn -> bn ∉ ps.
Proof.
  intros Hc Hs Hb Hrc. rewrite (ca_ref _ _ _ _ _ _ _ _ Hc) in Hrc by done.
  apply u32_zero_small in Hrc; [|apply refs_range]. unfold refs in Hrc.
  destruct (decide (b ∈ lk)) as [Hlk|Hlk].
  - exfalso. destruct (Hs b Hlk) as [Hh Hp]. rewrite (count_true (b ∈ lk)), (count_false (b ∈ hs.*1)) in Hrc by done.
    rewrite count_false in Hrc; [lia|]. intros [Hd Hin]. by apply (Hp _ (conj Hd eq_refl)).
  - rewrite (count_false (b ∈ lk)) in Hrc by done. pose proof (count_range (b ∈ hs.*1)).
    match type of Hrc with context [count (_ /\ _)] => idtac end.
    assert (Hz : count (b ∈ hs.*1) = 0 /\ count (b_dev (bc_buf bc b) = ROOTDEV /\ b_blockno (bc_buf bc b) ∈ ps) = 0).
    { pose proof (count_range (b_dev (bc_buf bc b) = ROOTDEV /\ b_blockno (bc_buf bc b) ∈ ps)). lia. }
    destruct Hz as [Hz1 Hz2]. split_and!; [|done|].
    + intros Hin. by rewrite count_true in Hz1.
    + intros bn [Hd Hbn] Hin. rewrite count_true in Hz2; [done|]. by rewrite Hbn.
Qed.

(** bread() locks the block's buffer, which holds its contents. *)
Lemma bread_ok bn s :
  bio i V hs ps lk s -> settled hs ps lk (s_bc s) -> 0 <= bn < 2 ^ 31 -> bn ∉ hs.*2 ->
  (forall b, b ∈ lk -> ~ named (s_bc s) b bn) ->
  bn ∈ ps \/ (length hs + length ps + length lk < NBUF)%nat ->
  exists b s', bread ROOTDEV bn s = Ok b s' /\ bio i V ((b, bn) :: hs) ps lk s' /\ (b ∉ hs.*1) /\
    (b ∉ lk) /\ same_disk s s' /\
    (forall x bn', x ∈ lk -> named (s_bc s') x bn' <-> named (s_bc s) x bn').
Proof.
  intros [Hq Hr Hc] Hset Hbn Hhs Hlk Hroom. unfold bread.
  rewrite (u32_small bn) by lia. rewrite (u32_small ROOTDEV) by done.
  destruct (ca_list _ _ _ _ _ _ _ _ Hc) as (l & Hl & Hp).
  assert (Hlen : Z.of_nat (length l) < 2 ^ 64) by (rewrite Hp, length_seq; done).
  pose proof (find_named (s_bc s) l bn Hp) as Hfind.
  destruct (find _ l) as [b|] eqn:Ef.
  - destruct Hfind as [Hb Hn].
    assert (Hbh : b ∉ hs.*1).
    { intros [bn' Hin]%held_fst. destruct (ca_held _ _ _ _ _ _ _ _ Hc b bn' Hin) as (_ & [_ En'] & _).
      destruct Hn as [_ En]. apply Hhs, list_elem_of_fmap. exists (b, bn'). split; [simpl; congruence|done]. }
    assert (Hbl : b ∉ lk) by (intros ?; by eapply Hlk).
    exists b. eexists. split.
    { unfold bind. rewrite (bget_hit i _ _ l b); [|done|done|done|done|].
      2: { rewrite (ca_unheld _ _ _ _ _ _ _ _ Hc b); done. }
      unfold getb_, gets. cbn. rewrite fupd_eq. cbn.
      destruct (ca_valid _ _ _ _ _ _ _ _ Hc b bn Hb Hn) as (-> & _). cbn. reflexivity. }
    split_and!; try done.
    + split; [done|done|]. pose proof (cache_hit _ _ _ _ _ _ _ _ _ _ Hc Hb Hn Hbh Hbl) as Hc'.
      cbn. unfold me in *. cbn.
      rewrite fupd_buflock. exact Hc'.
    + intros x bn' Hx. cbn. apply named_upd_ne. by intros ->.
  - destruct Hroom as [Hin|Hroom].
    { exfalso. destruct (ca_pin _ _ _ _ _ _ _ _ Hc bn Hin) as (b & Hb & Hn). by apply (Hfind b). }
    destruct (free_buffer _ _ _ _ _ _ _ _ Hc Hroom) as (b0 & Hb0 & Hh0 & Hl0 & Hp0).
    destruct (find_unref (s_bc s) l Hp) as (b & Eu & Hb & Hrc).
    { exists b0. split; [done|]. rewrite (ca_ref _ _ _ _ _ _ _ _ Hc) by done. unfold refs.
      rewrite (count_false (b0 ∈ hs.*1)), (count_false (b0 ∈ lk)), count_false; [done| |done|done].
      intros [Hd Hin]. by apply (Hp0 _ (conj Hd eq_refl)). }
    destruct (unref_free _ _ _ _ _ Hc Hset Hb Hrc) as (Hbh & Hbl & Hbp).
    assert (Hsl : sl_locked (s_slock s (BufLock b)) = 0) by (rewrite (ca_unheld _ _ _ _ _ _ _ _ Hc b); done).
    set (s1 := put_sl (BufLock b) (sl_held (me i s)) (put_buf b (recycled ROOTDEV bn) s)).
    destruct (disk_read b s1) as (v & h & Hv & Erw); [done|done| |].
    { cbn. rewrite fupd_eq. cbn. lia. }
    exists b. eexists. split.
    { unfold bind. rewrite (bget_miss i _ _ l b) by done. fold s1.
      unfold getb_, gets. cbn [s1 put_sl put_buf s_bc set_s_slock set_s_bc upd_buf bc_buf set_bc_buf].
      rewrite fupd_eq. cbn [recycled b_valid Z.eqb]. unfold when, bind. rewrite Erw.
      unfold set_buf, modify. reflexivity. }
    split_and!; try done.
    + split; [done|done|].
      assert (Hc' := cache_recycle _ _ _ _ _ _ _ _ _ _ Hc Hb Hrc Hbh Hbl Hbp Hfind Hbn).
      unfold me in *. cbn. rewrite !fupd_eq, !fupd_fupd. cbn.
      rewrite fupd_buflock. exact Hc'.
    + intros x bn' Hx. cbn. unfold named. cbn. rewrite !fupd_fupd, fupd_ne; [done|]. by intros ->.
Qed.
Lemma set_buf_data_ok b bn f s :
  bio i V hs ps lk s -> (b, bn) ∈ hs -> b ∉ lk -> length (f (V bn)) = Z.to_nat BSIZE ->
  bio i (fupd V bn (f (V bn))) hs ps lk (put_buf b (fun x => set_b_data (f (b_data x)) x) s).
Proof. intros [Hq Hr Hc] Hin Hlk Hlen. split; [done|done|]. by apply cache_data. Qed.

(** bwrite() stores the block; [s_writes] records it. *)
Lemma bwrite_ok b bn s :
  bio i V hs ps lk s -> (b, bn) ∈ hs ->
  exists s', bwrite b s = Ok tt s' /\ bio i V hs ps lk s' /\ same s s' /\
    s_disk s' = fupd (s_disk s) bn (V bn) /\ s_writes s' = (bn, V bn) :: s_writes s /\
    (forall x bn', named (s_bc s') x bn' <-> named (s_bc s) x bn').
Proof.
  intros Hbio Hin. destruct (held_data _ _ _ Hbio Hin) as (Hb & Ebn & Ed).
  destruct Hbio as [Hq Hr Hc]. destruct (ca_held _ _ _ _ _ _ _ _ Hc b bn Hin) as (_ & Hn & Hsl).
  destruct (ca_valid _ _ _ _ _ _ _ _ Hc b bn Hb Hn) as (_ & _ & Hbn).
  destruct (disk_write b s) as (v & h & Hv & Erw); [done|done|by rewrite Ebn|].
  eexists. split.
  { unfold bwrite, bind. rewrite (holdingsleep_eq _ i) by done. rewrite Hsl. cbn [sl_held sl_locked sl_pid].
    rewrite Z.eqb_refl. cbn [negb andb Z.eqb]. rewrite Erw. reflexivity. }
  rewrite Ebn, Ed. split_and!; try done.
  - split; [done|done|]. by apply cache_write.
  - intros x bn'. apply same_named. by apply upd_buf_same.
Qed.

(** brelse() of a block that is clean or pinned. *)
Lemma brelse_ok b bn s :
  bio i V hs ps lk s -> (b, bn) ∈ hs -> V bn = s_disk s bn \/ (bn ∈ ps /\ b ∉ lk) ->
  exists s', brelse b s = Ok tt s' /\ bio i V (unheld b hs) ps lk s' /\ same_disk s s' /\
    (forall x bn', named (s_bc s') x bn' <-> named (s_bc s) x bn').
Proof.
  intros [Hq Hr Hc] Hin Hcl. destruct (ca_held _ _ _ _ _ _ _ _ Hc b bn Hin) as (Hb & Hn & Hsl).
  assert (Hc' := cache_unlock _ _ _ _ _ _ _ _ _ _ Hc Hin Hcl).
  exists (released b s). split; [by apply (brelse_eq i)|].
  unfold released. set (s1 := put_buf b _ _). rewrite <- fupd_buflock in Hc'.
  assert (Hnm : forall x bn', named (s_bc s1) x bn' <-> named (s_bc s) x bn').
  { intros x bn'. apply same_named. by apply upd_buf_same. }
  destruct (_ =? 0); [|by split_and!].
  destruct (ca_list _ _ _ _ _ _ _ _ Hc') as (l & Hl & Hp).
  destruct (dll_move _ _ b Hl) as (l' & Hl' & Hp').
  { rewrite Hp. apply NoDup_seq. }
  { rewrite Hp. apply elem_of_seq. lia. }
  split_and!; try done.
  - split; [done|done|]. eapply cache_relink; [exact Hc'|apply same_move|exact Hl'|by rewrite Hp'].
  - intros x bn'. rewrite <- Hnm. unfold named. cbn [s_bc set_s_bc].
    by destruct (same_move b (s_bc s1) x) as (_ & _ & -> & -> & _).
Qed.

(** How many references pinning block [bn] adds to a buffer. *)
Lemma refs_pin me bc sl disk b bn b' :
  cache V hs ps lk me bc sl disk -> (b < NBUF)%nat -> (b' < NBUF)%nat -> named bc b bn -> bn ∉ ps ->
  refs hs (bn :: ps) lk bc b' = refs hs ps lk bc b' + (if decide (b' = b) then 1 else 0).
Proof.
  intros Hc Hb Hb' Hn Hp. unfold refs. case_decide as E.
  - subst b'. destruct Hn as [Hd Hbn]. rewrite (count_true (_ /\ _ ∈ bn :: ps)), (count_false (_ /\ _ ∈ ps)); [lia| |].
    + rewrite Hbn. tauto.
    + split; [done|]. rewrite Hbn. by left.
  - rewrite (count_iff (_ /\ _ ∈ bn :: ps) (b_dev (bc_buf bc b') = ROOTDEV /\ b_blockno (bc_buf bc b') ∈ ps)); [lia|].
    rewrite elem_of_cons. split; [|tauto]. intros [Hd [Hbn|]]; [|done]. exfalso. apply E.
    by eapply (ca_uniq _ _ _ _ _ _ _ _ Hc).
Qed.

Lemma bpin_ok b bn s :
  bio i V hs ps lk s -> (b, bn) ∈ hs -> b ∉ lk -> bn ∉ ps ->
  exists s', bpin b s = Ok tt s' /\ bio i V hs (bn :: ps) lk s' /\ same_disk s s' /\
    (forall x bn', named (s_bc s') x bn' <-> named (s_bc s) x bn').
Proof.
  intros [Hq Hr Hc] Hin Hlk Hp. destruct (ca_held _ _ _ _ _ _ _ _ Hc b bn Hin) as (Hb & Hn & Hsl).
  eexists. split; [by apply (bpin_eq i)|]. split_and!; try done.
  - split; [done|done|]. eapply cache_recount; [exact Hc|exact Hin|..].
    + intros b' Hb' N. rewrite (refs_pin _ _ _ _ b bn b' Hc) by done. rewrite decide_False by done. lia.
    + rewrite (refs_pin _ _ _ _ b bn b Hc) by done. by rewrite decide_True.
    + intros bn' [->|Hin']%elem_of_cons; [by exists b|]. by apply (ca_pin _ _ _ _ _ _ _ _ Hc).
    + left. rewrite (refs_pin _ _ _ _ b bn b Hc) by done. rewrite decide_True by done.
      unfold refs. rewrite (count_true (b ∈ hs.*1)), (count_false (b ∈ lk)) by (done || apply held_fst; eauto).
      match goal with |- context [count ?P] => pose proof (count_range P) end. lia.
  - intros x bn'. apply same_named. by apply upd_buf_same.
Qed.

(** The blocks pinned apart from [bn]. *)
Definition unpinned (bn : Z) (ps : list Z) : list Z := filter (fun x => x <> bn) ps.

Lemma refs_unpin me bc sl disk b bn b' :
  cache V hs ps lk me bc sl disk -> (b < NBUF)%nat -> (b' < NBUF)%nat -> named bc b bn -> bn ∈ ps ->
  refs hs (unpinned bn ps) lk bc b' = refs hs ps lk bc b' - (if decide (b' = b) then 1 else 0).
Proof.
  intros Hc Hb Hb' Hn Hp. unfold refs, unpinned. case_decide as E.
  - subst b'. destruct Hn as [Hd Hbn]. rewrite (count_false (_ /\ _ ∈ filter _ ps)), (count_true (_ /\ _ ∈ ps)); [lia| |].
    + by rewrite Hbn.
    + rewrite list_elem_of_filter, Hbn. tauto.
  - rewrite (count_iff (_ /\ _ ∈ filter _ ps) (b_dev (bc_buf bc b') = ROOTDEV /\ b_blockno (bc_buf bc b') ∈ ps)); [lia|].
    rewrite list_elem_of_filter. split; [tauto|]. intros [Hd Hin]. split_and!; [done| |done].
    intros Hbn. apply E. by eapply (ca_uniq _ _ _ _ _ _ _ _ Hc).
Qed.

Lemma bunpin_ok b bn s :
  bio i V hs ps lk s -> (b, bn) ∈ hs -> b ∉ lk -> bn ∈ ps ->
  exists s', bunpin b s = Ok tt s' /\ bio i V hs (unpinned bn ps) lk s' /\ same_disk s s' /\
    (forall x bn', named (s_bc s') x bn' <-> named (s_bc s) x bn').
Proof.
  intros [Hq Hr Hc] Hin Hlk Hp. destruct (ca_held _ _ _ _ _ _ _ _ Hc b bn Hin) as (Hb & Hn & Hsl).
  eexists. split; [by apply (bunpin_eq i)|]. split_and!; try done.
  - split; [done|done|]. eapply (cache_recount _ _ _ _ _ _ _ _ _ _ b bn (-1)); [exact Hc|exact Hin|..].
    + intros b' Hb' N. rewrite (refs_unpin _ _ _ _ b bn b' Hc) by done. rewrite decide_False by done. lia.
    + rewrite (refs_unpin _ _ _ _ b bn b Hc) by done. by rewrite decide_True.
    + intros bn' [? Hin']%list_elem_of_filter. by apply (ca_pin _ _ _ _ _ _ _ _ Hc).
    + left. rewrite (refs_unpin _ _ _ _ b bn b Hc) by done. rewrite decide_True by done.
      unfold refs. rewrite (count_true (b ∈ hs.*1)), (count_false (b ∈ lk)) by (done || apply held_fst; eauto).
      rewrite count_true; [done|]. destruct Hn as [? ->]. done.
  - intros x bn'. apply same_named. by apply upd_buf_same.
Qed.

(** bunpin() of a block that nobody has pinned loses a reference for good. *)
Lemma bunpin_leak b bn s :
  bio i V hs ps lk s -> (b, bn) ∈ hs -> b ∉ lk -> bn ∉ ps -> V bn = s_disk s bn ->
  exists s', bunpin b s = Ok tt s' /\ bio i V hs ps (b :: lk) s' /\ same_disk s s' /\
    (forall x bn', named (s_bc s') x bn' <-> named (s_bc s) x bn').
Proof.
  intros [Hq Hr Hc] Hin Hlk Hp Hcl. destruct (ca_held _ _ _ _ _ _ _ _ Hc b bn Hin) as (Hb & Hn & Hsl).
  eexists. split; [by apply (bunpin_eq i)|]. split_and!; try done.
  - split; [done|done|]. eapply (cache_recount _ _ _ _ _ _ _ _ _ _ b bn (-1)); [exact Hc|exact Hin|..].
    + intros b' Hb' N. unfold refs. rewrite (count_iff (b' ∈ b :: lk) (b' ∈ lk)); [done|].
      rewrite elem_of_cons. tauto.
    + unfold refs. rewrite (count_true (b ∈ b :: lk)), (count_false (b ∈ lk)) by (done || by left). lia.
    + apply (ca_pin _ _ _ _ _ _ _ _ Hc).
    + by right.
  - intros x bn'. apply same_named. by apply upd_buf_same.
Qed.

End Rules.
