(* ===== verification/VirtioOk.v ===== *)
(** The disk driver implements the interface of the block cache: with a device
    that serves requests as the virtio specification says, virtio_disk_rw()
    reads and writes blocks (kernel/virtio_disk.c). *)

From stdpp Require Import base tactics list strings.
From Stdlib Require Import ZArith Lia FunctionalExtensionality.
From coqutil Require Import Byte.
From S2P Require Import Prelude Riscv Mem Core Spinlock Kalloc Vm Pt State Csr Proc Sched Sleeplock Virtio Bio Dll Cache.

Local Open Scope Z_scope.
Local Open Scope kern_scope.

(** ** The device *)

(** The device has put descriptor chain [h] into the used ring, with a good
    status. *)
Definition complete (h : nat) (d : vdisk) : vdisk :=
  set_vd_used_id (u16 (vd_used_id d + 1))
    (set_vd_used_elems (fupd (vd_used_elems d) (vd_used_id d mod Z.of_nat NUM) (Z.of_nat h))
      (set_vd_info_status (fupd (vd_info_status d) h 0) d)).

(** The driver has made one request: chain [h] consists of a header, the data
    of buffer [b], and the status byte. *)
Record posted (d : vdisk) (h : nat) (type sector : Z) (b : nat) : Prop := {
  po_one : vd_avail d 1 = u16 (vd_used_id d + 1);
  po_head : vd_avail d (2 + vd_used_id d mod Z.of_nat NUM) = Z.of_nat h;
  po_chain : exists pa i1 i2 f,
    vd_desc d h = mkdesc (DmaHdr pa type sector) 16 VRING_DESC_F_NEXT (Z.of_nat i1) /\
    vd_desc d i1 = mkdesc (DmaData b) BSIZE f (Z.of_nat i2) /\
    has f VRING_DESC_F_NEXT = true /\ has f VRING_DESC_F_WRITE = (type =? VIRTIO_BLK_T_IN) /\
    vd_desc d i2 = mkdesc (DmaStatus h) 1 VRING_DESC_F_WRITE 0;
}.

Section Device.
Context `{KernelImage} `{World} `{Symbols}.

Class VirtioDevice := {
  device : st -> st;
  device_in : forall s h sector b, posted (s_vd s) h VIRTIO_BLK_T_IN sector b ->
    device s = set_s_vd (complete h (s_vd s)) (put_buf b (set_b_data (s_disk s (sector / 2))) s);
  device_out : forall s h sector b, posted (s_vd s) h VIRTIO_BLK_T_OUT sector b ->
    let d := b_data (bc_buf (s_bc s) b) in
    device s = set_s_vd (complete h (s_vd s))
      (set_s_writes ((sector / 2, d) :: s_writes s) (set_s_disk (fupd (s_disk s) (sector / 2) d) s));
}.

(** While a process waits for the disk, the device serves the request, its
    interrupt is taken on the hart, and as soon as the process is RUNNABLE the
    scheduler switches back to it. *)
Class DiskWorld `{VirtioDevice} := {
  disk_interrupt : forall s s1 c i b,
    s_core s = acq (ProcLock i) c -> calm c -> free (ProcLock i) c -> cproc (ccpu c) = Some i ->
    state (procs c i) = SLEEPING -> chan_ (procs c i) = Some (ChBuf b) ->
    virtio_disk_intr (device (set_s_core c s)) = Ok tt s1 -> state (procs (s_core s1) i) = RUNNABLE ->
    others s = Some (set_s_core (upd_proc i (set_state RUNNING) (acq (ProcLock i) (s_core s1))) s1)
}.
End Device.

Section VirtioOk.
Context `{KernelImage} `{World} `{Symbols} `{!VirtioDevice} `{!DiskWorld}.

(** The driver is idle, and the current process may wait for the disk. *)
Record ready (v : vdisk) (k : kst) : Prop := {
  rd_calm : calm (k_core k);
  rd_noff : noff (ccpu (k_core k)) = 0;
  rd_free : forall lk, free lk (k_core k);
  rd_buf : forall b, no_sleeper (ChBuf b) (k_core k);
  rd_diskfree : no_sleeper ChDiskFree (k_core k);
  rd_cur : exists i a, cproc (ccpu (k_core k)) = Some i /\ (i < NPROC)%nat /\
    state (procs (k_core k) i) = RUNNING /\ chan_ (procs (k_core k) i) = None /\
    let va := kstack (procs (k_core k) i) + buf0_off in
    va < MAXVA /\ slot (k_mem k) (k_kpt k) va = Some a /\ a <> 0 /\ has (load64 (k_mem k) a) PTE_V = true;
  rd_desc : forall j, (j < NUM)%nat -> vd_free v j = true;
  rd_avail : vd_avail v 1 = vd_used_id v;
  rd_id : 0 <= vd_used_id v < 2 ^ 16;
  rd_used : vd_used_idx v = vd_used_id v mod Z.of_nat NUM;
}.

(** ** Descriptors *)

Definition take_desc (j : nat) (d : vdisk) : vdisk := set_vd_free (fupd (vd_free d) j false) d.

Lemma alloc_desc_find l s :
  findM l (fun i =>
    let* f := gets (fun s => vd_free (s_vd s) i) in
    if f : bool then
      set_vd (fun d => set_vd_free (fupd (vd_free d) i false) d) ;;;
      ret (Some i)
    else ret None) s =
  match find (vd_free (s_vd s)) l with
  | Some j => Ok (Some j) (set_s_vd (take_desc j (s_vd s)) s)
  | None => Ok None s
  end.
Proof.
  induction l as [|j l IH]; cbn [findM find]; [done|]. unfold bind at 1 2, gets.
  destruct (vd_free (s_vd s) j); [done|]. unfold ret at 1. exact IH.
Qed.

Lemma alloc3_eq s :
  (forall j, (j < NUM)%nat -> vd_free (s_vd s) j = true) ->
  alloc3_wait s = Ok (0, 1, 2)%nat (set_s_vd (take_desc 2 (take_desc 1 (take_desc 0 (s_vd s)))) s).
Proof.
  intros Hf. apply loop_once.
  unfold bind at 1, alloc3_desc, alloc_desc. unfold bind at 1. rewrite alloc_desc_find.
  cbn [seq NUM find]. rewrite (Hf 0%nat) by (unfold NUM; lia).
  unfold bind at 1. rewrite alloc_desc_find. cbn [s_vd set_s_vd]. cbn [seq NUM find take_desc set_vd_free vd_free].
  rewrite fupd_eq, fupd_ne, (Hf 1%nat) by (unfold NUM; lia).
  unfold bind at 1. rewrite alloc_desc_find. cbn [s_vd set_s_vd]. cbn [seq NUM find take_desc set_vd_free vd_free].
  rewrite fupd_ne, fupd_eq, fupd_eq, !fupd_ne, (Hf 2%nat) by (unfold NUM; lia). done.
Qed.
(** ** sleep() *)

Definition asleep (i : nat) (ch : chan) (c : core) : core :=
  upd_proc i (set_state SLEEPING) (upd_proc i (set_chan (Some ch)) c).

Lemma sched_eq i c c2 s s2 :
  s_core s = acq (ProcLock i) c -> calm c -> noff (ccpu c) = 0 -> cproc (ccpu c) = Some i ->
  state (procs c i) <> RUNNING -> others s = Some s2 -> s_core s2 = acq (ProcLock i) c2 ->
  noff (ccpu c2) = 0 -> sie (ccpu c2) = sie (ccpu c) ->
  sched s = Ok tt s2.
Proof.
  intros Hs Hc Hn Hi Hr Ho Hs2 Hn2 Hsie. unfold sched, bind at 1.
  rewrite (curproc_eq i); [|rewrite Hs; by apply calm_acq|by rewrite Hs].
  assert (Eh : zoom (holding (ProcLock i)) s = Ok true s).
  { unfold zoom. cbn [lget lput st_core]. change (k_core (s_k s)) with (s_core s). rewrite Hs, holding_acq.
    apply (f_equal (Ok true)). rewrite <- Hs. apply set_s_core_id. }
  unfold bind at 1. rewrite Eh. cbn [negb].
  unfold bind at 1, gets. rewrite Hs. cbn [ccpu acq noff]. rewrite Hn. change (negb (0 + 1 =? 1)) with false. cbn iota.
  unfold bind at 1, getp, gets. rewrite Hs. cbn [procs acq]. rewrite (bool_decide_false (state _ = _)) by done.
  unfold bind at 1.
  assert (Eg : zoom intr_get s = Ok false s).
  { unfold zoom, intr_get, gets. cbn [lget lput st_core]. change (k_core (s_k s)) with (s_core s). rewrite Hs. cbn [sie acq ccpu].
    apply (f_equal (Ok false)). rewrite <- Hs. apply set_s_core_id. }
  rewrite Eg. unfold bind at 1. rewrite Hs. cbn [ccpu acq intena]. rewrite Hn. cbn [Z.eqb].
  unfold bind, swtch. rewrite Ho.
  unfold zoom, set_cpu, modify. cbn [lget lput st_core]. change (k_core (s_k s2)) with (s_core s2).
  apply (f_equal (Ok tt)). rewrite Hs2. etransitivity; [|apply set_s_core_id]. f_equal. rewrite Hs2.
  unfold acq, set_ccpu, set_intena. cbn. rewrite Hn2, Hsie. done.
Qed.

Lemma sleep_eq i ch lk c c2 s s2 :
  s_core s = acq lk c -> calm c -> noff (ccpu c) = 0 -> cproc (ccpu c) = Some i ->
  lk <> ProcLock i -> free lk c -> free (ProcLock i) c ->
  others (set_s_core (acq (ProcLock i) (asleep i ch c)) s) = Some s2 -> s_core s2 = acq (ProcLock i) c2 ->
  calm c2 -> noff (ccpu c2) = 0 -> sie (ccpu c2) = sie (ccpu c) -> free (ProcLock i) c2 -> free lk c2 ->
  sleep ch lk s = Ok tt (set_s_core (acq lk (upd_proc i (set_chan None) c2)) s2).
Proof.
  intros Hs Hc Hn Hi Hlk Hf Hfp Ho Hs2 Hc2 Hn2 Hsie Hfp2 Hf2. unfold sleep, bind at 1.
  rewrite (curproc_eq i); [|rewrite Hs; by apply calm_acq|by rewrite Hs].
  rewrite !(bool_decide_true (lk <> ProcLock i)) by done. unfold when.
  unfold bind at 1. unfold bind at 1.
  rewrite lock_eq; [|rewrite Hs; by apply calm_acq|rewrite Hs; by apply acq_free].
  rewrite (unlock_eq _ (acq (ProcLock i) c)); [|rewrite s_core_set, Hs; by apply acq_comm; [apply Hc|]|by apply calm_acq|by apply acq_free].
  rewrite set_s_core_set. unfold bind at 1, setp at 1, modify. rewrite s_core_set, set_s_core_set.
  unfold bind at 1, setp at 1, modify. rewrite s_core_set, set_s_core_set.
  change (upd_proc i (set_state SLEEPING) (upd_proc i (set_chan (Some ch)) (acq (ProcLock i) c)))
    with (acq (ProcLock i) (asleep i ch c)).
  unfold bind at 1. rewrite (sched_eq i (asleep i ch c) c2 _ s2); try done; [|by simpl; rewrite fupd_eq].
  unfold bind at 1, setp at 1, modify. rewrite Hs2.
  change (upd_proc i (set_chan None) (acq (ProcLock i) c2)) with (acq (ProcLock i) (upd_proc i (set_chan None) c2)).
  unfold bind. rewrite (unlock_eq _ (upd_proc i (set_chan None) c2)); [|done|by apply calm_procs|by apply free_procs].
  rewrite set_s_core_set. rewrite lock_eq; [|by apply calm_procs|by apply free_procs]. by rewrite set_s_core_set.
Qed.

(** ** virtio_disk_intr() *)

Lemma ring_next u : 0 <= u -> u16 (u + 1) mod Z.of_nat NUM = (u + 1) mod Z.of_nat NUM.
Proof. intros Hu. unfold u16. apply Z.mod_mod_divide. by exists (2 ^ 13). Qed.

Lemma ring_ne u : u mod Z.of_nat NUM <> (u + 1) mod Z.of_nat NUM.
Proof. unfold NUM. simpl Z.of_nat. intros E. pose proof (Z.div_mod u 8). pose proof (Z.div_mod (u + 1) 8). lia. Qed.

Definition acked (h : list access) (v : Z) : list access :=
  MWrite (VIRTIO0 + VIRTIO_MMIO_INTERRUPT_ACK) (u32 (Z.land (u32 v) 0x3)) ::
  MRead (VIRTIO0 + VIRTIO_MMIO_INTERRUPT_STATUS) :: h.

Lemma disk_intr_eq u h b s :
  let d := s_vd s in
  calm (s_core s) -> (forall lk, free lk (s_core s)) -> 0 <= u ->
  vd_used_idx d = u mod Z.of_nat NUM -> vd_used_id d = u16 (u + 1) ->
  vd_used_elems d (u mod Z.of_nat NUM) = Z.of_nat h -> vd_info_status d h = 0 -> vd_info_b d h = Some b ->
  exists v, virtio_disk_intr s =
    Ok tt (set_s_mmio (acked (s_mmio s) v)
      (set_s_vd (set_vd_used_idx ((u + 1) mod Z.of_nat NUM) d)
        (put_buf b (set_b_disk 0)
          (set_s_core (set_procs (wake (ChBuf b) (seq 0 NPROC) (procs (s_core s))) (s_core s)) s)))).
Proof.
  intros d Hc Hf Hu Hidx Hid He Hst Hb. set (c' := set_procs _ (s_core s)).
  assert (Hpf : procs_free (seq 0 NPROC) (acq VdiskLock (s_core s))) by (intros j _; by apply acq_free).
  assert (Eidx : (u mod Z.of_nat NUM + 1) mod Z.of_nat NUM = (u + 1) mod Z.of_nat NUM) by apply Zplus_mod_idemp_l.
  unfold virtio_disk_intr. unfold bind at 1. rewrite lock_eq by done. unfold bind at 1.
  erewrite (loops_loop _ 1).
  2: { eapply loops_more.
    - unfold bind at 1, gets. cbn [s_vd set_s_core set_s_k]. fold d. rewrite Hidx, Hid, Z.mod_mod by done.
      rewrite ring_next, (proj2 (Z.eqb_neq _ _) (ring_ne u)) by done. cbn [negb].
      rewrite He, Nat2Z.id, Hst, Hb. cbn [Z.eqb negb]. unfold bind at 1, set_buf, modify. unfold bind at 1.
      rewrite wakeup_eq; [|by apply calm_acq|exact Hpf]. unfold bind, set_vd, modify, ret. reflexivity.
    - apply loops_end. unfold bind, gets. cbn [s_vd set_s_vd vd_used_idx vd_used_id set_vd_used_idx].
      cbn [s_vd set_s_core set_s_k set_s_bc]. fold d. rewrite Hid, Hidx, Eidx, Z.mod_mod, ring_next, Z.eqb_refl by done.
      reflexivity. }
  2: done.
  unfold bind, vread, ReadReg, vwrite, WriteReg, bind, gets, modify, ret.
  erewrite (unlock_eq _ c'); [|reflexivity|by apply calm_procs|by apply free_procs].
  eexists. unfold acked. rewrite <- Eidx, <- Hidx. reflexivity.
Qed.

(** ** free_chain() *)

Definition give (j : nat) (d : vdisk) : vdisk :=
  let d := set_vd_desc (fupd (vd_desc d) j (set_vr_addr DmaNull (vd_desc d j))) d in
  set_vd_free (fupd (vd_free d) j true) d.

Definition may_wake (c : core) : Prop :=
  calm c /\ procs_free (seq 0 NPROC) c /\ no_sleeper ChDiskFree c.

Lemma free_desc_eq j s :
  (j < NUM)%nat -> vd_free (s_vd s) j = false -> may_wake (s_core s) ->
  free_desc j s = Ok tt (set_s_vd (give j (s_vd s)) s).
Proof.
  intros Hj Hf (Hc & Hp & Hn). unfold free_desc. rewrite (proj2 (Nat.leb_gt _ _) Hj).
  unfold bind at 1, gets. rewrite Hf. unfold bind, set_desc, set_vd, modify. by rewrite wakeup_none.
Qed.

Lemma free_chain_eq s :
  may_wake (s_core s) -> (forall j, (j < 3)%nat -> vd_free (s_vd s) j = false) ->
  (let d0 := vd_desc (s_vd s) 0 in has (vr_flags d0) VRING_DESC_F_NEXT = true /\ vr_next d0 = 1) ->
  (let d1 := vd_desc (s_vd s) 1 in has (vr_flags d1) VRING_DESC_F_NEXT = true /\ vr_next d1 = 2) ->
  has (vr_flags (vd_desc (s_vd s) 2)) VRING_DESC_F_NEXT = false ->
  free_chain 0 s = Ok tt (set_s_vd (give 2 (give 1 (give 0 (s_vd s)))) s).
Proof.
  intros Hw Hf [F0 N0] [F1 N1] F2. unfold has in F0, F1, F2. apply (loops_loop _ 2); [|done].
  eapply loops_more; [|eapply loops_more; [|apply loops_end]]; unfold bind at 1.
  - rewrite free_desc_eq; [|unfold NUM; lia|apply Hf; lia|done].
    unfold bind, gets. cbn [s_vd set_s_vd give vd_desc set_vd_free set_vd_desc]. rewrite fupd_eq. cbn [vr_flags vr_next set_vr_addr].
    rewrite F0, N0. reflexivity.
  - change (Z.to_nat 1) with 1%nat. rewrite free_desc_eq; [|unfold NUM; lia| |done].
    2: { cbn. rewrite fupd_ne by done. apply Hf. lia. }
    unfold bind, gets. cbn [s_vd set_s_vd give vd_desc set_vd_free set_vd_desc]. rewrite fupd_eq. cbn [vr_flags vr_next set_vr_addr].
    rewrite fupd_ne by done. rewrite F1, N1. reflexivity.
  - change (Z.to_nat 2) with 2%nat. rewrite free_desc_eq; [|unfold NUM; lia| |done].
    2: { cbn. rewrite !fupd_ne by done. apply Hf. lia. }
    unfold bind, gets. cbn [s_vd set_s_vd give vd_desc set_vd_free set_vd_desc]. rewrite fupd_eq. cbn [vr_flags vr_next set_vr_addr].
    rewrite !fupd_ne by done. rewrite F2. reflexivity.
Qed.

(** ** virtio_disk_rw() *)

(** A step that only changes the driver's state. *)
Lemma set_vd_run {B} f v s (k : unit -> M st B) : bind (set_vd f) k (set_s_vd v s) = k tt (set_s_vd (f v) s).
Proof. done. Qed.
Lemma upd_vd_run {B} f s (k : unit -> M st B) : bind (set_vd f) k s = k tt (set_s_vd (f (s_vd s)) s).
Proof. done. Qed.
Lemma set_desc_run {B} j f v s (k : unit -> M st B) :
  bind (set_desc j f) k (set_s_vd v s) = k tt (set_s_vd (set_vd_desc (fupd (vd_desc v) j (f (vd_desc v j))) v) s).
Proof. done. Qed.
Lemma set_buf_run {B} b f v s (k : unit -> M st B) :
  bind (set_buf b f) k (set_s_vd v s) = k tt (set_s_vd v (put_buf b f s)).
Proof. done. Qed.
Lemma notify_run {B} r x v s (k : unit -> M st B) :
  bind (vwrite r x) k (set_s_vd v s) = k tt (set_s_mmio (MWrite (VIRTIO0 + r) (u32 x) :: s_mmio s) (set_s_vd v s)).
Proof. done. Qed.
(** The request, as the driver writes it. *)
Definition request (b : nat) (write : bool) (pa sector : Z) (d : vdisk) : vdisk :=
  let type := if write then VIRTIO_BLK_T_OUT else VIRTIO_BLK_T_IN in
  let d := take_desc 2 (take_desc 1 (take_desc 0 d)) in
  let d := set_vd_desc (fupd (vd_desc d) 0%nat (mkdesc (DmaHdr pa type sector) 16 VRING_DESC_F_NEXT 1)) d in
  let d := set_vd_desc (fupd (vd_desc d) 1%nat (mkdesc (DmaData b) BSIZE
             (Z.lor (if write then 0 else VRING_DESC_F_WRITE) VRING_DESC_F_NEXT) 2)) d in
  let d := set_vd_info_status (fupd (vd_info_status d) 0%nat 0) d in
  let d := set_vd_desc (fupd (vd_desc d) 2%nat (mkdesc (DmaStatus 0) 1 VRING_DESC_F_WRITE 0)) d in
  let d := set_vd_info_b (fupd (vd_info_b d) 0%nat (Some b)) d in
  let d := set_vd_avail (fupd (vd_avail d) (2 + vd_avail d 1 mod Z.of_nat NUM) 0) d in
  set_vd_avail (fupd (vd_avail d) 1 (u16 (vd_avail d 1 + 1))) d.

Lemma request_posted b write pa sector d :
  vd_avail d 1 = vd_used_id d -> 0 <= vd_used_id d ->
  posted (request b write pa sector d) 0 (if write then VIRTIO_BLK_T_OUT else VIRTIO_BLK_T_IN) sector b.
Proof.
  intros Ha Hu. pose proof (Z.mod_pos_bound (vd_used_id d) 8 ltac:(done)).
  split; cbn.
  - rewrite fupd_eq, fupd_ne, Ha; [done|]. unfold NUM in *. simpl Z.of_nat. rewrite Ha. lia.
  - rewrite Ha. rewrite fupd_ne by (unfold NUM in *; simpl Z.of_nat in *; lia). apply fupd_eq.
  - exists pa, 1%nat, 2%nat. eexists. rewrite (fupd_ne _ 2%nat _ 0%nat), (fupd_ne _ 1%nat _ 0%nat) by done.
    rewrite (fupd_ne _ 2%nat _ 1%nat) by done. rewrite !fupd_eq. split_and!; [done|done| | |done]; by destruct write.
Qed.

(** What the device does to the disk and to the buffer. *)
Definition serve (b : nat) (write : bool) (bn : Z) (s : st) : st :=
  let x := bc_buf (s_bc s) b in
  if write then set_s_writes ((bn, b_data x) :: s_writes s) (set_s_disk (fupd (s_disk s) bn (b_data x)) s)
  else put_buf b (set_b_data (s_disk s bn)) s.

(** Independent parts of the state: the accesses outermost, then the driver's
    state, then the buffers and the disk, then the processor. *)
Lemma s_core_vd v s : s_core (set_s_vd v s) = s_core s.
Proof. done. Qed.
Lemma s_core_mmio h s : s_core (set_s_mmio h s) = s_core s.
Proof. done. Qed.
Lemma s_core_buf b f s : s_core (put_buf b f s) = s_core s.
Proof. done. Qed.
Lemma s_core_serve b write bn s : s_core (serve b write bn s) = s_core s.
Proof. by destruct write. Qed.
Lemma s_bc_core c s : s_bc (set_s_core c s) = s_bc s.
Proof. done. Qed.
Lemma s_mmio_serve b write bn s : s_mmio (serve b write bn s) = s_mmio s.
Proof. by destruct write. Qed.
Lemma core_mmio c h s : set_s_core c (set_s_mmio h s) = set_s_mmio h (set_s_core c s).
Proof. done. Qed.
Lemma core_vd c v s : set_s_core c (set_s_vd v s) = set_s_vd v (set_s_core c s).
Proof. done. Qed.
Lemma core_buf c b f s : set_s_core c (put_buf b f s) = put_buf b f (set_s_core c s).
Proof. done. Qed.
Lemma core_serve c b write bn s : set_s_core c (serve b write bn s) = serve b write bn (set_s_core c s).
Proof. by destruct write. Qed.
Lemma vd_mmio v h s : set_s_vd v (set_s_mmio h s) = set_s_mmio h (set_s_vd v s).
Proof. done. Qed.
Lemma vd_vd v w s : set_s_vd v (set_s_vd w s) = set_s_vd v s.
Proof. done. Qed.
Lemma mmio_mmio g h s : set_s_mmio g (set_s_mmio h s) = set_s_mmio g s.
Proof. done. Qed.
Lemma buf_mmio b f h s : put_buf b f (set_s_mmio h s) = set_s_mmio h (put_buf b f s).
Proof. done. Qed.
Lemma buf_vd b f v s : put_buf b f (set_s_vd v s) = set_s_vd v (put_buf b f s).
Proof. done. Qed.
Lemma serve_mmio b write bn h s : serve b write bn (set_s_mmio h s) = set_s_mmio h (serve b write bn s).
Proof. by destruct write. Qed.
Lemma serve_vd b write bn v s : serve b write bn (set_s_vd v s) = set_s_vd v (serve b write bn s).
Proof. by destruct write. Qed.

Ltac st_parts :=
  rewrite ?core_mmio, ?core_vd, ?core_buf, ?core_serve, ?core_vd, ?core_buf, ?set_s_core_set, ?serve_mmio,
    ?serve_vd, ?buf_mmio, ?buf_vd, ?vd_mmio, ?vd_vd, ?mmio_mmio.

Lemma device_serves b (write : bool) h sector s :
  posted (s_vd s) h (if write then VIRTIO_BLK_T_OUT else VIRTIO_BLK_T_IN) sector b ->
  device s = set_s_vd (complete h (s_vd s)) (serve b write (sector / 2) s).
Proof. destruct write; intros Hp; [by rewrite (device_out _ _ _ _ Hp)|by rewrite (device_in _ _ _ _ Hp)]. Qed.

Lemma kvmpa_eq va a k :
  va < MAXVA -> slot (k_mem k) (k_kpt k) va = Some a -> a <> 0 -> has (load64 (k_mem k) a) PTE_V = true ->
  exists pa, kvmpa va k = Ok pa k.
Proof.
  intros Hva Hs Ha HV. enough (wp (kvmpa va) (fun _ k' => k' = k) k) as W.
  { apply wp_elim in W as (pa & k' & E & ->). eauto. }
  unfold kvmpa. wp_step. wp_step. wp_step. apply wp_walk; [done|]. rewrite Hs.
  rewrite (proj2 (Z.eqb_neq a 0)) by done. unfold ld64. wp_step. wp_step. rewrite HV. by wp_step.
Qed.

(** The process that waited is as before. *)
Lemma wait_core i b c :
  (i < NPROC)%nat -> state (procs c i) = RUNNING -> chan_ (procs c i) = None -> no_sleeper (ChBuf b) c ->
  let c1 := asleep i (ChBuf b) c in
  let c2 := set_procs (wake (ChBuf b) (seq 0 NPROC) (procs c1)) c1 in
  state (procs c2 i) = RUNNABLE /\ upd_proc i (set_chan None) (upd_proc i (set_state RUNNING) c2) = c.
Proof.
  intros Hi Hr Hch Hn c1 c2.
  assert (E1 : procs c1 i = set_state SLEEPING (set_chan (Some (ChBuf b)) (procs c i))).
  { unfold c1, asleep. cbn. by rewrite !fupd_eq. }
  assert (E2 : procs c2 i = set_state RUNNABLE (procs c1 i)).
  { unfold c2. cbn [procs set_procs]. unfold wake, woken. rewrite decide_True by (apply elem_of_seq; lia).
    rewrite E1. by rewrite !bool_decide_true. }
  split; [by rewrite E2|].
  assert (E3 : procs (upd_proc i (set_chan None) (upd_proc i (set_state RUNNING) c2)) = procs c).
  { extensionality j. cbn [procs upd_proc set_procs]. destruct (decide (j = i)) as [->|Hj].
    - rewrite !fupd_eq, E2, E1. destruct (procs c i). simpl in *. by subst.
    - rewrite !fupd_ne by done. unfold c2. cbn [procs set_procs]. unfold wake, woken.
      assert (Ej : procs c1 j = procs c j) by (unfold c1, asleep; cbn; by rewrite !fupd_ne).
      rewrite Ej. case_decide as Hin; [|done]. apply elem_of_seq in Hin.
      destruct (bool_decide_reflect (state (procs c j) = SLEEPING)) as [Hs|]; [|done].
      rewrite bool_decide_false; [done|]. apply Hn; [lia|done]. }
  assert (E4 : upd_proc i (set_chan None) (upd_proc i (set_state RUNNING) c2) =
    set_procs (procs (upd_proc i (set_chan None) (upd_proc i (set_state RUNNING) c2))) c) by done.
  rewrite E4, E3. by destruct c.
Qed.

(** One test of b->disk. *)
Lemma poll_again (m : M st unit) b s s' :
  b_disk (bc_buf (s_bc s) b) = 1 -> m s = Ok tt s' ->
  (let* dk := gets (fun s => b_disk (bc_buf (s_bc s) b)) in
   if dk =? 1 then m ;;; ret (inl tt) else ret (inr tt)) s = Ok (inl tt : unit + unit) s'.
Proof. intros Hd Em. unfold bind, gets. rewrite Hd. cbn [Z.eqb Pos.eqb]. by rewrite Em. Qed.

Lemma poll_done (m : M st unit) b s :
  b_disk (bc_buf (s_bc s) b) = 0 ->
  (let* dk := gets (fun s => b_disk (bc_buf (s_bc s) b)) in
   if dk =? 1 then m ;;; ret (inl tt) else ret (inr tt)) s = Ok (inr tt : unit + unit) s.
Proof. intros Hd. unfold bind, gets. by rewrite Hd. Qed.

(** The wait for b->disk to become 0. *)
Lemma wait_disk b (write : bool) sector i c s :
  let d := s_vd s in
  let u := vd_used_id d in
  s_core s = acq VdiskLock c -> calm c -> noff (ccpu c) = 0 -> (forall lk, free lk c) -> cproc (ccpu c) = Some i ->
  (i < NPROC)%nat -> state (procs c i) = RUNNING -> chan_ (procs c i) = None -> no_sleeper (ChBuf b) c ->
  posted d 0 (if write then VIRTIO_BLK_T_OUT else VIRTIO_BLK_T_IN) sector b ->
  0 <= u -> vd_used_idx d = u mod Z.of_nat NUM -> vd_info_b d 0 = Some b -> b_disk (bc_buf (s_bc s) b) = 1 ->
  exists v, loop (fun _ : unit =>
    let* dk := gets (fun s => b_disk (bc_buf (s_bc s) b)) in
    if dk =? 1 then sleep (ChBuf b) VdiskLock ;;; ret (inl tt)
    else ret (inr tt)) tt s =
  Ok tt (set_s_mmio (acked (s_mmio s) v)
    (set_s_vd (set_vd_used_idx ((u + 1) mod Z.of_nat NUM) (complete 0 d))
      (put_buf b (set_b_disk 0) (serve b write (sector / 2) s)))).
Proof.
  intros d u Hs Hc Hn Hf Hi Hip Hr Hch Hns Hpo Hu Hidx Hb Hd.
  destruct (wait_core i b c Hip Hr Hch Hns) as [Hrun Hback].
  set (c1 := asleep i (ChBuf b) c) in *. set (c2 := set_procs _ c1) in *.
  assert (Hsl : state (procs c1 i) = SLEEPING /\ chan_ (procs c1 i) = Some (ChBuf b))
    by (unfold c1, asleep; cbn; by rewrite !fupd_eq).
  set (sr := set_s_core c1 s).
  assert (Edev : device sr = set_s_vd (complete 0 d) (serve b write (sector / 2) sr)) by by apply device_serves.
  destruct (disk_intr_eq u 0 b (set_s_vd (complete 0 d) (serve b write (sector / 2) sr))) as [v Ev].
  { rewrite s_core_vd, s_core_serve. unfold sr. rewrite s_core_set. by do 2 apply calm_procs. }
  { intros lk. rewrite s_core_vd, s_core_serve. unfold sr. rewrite s_core_set. by do 2 apply free_procs. }
  { done. } { done. } { done. }
  { unfold complete. cbn. apply fupd_eq. } { unfold complete. cbn. apply fupd_eq. } { done. }
  set (s1 := set_s_mmio _ _) in Ev.
  assert (Ec : s_core s1 = c2) by (unfold s1; rewrite s_core_mmio, s_core_vd, s_core_buf, !s_core_set, !s_core_vd, !s_core_serve; unfold sr; by rewrite !s_core_set).
  assert (Eo := disk_interrupt (set_s_core (acq (ProcLock i) c1) s) s1 c1 i b (s_core_set _ _) (calm_procs _ _ (calm_procs _ _ Hc))
    (Hf _) Hi (proj1 Hsl) (proj2 Hsl)).
  rewrite set_s_core_set in Eo. fold sr in Eo. rewrite Edev in Eo.
  specialize (Eo Ev ltac:(by rewrite Ec)). rewrite Ec in Eo.
  assert (Es := sleep_eq i (ChBuf b) VdiskLock c (upd_proc i (set_state RUNNING) c2) s _ Hs Hc Hn Hi ltac:(done) (Hf _) (Hf _) Eo (s_core_set _ _)
    (calm_procs _ _ (calm_procs _ _ (calm_procs _ _ (calm_procs _ _ Hc)))) Hn eq_refl (Hf _) (Hf _)).
  rewrite set_s_core_set, Hback in Es. exists v.
  assert (E0 : b_disk (bc_buf (s_bc s1) b) = 0) by (unfold s1; cbn; by rewrite fupd_eq).
  assert (Efin : set_s_core (acq VdiskLock c) s1 =
    set_s_mmio (acked (s_mmio s) v) (set_s_vd (set_vd_used_idx ((u + 1) mod Z.of_nat NUM) (complete 0 d))
      (put_buf b (set_b_disk 0) (serve b write (sector / 2) s)))).
  { unfold s1, sr. rewrite <- Hs. repeat (progress st_parts). rewrite set_s_core_id.
    cbn [s_vd s_mmio set_s_vd]. by rewrite s_mmio_serve. }
  rewrite <- Efin. clearbody s1. clear Efin Edev Ev Eo Ec.
  apply (loops_loop _ 1); [|done]. apply (loops_more _ 0 tt s tt (set_s_core (acq VdiskLock c) s1)).
  - exact (poll_again _ b s _ Hd Es).
  - apply loops_end, poll_done. rewrite s_bc_core. exact E0.
Qed.

(** The driver's state after the request. *)
Definition finished (b : nat) (write : bool) (pa sector : Z) (d : vdisk) : vdisk :=
  let r := request b write pa sector d in
  let r := set_vd_used_idx ((vd_used_id d + 1) mod Z.of_nat NUM) (complete 0 r) in
  give 2 (give 1 (give 0 (set_vd_info_b (fupd (vd_info_b r) 0%nat None) r))).

Lemma finished_ready b write pa sector v k : ready v k -> ready (finished b write pa sector v) k.
Proof.
  intros Hr. destruct Hr as [R1 R2 R3 R4 R5 R6 R7 R8 R9 R10]. pose proof (Z.mod_pos_bound (vd_used_id v) 8 ltac:(done)).
  split; try done.
  - intros j Hj. cbn. unfold fupd. repeat case_decide; try done. by apply R7.
  - cbn. rewrite fupd_eq, fupd_ne, R8; [done|]. unfold NUM. simpl Z.of_nat. rewrite R8. lia.
  - cbn. apply Z.mod_pos_bound. done.
  - cbn. symmetry. apply ring_next. lia.
Qed.

Lemma virtio_disk_rw_eq b (write : bool) s :
  ready (s_vd s) (s_k s) -> let bn := b_blockno (bc_buf (s_bc s) b) in 0 <= bn < 2 ^ 31 ->
  exists pa h, virtio_disk_rw b write s =
    Ok tt (set_s_mmio h (set_s_vd (finished b write pa (2 * bn) (s_vd s))
      (put_buf b (set_b_disk 0) (serve b write bn (put_buf b (set_b_disk 1) s))))).
Proof.
  intros Hr bn Hbn. destruct Hr as [R1 R2 R3 R4 R5 R6 R7 R8 R9 R10]. change (k_core (s_k s)) with (s_core s) in *.
  destruct R6 as (i & a & Hi & Hip & Hrun & Hch & Hva & Hsl & Ha & HV).
  set (c := s_core s) in *. set (d := s_vd s) in *.
  destruct (kvmpa_eq _ a (set_core (acq VdiskLock c) (s_k s)) Hva Hsl Ha HV) as [pa Epa].
  set (s1 := set_s_mmio (MWrite (VIRTIO0 + VIRTIO_MMIO_QUEUE_NOTIFY) 0 :: s_mmio s)
    (set_s_vd (request b write pa (2 * bn) d) (put_buf b (set_b_disk 1) (set_s_core (acq VdiskLock c) s)))).
  destruct (wait_disk b write (2 * bn) i c s1 eq_refl R1 R2 R3 Hi Hip Hrun Hch (R4 b)) as [v Ew].
  { apply request_posted; [done|lia]. }
  { cbn. lia. } { done. } { done. } { cbn. by rewrite fupd_eq. }
  change (vd_used_id (s_vd s1)) with (vd_used_id d) in Ew.
  replace (2 * bn / 2) with bn in Ew by (rewrite Z.mul_comm; by rewrite Z.div_mul).
  unfold gets in Ew. set (s2 := set_s_mmio _ _) in Ew.
  set (s3 := set_s_vd (set_vd_info_b (fupd (vd_info_b (s_vd s2)) 0%nat None) (s_vd s2)) s2).
  assert (Ec3 : s_core s3 = acq VdiskLock c) by (unfold s3, s2; by rewrite s_core_vd, s_core_mmio, s_core_vd, s_core_buf, s_core_serve).
  assert (Ef : free_chain 0 s3 = Ok tt (set_s_vd (give 2 (give 1 (give 0 (s_vd s3)))) s3)).
  { apply free_chain_eq.
    - rewrite Ec3. split; [by apply calm_acq|]. split; [|done]. intros j _. by apply acq_free.
    - intros j Hj. assert (j = 0 \/ j = 1 \/ j = 2)%nat as [->|[->| ->]] by lia; done.
    - by destruct write.
    - by destruct write.
    - done. }
  exists pa, (s_mmio s2). unfold virtio_disk_rw. unfold bind at 1, gets. fold bn.
  change (BSIZE / 512) with 2. rewrite (u32_small (bn * 2)), (Z.mul_comm bn 2) by lia.
  unfold bind at 1. rewrite lock_eq by done. fold c. unfold bind at 1. rewrite alloc3_eq by done.
  unfold bind at 1. rewrite (curproc_eq i); [|by apply calm_acq|done].
  unfold bind at 1, getp, gets. unfold bind at 1.
  match goal with |- context [zoom (kvmpa ?va) ?x] => assert (Ek : zoom (kvmpa va) x = Ok pa x) end.
  { unfold zoom. cbn [lget lput st_kst]. change (s_k (set_s_vd _ (set_s_core (acq VdiskLock c) s))) with (set_core (acq VdiskLock c) (s_k s)).
    change (procs (s_core _) i) with (procs c i). rewrite Epa. apply (f_equal (Ok pa)). by destruct s as [[]]. }
  rewrite Ek. clear Ek Epa.
  rewrite set_desc_run, set_desc_run, set_vd_run, set_desc_run, set_buf_run, set_vd_run, set_vd_run, set_vd_run, notify_run.
  match goal with |- context [set_s_mmio ?h (set_s_vd ?v ?x)] => assert (Ex : set_s_mmio h (set_s_vd v x) = s1) end.
  { unfold s1. f_equal. }
  rewrite Ex. clear Ex. rewrite (bind_run _ _ _ _ _ Ew).
  rewrite upd_vd_run. fold s3. rewrite (bind_run _ _ _ _ _ Ef). set (s4 := set_s_vd _ s3).
  assert (Ec4 : s_core s4 = acq VdiskLock c) by (unfold s4; by rewrite s_core_vd).
  etransitivity; [exact (unlock_eq VdiskLock c s4 Ec4 R1 (R3 _))|]. apply (f_equal (Ok tt)).
  assert (Ed : give 2 (give 1 (give 0 (s_vd s3))) = finished b write pa (2 * bn) d) by done.
  unfold s4. rewrite Ed. clearbody d. unfold s3. clear s4 Ed Ec4 Ef. unfold s2, s1, c. repeat (progress st_parts).
  by rewrite set_s_core_id.
Qed.

End VirtioOk.
