(* ===== verification/Block.v ===== *)
(** Integers in disk blocks: the C structures on disk are read and written
    at fixed offsets, in little-endian order. *)

From stdpp Require Import base tactics list numbers.
From Stdlib Require Import ZArith Lia.
From coqutil Require Import Byte Word.LittleEndianList.
From S2P Require Import Prelude.

Local Open Scope Z_scope.

(** ** Integers in blocks *)

(** The [n]-byte little-endian integer at offset [off] of a block, unsigned. *)
Definition get_le (d : list byte) (off : Z) (n : nat) : Z :=
  le_combine (take n (drop (Z.to_nat off) d)).
(** Replace the bytes at offset [off] of a block. *)
Definition put_bytes (d : list byte) (off : Z) (bs : list byte) : list byte :=
  take (Z.to_nat off) d ++ bs ++ drop (Z.to_nat off + length bs) d.
Definition put_le (d : list byte) (off : Z) (n : nat) (v : Z) : list byte :=
  put_bytes d off (le_split n v).

Definition get32 (d : list byte) (off : Z) : Z := get_le d off 4.
Definition put32 (d : list byte) (off v : Z) : list byte := put_le d off 4 v.

(** ** Lemmas *)

(** The [n] bytes from offset [off] on. *)
Definition sub (d : list byte) (off : Z) (n : nat) : list byte := take n (drop (Z.to_nat off) d).

Lemma lookup_sub d off n k : (k < n)%nat -> sub d off n !! k = d !! (Z.to_nat off + k)%nat.
Proof. intros. unfold sub. by rewrite lookup_take_lt, lookup_drop by done. Qed.

Lemma lookup_sub_ge d off n k : (n <= k)%nat -> sub d off n !! k = None.
Proof. intros. unfold sub. by rewrite lookup_take_ge. Qed.

Lemma length_sub d off n : 0 <= off -> off + Z.of_nat n <= Z.of_nat (length d) -> length (sub d off n) = n.
Proof. intros. unfold sub. rewrite length_take, length_drop. lia. Qed.

Lemma length_put_bytes d off bs :
  0 <= off -> off + Z.of_nat (length bs) <= Z.of_nat (length d) -> length (put_bytes d off bs) = length d.
Proof. intros. unfold put_bytes. rewrite !length_app, length_take, length_drop. lia. Qed.

Lemma lookup_put_bytes d off bs k :
  0 <= off -> off + Z.of_nat (length bs) <= Z.of_nat (length d) ->
  put_bytes d off bs !! k =
    if decide (Z.to_nat off <= k < Z.to_nat off + length bs)%nat then bs !! (k - Z.to_nat off)%nat else d !! k.
Proof.
  intros Ho Hl. unfold put_bytes. case_decide as Hk.
  - rewrite lookup_app_r by (rewrite length_take; lia). rewrite length_take.
    replace (Z.to_nat off `min` length d)%nat with (Z.to_nat off) by lia.
    by rewrite lookup_app_l by lia.
  - destruct (decide (k < Z.to_nat off)%nat).
    + rewrite lookup_app_l by (rewrite length_take; lia). by rewrite lookup_take_lt.
    + rewrite lookup_app_r by (rewrite length_take; lia). rewrite length_take.
      replace (Z.to_nat off `min` length d)%nat with (Z.to_nat off) by lia.
      rewrite lookup_app_r by lia. rewrite lookup_drop. f_equal. lia.
Qed.

(** Reading back what was written. *)
Lemma sub_put_same d off bs :
  0 <= off -> off + Z.of_nat (length bs) <= Z.of_nat (length d) ->
  sub (put_bytes d off bs) off (length bs) = bs.
Proof.
  intros Ho Hl. apply list_eq. intros k. destruct (decide (k < length bs)%nat).
  - rewrite lookup_sub, lookup_put_bytes by done. rewrite decide_True by lia. f_equal. lia.
  - rewrite lookup_sub_ge by lia. symmetry. apply lookup_ge_None. lia.
Qed.

Lemma sub_put_other d off bs off' n :
  0 <= off -> 0 <= off' -> off + Z.of_nat (length bs) <= Z.of_nat (length d) ->
  off' + Z.of_nat n <= off \/ off + Z.of_nat (length bs) <= off' ->
  sub (put_bytes d off bs) off' n = sub d off' n.
Proof.
  intros Ho Ho' Hl Hd. apply list_eq. intros k. destruct (decide (k < n)%nat).
  - rewrite !lookup_sub, lookup_put_bytes by done. by rewrite decide_False by lia.
  - by rewrite !lookup_sub_ge by lia.
Qed.

Lemma get_le_sub d off n : get_le d off n = le_combine (sub d off n).
Proof. done. Qed.

Lemma get_put_le d off n v :
  0 <= off -> off + Z.of_nat n <= Z.of_nat (length d) ->
  get_le (put_le d off n v) off n = v mod 2 ^ (Z.of_nat n * 8).
Proof.
  intros Ho Hl. rewrite get_le_sub. unfold put_le.
  pose proof (sub_put_same d off (le_split n v)) as E. rewrite length_le_split in E.
  by rewrite E, le_combine_split by lia.
Qed.

Lemma get_put_le_other d off n v off' n' :
  0 <= off -> 0 <= off' -> off + Z.of_nat n <= Z.of_nat (length d) ->
  off' + Z.of_nat n' <= off \/ off + Z.of_nat n <= off' ->
  get_le (put_le d off n v) off' n' = get_le d off' n'.
Proof. intros. rewrite !get_le_sub. unfold put_le. by rewrite sub_put_other by (rewrite ?length_le_split; lia). Qed.

Lemma length_put_le d off n v :
  0 <= off -> off + Z.of_nat n <= Z.of_nat (length d) -> length (put_le d off n v) = length d.
Proof. intros. apply length_put_bytes; rewrite ?length_le_split; lia. Qed.
