(* ===== verification/Log.v ===== *)
(** The log (kernel/log.c).

    The header block is read and written as the 32-bit words struct
    logheader lays out: n, then block[LOGSIZE]. *)

From stdpp Require Import base tactics list strings.
From Stdlib Require Import ZArith Lia FunctionalExtensionality.
From coqutil Require Import Byte Word.LittleEndianList.
From S2P Require Import Prelude Riscv Mem Core Spinlock Kalloc Vm State Csr Proc Sleeplock Virtio Bio Block.

Local Open Scope Z_scope.
Local Open Scope kern_scope.

Definition sizeof_logheader : Z := 4 + 4 * LOGSIZE.

Section Log.
Context `{KernelImage} `{World} `{Symbols} `{BlockDev}.

Definition set_log (f : log -> log) : M st unit := modify (fun s => set_s_log (f (s_log s)) s).
Definition getl {A} (f : log -> A) : M st A := gets (fun s => f (s_log s)).
Definition set_data (b : nat) (f : list byte -> list byte) : M st unit :=
  set_buf b (fun x => set_b_data (f (b_data x)) x).

(** log.lh.block[i], an int array of LOGSIZE entries *)
Definition get_block (i : Z) : M st Z :=
  let* l := getl l_block in
  match l !! Z.to_nat i with Some v => ret v | None => undefined "log.lh.block[]" end.
Definition set_block (i v : Z) : M st unit :=
  let* l := getl l_block in
  if (Z.to_nat i <? length l)%nat then set_log (set_l_block (<[Z.to_nat i := i32 v]> l))
  else undefined "log.lh.block[]".

(** One iteration of install_trans(): copy log block [tail] home. *)
Definition install_one (tail : Z) : M st unit :=
  let* dev := getl l_dev in
  let* start := getl l_start in
  let* lbuf := bread dev (start + tail + 1) in
  let* bn := get_block tail in
  let* dbuf := bread dev bn in
  let* d := getb_ lbuf b_data in
  set_data dbuf (fun _ => d) ;;;
  bwrite dbuf ;;;
  bunpin dbuf ;;;
  brelse lbuf ;;;
  brelse dbuf.

(** for (tail = 0; tail < log.lh.n; tail++) *)
Definition for_tail (body : Z -> M st unit) : M st unit :=
  loop (fun tail =>
    let* n := getl l_n in
    if tail <? n then body tail ;;; ret (inl (tail + 1)) else ret (inr tt)) 0.

Definition install_trans : M st unit := for_tail install_one.

Definition read_head : M st unit :=
  let* dev := getl l_dev in
  let* start := getl l_start in
  let* b := bread dev start in
  let* d := getb_ b b_data in
  set_log (set_l_n (i32 (get32 d 0))) ;;;
  for_tail (fun i => set_block i (get32 d (4 + 4 * i))) ;;;
  brelse b.

Definition write_head : M st unit :=
  let* dev := getl l_dev in
  let* start := getl l_start in
  let* b := bread dev start in
  let* n := getl l_n in
  set_data b (fun d => put32 d 0 n) ;;;
  for_tail (fun i =>
    let* bn := get_block i in
    set_data b (fun d => put32 d (4 + 4 * i) bn)) ;;;
  bwrite b ;;;
  brelse b.

Definition recover_from_log : M st unit :=
  read_head ;;;
  install_trans ;;;
  set_log (set_l_n 0) ;;;
  write_head.

Definition initlog (dev : Z) (sb : superblock) : M st unit :=
  if BSIZE <=? sizeof_logheader then panic "initlog: too big logheader"
  else
    zoom (initlock LogLock) ;;;
    set_log (set_l_start (i32 (sb_logstart sb))) ;;;
    set_log (set_l_size (i32 (sb_nlog sb))) ;;;
    set_log (set_l_dev dev) ;;;
    recover_from_log.

Definition begin_op : M st unit :=
  lock_ LogLock ;;;
  loop (fun _ : unit =>
    let* l := gets s_log in
    if negb (l_committing l =? 0) then
      sleep ChLog LogLock ;;; ret (inl tt)
    else if LOGSIZE <? l_n l + (l_outstanding l + 1) * MAXOPBLOCKS then
      sleep ChLog LogLock ;;; ret (inl tt)
    else
      set_log (fun l => set_l_outstanding (l_outstanding l + 1) l) ;;;
      unlock_ LogLock ;;;
      ret (inr tt)) tt.

(** One iteration of write_log(): copy a cached block to log block [tail]. *)
Definition write_log_one (tail : Z) : M st unit :=
  let* dev := getl l_dev in
  let* start := getl l_start in
  let* to := bread dev (start + tail + 1) in
  let* bn := get_block tail in
  let* from := bread dev bn in
  let* d := getb_ from b_data in
  set_data to (fun _ => d) ;;;
  bwrite to ;;;
  brelse from ;;;
  brelse to.

Definition write_log : M st unit := for_tail write_log_one.

Definition commit : M st unit :=
  let* n := getl l_n in
  when (0 <? n)
    (write_log ;;;
     write_head ;;;
     install_trans ;;;
     set_log (set_l_n 0) ;;;
     write_head).

Definition end_op : M st unit :=
  lock_ LogLock ;;;
  set_log (fun l => set_l_outstanding (l_outstanding l - 1) l) ;;;
  let* c := getl l_committing in
  if negb (c =? 0) then panic "log.committing"
  else
    let* o := getl l_outstanding in
    let do_commit := o =? 0 in
    (if do_commit then set_log (set_l_committing 1) else wakeup ChLog) ;;;
    unlock_ LogLock ;;;
    when do_commit
      (commit ;;;
       lock_ LogLock ;;;
       set_log (set_l_committing 0) ;;;
       wakeup ChLog ;;;
       unlock_ LogLock).

(** The loop of log_write(): the entry of block [bn], or the end of the list. *)
Definition log_scan (bn : Z) : M st Z :=
  loop (fun i =>
    let* n := getl l_n in
    if i <? n then
      let* x := get_block i in
      if u32 x =? bn then ret (inr i) else ret (inl (i + 1))
    else ret (inr i)) 0.

Definition log_write (b : nat) : M st unit :=
  let* l := gets s_log in
  if (LOGSIZE <=? l_n l) || (l_size l - 1 <=? l_n l) then panic "too big a transaction"
  else if l_outstanding l <? 1 then panic "log_write outside of trans"
  else
    lock_ LogLock ;;;
    let* bn := getb_ b b_blockno in
    let* i := log_scan bn in
    set_block i bn ;;;
    let* n := getl l_n in
    when (i =? n)
      (bpin b ;;;
       set_log (fun l => set_l_n (l_n l + 1) l)) ;;;
    unlock_ LogLock.

End Log.
