(* ===== verification/Commit.v ===== *)
(** The log is crash safe (kernel/log.c).

    commit() is shown to perform a fixed sequence of block writes: the logged
    blocks to the log, the header, the blocks to their homes, and the cleared
    header.  recover_from_log(), run on the disk as any prefix of that
    sequence leaves it, brings back either all of the transaction or nothing
    of it. *)

From stdpp Require Import base tactics list strings.
From Stdlib Require Import ZArith Lia FunctionalExtensionality.
From coqutil Require Import Byte Word.LittleEndianList.
From S2P Require Import Prelude Riscv Mem Core Spinlock Kalloc Vm State Csr Proc Sched Sleeplock Virtio Bio Dll Cache Block Log.

Local Open Scope Z_scope.
Local Open Scope kern_scope.

(** ** Sequences of block writes *)

Definition apply_w (W : list (Z * list byte)) (D : Z -> list byte) : Z -> list byte :=
  foldl (fun D w => fupd D w.1 w.2) D W.

Lemma apply_w_snoc W bn d D : apply_w (W ++ [(bn, d)]) D = fupd (apply_w W D) bn d.
Proof. unfold apply_w. by rewrite foldl_app. Qed.

Lemma apply_w_app W W' D : apply_w (W ++ W') D = apply_w W' (apply_w W D).
Proof. unfold apply_w. by rewrite foldl_app. Qed.

Lemma apply_w_notin W D bn : bn ∉ W.*1 -> apply_w W D bn = D bn.
Proof.
  induction W as [|[x d] W IH] using rev_ind; [done|]. rewrite fmap_app, elem_of_app.
  intros Hn. rewrite apply_w_snoc, fupd_ne.
  - apply IH. tauto.
  - intros ->. apply Hn. right. by left.
Qed.

Lemma apply_w_in W D bn d : NoDup W.*1 -> (bn, d) ∈ W -> apply_w W D bn = d.
Proof.
  induction W as [|[x e] W IH] using rev_ind; [by intros _ ?%not_elem_of_nil|].
  rewrite fmap_app, elem_of_app. intros (Hnd & Hx & _)%NoDup_app [Hin|Hin].
  - rewrite apply_w_snoc, fupd_ne; [by apply IH|]. intros ->.
    apply (Hx x); [|by left]. apply list_elem_of_fmap. by exists (x, d).
  - apply list_elem_of_singleton in Hin as [= -> ->]. by rewrite apply_w_snoc, fupd_eq.
Qed.

(** ** Small facts about locked buffers *)

Lemma unheld_hd b bn hs : unheld b ((b, bn) :: hs) = unheld b hs.
Proof. unfold unheld. by rewrite filter_cons_False by (simpl; tauto). Qed.

Lemma unheld_ne b b' bn hs : b' <> b -> unheld b ((b', bn) :: hs) = (b', bn) :: unheld b hs.
Proof. intros. unfold unheld. by rewrite filter_cons_True. Qed.

Lemma settled_nil hs ps bc : settled hs ps [] bc.
Proof. intros b []%not_elem_of_nil. Qed.

Section Commit.
Context `{KernelImage} `{World} `{Symbols} `{BlockDevOk}.
Context (i : nat).

(** The log header in memory lists the blocks [bs]. *)
Record lists (start : Z) (bs : list Z) (l : log) : Prop := {
  li_dev : l_dev l = ROOTDEV;
  li_start : l_start l = start;
  li_n : l_n l = Z.of_nat (length bs);
  li_block : take (length bs) (l_block l) = bs;
  li_len : length (l_block l) = Z.to_nat LOGSIZE;
}.

(** The log blocks lie in front of 2^31, and none of them is itself logged. *)
Record log_area (start : Z) (bs : list Z) : Prop := {
  la_start : 0 <= start /\ start + LOGSIZE < 2 ^ 31;
  la_bs : forall b, b ∈ bs -> 0 <= b < 2 ^ 31 /\ ~ (start <= b < start + LOGSIZE);
  la_nodup : NoDup bs;
  la_len : Z.of_nat (length bs) < LOGSIZE;
}.

Lemma get_block_eq start bs l k b s :
  s_log s = l -> lists start bs l -> bs !! k = Some b -> get_block (Z.of_nat k) s = Ok b s.
Proof.
  intros <- Hl Hk. unfold get_block, bind, getl, gets. rewrite Nat2Z.id.
  rewrite <- (li_block _ _ _ Hl) in Hk. apply lookup_take_Some in Hk as [-> _]. done.
Qed.


(** ** write_log() *)

Lemma write_log_one_ok V start bs k b s :
  bio i V [] bs [] s -> lists start bs (s_log s) -> log_area start bs -> bs !! k = Some b ->
  let x := start + Z.of_nat k + 1 in
  exists s', write_log_one (Z.of_nat k) s = Ok tt s' /\ bio i (fupd V x (V b)) [] bs [] s' /\
    same s s' /\ s_disk s' = fupd (s_disk s) x (V b) /\ s_writes s' = (x, V b) :: s_writes s.
Proof.
  intros Hb Hl Ha Hk x.
  assert (Hkl := lookup_lt_Some _ _ _ Hk). assert (Hbin : b ∈ bs) by by eapply list_elem_of_lookup_2.
  destruct (la_start _ _ Ha) as [Hs0 Hs1]. assert (Hlen := la_len _ _ Ha).
  destruct (la_bs _ _ Ha b Hbin) as [Hbr Hbx]. assert (Hx : x <> b) by lia.
  enough (wp (write_log_one (Z.of_nat k)) (fun _ s' => bio i (fupd V x (V b)) [] bs [] s' /\
    same s s' /\ s_disk s' = fupd (s_disk s) x (V b) /\ s_writes s' = (x, V b) :: s_writes s) s) as W.
  { apply wp_elim in W as ([] & s' & E & W). eauto. }
  unfold write_log_one, getl. do 2 step_get. rewrite (li_dev _ _ _ Hl), (li_start _ _ _ Hl).
  destruct (bread_ok i V [] bs [] x s) as (to & s1 & E1 & B1 & _ & _ & S1 & _);
    [done|apply settled_nil|lia|apply not_elem_of_nil|by intros ? []%not_elem_of_nil|
     right; simpl; unfold LOGSIZE, MAXOPBLOCKS, NBUF in *; lia|].
  run E1. run (get_block_eq start bs (s_log s1) k b s1 eq_refl ltac:(rewrite (same_log s s1); [exact Hl|apply S1]) Hk).
  destruct (bread_ok i V [(to, x)] bs [] b s1) as (from & s2 & E2 & B2 & Hne & _ & S2 & _);
    [done|apply settled_nil|done| |by intros ? []%not_elem_of_nil|by left|].
  { simpl. rewrite list_elem_of_singleton. done. }
  run E2. unfold getb_. step_get.
  destruct (held_data _ _ _ _ _ _ _ _ B2 (list_elem_of_here _ _)) as (_ & _ & ->).
  assert (Hto : from <> to) by (intros ->; apply Hne; by left).
  apply wp_bind, wp_modify.
  assert (B3 := set_buf_data_ok i V _ bs [] to x (fun _ => V b) s2 B2
    (list_elem_of_further _ _ _ (list_elem_of_here _ _)) (not_elem_of_nil _)
    (ca_vlen _ _ _ _ _ _ _ _ (bio_cache _ _ _ _ _ _ B2) b)).
  set (s3 := put_buf to _ s2) in *.
  destruct (bwrite_ok i _ _ bs [] to x s3 B3 (list_elem_of_further _ _ _ (list_elem_of_here _ _)))
    as (s4 & E4 & B4 & S4 & D4 & W4 & _).
  run E4. rewrite fupd_eq in D4, W4.
  destruct (brelse_ok i _ _ bs [] from b s4 B4 (list_elem_of_here _ _)) as (s5 & E5 & B5 & S5 & _).
  { right. split; [done|apply not_elem_of_nil]. }
  run E5. rewrite unheld_hd, unheld_ne in B5 by done.
  destruct (brelse_ok i _ _ bs [] to x s5 B5 (list_elem_of_here _ _)) as (s6 & E6 & B6 & S6 & _).
  { left. destruct S5 as (_ & -> & _). rewrite D4. by rewrite !fupd_eq. }
  eapply wp_Ok; [exact E6|]. rewrite unheld_hd in B6.
  destruct S1 as (S1 & D1 & W1), S2 as (S2 & D2 & W2), S5 as (S5 & D5 & W5), S6 as (S6 & D6 & W6).
  split_and!; [exact B6| | |].
  - do 2 (eapply same_trans; [|eassumption]). eapply same_trans; [|exact S4].
    eapply same_trans; [|exact (conj eq_refl (fun _ => eq_refl) : same s2 s3)]. by eapply same_trans.
  - rewrite D6, D5, D4. cbn [s3 s_disk put_buf set_s_bc]. by rewrite D2, D1.
  - rewrite W6, W5, W4. cbn [s3 s_writes put_buf set_s_bc]. by rewrite W2, W1.
Qed.
(** The loops over the logged blocks. *)
Lemma for_tail_ok (body : Z -> M st unit) (n : nat) (I : nat -> st -> Prop) s :
  Z.of_nat n < 2 ^ 64 ->
  (forall k s, I k s -> l_n (s_log s) = Z.of_nat n) ->
  (forall k s, (k < n)%nat -> I k s -> exists s', body (Z.of_nat k) s = Ok tt s' /\ I (S k) s') ->
  I 0%nat s -> exists s', for_tail body s = Ok tt s' /\ I n s'.
Proof.
  intros Hn Hln Hstep Hi0.
  enough (wp (for_tail body) (fun _ s' => I n s') s) as W.
  { apply wp_elim in W as ([] & s' & E & W). eauto. }
  apply (wp_loop _ (fun m tail s => exists k, (k <= n)%nat /\ tail = Z.of_nat k /\ m = Z.of_nat (n - k) /\ I k s))
    with (n := Z.of_nat n).
  - intros m tail s' _ (k & Hk & -> & -> & HI). unfold getl. step_get. rewrite (Hln _ _ HI).
    destruct (Z.ltb_spec (Z.of_nat k) (Z.of_nat n)).
    + destruct (Hstep k s' ltac:(lia) HI) as (s2 & E & HI2). run E. apply wp_ret.
      exists (Z.of_nat (n - S k)). split; [lia|]. exists (S k). split_and!; [lia|lia|done|done].
    + apply wp_ret. by assert (k = n) as -> by lia.
  - lia.
  - exists 0%nat. split_and!; [lia|done|by rewrite Nat.sub_0_r|done].
Qed.

(** ** install_trans() *)

Lemma install_one_ok V start bs ps k b s :
  bio i V [] ps [] s -> lists start bs (s_log s) -> log_area start bs -> bs !! k = Some b -> b ∈ ps ->
  Z.of_nat (length ps) < LOGSIZE ->
  let x := start + Z.of_nat k + 1 in
  V x = s_disk s x ->
  exists s', install_one (Z.of_nat k) s = Ok tt s' /\ bio i (fupd V b (V x)) [] (unpinned b ps) [] s' /\
    same s s' /\ s_disk s' = fupd (s_disk s) b (V x) /\ s_writes s' = (b, V x) :: s_writes s.
Proof.
  intros Hb Hl Ha Hk Hp Hlen x Hxd.
  assert (Hkl := lookup_lt_Some _ _ _ Hk). assert (Hbin : b ∈ bs) by by eapply list_elem_of_lookup_2.
  destruct (la_start _ _ Ha) as [Hs0 Hs1]. assert (Hlenb := la_len _ _ Ha).
  destruct (la_bs _ _ Ha b Hbin) as [Hbr Hbx]. assert (Hx : b <> x) by lia.
  enough (wp (install_one (Z.of_nat k)) (fun _ s' => bio i (fupd V b (V x)) [] (unpinned b ps) [] s' /\
    same s s' /\ s_disk s' = fupd (s_disk s) b (V x) /\ s_writes s' = (b, V x) :: s_writes s) s) as W.
  { apply wp_elim in W as ([] & s' & E & W). eauto. }
  unfold install_one, getl. do 2 step_get. rewrite (li_dev _ _ _ Hl), (li_start _ _ _ Hl).
  destruct (bread_ok i V [] ps [] x s) as (lb & s1 & E1 & B1 & _ & _ & S1 & _);
    [done|apply settled_nil|lia|apply not_elem_of_nil|by intros ? []%not_elem_of_nil|
     right; simpl; unfold LOGSIZE, MAXOPBLOCKS, NBUF in *; lia|].
  run E1. run (get_block_eq start bs (s_log s1) k b s1 eq_refl ltac:(rewrite (same_log s s1); [exact Hl|apply S1]) Hk).
  destruct (bread_ok i V [(lb, x)] ps [] b s1) as (db & s2 & E2 & B2 & Hne & _ & S2 & _);
    [done|apply settled_nil|done| |by intros ? []%not_elem_of_nil|by left|].
  { simpl. rewrite list_elem_of_singleton. done. }
  run E2. unfold getb_. step_get. assert (Hdl : db <> lb) by (intros ->; apply Hne; by left).
  destruct (held_data _ _ _ _ _ _ _ _ B2 (list_elem_of_further _ _ _ (list_elem_of_here _ _))) as (_ & _ & ->).
  apply wp_bind, wp_modify.
  assert (B3 := set_buf_data_ok i V _ ps [] db b (fun _ => V x) s2 B2 (list_elem_of_here _ _) (not_elem_of_nil _)
    (ca_vlen _ _ _ _ _ _ _ _ (bio_cache _ _ _ _ _ _ B2) x)).
  set (s3 := put_buf db _ s2) in *.
  destruct (bwrite_ok i _ _ ps [] db b s3 B3 (list_elem_of_here _ _)) as (s4 & E4 & B4 & S4 & D4 & W4 & _).
  run E4. rewrite fupd_eq in D4, W4.
  destruct (bunpin_ok i _ _ ps [] db b s4 B4 (list_elem_of_here _ _) (not_elem_of_nil _) Hp) as (s5 & E5 & B5 & S5 & _).
  run E5.
  destruct (brelse_ok i _ _ _ [] lb x s5 B5 (list_elem_of_further _ _ _ (list_elem_of_here _ _))) as (s6 & E6 & B6 & S6 & _).
  { left. destruct S5 as (_ & -> & _). rewrite D4. rewrite !fupd_ne by done. cbn [s3 s_disk put_buf set_s_bc].
    destruct S2 as (_ & -> & _), S1 as (_ & -> & _). done. }
  run E6. rewrite unheld_ne, unheld_hd in B6 by done.
  destruct (brelse_ok i _ _ _ [] db b s6 B6 (list_elem_of_here _ _)) as (s7 & E7 & B7 & S7 & _).
  { left. destruct S6 as (_ & -> & _), S5 as (_ & -> & _). rewrite D4. by rewrite !fupd_eq. }
  eapply wp_Ok; [exact E7|]. rewrite unheld_hd in B7.
  destruct S1 as (S1 & D1 & W1), S2 as (S2 & D2 & W2), S5 as (S5 & D5 & W5), S6 as (S6 & D6 & W6), S7 as (S7 & D7 & W7).
  split_and!; [exact B7| | |].
  - do 3 (eapply same_trans; [|eassumption]). eapply same_trans; [|exact S4].
    eapply same_trans; [|exact (conj eq_refl (fun _ => eq_refl) : same s2 s3)]. by eapply same_trans.
  - rewrite D7, D6, D5, D4. cbn [s3 s_disk put_buf set_s_bc]. by rewrite D2, D1.
  - rewrite W7, W6, W5, W4. cbn [s3 s_writes put_buf set_s_bc]. by rewrite W2, W1.
Qed.

(** ** The header block *)

Fixpoint put_blocks (d : list byte) (off : Z) (bs : list Z) : list byte :=
  match bs with [] => d | b :: bs' => put_blocks (put32 d off b) (off + 4) bs' end.

(** The header block with [bs] stored over the old contents [d]. *)
Definition header (d : list byte) (bs : list Z) : list byte :=
  put_blocks (put32 d 0 (Z.of_nat (length bs))) 4 bs.

Lemma put_blocks_snoc d off bs b :
  put_blocks d off (bs ++ [b]) = put32 (put_blocks d off bs) (off + 4 * Z.of_nat (length bs)) b.
Proof.
  revert d off. induction bs as [|c bs IH]; intros d off; cbn [put_blocks app].
  - f_equal. simpl. lia.
  - rewrite IH. f_equal. cbn [length]. lia.
Qed.

Lemma length_put_blocks d off bs :
  0 <= off -> off + 4 * Z.of_nat (length bs) <= Z.of_nat (length d) -> length (put_blocks d off bs) = length d.
Proof.
  revert d off. induction bs as [|c bs IH]; intros d off Ho Hl; cbn [put_blocks length] in *; [done|].
  assert (E : length (put32 d off c) = length d) by (apply length_put_le; lia).
  rewrite IH; [done|lia|lia].
Qed.

Lemma get_put_blocks_before d off bs o :
  0 <= o -> o + 4 <= off -> off + 4 * Z.of_nat (length bs) <= Z.of_nat (length d) ->
  get32 (put_blocks d off bs) o = get32 d o.
Proof.
  revert d off. induction bs as [|c bs IH]; intros d off Ho Hl Hd; cbn [put_blocks length] in *; [done|].
  assert (E : length (put32 d off c) = length d) by (apply length_put_le; lia).
  rewrite IH by lia. apply get_put_le_other; lia.
Qed.

Lemma get_put_blocks d off bs k b :
  0 <= off -> off + 4 * Z.of_nat (length bs) <= Z.of_nat (length d) -> bs !! k = Some b -> 0 <= b < 2 ^ 32 ->
  get32 (put_blocks d off bs) (off + 4 * Z.of_nat k) = b.
Proof.
  revert d off k. induction bs as [|c bs IH]; intros d off k Ho Hd Hk Hb; [done|].
  cbn [put_blocks length] in *. assert (E : length (put32 d off c) = length d) by (apply length_put_le; lia).
  destruct k as [|k]; cbn in Hk.
  - injection Hk as ->. rewrite Z.add_0_r, get_put_blocks_before by lia.
    unfold get32, put32. rewrite get_put_le by lia. by rewrite Z.mod_small by (simpl; lia).
  - replace (off + 4 * Z.of_nat (S k)) with (off + 4 + 4 * Z.of_nat k) by lia. apply IH; [lia|lia|done|done].
Qed.

Lemma header_n d bs :
  length d = Z.to_nat BSIZE -> Z.of_nat (length bs) <= LOGSIZE ->
  get32 (header d bs) 0 = Z.of_nat (length bs).
Proof.
  unfold BSIZE, LOGSIZE, MAXOPBLOCKS. intros Hd Hn. unfold header.
  assert (E : length (put32 d 0 (Z.of_nat (length bs))) = length d) by (apply length_put_le; lia).
  rewrite get_put_blocks_before by lia. unfold get32, put32. rewrite get_put_le by lia.
  by rewrite Z.mod_small by (simpl; lia).
Qed.

Lemma header_block d bs k b :
  length d = Z.to_nat BSIZE -> Z.of_nat (length bs) <= LOGSIZE -> bs !! k = Some b -> 0 <= b < 2 ^ 32 ->
  get32 (header d bs) (4 + 4 * Z.of_nat k) = b.
Proof.
  unfold BSIZE, LOGSIZE, MAXOPBLOCKS. intros Hd Hn Hk Hb. unfold header. apply get_put_blocks; [lia| |done|done].
  unfold put32. rewrite length_put_le by lia. lia.
Qed.

Lemma length_header_upto d bs k :
  length d = Z.to_nat BSIZE -> Z.of_nat (length bs) <= LOGSIZE ->
  length (put_blocks (put32 d 0 (Z.of_nat (length bs))) 4 (take k bs)) = Z.to_nat BSIZE.
Proof.
  unfold BSIZE, LOGSIZE, MAXOPBLOCKS. intros Hd Hn. unfold put32.
  rewrite length_put_blocks; rewrite ?length_put_le; rewrite ?length_take; lia.
Qed.

Lemma write_head_ok V ps lk start bs s :
  bio i V [] ps lk s -> settled [] ps lk (s_bc s) -> lists start bs (s_log s) -> log_area start bs ->
  (forall b, b ∈ lk -> ~ named (s_bc s) b start) -> (length ps + length lk < NBUF)%nat ->
  let hd := header (V start) bs in
  exists s', write_head s = Ok tt s' /\ bio i (fupd V start hd) [] ps lk s' /\ same s s' /\
    s_disk s' = fupd (s_disk s) start hd /\ s_writes s' = (start, hd) :: s_writes s /\
    (forall x bn, x ∈ lk -> named (s_bc s') x bn <-> named (s_bc s) x bn).
Proof.
  intros Hb Hset Hl Ha Hlk Hroom hd. destruct (la_start _ _ Ha) as [Hs0 Hs1]. assert (Hlen := la_len _ _ Ha).
  unfold LOGSIZE, MAXOPBLOCKS in *.
  enough (wp write_head (fun _ s' => bio i (fupd V start hd) [] ps lk s' /\ same s s' /\
    s_disk s' = fupd (s_disk s) start hd /\ s_writes s' = (start, hd) :: s_writes s /\
    (forall x bn, x ∈ lk -> named (s_bc s') x bn <-> named (s_bc s) x bn)) s) as W.
  { apply wp_elim in W as ([] & s' & E & W). eauto. }
  unfold write_head, getl. do 2 step_get. rewrite (li_dev _ _ _ Hl), (li_start _ _ _ Hl).
  destruct (bread_ok i V [] ps lk start s) as (b & s1 & E1 & B1 & _ & Hbl & S1 & N1);
    [done|done|lia|apply not_elem_of_nil|done|right; simpl; lia|].
  run E1. step_get. rewrite (same_log s s1) by apply S1. rewrite (li_n _ _ _ Hl).
  assert (HV : length (V start) = Z.to_nat BSIZE) by apply (ca_vlen _ _ _ _ _ _ _ _ (bio_cache _ _ _ _ _ _ Hb)).
  set (d0 := put32 (V start) 0 (Z.of_nat (length bs))).
  apply wp_bind, wp_modify.
  assert (B2 := set_buf_data_ok i V _ ps lk b start (fun d => put32 d 0 (Z.of_nat (length bs))) s1 B1
    (list_elem_of_here _ _) Hbl (length_header_upto (V start) bs 0 HV ltac:(unfold LOGSIZE, MAXOPBLOCKS; lia))).
  set (s2 := put_buf b _ s1) in *.
  destruct (for_tail_ok (fun k => let* bn := get_block k in set_data b (fun d => put32 d (4 + 4 * k) bn))
    (length bs) (fun k s' => bio i (fupd V start (put_blocks d0 4 (take k bs))) [(b, start)] ps lk s' /\
       same_disk s2 s' /\ (forall x bn, named (s_bc s') x bn <-> named (s_bc s2) x bn)) s2)
    as (s3 & E3 & B3 & S3 & N3); [lia| | | |].
  - intros k s' (_ & S' & _). rewrite (same_log s2 s') by apply S'. cbn. rewrite (same_log s s1) by apply S1. apply Hl.
  - intros k s' Hk (B' & S' & N'). destruct (lookup_lt_is_Some_2 bs k Hk) as [c Hc].
    unfold bind. erewrite get_block_eq; [|reflexivity| |exact Hc].
    2: { rewrite (same_log s2 s') by apply S'. cbn. rewrite (same_log s s1) by apply S1. exact Hl. }
    eexists. split; [reflexivity|].
    assert (B'' := set_buf_data_ok i _ _ ps lk b start (fun d => put32 d (4 + 4 * Z.of_nat k) c) s' B' (list_elem_of_here _ _) Hbl).
    rewrite fupd_eq, fupd_fupd in B''. rewrite (take_S_r _ _ _ Hc), put_blocks_snoc, length_take.
    replace (length bs `min` k)%nat with k in * by lia. replace (k `min` length bs)%nat with k by lia.
    split_and!.
    + apply B''. unfold put32. rewrite length_put_le; [apply (length_header_upto (V start) bs k HV); unfold LOGSIZE, MAXOPBLOCKS; lia|lia|].
      pose proof (length_header_upto (V start) bs k HV ltac:(unfold LOGSIZE, MAXOPBLOCKS; lia)) as E.
      unfold d0. rewrite E. unfold BSIZE. lia.
    + eapply same_disk_trans; [exact S'|]. by split_and!.
    + intros x bn. rewrite <- N'. apply same_named. by apply upd_buf_same.
  - cbn [take put_blocks]. split_and!; [exact B2|apply same_disk_refl|done].
  - run E3. rewrite firstn_all in B3. fold (header (V start) bs) in B3. fold hd in B3.
    destruct (bwrite_ok i _ _ ps lk b start s3 B3 (list_elem_of_here _ _)) as (s4 & E4 & B4 & S4 & D4 & W4 & N4).
    run E4. rewrite fupd_eq in D4, W4.
    destruct (brelse_ok i _ _ ps lk b start s4 B4 (list_elem_of_here _ _)) as (s5 & E5 & B5 & S5 & N5).
    { left. rewrite D4. by rewrite !fupd_eq. }
    eapply wp_Ok; [exact E5|]. rewrite unheld_hd in B5.
    destruct S1 as (S1 & D1 & W1), S3 as (S3 & D3 & W3), S5 as (S5 & D5 & W5).
    split_and!; [exact B5| | | |].
    + eapply same_trans; [|exact S5]. eapply same_trans; [|exact S4]. eapply same_trans; [|exact S3].
      eapply same_trans; [exact S1|]. by split.
    + rewrite D5, D4, D3. cbn [s2 s_disk put_buf set_s_bc]. by rewrite D1.
    + rewrite W5, W4, W3. cbn [s2 s_writes put_buf set_s_bc]. by rewrite W1.
    + intros x bn Hx. rewrite N5, N4, N3, <- N1 by done. apply same_named. by apply upd_buf_same.
Qed.

(** ** commit() *)

Definition log_writes (V : Z -> list byte) (start : Z) (bs : list Z) : list (Z * list byte) :=
  imap (fun k b => (start + Z.of_nat k + 1, V b)) bs.
Definition home_writes (V : Z -> list byte) (bs : list Z) : list (Z * list byte) :=
  (fun b => (b, V b)) <$> bs.

(** Everything commit() writes, in order. *)
Definition commit_writes (V : Z -> list byte) (start : Z) (bs : list Z) : list (Z * list byte) :=
  let hd := header (V start) bs in
  log_writes V start bs ++ (start, hd) :: home_writes V bs ++ [(start, header hd [])].

(** The state after writing [W] to the blocks and to the disk. *)
Definition wrote (V : Z -> list byte) (ps : list Z) (W : list (Z * list byte)) (s s' : st) : Prop :=
  bio i (apply_w W V) [] ps [] s' /\ same s s' /\ s_disk s' = apply_w W (s_disk s) /\
  s_writes s' = rev W ++ s_writes s.

Lemma wrote_nil V ps s : bio i V [] ps [] s -> wrote V ps [] s s.
Proof. intros Hb. split_and!; [exact Hb|apply same_refl|done|done]. Qed.

Lemma bio_clean V ps s bn : bio i V [] ps [] s -> bn ∉ ps -> V bn = s_disk s bn.
Proof.
  intros [_ _ Hc] Hn. apply (ca_clean _ _ _ _ _ _ _ _ Hc). intros b Hb [Hd Hbn].
  rewrite (ca_ref _ _ _ _ _ _ _ _ Hc) by done. unfold refs. rewrite fmap_nil.
  rewrite (count_false (b ∈ [])) by apply not_elem_of_nil. rewrite count_false; [done|].
  intros [_ Hin]. by rewrite Hbn in Hin.
Qed.

Lemma rev_snoc_app {A} (l : list A) x r : rev (l ++ [x]) ++ r = x :: rev l ++ r.
Proof. by rewrite rev_unit. Qed.

Lemma log_writes_keys V start bs x :
  x ∈ (log_writes V start bs).*1 -> start < x <= start + Z.of_nat (length bs).
Proof.
  unfold log_writes. intros ([x' d] & -> & (k & b & [= -> ->] & Hk)%elem_of_lookup_imap_1)%list_elem_of_fmap.
  apply lookup_lt_Some in Hk. simpl. lia.
Qed.

Lemma write_log_ok V start bs s :
  bio i V [] bs [] s -> lists start bs (s_log s) -> log_area start bs ->
  exists s', write_log s = Ok tt s' /\ wrote V bs (log_writes V start bs) s s'.
Proof.
  intros Hb Hl Ha. assert (Hlen := la_len _ _ Ha). set (W := log_writes V start bs).
  assert (HW : length W = length bs) by apply length_imap.
  destruct (for_tail_ok write_log_one (length bs) (fun k s' => wrote V bs (take k W) s s') s) as (s' & E & Hs');
    [unfold LOGSIZE, MAXOPBLOCKS in *; lia| | |by apply wrote_nil|].
  - intros k s' (_ & S' & _). rewrite (same_log s s') by done. apply Hl.
  - intros k s' Hk (B' & S' & D' & W'). destruct (lookup_lt_is_Some_2 bs k Hk) as [b Hbk].
    assert (Hbin : b ∈ bs) by by eapply list_elem_of_lookup_2.
    destruct (write_log_one_ok _ start bs k b s' B') as (s2 & E2 & B2 & S2 & D2 & W2); [|done|done|].
    { by rewrite (same_log s s'). }
    assert (Hkey : apply_w (take k W) V b = V b).
    { apply apply_w_notin. rewrite list_elem_of_fmap.
      intros (w & -> & (j & Hin & _)%elem_of_take).
      assert (Hw : w.1 ∈ W.*1) by (apply list_elem_of_fmap; exists w; split; [done|by eapply list_elem_of_lookup_2]).
      apply log_writes_keys in Hw. destruct (la_bs _ _ Ha _ Hbin). lia. }
    exists s2. split; [done|]. rewrite Hkey in *.
    assert (HWk : W !! k = Some (start + Z.of_nat k + 1, V b)).
    { unfold W, log_writes. by rewrite list_lookup_imap, Hbk. }
    rewrite (take_S_r _ _ _ HWk). split_and!.
    + by rewrite apply_w_snoc.
    + by eapply same_trans.
    + by rewrite apply_w_snoc, D2, D'.
    + by rewrite rev_snoc_app, W2, W'.
  - exists s'. split; [done|]. by rewrite <- HW, firstn_all in Hs'.
Qed.

Lemma unpinned_drop bs k b :
  NoDup bs -> bs !! k = Some b -> unpinned b (drop k bs) = drop (S k) bs.
Proof.
  intros Hnd Hk. rewrite (drop_S _ _ _ Hk). unfold unpinned. rewrite filter_cons_False by tauto.
  rewrite <- (take_drop_middle _ _ _ Hk) in Hnd. apply NoDup_app in Hnd as (_ & _ & [Hn _]%NoDup_cons).
  revert Hn. generalize (drop (S k) bs). intros l. induction l as [|x l IH]; [done|].
  intros Hn. rewrite elem_of_cons in Hn. rewrite filter_cons_True by (intros ->; tauto). f_equal. apply IH. tauto.
Qed.

Lemma install_trans_ok V U start bs s :
  bio i V [] bs [] s -> lists start bs (s_log s) -> log_area start bs ->
  (forall k b, bs !! k = Some b -> V (start + Z.of_nat k + 1) = U b) ->
  exists s', install_trans s = Ok tt s' /\ wrote V [] (home_writes U bs) s s'.
Proof.
  intros Hb Hl Ha HU. assert (Hlen := la_len _ _ Ha). set (W := home_writes U bs).
  assert (HW : length W = length bs) by apply length_fmap.
  destruct (for_tail_ok install_one (length bs) (fun k s' => wrote V (drop k bs) (take k W) s s') s) as (s' & E & Hs');
    [unfold LOGSIZE, MAXOPBLOCKS in *; lia| | |by apply wrote_nil|].
  - intros k s' (_ & S' & _). rewrite (same_log s s') by done. apply Hl.
  - intros k s' Hk (B' & S' & D' & W'). destruct (lookup_lt_is_Some_2 bs k Hk) as [b Hbk].
    set (x := start + Z.of_nat k + 1).
    assert (Hx : x ∉ bs) by (intros Hin; destruct (la_bs _ _ Ha _ Hin); lia).
    assert (Hkey : apply_w (take k W) V x = U b).
    { rewrite apply_w_notin; [by apply HU|]. unfold W, home_writes. rewrite <- fmap_take, <- list_fmap_compose.
      rewrite list_elem_of_fmap. intros (c & -> & Hc). apply Hx. simpl.
      apply elem_of_take in Hc as (j & Hc & _). by eapply list_elem_of_lookup_2. }
    assert (Hwk : W !! k = Some (b, U b)) by (unfold W, home_writes; by rewrite list_lookup_fmap, Hbk).
    destruct (install_one_ok _ start bs (drop k bs) k b s' B') as (s2 & E2 & B2 & S2 & D2 & W2);
      [by rewrite (same_log s s')|done|done| | | |].
    + rewrite (drop_S _ _ _ Hbk). by left.
    + rewrite length_drop. lia.
    + fold x. apply (bio_clean _ _ _ x B'). intros Hin. apply Hx. rewrite <- (take_drop k bs), elem_of_app. by right.
    + exists s2. split; [done|]. fold x in B2, D2, W2. rewrite Hkey in *.
      rewrite (unpinned_drop _ _ _ (la_nodup _ _ Ha) Hbk) in B2.
      rewrite (take_S_r _ _ _ Hwk). split_and!.
      * by rewrite apply_w_snoc.
      * by eapply same_trans.
      * by rewrite apply_w_snoc, D2, D'.
      * by rewrite rev_snoc_app, W2, W'.
  - exists s'. split; [done|]. by rewrite drop_all, <- HW, firstn_all in Hs'.
Qed.

(** Changing the log's own variables does not concern the cache. *)
Lemma bio_set_log V hs ps lk f s : bio i V hs ps lk s -> bio i V hs ps lk (set_s_log f s).
Proof. intros Hb. by apply (bio_frame _ _ _ _ _ s). Qed.

(** [s'] differs from [s] in the cache, the disk and the log's variables. *)
Definition same_but_log (s s' : st) : Prop := same (set_s_log (s_log s') s) s'.

Lemma same_set_log l s s' : same s s' -> same (set_s_log l s) (set_s_log l s').
Proof. intros [E F]. split; [|exact F]. rewrite E. by destruct s. Qed.

Lemma log_writes_nodup V start bs : NoDup (log_writes V start bs).*1.
Proof.
  unfold log_writes. rewrite fmap_imap. apply NoDup_alt. intros j k x Hj Hk.
  rewrite list_lookup_imap_Some in Hj, Hk. destruct Hj as (? & _ & ->), Hk as (? & _ & E). simpl in E. lia.
Qed.

Lemma log_writes_in V start bs k b D :
  bs !! k = Some b -> apply_w (log_writes V start bs) D (start + Z.of_nat k + 1) = V b.
Proof.
  intros Hk. apply apply_w_in; [apply log_writes_nodup|]. unfold log_writes.
  apply elem_of_lookup_imap. exists k, b. done.
Qed.

Lemma home_writes_keys V bs : (home_writes V bs).*1 = bs.
Proof. unfold home_writes. rewrite <- list_fmap_compose. simpl. by rewrite list_fmap_id. Qed.

Lemma apply_commit V start bs D :
  apply_w (commit_writes V start bs) D =
  fupd (apply_w (home_writes V bs) (fupd (apply_w (log_writes V start bs) D) start (header (V start) bs)))
    start (header (header (V start) bs) []).
Proof.
  unfold commit_writes. rewrite apply_w_app.
  change (apply_w ((?x, ?d) :: ?w) ?D) with (apply_w w (fupd D x d)). by rewrite apply_w_snoc.
Qed.

Lemma commit_ok V start bs s :
  bio i V [] bs [] s -> lists start bs (s_log s) -> log_area start bs -> bs <> [] ->
  let W := commit_writes V start bs in
  exists s', commit s = Ok tt s' /\ bio i (apply_w W V) [] [] [] s' /\
    s_log s' = set_l_n 0 (s_log s) /\ same_but_log s s' /\
    s_disk s' = apply_w W (s_disk s) /\ s_writes s' = rev W ++ s_writes s.
Proof.
  intros Hb Hl Ha Hne W. destruct (la_start _ _ Ha) as [Hs0 Hs1]. assert (Hlen := la_len _ _ Ha).
  assert (Hst : start ∉ bs) by (intros Hin; destruct (la_bs _ _ Ha _ Hin); unfold LOGSIZE, MAXOPBLOCKS in *; lia).
  destruct (write_log_ok V start bs s Hb Hl Ha) as (s1 & E1 & B1 & S1 & D1 & W1).
  set (V1 := apply_w (log_writes V start bs) V) in *.
  assert (HV1 : V1 start = V start).
  { apply apply_w_notin. intros Hin%log_writes_keys. lia. }
  destruct (write_head_ok V1 bs [] start bs s1 B1 (settled_nil _ _ _)) as (s2 & E2 & B2 & S2 & D2 & W2 & _);
    [by rewrite (same_log s s1)|done|by intros ? []%not_elem_of_nil|simpl; unfold LOGSIZE, MAXOPBLOCKS, NBUF in *; lia|].
  rewrite HV1 in *. set (hd := header (V start) bs) in *.
  destruct (install_trans_ok (fupd V1 start hd) V start bs s2 B2) as (s3 & E3 & B3 & S3 & D3 & W3).
  { by rewrite (same_log s1 s2), (same_log s s1). }
  { done. }
  { intros k b Hk. rewrite fupd_ne by lia. by apply log_writes_in. }
  set (s4 := set_s_log (set_l_n 0 (s_log s3)) s3).
  assert (L3 : s_log s3 = s_log s) by (rewrite (same_log s2 s3), (same_log s1 s2), (same_log s s1); done).
  assert (B4 := bio_set_log _ _ _ _ (set_l_n 0 (s_log s3)) _ B3). fold s4 in B4.
  destruct (write_head_ok _ [] [] start [] s4 B4 (settled_nil _ _ _)) as (s5 & E5 & B5 & S5 & D5 & W5 & _).
  { cbn [s4 s_log set_s_log]. rewrite L3. destruct Hl. by split. }
  { split; [done|by intros ? []%not_elem_of_nil|constructor|done]. }
  { by intros ? []%not_elem_of_nil. }
  { simpl. unfold NBUF. lia. }
  rewrite apply_w_notin, fupd_eq in * by by rewrite home_writes_keys.
  assert (EW : forall D, apply_w W D =
    fupd (apply_w (home_writes V bs) (fupd (apply_w (log_writes V start bs) D) start hd)) start (header hd [])).
  { intros D. apply apply_commit. }
  exists s5. split_and!.
  - unfold commit, bind, getl, gets. rewrite (li_n _ _ _ Hl). destruct bs as [|b0 bs']; [done|].
    rewrite (proj2 (Z.ltb_lt 0 _)) by (simpl; lia). unfold when. rewrite E1, E2, E3. unfold set_log, modify.
    exact E5.
  - by rewrite EW.
  - rewrite (same_log s4 s5) by done. cbn [s4 s_log set_s_log]. by rewrite L3.
  - unfold same_but_log. rewrite (same_log s4 s5) by done. cbn [s4 s_log set_s_log].
    eapply same_trans; [|exact S5]. apply same_set_log. eapply same_trans; [|exact S3]. by eapply same_trans.
  - rewrite EW, D5. cbn [s4 s_disk set_s_log]. by rewrite D3, D2, D1.
  - rewrite W5. cbn [s4 s_writes set_s_log]. rewrite W3, W2, W1. unfold W, commit_writes. fold hd.
    rewrite rev_app_distr. cbn [rev]. rewrite rev_app_distr. cbn [rev app]. by rewrite <- !app_assoc.
Qed.

(** ** Recovery *)

(** install_trans() during recovery: nothing is pinned, so that every
    installed block leaves its buffer with a reference missing. *)
Lemma install_one_recover V start bs lk k b s :
  bio i V [] [] lk s -> lists start bs (s_log s) -> log_area start bs -> bs !! k = Some b ->
  let x := start + Z.of_nat k + 1 in
  V x = s_disk s x -> (forall y, y ∈ lk -> ~ named (s_bc s) y x /\ ~ named (s_bc s) y b) ->
  (length lk <= k)%nat ->
  exists s' db, install_one (Z.of_nat k) s = Ok tt s' /\ bio i (fupd V b (V x)) [] [] (db :: lk) s' /\
    same s s' /\ s_disk s' = fupd (s_disk s) b (V x) /\ s_writes s' = (b, V x) :: s_writes s /\
    named (s_bc s') db b /\ (forall y bn, y ∈ lk -> named (s_bc s') y bn <-> named (s_bc s) y bn) /\
    (db < NBUF)%nat /\ (db ∉ lk).
Proof.
  intros Hb Hl Ha Hk x Hxd Hlk Hlkn.
  assert (Hkl := lookup_lt_Some _ _ _ Hk). assert (Hbin : b ∈ bs) by by eapply list_elem_of_lookup_2.
  destruct (la_start _ _ Ha) as [Hs0 Hs1]. assert (Hlenb := la_len _ _ Ha).
  destruct (la_bs _ _ Ha b Hbin) as [Hbr Hbx]. assert (Hx : b <> x) by lia.
  unfold LOGSIZE, MAXOPBLOCKS in *.
  enough (wp (install_one (Z.of_nat k)) (fun _ s' => exists db, bio i (fupd V b (V x)) [] [] (db :: lk) s' /\
    same s s' /\ s_disk s' = fupd (s_disk s) b (V x) /\ s_writes s' = (b, V x) :: s_writes s /\
    named (s_bc s') db b /\ (forall y bn, y ∈ lk -> named (s_bc s') y bn <-> named (s_bc s) y bn) /\
    (db < NBUF)%nat /\ (db ∉ lk)) s) as W.
  { apply wp_elim in W as ([] & s' & E & db & W). eauto. }
  assert (Hset : forall hs bc, (forall y, y ∈ lk -> y ∉ hs.*1) -> settled hs [] lk bc).
  { intros hs bc Hd y Hy. split; [by apply Hd|]. intros; apply not_elem_of_nil. }
  unfold install_one, getl. do 2 step_get. rewrite (li_dev _ _ _ Hl), (li_start _ _ _ Hl).
  destruct (bread_ok i V [] [] lk x s) as (lb & s1 & E1 & B1 & _ & Hlb & S1 & N1);
    [done|apply Hset; intros; apply not_elem_of_nil|lia|apply not_elem_of_nil|by intros y Hy; apply Hlk|
     right; simpl; unfold NBUF; lia|].
  run E1. run (get_block_eq start bs (s_log s1) k b s1 eq_refl ltac:(rewrite (same_log s s1); [exact Hl|apply S1]) Hk).
  destruct (bread_ok i V [(lb, x)] [] lk b s1) as (db & s2 & E2 & B2 & Hne & Hdb & S2 & N2);
    [done| |done| | |right; simpl; unfold NBUF; lia|].
  { apply Hset. intros y Hy. cbn. rewrite list_elem_of_singleton. by intros ->. }
  { simpl. rewrite list_elem_of_singleton. done. }
  { intros y Hy. rewrite N1 by done. by apply Hlk. }
  run E2. unfold getb_. step_get. assert (Hdl : db <> lb) by (intros ->; apply Hne; by left).
  destruct (held_data _ _ _ _ _ _ _ _ B2 (list_elem_of_further _ _ _ (list_elem_of_here _ _))) as (_ & _ & ->).
  apply wp_bind, wp_modify.
  assert (B3 := set_buf_data_ok i V _ [] lk db b (fun _ => V x) s2 B2 (list_elem_of_here _ _) Hdb
    (ca_vlen _ _ _ _ _ _ _ _ (bio_cache _ _ _ _ _ _ B2) x)).
  set (s3 := put_buf db _ s2) in *.
  assert (N3 : forall y bn, named (s_bc s3) y bn <-> named (s_bc s2) y bn).
  { intros y bn. apply same_named. by apply upd_buf_same. }
  destruct (bwrite_ok i _ _ [] lk db b s3 B3 (list_elem_of_here _ _)) as (s4 & E4 & B4 & S4 & D4 & W4 & N4).
  run E4. rewrite fupd_eq in D4, W4.
  destruct (bunpin_leak i _ _ [] lk db b s4 B4 (list_elem_of_here _ _) Hdb (not_elem_of_nil _)) as (s5 & E5 & B5 & S5 & N5).
  { rewrite D4. by rewrite !fupd_eq. }
  run E5.
  destruct (brelse_ok i _ _ _ _ lb x s5 B5 (list_elem_of_further _ _ _ (list_elem_of_here _ _))) as (s6 & E6 & B6 & S6 & N6).
  { left. destruct S5 as (_ & -> & _). rewrite D4. rewrite !fupd_ne by done. cbn [s3 s_disk put_buf set_s_bc].
    destruct S2 as (_ & -> & _), S1 as (_ & -> & _). done. }
  run E6. rewrite unheld_ne, unheld_hd in B6 by done.
  destruct (brelse_ok i _ _ _ _ db b s6 B6 (list_elem_of_here _ _)) as (s7 & E7 & B7 & S7 & N7).
  { left. destruct S6 as (_ & -> & _), S5 as (_ & -> & _). rewrite D4. by rewrite !fupd_eq. }
  eapply wp_Ok; [exact E7|]. rewrite unheld_hd in B7. exists db.
  destruct S1 as (S1 & D1 & W1), S2 as (S2 & D2 & W2), S5 as (S5 & D5 & W5), S6 as (S6 & D6 & W6), S7 as (S7 & D7 & W7).
  split_and!; [exact B7| | | | | |apply (ca_held _ _ _ _ _ _ _ _ (bio_cache _ _ _ _ _ _ B2) db b), list_elem_of_here|done].
  - do 3 (eapply same_trans; [|eassumption]). eapply same_trans; [|exact S4].
    eapply same_trans; [|exact (conj eq_refl (fun _ => eq_refl) : same s2 s3)]. by eapply same_trans.
  - rewrite D7, D6, D5, D4. cbn [s3 s_disk put_buf set_s_bc]. by rewrite D2, D1.
  - rewrite W7, W6, W5, W4. cbn [s3 s_writes put_buf set_s_bc]. by rewrite W2, W1.
  - rewrite N7, N6, N5, N4, N3.
    by destruct (ca_held _ _ _ _ _ _ _ _ (bio_cache _ _ _ _ _ _ B2) db b (list_elem_of_here _ _)) as (_ & ? & _).
  - intros y bn Hy. by rewrite N7, N6, N5, N4, N3, N2, N1.
Qed.

(** The state during recovery, after the writes [W]: the cache shows the disk
    as it is, and the blocks in [ks] have leaked their buffers. *)
Definition recovering (D : Z -> list byte) (n : nat) (ks : list Z) (W : list (Z * list byte)) (s s' : st) : Prop :=
  exists lk, length lk = n /\ NoDup lk /\ Forall (fun b => b < NBUF)%nat lk /\ bio i (apply_w W D) [] [] lk s' /\
    (forall y bn, y ∈ lk -> named (s_bc s') y bn -> bn ∈ ks) /\
    same s s' /\ s_disk s' = apply_w W D /\ s_writes s' = rev W ++ s_writes s.

Lemma install_trans_recover U start bs s :
  bio i (s_disk s) [] [] [] s -> lists start bs (s_log s) -> log_area start bs ->
  (forall k b, bs !! k = Some b -> s_disk s (start + Z.of_nat k + 1) = U b) ->
  exists s', install_trans s = Ok tt s' /\ recovering (s_disk s) (length bs) bs (home_writes U bs) s s'.
Proof.
  intros Hb Hl Ha HU. assert (Hlen := la_len _ _ Ha). set (W := home_writes U bs).
  assert (HW : length W = length bs) by apply length_fmap.
  destruct (for_tail_ok install_one (length bs)
    (fun k s' => recovering (s_disk s) k (take k bs) (take k W) s s') s) as (s' & E & Hs');
    [unfold LOGSIZE, MAXOPBLOCKS in *; lia| | | |].
  - intros k s' (lk & _ & _ & _ & _ & _ & S' & _). rewrite (same_log s s') by done. apply Hl.
  - intros k s' Hk (lk & Hlk & Hnd & Hnb & B' & N' & S' & D' & W'). destruct (lookup_lt_is_Some_2 bs k Hk) as [b Hbk].
    set (x := start + Z.of_nat k + 1).
    assert (Htk : forall c, c ∈ take k bs -> c ∈ bs).
    { intros c (j & Hc & _)%elem_of_take. by eapply list_elem_of_lookup_2. }
    assert (Hx : x ∉ bs) by (intros Hin; destruct (la_bs _ _ Ha _ Hin); lia).
    assert (Hkey : apply_w (take k W) (s_disk s) x = U b).
    { rewrite apply_w_notin; [by apply HU|]. unfold W. rewrite fmap_take, home_writes_keys. by intros ?%Htk. }
    assert (Hwk : W !! k = Some (b, U b)) by (unfold W, home_writes; by rewrite list_lookup_fmap, Hbk).
    destruct (install_one_recover _ start bs lk k b s' B') as (s2 & db & E2 & B2 & S2 & D2 & W2 & Ndb & N2 & Hdbn & Hdb);
      [by rewrite (same_log s s')|done|done|by rewrite D'| |lia|].
    { intros y Hy. split; intros Hn; apply N' in Hn; [|done| |done].
      - by apply Hx, Htk.
      - pose proof (la_nodup _ _ Ha) as Hnd'. rewrite <- (take_drop_middle _ _ _ Hbk) in Hnd'.
        apply NoDup_app in Hnd' as (_ & Hd & _). apply (Hd b); [done|by left]. }
    exists s2. split; [done|]. fold x in B2, D2, W2. rewrite Hkey in *.
    exists (db :: lk). rewrite (take_S_r _ _ _ Hwk), (take_S_r _ _ _ Hbk). split_and!.
    + simpl. lia.
    + by apply NoDup_cons.
    + by apply Forall_cons.
    + by rewrite apply_w_snoc.
    + intros y bn [->|Hy]%elem_of_cons Hn; apply elem_of_app.
      * right. apply list_elem_of_singleton. destruct Hn, Ndb. congruence.
      * left. apply (N' y); [done|]. by apply N2.
    + by eapply same_trans.
    + by rewrite apply_w_snoc, D2, D'.
    + by rewrite rev_snoc_app, W2, W'.
  - exists []. split_and!; [done|constructor|constructor|exact Hb|by intros ? ? []%not_elem_of_nil|apply same_refl|done|done].
  - exists s'. split; [done|]. rewrite (firstn_all bs) in Hs'. rewrite <- HW in Hs' at 2.
    by rewrite firstn_all in Hs'.
Qed.

(** The header block [d] lists the blocks [bs]. *)
Definition heads (d : list byte) (bs : list Z) : Prop :=
  get32 d 0 = Z.of_nat (length bs) /\ forall k b, bs !! k = Some b -> get32 d (4 + 4 * Z.of_nat k) = b.

(** The log's variables before its header has been read. *)
Definition log_at (start : Z) (l : log) : Prop :=
  l_dev l = ROOTDEV /\ l_start l = start /\ length (l_block l) = Z.to_nat LOGSIZE.

Lemma same_but_log_trans s1 s2 s3 : same_but_log s1 s2 -> same_but_log s2 s3 -> same_but_log s1 s3.
Proof.
  unfold same_but_log. intros S1 S2. eapply same_trans; [|exact S2].
  apply (same_set_log (s_log s3)) in S1. by destruct s1.
Qed.

Lemma same_same_but_log s s' : same s s' -> same_but_log s s'.
Proof. intros S'. unfold same_but_log. rewrite (same_log s s') by done. by destruct s. Qed.

Lemma take_S_insert {A} (l : list A) k v : (k < length l)%nat -> take (S k) (<[k := v]> l) = take k l ++ [v].
Proof.
  intros Hk. rewrite (take_S_r _ _ v) by by apply list_lookup_insert_eq. by rewrite take_insert_ge.
Qed.

Lemma read_head_ok V start bs s :
  bio i V [] [] [] s -> log_at start (s_log s) -> log_area start bs -> heads (V start) bs ->
  exists s', read_head s = Ok tt s' /\ bio i V [] [] [] s' /\ lists start bs (s_log s') /\
    same_but_log s s' /\ s_disk s' = s_disk s /\ s_writes s' = s_writes s.
Proof.
  intros Hb (Hdev & Hst & Hll) Ha [Hn Hbs]. destruct (la_start _ _ Ha) as [Hs0 Hs1]. assert (Hlen := la_len _ _ Ha).
  enough (wp read_head (fun _ s' => bio i V [] [] [] s' /\ lists start bs (s_log s') /\
    same_but_log s s' /\ s_disk s' = s_disk s /\ s_writes s' = s_writes s) s) as W.
  { apply wp_elim in W as ([] & s' & E & W). eauto. }
  unfold read_head, getl. do 2 step_get. rewrite Hdev, Hst.
  destruct (bread_ok i V [] [] [] start s) as (b & s1 & E1 & B1 & _ & _ & S1 & _);
    [done|apply settled_nil|lia|apply not_elem_of_nil|by intros ? []%not_elem_of_nil|right; simpl; unfold NBUF; lia|].
  run E1. unfold getb_. step_get. destruct (held_data _ _ _ _ _ _ _ _ B1 (list_elem_of_here _ _)) as (_ & _ & ->).
  apply wp_bind, wp_modify. rewrite Hn, i32_small by (unfold LOGSIZE, MAXOPBLOCKS in *; lia).
  set (s2 := set_s_log _ s1).
  assert (L1 : s_log s1 = s_log s) by (apply (same_log s s1), S1).
  destruct (for_tail_ok (fun k => set_block k (get32 (V start) (4 + 4 * k))) (length bs)
    (fun k s' => bio i V [(b, start)] [] [] s' /\ log_at start (s_log s') /\
       l_n (s_log s') = Z.of_nat (length bs) /\ take k (l_block (s_log s')) = take k bs /\
       same_but_log s2 s' /\ s_disk s' = s_disk s2 /\ s_writes s' = s_writes s2) s2)
    as (s3 & E3 & B3 & L3 & N3 & T3 & S3 & D3 & W3); [unfold LOGSIZE, MAXOPBLOCKS in *; lia|by intros ? ? (_ & _ & ? & _)| | |].
  - intros k s' Hk (B' & (Ld & Ls & Ll) & N' & T' & S' & D' & W'). destruct (lookup_lt_is_Some_2 bs k Hk) as [c Hc].
    rewrite (Hbs _ _ Hc). unfold set_block, bind, getl, gets. rewrite Nat2Z.id.
    assert (Hkl : (k < length (l_block (s_log s')))%nat) by (rewrite Ll; unfold LOGSIZE, MAXOPBLOCKS in *; lia).
    rewrite (proj2 (Nat.ltb_lt _ _) Hkl). unfold set_log, modify. eexists. split; [reflexivity|].
    destruct (la_bs _ _ Ha c) as [Hcr _]; [by eapply list_elem_of_lookup_2|].
    rewrite i32_small by lia. split_and!; try done.
    + by apply bio_set_log.
    + split_and!; [done..|]. change (length (<[k := c]> (l_block (s_log s'))) = Z.to_nat LOGSIZE). by rewrite length_insert.
    + change (take (S k) (<[k := c]> (l_block (s_log s'))) = take (S k) bs).
      rewrite take_S_insert by done. by rewrite T', (take_S_r _ _ _ Hc).
    + eapply same_but_log_trans; [exact S'|]. unfold same_but_log. cbn. apply same_refl.
  - split_and!; try done.
    + by apply bio_set_log.
    + unfold log_at. cbn. by rewrite L1.
  - run E3. destruct (brelse_ok i _ _ [] [] b start s3 B3 (list_elem_of_here _ _)) as (s4 & E4 & B4 & S4 & _).
    { left. rewrite D3. cbn. destruct S1 as (_ & -> & _). apply (bio_clean _ _ _ _ Hb). apply not_elem_of_nil. }
    eapply wp_Ok; [exact E4|]. rewrite unheld_hd in B4. destruct S4 as (S4 & D4 & W4), S1 as (S1 & D1 & W1).
    split_and!; [exact B4| | | |].
    + rewrite (same_log s3 s4) by done. destruct L3 as (? & ? & ?). split; try done. by rewrite T3, firstn_all.
    + eapply same_but_log_trans; [|by apply same_same_but_log]. eapply same_but_log_trans; [|exact S3].
      unfold same_but_log. cbn. by apply same_set_log.
    + by rewrite D4, D3.
    + by rewrite W4, W3.
Qed.

(** ** What a disk with a log on it stands for *)

(** The disk [D], whose log lists the committed blocks [bs], stands for the
    file system [T]: the blocks of [bs] are to be taken from the log, all the
    other blocks from their home locations. *)
Record logged (start : Z) (bs : list Z) (D T : Z -> list byte) : Prop := {
  lg_area : log_area start bs;
  lg_head : heads (D start) bs;
  lg_log : forall k b, bs !! k = Some b -> D (start + Z.of_nat k + 1) = T b;
  lg_home : forall bn, ~ (start <= bn < start + LOGSIZE) -> bn ∉ bs -> D bn = T bn;
}.

(** The writes of a recovery. *)
Definition recovery_writes (start : Z) (bs : list Z) (D T : Z -> list byte) : list (Z * list byte) :=
  home_writes T bs ++ [(start, header (D start) [])].

Lemma log_area_nil start bs : log_area start bs -> log_area start [].
Proof. intros [? _ _ _]. split; [done|by intros ? []%not_elem_of_nil|constructor|done]. Qed.

Lemma heads_header d bs start :
  length d = Z.to_nat BSIZE -> log_area start bs -> heads (header d bs) bs.
Proof.
  intros Hd Ha. pose proof (la_len _ _ Ha). split; [apply header_n; [done|lia]|].
  intros k b Hk. apply header_block; [done|lia|done|].
  destruct (la_bs _ _ Ha b) as [? _]; [by eapply list_elem_of_lookup_2|lia].
Qed.

Lemma start_notin start bs : log_area start bs -> start ∉ bs.
Proof. intros Ha Hin. destruct (la_bs _ _ Ha _ Hin). unfold LOGSIZE, MAXOPBLOCKS in *. lia. Qed.

Lemma logblock_notin start bs k b : log_area start bs -> bs !! k = Some b -> start + Z.of_nat k + 1 ∉ bs.
Proof.
  intros Ha Hk Hin. apply lookup_lt_Some in Hk. pose proof (la_len _ _ Ha). destruct (la_bs _ _ Ha _ Hin).
  unfold LOGSIZE, MAXOPBLOCKS in *. lia.
Qed.

Lemma home_prefix_key V bs j b : b ∈ (take j (home_writes V bs)).*1 -> b ∈ bs.
Proof.
  rewrite fmap_take, home_writes_keys. intros (? & ? & _)%elem_of_take. by eapply list_elem_of_lookup_2.
Qed.

(** Copying some of the logged blocks to their home locations, ... *)
Lemma logged_install start bs D T j :
  logged start bs D T -> logged start bs (apply_w (take j (home_writes T bs)) D) T.
Proof.
  intros [Ha Hh Hl Ho]. split; [done| | |].
  - rewrite apply_w_notin; [done|]. intros ?%home_prefix_key. by apply (start_notin start bs).
  - intros k b Hk. rewrite apply_w_notin; [by apply Hl|]. intros ?%home_prefix_key.
    by apply (logblock_notin start bs k b).
  - intros bn Hbn Hn. rewrite apply_w_notin; [by apply Ho|]. by intros ?%home_prefix_key.
Qed.

(** ... and erasing the log once all of them are there, keep the file system. *)
Lemma logged_clear start bs D T d :
  logged start bs D T -> length d = Z.to_nat BSIZE ->
  logged start [] (fupd (apply_w (home_writes T bs) D) start (header d [])) T.
Proof.
  intros [Ha Hh Hl Ho] Hd. split; [by eapply log_area_nil| |done|].
  - rewrite fupd_eq. eapply heads_header; [done|by eapply log_area_nil].
  - intros bn Hbn _. rewrite fupd_ne by (unfold LOGSIZE, MAXOPBLOCKS in *; lia).
    destruct (decide (bn ∈ bs)) as [Hin|Hin].
    + apply apply_w_in; [rewrite home_writes_keys; apply Ha|]. apply list_elem_of_fmap. by exists bn.
    + rewrite apply_w_notin by by rewrite home_writes_keys. by apply Ho.
Qed.

Lemma logged_recovery_prefix start bs D T j :
  logged start bs D T -> length (D start) = Z.to_nat BSIZE ->
  exists bs', logged start bs' (apply_w (take j (recovery_writes start bs D T)) D) T.
Proof.
  intros Hl Hd. unfold recovery_writes.
  destruct (decide (j <= length (home_writes T bs))%nat).
  - exists bs. rewrite take_app_le by done. by apply logged_install.
  - exists []. rewrite take_ge by (rewrite length_app; simpl; lia). rewrite apply_w_snoc. by apply logged_clear.
Qed.

(** The moment the header is written, the transaction is committed. *)
Lemma log_prefix_keys V start bs j x :
  log_area start bs -> x ∈ (take j (log_writes V start bs)).*1 -> start < x < start + LOGSIZE.
Proof.
  intros Ha Hx. rewrite fmap_take in Hx. apply elem_of_take in Hx as (n & Hx & _).
  apply list_elem_of_lookup_2, log_writes_keys in Hx. pose proof (la_len _ _ Ha). lia.
Qed.

Lemma logged_committed start bs D V :
  log_area start bs -> (forall bn, length (V bn) = Z.to_nat BSIZE) -> (forall bn, bn ∉ bs -> V bn = D bn) ->
  logged start bs (fupd (apply_w (log_writes V start bs) D) start (header (V start) bs)) V.
Proof.
  intros Ha Hlen Hcl. split; [done| | |].
  - rewrite fupd_eq. by apply (heads_header _ _ start).
  - intros j b Hj. rewrite fupd_ne by lia. by apply log_writes_in.
  - intros bn Hbn Hn. rewrite fupd_ne by (unfold LOGSIZE, MAXOPBLOCKS in *; lia).
    rewrite apply_w_notin; [by rewrite Hcl|]. intros Hin. apply Hbn.
    rewrite <- (firstn_all (log_writes V start bs)) in Hin. apply log_prefix_keys in Hin; [lia|done].
Qed.

Lemma logged_done start bs D V :
  log_area start bs -> (forall bn, length (V bn) = Z.to_nat BSIZE) -> (forall bn, bn ∉ bs -> V bn = D bn) ->
  logged start [] (apply_w (commit_writes V start bs) D) V.
Proof.
  intros Ha Hlen Hcl. rewrite apply_commit. apply logged_clear; [by apply logged_committed|].
  pose proof (length_header_upto (V start) bs (length bs) (Hlen _)) as E. rewrite firstn_all in E. apply E.
  pose proof (la_len _ _ Ha). lia.
Qed.

(** Every prefix of the writes of a commit. *)
Lemma logged_commit_prefix start bs D V k :
  log_area start bs -> heads (D start) [] -> (forall bn, length (V bn) = Z.to_nat BSIZE) ->
  (forall bn, bn ∉ bs -> V bn = D bn) ->
  exists bs', logged start bs' (apply_w (take k (commit_writes V start bs)) D)
    (if (k <=? length bs)%nat then D else V).
Proof.
  intros Ha Hh Hlen Hcl. assert (HL : length (log_writes V start bs) = length bs) by apply length_imap.
  assert (HH : length (home_writes V bs) = length bs) by apply length_fmap.
  destruct (Nat.leb_spec k (length bs)).
  - exists []. unfold commit_writes. rewrite take_app_le by lia. split; [by eapply log_area_nil| |done|].
    + rewrite apply_w_notin; [done|]. intros ?%log_prefix_keys; [lia|done].
    + intros bn Hbn _. apply apply_w_notin. intros ?%log_prefix_keys; [lia|done].
  - destruct (decide (k <= length bs + S (length bs))%nat).
    + exists bs. unfold commit_writes. rewrite take_app_ge by lia. rewrite apply_w_app, HL.
      destruct (k - length bs)%nat as [|j] eqn:Ej; [lia|]. cbn [take].
      change (apply_w ((?x, ?d) :: ?w) ?D) with (apply_w w (fupd D x d)).
      rewrite take_app_le by lia. by apply logged_install, logged_committed.
    + exists []. rewrite take_ge; [by apply logged_done|].
      unfold commit_writes. rewrite length_app. cbn [length]. rewrite length_app. simpl. lia.
Qed.

Lemma recover_ok start bs T s :
  bio i (s_disk s) [] [] [] s -> log_at start (s_log s) -> logged start bs (s_disk s) T ->
  let W := recovery_writes start bs (s_disk s) T in
  exists s' lk, recover_from_log s = Ok tt s' /\ length lk = length bs /\ NoDup lk /\
    Forall (fun b => b < NBUF)%nat lk /\ bio i (s_disk s') [] [] lk s' /\
    lists start [] (s_log s') /\ same_but_log s s' /\
    s_disk s' = apply_w W (s_disk s) /\ s_writes s' = rev W ++ s_writes s.
Proof.
  intros Hb Hat [Ha Hh Hl Ho] W. assert (Hlen := la_len _ _ Ha).
  destruct (read_head_ok _ start bs s Hb Hat Ha Hh) as (s1 & E1 & B1 & L1 & S1 & D1 & W1).
  rewrite <- D1 in B1. destruct (install_trans_recover T start bs s1 B1 L1 Ha) as (s2 & E2 & lk & Hlk & Hnd & Hnb & B2 & N2 & S2 & D2 & W2);
    [by rewrite D1|].
  set (s3 := set_s_log (set_l_n 0 (s_log s2)) s2).
  assert (L3 : lists start [] (s_log s3)).
  { cbn [s3 s_log set_s_log]. rewrite (same_log s1 s2) by done. destruct L1. by split. }
  destruct (write_head_ok _ [] lk start [] s3 (bio_set_log _ _ _ _ _ _ B2)) as (s4 & E4 & B4 & S4 & D4 & W4 & _).
  { intros b _. split; [apply not_elem_of_nil|intros; apply not_elem_of_nil]. }
  { done. }
  { by eapply log_area_nil. }
  { intros b Hin Hn. apply N2 in Hn; [|done]. by apply (start_notin start bs). }
  { unfold LOGSIZE, MAXOPBLOCKS, NBUF in *. simpl. lia. }
  rewrite (apply_w_notin _ _ start) in B4, D4, W4 by (rewrite home_writes_keys; by apply start_notin).
  assert (E : s_disk s4 = apply_w W (s_disk s)).
  { rewrite D4. cbn [s3 s_disk set_s_log]. rewrite D2, D1. unfold W, recovery_writes. by rewrite apply_w_snoc. }
  exists s4, lk. split_and!; [|done|done|done| |by rewrite (same_log s3 s4)| |exact E|].
  - unfold recover_from_log, bind. rewrite E1, E2. exact E4.
  - rewrite E. unfold W, recovery_writes. rewrite apply_w_snoc. by rewrite D1 in B4.
  - eapply same_but_log_trans; [|by apply same_same_but_log]. eapply same_but_log_trans; [exact S1|].
    eapply same_but_log_trans; [by apply same_same_but_log|]. unfold same_but_log. cbn. apply same_refl.
  - rewrite W4. cbn [s3 s_writes set_s_log]. rewrite W2, W1, D1. unfold W, recovery_writes.
    by rewrite rev_snoc_app.
Qed.

(** A state in which the first process is about to call fsinit(): the cache is
    empty of anything but the disk's own contents. *)
Definition booted (D : Z -> list byte) (s : st) : Prop :=
  s_disk s = D /\ bio i D [] [] [] s /\ length (l_block (s_log s)) = Z.to_nat LOGSIZE.

Definition log_on (sb : superblock) (start : Z) : Prop := sb_logstart sb = start /\ 0 <= start < 2 ^ 31.

Lemma initlog_ok start sb bs D T s :
  booted D s -> log_on sb start -> logged start bs D T ->
  exists s' lk, initlog ROOTDEV sb s = Ok tt s' /\ length lk = length bs /\ NoDup lk /\
    Forall (fun b => b < NBUF)%nat lk /\ bio i (s_disk s') [] [] lk s' /\
    lists start [] (s_log s') /\ s_disk s' = apply_w (recovery_writes start bs D T) D /\
    s_writes s' = rev (recovery_writes start bs D T) ++ s_writes s.
Proof.
  intros (<- & Hb & Hll) [Hsb Hr] Hl.
  set (l := set_l_dev ROOTDEV (set_l_size (i32 (sb_nlog sb)) (set_l_start start (s_log s)))).
  set (s1 := set_s_log l s).
  assert (E : initlog ROOTDEV sb s = recover_from_log s1).
  { assert (Hf := q_free _ _ (bio_quiet _ _ _ _ _ _ Hb) LogLock). unfold free in Hf.
    assert (E0 : set_s_core (set_lks (fupd (lks (s_core s)) LogLock spin_free) (s_core s)) s = s).
    { rewrite <- Hf, fupd_id. by destruct s as [[[] ? ? ? ?]]. }
    assert (Ei : zoom (initlock LogLock) s = Ok tt s).
    { etransitivity; [|exact (f_equal (Ok tt) E0)]. reflexivity. }
    unfold initlog. cbn [BSIZE]. change (BSIZE <=? sizeof_logheader) with false. cbn iota.
    unfold bind at 1. rewrite Ei. unfold bind, set_log, modify. rewrite Hsb, (i32_small start) by lia. reflexivity. }
  destruct (recover_ok start bs T s1) as (s' & lk & E' & Hlk & Hnd & Hnb & B' & L' & S' & D' & W').
  - by apply bio_set_log.
  - done.
  - done.
  - exists s', lk. by rewrite E.
Qed.

End Commit.
