(* ===== verification/Txn.v ===== *)
(** Transactions: begin_op(), log_write() and end_op() of kernel/log.c, and
    what a sequence of block updates between them does to the disk when the
    machine stops at an arbitrary moment and is started again. *)

From Stdlib Require Import ZArith Lia FunctionalExtensionality.
From stdpp Require Import base tactics list strings.
From coqutil Require Import Byte.
From S2P Require Import Prelude Riscv Mem Core Spinlock Kalloc Vm State Csr Proc Sched Sleeplock Virtio Bio Dll Cache Block Log Commit.

Local Open Scope Z_scope.
Local Open Scope kern_scope.

Section Txn.
Context `{KernelImage} `{World} `{Symbols} `{BlockDevOk}.
Context (i : nat).


(** ** The order of the pinned blocks does not matter *)

Lemma cache_pins_iff V hs ps ps' lk me bc sl disk :
  (forall bn, bn ∈ ps <-> bn ∈ ps') -> cache V hs ps lk me bc sl disk -> cache V hs ps' lk me bc sl disk.
Proof.
  intros He [C1 C2 C3 C4 C5 C6 C7 C8 C9 C10 C11]. split; try done.
  - intros b Hb. rewrite C3 by done. unfold refs. f_equal. f_equal. f_equal. apply count_iff. by rewrite He.
  - intros bn Hin. apply C7. by apply He.
Qed.

Lemma bio_pins_iff V hs ps ps' lk s :
  (forall bn, bn ∈ ps <-> bn ∈ ps') -> bio i V hs ps lk s -> bio i V hs ps' lk s.
Proof. intros He [Hq Hr Hc]. split; [done|done|by eapply cache_pins_iff]. Qed.

(** ** log_write() *)

(** bpin() is called with log.lock held. *)
Lemma bpin_locked b s :
  quiet i (s_core s) ->
  bpin b (set_s_core (acq LogLock (s_core s)) s) =
    Ok tt (set_s_core (acq LogLock (s_core s)) (put_buf b (fun x => set_b_refcnt (u32 (b_refcnt x + 1)) x) s)).
Proof.
  intros Hq. set (c := acq LogLock (s_core s)).
  assert (Hc : calm c) by apply calm_acq, Hq.
  assert (Hf : free BcacheLock c) by (apply acq_free; [done|apply (q_free _ _ Hq)]).
  unfold bpin, bind. rewrite lock_eq by done. unfold set_buf, modify. by rewrite (unlock_eq _ c) by done.
Qed.

(** The log while [o] system calls are inside a transaction that has so far
    modified the blocks [bs]. *)
Record in_txn (start o : Z) (bs : list Z) (l : log) : Prop := {
  tx_lists : lists start bs l;
  tx_area : log_area start bs;
  tx_outstanding : l_outstanding l = o;
  tx_committing : l_committing l = 0;
  tx_size : l_size l = LOGSIZE;
}.

(** log_write() lists a block once: "log absorption". *)
Definition absorb (bn : Z) (bs : list Z) : list Z := if decide (bn ∈ bs) then bs else bs ++ [bn].

(** The scan finds the entry of block [bn], or the end of the list. *)
Lemma log_scan_ok start bs bn s :
  lists start bs (s_log s) -> log_area start bs -> 0 <= bn < 2 ^ 31 ->
  exists k, log_scan bn s = Ok (Z.of_nat k) s /\
    (bs !! k = Some bn \/ k = length bs /\ bn ∉ bs).
Proof.
  intros Hl Ha Hbn. assert (Hlen := la_len _ _ Ha).
  enough (wp (log_scan bn) (fun r s' => s' = s /\ exists k, r = Z.of_nat k /\ (bs !! k = Some bn \/ k = length bs /\ bn ∉ bs)) s) as W.
  { apply wp_elim in W as (r & s' & E & -> & k & -> & Hk). eauto. }
  apply (wp_loop _ (fun m r s' => s' = s /\ exists k, (k <= length bs)%nat /\ r = Z.of_nat k /\
    m = Z.of_nat (length bs - k) /\ bn ∉ take k bs)) with (n := Z.of_nat (length bs)).
  - intros m r s' _ (-> & k & Hk & -> & -> & Hn). unfold getl. step_get. rewrite (li_n _ _ _ Hl).
    destruct (Z.ltb_spec (Z.of_nat k) (Z.of_nat (length bs))).
    + destruct (lookup_lt_is_Some_2 bs k ltac:(lia)) as [x Hx].
      run (get_block_eq start bs (s_log s) k x s eq_refl Hl Hx).
      destruct (la_bs _ _ Ha x) as [Hxr _]; [by eapply list_elem_of_lookup_2|].
      rewrite u32_small by lia. destruct (Z.eqb_spec x bn) as [->|Hne]; apply wp_ret.
      * eauto.
      * exists (Z.of_nat (length bs - S k)). split; [lia|]. split; [done|]. exists (S k).
        split_and!; [lia|lia|done|]. rewrite (take_S_r _ _ _ Hx), elem_of_app, list_elem_of_singleton.
        intros [?|?]; [done|congruence].
    + apply wp_ret. split; [done|]. exists k. split; [done|]. right. assert (k = length bs) as -> by lia.
      by rewrite firstn_all in Hn.
  - unfold LOGSIZE, MAXOPBLOCKS in *. lia.
  - split; [done|]. exists 0%nat. split_and!; [lia|done|by rewrite Nat.sub_0_r|apply not_elem_of_nil].
Qed.

Lemma log_area_absorb start bs bn :
  log_area start bs -> 0 <= bn < 2 ^ 31 -> ~ (start <= bn < start + LOGSIZE) ->
  Z.of_nat (length bs) < LOGSIZE - 1 -> log_area start (absorb bn bs).
Proof.
  intros [A1 A2 A3 A4] Hbn Hout Hlen. unfold absorb. case_decide as E; [by split|]. split; [done| | |].
  - intros c [Hc| ->%list_elem_of_singleton]%elem_of_app; [by apply A2|done].
  - apply NoDup_app. split_and!; [done| |apply NoDup_singleton]. by intros c Hc ->%list_elem_of_singleton.
  - rewrite length_app. simpl. lia.
Qed.

Lemma elem_of_absorb bn bs c : c ∈ absorb bn bs <-> c = bn \/ c ∈ bs.
Proof.
  unfold absorb. case_decide as E; [|rewrite elem_of_app, list_elem_of_singleton; tauto].
  split; [tauto|]. by intros [->|].
Qed.
Lemma absorb_in bn bs : bn ∈ bs -> absorb bn bs = bs.
Proof. unfold absorb. by case_decide. Qed.

Lemma absorb_new bn bs : bn ∉ bs -> absorb bn bs = bs ++ [bn].
Proof. unfold absorb. by case_decide. Qed.

Lemma set_block_eq k bn s :
  (k < length (l_block (s_log s)))%nat -> 0 <= bn < 2 ^ 31 ->
  set_block (Z.of_nat k) bn s = Ok tt (set_s_log (set_l_block (<[k := bn]> (l_block (s_log s))) (s_log s)) s).
Proof.
  intros Hk Hbn. unfold set_block, bind, getl, gets. rewrite Nat2Z.id, (proj2 (Nat.ltb_lt _ _) Hk).
  unfold set_log, modify. by rewrite i32_small by lia.
Qed.

(** The log's variables after log_write() stored the entry at [k]. *)
Definition with_entry (k : nat) (bn : Z) (bs : list Z) (l : log) : log :=
  set_l_n (Z.of_nat (length (absorb bn bs))) (set_l_block (<[k := bn]> (l_block l)) l).

Lemma lists_entry start bs bn k l :
  lists start bs l -> log_area start bs -> (bs !! k = Some bn \/ k = length bs /\ bn ∉ bs) ->
  lists start (absorb bn bs) (with_entry k bn bs l).
Proof.
  intros [L1 L2 L3 L4 L5] Ha Hk. assert (Hlen := la_len _ _ Ha).
  split; cbn; try done; [|by rewrite length_insert].
  unfold absorb. destruct Hk as [Hk|[-> Hk]].
  - rewrite decide_True by by eapply list_elem_of_lookup_2.
    rewrite list_insert_id; [done|]. rewrite <- L4 in Hk. by apply lookup_take_Some in Hk as [? _].
  - rewrite decide_False by done. rewrite length_app. cbn [length]. rewrite Nat.add_1_r.
    rewrite take_S_insert by lia. by rewrite L4.
Qed.

Lemma in_txn_entry start o bs bn k l :
  in_txn start o bs l -> 0 <= bn < 2 ^ 31 -> ~ (start <= bn < start + LOGSIZE) ->
  Z.of_nat (length bs) < LOGSIZE - 1 -> (bs !! k = Some bn \/ k = length bs /\ bn ∉ bs) ->
  in_txn start o (absorb bn bs) (with_entry k bn bs l).
Proof.
  intros [T1 T2 T3 T4 T5] Hbn Hout Hlen Hk. split; try done; [by apply lists_entry|by apply log_area_absorb].
Qed.

Lemma log_write_ok V hs start o bs b bn s :
  bio i V hs bs [] s -> in_txn start o bs (s_log s) -> 1 <= o -> (b, bn) ∈ hs ->
  ~ (start <= bn < start + LOGSIZE) -> Z.of_nat (length bs) < LOGSIZE - 1 ->
  exists s', log_write b s = Ok tt s' /\ bio i V hs (absorb bn bs) [] s' /\
    in_txn start o (absorb bn bs) (s_log s') /\ same_but_log s s' /\
    s_disk s' = s_disk s /\ s_writes s' = s_writes s.
Proof.
  intros Hb Ht Ho Hin Hout Hlen. assert (Hq := bio_quiet _ _ _ _ _ _ Hb).
  destruct (ca_held _ _ _ _ _ _ _ _ (bio_cache _ _ _ _ _ _ Hb) b bn Hin) as (Hb' & Hn & _).
  destruct (ca_valid _ _ _ _ _ _ _ _ (bio_cache _ _ _ _ _ _ Hb) b bn Hb' Hn) as (_ & _ & Hbn).
  destruct Ht as [T1 T2 T3 T4 T5] eqn:HT. clear HT.
  assert (Hsl : exists k, log_scan bn (set_s_core (acq LogLock (s_core s)) s) =
     Ok (Z.of_nat k) (set_s_core (acq LogLock (s_core s)) s) /\ (bs !! k = Some bn \/ k = length bs /\ bn ∉ bs))
    by by apply (log_scan_ok start).
  destruct Hsl as (k & Ek & Hk).
  assert (Hkl : (k < length (l_block (s_log s)))%nat).
  { rewrite (li_len _ _ _ T1). destruct Hk as [Hk%lookup_lt_Some|[-> _]]; unfold LOGSIZE, MAXOPBLOCKS in *; lia. }
  set (l' := with_entry k bn bs (s_log s)).
  assert (Ht' : in_txn start o (absorb bn bs) l') by by apply in_txn_entry.
  assert (E : log_write b s = Ok tt (set_s_log l' (if decide (bn ∈ bs) then s
     else put_buf b (fun x => set_b_refcnt (u32 (b_refcnt x + 1)) x) s))).
  { unfold log_write. unfold bind at 1, gets. rewrite T5, T3, (li_n _ _ _ T1).
    rewrite (proj2 (Z.leb_gt LOGSIZE _)), (proj2 (Z.leb_gt (LOGSIZE - 1) _)), (proj2 (Z.ltb_ge o 1)) by lia. cbn [orb].
    unfold bind at 1. rewrite (lock_quiet _ i) by done. unfold bind at 1, getb_, gets.
    cbn [s_bc set_s_core set_s_k]. rewrite (proj2 Hn). unfold bind at 1. rewrite Ek.
    unfold bind at 1. rewrite set_block_eq by done. unfold bind at 1, getl, gets. cbn [s_log set_s_log l_n set_l_block].
    cbn [s_log set_s_core set_s_k]. rewrite (li_n _ _ _ T1). clear Ek.
    destruct Hk as [Hk|[-> Hk]].
    - assert (Hkn := lookup_lt_Some _ _ _ Hk). assert (Hbi : bn ∈ bs) by by eapply list_elem_of_lookup_2.
      rewrite (proj2 (Z.eqb_neq (Z.of_nat k) _)) by lia. unfold when, bind, ret.
      rewrite (unlock_quiet _ i (s_core s)) by done. rewrite decide_True by done. f_equal.
      unfold l', with_entry. rewrite absorb_in by done. rewrite <- (li_n _ _ _ T1). by destruct s as [[] ? ? ? []].
    - rewrite Z.eqb_refl. unfold when, bind. rewrite decide_False by done.
      match goal with |- context [set_s_log ?x (set_s_core ?c s)] =>
        change (set_s_log x (set_s_core c s)) with (set_s_core (acq LogLock (s_core (set_s_log x s))) (set_s_log x s)) end.
      rewrite bpin_locked by done. unfold set_log, modify.
      rewrite (unlock_quiet _ i (s_core s)) by done. f_equal.
      unfold l', with_entry. rewrite absorb_new, length_app, Nat2Z.inj_add by done. rewrite <- (li_n _ _ _ T1).
      by destruct s as [[] ? ? ? []]. }
  eexists. split; [exact E|]. split_and!; [apply bio_set_log|exact Ht'| |by case_decide|by case_decide].
  - case_decide as Hbi; [by rewrite absorb_in|].
    destruct (bpin_ok i V hs bs [] b bn s Hb Hin (not_elem_of_nil _) Hbi) as (s2 & E2 & B2 & _).
    rewrite (bpin_eq i) in E2 by done. injection E2 as <-. eapply bio_pins_iff; [|exact B2].
    intros c. rewrite elem_of_absorb, elem_of_cons. tauto.
  - unfold same_but_log. cbn [s_log set_s_log]. case_decide; apply same_set_log; [apply same_refl|by split].
Qed.

(** ** begin_op() and end_op() *)

Lemma begin_op_ok V hs lk start o bs s :
  bio i V hs bs lk s -> in_txn start o bs (s_log s) ->
  Z.of_nat (length bs) + (o + 1) * MAXOPBLOCKS <= LOGSIZE ->
  exists s', begin_op s = Ok tt s' /\ bio i V hs bs lk s' /\ in_txn start (o + 1) bs (s_log s') /\
    same_but_log s s' /\ s_disk s' = s_disk s /\ s_writes s' = s_writes s.
Proof.
  intros Hb [T1 T2 T3 T4 T5] Hroom. assert (Hq := bio_quiet _ _ _ _ _ _ Hb).
  exists (set_s_log (set_l_outstanding (o + 1) (s_log s)) s). split_and!; try done.
  - unfold begin_op, bind at 1. rewrite (lock_quiet _ i) by done.
    apply loop_once. unfold bind at 1, gets. cbn [s_log set_s_core set_s_k].
    rewrite T4, T3, (li_n _ _ _ T1), (proj2 (Z.ltb_ge _ _)) by done. cbn [Z.eqb negb].
    unfold bind, set_log, modify. rewrite (unlock_quiet _ i (s_core s)) by done. unfold ret. f_equal.
    rewrite <- T3. by destruct s as [[] ? ? ? []].
  - by apply bio_set_log.
  - destruct T1. by split.
Qed.

(** The block writes of the last end_op() of a transaction. *)
Definition txn_writes (V : Z -> list byte) (start : Z) (bs : list Z) : list (Z * list byte) :=
  match bs with [] => [] | _ => commit_writes V start bs end.

Lemma commit_txn V start bs s :
  bio i V [] bs [] s -> lists start bs (s_log s) -> log_area start bs ->
  let W := txn_writes V start bs in
  exists s', commit s = Ok tt s' /\ bio i (apply_w W V) [] [] [] s' /\
    s_log s' = set_l_n 0 (s_log s) /\ same_but_log s s' /\
    s_disk s' = apply_w W (s_disk s) /\ s_writes s' = rev W ++ s_writes s.
Proof.
  intros Hb Hl Ha. destruct bs as [|b bs]; [|by apply commit_ok].
  exists s. split_and!; [|exact Hb| | |done|done].
  - unfold commit, bind, getl, gets. by rewrite (li_n _ _ _ Hl).
  - destruct Hl as [_ _ E _ _]. by destruct s as [? ? ? ? []]; simpl in *; subst.
  - unfold same_but_log. destruct s. apply same_refl.
Qed.

(** wakeup(&log) with log.lock held, when nobody waits for the log. *)
Lemma wakeup_log s :
  quiet i (s_core s) ->
  wakeup ChLog (set_s_core (acq LogLock (s_core s)) s) = Ok tt (set_s_core (acq LogLock (s_core s)) s).
Proof.
  intros Hq. apply wakeup_none.
  - apply calm_acq, Hq.
  - intros j Hj. apply acq_free; [done|apply (q_free _ _ Hq)].
  - apply (q_log _ _ Hq).
Qed.

(** The last system call of a transaction commits it. *)
Lemma end_op_last V start bs s :
  bio i V [] bs [] s -> in_txn start 1 bs (s_log s) ->
  let W := txn_writes V start bs in
  exists s', end_op s = Ok tt s' /\ bio i (apply_w W V) [] [] [] s' /\ in_txn start 0 [] (s_log s') /\
    same_but_log s s' /\ s_disk s' = apply_w W (s_disk s) /\ s_writes s' = rev W ++ s_writes s.
Proof.
  intros Hb [T1 T2 T3 T4 T5] W. assert (Hq := bio_quiet _ _ _ _ _ _ Hb).
  set (s1 := set_s_log (set_l_committing 1 (set_l_outstanding 0 (s_log s))) s).
  destruct (commit_txn V start bs s1) as (s2 & E2 & B2 & L2 & S2 & D2 & W2);
    [by apply bio_set_log|by destruct T1; split|done|]. fold W in B2, D2, W2.
  assert (Hq2 := bio_quiet _ _ _ _ _ _ B2).
  exists (set_s_log (set_l_committing 0 (s_log s2)) s2). split_and!; [|by apply bio_set_log| | |done|done].
  - unfold end_op. unfold bind at 1. rewrite (lock_quiet _ i) by done.
    unfold bind at 1, set_log at 1, modify, bind at 1, getl at 1, gets.
    cbn [s_log set_s_log set_s_core set_s_k l_committing set_l_outstanding]. rewrite T4. cbn [Z.eqb negb].
    unfold bind at 1, getl, gets. cbn [s_log set_s_log set_s_core set_s_k l_outstanding set_l_outstanding].
    rewrite T3. change (1 - 1 =? 0) with true. cbn iota. unfold bind at 1, set_log at 1, modify.
    unfold bind at 1. rewrite (unlock_quiet _ i (s_core s)) by done. unfold when. unfold bind at 1.
    match goal with |- context [commit ?x] => replace x with s1 by by destruct s as [[] ? ? ? []] end.
    rewrite E2. unfold bind at 1. rewrite (lock_quiet _ i) by done. unfold bind at 1, set_log, modify.
    unfold bind. match goal with |- context [wakeup ChLog (set_s_log ?l (set_s_core ?c s2))] =>
      change (set_s_log l (set_s_core c s2)) with (set_s_core (acq LogLock (s_core (set_s_log l s2))) (set_s_log l s2)) end.
    rewrite wakeup_log by done. rewrite (unlock_quiet _ i (s_core s2)) by done. f_equal. by destruct s2 as [[]].
  - cbn [s_log set_s_log]. rewrite L2. destruct T1. split; [by split|by eapply log_area_nil|done..].
  - eapply same_but_log_trans; [|unfold same_but_log; cbn; apply same_refl].
    eapply same_but_log_trans; [|exact S2]. unfold same_but_log. cbn. apply same_refl.
Qed.

(** An earlier end_op() leaves the commit to the other system calls. *)
Lemma end_op_more V hs lk start o bs s :
  bio i V hs bs lk s -> in_txn start o bs (s_log s) -> 1 < o ->
  exists s', end_op s = Ok tt s' /\ bio i V hs bs lk s' /\ in_txn start (o - 1) bs (s_log s') /\
    same_but_log s s' /\ s_disk s' = s_disk s /\ s_writes s' = s_writes s.
Proof.
  intros Hb [T1 T2 T3 T4 T5] Ho. assert (Hq := bio_quiet _ _ _ _ _ _ Hb).
  set (s1 := set_s_log (set_l_outstanding (o - 1) (s_log s)) s).
  exists s1. split_and!; [|by apply bio_set_log|by destruct T1; split| |done|done].
  - unfold end_op. unfold bind at 1. rewrite (lock_quiet _ i) by done.
    unfold bind at 1, set_log at 1, modify, bind at 1, getl at 1, gets.
    cbn [s_log set_s_log set_s_core set_s_k l_committing set_l_outstanding]. rewrite T4. cbn [Z.eqb negb].
    unfold bind at 1, getl, gets. cbn [s_log set_s_log set_s_core set_s_k l_outstanding set_l_outstanding].
    rewrite T3. rewrite (proj2 (Z.eqb_neq (o - 1) 0)) by lia. cbn iota.
    change (set_s_log _ (set_s_core ?c s)) with (set_s_core (acq LogLock (s_core s1)) s1).
    unfold bind. rewrite wakeup_log by done. rewrite (unlock_quiet _ i (s_core s)) by done. unfold when, ret.
    by destruct s as [[]].
  - unfold same_but_log. apply same_refl.
Qed.

(** ** Block updates inside a transaction *)

(** The way every function of fs.c changes a block: bread(), a change of
    bp->data, log_write() and brelse(). *)
Definition update (bn : Z) (f : list byte -> list byte) : M st unit :=
  let* b := bread ROOTDEV bn in
  set_data b f ;;;
  log_write b ;;;
  brelse b.

Definition updated (V : Z -> list byte) (u : Z * (list byte -> list byte)) : Z -> list byte :=
  fupd V u.1 (u.2 (V u.1)).

(** A block outside the log, and a change that keeps the size of the block. *)
Definition update_ok (start : Z) (u : Z * (list byte -> list byte)) : Prop :=
  0 <= u.1 < 2 ^ 31 /\ ~ (start <= u.1 < start + LOGSIZE) /\
  forall d, length d = Z.to_nat BSIZE -> length (u.2 d) = Z.to_nat BSIZE.

Lemma update_one V start o bs u s :
  bio i V [] bs [] s -> in_txn start o bs (s_log s) -> 1 <= o -> update_ok start u ->
  Z.of_nat (length bs) < LOGSIZE - 1 ->
  exists s', update u.1 u.2 s = Ok tt s' /\ bio i (updated V u) [] (absorb u.1 bs) [] s' /\
    in_txn start o (absorb u.1 bs) (s_log s') /\ same_but_log s s' /\
    s_disk s' = s_disk s /\ s_writes s' = s_writes s.
Proof.
  intros Hb Ht Ho (Hbn & Hout & Hf) Hlen. destruct u as [bn f]. cbn [fst snd] in *.
  destruct (bread_ok i V [] bs [] bn s) as (b & s1 & E1 & B1 & _ & _ & (S1 & D1 & W1) & _);
    [done|apply settled_nil|done|apply not_elem_of_nil|by intros ? []%not_elem_of_nil|
     right; simpl; unfold LOGSIZE, MAXOPBLOCKS, NBUF in *; lia|].
  assert (B2 := set_buf_data_ok i V _ bs [] b bn f s1 B1 (list_elem_of_here _ _) (not_elem_of_nil _)
    (Hf _ (ca_vlen _ _ _ _ _ _ _ _ (bio_cache _ _ _ _ _ _ B1) bn))).
  set (s2 := put_buf b _ s1) in *. assert (S2 : same s1 s2) by by split.
  destruct (log_write_ok _ [(b, bn)] start o bs b bn s2 B2) as (s3 & E3 & B3 & T3 & S3 & D3 & W3);
    [cbn [s2 s_log put_buf set_s_bc]; by rewrite (same_log s s1)|done|by left|done|done|].
  destruct (brelse_ok i _ _ _ [] b bn s3 B3 (list_elem_of_here _ _)) as (s4 & E4 & B4 & (S4 & D4 & W4) & _).
  { right. split; [apply elem_of_absorb; by left|apply not_elem_of_nil]. }
  rewrite unheld_hd in B4. exists s4. split_and!; [|exact B4|by rewrite (same_log s3 s4)| | |].
  - unfold update. unfold bind at 1. rewrite E1. unfold bind at 1.
    change (set_data b f s1) with (Ok tt s2 : outcome st unit). cbn iota. unfold bind. by rewrite E3.
  - eapply same_but_log_trans; [|by apply same_same_but_log]. eapply same_but_log_trans; [|exact S3].
    apply same_same_but_log. by eapply same_trans.
  - by rewrite D4, D3.
  - by rewrite W4, W3.
Qed.

Fixpoint updates (us : list (Z * (list byte -> list byte))) : M st unit :=
  match us with [] => ret tt | u :: us' => update u.1 u.2 ;;; updates us' end.

Lemma absorb_bound bn bs : (length (absorb bn bs) <= S (length bs))%nat.
Proof. unfold absorb. case_decide; rewrite ?length_app; simpl; lia. Qed.

(** The logged blocks after the updates [us]. *)
Definition absorbed (bs : list Z) (us : list (Z * (list byte -> list byte))) : list Z :=
  foldl (fun bs u => absorb u.1 bs) bs us.

Lemma absorbed_new us : forall bs, NoDup (bs ++ us.*1) -> absorbed bs us = bs ++ us.*1.
Proof.
  induction us as [|u us IH]; intros bs Hnd; cbn [absorbed foldl fmap list_fmap] in *; [by rewrite app_nil_r|].
  rewrite cons_middle, app_assoc in Hnd. fold (absorbed (absorb u.1 bs) us). rewrite absorb_new.
  - rewrite IH by done. by rewrite <- app_assoc.
  - apply NoDup_app in Hnd as (Hnd & _ & _). apply NoDup_app in Hnd as (_ & Hd & _).
    intros Hin. apply (Hd u.1 Hin). by left.
Qed.

Lemma updates_ok us : forall V start o bs s,
  bio i V [] bs [] s -> in_txn start o bs (s_log s) -> 1 <= o -> Forall (update_ok start) us ->
  Z.of_nat (length bs + length us) <= LOGSIZE - 1 ->
  exists s', updates us s = Ok tt s' /\ bio i (foldl updated V us) [] (absorbed bs us) [] s' /\
    in_txn start o (absorbed bs us) (s_log s') /\ same_but_log s s' /\
    s_disk s' = s_disk s /\ s_writes s' = s_writes s.
Proof.
  induction us as [|u us IH]; intros V start o bs s Hb Ht Ho Hus Hlen.
  - exists s. split_and!; try done. unfold same_but_log. destruct s. apply same_refl.
  - apply Forall_cons in Hus as [Hu Hus]. cbn [length] in Hlen.
    destruct (update_one V start o bs u s Hb Ht Ho Hu ltac:(lia)) as (s1 & E1 & B1 & T1 & S1 & D1 & W1).
    pose proof (absorb_bound u.1 bs).
    destruct (IH _ start o _ s1 B1 T1 Ho Hus ltac:(lia)) as (s2 & E2 & B2 & T2 & S2 & D2 & W2).
    exists s2. split_and!; [|done|done|by eapply same_but_log_trans|by rewrite D2|by rewrite W2].
    cbn [updates]. unfold bind. by rewrite E1.
Qed.

Lemma updates_app us us' s : updates (us ++ us') s = (updates us ;;; updates us') s.
Proof.
  revert s. induction us as [|u us IH]; intros s; [done|]. cbn [updates app]. unfold bind in *.
  by destruct (update u.1 u.2 s) as [[] s1| | | |].
Qed.

(** With LOGSIZE - 1 blocks in the log, log_write() panics. *)
Lemma update_full V start o bs u s :
  bio i V [] bs [] s -> in_txn start o bs (s_log s) -> update_ok start u ->
  Z.of_nat (length bs) = LOGSIZE - 1 -> u.1 ∉ bs -> update u.1 u.2 s = Panic "too big a transaction".
Proof.
  intros Hb [T1 T2 T3 T4 T5] (Hbn & _ & _) Hlen Hnew. destruct u as [bn f]. cbn [fst snd] in *.
  destruct (bread_ok i V [] bs [] bn s) as (b & s1 & E1 & B1 & _ & _ & (S1 & D1 & W1) & _);
    [done|apply settled_nil|done|apply not_elem_of_nil|by intros ? []%not_elem_of_nil|
     right; simpl; unfold LOGSIZE, MAXOPBLOCKS, NBUF in *; lia|].
  unfold update. unfold bind at 1. rewrite E1. unfold bind at 1, set_data, set_buf, modify.
  unfold bind, log_write, gets. cbn [s_log put_buf set_s_bc]. unfold bind.
  cbn [s_log set_s_bc]. rewrite (same_log s s1) by done. rewrite T5, (li_n _ _ _ T1), Hlen.
  rewrite (proj2 (Z.leb_le (LOGSIZE - 1) (LOGSIZE - 1))) by lia. by rewrite orb_true_r.
Qed.

(** What one system call does: its updates between begin_op() and end_op(). *)
Definition transaction (us : list (Z * (list byte -> list byte))) : M st unit :=
  begin_op ;;; updates us ;;; end_op.

(** ** Between transactions *)

(** Nothing is cached that is not on the disk, and the log is empty. *)
Record idle (start : Z) (s : st) : Prop := {
  id_bio : bio i (s_disk s) [] [] [] s;
  id_txn : in_txn start 0 [] (s_log s);
  id_head : heads (s_disk s start) [];
}.

Lemma bio_clean_all V s : bio i V [] [] [] s -> bio i (s_disk s) [] [] [] s.
Proof.
  intros Hb. replace (s_disk s) with V; [done|]. extensionality bn.
  apply (bio_clean i V [] s bn Hb), not_elem_of_nil.
Qed.

Lemma logged_txn V start bs D :
  log_area start bs -> heads (D start) [] -> (forall bn, length (V bn) = Z.to_nat BSIZE) ->
  (forall bn, bn ∉ bs -> V bn = D bn) -> logged start [] (apply_w (txn_writes V start bs) D) V.
Proof.
  intros Ha Hh Hlen Hcl. destruct bs as [|b bs]; [|by apply logged_done].
  split; [done|done|done|]. intros bn _ Hn. by rewrite Hcl.
Qed.

Lemma logged_txn_prefix start bs D V k :
  log_area start bs -> heads (D start) [] -> (forall bn, length (V bn) = Z.to_nat BSIZE) ->
  (forall bn, bn ∉ bs -> V bn = D bn) ->
  exists bs', logged start bs' (apply_w (take k (txn_writes V start bs)) D)
    (if (k <=? length bs)%nat then D else V).
Proof.
  intros Ha Hh Hlen Hcl. destruct bs as [|b bs]; [|by apply logged_commit_prefix].
  exists []. cbn [txn_writes]. rewrite take_nil. split; [done|done|done|]. intros bn _ Hn.
  destruct (k <=? _)%nat; [done|]. by rewrite Hcl.
Qed.

(** A restart brings the disk to the file system its log stands for. *)
Lemma initlog_restores start sb bs D T s :
  booted i D s -> log_on sb start -> logged start bs D T ->
  exists s', initlog ROOTDEV sb s = Ok tt s' /\
    forall bn, ~ (start <= bn < start + LOGSIZE) -> s_disk s' bn = T bn.
Proof.
  intros Hbt Hsb Hl. destruct (initlog_ok i start sb bs D T s Hbt Hsb Hl) as (s' & lk & E & _ & _ & _ & _ & _ & D' & _).
  exists s'. split; [done|]. intros bn Hbn. rewrite D'. unfold recovery_writes. rewrite apply_w_snoc.
  apply (lg_home start [] _ T); [|done|apply not_elem_of_nil]. apply logged_clear; [done|].
  destruct Hbt as (<- & Hb & _). apply (ca_vlen _ _ _ _ _ _ _ _ (bio_cache _ _ _ _ _ _ Hb)).
Qed.
End Txn.
