(* ===== verification/Sample.v ===== *)
(** A concrete kernel state for examples: one process runs on hart 0, every
    lock is free, every table is empty and the disk holds zeroes. *)

From Stdlib Require Import ZArith Lia.
From stdpp Require Import base tactics list.
From coqutil Require Import Byte.
From S2P Require Import Prelude Riscv Mem Core Spinlock Kalloc Vm Machine State Csr Proc Sched Sleeplock Virtio Bio Dll Cache Block Log.

Local Open Scope Z_scope.

(** A uniprocessor on which nothing else ever runs, and whose device
    registers read as zero. *)
Definition world0 : World := {| others _ := None; runs _ _ := None; mmio _ _ := 0 |}.

Definition symbols0 : Symbols :=
  {| sym_main := KERNBASE; sym_timervec := KERNBASE + 8; sym_kernelvec := KERNBASE + 16;
     sym_uservec := TRAMPOLINE; sym_userret := TRAMPOLINE + 256; sym_usertrap := KERNBASE + 24;
     sym_forkret := KERNBASE + 32; disk_pages := KERNBASE + PGSIZE; buf0_off := 88; stack_junk _ := Byte.x00 |}.

Definition core1 : core :=
  set_ccpu (mkcpu (Some 0%nat) 0 true true)
    (set_procs (fupd (fun _ => proc_zero) 0%nat (set_pid 1 (set_state RUNNING proc_zero))) boot_core).

(** The cache after binit(): the head, buffer 29, ..., buffer 0. *)
Definition bcache0 : bcache :=
  mkbcache (fun b => mkbuf 0 0 0 0 0 (if (b =? NBUF - 1)%nat then None else Some (S b))
                       (match b with O => None | S b' => Some b' end) zero_block)
    (Some 0%nat) (Some (NBUF - 1)%nat).

Definition log0 (start n : Z) : log := mklog start n 0 0 ROOTDEV 0 (List.repeat 0 (Z.to_nat LOGSIZE)).

Definition vdisk0 : vdisk :=
  mkvdisk (fun _ => mkdesc DmaNull 0 0 0) (fun _ => 0) 0 (fun _ => 0) (fun _ => true) 0 (fun _ => None) (fun _ => 0).

Definition csrs0 : csrs := mkcsrs 0 0 0 0 0 0 0 0 0 0 0 0 0 0 0 0 0 0 0.

(** A file system with its log in blocks 2 to 31. *)
Definition sb0 : superblock := mksb 270544960 1000 954 200 LOGSIZE 2 32 45.

Definition st0 (D : Z -> list byte) : st :=
  mkst (mkkst core1 (mem8 0) (pg 5) (ref8 1) 0) csrs0 (fun _ => mksleeplock 0 0) bcache0 (log0 2 LOGSIZE) sb0
    (fun _ => mkinode 0 0 0 0 0 0 0 0 0 (List.repeat 0 13))
    (fun _ => mkfile FD_NONE 0 0 0 0 None 0 0) (fun _ => mkdevsw None None)
    (fun _ => mkpipe (fun _ => Byte.x00) 0 0 0 0) (mkcons (fun _ => 0) 0 0 0) (mkuart (fun _ => 0) 0 0) vdisk0
    0 false true false D [] [].

(** ** A disk without a controller *)

(** Requests are served at once. *)
Definition ram_disk : BlockDev :=
  {| disk_rw b write s :=
       let x := bc_buf (s_bc s) b in
       if write then
         Ok tt (set_s_writes ((b_blockno x, b_data x) :: s_writes s)
                 (set_s_disk (fupd (s_disk s) (b_blockno x) (b_data x)) (put_buf b (set_b_disk 0) s)))
       else Ok tt (put_buf b (fun x => set_b_disk 0 (set_b_data (s_disk s (b_blockno x)) x)) s) |}.

Definition ram_disk_ok : @BlockDevOk ram_disk.
Proof.
  refine {| disk_ready _ _ := True |}.
  - intros b s _ _ _. exists (s_vd s), (s_mmio s). split; [done|]. simpl. by destruct s.
  - intros b s _ _ _. exists (s_vd s), (s_mmio s). split; [done|]. simpl. by destruct s.
Defined.

Section Sample.
#[local] Existing Instances ram_disk ram_disk_ok.

Lemma quiet_core1 : quiet 0 core1.
Proof.
  split; try done.
  - intros l j Hj. simpl. unfold fupd. by repeat case_decide.
  - intros j Hj. simpl. unfold fupd. by repeat case_decide.
Qed.

Lemma dll0 : dll bcache0 (rev (seq 0 NBUF)).
Proof. repeat (split; [reflexivity|]). split; reflexivity. Qed.

Lemma bio0 D : (forall bn, length (D bn) = Z.to_nat BSIZE) -> bio 0 D [] [] [] (st0 D).
Proof.
  intros HD. split; [apply quiet_core1|done|].
  assert (Hnn : forall b bn, ~ named bcache0 b bn) by by intros b bn [? _].
  split; try done; try (by intros ? ? []%not_elem_of_nil).
  - exists (rev (seq 0 NBUF)). split; [apply dll0|]. apply Permutation_sym, Permutation_rev.
  - intros b b' bn _ _ Hn. by apply Hnn in Hn.
  - constructor.
  - intros bn []%not_elem_of_nil.
  - intros b bn _ Hn. by apply Hnn in Hn.
Qed.
End Sample.
