(* ===== verification/Driver.v ===== *)
(** virtio_disk_rw() implements the block device of the buffer cache
    (kernel/virtio_disk.c against kernel/bio.c). *)

From Stdlib Require Import ZArith Lia.
From stdpp Require Import base tactics list strings.
From coqutil Require Import Byte.
From S2P Require Import Prelude Riscv Mem Core Spinlock Kalloc Vm Pt Machine State Csr Proc Sched Sleeplock Virtio Bio Dll Cache VirtioOk Sample.

Local Open Scope Z_scope.
Local Open Scope kern_scope.

Section Driver.
Context `{KernelImage} `{World} `{Symbols} `{!VirtioDevice} `{!DiskWorld}.

Lemma put_buf_put b f g s : put_buf b f (put_buf b g s) = put_buf b (fun x => f (g x)) s.
Proof. unfold put_buf, upd_buf. cbn. by rewrite fupd_eq, fupd_fupd. Qed.

Lemma put_buf_ext b f g s :
  f (bc_buf (s_bc s) b) = g (bc_buf (s_bc s) b) -> put_buf b f s = put_buf b g s.
Proof. intros E. unfold put_buf, upd_buf. by rewrite E. Qed.

(** A request, as the cache sees it. *)
Definition served (b : nat) (write : bool) (s : st) : st :=
  let x := bc_buf (s_bc s) b in
  if write then
    set_s_writes ((b_blockno x, b_data x) :: s_writes s)
      (set_s_disk (fupd (s_disk s) (b_blockno x) (b_data x)) (put_buf b (set_b_disk 0) s))
  else put_buf b (fun x => set_b_disk 0 (set_b_data (s_disk s (b_blockno x)) x)) s.

Lemma serve_served b write s :
  put_buf b (set_b_disk 0) (serve b write (b_blockno (bc_buf (s_bc s) b)) (put_buf b (set_b_disk 1) s)) = served b write s.
Proof.
  destruct write; cbn [serve served].
  - assert (E : b_data (bc_buf (s_bc (put_buf b (set_b_disk 1) s)) b) = b_data (bc_buf (s_bc s) b))
      by (cbn; by rewrite fupd_eq).
    rewrite E. set (x := bc_buf (s_bc s) b).
    transitivity (set_s_writes ((b_blockno x, b_data x) :: s_writes s)
      (set_s_disk (fupd (s_disk s) (b_blockno x) (b_data x)) (put_buf b (set_b_disk 0) (put_buf b (set_b_disk 1) s)))).
    { done. }
    by rewrite put_buf_put.
  - rewrite !put_buf_put. by apply put_buf_ext.
Qed.

Lemma virtio_disk_rw_served b write s :
  ready (s_vd s) (s_k s) -> 0 <= b_blockno (bc_buf (s_bc s) b) < 2 ^ 31 ->
  exists v h, ready v (s_k s) /\ virtio_disk_rw b write s = Ok tt (set_s_mmio h (set_s_vd v (served b write s))).
Proof.
  intros Hr Hbn. destruct (virtio_disk_rw_eq b write s Hr Hbn) as (pa & h & E). rewrite serve_served in E.
  eexists _, h. split; [|exact E]. by apply finished_ready.
Qed.

(** ** The interface of the cache *)

#[local] Instance virtio_dev : BlockDev := {| disk_rw := virtio_disk_rw |}.

#[local] Instance virtio_dev_ok : BlockDevOk.
Proof.
  refine {| disk_ready := ready |}; intros b s Hr _ Hbn.
  - exact (virtio_disk_rw_served b false s Hr Hbn).
  - exact (virtio_disk_rw_served b true s Hr Hbn).
Defined.

(** C15: The disk driver implements the block device the buffer cache is
    written against.  Let the device complete a posted descriptor chain as the
    virtio specification says, and let its interrupt be taken while the caller
    sleeps.  Then virtio_disk_rw() returns: it allocates three descriptors,
    builds the chain, notifies the device, sleeps until virtio_disk_intr()
    clears b->disk, and frees the chain.  A read has filled the buffer with the
    block, a write has stored the buffer in the block, the driver is ready for
    the next request, and nothing else has changed: not the process, the locks
    or the memory, nor the other buffers. *)
Theorem virtio_disk_rw_refines b write s :
  disk_ready (s_vd s) (s_k s) -> 0 <= b_blockno (bc_buf (s_bc s) b) < 2 ^ 31 ->
  exists v h, disk_ready v (s_k s) /\
    virtio_disk_rw b write s = Ok tt (set_s_mmio h (set_s_vd v (served b write s))).
Proof. exact (virtio_disk_rw_served b write s). Qed.
End Driver.

(** ** A device *)

(** It serves the chain at the head of the available ring. *)
Definition chain_device (s : st) : st :=
  let d := s_vd s in
  let h := Z.to_nat (vd_avail d (2 + vd_used_id d mod Z.of_nat NUM)) in
  match vr_addr (vd_desc d h), vr_addr (vd_desc d (Z.to_nat (vr_next (vd_desc d h)))) with
  | DmaHdr _ type sector, DmaData b =>
      let x := b_data (bc_buf (s_bc s) b) in
      set_s_vd (complete h d)
        (if type =? VIRTIO_BLK_T_IN then put_buf b (set_b_data (s_disk s (sector / 2))) s
         else set_s_writes ((sector / 2, x) :: s_writes s) (set_s_disk (fupd (s_disk s) (sector / 2) x) s))
  | _, _ => s
  end.

Section Witness.
#[local] Existing Instances image8 symbols0.

Lemma chain_device_posted s h type sector b :
  posted (s_vd s) h type sector b ->
  let x := b_data (bc_buf (s_bc s) b) in
  chain_device s = set_s_vd (complete h (s_vd s))
    (if type =? VIRTIO_BLK_T_IN then put_buf b (set_b_data (s_disk s (sector / 2))) s
     else set_s_writes ((sector / 2, x) :: s_writes s) (set_s_disk (fupd (s_disk s) (sector / 2) x) s)).
Proof.
  intros [_ Hh (pa & i1 & i2 & f & E0 & E1 & _)]. unfold chain_device. rewrite Hh, Nat2Z.id, E0. cbn [vr_addr vr_next].
  by rewrite Nat2Z.id, E1.
Qed.

#[local] Instance chain_dev : VirtioDevice.
Proof.
  refine {| device := chain_device |}; intros s h sector b Hp; by rewrite (chain_device_posted _ _ _ _ _ Hp).
Defined.

(** One hart: the interrupt handler runs, then the sleeping process. *)
Definition disk_others (s : st) : option st :=
  match cproc (ccpu (s_core s)) with
  | Some i =>
      match unlock_ (ProcLock i) s with
      | Ok _ s0 =>
          match @virtio_disk_intr world0 (device s0) with
          | Ok _ s1 => Some (set_s_core (upd_proc i (set_state RUNNING) (acq (ProcLock i) (s_core s1))) s1)
          | _ => None
          end
      | _ => None
      end
  | None => None
  end.

#[local] Instance disk_world : World := {| others := disk_others; runs _ _ := None; mmio _ _ := 0 |}.

#[local] Instance disk_world_ok : DiskWorld.
Proof.
  split. intros s s1 c i b Hs Hc Hf Hi _ _ Ei _. cbn [others disk_world]. unfold disk_others. rewrite Hs. cbn [acq ccpu cproc].
  rewrite Hi, (unlock_eq _ c) by done. change (@virtio_disk_intr world0) with virtio_disk_intr. by rewrite Ei.
Defined.

(** The kernel stack of the process is at address 0 of the page table at page 0. *)
Definition driver_state : st :=
  set_s_k (mkkst core1 (mem8 user_rwx) (pg 5) (ref8 1) (pg 0))
    (put_buf 7 (fun x => set_b_blockno 33 (set_b_data (List.repeat Byte.x02 1024) x)) (st0 (fun _ => zero_block))).

Lemma driver_state_ready : ready (s_vd driver_state) (s_k driver_state).
Proof.
  assert (Hs : forall ch, no_sleeper ch core1).
  { intros ch j _ Hj. simpl in Hj. unfold fupd in Hj. by repeat case_decide. }
  split; try done.
  - exists 0%nat. assert (E : forall va, PX 2 va = 0 -> PX 1 va = 0 -> PX 0 va = 0 -> slot (mem8 user_rwx) (pg 0) va = Some (pg 2)).
    { intros va E2 E1 E0. unfold slot. rewrite E2, E1, E0, tab8_old by by split; [repeat constructor|].
      rewrite decide_True by repeat constructor. reflexivity. }
    exists (pg 2). change (k_mem (s_k driver_state)) with (mem8 user_rwx). change (k_kpt (s_k driver_state)) with (pg 0).
    change (kstack (procs (k_core (s_k driver_state)) 0) + buf0_off) with 88.
    split; [reflexivity|]. split; [unfold NPROC; lia|]. split; [reflexivity|]. split; [reflexivity|].
    split; [rewrite MAXVA_eq; lia|]. split; [by apply E|]. split; [unfold pg, PHYSTOP, KERNBASE, PGSIZE; lia|].
    assert (P := pte8_old user_rwx ltac:(done)). unfold pte_of in P.
    rewrite E in P by reflexivity. rewrite P. reflexivity.
Qed.

(** A buffer is written to block 33. *)
Lemma virtio_disk_rw_refines_witness :
  exists v h, ready v (s_k driver_state) /\
    virtio_disk_rw 7 true driver_state = Ok tt (set_s_mmio h (set_s_vd v (served 7 true driver_state))).
Proof. apply (virtio_disk_rw_refines 7 true driver_state); [exact driver_state_ready|done]. Defined.
End Witness.
