(* ===== verification/Crash.v ===== *)
(** A transaction is atomic with respect to crashes.

    The disk is stopped after an arbitrary number of the block writes of a
    transaction; the kernel is started again on what is left and calls
    initlog().  The file system is then the one before or the one after the
    transaction.  The same holds when recovery itself is interrupted. *)

From Stdlib Require Import ZArith Lia FunctionalExtensionality.
From stdpp Require Import base tactics list strings.
From coqutil Require Import Byte.
From S2P Require Import Prelude Riscv Mem Core Spinlock Kalloc Vm State Csr Proc Sched Sleeplock Virtio Bio Dll Cache Block Log Commit Txn Sample Machine.

Local Open Scope Z_scope.
Local Open Scope kern_scope.

Section Crash.
Context `{KernelImage} `{World} `{Symbols} `{BlockDevOk}.
Context (i : nat).

(** The file system after recovery from the disk [D], with a log at [start]. *)
Definition restarts_as (start : Z) (sb : superblock) (D T : Z -> list byte) : Prop :=
  forall s, booted i D s ->
  exists s', initlog ROOTDEV sb s = Ok tt s' /\
    forall bn, ~ (start <= bn < start + LOGSIZE) -> s_disk s' bn = T bn.

(** C5: A transaction is atomic.  A system call that runs on an idle log and
    makes up to MAXOPBLOCKS block updates between begin_op() and end_op()
    returns with the log idle again and with all of its updates on the disk.
    If the machine stops after the first [k] of the block writes it makes, for
    any [k], the restarted kernel's initlog() succeeds and restores the file
    system of before the call when [k] is at most some commit point, and the
    complete updated file system when it is past it. *)
Theorem transaction_atomic start sb us s :
  idle i start s -> log_on sb start -> Forall (update_ok start) us -> Z.of_nat (length us) <= MAXOPBLOCKS ->
  exists s' W n, transaction us s = Ok tt s' /\ idle i start s' /\
    s_writes s' = rev W ++ s_writes s /\ s_disk s' = apply_w W (s_disk s) /\
    (forall bn, ~ (start <= bn < start + LOGSIZE) -> s_disk s' bn = foldl updated (s_disk s) us bn) /\
    forall k, restarts_as start sb (apply_w (take k W) (s_disk s))
      (if (k <=? n)%nat then s_disk s else foldl updated (s_disk s) us).
Proof.
  intros [Hb Ht Hh] Hsb Hus Hlen.
  destruct (begin_op_ok i _ [] [] start 0 [] s Hb Ht ltac:(unfold LOGSIZE, MAXOPBLOCKS in *; simpl; lia))
    as (s1 & E1 & B1 & T1 & _ & D1 & W1).
  destruct (updates_ok i us _ start _ [] s1 B1 T1 ltac:(lia) Hus ltac:(unfold LOGSIZE, MAXOPBLOCKS in *; simpl; lia))
    as (s2 & E2 & B2 & T2 & _ & D2 & W2).
  set (bs := absorbed [] us) in *. destruct (end_op_last i _ start bs s2 B2 T2) as (s3 & E3 & B3 & T3 & _ & D3 & W3).
  rewrite D2, D1 in D3. rewrite W2, W1 in W3.
  set (V := foldl updated (s_disk s) us) in *. set (W := txn_writes V start bs) in *.
  assert (Ha := tx_area _ _ _ _ T2).
  assert (Hvl : forall bn, length (V bn) = Z.to_nat BSIZE) by apply (ca_vlen _ _ _ _ _ _ _ _ (bio_cache _ _ _ _ _ _ B2)).
  assert (Hcl : forall bn, bn ∉ bs -> V bn = s_disk s bn).
  { intros bn Hn. rewrite <- D1, <- D2. by apply (bio_clean i V bs s2 bn). }
  assert (Hlg : logged start [] (s_disk s3) V) by (rewrite D3; by apply logged_txn).
  exists s3, W, (length bs). split_and!; [| |done|done| |].
  - unfold transaction, bind. by rewrite E1, E2.
  - split; [by eapply bio_clean_all|done|apply Hlg].
  - intros bn Hbn. apply (lg_home _ _ _ _ Hlg); [done|apply not_elem_of_nil].
  - intros k s4 Hbt. destruct (logged_txn_prefix start bs (s_disk s) V k Ha Hh Hvl Hcl) as [bs' Hl].
    by eapply initlog_restores.
Qed.

(** C6: Recovery is idempotent.  On any disk whose log lists committed blocks,
    initlog() installs them and clears the log, and if it is itself
    interrupted after any number of its block writes, the next start ends with
    the same file system. *)
Theorem recovery_idempotent start sb bs D T s :
  booted i D s -> log_on sb start -> logged start bs D T ->
  exists s' W, initlog ROOTDEV sb s = Ok tt s' /\
    s_disk s' = apply_w W D /\ s_writes s' = rev W ++ s_writes s /\ heads (s_disk s' start) [] /\
    (forall bn, ~ (start <= bn < start + LOGSIZE) -> s_disk s' bn = T bn) /\
    forall k, restarts_as start sb (apply_w (take k W) D) T.
Proof.
  intros Hbt Hsb Hl. destruct (initlog_ok i start sb bs D T s Hbt Hsb Hl) as (s' & lk & E & _ & _ & _ & _ & _ & D' & W').
  assert (Hd : length (D start) = Z.to_nat BSIZE).
  { destruct Hbt as (<- & Hb & _). apply (ca_vlen _ _ _ _ _ _ _ _ (bio_cache _ _ _ _ _ _ Hb)). }
  assert (Hlg : logged start [] (s_disk s') T).
  { rewrite D'. unfold recovery_writes. rewrite apply_w_snoc. by apply logged_clear. }
  exists s', (recovery_writes start bs D T). split_and!; [done|done|done|apply Hlg| |].
  - intros bn Hbn. apply (lg_home _ _ _ _ Hlg); [done|apply not_elem_of_nil].
  - intros k s2 Hbt2. destruct (logged_recovery_prefix start bs D T k Hl Hd) as [bs' Hl'].
    by eapply initlog_restores.
Qed.

(** C35: begin_op() admits transactions the log has no room for.  On an idle log
    three system calls get in, each entitled to MAXOPBLOCKS = 10 blocks; but
    log_write() refuses the last of the LOGSIZE = 30 blocks, because it
    compares with log.size - 1: the thirtieth block panics the kernel. *)
Theorem admitted_transaction_panics start us u s :
  idle i start s -> Forall (update_ok start) (us ++ [u]) -> NoDup (us ++ [u]).*1 ->
  Z.of_nat (length (us ++ [u])) = 3 * MAXOPBLOCKS ->
  exists s', (begin_op ;;; begin_op ;;; begin_op) s = Ok tt s' /\
    updates (us ++ [u]) s' = Panic "too big a transaction".
Proof.
  intros [Hb Ht _] [Hus Hu]%Forall_app Hnd Hlen. apply Forall_cons in Hu as [Hu _]. rewrite length_app in Hlen. unfold MAXOPBLOCKS in *. simpl in Hlen.
  destruct (begin_op_ok i _ [] [] start 0 [] s Hb Ht) as (s1 & E1 & B1 & T1 & _);
    [unfold LOGSIZE, MAXOPBLOCKS; simpl; lia|].
  destruct (begin_op_ok i _ [] [] start _ [] s1 B1 T1) as (s2 & E2 & B2 & T2 & _);
    [unfold LOGSIZE, MAXOPBLOCKS; simpl; lia|].
  destruct (begin_op_ok i _ [] [] start _ [] s2 B2 T2) as (s3 & E3 & B3 & T3 & _);
    [unfold LOGSIZE, MAXOPBLOCKS; simpl; lia|].
  exists s3. split; [unfold bind; by rewrite E1, E2|].
  destruct (updates_ok i us _ start _ [] s3 B3 T3) as (s4 & E4 & B4 & T4 & _);
    [lia|done|unfold LOGSIZE, MAXOPBLOCKS; simpl; lia|].
  rewrite fmap_app in Hnd. apply NoDup_app in Hnd as (Hnd & Hd & _).
  assert (Ea : absorbed [] us = us.*1) by exact (absorbed_new us [] Hnd). rewrite Ea in B4, T4.
  rewrite updates_app. unfold bind. rewrite E4. cbn [updates]. unfold bind.
  rewrite (update_full i _ start _ _ _ _ B4 T4 Hu); [reflexivity| |].
  - simpl. rewrite length_fmap. unfold LOGSIZE, MAXOPBLOCKS. lia.
  - intros Hin. apply (Hd u.1 Hin). by left.
Qed.

(** C36: Recovery loses buffers.  recover_from_log() calls install_trans(),
    which ends the installation of each block with bunpin(), although recovery
    has pinned none: for every block in the log one buffer is left with the
    reference count 0 - 1, that is 2^32 - 1, and bget() can never recycle it. *)
Theorem recovery_leaks_buffers start sb bs D T s :
  booted i D s -> log_on sb start -> logged start bs D T ->
  exists s' lk, initlog ROOTDEV sb s = Ok tt s' /\ length lk = length bs /\ NoDup lk /\
    forall b, b ∈ lk -> (b < NBUF)%nat /\ b_refcnt (bc_buf (s_bc s') b) = 2 ^ 32 - 1.
Proof.
  intros Hbt Hsb Hl. destruct (initlog_ok i start sb bs D T s Hbt Hsb Hl) as (s' & lk & E & Hlk & Hnd & Hnb & B' & _).
  exists s', lk. split_and!; try done. intros b Hb. rewrite Forall_forall in Hnb. split; [by apply Hnb|].
  rewrite (ca_ref _ _ _ _ _ _ _ _ (bio_cache _ _ _ _ _ _ B')) by by apply Hnb.
  unfold refs. rewrite (count_true (b ∈ lk)), !count_false; [done| |apply not_elem_of_nil|done].
  intros [_ []%not_elem_of_nil].
Qed.
End Crash.

(** ** Examples *)

Section Witness.
#[local] Existing Instances image8 world0 symbols0 ram_disk ram_disk_ok.

Definition disk0 : Z -> list byte := fun _ => zero_block.
Definition ones : list byte := List.repeat Byte.x01 (Z.to_nat BSIZE).

Lemma area0 bs : (forall b, b ∈ bs -> 40 <= b < 2 ^ 31) -> NoDup bs -> Z.of_nat (length bs) < LOGSIZE -> log_area 2 bs.
Proof.
  intros Hb Hn Hl. split; [done| |done|done]. intros b Hin. apply Hb in Hin. unfold LOGSIZE, MAXOPBLOCKS. lia.
Qed.

Lemma heads0 : heads zero_block [].
Proof. split; [reflexivity|done]. Qed.

Lemma idle0 : idle 0 2 (st0 disk0).
Proof.
  split; [by apply bio0| |apply heads0]. split; try done. apply area0; [by intros ? ?%not_elem_of_nil|constructor|done].
Qed.

Lemma booted0 D : (forall bn, length (D bn) = Z.to_nat BSIZE) -> booted 0 D (st0 D).
Proof. intros HD. split; [done|]. split; [by apply bio0|done]. Qed.

(** Two blocks are written in one transaction; a crash right after the header
    has reached the disk does not lose them. *)
Lemma transaction_atomic_witness :
  exists s' W, transaction [(50, fun _ => ones); (60, fun _ => ones)] (st0 disk0) = Ok tt s' /\
    s_disk s' 50 = ones /\ s_disk s' 60 = ones /\
    forall k, exists T, restarts_as 0 2 sb0 (apply_w (take k W) disk0) T /\ T 50 = T 60.
Proof.
  destruct (transaction_atomic 0 2 sb0 [(50, fun _ => ones); (60, fun _ => ones)] (st0 disk0))
    as (s' & W & n & E & _ & _ & _ & D & R).
  - apply idle0.
  - by split.
  - repeat constructor; try done; unfold LOGSIZE, MAXOPBLOCKS; simpl; lia.
  - done.
  - assert (E50 : foldl updated (s_disk (st0 disk0)) [(50, fun _ => ones); (60, fun _ => ones)] 50 = ones).
    { cbn [foldl]. unfold updated. cbn [fst snd]. rewrite fupd_ne by lia. apply fupd_eq. }
    assert (E60 : foldl updated (s_disk (st0 disk0)) [(50, fun _ => ones); (60, fun _ => ones)] 60 = ones).
    { cbn [foldl]. unfold updated. cbn [fst snd]. apply fupd_eq. }
    exists s', W. split; [exact E|]. unfold LOGSIZE, MAXOPBLOCKS in D.
    split; [rewrite D by lia; exact E50|]. split; [rewrite D by lia; exact E60|].
    intros k. eexists. split; [exact (R k)|]. destruct (k <=? n)%nat; [reflexivity|]. by rewrite E50, E60.
Defined.

(** The disk of a machine that stopped before block 50 was installed. *)
Definition disk1 : Z -> list byte := fupd (fupd disk0 2 (header zero_block [50])) 3 ones.

(** Three system calls that write thirty blocks. *)
Definition thirty : list (Z * (list byte -> list byte)) := (fun k => (100 + Z.of_nat k, fun d => d)) <$> seq 0 29.

Lemma admitted_transaction_panics_witness :
  exists s', (begin_op ;;; begin_op ;;; begin_op) (st0 disk0) = Ok tt s' /\
    updates (thirty ++ [(200, fun d => d)]) s' = Panic "too big a transaction".
Proof.
  apply (admitted_transaction_panics 0 2 thirty (200, fun d => d) (st0 disk0)).
  - exact idle0.
  - apply Forall_app. split; [|apply Forall_singleton; split; [simpl; lia|split; [unfold LOGSIZE, MAXOPBLOCKS; simpl; lia|tauto]]].
    apply Forall_forall. intros u (k & -> & Hk%elem_of_seq)%list_elem_of_fmap.
    split; [simpl; lia|]. split; [unfold LOGSIZE, MAXOPBLOCKS; simpl; lia|tauto].
  - apply (bool_decide_unpack _). vm_compute. exact I.
  - vm_compute. reflexivity.
Defined.

Lemma booted1 : booted 0 disk1 (st0 disk1).
Proof.
  assert (Hh : length (header zero_block [50]) = Z.to_nat BSIZE) by by vm_compute.
  apply booted0. intros bn. unfold disk1, fupd. by repeat case_decide.
Qed.

Lemma logged1 : logged 2 [50] disk1 (fupd disk0 50 ones).
Proof.
  split.
  - apply area0; [intros b ->%list_elem_of_singleton; lia|apply NoDup_singleton|done].
  - split; [by vm_compute|]. intros [|k] b Hk; [injection Hk as <-; by vm_compute|done].
  - intros [|k] b Hk; [by injection Hk as <-|done].
  - intros bn Hbn Hn. rewrite list_elem_of_singleton in Hn. unfold LOGSIZE, MAXOPBLOCKS in Hbn.
    unfold disk1. rewrite !fupd_ne by lia. done.
Qed.

Lemma recovery_idempotent_witness :
  exists s', initlog ROOTDEV sb0 (st0 disk1) = Ok tt s' /\ s_disk s' 50 = ones.
Proof.
  destruct (recovery_idempotent 0 2 sb0 [50] disk1 (fupd disk0 50 ones) (st0 disk1)) as (s' & W & E & _ & _ & _ & D & _).
  - exact booted1.
  - by split.
  - exact logged1.
  - exists s'. split; [exact E|]. rewrite D by (unfold LOGSIZE, MAXOPBLOCKS; lia). apply fupd_eq.
Defined.

Lemma recovery_leaks_buffers_witness :
  exists s' b, initlog ROOTDEV sb0 (st0 disk1) = Ok tt s' /\ b_refcnt (bc_buf (s_bc s') b) = 2 ^ 32 - 1.
Proof.
  destruct (recovery_leaks_buffers 0 2 sb0 [50] disk1 (fupd disk0 50 ones) (st0 disk1)) as (s' & [|b lk] & E & Hl & _ & R).
  - exact booted1.
  - by split.
  - exact logged1.
  - discriminate Hl.
  - exists s', b. split; [exact E|]. apply R. left.
Defined.
End Witness.
