(* ===== verification/Scheduler.v ===== *)
(** What wakeup(), kill() and the scheduler promise to the processes. *)

From Stdlib Require Import ZArith Lia FunctionalExtensionality.
From stdpp Require Import base tactics list.
From S2P Require Import Prelude Riscv Mem Core Spinlock Kalloc Vm Machine State Csr Proc Sched Sleeplock Virtio Bio Dll Cache Block Log Sample.

Local Open Scope Z_scope.
Local Open Scope kern_scope.

Section Scheduler.
Context `{KernelImage} `{World} `{Symbols}.

(** Wakeup(chan) is exact.  With no process lock held it makes RUNNABLE
    every process that sleeps on [chan], and changes nothing else: neither the
    other processes, nor any other field, nor the rest of the kernel state. *)
Theorem wakeup_exact ch s :
  calm (s_core s) -> procs_free (seq 0 NPROC) (s_core s) ->
  exists ps, wakeup ch s = Ok tt (set_s_core (set_procs ps (s_core s)) s) /\
    (forall i, (i < NPROC)%nat -> state (procs (s_core s) i) = SLEEPING -> chan_ (procs (s_core s) i) = Some ch ->
       ps i = set_state RUNNABLE (procs (s_core s) i)) /\
    (forall i, (NPROC <= i)%nat \/ state (procs (s_core s) i) <> SLEEPING \/ chan_ (procs (s_core s) i) <> Some ch ->
       ps i = procs (s_core s) i).
Proof.
  intros Hc Hf. eexists. split; [by apply wakeup_eq|]. split; intros i Hi.
  - intros Hs Hch. unfold wake, woken. rewrite decide_True by (apply elem_of_seq; lia).
    by rewrite Hs, Hch, !bool_decide_true.
  - unfold wake, woken. case_decide as Hin; [|done]. apply elem_of_seq in Hin.
    destruct Hi as [?|[Hs|Hch]]; [lia| |].
    + by rewrite (bool_decide_false (state _ = _)).
    + by rewrite (bool_decide_false (chan_ _ = _)), andb_false_r.
Qed.

(** ** kill() *)

Definition kill_one (p : proc) : proc :=
  let q := set_killed 1 p in if bool_decide (state p = SLEEPING) then set_state RUNNABLE q else q.

Definition find_pid (pid : Z) (l : list nat) (ps : nat -> proc) : option nat :=
  find (fun i => Core.pid (ps i) =? pid) l.

Definition kill_step (pid : Z) (i : nat) : M st (option Z) :=
  lock_ (ProcLock i) ;;;
  let* p := getp i (fun p => p) in
  if Core.pid p =? pid then
    setp i (set_killed 1) ;;;
    when (bool_decide (state p = SLEEPING)) (setp i (set_state RUNNABLE)) ;;;
    unlock_ (ProcLock i) ;;;
    ret (Some 0)
  else
    unlock_ (ProcLock i) ;;;
    ret None.

Lemma kill_step_eq pid i s :
  calm (s_core s) -> free (ProcLock i) (s_core s) ->
  kill_step pid i s =
    if Core.pid (procs (s_core s) i) =? pid
    then Ok (Some 0) (set_s_core (upd_proc i kill_one (s_core s)) s) else Ok None s.
Proof.
  intros Hc Hf. unfold kill_step, bind at 1. rewrite lock_eq by done. unfold bind at 1, getp, gets.
  rewrite s_core_set, procs_acq. destruct (Core.pid _ =? pid).
  - unfold bind at 1, setp at 1, modify. rewrite s_core_set, set_s_core_set. unfold bind, kill_one, when.
    destruct (bool_decide _) eqn:Eb.
    + unfold setp, modify. rewrite s_core_set, set_s_core_set.
      rewrite (unlock_eq _ (upd_proc i (set_state RUNNABLE) (upd_proc i (set_killed 1) (s_core s)))); [|done|by apply calm_procs|done].
      unfold ret. f_equal. rewrite set_s_core_set. unfold upd_proc. simpl. by rewrite fupd_eq, fupd_fupd, Eb.
    + unfold ret. rewrite (unlock_eq _ (upd_proc i (set_killed 1) (s_core s))); [|done|by apply calm_procs|done].
      unfold upd_proc. by rewrite Eb.
  - unfold bind, ret. rewrite (unlock_eq _ (s_core s)) by done. by destruct s as [[[]]].
Qed.

Lemma kill_list pid l s :
  calm (s_core s) -> procs_free l (s_core s) ->
  findM l (kill_step pid) s =
    match find_pid pid l (procs (s_core s)) with
    | Some i => Ok (Some 0) (set_s_core (upd_proc i kill_one (s_core s)) s)
    | None => Ok None s
    end.
Proof.
  intros Hc. induction l as [|i l IH]; intros Hf; cbn [findM find_pid find]; [done|].
  unfold bind. rewrite kill_step_eq; [|done|apply Hf; by left].
  destruct (Core.pid _ =? pid); [done|]. apply IH. intros j Hj. apply Hf. by right.
Qed.

(** Kill(pid) marks the process with that identifier as killed and, if it
    sleeps, makes it RUNNABLE so that it will notice; it returns 0 and touches
    no other process.  If there is no such process it returns -1 and changes
    nothing. *)
Theorem kill_correct p s :
  calm (s_core s) -> procs_free (seq 0 NPROC) (s_core s) ->
  match find_pid p (seq 0 NPROC) (procs (s_core s)) with
  | Some i => (i < NPROC)%nat /\ pid (procs (s_core s) i) = p /\
      exists s', kill p s = Ok 0 s' /\ s' = set_s_core (s_core s') s /\
        killed (procs (s_core s') i) = 1 /\
        state (procs (s_core s') i) = (if bool_decide (state (procs (s_core s) i) = SLEEPING) then RUNNABLE
                                       else state (procs (s_core s) i)) /\
        forall j, j <> i -> procs (s_core s') j = procs (s_core s) j
  | None => kill p s = Ok (-1) s /\ forall i, (i < NPROC)%nat -> pid (procs (s_core s) i) <> p
  end.
Proof.
  intros Hc Hf. pose proof (kill_list p _ _ Hc Hf) as E.
  assert (Ek : kill p s = bind (findM (seq 0 NPROC) (kill_step p))
    (fun r => match r with Some v => ret v | None => ret (-1) end) s) by done.
  rewrite Ek. unfold bind. rewrite E. clear Ek E. destruct (find_pid _ _ _) as [i|] eqn:Hfind.
  - apply find_some in Hfind as [Hi Hp]. apply in_seq in Hi. apply Z.eqb_eq in Hp. split_and!; [lia|done|].
    eexists. split; [reflexivity|]. split_and!; [done|..]; rewrite s_core_set; simpl.
    + rewrite fupd_eq. unfold kill_one. by case_match.
    + rewrite fupd_eq. unfold kill_one. by case_match.
    + intros j Hj. by rewrite fupd_ne.
  - split; [done|]. intros i Hi Hp.
    assert (Hn := find_none _ _ Hfind i ltac:(apply in_seq; lia)). simpl in Hn. by apply Z.eqb_neq in Hn.
Qed.
(** ** The scheduler *)

(** The state in which process [i] is switched to, and the state in which the
    scheduler goes on when it is switched back. *)
Definition enter (i : nat) (s : st) : st :=
  set_s_core (set_ccpu (set_cproc (Some i) (ccpu (acq (ProcLock i) (s_core s))))
                (upd_proc i (set_state RUNNING) (acq (ProcLock i) (s_core s)))) s.
Definition leave (c : core) (s : st) : st := set_s_core (set_ccpu (set_cproc None (ccpu c)) c) s.

(** The passes over the processes [l] of the table: those that are RUNNABLE
    when their turn comes are run, in order. *)
Inductive pass : list nat -> st -> list nat -> st -> Prop :=
  | pass_end s : pass [] s [] s
  | pass_skip i l s tr s' :
      state (procs (s_core s) i) <> RUNNABLE -> pass l s tr s' -> pass (i :: l) s tr s'
  | pass_run i l s b c tr s' :
      state (procs (s_core s) i) = RUNNABLE -> runs i (enter i s) = Some b -> s_core b = acq (ProcLock i) c ->
      pass l (leave c b) tr s' -> pass (i :: l) s (i :: tr) s'.

(** The scheduler holds no lock and runs no process. *)
Definition scheduling (c : core) : Prop :=
  calm c /\ (forall i, (i < NPROC)%nat -> free (ProcLock i) c).

(** What the scheduler relies on when it switches to a process: it comes back
    through sched(), holding p->lock and no other lock; meanwhile no process
    that was RUNNABLE ceases to be, apart from those that were run. *)
Class Yielding := {
  yields : forall i s, (i < NPROC)%nat -> scheduling (s_core s) -> state (procs (s_core s) i) = RUNNABLE ->
    exists b c, runs i (enter i s) = Some b /\ s_core b = acq (ProcLock i) c /\
      scheduling c /\ forall j, j <> i -> state (procs (s_core s) j) = RUNNABLE -> state (procs c j) = RUNNABLE
}.

Context `{Yielding}.

Definition pass_step (i : nat) (nproc : Z) : M st (Z + Z) :=
  lock_ (ProcLock i) ;;;
  let* st := getp i state in
  let nproc := if bool_decide (st = UNUSED) then nproc else nproc + 1 in
  (if bool_decide (st = RUNNABLE) then
     setp i (set_state RUNNING) ;;;
     zoom (set_cpu (set_cproc (Some i))) ;;;
     swtch_to i ;;;
     zoom (set_cpu (set_cproc None))
   else ret tt) ;;;
  unlock_ (ProcLock i) ;;;
  ret (inl nproc).

Lemma scheduling_idle c : scheduling c -> scheduling (set_ccpu (set_cproc None (ccpu c)) c).
Proof. by intros [[[? ?] ?] ?]. Qed.

Lemma pass_step_skip i n s :
  (i < NPROC)%nat -> scheduling (s_core s) -> state (procs (s_core s) i) <> RUNNABLE ->
  exists n', pass_step i n s = Ok (inl n') s.
Proof.
  intros Hi [Hc Hf] Hs. eexists. unfold pass_step, bind. rewrite lock_eq by auto.
  unfold getp, gets. rewrite s_core_set, procs_acq, (bool_decide_false (state _ = RUNNABLE)) by done.
  unfold ret. rewrite (unlock_eq _ (s_core s)) by auto. by rewrite set_s_core_set, set_s_core_id.
Qed.

Lemma pass_step_run i n s :
  (i < NPROC)%nat -> scheduling (s_core s) -> state (procs (s_core s) i) = RUNNABLE ->
  exists n' b c, pass_step i n s = Ok (inl n') (leave c b) /\
    runs i (enter i s) = Some b /\ s_core b = acq (ProcLock i) c /\ scheduling c /\
    forall j, j <> i -> state (procs (s_core s) j) = RUNNABLE -> state (procs c j) = RUNNABLE.
Proof.
  intros Hi Hsc Hs. destruct (yields i s Hi Hsc Hs) as (b & c & Hr & Hb & Hc & Hj).
  eexists _, b, c. split; [|done]. destruct Hsc as [Hc0 Hf0], (scheduling_idle _ Hc) as [Hc1 Hf1].
  unfold pass_step. unfold bind at 1. rewrite lock_eq by auto. unfold bind at 1, getp, gets.
  rewrite s_core_set, procs_acq, (bool_decide_true (state _ = RUNNABLE)) by done.
  assert (E : (setp i (set_state RUNNING) ;;; zoom (set_cpu (set_cproc (Some i))) ;;; swtch_to i ;;;
     zoom (set_cpu (set_cproc None))) (set_s_core (acq (ProcLock i) (s_core s)) s) =
     Ok tt (set_s_core (acq (ProcLock i) (set_ccpu (set_cproc None (ccpu c)) c)) b)).
  { unfold bind at 1, setp, modify. unfold bind at 1.
    change (zoom (set_cpu (set_cproc (Some i))) _) with (Ok tt (enter i s) : outcome st unit). cbn iota.
    unfold bind, swtch_to. rewrite Hr.
    change (zoom (set_cpu (set_cproc None)) b) with
      (Ok tt (set_s_core (set_ccpu (set_cproc None (ccpu (s_core b))) (s_core b)) b) : outcome st unit).
    by rewrite Hb. }
  unfold bind at 1. rewrite E. unfold bind. rewrite (unlock_eq _ (set_ccpu (set_cproc None (ccpu c)) c)) by auto.
  unfold ret, leave. by rewrite set_s_core_set.
Qed.

Lemma pass_list l : NoDup l -> Forall (fun i => i < NPROC)%nat l -> forall n s,
  scheduling (s_core s) ->
  exists n' s' tr, scanM l n pass_step s = Ok (inl n') s' /\ pass l s tr s' /\
    forall i, i ∈ l -> state (procs (s_core s) i) = RUNNABLE -> i ∈ tr.
Proof.
  induction 1 as [|i l Hi Hnd IH]; intros Hl n s Hs.
  - exists n, s, []. split_and!; [done|constructor|by intros ? []%not_elem_of_nil].
  - apply Forall_cons in Hl as [Hil Hl]. cbn [scanM].
    destruct (decide (state (procs (s_core s) i) = RUNNABLE)) as [Hr|Hr].
    + destruct (pass_step_run i n s Hil Hs Hr) as (n1 & b & c & E & Hb & Hc & Hsc & Hj).
      destruct (IH Hl n1 (leave c b) (scheduling_idle c Hsc)) as (n2 & s2 & tr & E2 & Hp & Ht).
      exists n2, s2, (i :: tr). split_and!; [unfold bind; by rewrite E|by eapply pass_run|].
      intros j [->|Hjl]%elem_of_cons Hjr; [by left|right]. apply Ht; [done|]. apply Hj; [|done]. by intros ->.
    + destruct (pass_step_skip i n s Hil Hs Hr) as [n1 E].
      destruct (IH Hl n1 s Hs) as (n2 & s2 & tr & E2 & Hp & Ht).
      exists n2, s2, tr. split_and!; [unfold bind; by rewrite E|by apply pass_skip|].
      intros j [->|Hjl]%elem_of_cons Hjr; [done|by apply Ht].
Qed.

(** C34: The scheduler is fair.  If every process that is given the CPU comes
    back through sched(), a pass of the scheduler over the table ends, with
    the states it goes through as described by [pass], and every process that
    was RUNNABLE when the pass began has been run. *)
Theorem scheduler_pass_fair s :
  scheduling (s_core s) ->
  exists n s' tr, scheduler_pass s = Ok n s' /\ pass (seq 0 NPROC) s tr s' /\
    forall i, (i < NPROC)%nat -> state (procs (s_core s) i) = RUNNABLE -> i ∈ tr.
Proof.
  intros Hs. destruct (pass_list (seq 0 NPROC) (NoDup_seq _ _)) with (n := 0) (s := s) as (n & s' & tr & E & Hp & Ht).
  - apply Forall_forall. intros i Hi%elem_of_seq. lia.
  - done.
  - exists n, s', tr. split_and!; [|done|intros i Hi; apply Ht, elem_of_seq; lia].
    change (scheduler_pass s) with
      (bind (scanM (seq 0 NPROC) 0 pass_step) (fun r => match r with inl n => ret n | inr n => ret n end) s).
    unfold bind. by rewrite E.
Qed.

End Scheduler.

(** ** Examples *)

Section Witness.
#[local] Existing Instances image8 symbols0.

(** Every process that is run calls yield(). *)
Definition yielders : World :=
  {| others _ := None; runs i s := Some (set_s_core (upd_proc i (set_state RUNNABLE) (s_core s)) s); mmio _ _ := 0 |}.
#[local] Existing Instance yielders.

Definition yielders_ok : Yielding.
Proof.
  split. intros i s Hi Hs Hr.
  exists (set_s_core (upd_proc i (set_state RUNNABLE) (s_core (enter i s))) (enter i s)).
  exists (set_ccpu (set_cproc (Some i) (ccpu (s_core s)))
       (upd_proc i (set_state RUNNABLE) (upd_proc i (set_state RUNNING) (s_core s)))).
  split; [reflexivity|]. split; [reflexivity|]. destruct Hs as [[[? ?] ?] Hf]. split; [done|].
  intros j Hj Hjr. simpl. by rewrite !fupd_ne.
Defined.
#[local] Existing Instance yielders_ok.

(** Process 1 sleeps on the ticks, process 2 is RUNNABLE; they have the
    identifiers 7 and 8. *)
Definition core3 : core :=
  upd_proc 1 (fun _ => set_chan (Some ChTicks) (set_pid 7 (set_state SLEEPING proc_zero)))
    (upd_proc 2 (fun _ => set_pid 8 (set_state RUNNABLE proc_zero)) core1).
Definition st3 : st := set_s_core core3 (st0 (fun _ => [])).

Lemma wakeup_exact_witness :
  exists ps, wakeup ChTicks st3 = Ok tt (set_s_core (set_procs ps core3) st3) /\
    state (ps 1%nat) = RUNNABLE /\ state (ps 0%nat) = RUNNING.
Proof.
  destruct (wakeup_exact ChTicks st3) as (ps & E & Hw & Ho).
  - by split.
  - intros i _. reflexivity.
  - exists ps. split; [exact E|]. split.
    + rewrite Hw; [reflexivity|unfold NPROC; lia|reflexivity|reflexivity].
    + rewrite Ho; [reflexivity|]. right. left. discriminate.
Defined.

Lemma kill_correct_witness :
  exists s', kill 7 st3 = Ok 0 s' /\ killed (procs (s_core s') 1%nat) = 1 /\ state (procs (s_core s') 1%nat) = RUNNABLE.
Proof.
  assert (W := kill_correct 7 st3). change (find_pid 7 (seq 0 NPROC) (procs (s_core st3))) with (Some 1%nat) in W.
  destruct W as (_ & _ & s' & E & _ & K & S' & _).
  - by split.
  - intros i _. reflexivity.
  - exists s'. split; [exact E|]. split; [exact K|]. rewrite S'. reflexivity.
Defined.

Lemma scheduler_pass_fair_witness :
  exists n s' tr, scheduler_pass st3 = Ok n s' /\ pass (seq 0 NPROC) st3 tr s' /\ 2%nat ∈ tr.
Proof.
  destruct (scheduler_pass_fair st3) as (n & s' & tr & E & Hp & Ht).
  - split; [by split|]. intros i _. reflexivity.
  - exists n, s', tr. split; [exact E|]. split; [exact Hp|]. apply Ht; [unfold NPROC; lia|reflexivity].
Defined.
End Witness.
