(* ===== verification/Fs.v ===== *)
(** The file system (kernel/fs.c, kernel/fs.h, kernel/stat.h): block
    allocator, inodes, inode content, directories and path names.

    Structures on disk are read and written at the offsets C gives their
    fields.  A path is its bytes without the terminating NUL; a file name is
    the char array of DIRSIZ bytes the code uses. *)

From stdpp Require Import base tactics list strings.
From Stdlib Require Import ZArith Lia FunctionalExtensionality.
From coqutil Require Import Byte Word.LittleEndianList.
From S2P Require Import Prelude Riscv Mem Core Spinlock Kalloc Vm State Csr Proc Sleeplock Virtio Bio Block Log.

Local Open Scope Z_scope.
Local Open Scope kern_scope.

(** ** fs.h, stat.h *)

Definition ROOTINO : Z := 1.
Definition FSMAGIC : Z := 0x10203040.
Definition NDIRECT : Z := 12.
Definition NINDIRECT : Z := BSIZE / 4.
Definition MAXFILE : Z := NDIRECT + NINDIRECT.
Definition sizeof_dinode : Z := 64.
Definition IPB : Z := BSIZE / sizeof_dinode.
Definition IBLOCK (i : Z) (sb : superblock) : Z := u32 (i / IPB + sb_inodestart sb).
Definition BPB : Z := BSIZE * 8.
Definition BBLOCK (b : Z) (sb : superblock) : Z := u32 (b / BPB + sb_bmapstart sb).
Definition DIRSIZ : nat := 14.
Definition sizeof_dirent : Z := 16.
Definition T_DIR : Z := 1.
Definition T_FILE : Z := 2.
Definition T_DEVICE : Z := 3.

(** struct superblock at the start of a block. *)
Definition superblock_at (d : list byte) : superblock :=
  mksb (get32 d 0) (get32 d 4) (get32 d 8) (get32 d 12) (get32 d 16) (get32 d 20) (get32 d 24)
       (get32 d 28).

(** struct dinode at offset [off]. *)
Definition dinode_type (d : list byte) (off : Z) : Z := i16 (get_le d off 2).
Definition dinode_major (d : list byte) (off : Z) : Z := i16 (get_le d (off + 2) 2).
Definition dinode_minor (d : list byte) (off : Z) : Z := i16 (get_le d (off + 4) 2).
Definition dinode_nlink (d : list byte) (off : Z) : Z := i16 (get_le d (off + 6) 2).
Definition dinode_size (d : list byte) (off : Z) : Z := get32 d (off + 8).
Definition dinode_addrs (d : list byte) (off : Z) : list Z :=
  List.map (fun k => get32 d (off + 12 + 4 * Z.of_nat k)) (seq 0 13).

(** The bytes of a struct dinode. *)
Definition dinode_bytes (ip : inode) : list byte :=
  le_split 2 (i_type ip) ++ le_split 2 (i_major ip) ++ le_split 2 (i_minor ip) ++
  le_split 2 (i_nlink ip) ++ le_split 4 (i_size ip) ++ concat (List.map (le_split 4) (i_addrs ip)).

(** ** Char arrays (kernel/string.c, on the arrays the file system uses) *)

Fixpoint strncmp_arr (n : nat) (p q : list byte) : Z :=
  match n with
  | O => 0
  | S n' =>
      let a := byte.unsigned (hd Byte.x00 p) in
      let b := byte.unsigned (hd Byte.x00 q) in
      if negb (a =? 0) && (a =? b) then strncmp_arr n' (tl p) (tl q) else a - b
  end.

Definition strncpy_arr (n : nat) (t : list byte) : list byte :=
  let c := cut n t in c ++ List.repeat Byte.x00 (n - length c).

Definition namecmp (s t : list byte) : Z := strncmp_arr DIRSIZ s t.

(** ** Path elements *)

Definition slash : byte := Byte.x2f.

Fixpoint skip_slashes (path : list byte) : list byte :=
  match path with
  | c :: path' => if bool_decide (c = slash) then skip_slashes path' else path
  | [] => []
  end.

(** *path == '/' *)
Definition is_absolute (path : list byte) : bool :=
  match path with c :: _ => bool_decide (c = slash) | [] => false end.

(** The element a path starts with, and what follows it. *)
Fixpoint split_elem (path : list byte) : list byte * list byte :=
  match path with
  | c :: path' =>
      if bool_decide (c = slash) then ([], path)
      else let '(s, r) := split_elem path' in (c :: s, r)
  | [] => ([], [])
  end.

(** The path after its first element, and the new contents of name[]. *)
Definition skipelem (path name : list byte) : option (list byte * list byte) :=
  match skip_slashes path with
  | [] => None
  | path =>
      let '(s, rest) := split_elem path in
      let name :=
        if (DIRSIZ <=? length s)%nat then take DIRSIZ s ++ drop DIRSIZ name
        else s ++ Byte.x00 :: drop (S (length s)) name in
      Some (skip_slashes rest, name)
  end.

Section Fs.
Context `{KernelImage} `{World} `{Symbols} `{BlockDev}.

Definition getip {A} (ip : nat) (f : inode -> A) : M st A := gets (fun s => f (s_ic s ip)).
Definition set_ip (ip : nat) (f : inode -> inode) : M st unit :=
  modify (fun s => set_s_ic (fupd (s_ic s) ip (f (s_ic s ip))) s).
Definition getsb {A} (f : superblock -> A) : M st A := gets (fun s => f (s_sb s)).

(** ** Superblock and blocks *)

Definition readsb (dev : Z) : M st unit :=
  let* bp := bread dev 1 in
  let* d := getb_ bp b_data in
  modify (set_s_sb (superblock_at d)) ;;;
  brelse bp.

Definition fsinit (dev : Z) : M st unit :=
  readsb dev ;;;
  let* sb := gets s_sb in
  if negb (sb_magic sb =? FSMAGIC) then panic "invalid file system"
  else initlog dev sb.

Definition bzero (dev bno : Z) : M st unit :=
  let* bp := bread dev bno in
  set_data bp (fun _ => zero_block) ;;;
  log_write bp ;;;
  brelse bp.

(** bp->data[i], and its update *)
Definition dbyte (d : list byte) (i : Z) : Z := byte.unsigned (nth (Z.to_nat i) d Byte.x00).
Definition put_dbyte (d : list byte) (i v : Z) : list byte := <[Z.to_nat i := byte.of_Z v]> d.

(** The inner loop of balloc(): the first clear bit of the block [d], among
    the bits of blocks below [size]. *)
Definition balloc_bit (d : list byte) (b size : Z) : M st (option Z) :=
  loop (fun bi =>
    if (bi <? BPB) && (u32 (b + bi) <? size) then
      let m := Z.shiftl 1 (bi mod 8) in
      if Z.land (dbyte d (bi / 8)) m =? 0 then ret (inr (Some bi))
      else ret (inl (bi + 1))
    else ret (inr None)) 0.

Definition balloc (dev : Z) : M st Z :=
  loop (fun b =>
    let* sb := gets s_sb in
    if u32 b <? sb_size sb then
      let* bp := bread dev (BBLOCK b sb) in
      let* d := getb_ bp b_data in
      let* r := balloc_bit d b (sb_size sb) in
      match r with
      | Some bi =>
          let m := Z.shiftl 1 (bi mod 8) in
          set_data bp (fun d => put_dbyte d (bi / 8) (Z.lor (dbyte d (bi / 8)) m)) ;;;
          log_write bp ;;;
          brelse bp ;;;
          bzero dev (b + bi) ;;;
          ret (inr (b + bi))
      | None =>
          brelse bp ;;;
          ret (inl (b + BPB))
      end
    else panic "balloc: out of blocks") 0.

Definition bfree (dev b : Z) : M st unit :=
  let* sb := gets s_sb in
  let* bp := bread dev (BBLOCK b sb) in
  let bi := b mod BPB in
  let m := Z.shiftl 1 (bi mod 8) in
  let* d := getb_ bp b_data in
  if Z.land (dbyte d (bi / 8)) m =? 0 then panic "freeing free block"
  else
    set_data bp (fun d => put_dbyte d (bi / 8) (Z.land (dbyte d (bi / 8)) (Z.lnot m))) ;;;
    log_write bp ;;;
    brelse bp.

(** ** Inodes *)

Definition iinit : M st unit :=
  zoom (initlock IcacheLock) ;;;
  forM (seq 0 NINODE) (fun i => initsleeplock (InodeLock i)).

Definition iget (dev inum : Z) : M st nat :=
  lock_ IcacheLock ;;;
  let* r := scanM (seq 0 NINODE) None (fun ip (empty : option nat) =>
    let* x := getip ip (fun x => x) in
    if (0 <? i_ref x) && (i_dev x =? dev) && (i_inum x =? inum) then
      set_ip ip (fun x => set_i_ref (i_ref x + 1) x) ;;;
      unlock_ IcacheLock ;;;
      ret (inr ip)
    else
      ret (inl (match empty with
                | None => if i_ref x =? 0 then Some ip else None
                | Some e => Some e
                end))) in
  match r with
  | inr ip => ret ip
  | inl None => panic "iget: no inodes"
  | inl (Some ip) =>
      set_ip ip (set_i_dev dev) ;;;
      set_ip ip (set_i_inum inum) ;;;
      set_ip ip (set_i_ref 1) ;;;
      set_ip ip (set_i_valid 0) ;;;
      unlock_ IcacheLock ;;;
      ret ip
  end.

Definition ialloc (dev type : Z) : M st nat :=
  loop (fun inum =>
    let* sb := gets s_sb in
    if u32 inum <? sb_ninodes sb then
      let* bp := bread dev (IBLOCK inum sb) in
      let off := (inum mod IPB) * sizeof_dinode in
      let* d := getb_ bp b_data in
      if dinode_type d off =? 0 then
        set_data bp (fun d => put_bytes d off (List.repeat Byte.x00 (Z.to_nat sizeof_dinode))) ;;;
        set_data bp (fun d => put_le d off 2 type) ;;;
        log_write bp ;;;
        brelse bp ;;;
        let* ip := iget dev inum in
        ret (inr ip)
      else
        brelse bp ;;;
        ret (inl (inum + 1))
    else panic "ialloc: no inodes") 1.

Definition iupdate (ip : nat) : M st unit :=
  let* x := getip ip (fun x => x) in
  let* sb := gets s_sb in
  let* bp := bread (i_dev x) (IBLOCK (i_inum x) sb) in
  let off := (i_inum x mod IPB) * sizeof_dinode in
  let* x := getip ip (fun x => x) in
  set_data bp (fun d => put_bytes d off (dinode_bytes x)) ;;;
  log_write bp ;;;
  brelse bp.

Definition idup (ip : nat) : M st nat :=
  lock_ IcacheLock ;;;
  set_ip ip (fun x => set_i_ref (i_ref x + 1) x) ;;;
  unlock_ IcacheLock ;;;
  ret ip.

Definition ilock (p : option nat) : M st unit :=
  match p with
  | None => panic "ilock"
  | Some ip =>
      let* n := getip ip i_ref in
      if n <? 1 then panic "ilock"
      else
        acquiresleep (InodeLock ip) ;;;
        let* x := getip ip (fun x => x) in
        when (i_valid x =? 0)
          (let* sb := gets s_sb in
           let* bp := bread (i_dev x) (IBLOCK (i_inum x) sb) in
           let off := (i_inum x mod IPB) * sizeof_dinode in
           let* d := getb_ bp b_data in
           set_ip ip (set_i_type (dinode_type d off)) ;;;
           set_ip ip (set_i_major (dinode_major d off)) ;;;
           set_ip ip (set_i_minor (dinode_minor d off)) ;;;
           set_ip ip (set_i_nlink (dinode_nlink d off)) ;;;
           set_ip ip (set_i_size (dinode_size d off)) ;;;
           set_ip ip (set_i_addrs (dinode_addrs d off)) ;;;
           brelse bp ;;;
           set_ip ip (set_i_valid 1) ;;;
           let* t := getip ip i_type in
           if t =? 0 then panic "ilock: no type" else ret tt)
  end.

Definition iunlock (p : option nat) : M st unit :=
  match p with
  | None => panic "iunlock"
  | Some ip =>
      let* h := holdingsleep (InodeLock ip) in
      if negb h then panic "iunlock"
      else
        let* n := getip ip i_ref in
        if n <? 1 then panic "iunlock" else releasesleep (InodeLock ip)
  end.

(** ** Inode content *)

(** ip->addrs[i], and its update *)
Definition addr_at (x : inode) (i : Z) : Z := nth (Z.to_nat i) (i_addrs x) 0.
Definition put_addr (i v : Z) (x : inode) : inode := set_i_addrs (<[Z.to_nat i := v]> (i_addrs x)) x.

Definition bmap (ip : nat) (bn : Z) : M st Z :=
  let* dev := getip ip i_dev in
  if bn <? NDIRECT then
    let* addr := getip ip (fun x => addr_at x bn) in
    if addr =? 0 then
      let* addr := balloc dev in
      set_ip ip (put_addr bn addr) ;;;
      ret addr
    else ret addr
  else
    let bn := bn - NDIRECT in
    if bn <? NINDIRECT then
      let* addr := getip ip (fun x => addr_at x NDIRECT) in
      let* addr :=
        (if addr =? 0 then
           let* addr := balloc dev in
           set_ip ip (put_addr NDIRECT addr) ;;;
           ret addr
         else ret addr) in
      let* bp := bread dev addr in
      let* d := getb_ bp b_data in
      let addr := get32 d (4 * bn) in
      let* addr :=
        (if addr =? 0 then
           let* addr := balloc dev in
           set_data bp (fun d => put32 d (4 * bn) addr) ;;;
           log_write bp ;;;
           ret addr
         else ret addr) in
      brelse bp ;;;
      ret addr
    else panic "bmap: out of range".

Definition itrunc (ip : nat) : M st unit :=
  let* dev := getip ip i_dev in
  forM (seqZ 0 NDIRECT) (fun i =>
    let* a := getip ip (fun x => addr_at x i) in
    when (negb (a =? 0))
      (bfree dev a ;;;
       set_ip ip (put_addr i 0))) ;;;
  let* ind := getip ip (fun x => addr_at x NDIRECT) in
  when (negb (ind =? 0))
    (let* bp := bread dev ind in
     let* d := getb_ bp b_data in
     forM (seqZ 0 NINDIRECT) (fun j =>
       when (negb (get32 d (4 * j) =? 0)) (bfree dev (get32 d (4 * j)))) ;;;
     brelse bp ;;;
     bfree dev ind ;;;
     set_ip ip (put_addr NDIRECT 0)) ;;;
  set_ip ip (set_i_size 0) ;;;
  iupdate ip.

Definition iput (ip : nat) : M st unit :=
  lock_ IcacheLock ;;;
  let* x := getip ip (fun x => x) in
  when ((i_ref x =? 1) && negb (i_valid x =? 0) && (i_nlink x =? 0))
    (acquiresleep (InodeLock ip) ;;;
     unlock_ IcacheLock ;;;
     itrunc ip ;;;
     set_ip ip (set_i_type 0) ;;;
     iupdate ip ;;;
     set_ip ip (set_i_valid 0) ;;;
     releasesleep (InodeLock ip) ;;;
     lock_ IcacheLock) ;;;
  set_ip ip (fun x => set_i_ref (i_ref x - 1) x) ;;;
  unlock_ IcacheLock.

Definition iunlockput (ip : nat) : M st unit :=
  iunlock (Some ip) ;;;
  iput ip.

(** The bytes of the struct stat that stati() fills in; the compiler leaves
    four bytes of padding before the 64-bit size, which nobody writes. *)
Definition stati (ip : nat) : M st (list byte) :=
  let* x := getip ip (fun x => x) in
  ret (le_split 4 (i_dev x) ++ le_split 4 (i_inum x) ++ le_split 2 (i_type x) ++
       le_split 2 (i_nlink x) ++ List.map stack_junk (seq 0 4) ++ le_split 8 (i_size x)).

(** The result, and what was stored at a [Local] destination. *)
Definition readi (ip : nat) (dst : kaddr) (off n : Z) : M st (Z * list byte) :=
  let* x := getip ip (fun x => x) in
  if (i_size x <? off) || (u32 (off + n) <? off) then ret (0, [])
  else
    let n := if i_size x <? u32 (off + n) then u32 (i_size x - off) else n in
    loop (fun '(tot, off, dst, acc) =>
      if tot <? n then
        let* bn := bmap ip (off / BSIZE) in
        let* dev := getip ip i_dev in
        let* bp := bread dev bn in
        let m := Z.min (u32 (n - tot)) (BSIZE - off mod BSIZE) in
        let* d := getb_ bp b_data in
        let* r := either_copyout dst (take (Z.to_nat m) (drop (Z.to_nat (off mod BSIZE)) d)) in
        let '(rc, bs) := r in
        if rc =? -1 then
          brelse bp ;;;
          ret (inr (-1, acc ++ bs))
        else
          brelse bp ;;;
          ret (inl (u32 (tot + m), u32 (off + m), kadd dst m, acc ++ bs))
      else ret (inr (i32 tot, acc))) (0, off, dst, []).

(** n is unsigned: the -1 of the error case is positive, so that the inode
    is written back on that path too. *)
Definition writei (ip : nat) (src : kaddr) (off n : Z) : M st Z :=
  let* x := getip ip (fun x => x) in
  if (i_size x <? off) || (u32 (off + n) <? off) then ret (-1)
  else if MAXFILE * BSIZE <? u32 (off + n) then ret (-1)
  else
    let* r := loop (fun '(tot, off, src) =>
      if tot <? n then
        let* bn := bmap ip (off / BSIZE) in
        let* dev := getip ip i_dev in
        let* bp := bread dev bn in
        let m := Z.min (u32 (n - tot)) (BSIZE - off mod BSIZE) in
        let* r := either_copyin src m in
        let '(rc, bs) := r in
        set_data bp (fun d => put_bytes d (off mod BSIZE) bs) ;;;
        if rc =? -1 then
          brelse bp ;;;
          ret (inr (u32 (-1), off))
        else
          log_write bp ;;;
          brelse bp ;;;
          ret (inl (u32 (tot + m), u32 (off + m), kadd src m))
      else ret (inr (n, off))) (0, off, src) in
    let '(n, off) := r in
    when (0 <? n)
      (let* size := getip ip i_size in
       when (size <? off) (set_ip ip (set_i_size off)) ;;;
       iupdate ip) ;;;
    ret (i32 n).

(** ** Directories *)

Definition de_inum (de : list byte) : Z := get_le de 0 2.
Definition de_name (de : list byte) : list byte := drop 2 de.

(** The inode found, with the offset of its entry. *)
Definition dirlookup (dp : nat) (name : list byte) : M st (option (nat * Z)) :=
  let* t := getip dp i_type in
  if negb (t =? T_DIR) then panic "dirlookup not DIR"
  else
    loop (fun off =>
      let* size := getip dp i_size in
      if off <? size then
        let* r := readi dp (Local []) off sizeof_dirent in
        let '(n, de) := r in
        if negb (n =? sizeof_dirent) then panic "dirlookup read"
        else if de_inum de =? 0 then ret (inl (u32 (off + sizeof_dirent)))
        else if namecmp name (de_name de) =? 0 then
          let* dev := getip dp i_dev in
          let* ip := iget dev (de_inum de) in
          ret (inr (Some (ip, off)))
        else ret (inl (u32 (off + sizeof_dirent)))
      else ret (inr None)) 0.

Definition dirlink (dp : nat) (name : list byte) (inum : Z) : M st Z :=
  let* r := dirlookup dp name in
  match r with
  | Some (ip, _) =>
      iput ip ;;;
      ret (-1)
  | None =>
      let* off := loop (fun off =>
        let* size := getip dp i_size in
        if u32 off <? size then
          let* r := readi dp (Local []) off sizeof_dirent in
          let '(n, de) := r in
          if negb (n =? sizeof_dirent) then panic "dirlink read"
          else if de_inum de =? 0 then ret (inr off)
          else ret (inl (off + sizeof_dirent))
        else ret (inr off)) 0 in
      let de := le_split 2 inum ++ strncpy_arr DIRSIZ name in
      let* n := writei dp (Local de) off sizeof_dirent in
      if negb (n =? sizeof_dirent) then panic "dirlink" else ret 0
  end.

(** ** Path names *)

(** The inode, and what is left in name[]. *)
Definition namex (path : list byte) (nameiparent : bool) (name : list byte) :
    M st (option nat * list byte) :=
  let* ip :=
    (if is_absolute path then iget ROOTDEV ROOTINO
     else
       let* i := curproc in
       let* cwd := getp i cwd in
       match cwd with Some ip => idup ip | None => undefined "cwd is null" end) in
  loop (fun '(ip, path, name) =>
    match skipelem path name with
    | Some (path, name) =>
        ilock (Some ip) ;;;
        let* t := getip ip i_type in
        if negb (t =? T_DIR) then
          iunlockput ip ;;;
          ret (inr (None, name))
        else if nameiparent && bool_decide (path = []) then
          iunlock (Some ip) ;;;
          ret (inr (Some ip, name))
        else
          let* r := dirlookup ip name in
          match r with
          | None =>
              iunlockput ip ;;;
              ret (inr (None, name))
          | Some (next, _) =>
              iunlockput ip ;;;
              ret (inl (next, path, name))
          end
    | None =>
        if nameiparent then
          iput ip ;;;
          ret (inr (None, name))
        else ret (inr (Some ip, name))
    end) (ip, path, name).

(** An uninitialised name[DIRSIZ]. *)
Definition name_junk : list byte := List.map stack_junk (seq 0 DIRSIZ).

Definition namei (path : list byte) : M st (option nat) :=
  let* r := namex path false name_junk in ret r.1.

Definition nameiparent (path name : list byte) : M st (option nat * list byte) :=
  namex path true name.

End Fs.
