(* ===== verification/FsOk.v ===== *)
(** The blocks of files (kernel/fs.c): the block allocator and bmap() over the
    contents of the blocks as the running system sees them, and the state in which
    file system code runs inside a transaction. *)

From Stdlib Require Import ZArith Lia FunctionalExtensionality.
From stdpp Require Import base tactics list strings.
From coqutil Require Import Byte Word.LittleEndianList.
From S2P Require Import Prelude Riscv Mem Core Spinlock Kalloc Vm State Csr Proc Sched Sleeplock Virtio Bio Dll Cache Block Log Commit Txn Fs.

Local Open Scope Z_scope.
Local Open Scope kern_scope.

Section FsOk.
Context `{KernelImage} `{World} `{Symbols} `{BlockDevOk}.

(** The process that runs, where the log starts, the number of system calls in
    the transaction, the superblock, and the state in which the call began. *)
Context (i : nat) (start o : Z) (sb : superblock) (s0 : st).

(** ** Inside a transaction *)

Definition frame (s s' : st) : Prop := same (set_s_log (s_log s') (set_s_ic (s_ic s') s)) s'.

(** The blocks as seen by the system are [V]; buffers [hs] are locked, the
    transaction has modified the blocks [bs], and the inodes in memory are
    [ic].  What differs from the disk is in the log, and the rest of the kernel
    is as it was. *)
Record fs (V : Z -> list byte) (hs : list (nat * Z)) (bs : list Z) (ic : nat -> inode) (s : st) : Prop := {
  fs_bio : bio i V hs bs [] s;
  fs_txn : in_txn start o bs (s_log s);
  fs_sb : s_sb s = sb;
  fs_ic : s_ic s = ic;
  fs_clean : forall bn, bn ∉ bs -> V bn = s_disk s0 bn;
  fs_frame : frame s0 s;
  fs_disk : s_disk s = s_disk s0;
  fs_writes : s_writes s = s_writes s0;
}.

Lemma frame_trans s1 s2 : frame s0 s1 -> same s1 s2 -> frame s0 s2.
Proof.
  intros Ha Hb. unfold frame in *. rewrite (same_log _ _ Hb), (same_ic _ _ Hb). by apply (same_trans _ s1).
Qed.

Lemma frame_log s1 s2 : frame s0 s1 -> same_but_log s1 s2 -> frame s0 s2.
Proof.
  unfold frame, same_but_log. intros Ha Hb. rewrite (same_ic _ _ Hb). cbn [s_ic set_s_log].
  apply (same_trans _ (set_s_log (s_log s2) s1)); [|done]. apply (same_set_log (s_log s2)) in Ha. exact Ha.
Qed.

Lemma frame_ic s f : frame s0 s -> frame s0 (set_s_ic f s).
Proof. intros [E F]. split; [|exact F]. exact (f_equal (set_s_ic f) E). Qed.

Lemma fs_len V hs bs ic s bn : fs V hs bs ic s -> length (V bn) = Z.to_nat BSIZE.
Proof. intros Hf. apply (ca_vlen _ _ _ _ _ _ _ _ (bio_cache _ _ _ _ _ _ (fs_bio _ _ _ _ _ Hf))). Qed.

Lemma fs_bread V hs bs ic s bn : fs V hs bs ic s -> 0 <= bn < 2 ^ 31 -> bn ∉ hs.*2 -> (length hs + length bs < NBUF)%nat ->
  exists b s', bread ROOTDEV bn s = Ok b s' /\ fs V ((b, bn) :: hs) bs ic s' /\ b ∉ hs.*1.
Proof.
  intros [F1 F2 F3 F4 F5 F6 F7 F8] Hbn Hhs Hroom.
  destruct (bread_ok i V hs bs [] bn s) as (b & s1 & E1 & B1 & Hb & _ & (S1 & D1 & W1) & _);
    [done|apply settled_nil|done|done|by intros ? []%not_elem_of_nil|right; simpl; lia|].
  exists b, s1. split_and!; [done| |done]. split; [done|by rewrite (same_log _ _ S1)|by rewrite (same_sb _ _ S1)|by rewrite (same_ic _ _ S1)|done| | |].
  - by apply (frame_trans s).
  - by rewrite D1.
  - by rewrite W1.
Qed.

Lemma fs_data V hs bs ic s b bn : fs V hs bs ic s -> (b, bn) ∈ hs -> getb_ b b_data s = Ok (V bn) s.
Proof.
  intros Hf Hin. destruct (bio_cache _ _ _ _ _ _ (fs_bio _ _ _ _ _ Hf)) as [_ _ _ Ch _ _ _ Cv _ _ _].
  destruct (Ch b bn Hin) as (Hb & Hn & _). destruct (Cv b bn Hb Hn) as (_ & E & _). unfold getb_, gets. by rewrite E.
Qed.

Lemma fs_brelse V hs bs ic s b bn : fs V ((b, bn) :: hs) bs ic s -> b ∉ hs.*1 -> exists s', brelse b s = Ok tt s' /\ fs V hs bs ic s'.
Proof.
  intros [F1 F2 F3 F4 F5 F6 F7 F8] Hb.
  destruct (brelse_ok i V ((b, bn) :: hs) bs [] b bn s F1 (list_elem_of_here _ _)) as (s1 & E1 & B1 & (S1 & D1 & W1) & _).
  { destruct (decide (bn ∈ bs)) as [Hin|Hin]; [right; split; [done|apply not_elem_of_nil]|left]. by rewrite F7, F5. }
  exists s1. split; [done|]. assert (E : unheld b ((b, bn) :: hs) = hs).
  { rewrite unheld_hd. clear -Hb. unfold unheld. induction hs as [|[b' n] hs IH]; [done|]. rewrite fmap_cons, not_elem_of_cons in Hb. destruct Hb as [Hb1 Hb2].
    rewrite filter_cons_True by (cbn in *; congruence). by rewrite IH. }
  rewrite E in B1. split; [done|by rewrite (same_log _ _ S1)|by rewrite (same_sb _ _ S1)|by rewrite (same_ic _ _ S1)|done| | |].
  - by apply (frame_trans s).
  - by rewrite D1.
  - by rewrite W1.
Qed.

(** A block that may be modified in a transaction. *)
Definition loggable (bn : Z) : Prop := 0 <= bn < 2 ^ 31 /\ ~ (start <= bn < start + LOGSIZE).

(** A change of a locked buffer, and log_write(). *)
Lemma fs_modify V hs bs ic s b bn f : fs V hs bs ic s -> 1 <= o -> (b, bn) ∈ hs -> loggable bn -> Z.of_nat (length bs) < LOGSIZE - 1 ->
  length (f (V bn)) = Z.to_nat BSIZE ->
  exists s', (forall A (k : M st A), (set_data b f ;;; log_write b ;;; k) s = k s') /\ fs (fupd V bn (f (V bn))) hs (absorb bn bs) ic s'.
Proof.
  intros [F1 F2 F3 F4 F5 F6 F7 F8] Ho Hin [Hbn Hout] Hlen Hf.
  assert (B2 := set_buf_data_ok i V _ bs [] b bn f s F1 Hin (not_elem_of_nil _) Hf).
  set (s2 := put_buf b _ s) in *. assert (S2 : same s s2) by by split.
  destruct (log_write_ok i _ hs start o bs b bn s2 B2) as (s3 & E3 & B3 & T3 & S3 & D3 & W3); [done|done|done|done|done|].
  exists s3. split.
  { intros A k. unfold bind at 1. change (set_data b f s) with (Ok tt s2 : outcome st unit). cbn iota. unfold bind. by rewrite E3. }
  split; [done|done|by rewrite (same_sb _ _ S3)|by rewrite (same_ic _ _ S3)| | | |].
  - intros c Hc. rewrite elem_of_absorb in Hc. rewrite fupd_ne by tauto. apply F5. tauto.
  - apply (frame_log s2); [by apply (frame_trans s)|done].
  - by rewrite D3.
  - by rewrite W3.
Qed.

(** ip->field = v *)
Lemma fs_set_ip V hs bs ic s ip f : fs V hs bs ic s -> exists s', set_ip ip f s = Ok tt s' /\ fs V hs bs (fupd ic ip (f (ic ip))) s'.
Proof.
  intros [F1 F2 F3 F4 F5 F6 F7 F8]. eexists. split; [reflexivity|]. rewrite F4. split; try done.
  - by apply (bio_frame _ _ _ _ _ s).
  - by apply frame_ic.
Qed.

(** ** The bitmap *)

(** Where the parts of the disk are: metadata is below [nmeta]. *)
Record layout (nmeta : Z) : Prop := {
  lay_size : 0 < nmeta <= sb_size sb;
  lay_max : sb_size sb <= 2 ^ 31 - BPB;
  lay_log : start + LOGSIZE <= sb_inodestart sb;
  lay_inodes : sb_inodestart sb + sb_ninodes sb / IPB < sb_bmapstart sb;
  lay_ninodes : 0 <= sb_ninodes sb < 2 ^ 31 /\ 0 <= sb_inodestart sb;
  lay_bmap : sb_bmapstart sb + (sb_size sb - 1) / BPB < nmeta;
}.

(** Block [b] is in use. *)
Definition marked (V : Z -> list byte) (b : Z) : bool :=
  Z.testbit (dbyte (V (BBLOCK b sb)) (b mod BPB / 8)) (b mod 8).

(** The bitmap block [d] with the bit of a block set. *)
Definition mark (bi : Z) (d : list byte) : list byte := put_dbyte d (bi / 8) (Z.lor (dbyte d (bi / 8)) (Z.shiftl 1 (bi mod 8))).

(** The blocks after balloc() returned [b]. *)
Definition alloc (V : Z -> list byte) (b : Z) : Z -> list byte :=
  let V := fupd V (BBLOCK b sb) (mark (b mod BPB) (V (BBLOCK b sb))) in
  fupd V b zero_block.

Lemma land_bit x k : 0 <= k -> (Z.land x (Z.shiftl 1 k) =? 0) = negb (Z.testbit x k).
Proof.
  intros Hk. rewrite Z.shiftl_1_l. destruct (Z.testbit x k) eqn:E; cbn [negb].
  - apply Z.eqb_neq. intros E0. apply (f_equal (fun y => Z.testbit y k)) in E0. rewrite Z.land_spec, Z.pow2_bits_true, E, Z.bits_0 in E0 by done. done.
  - apply Z.eqb_eq, Z.bits_inj'. intros n Hn. rewrite Z.land_spec, Z.bits_0. destruct (decide (n = k)) as [->|Hne]; [by rewrite E|].
    rewrite Z.pow2_bits_false by done. apply andb_false_r.
Qed.

Lemma dbyte_put d j j' v : 0 <= j -> 0 <= j' < Z.of_nat (length d) -> 0 <= v < 256 -> dbyte (put_dbyte d j' v) j = if j =? j' then v else dbyte d j.
Proof.
  intros Hj Hj' Hv. unfold dbyte, put_dbyte. rewrite !nth_lookup. destruct (Z.eqb_spec j j') as [->|Hne].
  - rewrite list_lookup_insert_eq by lia. cbn. rewrite byte.unsigned_of_Z. by apply Z.mod_small.
  - by rewrite list_lookup_insert_ne by lia.
Qed.

Lemma dbyte_range d j : 0 <= dbyte d j < 256.
Proof. apply byte.unsigned_range. Qed.

Lemma mark_bit bi d c : length d = Z.to_nat BSIZE -> 0 <= bi < BPB -> 0 <= c < BPB ->
  Z.testbit (dbyte (mark bi d) (c / 8)) (c mod 8) = (c =? bi) || Z.testbit (dbyte d (c / 8)) (c mod 8).
Proof.
  intros Hd Hbi Hc. unfold BPB, BSIZE in *. assert (H8 : forall x, 0 <= x < 8192 -> 0 <= x / 8 < 1024).
  { intros x Hx. split; [apply Z.div_pos; lia|apply Z.div_lt_upper_bound; lia]. }
  pose proof (H8 bi Hbi). pose proof (H8 c Hc). pose proof (Z.mod_pos_bound bi 8 ltac:(lia)). pose proof (Z.mod_pos_bound c 8 ltac:(lia)).
  pose proof (dbyte_range d (bi / 8)). unfold mark. rewrite dbyte_put; [|lia|lia|].
  - destruct (Z.eqb_spec (c / 8) (bi / 8)) as [E|E].
    + rewrite Z.lor_spec, E, Z.shiftl_1_l, Z.pow2_bits_eqb, orb_comm by lia. f_equal.
      destruct (Z.eqb_spec c bi) as [->|Hne]; [by rewrite Z.eqb_refl|]. apply Z.eqb_neq. intros Em. apply Hne.
      rewrite (Z.div_mod c 8), (Z.div_mod bi 8) by lia. lia.
    + destruct (Z.eqb_spec c bi) as [->|Hne]; [done|]. done.
  - split; [apply Z.lor_nonneg; split; [lia|apply Z.shiftl_nonneg; lia]|]. rewrite Z.shiftl_1_l.
    assert (Hlog : Z.log2 (Z.lor (dbyte d (bi / 8)) (2 ^ (bi mod 8))) < 8).
    { rewrite Z.log2_lor by (try lia; apply Z.pow_nonneg; lia). apply Z.max_lub_lt; [|rewrite Z.log2_pow2; lia].
      destruct (decide (dbyte d (bi / 8) = 0)) as [->|]; [done|]. apply Z.log2_lt_pow2; lia. }
    destruct (decide (Z.lor (dbyte d (bi / 8)) (2 ^ (bi mod 8)) = 0)) as [->|Hn0]; [lia|].
    apply (Z.log2_lt_pow2 _ 8); [|done]. assert (0 <= Z.lor (dbyte d (bi / 8)) (2 ^ (bi mod 8))); [|lia].
    apply Z.lor_nonneg. split; [lia|apply Z.pow_nonneg; lia].
Qed.

Lemma length_mark bi d : length (mark bi d) = length d.
Proof. unfold mark, put_dbyte. apply length_insert. Qed.

Section Layout.
Context (nmeta : Z).
Hypothesis HL : layout nmeta.

Lemma bblock_ok b : 0 <= b < sb_size sb -> BBLOCK b sb = b / BPB + sb_bmapstart sb /\ sb_bmapstart sb <= BBLOCK b sb < nmeta /\ loggable (BBLOCK b sb).
Proof.
  intros Hb. destruct HL as [L1 L2 L3 L4 [L5 L6] L7]. unfold BBLOCK.
  assert (Hd : 0 <= b / BPB <= (sb_size sb - 1) / BPB) by (split; [apply Z.div_pos|apply Z.div_le_mono]; unfold BPB, BSIZE; lia).
  assert (Hi : 0 <= sb_ninodes sb / IPB) by (apply Z.div_pos; [lia|done]). unfold BPB, BSIZE in *.
  rewrite u32_small by lia. unfold loggable. lia.
Qed.

Lemma block_split q bi : 0 <= bi < BPB -> (BPB * q + bi) mod BPB = bi /\ (BPB * q + bi) mod 8 = bi mod 8 /\ (BPB * q + bi) / BPB = q.
Proof.
  intros Hbi. unfold BPB, BSIZE in *. change (1024 * 8) with 8192 in *. split_and!.
  - rewrite Z.add_comm, Z.mul_comm, Z.mod_add by lia. by apply Z.mod_small.
  - replace (8192 * q + bi) with (bi + (1024 * q) * 8) by lia. by rewrite Z.mod_add by lia.
  - rewrite Z.add_comm, Z.mul_comm, Z.div_add, Z.div_small by lia. done.
Qed.

Lemma alloc_marked V b c : (forall bn, length (V bn) = Z.to_nat BSIZE) -> nmeta <= b < sb_size sb -> 0 <= c < sb_size sb ->
  marked (alloc V b) c = (c =? b) || marked V c.
Proof.
  intros Hlen Hb Hc. assert (L1 := lay_size _ HL). destruct (bblock_ok b) as (Eb & Hb2 & _); [lia|]. destruct (bblock_ok c) as (Ec & Hc2 & _); [lia|].
  unfold marked, alloc. rewrite fupd_ne by lia. destruct (decide (BBLOCK c sb = BBLOCK b sb)) as [E|E].
  - rewrite E, fupd_eq. pose proof (Z.mod_pos_bound b BPB ltac:(done)). pose proof (Z.mod_pos_bound c BPB ltac:(done)).
    assert (E8 : forall x, x mod 8 = x mod BPB mod 8).
    { intros x. rewrite (Z.div_mod x BPB) at 1 by done. destruct (block_split (x / BPB) (x mod BPB)) as (_ & ? & _); [by apply Z.mod_pos_bound|done]. }
    rewrite (E8 c). rewrite mark_bit; [|apply Hlen|done|done]. f_equal.
    destruct (Z.eqb_spec c b) as [->|Hne]; [apply Z.eqb_refl|]. apply Z.eqb_neq. intros Em. apply Hne.
    rewrite (Z.div_mod c BPB), (Z.div_mod b BPB), Em by done. lia.
  - rewrite fupd_ne by done. destruct (Z.eqb_spec c b) as [->|Hne]; done.
Qed.

Lemma alloc_other V b c : c <> b -> c <> BBLOCK b sb -> alloc V b c = V c.
Proof. intros E1 E2. unfold alloc. by rewrite !fupd_ne by done. Qed.

(** ** balloc() *)

Definition set_bit (d : list byte) (bi : Z) : bool := Z.testbit (dbyte d (bi / 8)) (bi mod 8).

Lemma balloc_bit_ok d b s : 0 <= b < sb_size sb ->
  exists r, balloc_bit d b (sb_size sb) s = Ok r s /\
    match r with
    | Some bi => 0 <= bi < BPB /\ b + bi < sb_size sb /\ set_bit d bi = false /\ forall c, 0 <= c < bi -> set_bit d c = true
    | None => forall c, 0 <= c < BPB -> b + c < sb_size sb -> set_bit d c = true
    end.
Proof.
  intros Hb. assert (L2 := lay_max _ HL).
  enough (wp (balloc_bit d b (sb_size sb)) (fun r s' => s' = s /\ match r with
    | Some bi => 0 <= bi < BPB /\ b + bi < sb_size sb /\ set_bit d bi = false /\ forall c, 0 <= c < bi -> set_bit d c = true
    | None => forall c, 0 <= c < BPB -> b + c < sb_size sb -> set_bit d c = true
    end) s) as W.
  { apply wp_elim in W as (r & s' & E & -> & Hr). eauto. }
  apply (wp_loop _ (fun m bi s' => s' = s /\ m = BPB - bi /\ 0 <= bi <= BPB /\ forall c, 0 <= c < bi -> set_bit d c = true)) with (n := BPB).
  - intros m bi s' _ (-> & -> & Hbi & Hset). unfold BPB, BSIZE in *. rewrite u32_small by lia.
    destruct (Z.ltb_spec bi (1024 * 8)), (Z.ltb_spec (b + bi) (sb_size sb)); cbn [andb]; try (apply wp_ret; split; [done|]; intros c Hc1 Hc2; apply Hset; lia).
    rewrite land_bit by (apply Z.mod_pos_bound; lia). destruct (Z.testbit _ _) eqn:E; cbn [negb]; apply wp_ret.
    + exists (1024 * 8 - (bi + 1)). split_and!; [lia|lia|done|done|lia|lia|]. intros c Hc. destruct (decide (c = bi)) as [->|]; [done|]. apply Hset. lia.
    + split_and!; [done|lia|lia|lia|done|done].
  - by unfold BPB, BSIZE.
  - split_and!; [done|unfold BPB, BSIZE; lia|lia|unfold BPB, BSIZE; lia|]. intros c Hc. lia.
Qed.


(** Buffers are locked only of data blocks in use. *)
Definition held_ok (V : Z -> list byte) (hs : list (nat * Z)) : Prop := Forall (fun p => nmeta <= p.2 /\ marked V p.2 = true) hs.

Lemma held_not_in V hs bn : held_ok V hs -> bn < nmeta \/ marked V bn = false -> bn ∉ hs.*2.
Proof. intros Hh Hbn ([b bn'] & -> & Hin)%list_elem_of_fmap. unfold held_ok in Hh. rewrite Forall_forall in Hh. destruct (Hh _ Hin). cbn [snd] in *. destruct Hbn; [lia|congruence]. Qed.

Lemma length_zero_block : length zero_block = Z.to_nat BSIZE.
Proof. apply repeat_length. Qed.

(** The room balloc() needs: two blocks in the log. *)
Definition room (hs : list (nat * Z)) (bs : list Z) (n : nat) : Prop := (length hs <= 1)%nat /\ Z.of_nat (length bs + n) < LOGSIZE.

Lemma bzero_ok V hs bs ic s b : fs V hs bs ic s -> 1 <= o -> loggable b -> b ∉ hs.*2 -> room hs bs 2 ->
  exists s', bzero ROOTDEV b s = Ok tt s' /\ fs (fupd V b zero_block) hs (absorb b bs) ic s'.
Proof.
  intros Hf Ho Hb Hh [R1 R2]. unfold LOGSIZE, MAXOPBLOCKS in R2.
  destruct (fs_bread V hs bs ic s b Hf) as (x & s1 & E1 & F1 & Hx); [apply Hb|done|unfold NBUF; lia|].
  destruct (fs_modify V _ bs ic s1 x b (fun _ => zero_block) F1 Ho (list_elem_of_here _ _) Hb) as (s2 & E2 & F2); [unfold LOGSIZE, MAXOPBLOCKS; lia|apply length_zero_block|].
  destruct (fs_brelse _ _ _ _ s2 x b F2 Hx) as (s3 & E3 & F3). exists s3. split; [|done].
  unfold bzero. rewrite (bind_run _ _ _ _ _ E1), E2. exact E3.
Qed.

Lemma balloc_ok V hs bs ic s : fs V hs bs ic s -> 1 <= o -> held_ok V hs -> room hs bs 3 ->
  (forall b, 0 <= b < nmeta -> marked V b = true) -> (exists b, 0 <= b < sb_size sb /\ marked V b = false) ->
  exists b s', balloc ROOTDEV s = Ok b s' /\ nmeta <= b < sb_size sb /\ marked V b = false /\ (forall c, 0 <= c < b -> marked V c = true) /\
    fs (alloc V b) hs (absorb b (absorb (BBLOCK b sb) bs)) ic s'.
Proof.
  intros Hf Ho Hh Hroom Hmeta (bf & Hbf & Hmf). assert (L1 := lay_size _ HL). assert (L2 := lay_max _ HL). pose proof Hroom as [R1 R2]. unfold LOGSIZE, MAXOPBLOCKS in R2.
  enough (wp (balloc ROOTDEV) (fun b s' => nmeta <= b < sb_size sb /\ marked V b = false /\ (forall c, 0 <= c < b -> marked V c = true) /\
    fs (alloc V b) hs (absorb b (absorb (BBLOCK b sb) bs)) ic s') s) as W.
  { apply wp_elim in W as (b & s' & E & Hb). eauto. }
  apply (wp_loop _ (fun m b s' => exists q, b = BPB * q /\ 0 <= b /\ m = sb_size sb + BPB - b /\ b < sb_size sb + BPB /\ fs V hs bs ic s' /\
    forall c, 0 <= c < b -> c < sb_size sb -> marked V c = true)) with (n := sb_size sb + BPB).
  - intros m b s' _ (q & -> & Hb & -> & Hb2 & F & Hset). apply wp_bind, wp_gets. rewrite (fs_sb _ _ _ _ _ F).
    rewrite u32_small by (unfold BPB, BSIZE in *; lia).
    destruct (Z.ltb_spec (BPB * q) (sb_size sb)) as [Hlt|Hge]; [|exfalso; rewrite (Hset bf) in Hmf by lia; done].
    destruct (bblock_ok (BPB * q)) as (Eb & Hbb & Hlog); [lia|].
    destruct (fs_bread V hs bs ic s' _ F (proj1 Hlog)) as (x & s1 & E1 & F1 & Hx); [eapply held_not_in; [done|left; lia]|unfold NBUF; lia|].
    run E1. run (fs_data _ _ _ _ _ _ _ F1 (list_elem_of_here _ _)).
    destruct (balloc_bit_ok (V (BBLOCK (BPB * q) sb)) (BPB * q) s1 ltac:(lia)) as (r & E2 & Hr). run E2.
    assert (Em : forall bi, 0 <= bi < BPB -> BPB * q + bi < sb_size sb -> marked V (BPB * q + bi) = set_bit (V (BBLOCK (BPB * q) sb)) bi /\ BBLOCK (BPB * q + bi) sb = BBLOCK (BPB * q) sb).
    { intros bi Hbi Hs. destruct (block_split q bi Hbi) as (M1 & M2 & M3). destruct (bblock_ok (BPB * q + bi)) as (E' & _); [lia|].
      assert (EB : BBLOCK (BPB * q + bi) sb = BBLOCK (BPB * q) sb).
      { rewrite E', Eb, M3. by rewrite Z.mul_comm, Z.div_mul by done. }
      split; [|done]. unfold marked, set_bit. by rewrite EB, M1, M2. }
    destruct r as [bi|].
    + destruct Hr as (Hbi & Hs & Hclear & Hbefore). destruct (Em bi Hbi Hs) as [Em1 EB]. rewrite Hclear in Em1. set (nb := BPB * q + bi) in *.
      assert (Hnb : nmeta <= nb). { apply Z.nlt_ge. intros Hn. rewrite Hmeta in Em1 by lia. done. }
      destruct (fs_modify V _ bs ic s1 x _ (mark bi) F1 Ho (list_elem_of_here _ _) Hlog) as (s2 & E3 & F2); [unfold LOGSIZE, MAXOPBLOCKS; lia|by rewrite length_mark, (fs_len _ _ _ _ _ _ F)|].
      destruct (fs_brelse _ _ _ _ s2 x _ F2 Hx) as (s3 & E4 & F3).
      pose proof (absorb_bound (BBLOCK (BPB * q) sb) bs).
      assert (Hlnb : loggable nb). { destruct HL as [? ? ? ? ? ?]. destruct (bblock_ok nb ltac:(lia)) as (_ & ? & _). assert (0 <= sb_ninodes sb / IPB) by (apply Z.div_pos; [lia|done]). unfold loggable. lia. }
      destruct (bzero_ok _ _ _ _ s3 nb F3 Ho Hlnb) as (s4 & E5 & F4); [eapply held_not_in; [done|by right]|split; [done|unfold LOGSIZE, MAXOPBLOCKS; lia]|].
      unfold wp. fold (mark bi). rewrite E3, (bind_run _ _ _ _ _ E4), (bind_run _ _ _ _ _ E5). split_and!; [lia|lia|done| |].
      * intros c Hc. destruct (decide (c < BPB * q)) as [Hcq|Hcq]; [apply Hset; lia|].
        replace c with (BPB * q + (c - BPB * q)) by lia. destruct (Em (c - BPB * q)) as [-> _]; [lia|lia|]. apply Hbefore. lia.
      * unfold alloc. rewrite EB. replace (nb mod BPB) with bi by (symmetry; by apply block_split). exact F4.
    + destruct (fs_brelse _ _ _ _ s1 x _ F1 Hx) as (s2 & E3 & F2). run E3. apply wp_ret.
      exists (sb_size sb + BPB - (BPB * q + BPB)). split; [unfold BPB, BSIZE in *; lia|]. exists (q + 1). split_and!; [lia|unfold BPB, BSIZE in *; lia|lia|lia|done|].
      intros c Hc Hcs. destruct (decide (c < BPB * q)) as [Hcq|Hcq]; [apply Hset; lia|].
      replace c with (BPB * q + (c - BPB * q)) by lia. destruct (Em (c - BPB * q)) as [-> _]; [lia|lia|]. apply Hr; lia.
  - unfold BPB, BSIZE in *. lia.
  - exists 0. split_and!; [done|lia|lia|unfold BPB, BSIZE in *; lia|done|]. intros c Hc. lia.
Qed.

(** ** Block maps *)

(** The disk block of block [fbn] of a file, 0 if it has none. *)
Definition blkno (V : Z -> list byte) (x : inode) (fbn : Z) : Z :=
  if fbn <? NDIRECT then addr_at x fbn
  else if addr_at x NDIRECT =? 0 then 0 else get32 (V (addr_at x NDIRECT)) (4 * (fbn - NDIRECT)).

(** A data block in use. *)
Definition data (V : Z -> list byte) (c : Z) : Prop := nmeta <= c < sb_size sb /\ marked V c = true.

(** The blocks of a file are data blocks in use, all different. *)
Record map_ok (V : Z -> list byte) (ind : Z) (f : Z -> Z) : Prop := {
  mo_ind : ind = 0 \/ data V ind;
  mo_blk : forall g, 0 <= g < MAXFILE -> f g = 0 \/ data V (f g);
  mo_inj : forall g g', 0 <= g < MAXFILE -> 0 <= g' < MAXFILE -> f g <> 0 -> f g = f g' -> g = g';
  mo_apart : forall g, 0 <= g < MAXFILE -> f g <> 0 -> f g <> ind;
}.

Definition file_ok (V : Z -> list byte) (x : inode) : Prop :=
  i_dev x = ROOTDEV /\ length (i_addrs x) = 13%nat /\ map_ok V (addr_at x NDIRECT) (blkno V x).

Lemma data_pos V c : data V c -> 0 < c < 2 ^ 31.
Proof. intros [Hc _]. destruct (lay_size _ HL). pose proof (lay_max _ HL). unfold BPB, BSIZE in *. lia. Qed.

Lemma data_loggable V c : data V c -> loggable c.
Proof.
  intros Hd. pose proof (data_pos _ _ Hd). destruct Hd as [Hc _]. destruct HL as [? ? ? ? [? ?] ?].
  assert (0 <= sb_ninodes sb / IPB) by (apply Z.div_pos; [lia|done]). assert (0 <= (sb_size sb - 1) / BPB) by (apply Z.div_pos; [lia|done]).
  unfold loggable. lia.
Qed.

Lemma marked_ext V V' c : V' (BBLOCK c sb) = V (BBLOCK c sb) -> marked V' c = marked V c.
Proof. intros E. unfold marked. by rewrite E. Qed.

(** Changes of data blocks do not change the bitmap. *)
Lemma marked_fupd V c d e : nmeta <= c -> 0 <= e < sb_size sb -> marked (fupd V c d) e = marked V e.
Proof. intros Hc He. apply marked_ext. destruct (bblock_ok e He) as (_ & Hb & _). by rewrite fupd_ne by lia. Qed.

Lemma data_fupd V c d e : nmeta <= c -> data (fupd V c d) e <-> data V e.
Proof. intros Hc. unfold data. assert (L1 := lay_size _ HL). split; intros [He Hm]; (split; [done|]); rewrite marked_fupd in *; try done; lia. Qed.

Lemma data_alloc V b c : (forall bn, length (V bn) = Z.to_nat BSIZE) -> nmeta <= b < sb_size sb -> data (alloc V b) c <-> c = b \/ data V c.
Proof.
  intros Hlen Hb. assert (L1 := lay_size _ HL). unfold data. split.
  - intros [Hc Hm]. rewrite alloc_marked, orb_true_iff, Z.eqb_eq in Hm by (done || lia). tauto.
  - intros [->|[Hc Hm]]; (split; [done|]); rewrite alloc_marked by (done || lia); [by rewrite Z.eqb_refl|by rewrite Hm, orb_true_r].
Qed.

Lemma map_ok_mono V V' ind f f' : (forall c, data V c -> data V' c) -> (forall g, 0 <= g < MAXFILE -> f' g = f g) -> map_ok V ind f -> map_ok V' ind f'.
Proof.
  intros Hd Hf [M1 M2 M3 M4]. split.
  - destruct M1; [by left|right; by apply Hd].
  - intros g Hg. rewrite Hf by done. destruct (M2 g Hg); [by left|right; by apply Hd].
  - intros g g' Hg Hg'. rewrite !Hf by done. by apply M3.
  - intros g Hg. rewrite Hf by done. by apply M4.
Qed.

(** A new block in the map, or a new block for the map. *)
Lemma map_ok_new V V' ind f f' fbn b : map_ok V ind f -> nmeta <= b < sb_size sb -> marked V b = false -> (forall c, c = b \/ data V c -> data V' c) ->
  (forall g, 0 <= g < MAXFILE -> f' g = if g =? fbn then b else f g) -> map_ok V' ind f'.
Proof.
  intros [M1 M2 M3 M4] Hb Hm Hd Hf. assert (Hn : forall c, c = 0 \/ data V c -> c <> b).
  { intros c Hc ->. destruct Hc as [E|[_ Hc]]; [destruct (lay_size _ HL); lia|congruence]. }
  split.
  - destruct M1; [by left|right; apply Hd; by right].
  - intros g Hg. rewrite Hf by done. destruct (g =? fbn); [right; apply Hd; by left|]. destruct (M2 g Hg); [by left|right; apply Hd; by right].
  - intros g g' Hg Hg'. rewrite !Hf by done. destruct (Z.eqb_spec g fbn) as [->|E], (Z.eqb_spec g' fbn) as [->|E']; intros Hne Heq; [done| | |by apply M3].
    + by destruct (Hn _ (M2 g' Hg')).
    + by destruct (Hn _ (M2 g Hg)).
  - intros g Hg. rewrite Hf by done. destruct (g =? fbn); [intros _; apply not_eq_sym, Hn, M1|by apply M4].
Qed.

Lemma map_ok_ind V V' f f' b : map_ok V 0 f -> nmeta <= b < sb_size sb -> marked V b = false -> (forall c, c = b \/ data V c -> data V' c) ->
  (forall g, 0 <= g < MAXFILE -> f' g = f g) -> map_ok V' b f'.
Proof.
  intros [M1 M2 M3 M4] Hb Hm Hd Hf. split.
  - right. apply Hd. by left.
  - intros g Hg. rewrite Hf by done. destruct (M2 g Hg); [by left|right; apply Hd; by right].
  - intros g g' Hg Hg'. rewrite !Hf by done. by apply M3.
  - intros g Hg. rewrite Hf by done. intros Hne E. destruct (M2 g Hg) as [?|[_ Hg2]]; [done|]. rewrite E in Hg2. congruence.
Qed.

(** At least [k] free data blocks. *)
Definition free_blocks (V : Z -> list byte) (k : nat) : Prop :=
  exists L, NoDup L /\ (k <= length L)%nat /\ Forall (fun b => nmeta <= b < sb_size sb /\ marked V b = false) L.

Definition meta_ok (V : Z -> list byte) : Prop := forall b, 0 <= b < nmeta -> marked V b = true.

Lemma length_without (b : Z) L : NoDup L -> (length L <= S (length (filter (fun c => c <> b) L)))%nat.
Proof.
  induction 1 as [|c L Hc HN IH]; [cbn; lia|]. rewrite filter_cons. case_decide as E; cbn [length]; [lia|].
  subst c.
  enough (E2 : filter (fun c => c <> b) L = L) by (rewrite E2; lia). clear IH HN. induction L as [|d L IH]; [done|].
  rewrite not_elem_of_cons in Hc. rewrite filter_cons_True by (apply not_eq_sym; tauto). f_equal. apply IH. tauto.
Qed.

Lemma free_alloc V b k : (forall bn, length (V bn) = Z.to_nat BSIZE) -> nmeta <= b < sb_size sb -> free_blocks V (S k) -> free_blocks (alloc V b) k.
Proof.
  intros Hlen Hb (L & HN & Hk & HF). exists (filter (fun c => c <> b) L). pose proof (length_without b L HN). split_and!; [by apply NoDup_filter|lia|].
  apply Forall_forall. intros c [Hc Hin]%list_elem_of_filter. rewrite Forall_forall in HF. destruct (HF c Hin) as [Hr Hm]. split; [done|].
  destruct (lay_size _ HL). rewrite alloc_marked by (done || lia). by rewrite Hm, (proj2 (Z.eqb_neq _ _) Hc).
Qed.

Lemma free_data V c d k : nmeta <= c -> free_blocks V k -> free_blocks (fupd V c d) k.
Proof.
  intros Hc (L & HN & Hk & HF). exists L. split_and!; [done|done|]. eapply Forall_impl; [exact HF|]. intros b [Hb Hm]. split; [done|].
  destruct (lay_size _ HL). by rewrite marked_fupd by lia.
Qed.

Lemma free_fewer V k k' : (k' <= k)%nat -> free_blocks V k -> free_blocks V k'.
Proof. intros Hk (L & HN & HkL & HF). exists L. split_and!; [done|lia|done]. Qed.

Lemma free_some V k : free_blocks V (S k) -> exists b, 0 <= b < sb_size sb /\ marked V b = false.
Proof. intros (L & _ & Hk & HF). destruct L as [|b L]; [cbn in Hk; lia|]. apply Forall_cons in HF as [[Hb Hm] _]. exists b. destruct (lay_size _ HL). split; [lia|done]. Qed.

Lemma meta_alloc V b : (forall bn, length (V bn) = Z.to_nat BSIZE) -> nmeta <= b < sb_size sb -> meta_ok V -> meta_ok (alloc V b).
Proof. intros Hlen Hb Hm c Hc. destruct (lay_size _ HL). rewrite alloc_marked by (done || lia). by rewrite Hm, orb_true_r. Qed.

Lemma meta_data V c d : nmeta <= c -> meta_ok V -> meta_ok (fupd V c d).
Proof. intros Hc Hm e He. destruct (lay_size _ HL). rewrite marked_fupd by lia. by apply Hm. Qed.

(** The blocks of a file. *)
Definition owns (V : Z -> list byte) (x : inode) (c : Z) : Prop :=
  c <> 0 /\ (c = addr_at x NDIRECT \/ exists g, 0 <= g < MAXFILE /\ blkno V x g = c).

(** What bmap() for block [fbn] of the file does to the blocks and the inode:
    the map may gain blocks that were free, and nothing else changes. *)
Record grown (V : Z -> list byte) (x : inode) (fbn : Z) (V' : Z -> list byte) (x' : inode) : Prop := {
  gr_file : file_ok V' x';
  gr_meta : meta_ok V';
  gr_x : x' = set_i_addrs (i_addrs x') x;
  gr_map : forall g, 0 <= g < MAXFILE -> g <> fbn \/ blkno V x g <> 0 -> blkno V' x' g = blkno V x g;
  gr_data : forall c, data V c -> data V' c;
  gr_keep : forall c, data V c -> c <> addr_at x NDIRECT -> V' c = V c;
  gr_ind : addr_at x' NDIRECT = addr_at x NDIRECT \/ ~ data V (addr_at x' NDIRECT) /\ addr_at x NDIRECT = 0;
  gr_low : forall c, c < sb_bmapstart sb -> V' c = V c;
  gr_new : forall c, owns V' x' c -> owns V x c \/ ~ data V c;
}.

Lemma grown_refl V x fbn : file_ok V x -> meta_ok V -> grown V x fbn V x.
Proof. intros Hf Hm. split; try done; [by destruct x|by left|intros; by left]. Qed.

Lemma grown_trans V1 x1 fbn V2 x2 V3 x3 : grown V1 x1 fbn V2 x2 -> grown V2 x2 fbn V3 x3 -> grown V1 x1 fbn V3 x3.
Proof.
  intros [A1 A2 A3 A4 A5 A6 A7 A8 A9] [B1 B2 B3 B4 B5 B6 B7 B8 B9]. split; try done.
  - rewrite B3, A3. done.
  - intros g Hg Hc. destruct (decide (g = fbn)) as [->|Hne].
    + destruct Hc as [?|Hc]; [done|]. rewrite B4; [by apply A4; [|right]|done|right]. rewrite A4; [done|done|by right].
    + rewrite B4; [by apply A4; [|left]|done|by left].
  - intros c Hc. by apply B5, A5.
  - intros c Hc Hi. rewrite B6; [by apply A6|by apply A5|]. destruct A7 as [->|[A7 _]]; [done|]. by intros ->.
  - destruct B7 as [->|[B7 E]]; [done|]. right. split; [intros Hd; apply B7; by apply A5|]. destruct A7 as [<-|[A7 ->]]; [done|done].
  - intros c Hc. rewrite B8 by done. by apply A8.
  - intros c [Hc|Hc]%B9; [by apply A9|]. right. intros Hd. apply Hc. by apply A5.
Qed.

Lemma addr_put x k b j : length (i_addrs x) = 13%nat -> 0 <= k <= NDIRECT -> 0 <= j -> addr_at (put_addr k b x) j = if j =? k then b else addr_at x j.
Proof.
  intros Hl Hk Hj. unfold NDIRECT in *. unfold addr_at, put_addr. cbn [i_addrs set_i_addrs]. rewrite !nth_lookup. destruct (Z.eqb_spec j k) as [->|Hne].
  - by rewrite list_lookup_insert_eq by lia.
  - by rewrite list_lookup_insert_ne by lia.
Qed.

Lemma get32_zero off : get32 zero_block off = 0.
Proof.
  unfold get32, get_le, zero_block. generalize (Z.to_nat BSIZE). intros n. assert (E : take 4 (drop (Z.to_nat off) (List.repeat Byte.x00 n)) = List.repeat Byte.x00 (4 `min` (n - Z.to_nat off))).
  { apply list_eq. intros k. assert (R : forall m k, List.repeat Byte.x00 m !! k = if (k <? m)%nat then Some Byte.x00 else None).
    { intros m. induction m as [|m IH]; intros [|j]; [done|done|done|]. apply IH. }
    rewrite R. destruct (decide (k < 4)%nat).
    - rewrite lookup_take_lt, lookup_drop, R by done. destruct (Nat.ltb_spec (Z.to_nat off + k) n), (Nat.ltb_spec k (4 `min` (n - Z.to_nat off))); (done || lia).
    - rewrite lookup_take_ge by lia. destruct (Nat.ltb_spec k (4 `min` (n - Z.to_nat off))); [lia|done]. }
  rewrite E. apply le_combine_0.
Qed.

(** No block of the file gained: none for [fbn] either. *)
Lemma grown_none V x fbn V' x' : grown V x (-1) V' x' -> grown V x fbn V' x' /\ (0 <= fbn < MAXFILE -> blkno V' x' fbn = blkno V x fbn).
Proof.
  intros [A1 A2 A3 A4 A5 A6 A7 A8 A9]. split; [split; try done|]; [intros g Hg _|intros Hg]; apply A4; try done; left; lia.
Qed.

Section Grow.
Context (V : Z -> list byte) (x : inode) (fbn b : Z).
Hypothesis Hfile : file_ok V x.
Hypothesis Hmeta : meta_ok V.
Hypothesis Hlen : forall bn, length (V bn) = Z.to_nat BSIZE.
Hypothesis Hb : nmeta <= b < sb_size sb.
Hypothesis Hnew : marked V b = false.
Hypothesis Hfbn : 0 <= fbn < MAXFILE.

Lemma new_not_data c : data V c -> c <> b /\ alloc V b c = V c.
Proof.
  intros [Hc Hm]. destruct (lay_size _ HL). destruct (bblock_ok b) as (_ & ? & _); [lia|]. assert (c <> b) by congruence. split; [done|]. apply alloc_other; [done|lia].
Qed.

Lemma low_not_new c : c < sb_bmapstart sb -> alloc V b c = V c.
Proof. intros Hc. destruct (lay_size _ HL). destruct (bblock_ok b) as (_ & ? & _); [lia|]. apply alloc_other; lia. Qed.

Lemma alloc_zero : alloc V b b = zero_block.
Proof. unfold alloc. apply fupd_eq. Qed.

Lemma grown_direct : fbn < NDIRECT -> addr_at x fbn = 0 -> grown V x fbn (alloc V b) (put_addr fbn b x).
Proof.
  intros Hd H0'. destruct Hfile as (Hdev & Hl & Hmo). assert (Ei : addr_at (put_addr fbn b x) NDIRECT = addr_at x NDIRECT).
  { rewrite addr_put by (done || lia). by rewrite (proj2 (Z.eqb_neq _ _)) by lia. }
  assert (Hmap : forall g, 0 <= g < MAXFILE -> blkno (alloc V b) (put_addr fbn b x) g = if g =? fbn then b else blkno V x g).
  { intros g Hg. unfold blkno. rewrite Ei, addr_put by (done || lia). destruct (Z.ltb_spec g NDIRECT); [done|]. rewrite (proj2 (Z.eqb_neq g fbn)) by lia.
    destruct (Z.eqb_spec (addr_at x NDIRECT) 0); [done|]. destruct (mo_ind _ _ _ Hmo) as [?|Hi]; [done|]. by rewrite (proj2 (new_not_data _ Hi)). }
  assert (Hdata := fun c => proj2 (data_alloc V b c Hlen Hb)). split.
  - split_and!; [done|unfold put_addr; cbn [i_addrs set_i_addrs]; by rewrite length_insert|]. rewrite Ei. by eapply map_ok_new.
  - by apply meta_alloc.
  - done.
  - intros g Hg Hc. rewrite Hmap by done. destruct (Z.eqb_spec g fbn) as [->|]; [|done]. destruct Hc as [?|Hc]; [done|].
    destruct Hc. unfold blkno. by rewrite (proj2 (Z.ltb_lt _ _) Hd).
  - intros c Hc. apply Hdata. by right.
  - intros c Hc _. by apply new_not_data.
  - by left.
  - apply low_not_new.
  - intros c [Hc [->|(g & Hg & E)]]; [left; rewrite Ei in *; split; [done|by left]|]. rewrite Hmap in E by done. destruct (g =? fbn).
    + right. intros Hd'. by destruct (new_not_data c Hd').
    + left. split; [done|right; by exists g].
Qed.

Lemma grown_indirect : addr_at x NDIRECT = 0 -> grown V x fbn (alloc V b) (put_addr NDIRECT b x).
Proof.
  intros H0'. destruct Hfile as (Hdev & Hl & Hmo). assert (Ei : addr_at (put_addr NDIRECT b x) NDIRECT = b).
  { rewrite addr_put by (done || unfold NDIRECT; lia). by rewrite Z.eqb_refl. }
  assert (Hmap : forall g, 0 <= g < MAXFILE -> blkno (alloc V b) (put_addr NDIRECT b x) g = blkno V x g).
  { intros g Hg. unfold blkno. rewrite Ei, addr_put, H0' by (done || unfold NDIRECT; lia). destruct (Z.ltb_spec g NDIRECT).
    - by rewrite (proj2 (Z.eqb_neq g NDIRECT)) by lia.
    - destruct (b =? 0); [done|]. rewrite alloc_zero. apply get32_zero. }
  assert (Hdata := fun c => proj2 (data_alloc V b c Hlen Hb)). split.
  - split_and!; [done|unfold put_addr; cbn [i_addrs set_i_addrs]; by rewrite length_insert|]. rewrite Ei. rewrite H0' in Hmo. by eapply map_ok_ind.
  - by apply meta_alloc.
  - done.
  - intros g Hg _. by apply Hmap.
  - intros c Hc. apply Hdata. by right.
  - intros c Hc _. by apply new_not_data.
  - right. split; [|done]. rewrite Ei. intros [_ ?]. congruence.
  - apply low_not_new.
  - intros c [Hc [->|(g & Hg & E)]]; [right; rewrite Ei; intros [_ ?]; congruence|]. rewrite Hmap in E by done. left. split; [done|right; by exists g].
Qed.

Lemma get_put32 d k v j : length d = Z.to_nat BSIZE -> 0 <= k < NINDIRECT -> 0 <= j < NINDIRECT -> 0 <= v < 2 ^ 32 -> get32 (put32 d (4 * k) v) (4 * j) = if j =? k then v else get32 d (4 * j).
Proof.
  unfold NINDIRECT, BSIZE. intros Hd Hk Hj Hv. change (1024 / 4) with 256 in *. unfold get32, put32. destruct (Z.eqb_spec j k) as [->|Hne].
  - rewrite get_put_le by lia. apply Z.mod_small. done.
  - by rewrite get_put_le_other by lia.
Qed.

Lemma grown_entry : NDIRECT <= fbn -> addr_at x NDIRECT <> 0 -> blkno V x fbn = 0 ->
  grown V x fbn (fupd (alloc V b) (addr_at x NDIRECT) (put32 (V (addr_at x NDIRECT)) (4 * (fbn - NDIRECT)) b)) x.
Proof.
  intros Hf Hi H0'. destruct Hfile as (Hdev & Hl & Hmo). set (ind := addr_at x NDIRECT) in *. set (V' := fupd _ ind _).
  destruct (mo_ind _ _ _ Hmo) as [?|Hid]; [done|]. assert (Hir : nmeta <= ind) by apply Hid. destruct (lay_size _ HL) as [L1 L1']. pose proof (lay_max _ HL).
  assert (Hmap : forall g, 0 <= g < MAXFILE -> blkno V' x g = if g =? fbn then b else blkno V x g).
  { intros g Hg. unfold blkno. fold ind. destruct (Z.ltb_spec g NDIRECT); [by rewrite (proj2 (Z.eqb_neq g fbn)) by lia|]. rewrite (proj2 (Z.eqb_neq ind 0)) by done.
    unfold V'. rewrite fupd_eq. unfold MAXFILE, BPB, BSIZE in *. rewrite get_put32 by (apply Hlen || lia). destruct (Z.eqb_spec g fbn) as [->|]; [by rewrite Z.eqb_refl|].
    by rewrite (proj2 (Z.eqb_neq _ _)) by lia. }
  assert (Hdata : forall c, c = b \/ data V c -> data V' c) by (intros c Hc; apply data_fupd; [done|]; by apply data_alloc). split.
  - split_and!; [done|done|]. by eapply map_ok_new.
  - by apply meta_data, meta_alloc.
  - by destruct x.
  - intros g Hg Hc. rewrite Hmap by done. destruct (Z.eqb_spec g fbn) as [->|]; [|done]. by destruct Hc as [?|Hc].
  - intros c Hc. apply Hdata. by right.
  - intros c Hc Hci. unfold V'. rewrite fupd_ne by done. by apply new_not_data.
  - by left.
  - intros c Hc. destruct (bblock_ok b) as (_ & ? & _); [lia|]. unfold V'. rewrite fupd_ne by lia. by apply low_not_new.
  - intros c [Hc [->|(g & Hg & E)]]; [left; split; [done|by left]|]. rewrite Hmap in E by done. destruct (g =? fbn).
    + right. intros Hd'. by destruct (new_not_data c Hd').
    + left. split; [done|right; by exists g].
Qed.
End Grow.

(** ** bmap() *)

Lemma fs_getip {A} V hs bs ic s ip (f : inode -> A) : fs V hs bs ic s -> getip ip f s = Ok (f (ic ip)) s.
Proof. intros Hf. unfold getip, gets. by rewrite (fs_ic _ _ _ _ _ Hf). Qed.

(** What bmap() did: its result [b] for block [fbn], with at most [k] more blocks
    in the log and [j] fewer free blocks. *)
Definition mapped (V : Z -> list byte) (bs : list Z) (ic : nat -> inode) (ip : nat) (fbn b : Z) (k j : nat) (s' : st) : Prop :=
  exists V' x' bs', fs V' [] bs' (fupd ic ip x') s' /\ (length bs' <= length bs + k)%nat /\ b = blkno V' x' fbn /\ b <> 0 /\
    grown V (ic ip) fbn V' x' /\ (forall n, free_blocks V (j + n) -> free_blocks V' n).

Lemma fs_lens V hs bs ic s : fs V hs bs ic s -> forall bn, length (V bn) = Z.to_nat BSIZE.
Proof. intros Hf bn. by eapply fs_len. Qed.

Lemma fupd_same_ic V hs bs ic s ip : fs V hs bs ic s -> fs V hs bs (fupd ic ip (ic ip)) s.
Proof. by rewrite fupd_id. Qed.

Lemma bmap_direct V bs ic s ip fbn : fs V [] bs ic s -> 1 <= o -> meta_ok V -> file_ok V (ic ip) -> 0 <= fbn < NDIRECT -> room [] bs 3 ->
  blkno V (ic ip) fbn <> 0 \/ free_blocks V 1 ->
  exists b s', bmap ip fbn s = Ok b s' /\ mapped V bs ic ip fbn b 2 1 s'.
Proof.
  intros Hf Ho Hmeta Hfile Hfbn Hroom Hfree. pose proof Hfile as (Hdev & Hl & Hmo). unfold bmap.
  assert (Hbk : blkno V (ic ip) fbn = addr_at (ic ip) fbn) by (unfold blkno; by rewrite (proj2 (Z.ltb_lt _ _)) by lia). rewrite Hbk in Hfree.
  rewrite (bind_run _ _ _ _ _ (fs_getip _ _ _ _ _ ip i_dev Hf)), Hdev. rewrite (proj2 (Z.ltb_lt _ _)) by lia.
  rewrite (bind_run _ _ _ _ _ (fs_getip _ _ _ _ _ ip (fun x => addr_at x fbn) Hf)). destruct (Z.eqb_spec (addr_at (ic ip) fbn) 0) as [E|E].
  - destruct Hfree as [?|Hfree]; [done|].
    destruct (balloc_ok V [] bs ic s Hf Ho ltac:(constructor) Hroom Hmeta (free_some _ _ Hfree)) as (b & s1 & E1 & Hb & Hnew & _ & F1).
    rewrite (bind_run _ _ _ _ _ E1). destruct (fs_set_ip _ _ _ _ s1 ip (put_addr fbn b) F1) as (s2 & E2 & F2). rewrite (bind_run _ _ _ _ _ E2).
    exists b, s2. split; [done|]. exists (alloc V b), (put_addr fbn b (ic ip)). eexists. split_and!; [exact F2| | | | |].
    + pose proof (absorb_bound b (absorb (BBLOCK b sb) bs)). pose proof (absorb_bound (BBLOCK b sb) bs). lia.
    + unfold blkno. rewrite (proj2 (Z.ltb_lt _ _)), addr_put, Z.eqb_refl by (done || lia). done.
    + destruct (lay_size _ HL). lia.
    + apply grown_direct; try done; [by eapply fs_lens|change MAXFILE with 268; unfold NDIRECT in *; lia|lia].
    + intros n. apply free_alloc; [by eapply fs_lens|done].
  - exists (addr_at (ic ip) fbn), s. split; [done|]. exists V, (ic ip), bs. split_and!; [by apply fupd_same_ic|lia|done|done|by apply grown_refl|].
    intros n. apply free_fewer. lia.
Qed.

(** The first part of bmap() for an indirect block. *)
Lemma bmap_table V bs ic s ip : fs V [] bs ic s -> 1 <= o -> meta_ok V -> file_ok V (ic ip) -> room [] bs 3 ->
  addr_at (ic ip) NDIRECT <> 0 \/ free_blocks V 1 ->
  exists V' x' bs' s', (forall A (k : Z -> M st A),
      (let* addr := getip ip (fun x => addr_at x NDIRECT) in
       let* addr := (if addr =? 0 then let* addr := balloc ROOTDEV in set_ip ip (put_addr NDIRECT addr) ;;; ret addr else ret addr) in k addr) s = k (addr_at x' NDIRECT) s') /\
    fs V' [] bs' (fupd ic ip x') s' /\ (length bs' <= length bs + 2)%nat /\ addr_at x' NDIRECT <> 0 /\ grown V (ic ip) (-1) V' x' /\
    (forall n, free_blocks V (1 + n) -> free_blocks V' n).
Proof.
  intros Hf Ho Hmeta Hfile Hroom Hfree. pose proof Hfile as (Hdev & Hl & Hmo). destruct (Z.eqb_spec (addr_at (ic ip) NDIRECT) 0) as [E|E].
  - destruct Hfree as [?|Hfree]; [done|].
    destruct (balloc_ok V [] bs ic s Hf Ho ltac:(constructor) Hroom Hmeta (free_some _ _ Hfree)) as (b & s1 & E1 & Hb & Hnew & _ & F1).
    destruct (fs_set_ip _ _ _ _ s1 ip (put_addr NDIRECT b) F1) as (s2 & E2 & F2). assert (Ei : addr_at (put_addr NDIRECT b (ic ip)) NDIRECT = b).
    { rewrite addr_put by (done || unfold NDIRECT; lia). by rewrite Z.eqb_refl. }
    exists (alloc V b), (put_addr NDIRECT b (ic ip)). eexists _, s2. split_and!; [|exact F2| | | |].
    + intros A k. rewrite (bind_run _ _ _ _ _ (fs_getip _ _ _ _ _ ip (fun x => addr_at x NDIRECT) Hf)), E, Ei. cbn [Z.eqb]. unfold bind at 1. by rewrite (bind_run _ _ _ _ _ E1), (bind_run _ _ _ _ _ E2).
    + pose proof (absorb_bound b (absorb (BBLOCK b sb) bs)). pose proof (absorb_bound (BBLOCK b sb) bs). lia.
    + rewrite Ei. destruct (lay_size _ HL). lia.
    + apply grown_indirect; try done. by eapply fs_lens.
    + intros n. apply free_alloc; [by eapply fs_lens|done].
  - exists V, (ic ip), bs, s. split_and!; [|by apply fupd_same_ic|lia|done|by apply grown_refl|intros n; apply free_fewer; lia].
    intros A k. rewrite (bind_run _ _ _ _ _ (fs_getip _ _ _ _ _ ip (fun x => addr_at x NDIRECT) Hf)). by rewrite (proj2 (Z.eqb_neq _ _) E).
Qed.

(** A block the file has. *)
Lemma bmap_read V bs ic s ip fbn : fs V [] bs ic s -> file_ok V (ic ip) -> 0 <= fbn < MAXFILE -> (length bs < NBUF)%nat -> blkno V (ic ip) fbn <> 0 ->
  exists s', bmap ip fbn s = Ok (blkno V (ic ip) fbn) s' /\ fs V [] bs ic s'.
Proof.
  intros Hf (Hdev & Hl & Hmo) Hfbn Hroom Hne. unfold bmap, blkno in *. rewrite (bind_run _ _ _ _ _ (fs_getip _ _ _ _ _ ip i_dev Hf)), Hdev.
  destruct (Z.ltb_spec fbn NDIRECT).
  - rewrite (bind_run _ _ _ _ _ (fs_getip _ _ _ _ _ ip (fun x => addr_at x fbn) Hf)), (proj2 (Z.eqb_neq _ _) Hne). by exists s.
  - cbv zeta. unfold MAXFILE in Hfbn. rewrite (proj2 (Z.ltb_lt (fbn - NDIRECT) NINDIRECT)) by lia.
    rewrite (bind_run _ _ _ _ _ (fs_getip _ _ _ _ _ ip (fun x => addr_at x NDIRECT) Hf)).
    destruct (Z.eqb_spec (addr_at (ic ip) NDIRECT) 0) as [E|E]; [done|]. destruct (mo_ind _ _ _ Hmo) as [?|Hd]; [done|]. pose proof (data_pos _ _ Hd).
    destruct (fs_bread V [] bs ic s (addr_at (ic ip) NDIRECT) Hf) as (b & s1 & E1 & F1 & Hb); [lia|apply not_elem_of_nil|cbn; lia|].
    unfold bind at 1. cbn [ret]. rewrite (bind_run _ _ _ _ _ E1), (bind_run _ _ _ _ _ (fs_data _ _ _ _ _ _ _ F1 (list_elem_of_here _ _))).
    rewrite (proj2 (Z.eqb_neq _ _) Hne). destruct (fs_brelse _ _ _ _ s1 b _ F1 Hb) as (s2 & E2 & F2). exists s2. split; [|done].
    unfold bind at 1. cbn [ret]. by rewrite (bind_run _ _ _ _ _ E2).
Qed.

Lemma bmap_ok V bs ic s ip fbn : fs V [] bs ic s -> 1 <= o -> meta_ok V -> file_ok V (ic ip) -> 0 <= fbn < MAXFILE -> room [] bs 5 ->
  blkno V (ic ip) fbn <> 0 \/ free_blocks V 2 ->
  exists b s', bmap ip fbn s = Ok b s' /\ mapped V bs ic ip fbn b 5 2 s'.
Proof.
  intros Hf Ho Hmeta Hfile Hfbn [R1 R2] Hfree. pose proof Hfile as (Hdev & Hl & Hmo). unfold LOGSIZE, MAXOPBLOCKS in R2.
  destruct (decide (blkno V (ic ip) fbn = 0)) as [H0'|H0'].
  2: { destruct (bmap_read V bs ic s ip fbn Hf Hfile Hfbn) as (s' & E & F); [unfold NBUF; lia|done|]. eexists _, s'. split; [exact E|].
       exists V, (ic ip), bs. split_and!; [by apply fupd_same_ic|lia|done|done|by apply grown_refl|intros n; apply free_fewer; lia]. }
  destruct Hfree as [?|Hfree]; [done|]. destruct (decide (fbn < NDIRECT)) as [Hd|Hd].
  { destruct (bmap_direct V bs ic s ip fbn Hf Ho Hmeta Hfile) as (b & s' & E & V' & x' & bs' & F & Hk & Hb & Hb0 & Hg & Hn);
      [lia|split; [done|unfold LOGSIZE, MAXOPBLOCKS; lia]|right; by apply (free_fewer _ 2); [lia|]|].
    exists b, s'. split; [done|]. exists V', x', bs'. split_and!; try done; [lia|]. intros n Hn'. apply Hn. revert Hn'. apply free_fewer. lia. }
  destruct (bmap_table V bs ic s ip Hf Ho Hmeta Hfile) as (V1 & x1 & bs1 & s1 & E1 & F1 & Hk1 & Hi & Hg1 & Hn1);
    [split; [done|unfold LOGSIZE, MAXOPBLOCKS; lia]|right; by apply (free_fewer _ 2); [lia|]|].
  apply (grown_none _ _ fbn) in Hg1 as [Hg1 Hz]. specialize (Hz Hfbn). rewrite H0' in Hz.
  unfold bmap. rewrite (bind_run _ _ _ _ _ (fs_getip _ _ _ _ _ ip i_dev Hf)), Hdev. rewrite (proj2 (Z.ltb_ge _ _)) by lia. cbv zeta.
  pose proof Hfbn as Hfbn2. unfold MAXFILE in Hfbn2. rewrite (proj2 (Z.ltb_lt (fbn - NDIRECT) NINDIRECT)) by lia. rewrite E1.
  pose proof (gr_file _ _ _ _ _ Hg1) as Hfile1. pose proof Hfile1 as (_ & Hl1 & Hmo1). set (ind := addr_at x1 NDIRECT) in *.
  destruct (mo_ind _ _ _ Hmo1) as [?|Hid]; [done|]. pose proof (data_pos _ _ Hid).
  destruct (fs_bread V1 [] bs1 _ s1 ind F1) as (bp & s2 & E2 & F2 & Hbp); [lia|apply not_elem_of_nil|unfold NBUF; cbn [length]; lia|].
  rewrite (bind_run _ _ _ _ _ E2), (bind_run _ _ _ _ _ (fs_data _ _ _ _ _ _ _ F2 (list_elem_of_here _ _))).
  assert (Hz2 := Hz). unfold blkno in Hz2. rewrite (proj2 (Z.ltb_ge _ _)) in Hz2 by lia. fold ind in Hz2. rewrite (proj2 (Z.eqb_neq _ _) Hi) in Hz2. rewrite Hz2. cbn [Z.eqb].
  assert (Hfree1 : free_blocks V1 1) by by apply Hn1.
  destruct (balloc_ok V1 [(bp, ind)] bs1 _ s2 F2 Ho) as (b & s3 & E3 & Hb & Hnew & _ & F3);
    [constructor; [split; apply Hid|constructor]|split; [cbn; lia|unfold LOGSIZE, MAXOPBLOCKS; lia]|apply Hg1|by apply (free_some _ 0)|].
  unfold bind at 1. rewrite (bind_run _ _ _ _ _ E3). set (bs2 := absorb b _) in *.
  assert (Hk2 : (length bs2 <= length bs1 + 2)%nat). { pose proof (absorb_bound b (absorb (BBLOCK b sb) bs1)). pose proof (absorb_bound (BBLOCK b sb) bs1). unfold bs2. lia. }
  assert (Hlen1 := fs_lens _ _ _ _ _ F1). destruct (new_not_data V1 b Hb Hnew ind Hid) as [_ Eind].
  destruct (fs_modify _ _ bs2 _ s3 bp ind (fun d => put32 d (4 * (fbn - NDIRECT)) b) F3 Ho (list_elem_of_here _ _) (data_loggable _ _ Hid)) as (s4 & E4 & F4);
    [unfold LOGSIZE, MAXOPBLOCKS; lia|rewrite Eind; unfold put32; rewrite length_put_le; [apply Hlen1|lia|rewrite Hlen1; change NINDIRECT with 256 in *; change BSIZE with 1024; lia]|].
  rewrite E4. destruct (fs_brelse _ _ _ _ s4 bp ind F4 Hbp) as (s5 & E5 & F5). unfold ret at 1. rewrite (bind_run _ _ _ _ _ E5). rewrite Eind in F5.
  assert (Hg2 := grown_entry V1 x1 fbn b Hfile1 (gr_meta _ _ _ _ _ Hg1) Hlen1 Hb Hnew ltac:(lia) ltac:(lia) Hi Hz). fold ind in Hg2.
  exists b, s5. split; [done|]. eexists _, x1, _. split_and!; [exact F5| | | |by apply (grown_trans _ _ _ V1 x1)|].
  - pose proof (absorb_bound ind bs2). lia.
  - unfold blkno. rewrite (proj2 (Z.ltb_ge _ _)) by lia. fold ind. rewrite (proj2 (Z.eqb_neq _ _) Hi), fupd_eq. assert (0 <= b < 2 ^ 32) by (destruct (lay_size _ HL); pose proof (lay_max _ HL); unfold BPB, BSIZE in *; lia).
    rewrite get_put32 by (apply Hlen1 || lia). by rewrite Z.eqb_refl.
  - destruct (lay_size _ HL). lia.
  - intros n Hn. apply free_data; [apply Hid|]. apply free_alloc; [done|done|]. apply Hn1. revert Hn. apply free_fewer. lia.
Qed.
End Layout.
End FsOk.
