(* ===== verification/FsFile.v ===== *)
(** Reading and writing files (kernel/fs.c): readi() and writei() over the
    content of an inode, the bytes of its blocks in order. *)

From Stdlib Require Import ZArith Lia FunctionalExtensionality.
From stdpp Require Import base tactics list strings.
From coqutil Require Import Byte Word.LittleEndianList.
From S2P Require Import Prelude Riscv Mem Core Spinlock Kalloc Vm State Csr Proc Sched Sleeplock Virtio Bio Dll Cache Block Log Commit Txn Fs FsOk.

Local Open Scope Z_scope.
Local Open Scope kern_scope.

(** ** The content of a file *)

Definition fbyte (V : Z -> list byte) (x : inode) (off : Z) : byte :=
  nth (Z.to_nat (off mod BSIZE)) (V (blkno V x (off / BSIZE))) Byte.x00.

Definition content (V : Z -> list byte) (x : inode) (off : Z) (n : nat) : list byte :=
  (fun k => fbyte V x (off + Z.of_nat k)) <$> seq 0 n.

Lemma length_content V x off n : length (content V x off n) = n.
Proof. unfold content. by rewrite length_fmap, length_seq. Qed.

Lemma lookup_content V x off n k : (k < n)%nat -> content V x off n !! k = Some (fbyte V x (off + Z.of_nat k)).
Proof. intros Hk. unfold content. rewrite list_lookup_fmap, lookup_seq_lt by done. done. Qed.

Lemma content_app V x off n m : content V x off (n + m) = content V x off n ++ content V x (off + Z.of_nat n) m.
Proof.
  unfold content. rewrite seq_app, fmap_app. f_equal. cbn [Nat.add]. 
  apply list_eq. intros k. rewrite !list_lookup_fmap. destruct (decide (k < m)%nat).
  - rewrite !lookup_seq_lt by done. cbn. do 2 f_equal. lia.
  - by rewrite !lookup_seq_ge by lia.
Qed.

Lemma content_ext V x V' x' off off' n : (forall k, (k < n)%nat -> fbyte V x (off + Z.of_nat k) = fbyte V' x' (off' + Z.of_nat k)) -> content V x off n = content V' x' off' n.
Proof.
  intros E. apply list_eq. intros k. destruct (decide (k < n)%nat).
  - rewrite !lookup_content by done. by rewrite E.
  - rewrite !lookup_ge_None_2; [done|rewrite length_content; lia..].
Qed.

(** Bytes of one block. *)
Lemma same_block off k : 0 <= off -> 0 <= k < BSIZE - off mod BSIZE -> (off + k) / BSIZE = off / BSIZE /\ (off + k) mod BSIZE = off mod BSIZE + k.
Proof.
  intros Ho Hk. unfold BSIZE in *. pose proof (Z.mod_pos_bound off 1024 ltac:(lia)). pose proof (Z.div_mod off 1024 ltac:(lia)).
  split; [symmetry; apply Z.div_unique with (off mod 1024 + k); lia|symmetry; apply Z.mod_unique with (off / 1024); lia].
Qed.

Lemma content_chunk V x off m : (forall bn, length (V bn) = Z.to_nat BSIZE) -> 0 <= off -> Z.of_nat m <= BSIZE - off mod BSIZE ->
  take m (drop (Z.to_nat (off mod BSIZE)) (V (blkno V x (off / BSIZE)))) = content V x off m.
Proof.
  intros Hlen Ho Hm. pose proof (Z.mod_pos_bound off BSIZE ltac:(done)). apply list_eq. intros k. destruct (decide (k < m)%nat) as [Hk|Hk].
  - rewrite lookup_take_lt, lookup_drop, lookup_content by done. unfold fbyte. destruct (same_block off (Z.of_nat k) Ho) as [-> ->]; [lia|].
    rewrite nth_lookup. replace (Z.to_nat (off mod BSIZE + Z.of_nat k)) with (Z.to_nat (off mod BSIZE) + k)%nat by lia.
    destruct (lookup_lt_is_Some_2 (V (blkno V x (off / BSIZE))) (Z.to_nat (off mod BSIZE) + k)) as [y E]; [rewrite Hlen; lia|]. by rewrite E.
  - rewrite lookup_take_ge, lookup_ge_None_2; [done|rewrite length_content; lia|lia].
Qed.

Lemma length_addrs l : length (concat (List.map (le_split 4) l)) = (4 * length l)%nat.
Proof. induction l as [|a l IH]; [done|]. cbn [List.map concat length]. rewrite length_app, length_le_split, IH. lia. Qed.

Section File.
Context `{KernelImage} `{World} `{Symbols} `{BlockDevOk}.
Context (i : nat) (start o : Z) (sb : superblock) (s0 : st) (nmeta : Z).
Hypothesis HL : layout start sb nmeta.

Notation fs := (fs i start o sb s0).
Notation file_ok := (file_ok sb nmeta).


(** The file's size is within the blocks it has. *)
Definition sized (V : Z -> list byte) (x : inode) : Prop :=
  0 <= i_size x <= MAXFILE * BSIZE /\ forall fbn, 0 <= fbn -> fbn * BSIZE < i_size x -> blkno V x fbn <> 0.

Lemma sized_block V x a : sized V x -> 0 <= a < i_size x -> 0 <= a / BSIZE < MAXFILE /\ blkno V x (a / BSIZE) <> 0.
Proof.
  intros [Hs Hfull] Ha. change (MAXFILE * BSIZE) with 274432 in Hs. change MAXFILE with 268.
  assert (0 <= a / BSIZE) by (apply Z.div_pos; [lia|done]). split; [split; [done|apply Z.div_lt_upper_bound; [done|unfold BSIZE; lia]]|].
  apply Hfull; [done|]. pose proof (Z.mul_div_le a BSIZE ltac:(done)). lia.
Qed.

Lemma myproc_fs V hs bs ic s : fs V hs bs ic s -> zoom (S := st) myproc s = Ok (Some i) s.
Proof.
  intros Hf. assert (Hq := bio_quiet _ _ _ _ _ _ (fs_bio _ _ _ _ _ _ _ _ _ _ Hf)). unfold zoom. cbn [lget lput st_core]. change (k_core (s_k s)) with (s_core s).
  destruct (myproc_eq (s_core s) (proj1 (q_calm _ _ Hq))) as (c' & -> & He).
  rewrite (core_eqv_calm _ _ (q_calm _ _ Hq) He), (q_cur _ _ Hq). f_equal. apply set_s_core_id.
Qed.

(** ** readi() *)

Lemma readi_ok V bs ic s ip l off n : fs V [] bs ic s -> file_ok V (ic ip) -> sized V (ic ip) -> (length bs < NBUF)%nat -> 0 <= off -> 0 <= n -> off + n < 2 ^ 32 ->
  let m := Z.max 0 (Z.min n (i_size (ic ip) - off)) in
  exists s', readi ip (Local l) off n s = Ok (m, content V (ic ip) off (Z.to_nat m)) s' /\ fs V [] bs ic s'.
Proof.
  intros Hf Hfile Hsized Hroom Ho Hn Hon m. set (x := ic ip) in *. pose proof Hsized as [Hsz _]. change (MAXFILE * BSIZE) with 274432 in Hsz.
  enough (wp (readi ip (Local l) off n) (fun r s' => r = (m, content V x off (Z.to_nat m)) /\ fs V [] bs ic s') s) as W.
  { apply wp_elim in W as (r & s' & E & -> & F). eauto. }
  unfold readi. run (fs_getip _ _ _ _ _ _ _ _ _ _ ip (fun x => x) Hf). fold x. rewrite u32_small by lia.
  rewrite (proj2 (Z.ltb_ge (off + n) off)), orb_false_r by lia. destruct (Z.ltb_spec (i_size x) off) as [Hgt|Hle].
  { apply wp_ret. assert (m = 0) as -> by lia. done. }
  replace (if i_size x <? off + n then u32 (i_size x - off) else n) with m.
  2: { destruct (Z.ltb_spec (i_size x) (off + n)); [rewrite u32_small by lia|]; unfold m; lia. }
  assert (Hm : 0 <= m <= n /\ off + m <= i_size x) by (unfold m; lia). clearbody m.
  apply (wp_loop _ (fun j '(tot, off', dst, acc) s' => exists k, 0 <= k <= m /\ j = m - k /\ tot = k /\ off' = off + k /\ (exists l, dst = Local l) /\
    acc = content V x off (Z.to_nat k) /\ fs V [] bs ic s')) with (n := m).
  - intros j [[[tot off'] dst] acc] s' _ (k & Hk & -> & -> & -> & (l' & ->) & -> & F). destruct (Z.ltb_spec k m) as [Hlt|Hge].
    2: { apply wp_ret. assert (k = m) as -> by lia. rewrite i32_small by lia. done. }
    destruct (sized_block V x (off + k) Hsized) as [Hb Hb0]; [lia|].
    destruct (bmap_read _ _ _ _ _ _ HL V bs ic s' ip ((off + k) / BSIZE) F Hfile Hb Hroom Hb0) as (s1 & E1 & F1). run E1. fold x.
    run (fs_getip _ _ _ _ _ _ _ _ _ _ ip i_dev F1). fold x. destruct Hfile as (Hdev & Hl & Hmo). rewrite Hdev.
    destruct (mo_blk _ _ _ _ _ Hmo _ Hb) as [?|Hd]; [done|]. pose proof (data_pos _ _ _ HL _ _ Hd).
    destruct (fs_bread _ _ _ _ _ V [] bs ic s1 (blkno V x ((off + k) / BSIZE)) F1) as (b & s2 & E2 & F2 & Hbh); [lia|apply not_elem_of_nil|done|].
    run E2. run (fs_data _ _ _ _ _ _ _ _ _ _ _ _ F2 (list_elem_of_here _ _)). rewrite (u32_small (m - k)) by lia.
    set (c := Z.min (m - k) (BSIZE - (off + k) mod BSIZE)). pose proof (Z.mod_pos_bound (off + k) BSIZE ltac:(done)) as Hmod.
    assert (Hc : 0 < c <= m - k /\ c <= BSIZE - (off + k) mod BSIZE) by (unfold c; lia). clearbody c.
    unfold either_copyout. apply wp_bind. run (myproc_fs _ _ _ _ _ F2). apply wp_ret. cbn [Z.eqb].
    destruct (fs_brelse _ _ _ _ _ _ _ _ _ s2 b _ F2 Hbh) as (s3 & E3 & F3). run E3. apply wp_ret.
    exists (m - (k + c)). split; [lia|]. exists (k + c). split_and!; [lia|lia|done|rewrite u32_small; lia|rewrite u32_small; lia|by eexists| |done].
    rewrite Z2Nat.inj_add, content_app by lia. f_equal. rewrite Z2Nat.id by lia. apply content_chunk; [by eapply fs_lens|lia|lia].
  - lia.
  - exists 0. split_and!; [lia|lia|lia|done|lia|by eexists|done|done].
Qed.

(** ** What writing to a file changes *)

Notation data := (data sb nmeta).

(** From the blocks [V] and inode [x] to [V'] and [x']: the file keeps its blocks
    and may gain blocks that were free; of the blocks in use only its own
    change. *)
Record touched (V : Z -> list byte) (x : inode) (V' : Z -> list byte) (x' : inode) : Prop := {
  to_file : file_ok V' x';
  to_meta : meta_ok sb nmeta V';
  to_x : x' = set_i_addrs (i_addrs x') x;
  to_map : forall g, 0 <= g < MAXFILE -> blkno V x g <> 0 -> blkno V' x' g = blkno V x g;
  to_data : forall c, data V c -> data V' c;
  to_other : forall c, data V c -> ~ owns V x c -> V' c = V c;
  to_low : forall c, c < sb_bmapstart sb -> V' c = V c;
  to_new : forall c, owns V' x' c -> owns V x c \/ ~ data V c;
}.

Lemma touched_refl V x : file_ok V x -> meta_ok sb nmeta V -> touched V x V x.
Proof. intros Hf Hm. split; try done; [by destruct x|intros; by left]. Qed.

Lemma touched_trans V1 x1 V2 x2 V3 x3 : touched V1 x1 V2 x2 -> touched V2 x2 V3 x3 -> touched V1 x1 V3 x3.
Proof.
  intros [A1 A2 A3 A4 A5 A6 A7 A8] [B1 B2 B3 B4 B5 B6 B7 B8]. split; try done.
  - rewrite B3, A3. done.
  - intros g Hg Hne. rewrite B4; [by apply A4|done|by rewrite A4].
  - intros c Hc. by apply B5, A5.
  - intros c Hc Ho. rewrite B6; [by apply A6|by apply A5|]. intros [?|Hn]%A8; [done|by apply Hn].
  - intros c Hc. rewrite B7 by done. by apply A7.
  - intros c [Hc|Hc]%B8; [by apply A8|]. right. intros Hd. by apply Hc, A5.
Qed.

Lemma data_nonzero V c : data V c -> c <> 0.
Proof. intros Hd. pose proof (data_pos _ _ _ HL _ _ Hd). lia. Qed.

Lemma grown_touched V x fbn V' x' : grown sb nmeta V x fbn V' x' -> touched V x V' x'.
Proof.
  intros [A1 A2 A3 A4 A5 A6 A7 A8 A9]. split; try done.
  - intros g Hg Hne. apply A4; [done|by right].
  - intros c Hc Ho. apply A6; [done|]. intros ->. apply Ho. split; [by eapply data_nonzero|by left].
Qed.

(** bmap() changes no byte of the file. *)
Lemma grown_fbyte V x fbn V' x' off : grown sb nmeta V x fbn V' x' -> file_ok V x -> 0 <= off / BSIZE < MAXFILE -> blkno V x (off / BSIZE) <> 0 ->
  fbyte V' x' off = fbyte V x off.
Proof.
  intros [A1 A2 A3 A4 A5 A6 A7 A8 A9] (_ & _ & Hmo) Hg Hne. unfold fbyte. rewrite A4 by (done || by right).
  rewrite A6; [done| |by apply (mo_apart _ _ _ _ _ Hmo)]. by destruct (mo_blk _ _ _ _ _ Hmo _ Hg).
Qed.

(** A write into block [fbn] of the file. *)
Section Block.
Context (V : Z -> list byte) (x : inode) (fbn p : Z) (bs : list byte).
Hypothesis Hfile : file_ok V x.
Hypothesis Hmeta : meta_ok sb nmeta V.
Hypothesis Hlen : forall bn, length (V bn) = Z.to_nat BSIZE.
Hypothesis Hfbn : 0 <= fbn < MAXFILE.
Hypothesis Hne : blkno V x fbn <> 0.
Hypothesis Hp : 0 <= p /\ p + Z.of_nat (length bs) <= BSIZE.

Let b := blkno V x fbn.
Let V' := fupd V b (put_bytes (V b) p bs).

Lemma write_data : data V b.
Proof. destruct Hfile as (_ & _ & Hmo). by destruct (mo_blk _ _ _ _ _ Hmo fbn Hfbn). Qed.

Lemma write_map g : blkno V' x g = blkno V x g.
Proof.
  unfold blkno. destruct (g <? NDIRECT); [done|]. destruct (addr_at x NDIRECT =? 0); [done|]. unfold V'. rewrite fupd_ne; [done|].
  apply not_eq_sym. destruct Hfile as (_ & _ & Hmo). by apply (mo_apart _ _ _ _ _ Hmo).
Qed.

Lemma write_touched : touched V x V' x.
Proof.
  pose proof write_data as Hd. assert (Hb : nmeta <= b) by apply Hd. destruct Hfile as (Hdev & Hl & Hmo).
  assert (Hdata : forall c, data V c -> data V' c) by (intros c Hc; by apply (data_fupd _ _ _ HL)). split.
  - split_and!; [done|done|]. eapply map_ok_mono; [exact Hdata| |exact Hmo]. intros g _. apply write_map.
  - by apply (meta_data _ _ _ HL).
  - by destruct x.
  - intros g _ _. apply write_map.
  - done.
  - intros c Hc Ho. unfold V'. rewrite fupd_ne; [done|]. intros ->. apply Ho. split; [done|]. right. by exists fbn.
  - intros c Hc. unfold V'. rewrite fupd_ne; [done|]. destruct (lay_size _ _ _ HL). destruct (bblock_ok _ _ _ HL b) as (_ & ? & _); [destruct Hd; lia|lia].
  - intros c [Hc [->|(g & Hg & E)]]; left; (split; [done|]); [by left|right; exists g; by rewrite <- write_map].
Qed.

Lemma write_fbyte off : 0 <= off -> 0 <= off / BSIZE < MAXFILE -> blkno V x (off / BSIZE) <> 0 ->
  fbyte V' x off = if decide (fbn * BSIZE + p <= off < fbn * BSIZE + p + Z.of_nat (length bs)) then nth (Z.to_nat (off - (fbn * BSIZE + p))) bs Byte.x00 else fbyte V x off.
Proof.
  intros Ho Hg Hn. pose proof (Z.mod_pos_bound off BSIZE ltac:(done)). pose proof (Z.div_mod off BSIZE ltac:(done)) as Hdm.
  unfold fbyte. rewrite write_map. unfold V'. destruct (decide (off / BSIZE = fbn)) as [E|E].
  - rewrite E. fold b. rewrite fupd_eq, !nth_lookup, lookup_put_bytes by (rewrite ?Hlen; unfold BSIZE in *; lia). rewrite E in Hdm.
    case_decide as D1; case_decide as D2; try lia; [|done]. by replace (Z.to_nat (off - (fbn * BSIZE + p))) with (Z.to_nat (off mod BSIZE) - Z.to_nat p)%nat by lia.
  - destruct Hfile as (_ & _ & Hmo). rewrite fupd_ne by (intros E2; apply E; by apply (mo_inj _ _ _ _ _ Hmo)).
    rewrite decide_False; [done|]. unfold BSIZE in *. lia.
Qed.
End Block.

(** ** iupdate() *)

Lemma iupdate_ok V1 bs1 ic1 s1 ip : fs V1 [] bs1 ic1 s1 -> 1 <= o -> i_dev (ic1 ip) = ROOTDEV -> length (i_addrs (ic1 ip)) = 13%nat -> 0 <= i_inum (ic1 ip) < sb_ninodes sb ->
  Z.of_nat (length bs1) < LOGSIZE - 1 ->
  let ib := IBLOCK (i_inum (ic1 ip)) sb in
  exists s2, iupdate ip s1 = Ok tt s2 /\ sb_inodestart sb <= ib < sb_bmapstart sb /\
    fs (fupd V1 ib (put_bytes (V1 ib) (i_inum (ic1 ip) mod IPB * sizeof_dinode) (dinode_bytes (ic1 ip)))) [] (absorb ib bs1) ic1 s2.
Proof.
  intros F1 Ho Hdev Hl Hi Hroom ib. set (x1 := ic1 ip) in *. destruct HL as [L1 L2 L3 L4 [L5 L6] L7]. unfold LOGSIZE, MAXOPBLOCKS, BPB, BSIZE in *.
  assert (Hq : 0 <= i_inum x1 / IPB <= sb_ninodes sb / IPB) by (split; [apply Z.div_pos; [lia|done]|apply Z.div_le_mono; [done|lia]]).
  assert (0 <= (sb_size sb - 1) / (1024 * 8)) by (apply Z.div_pos; lia).
  assert (Eib : ib = i_inum x1 / IPB + sb_inodestart sb) by (unfold ib, IBLOCK; apply u32_small; lia).
  assert (Hib : sb_inodestart sb <= ib < sb_bmapstart sb) by lia. assert (Hlog : loggable start ib) by (unfold loggable, LOGSIZE, MAXOPBLOCKS; lia).
  assert (Hm : 0 <= i_inum x1 mod IPB < 16) by (change IPB with 16; apply Z.mod_pos_bound; lia).
  assert (Hdl : length (dinode_bytes x1) = 64%nat).
  { unfold dinode_bytes. rewrite !length_app, !length_le_split, length_addrs, Hl. done. }
  destruct (fs_bread _ _ _ _ _ V1 [] bs1 ic1 s1 ib F1) as (bp & s2 & E2 & F2 & Hbp); [apply Hlog|apply not_elem_of_nil|unfold NBUF; cbn [length]; lia|].
  destruct (fs_modify _ _ _ _ _ V1 _ bs1 ic1 s2 bp ib (fun d => put_bytes d (i_inum x1 mod IPB * sizeof_dinode) (dinode_bytes x1)) F2 Ho (list_elem_of_here _ _) Hlog) as (s3 & E3 & F3);
    [unfold LOGSIZE, MAXOPBLOCKS; lia|rewrite length_put_bytes; [by eapply fs_lens|unfold sizeof_dinode; lia|rewrite Hdl, (fs_lens _ _ _ _ _ _ _ _ _ _ F1); unfold sizeof_dinode, BSIZE; lia]|].
  destruct (fs_brelse _ _ _ _ _ _ _ _ _ s3 bp ib F3 Hbp) as (s4 & E4 & F4). exists s4. split_and!; [|lia|lia|exact F4].
  unfold iupdate. rewrite (bind_run _ _ _ _ _ (fs_getip _ _ _ _ _ _ _ _ _ _ ip (fun x => x) F1)). fold x1.
  rewrite (bind_run (gets s_sb) _ sb s1 s1) by (unfold gets; by rewrite (fs_sb _ _ _ _ _ _ _ _ _ _ F1)). rewrite Hdev. fold ib. rewrite (bind_run _ _ _ _ _ E2). cbv zeta.
  rewrite (bind_run _ _ _ _ _ (fs_getip _ _ _ _ _ _ _ _ _ _ ip (fun x => x) F2)). fold x1. rewrite E3. exact E4.
Qed.

(** ** writei() *)

Section Write.
Context (V : Z -> list byte) (bs : list Z) (ic : nat -> inode) (ip : nat) (src : list byte) (off : Z).
Let n : Z := Z.of_nat (length src).
Let x : inode := ic ip.
Hypothesis Ho : 1 <= o.
Hypothesis Hoff : 0 <= off <= i_size x.
Hypothesis Hsize : 0 <= i_size x <= MAXFILE * BSIZE.
Hypothesis Hmax : off + n <= MAXFILE * BSIZE.

(** The number of blocks the rest of the bytes reaches into, after [k]. *)
Definition left (k : Z) : Z := if k <? n then (off + n - 1) / BSIZE - (off + k) / BSIZE + 1 else 0.

(** The state after [k] bytes. *)
Definition written (k : Z) (s1 : st) : Prop :=
  exists V1 x1 bs1, fs V1 [] bs1 (fupd ic ip x1) s1 /\ touched V x V1 x1 /\
    (forall a, 0 <= a < Z.max (i_size x) (off + k) -> blkno V1 x1 (a / BSIZE) <> 0 /\
       fbyte V1 x1 a = if decide (off <= a < off + k) then nth (Z.to_nat (a - off)) src Byte.x00 else fbyte V x a) /\
    Z.of_nat (length bs1) + 6 * left k <= LOGSIZE - 2 /\ free_blocks sb nmeta V1 (Z.to_nat (2 * left k)).

Lemma left_step k c : 0 <= k < n -> c = Z.min (n - k) (BSIZE - (off + k) mod BSIZE) -> 0 <= left (k + c) <= left k - 1.
Proof.
  intros Hk ->. unfold left. rewrite (proj2 (Z.ltb_lt k n)) by lia. unfold BSIZE in *.
  pose proof (Z.mod_pos_bound (off + k) 1024 ltac:(lia)). pose proof (Z.div_mod (off + k) 1024 ltac:(lia)).
  assert ((off + k) / 1024 <= (off + n - 1) / 1024) by (apply Z.div_le_mono; lia).
  destruct (Z.ltb_spec (k + Z.min (n - k) (1024 - (off + k) mod 1024)) n) as [Hlt|]; [|lia].
  rewrite Z.min_r in * by lia. replace (off + (k + (1024 - (off + k) mod 1024))) with (((off + k) / 1024 + 1) * 1024) by lia.
  rewrite Z.div_mul by lia. assert ((off + k) / 1024 + 1 <= (off + n - 1) / 1024) by (apply Z.div_le_lower_bound; lia). lia.
Qed.

Lemma in_file a : 0 <= a < Z.max (i_size x) (off + n) -> 0 <= a / BSIZE < MAXFILE.
Proof.
  intros Ha. change (MAXFILE * BSIZE) with 274432 in *. change MAXFILE with 268. split; [apply Z.div_pos; [lia|done]|apply Z.div_lt_upper_bound; [done|unfold BSIZE; lia]].
Qed.

(** The bytes after one more chunk. *)
Lemma written_bytes k c V1 x1 V2 x2 : 0 <= k -> 0 < c -> k + c <= n -> c <= BSIZE - (off + k) mod BSIZE ->
  file_ok V1 x1 -> grown sb nmeta V1 x1 ((off + k) / BSIZE) V2 x2 -> (forall bn, length (V2 bn) = Z.to_nat BSIZE) -> blkno V2 x2 ((off + k) / BSIZE) <> 0 ->
  (forall a, 0 <= a < Z.max (i_size x) (off + k) -> blkno V1 x1 (a / BSIZE) <> 0 /\
     fbyte V1 x1 a = if decide (off <= a < off + k) then nth (Z.to_nat (a - off)) src Byte.x00 else fbyte V x a) ->
  let b := blkno V2 x2 ((off + k) / BSIZE) in
  let V3 := fupd V2 b (put_bytes (V2 b) ((off + k) mod BSIZE) (take (Z.to_nat c) (drop (Z.to_nat k) src))) in
  forall a, 0 <= a < Z.max (i_size x) (off + (k + c)) -> blkno V3 x2 (a / BSIZE) <> 0 /\
     fbyte V3 x2 a = if decide (off <= a < off + (k + c)) then nth (Z.to_nat (a - off)) src Byte.x00 else fbyte V x a.
Proof.
  intros Hk Hc Hkc Hcb Hf1 Hg Hlen Hne Hold b V3 a Ha. pose proof (Z.mod_pos_bound (off + k) BSIZE ltac:(done)). pose proof (Z.div_mod (off + k) BSIZE ltac:(done)).
  assert (Hcl : length (take (Z.to_nat c) (drop (Z.to_nat k) src)) = Z.to_nat c) by (rewrite length_take, length_drop; lia).
  assert (Hin := in_file a ltac:(lia)). assert (Hink := in_file (off + k) ltac:(lia)). pose proof (gr_file _ _ _ _ _ _ _ Hg) as Hf2.
  assert (Hblk : blkno V2 x2 (a / BSIZE) <> 0).
  { destruct (decide (a < Z.max (i_size x) (off + k))) as [Hlt|Hge].
    - destruct (Hold a ltac:(lia)) as [Hb1 _]. rewrite (gr_map _ _ _ _ _ _ _ Hg); [done|done|by right].
    - replace a with (off + k + (a - (off + k))) by lia. destruct (same_block (off + k) (a - (off + k))) as [-> _]; [lia|lia|done]. }
  unfold V3, b. rewrite write_map by done. split; [done|].
  rewrite write_fbyte; try done; [|rewrite Hcl; lia|lia]. rewrite Hcl.
  replace ((off + k) / BSIZE * BSIZE + (off + k) mod BSIZE) with (off + k) by lia. rewrite Z2Nat.id by lia.
  case_decide as D1.
  - rewrite decide_True by lia. rewrite !nth_lookup, lookup_take_lt, lookup_drop by lia. do 2 f_equal. lia.
  - destruct (decide (a < Z.max (i_size x) (off + k))) as [Hlt|Hge]; [|lia]. destruct (Hold a ltac:(lia)) as [Hb1 Hb2].
    rewrite (grown_fbyte _ _ _ _ _ _ Hg Hf1 Hin Hb1), Hb2. case_decide as D2; case_decide as D3; (done || lia).
Qed.

(** One round of the loop. *)
Lemma writei_round k s1 : 0 <= k < n -> written k s1 ->
  let c := Z.min (u32 (n - k)) (BSIZE - (off + k) mod BSIZE) in
  exists s2, written (k + c) s2 /\ 0 < c <= n - k /\ forall A (f g : M st A),
    (let* bn := bmap ip ((off + k) / BSIZE) in
     let* dev := getip ip i_dev in
     let* bp := bread dev bn in
     let* r := either_copyin (Local (drop (Z.to_nat k) src)) c in
     let '(rc, bs) := r in
     set_data bp (fun d => put_bytes d ((off + k) mod BSIZE) bs) ;;;
     if rc =? -1 then brelse bp ;;; g
     else log_write bp ;;; brelse bp ;;; f) s1 = f s2.
Proof.
  intros Hk (V1 & x1 & bs1 & F1 & T1 & Hby & Hroom & Hfree) c. assert (Hn : n <= 274432) by (change (MAXFILE * BSIZE) with 274432 in *; lia).
  assert (Ec : c = Z.min (n - k) (BSIZE - (off + k) mod BSIZE)) by (unfold c; by rewrite u32_small by lia). fold c. clearbody c.
  pose proof (left_step k c Hk Ec) as Hleft. pose proof (Z.mod_pos_bound (off + k) BSIZE ltac:(done)) as Hmod. unfold LOGSIZE, MAXOPBLOCKS in Hroom.
  assert (Hfile1 := to_file _ _ _ _ T1). assert (Hx1 : fupd ic ip x1 ip = x1) by apply fupd_eq.
  destruct (bmap_ok _ _ _ _ _ _ HL V1 bs1 (fupd ic ip x1) s1 ip ((off + k) / BSIZE) F1 Ho (to_meta _ _ _ _ T1)) as (b & s2 & E2 & V2 & x2 & bs2 & F2 & Hbs2 & Eb & Hb0 & Hg & Hfr);
    [by rewrite Hx1|apply in_file; lia|split; [cbn; lia|unfold LOGSIZE, MAXOPBLOCKS; lia]|right; revert Hfree; apply free_fewer; lia|].
  rewrite Hx1 in Hg. rewrite fupd_fupd in F2. assert (Hfile2 := gr_file _ _ _ _ _ _ _ Hg). pose proof Hfile2 as (Hdev2 & _ & Hmo2). subst b.
  set (b := blkno V2 x2 ((off + k) / BSIZE)) in *. assert (Hd : data V2 b) by (destruct (mo_blk _ _ _ _ _ Hmo2 ((off + k) / BSIZE)); [apply in_file; lia|done|done]).
  pose proof (data_pos _ _ _ HL _ _ Hd). assert (Hlen2 := fs_lens _ _ _ _ _ _ _ _ _ _ F2).
  destruct (fs_bread _ _ _ _ _ V2 [] bs2 _ s2 b F2) as (bp & s3 & E3 & F3 & Hbp); [lia|apply not_elem_of_nil|unfold NBUF; cbn [length]; lia|].
  set (chunk := take (Z.to_nat c) (drop (Z.to_nat k) src)). assert (Hcl : length chunk = Z.to_nat c) by (unfold chunk; rewrite length_take, length_drop; lia).
  destruct (fs_modify _ _ _ _ _ V2 _ bs2 _ s3 bp b (fun d => put_bytes d ((off + k) mod BSIZE) chunk) F3 Ho (list_elem_of_here _ _) (data_loggable _ _ _ HL _ _ Hd)) as (s4 & E4 & F4);
    [unfold LOGSIZE, MAXOPBLOCKS; lia|rewrite length_put_bytes; [apply Hlen2|lia|rewrite Hlen2, Hcl; unfold BSIZE in *; lia]|].
  destruct (fs_brelse _ _ _ _ _ _ _ _ _ s4 bp b F4 Hbp) as (s5 & E5 & F5). exists s5. split_and!; [|lia|lia|].
  - eexists _, x2, _. split_and!; [exact F5| | | |].
    + apply (touched_trans _ _ V1 x1); [done|]. apply (touched_trans _ _ V2 x2); [by eapply grown_touched|]. apply write_touched; try done; [apply Hg|apply in_file; lia].
    + apply (written_bytes k c V1 x1 V2 x2); (done || lia).
    + pose proof (absorb_bound b bs2). unfold LOGSIZE, MAXOPBLOCKS. lia.
    + apply (free_data _ _ _ HL); [apply Hd|]. apply Hfr. revert Hfree. apply free_fewer. lia.
  - intros A f g. rewrite (bind_run _ _ _ _ _ E2), (bind_run _ _ _ _ _ (fs_getip _ _ _ _ _ _ _ _ _ _ ip i_dev F2)). rewrite fupd_eq, Hdev2, (bind_run _ _ _ _ _ E3). cbv zeta.
    assert (EC : either_copyin (Local (drop (Z.to_nat k) src)) c s3 = Ok (0, chunk) s3).
    { unfold either_copyin. by rewrite (bind_run _ _ _ _ _ (myproc_fs _ _ _ _ _ F3)). }
    rewrite (bind_run _ _ _ _ _ EC). cbn [Z.eqb]. by rewrite E4, (bind_run _ _ _ _ _ E5).
Qed.
End Write.

(** ** The result of a write *)

(** Blocks below the bitmap are not blocks of files. *)
Lemma low_fupd V x c d : file_ok V x -> c < sb_bmapstart sb -> (forall g, blkno (fupd V c d) x g = blkno V x g) /\ file_ok (fupd V c d) x /\
  (forall e, data (fupd V c d) e <-> data V e) /\ (forall g, 0 <= g < MAXFILE -> blkno V x g <> 0 -> fupd V c d (blkno V x g) = V (blkno V x g)).
Proof.
  intros (Hdev & Hl & Hmo) Hc. destruct (lay_size _ _ _ HL). assert (Hbm : sb_bmapstart sb < nmeta).
  { pose proof (lay_bmap _ _ _ HL). assert (0 <= (sb_size sb - 1) / BPB) by (apply Z.div_pos; [lia|done]). lia. }
  assert (Hne : forall e, data V e -> e <> c) by (intros e [? _]; lia).
  assert (Hm : forall e, nmeta <= e < sb_size sb -> marked sb (fupd V c d) e = marked sb V e).
  { intros e He. apply marked_ext. destruct (bblock_ok _ _ _ HL e) as (_ & ? & _); [lia|]. by rewrite fupd_ne by lia. }
  assert (Hd : forall e, data (fupd V c d) e <-> data V e) by (intros e; unfold FsOk.data; split; intros [? ?]; (split; [done|]); by rewrite Hm in * || rewrite <- Hm).
  assert (Hb : forall g, blkno (fupd V c d) x g = blkno V x g).
  { intros g. unfold blkno. destruct (g <? NDIRECT); [done|]. destruct (Z.eqb_spec (addr_at x NDIRECT) 0) as [|Hi]; [done|]. destruct (mo_ind _ _ _ _ _ Hmo) as [?|Hid]; [done|].
    by rewrite fupd_ne by by apply Hne. }
  split_and!; [done|split_and!; [done|done|]|done|].
  - eapply map_ok_mono; [|intros g _; apply Hb|exact Hmo]. intros e He. by apply Hd.
  - intros g Hg Hn. apply fupd_ne. destruct (mo_blk _ _ _ _ _ Hmo g Hg) as [?|He]; [done|by apply Hne].
Qed.

Definition file_bytes (V : Z -> list byte) (x : inode) : list byte := content V x 0 (Z.to_nat (i_size x)).

(** After writei() of [src] at [off]. *)
Record file_written (V : Z -> list byte) (x : inode) (off : Z) (src : list byte) (V' : Z -> list byte) (x' : inode) : Prop := {
  fw_size : i_size x' = Z.max (i_size x) (off + Z.of_nat (length src));
  fw_bytes : file_bytes V' x' = take (Z.to_nat off) (file_bytes V x) ++ src ++ drop (Z.to_nat off + length src) (file_bytes V x);
  fw_file : file_ok V' x' /\ sized V' x' /\ meta_ok sb nmeta V';
  fw_attr : x' = set_i_size (i_size x') (set_i_addrs (i_addrs x') x);
  fw_inode : let ib := IBLOCK (i_inum x) sb in V' ib = put_bytes (V ib) (i_inum x mod IPB * sizeof_dinode) (dinode_bytes x');
  fw_low : forall c, c < sb_bmapstart sb -> c <> IBLOCK (i_inum x) sb -> V' c = V c;
  fw_other : forall y, file_ok V y -> sized V y -> (forall c, owns V x c -> ~ owns V y c) -> file_ok V' y /\ sized V' y /\ file_bytes V' y = file_bytes V y /\ (forall c, owns V' x' c -> ~ owns V' y c);
}.

(** The blocks of a file that shares none with the written one stay. *)
Lemma touched_keeps V x V' x' y : touched V x V' x' -> file_ok V y -> (forall c, owns V x c -> ~ owns V y c) ->
  (forall c, owns V y c -> V' c = V c /\ data V c) /\ (forall g, blkno V' y g = blkno V y g) /\ file_ok V' y.
Proof.
  intros [T1 T2 T3 T4 T5 T6 T7 T8] (Hdev & Hl & Hmo) Hd.
  assert (Hkeep : forall c, owns V y c -> V' c = V c /\ data V c).
  { intros c Hc. assert (Hdc : data V c). { destruct Hc as [Hc [->|(g & Hg & <-)]]; [by destruct (mo_ind _ _ _ _ _ Hmo)|by destruct (mo_blk _ _ _ _ _ Hmo g Hg)]. }
    split; [|done]. apply T6; [done|]. intros Hx. by apply (Hd c). }
  assert (Hb : forall g, blkno V' y g = blkno V y g).
  { intros g. unfold blkno. destruct (g <? NDIRECT); [done|]. destruct (Z.eqb_spec (addr_at y NDIRECT) 0) as [|Hi]; [done|].
    by rewrite (proj1 (Hkeep _ (conj Hi (or_introl eq_refl)))). }
  split_and!; [done|done|split_and!; [done|done|]]. eapply map_ok_mono; [exact T5|intros g _; apply Hb|exact Hmo].
Qed.

Lemma other_file V x V' x' y : touched V x V' x' -> file_ok V y -> sized V y -> (forall c, owns V x c -> ~ owns V y c) ->
  file_ok V' y /\ sized V' y /\ file_bytes V' y = file_bytes V y /\ (forall c, owns V' x' c -> ~ owns V' y c).
Proof.
  intros T Hy Hsized Hd. destruct (touched_keeps V x V' x' y T Hy Hd) as (Hkeep & Hb & Hy'). split_and!; [done|split; [apply Hsized|]| |].
  - intros g Hg Hlt. rewrite Hb. by apply Hsized.
  - apply content_ext. intros k Hk. unfold fbyte. rewrite Hb. destruct (sized_block V y (0 + Z.of_nat k)) as [Hr Hn]; [done|lia|].
    assert (Hoy : owns V y (blkno V y ((0 + Z.of_nat k) / BSIZE))) by (split; [done|right; by eexists]). by rewrite (proj1 (Hkeep _ Hoy)).
  - intros c Hx [Hc Hoc]. assert (Hoy : owns V y c). { split; [done|]. destruct Hoc as [?|(g & Hg & E)]; [by left|right; exists g; by rewrite <- Hb]. }
    destruct (to_new _ _ _ _ T c Hx) as [?|Hn]; [by apply (Hd c)|]. by apply Hn, Hkeep.
Qed.

Lemma splice_bytes V x V' x' off src : 0 <= off <= i_size x -> i_size x' = Z.max (i_size x) (off + Z.of_nat (length src)) ->
  (forall a, 0 <= a < i_size x' -> fbyte V' x' a = if decide (off <= a < off + Z.of_nat (length src)) then nth (Z.to_nat (a - off)) src Byte.x00 else fbyte V x a) ->
  file_bytes V' x' = take (Z.to_nat off) (file_bytes V x) ++ src ++ drop (Z.to_nat off + length src) (file_bytes V x).
Proof.
  intros Ho Hs E. assert (Ht : length (take (Z.to_nat off) (file_bytes V x)) = Z.to_nat off) by (rewrite length_take; unfold file_bytes; rewrite length_content; lia).
  assert (El : length (file_bytes V' x') = length (take (Z.to_nat off) (file_bytes V x) ++ src ++ drop (Z.to_nat off + length src) (file_bytes V x))).
  { rewrite !length_app, Ht, length_drop. unfold file_bytes. rewrite !length_content. lia. }
  apply list_eq. intros k. destruct (decide (k < Z.to_nat (i_size x'))%nat) as [Hk|Hk].
  2: { rewrite !lookup_ge_None_2; [done| |unfold file_bytes; rewrite length_content; lia]. rewrite <- El. unfold file_bytes. rewrite length_content. lia. }
  unfold file_bytes at 1. rewrite lookup_content by done. rewrite E, !Z.add_0_l by lia. case_decide as D.
  - rewrite lookup_app_r by lia. rewrite Ht, lookup_app_l by lia. replace (Z.to_nat (Z.of_nat k - off)) with (k - Z.to_nat off)%nat by lia.
    destruct (lookup_lt_is_Some_2 src (k - Z.to_nat off)) as [y Ey]; [lia|]. by rewrite (nth_lookup_Some _ _ _ _ Ey), Ey.
  - destruct (decide (k < Z.to_nat off)%nat).
    + rewrite lookup_app_l, lookup_take_lt by lia. unfold file_bytes. by rewrite lookup_content by lia.
    + rewrite lookup_app_r, Ht, lookup_app_r, lookup_drop by lia. unfold file_bytes. rewrite lookup_content by lia. do 2 f_equal. lia.
Qed.

(** The inode's block and its size do not matter to the bytes of a file. *)
Lemma low_bytes V x c d z : file_ok V x -> c < sb_bmapstart sb -> 0 <= z <= MAXFILE * BSIZE ->
  (forall a, 0 <= a < z -> blkno V x (a / BSIZE) <> 0) ->
  let x' := set_i_size z x in sized (fupd V c d) x' /\ (forall a, 0 <= a < z -> fbyte (fupd V c d) x' a = fbyte V x a).
Proof.
  intros Hf Hc Hz Hall x'. destruct (low_fupd V x c d Hf Hc) as (Hb & _ & _ & Hk). assert (Hb' : forall g, blkno (fupd V c d) x' g = blkno V x g) by exact Hb.
  split; [split; [done|]|].
  - intros g Hg Hlt. rewrite Hb'. cbn [i_size x' set_i_size] in Hlt. specialize (Hall (g * BSIZE)). rewrite Z.div_mul in Hall by done. apply Hall. unfold BSIZE in *. lia.
  - intros a Ha. unfold fbyte. rewrite Hb', Hk; [done| |by apply Hall]. change (MAXFILE * BSIZE) with 274432 in Hz. change MAXFILE with 268.
    split; [apply Z.div_pos; [lia|done]|apply Z.div_lt_upper_bound; [done|unfold BSIZE; lia]].
Qed.

Lemma meta_low V c d : c < sb_bmapstart sb -> meta_ok sb nmeta V -> meta_ok sb nmeta (fupd V c d).
Proof.
  intros Hc Hm b Hb. destruct (lay_size _ _ _ HL). rewrite <- (Hm b Hb). apply marked_ext. destruct (bblock_ok _ _ _ HL b) as (_ & ? & _); [lia|]. by rewrite fupd_ne by lia.
Qed.

Lemma owns_low V x c d e : file_ok V x -> c < sb_bmapstart sb -> owns (fupd V c d) x e <-> owns V x e.
Proof. intros Hf Hc. destruct (low_fupd V x c d Hf Hc) as (Hb & _). unfold owns. by setoid_rewrite Hb. Qed.

Lemma written_file V x V1 x1 off src : let n := Z.of_nat (length src) in let ib := IBLOCK (i_inum x) sb in let z := Z.max (i_size x) (off + n) in let x' := set_i_size z x1 in
  touched V x V1 x1 -> 0 <= off <= i_size x -> i_size x <= MAXFILE * BSIZE -> off + n <= MAXFILE * BSIZE -> ib < sb_bmapstart sb ->
  (forall a, 0 <= a < z -> blkno V1 x1 (a / BSIZE) <> 0 /\ fbyte V1 x1 a = if decide (off <= a < off + n) then nth (Z.to_nat (a - off)) src Byte.x00 else fbyte V x a) ->
  file_written V x off src (fupd V1 ib (put_bytes (V1 ib) (i_inum x mod IPB * sizeof_dinode) (dinode_bytes x'))) x'.
Proof.
  intros n ib z x' T1 Hoff Hsz Hmax Hib Hby. set (d := put_bytes _ _ _). pose proof (to_file _ _ _ _ T1) as Hf1.
  destruct (low_bytes V1 x1 ib d z Hf1 Hib ltac:(lia)) as [Hsized Hfb]; [intros a Ha; by apply Hby|]. destruct (low_fupd V1 x1 ib d Hf1 Hib) as (_ & Hf' & _).
  split.
  - done.
  - apply splice_bytes; [done|done|]. intros a Ha. rewrite Hfb by exact Ha. by apply Hby.
  - split_and!; [exact Hf'|done|]. apply meta_low; [done|apply T1].
  - unfold x'. rewrite (to_x _ _ _ _ T1). by destruct x.
  - cbv zeta. fold ib. rewrite fupd_eq. unfold d. by rewrite (to_low _ _ _ _ T1 ib Hib).
  - intros c Hc Hne. rewrite fupd_ne by done. by apply (to_low _ _ _ _ T1).
  - intros y Hy Hys Hd. destruct (other_file V x V1 x1 y T1 Hy Hys Hd) as (Hy1 & Hys1 & Eb & Hd1). destruct (low_fupd V1 y ib d Hy1 Hib) as (_ & Hy' & _).
    destruct (low_bytes V1 y ib d (i_size y) Hy1 Hib) as [Hys' Hfb']; [apply Hys1|intros a Ha; by apply sized_block|].
    replace (set_i_size (i_size y) y) with y in * by by destruct y. split_and!; [done|done| |].
    + rewrite <- Eb. apply content_ext. intros k Hk. apply Hfb'. lia.
    + intros c Hc. rewrite (owns_low V1 y) by done. apply Hd1. by apply (owns_low V1 x1 ib d c).
Qed.

Lemma writei_ok V bs ic s ip src off : let x := ic ip in let n := Z.of_nat (length src) in
  fs V [] bs ic s -> 1 <= o -> file_ok V x -> sized V x -> meta_ok sb nmeta V -> 0 <= i_inum x < sb_ninodes sb -> 0 <= off <= i_size x -> off + n <= MAXFILE * BSIZE -> 0 < n ->
  Z.of_nat (length bs) + 6 * left src off 0 <= LOGSIZE - 2 -> free_blocks sb nmeta V (Z.to_nat (2 * left src off 0)) ->
  exists V' x' bs' s', writei ip (Local src) off n s = Ok n s' /\ fs V' [] bs' (fupd ic ip x') s' /\ file_written V x off src V' x'.
Proof.
  intros x n Hf Ho Hfile Hsized Hmeta Hinum Hoff Hmax Hn Hroom Hfree. pose proof Hsized as [Hsz _]. assert (Hm : MAXFILE * BSIZE = 274432) by done.
  enough (wp (writei ip (Local src) off n) (fun r s' => r = n /\ exists V' x' bs', fs V' [] bs' (fupd ic ip x') s' /\ file_written V x off src V' x') s) as W.
  { apply wp_elim in W as (r & s' & E & -> & V' & x' & bs' & F & Hw). by exists V', x', bs', s'. }
  unfold writei. run (fs_getip _ _ _ _ _ _ _ _ _ _ ip (fun x => x) Hf). fold x. rewrite u32_small by lia.
  rewrite (proj2 (Z.ltb_ge (i_size x) off)), (proj2 (Z.ltb_ge (off + n) off)), (proj2 (Z.ltb_ge (MAXFILE * BSIZE) (off + n))) by lia. cbn [orb].
  apply wp_bind. eapply wp_mono.
  { apply (wp_loop _ (fun j '(tot, off', src') s' => exists k, 0 <= k <= n /\ j = n - k /\ tot = k /\ off' = off + k /\ src' = Local (drop (Z.to_nat k) src) /\ written V ic ip src off k s')
      (fun r s' => r = (n, off + n) /\ written V ic ip src off n s')) with (n := n).
    - intros j [[tot off'] src'] s' _ (k & Hk & -> & -> & -> & -> & Hw). destruct (Z.ltb_spec k n) as [Hlt|Hge].
      2: { apply wp_ret. assert (k = n) as -> by lia. done. }
      destruct (writei_round V ic ip src off Ho Hoff Hsz Hmax k s' ltac:(lia) Hw) as (s2 & Hw2 & Hc & E).
      fold n in Hw2, Hc, E. cbv zeta. set (c := Z.min (u32 (n - k)) (BSIZE - (off + k) mod BSIZE)) in *. unfold wp. rewrite E. cbn [ret].
      exists (n - (k + c)). split; [lia|]. exists (k + c). rewrite !u32_small by lia. split_and!; [lia|lia|done|done|lia| |done].
      cbn [kadd]. rewrite drop_drop. do 2 f_equal. lia.
    - lia.
    - exists 0. split_and!; [lia|lia|lia|done|lia|done|]. exists V, x, bs. split_and!; [by apply fupd_same_ic|by apply touched_refl| |done|done].
      intros a Ha. fold x in Ha. rewrite Z.add_0_r, Z.max_l in Ha by lia. rewrite decide_False by lia. split; [by apply sized_block|done]. }
  intros r s1 [-> (V1 & x1 & bs1 & F1 & T1 & Hby & Hroom1 & _)]. rewrite (proj2 (Z.ltb_lt 0 n)) by done. unfold when at 1. fold x in T1, Hby. fold n in Hby, Hroom1.
  assert (Hx1 : fupd ic ip x1 ip = x1) by apply fupd_eq. assert (Es1 : i_size x1 = i_size x) by (rewrite (to_x _ _ _ _ T1); done).
  set (x' := set_i_size (Z.max (i_size x) (off + n)) x1).
  assert (Hset : exists s2, (when (i_size x1 <? off + n) (set_ip ip (set_i_size (off + n)))) s1 = Ok tt s2 /\ fs V1 [] bs1 (fupd ic ip x') s2).
  { unfold x', when. destruct (Z.ltb_spec (i_size x1) (off + n)).
    - destruct (fs_set_ip _ _ _ _ _ _ _ _ _ s1 ip (set_i_size (off + n)) F1) as (s2 & E2 & F2). rewrite Hx1, fupd_fupd in F2. rewrite Z.max_r by lia. by exists s2.
    - exists s1. split; [done|]. rewrite Z.max_l by lia. rewrite <- Es1. by replace (set_i_size (i_size x1) x1) with x1 by by destruct x1. }
  destruct Hset as (s2 & E2 & F2). assert (Hx' : fupd ic ip x' ip = x') by apply fupd_eq. destruct (to_file _ _ _ _ T1) as (Hdev1 & Hl1 & Hmo1) eqn:Ef1. clear Ef1.
  assert (Ein : i_inum x' = i_inum x) by (unfold x'; cbn; rewrite (to_x _ _ _ _ T1); done).
  destruct (iupdate_ok V1 bs1 _ s2 ip F2 Ho) as (s3 & E3 & Hib & F3); [by rewrite Hx'|by rewrite Hx'|by rewrite Hx', Ein| |].
  { assert (left src off n = 0) as E0 by (unfold left; fold n; by rewrite Z.ltb_irrefl). rewrite E0 in Hroom1. unfold LOGSIZE, MAXOPBLOCKS in *. lia. }
  rewrite Hx', Ein in Hib, F3. apply wp_bind. run (fs_getip _ _ _ _ _ _ _ _ _ _ ip i_size F1). rewrite Hx1. run E2. eapply wp_Ok; [exact E3|]. apply wp_ret. split; [apply i32_small; lia|].
  eexists _, x', _. split; [exact F3|]. apply written_file; [exact T1|exact Hoff|lia|exact Hmax|lia|exact Hby].
Qed.
End File.
