(* ===== verification/FsCrash.v ===== *)
(** A file write inside a transaction: writei() between begin_op() and end_op(),
    with the machine stopping at any moment and the log recovered after it. *)

From Stdlib Require Import ZArith Lia FunctionalExtensionality.
From stdpp Require Import base tactics list strings.
From coqutil Require Import Byte Word.LittleEndianList.
From S2P Require Import Prelude Riscv Mem Core Spinlock Kalloc Vm Machine State Csr Proc Sched Sleeplock Virtio Bio Dll Cache Block Log Commit Txn Sample Crash Fs FsOk FsFile.

Local Open Scope Z_scope.
Local Open Scope kern_scope.

(** The bytes of the inode on the disk are those of the inode in memory. *)
Definition on_disk (sb : superblock) (D : Z -> list byte) (x : inode) : Prop :=
  sub (D (IBLOCK (i_inum x) sb)) (i_inum x mod IPB * sizeof_dinode) 64 = dinode_bytes x.

Section FsCrash.
Context `{KernelImage} `{World} `{Symbols} `{BlockDevOk}.
Context (i : nat) (start : Z) (sb : superblock) (nmeta : Z).
Hypothesis HL : layout start sb nmeta.

(** A system call's write of [src] to a file. *)
Definition write_file (ip : nat) (src : list byte) (off : Z) : M st Z :=
  begin_op ;;;
  let* r := writei ip (Local src) off (Z.of_nat (length src)) in
  end_op ;;;
  ret r.

(** A disk that agrees outside the log holds the same file. *)
Lemma agree_file D V x : file_ok sb nmeta V x -> sized V x -> 0 <= i_inum x < sb_ninodes sb -> (forall bn, ~ (start <= bn < start + LOGSIZE) -> D bn = V bn) ->
  file_bytes D x = file_bytes V x /\ (on_disk sb V x -> on_disk sb D x).
Proof.
  intros (Hdev & Hl & Hmo) Hsized Hi Ha. destruct HL as [L1 L2 L3 L4 [L5 L6] L7]. assert (0 <= sb_ninodes sb / IPB) by (apply Z.div_pos; [lia|done]).
  assert (0 <= (sb_size sb - 1) / BPB) by (apply Z.div_pos; [lia|done]).
  assert (Hd : forall c, data sb nmeta V c -> D c = V c) by (intros c [Hc _]; apply Ha; lia).
  assert (Hb : forall g, blkno D x g = blkno V x g).
  { intros g. unfold blkno. destruct (g <? NDIRECT); [done|]. destruct (Z.eqb_spec (addr_at x NDIRECT) 0) as [|Hne]; [done|].
    destruct (mo_ind _ _ _ _ _ Hmo) as [?|Hid]; [done|]. by rewrite Hd. }
  split.
  - apply content_ext. intros k Hk. unfold fbyte. rewrite Hb. destruct (sized_block V x (0 + Z.of_nat k) Hsized) as [Hr Hn]; [lia|].
    destruct (mo_blk _ _ _ _ _ Hmo _ Hr) as [?|Hid]; [done|]. by rewrite Hd.
  - unfold on_disk. rewrite Ha; [done|]. unfold IBLOCK. unfold BPB, BSIZE in *.
    assert (0 <= i_inum x / IPB <= sb_ninodes sb / IPB) by (split; [apply Z.div_pos; [lia|done]|apply Z.div_le_mono; [done|lia]]). rewrite u32_small; lia.
Qed.

Lemma begin_fs s : idle i start s -> s_sb s = sb -> exists s1, begin_op s = Ok tt s1 /\ fs i start 1 sb s (s_disk s) [] [] (s_ic s) s1.
Proof.
  intros [Hb Ht Hh] Hsb. destruct (begin_op_ok i _ [] [] start 0 [] s Hb Ht ltac:(unfold LOGSIZE, MAXOPBLOCKS in *; simpl; lia)) as (s1 & E1 & B1 & T1 & S1 & D1 & W1).
  assert (Eic : s_ic s1 = s_ic s) by (unfold same_but_log in S1; by rewrite (same_ic _ _ S1)). exists s1. split; [done|].
  split; try done; [unfold same_but_log in S1; by rewrite (same_sb _ _ S1)|]. unfold frame. rewrite Eic. unfold same_but_log in S1. by destruct s.
Qed.

(** The inode that a write stored. *)
Lemma stored_inode V x off src V' x' : (forall bn, length (V bn) = Z.to_nat BSIZE) -> length (i_addrs x') = 13%nat -> file_written sb nmeta V x off src V' x' -> on_disk sb V' x'.
Proof.
  intros Hlen Hl Hw. assert (Ei : i_inum x' = i_inum x) by (rewrite (fw_attr _ _ _ _ _ _ _ _ Hw); done). unfold on_disk. rewrite Ei.
  rewrite (fw_inode _ _ _ _ _ _ _ _ Hw). assert (Hdl : length (dinode_bytes x') = 64%nat).
  { unfold dinode_bytes. rewrite !length_app, !length_le_split, length_addrs, Hl. done. }
  rewrite <- Hdl at 1. assert (0 <= i_inum x mod IPB < 16) by (change IPB with 16; apply Z.mod_pos_bound; lia).
  apply sub_put_same; [unfold sizeof_dinode; lia|rewrite Hlen, Hdl; unfold sizeof_dinode, BSIZE; lia].
Qed.

(** C7: a write to a file is atomic with respect to crashes.  On an idle file
    system, a system call that writes [src] at an offset inside the file or at
    its end, between begin_op() and end_op(), returns the number of bytes; the
    file's content on the disk is then its old content with [src] spliced in,
    grown where needed by blocks that were free, its inode is on the disk, and
    every other file is unchanged.  If the machine stops after any number [k] of
    the block writes this makes, the restarted kernel's initlog() succeeds, and
    the disk holds the old file and inode if [k] is at most the commit point, and
    the new ones if it is past it. *)
Theorem file_write_atomic s ip src off : let x := s_ic s ip in let D := s_disk s in let n := Z.of_nat (length src) in
  idle i start s -> log_on sb start -> s_sb s = sb ->
  file_ok sb nmeta D x -> sized D x -> on_disk sb D x -> meta_ok sb nmeta D -> 0 <= i_inum x < sb_ninodes sb ->
  0 <= off <= i_size x -> off + n <= MAXFILE * BSIZE -> 0 < n ->
  6 * left src off 0 <= LOGSIZE - 2 -> free_blocks sb nmeta D (Z.to_nat (2 * left src off 0)) ->
  exists s' V' x' W c, write_file ip src off s = Ok n s' /\ idle i start s' /\ s_ic s' = fupd (s_ic s) ip x' /\
    file_written sb nmeta D x off src V' x' /\ (forall bn, ~ (start <= bn < start + LOGSIZE) -> s_disk s' bn = V' bn) /\
    s_writes s' = rev W ++ s_writes s /\ s_disk s' = apply_w W D /\
    forall k s1, booted i (apply_w (take k W) D) s1 -> exists s2, initlog ROOTDEV sb s1 = Ok tt s2 /\
      if (k <=? c)%nat then on_disk sb (s_disk s2) x /\ file_bytes (s_disk s2) x = file_bytes D x
      else on_disk sb (s_disk s2) x' /\ file_bytes (s_disk s2) x' = take (Z.to_nat off) (file_bytes D x) ++ src ++ drop (Z.to_nat off + length src) (file_bytes D x).
Proof.
  intros x D n Hidle Hlog Hsb Hfile Hsized Hod Hmeta Hi Hoff Hmax Hn Hroom Hfree.
  destruct (begin_fs s Hidle Hsb) as (s1 & E1 & F1).
  destruct (writei_ok i start 1 sb s nmeta HL D [] (s_ic s) s1 ip src off F1 ltac:(lia) Hfile Hsized Hmeta Hi Hoff Hmax Hn ltac:(cbn [length]; lia) Hfree) as (V' & x' & bs & s2 & E2 & F2 & Hw).
  destruct F2 as [B2 T2 _ Ic2 Hcl _ D2 W2]. destruct (end_op_last i _ start bs s2 B2 T2) as (s3 & E3 & B3 & T3 & S3 & D3 & W3).
  fold D in D2, Hcl. rewrite D2 in D3. rewrite W2 in W3. set (W := txn_writes V' start bs) in *. assert (Ha := tx_area _ _ _ _ T2).
  assert (Hlen : forall bn, length (D bn) = Z.to_nat BSIZE) by (intros bn; apply (fs_lens _ _ _ _ _ _ _ _ _ _ F1)).
  assert (Hvl : forall bn, length (V' bn) = Z.to_nat BSIZE) by apply (ca_vlen _ _ _ _ _ _ _ _ (bio_cache _ _ _ _ _ _ B2)).
  destruct Hidle as [_ _ Hh]. assert (Hlg : logged start [] (s_disk s3) V') by (rewrite D3; by apply logged_txn).
  destruct (fw_file _ _ _ _ _ _ _ _ Hw) as (Hf' & Hs' & _). assert (Hi' : 0 <= i_inum x' < sb_ninodes sb) by (rewrite (fw_attr _ _ _ _ _ _ _ _ Hw); exact Hi).
  exists s3, V', x', W, (length bs). split_and!; [| | |done| |done|done|].
  - unfold write_file. by rewrite (bind_run _ _ _ _ _ E1), (bind_run _ _ _ _ _ E2), (bind_run _ _ _ _ _ E3).
  - split; [by eapply bio_clean_all|done|apply Hlg].
  - unfold same_but_log in S3. by rewrite (same_ic _ _ S3).
  - intros bn Hbn. apply (lg_home _ _ _ _ Hlg); [done|apply not_elem_of_nil].
  - intros k s4 Hbt. destruct (logged_txn_prefix start bs D V' k Ha Hh Hvl Hcl) as [bs' Hl].
    destruct (initlog_restores i start sb bs' _ _ s4 Hbt Hlog Hl) as (s5 & E5 & Hd5). exists s5. split; [done|]. destruct (k <=? length bs)%nat.
    + destruct (agree_file (s_disk s5) D x Hfile Hsized Hi Hd5) as [Eb Eo]. split; [by apply Eo|done].
    + destruct (agree_file (s_disk s5) V' x' Hf' Hs' Hi' Hd5) as [Eb Eo]. rewrite Eb, (fw_bytes _ _ _ _ _ _ _ _ Hw). split; [|done].
      apply Eo. apply (stored_inode D x off src); [done|apply Hf'|done].
Qed.

Lemma content_sub V x off n m : (off + n <= m)%nat -> content V x (Z.of_nat off) n = take n (drop off (content V x 0 m)).
Proof.
  intros Hm. replace m with (off + (n + (m - off - n)))%nat by lia. rewrite content_app, drop_app_length' by by rewrite length_content.
  rewrite content_app, take_app_length' by by rewrite length_content. done.
Qed.

(** C8: what is written to a file is read back.  Inside a transaction, writei() of
    [src] at an offset inside the file or at its end returns the number of bytes,
    whatever blocks the file had, direct or indirect; readi() at that offset then
    returns exactly these bytes, and reading the whole file returns its old bytes
    with [src] spliced in. *)
Theorem write_then_read o V bs ic s0 s ip src off : let x := ic ip in let n := Z.of_nat (length src) in
  fs i start o sb s0 V [] bs ic s -> 1 <= o -> file_ok sb nmeta V x -> sized V x -> meta_ok sb nmeta V -> 0 <= i_inum x < sb_ninodes sb ->
  0 <= off <= i_size x -> off + n <= MAXFILE * BSIZE -> 0 < n ->
  Z.of_nat (length bs) + 6 * left src off 0 <= LOGSIZE - 2 -> free_blocks sb nmeta V (Z.to_nat (2 * left src off 0)) ->
  exists s1 x1 s2 s3, writei ip (Local src) off n s = Ok n s1 /\ s_ic s1 = fupd ic ip x1 /\
    readi ip (Local []) off n s1 = Ok (n, src) s2 /\
    readi ip (Local []) 0 (i_size x1) s1 = Ok (i_size x1, take (Z.to_nat off) (file_bytes V x) ++ src ++ drop (Z.to_nat off + length src) (file_bytes V x)) s3.
Proof.
  intros x n Hf Ho Hfile Hsized Hmeta Hi Hoff Hmax Hn Hroom Hfree.
  destruct (writei_ok i start o sb s0 nmeta HL V bs ic s ip src off Hf Ho Hfile Hsized Hmeta Hi Hoff Hmax Hn Hroom Hfree) as (V' & x' & bs' & s1 & E1 & F1 & Hw).
  destruct (fw_file _ _ _ _ _ _ _ _ Hw) as (Hf' & Hs' & _). pose proof (fw_size _ _ _ _ _ _ _ _ Hw) as Hsz. fold n in Hsz.
  assert (Hbs : (length bs' < NBUF)%nat).
  { pose proof (la_len _ _ (tx_area _ _ _ _ (fs_txn _ _ _ _ _ _ _ _ _ _ F1))) as Hla. unfold LOGSIZE, MAXOPBLOCKS in Hla. unfold NBUF. lia. }
  assert (Hx : fupd ic ip x' ip = x') by apply fupd_eq. pose proof Hs' as [Hs1 _]. change (MAXFILE * BSIZE) with 274432 in *.
  destruct (readi_ok i start o sb s0 nmeta HL V' bs' _ s1 ip [] off n F1) as (s2 & E2 & _); [by rewrite Hx|by rewrite Hx|done|lia|lia|lia|].
  destruct (readi_ok i start o sb s0 nmeta HL V' bs' _ s1 ip [] 0 (i_size x') F1) as (s3 & E3 & _); [by rewrite Hx|by rewrite Hx|done|lia|lia|lia|].
  exists s1, x', s2, s3. rewrite Hx in E2, E3. split_and!; [done|apply F1| |].
  - rewrite E2. replace (Z.max 0 (Z.min n (i_size x' - off))) with n by lia. do 2 f_equal. rewrite <- (Z2Nat.id off) by lia.
    rewrite (content_sub _ _ _ _ (Z.to_nat (i_size x'))) by lia. fold (file_bytes V' x'). rewrite (fw_bytes _ _ _ _ _ _ _ _ Hw).
    fold x. rewrite drop_app_length' by (unfold file_bytes; rewrite length_take, length_content; lia). by rewrite take_app_length' by (unfold n; lia).
  - rewrite E3. replace (Z.max 0 (Z.min (i_size x') (i_size x' - 0))) with (i_size x') by lia. do 2 f_equal. fold (file_bytes V' x'). by rewrite (fw_bytes _ _ _ _ _ _ _ _ Hw).
Qed.
End FsCrash.

(** ** Examples *)

Section Witness.
#[local] Existing Instances image8 world0 symbols0 ram_disk ram_disk_ok.

(** The layout of mkfs: the log in blocks 2 to 31, inodes in blocks 32 to 44, the
    bitmap in block 45, data from block 46 on. *)
Lemma layout0 : layout 2 sb0 46.
Proof. split; vm_compute; intuition discriminate. Qed.

(** A disk with the metadata marked and an empty file, inode 1. *)
Definition empty_file : inode := mkinode ROOTDEV 1 1 1 T_FILE 0 0 1 0 (List.repeat 0 13).
Definition disk2 : Z -> list byte :=
  fupd (fupd disk0 45 (put_bytes zero_block 0 (List.repeat Byte.xff 5 ++ [Byte.x3f]))) 32 (put_bytes zero_block 64 (dinode_bytes empty_file)).
Definition st2 : st := set_s_ic (fun _ => empty_file) (st0 disk2).

Lemma length_disk2 bn : length (disk2 bn) = Z.to_nat BSIZE.
Proof. unfold disk2, fupd. repeat case_decide; by vm_compute. Qed.

Lemma idle2 : idle 0 2 st2.
Proof.
  assert (Hb := bio0 disk2 length_disk2). split.
  - apply (bio_frame 0 _ _ _ _ (st0 disk2)); done.
  - apply idle0.
  - split; [by vm_compute|done].
Qed.

Lemma file2 V : file_ok sb0 46 V empty_file /\ sized V empty_file.
Proof.
  assert (Ea : forall k, addr_at empty_file k = 0) by (intros k; apply nth_repeat).
  assert (Eb : forall g, blkno V empty_file g = 0) by (intros g; unfold blkno; rewrite !Ea; by destruct (_ <? _)).
  split; [split_and!; [done|done|split]|split; [by vm_compute|]].
  - by left.
  - intros g _. left. apply Eb.
  - intros g g' _ _ Hg. by rewrite Eb in Hg.
  - intros g _ Hg. by rewrite Eb in Hg.
  - intros g H0 H1. cbn [i_size empty_file] in H1. unfold BSIZE in H1. lia.
Qed.

Lemma meta2 : meta_ok sb0 46 disk2.
Proof.
  assert (E : forallb (fun k => marked sb0 disk2 (Z.of_nat k)) (seq 0 46) = true) by by vm_compute.
  intros b Hb. rewrite forallb_forall in E. replace b with (Z.of_nat (Z.to_nat b)) by lia. apply E, in_seq. lia.
Qed.

Lemma free2 : free_blocks sb0 46 disk2 2.
Proof.
  exists [46; 47]. split_and!; [apply (bool_decide_unpack _); by vm_compute|done|]. repeat constructor; (lia || by vm_compute).
Qed.

(** Five bytes written to the empty file are read back. *)
Lemma write_then_read_witness : exists s1 s2 s3, begin_op st2 = Ok tt s1 /\ writei 0 (Local (List.repeat Byte.x41 5)) 0 5 s1 = Ok 5 s2 /\
  readi 0 (Local []) 0 5 s2 = Ok (5, List.repeat Byte.x41 5) s3.
Proof.
  destruct (begin_fs 0 2 sb0 st2 idle2 eq_refl) as (s1 & E1 & F1).
  destruct (write_then_read 0 2 sb0 46 layout0 1 disk2 [] (fun _ => empty_file) st2 s1 0 (List.repeat Byte.x41 5) 0) as (s2 & x2 & s3 & _ & E2 & _ & E3 & _).
  - exact F1.
  - lia.
  - apply file2.
  - apply file2.
  - exact meta2.
  - cbn; lia.
  - cbn; lia.
  - by vm_compute.
  - done.
  - by vm_compute.
  - exact free2.
  - exists s1, s2, s3. split; [exact E1|]. split; [exact E2|exact E3].
Defined.

(** Five bytes written to the empty file are on the disk after a crash, or the
    file is still empty. *)
Lemma file_write_atomic_witness : exists s' x', write_file 0 (List.repeat Byte.x41 5) 0 st2 = Ok 5 s' /\ s_ic s' 0%nat = x' /\ i_size x' = 5 /\
  exists W, s_disk s' = apply_w W disk2 /\ forall k s1, booted 0 (apply_w (take k W) disk2) s1 -> exists s2, initlog ROOTDEV sb0 s1 = Ok tt s2 /\
    (file_bytes (s_disk s2) empty_file = [] \/ file_bytes (s_disk s2) x' = List.repeat Byte.x41 5).
Proof.
  destruct (file_write_atomic 0 2 sb0 46 layout0 st2 0 (List.repeat Byte.x41 5) 0) as (s' & V' & x' & W & c & E & _ & Eic & Hw & _ & _ & ED & Hk).
  - exact idle2.
  - by split.
  - done.
  - apply file2.
  - apply file2.
  - by vm_compute.
  - exact meta2.
  - cbn; lia.
  - cbn; lia.
  - by vm_compute.
  - done.
  - by vm_compute.
  - exact free2.
  - exists s', x'. split; [exact E|]. split; [rewrite Eic; apply fupd_eq|]. split; [rewrite (fw_size _ _ _ _ _ _ _ _ Hw); done|].
    exists W. split; [exact ED|]. intros k s1 Hs1. destruct (Hk k s1 Hs1) as (s2 & E2 & Hc). exists s2. split; [exact E2|].
    destruct (k <=? c)%nat; destruct Hc as [_ Hc]; [left; exact Hc|right; exact Hc].
Defined.
End Witness.
