(* ===== verification/FsDir.v ===== *)
(** Directories (kernel/fs.c): iget(), dirlookup() and dirlink() over the entries
    of a directory.  A directory is a map from names to inode numbers. *)

From Stdlib Require Import ZArith Lia FunctionalExtensionality.
From stdpp Require Import base tactics list strings.
From coqutil Require Import Byte Word.LittleEndianList.
From S2P Require Import Prelude Riscv Mem Core Spinlock Kalloc Vm Machine State Csr Proc Sched Sleeplock Virtio Bio Dll Cache Block Log Commit Txn Sample Crash Fs FsOk FsFile FsCrash.

Local Open Scope Z_scope.
Local Open Scope kern_scope.

(** ** Names *)

(** Two names are the same if they agree up to their NUL, in their first DIRSIZ
    bytes. *)
Lemma strncmp_arr_eq n p q : strncmp_arr n p q = 0 <-> cut n p = cut n q.
Proof.
  revert p q. induction n as [|n IH]; intros p q; [done|]. cbn [strncmp_arr].
  destruct p as [|a p], q as [|b q]; cbn [hd tl cut].
  - done.
  - change (byte.unsigned Byte.x00) with 0. cbn [Z.eqb negb andb]. destruct (Z.eqb_spec (byte.unsigned b) 0) as [->|Hb]; [done|]. split; [lia|done].
  - change (byte.unsigned Byte.x00) with 0. destruct (Z.eqb_spec (byte.unsigned a) 0) as [->|Ha]; cbn [negb andb]; [done|]. split; [lia|done].
  - destruct (Z.eqb_spec (byte.unsigned a) 0) as [Ha|Ha]; cbn [negb andb].
    + rewrite Ha. destruct (Z.eqb_spec (byte.unsigned b) 0) as [->|Hb]; [done|]. split; [lia|done].
    + destruct (Z.eqb_spec (byte.unsigned a) (byte.unsigned b)) as [E|E].
      * rewrite <- E. rewrite (proj2 (Z.eqb_neq _ _) Ha). apply byte.unsigned_inj in E as ->. rewrite IH. split; [by intros ->|]. by intros [= ->].
      * split; [lia|]. destruct (byte.unsigned b =? 0); [done|]. by intros [= -> _].
Qed.

Definition same_name (s t : list byte) : Prop := cut DIRSIZ s = cut DIRSIZ t.
#[export] Instance same_name_dec s t : Decision (same_name s t).
Proof. unfold same_name. apply _. Defined.

Lemma cut_pad n t : cut n (strncpy_arr n t) = cut n t.
Proof.
  unfold strncpy_arr. assert (Hc : forall m t k, (length (cut m t) <= m)%nat /\ cut m (cut m t ++ List.repeat Byte.x00 k) = cut m t).
  { intros m. induction m as [|m IH]; intros u k; [split; [done|]; by destruct (_ ++ _)|]. destruct u as [|b u]; cbn [cut app length].
    - split; [lia|]. destruct k; [done|]. cbn [List.repeat cut]. done.
    - destruct (byte.unsigned b =? 0) eqn:Eb; cbn [app length].
      + split; [lia|]. destruct k; [done|]. cbn [List.repeat cut]. done.
      + destruct (IH u k) as [IH1 IH2]. split; [lia|]. cbn [cut]. by rewrite Eb, IH2. }
  apply Hc.
Qed.

Lemma length_strncpy n t : length (strncpy_arr n t) = n.
Proof.
  unfold strncpy_arr. assert (length (cut n t) <= n)%nat.
  { revert t. induction n as [|n IH]; intros [|b t]; cbn [cut length]; try lia. destruct (_ =? 0); cbn [length]; [lia|]. specialize (IH t). lia. }
  rewrite length_app, repeat_length. lia.
Qed.

(** ** Entries *)

Definition entry (V : Z -> list byte) (x : inode) (k : nat) : list byte := content V x (16 * Z.of_nat k) 16.
Definition entries (V : Z -> list byte) (x : inode) : list (list byte) := entry V x <$> seq 0 (Z.to_nat (i_size x / 16)).

(** The entry is in use and has the name. *)
Definition matches (name : list byte) (e : list byte) : Prop := de_inum e <> 0 /\ same_name name (de_name e).
#[export] Instance matches_dec name e : Decision (matches name e).
Proof. unfold matches. apply _. Defined.

(** The inode number of a name. *)
Definition dir_lookup (V : Z -> list byte) (x : inode) (name : list byte) : option Z :=
  (fun p : nat * list byte => de_inum p.2) <$> list_find (matches name) (entries V x).

Lemma entries_lookup V x k : (k < Z.to_nat (i_size x / 16))%nat -> entries V x !! k = Some (entry V x k).
Proof. intros Hk. unfold entries. by rewrite list_lookup_fmap, lookup_seq_lt by done. Qed.

Lemma length_entries V x : length (entries V x) = Z.to_nat (i_size x / 16).
Proof. unfold entries. by rewrite length_fmap, length_seq. Qed.

Section Dir.
Context `{KernelImage} `{World} `{Symbols} `{BlockDevOk}.
Context (i : nat) (start o : Z) (sb : superblock) (s0 : st) (nmeta : Z).
Hypothesis HL : layout start sb nmeta.

Notation fs := (fs i start o sb s0).
Notation file_ok := (file_ok sb nmeta).


(** ** iget() *)

Definition is_inode (ic : nat -> inode) (dev inum : Z) (ip : nat) : bool :=
  (0 <? i_ref (ic ip)) && (i_dev (ic ip) =? dev) && (i_inum (ic ip) =? inum).
Definition is_free (ic : nat -> inode) (ip : nat) : bool := i_ref (ic ip) =? 0.

(** The inodes in memory after iget() returned [ip]. *)
Definition igot (ic : nat -> inode) (dev inum : Z) (ip : nat) (ic' : nat -> inode) : Prop :=
  (ip < NINODE)%nat /\
  ((is_inode ic dev inum ip = true /\ ic' = fupd ic ip (set_i_ref (i_ref (ic ip) + 1) (ic ip))) \/
   ((forall j, (j < NINODE)%nat -> is_inode ic dev inum j = false) /\ is_free ic ip = true /\
    ic' = fupd ic ip (set_i_valid 0 (set_i_ref 1 (set_i_inum inum (set_i_dev dev (ic ip))))))).

Definition scan_step (dev inum : Z) (ip : nat) (empty : option nat) : M st (option nat + nat) :=
  let* x := getip ip (fun x => x) in
  if (0 <? i_ref x) && (i_dev x =? dev) && (i_inum x =? inum) then
    set_ip ip (fun x => set_i_ref (i_ref x + 1) x) ;;;
    unlock_ IcacheLock ;;;
    ret (inr ip)
  else
    ret (inl (match empty with
              | None => if i_ref x =? 0 then Some ip else None
              | Some e => Some e
              end)).

Lemma scan_ok dev inum l e s :
  match find (is_inode (s_ic s) dev inum) l with
  | Some ip => scanM l e (scan_step dev inum) s = (set_ip ip (fun x => set_i_ref (i_ref x + 1) x) ;;; unlock_ IcacheLock ;;; ret (inr ip)) s
  | None => scanM l e (scan_step dev inum) s = Ok (inl (match e with Some _ => e | None => find (is_free (s_ic s)) l end)) s
  end.
Proof.
  revert e. induction l as [|ip l IH]; intros e; [by destruct e|]. cbn [find scanM]. destruct (is_inode (s_ic s) dev inum ip) eqn:Em.
  - unfold scan_step at 1, getip, gets, bind. unfold is_inode in Em. rewrite Em. destruct (set_ip _ _ _); [|done..]. by destruct (unlock_ _ _).
  - set (e' := match e with Some _ => e | None => if is_free (s_ic s) ip then Some ip else None end).
    assert (E : scan_step dev inum ip e s = Ok (inl e') s) by (unfold scan_step, getip, gets, bind, is_inode in *; rewrite Em; unfold e'; by destruct e).
    rewrite (bind_run _ _ _ _ _ E). specialize (IH e'). destruct (find (is_inode _ _ _) l); [exact IH|]. rewrite IH. unfold e'. destruct e; [done|]. by destruct (is_free (s_ic s) ip).
Qed.

Lemma fs_put_ic V hs bs ic s ic' : fs V hs bs ic s -> fs V hs bs ic' (set_s_ic ic' s).
Proof.
  intros [F1 F2 F3 F4 F5 F6 F7 F8]. split; try done.
  - by apply (bio_frame _ _ _ _ _ s).
  - by apply frame_ic.
Qed.

Lemma iget_ok V hs bs ic s dev inum : fs V hs bs ic s -> (exists j, (j < NINODE)%nat /\ (is_inode ic dev inum j = true \/ is_free ic j = true)) ->
  exists ip ic' s', iget dev inum s = Ok ip s' /\ fs V hs bs ic' s' /\ igot ic dev inum ip ic'.
Proof.
  intros Hf (j & Hj & Hj'). assert (Hq := bio_quiet _ _ _ _ _ _ (fs_bio _ _ _ _ _ _ _ _ _ _ Hf)). assert (Hic := fs_ic _ _ _ _ _ _ _ _ _ _ Hf).
  set (s1 := set_s_core (acq IcacheLock (s_core s)) s). assert (Hic1 : s_ic s1 = ic) by exact Hic.
  unfold iget. rewrite (bind_run _ _ _ _ _ (lock_quiet IcacheLock i s Hq)). fold s1.
  change (bind (scanM (seq 0 NINODE) None ?b) ?k s1) with (bind (scanM (seq 0 NINODE) None (scan_step dev inum)) k s1).
  pose proof (scan_ok dev inum (seq 0 NINODE) None s1) as Hscan. rewrite Hic1 in Hscan.
  assert (Hun : forall f, unlock_ IcacheLock (set_s_ic f s1) = Ok tt (set_s_ic f s)).
  { intros f. rewrite (unlock_quiet _ i (s_core s)) by done. f_equal. by destruct s as [[]]. }
  destruct (find (is_inode ic dev inum) (seq 0 NINODE)) as [ip|] eqn:Ef.
  - apply find_some in Ef as [Hin Hm]. apply in_seq in Hin. unfold set_ip, modify, bind in Hscan. rewrite Hic1 in Hscan. rewrite Hun in Hscan. rewrite (bind_run _ _ _ _ _ Hscan).
    eexists ip, _, _. split; [reflexivity|]. split; [by eapply fs_put_ic|]. split; [lia|left; done].
  - rewrite (bind_run _ _ _ _ _ Hscan). destruct (find (is_free ic) (seq 0 NINODE)) as [ip|] eqn:Ee.
    + apply find_some in Ee as [Hin Hm]. apply in_seq in Hin. unfold set_ip, modify, bind. cbn [s_ic set_s_ic]. rewrite Hic1, !fupd_eq, !fupd_fupd.
      assert (Hss : forall a b t, set_s_ic a (set_s_ic b t) = set_s_ic a t) by done. rewrite !Hss, Hun. cbn [ret]. eexists ip, _, _. split; [reflexivity|]. split; [by eapply fs_put_ic|].
      split; [lia|right]. split_and!; [|done|done]. intros k Hk. eapply find_none in Ef; [exact Ef|]. apply in_seq. lia.
    + exfalso. destruct Hj' as [Hj'|Hj'].
      * eapply find_none in Ef; [|apply in_seq; split; [lia|exact Hj]]. congruence.
      * eapply find_none in Ee; [|apply in_seq; split; [lia|exact Hj]]. congruence.
Qed.

(** ** dirlookup() *)

(** A directory: a file of entries. *)
Definition dir_ok (V : Z -> list byte) (x : inode) : Prop := i_type x = T_DIR /\ file_ok V x /\ sized V x /\ i_size x mod 16 = 0.

(** One entry, as dirlookup() and dirlink() read it. *)
Lemma read_entry V bs ic s dp k : fs V [] bs ic s -> dir_ok V (ic dp) -> (length bs < NBUF)%nat -> (k < Z.to_nat (i_size (ic dp) / 16))%nat ->
  exists s', readi dp (Local []) (16 * Z.of_nat k) sizeof_dirent s = Ok (sizeof_dirent, entry V (ic dp) k) s' /\ fs V [] bs ic s'.
Proof.
  intros Hf (_ & Hfile & Hsized & Hm) Hbs Hk. pose proof Hsized as [Hs _]. change (MAXFILE * BSIZE) with 274432 in Hs. pose proof (Z.div_mod (i_size (ic dp)) 16 ltac:(lia)).
  destruct (readi_ok i start o sb s0 nmeta HL V bs ic s dp [] (16 * Z.of_nat k) sizeof_dirent Hf Hfile Hsized Hbs) as (s' & E & F); [lia|done|unfold sizeof_dirent; lia|].
  exists s'. split; [|done]. rewrite E. replace (Z.max 0 (Z.min sizeof_dirent (i_size (ic dp) - 16 * Z.of_nat k))) with 16 by (unfold sizeof_dirent; lia). done.
Qed.

Definition none_before (P : list byte -> Prop) (l : list (list byte)) (k : nat) : Prop := forall j e, (j < k)%nat -> l !! j = Some e -> ~ P e.

Lemma none_before_S P l k e : none_before P l k -> l !! k = Some e -> ~ P e -> none_before P l (S k).
Proof. intros Hn He HP j e' Hj Hj'. destruct (decide (j = k)) as [->|]; [by simplify_eq|]. apply (Hn j); [lia|done]. Qed.

Lemma find_first P `{!forall e : list byte, Decision (P e)} l k e : none_before P l k -> l !! k = Some e -> P e -> list_find P l = Some (k, e).
Proof. intros Hn He HP. apply list_find_Some. split_and!; [done|done|]. intros j y Hj Hjk. by apply (Hn j). Qed.

Lemma find_nothing P `{!forall e : list byte, Decision (P e)} l : none_before P l (length l) -> list_find P l = None.
Proof. intros Hn. apply list_find_None, Forall_forall. intros e [j Hj]%list_elem_of_lookup. apply (Hn j); [by eapply lookup_lt_Some|done]. Qed.

(** Room in the table of inodes for any inode. *)
Definition inode_room (ic : nat -> inode) : Prop := exists j, (j < NINODE)%nat /\ is_free ic j = true.

(** dirlookup() finds what the map has. *)
Definition looked_up (V : Z -> list byte) (bs : list Z) (ic : nat -> inode) (dp : nat) (name : list byte) (r : option (nat * Z)) (s' : st) : Prop :=
  match list_find (matches name) (entries V (ic dp)) with
  | Some (k, e) => exists ip ic', r = Some (ip, 16 * Z.of_nat k) /\ fs V [] bs ic' s' /\ igot ic (i_dev (ic dp)) (de_inum e) ip ic'
  | None => r = None /\ fs V [] bs ic s'
  end.

Lemma dirlookup_ok V bs ic s dp name : fs V [] bs ic s -> dir_ok V (ic dp) -> (length bs < NBUF)%nat -> inode_room ic ->
  exists r s', dirlookup dp name s = Ok r s' /\ looked_up V bs ic dp name r s'.
Proof.
  intros Hf Hdir Hbs (j0 & Hj0 & Hfree). set (x := ic dp) in *. set (N := Z.to_nat (i_size x / 16)). pose proof Hdir as (Ht & Hfile & [Hs _] & Hm).
  change (MAXFILE * BSIZE) with 274432 in Hs. pose proof (Z.div_mod (i_size x) 16 ltac:(lia)) as Hdm. assert (HN : i_size x = 16 * Z.of_nat N) by (unfold N; rewrite Z2Nat.id by (apply Z.div_pos; lia); lia).
  enough (wp (dirlookup dp name) (looked_up V bs ic dp name) s) as W by (apply wp_elim in W as (r & s' & E & Hr); eauto).
  unfold dirlookup. run (fs_getip _ _ _ _ _ _ _ _ _ _ dp i_type Hf). fold x. rewrite Ht. cbn [Z.eqb negb T_DIR].
  apply (wp_loop _ (fun j off s' => exists k, (k <= N)%nat /\ j = Z.of_nat (N - k) /\ off = 16 * Z.of_nat k /\ fs V [] bs ic s' /\ none_before (matches name) (entries V x) k)) with (n := Z.of_nat N).
  - intros j off s' _ (k & Hk & -> & -> & F & Hn). run (fs_getip _ _ _ _ _ _ _ _ _ _ dp i_size F). fold x. destruct (Z.ltb_spec (16 * Z.of_nat k) (i_size x)) as [Hlt|Hge].
    2: { apply wp_ret. unfold looked_up. fold x. assert (k = N) as -> by lia. rewrite find_nothing; [done|]. by rewrite length_entries. }
    assert (He := entries_lookup V x k ltac:(lia)). destruct (read_entry V bs ic s' dp k F Hdir Hbs ltac:(fold x N; lia)) as (s1 & E1 & F1). run E1. fold x. cbn [Z.eqb negb sizeof_dirent Pos.eqb].
    assert (Hnext : forall s2, fs V [] bs ic s2 -> ~ matches name (entry V x k) -> exists n', 0 <= n' < Z.of_nat (N - k) /\ exists k0, (k0 <= N)%nat /\ n' = Z.of_nat (N - k0) /\
      u32 (16 * Z.of_nat k + 16) = 16 * Z.of_nat k0 /\ fs V [] bs ic s2 /\ none_before (matches name) (entries V x) k0).
    { intros s2 F2 Hno. exists (Z.of_nat (N - S k)). split; [lia|]. exists (S k). split_and!; [lia|done|rewrite u32_small; lia|done|by apply (none_before_S _ _ _ (entry V x k))]. }
    destruct (Z.eqb_spec (de_inum (entry V x k)) 0) as [E0|E0]; [apply wp_ret, Hnext; [done|by intros [? _]]|].
    unfold namecmp. destruct (Z.eqb_spec (strncmp_arr DIRSIZ name (de_name (entry V x k))) 0) as [Ec|Ec].
    + apply strncmp_arr_eq in Ec. assert (Hmt : matches name (entry V x k)) by by split. run (fs_getip _ _ _ _ _ _ _ _ _ _ dp i_dev F1). fold x.
      destruct (iget_ok V [] bs ic s1 (i_dev x) (de_inum (entry V x k)) F1) as (ip & ic' & s2 & E2 & F2 & Hg); [exists j0; split; [done|by right]|]. run E2. apply wp_ret.
      unfold looked_up. fold x. rewrite (find_first _ _ k (entry V x k)) by done. by exists ip, ic'.
    + apply wp_ret, Hnext; [done|]. intros [_ Hsn]. by apply Ec, strncmp_arr_eq.
  - unfold N. lia.
  - exists 0%nat. split_and!; [lia|lia|done|done|]. intros j e Hj. lia.
Qed.

(** ** iput() of an inode that stays *)

Lemma iput_stays V bs ic s ip : fs V [] bs ic s -> i_ref (ic ip) <> 1 \/ i_valid (ic ip) = 0 ->
  exists s', iput ip s = Ok tt s' /\ fs V [] bs (fupd ic ip (set_i_ref (i_ref (ic ip) - 1) (ic ip))) s'.
Proof.
  intros Hf Hc. assert (Hq := bio_quiet _ _ _ _ _ _ (fs_bio _ _ _ _ _ _ _ _ _ _ Hf)). assert (Hic := fs_ic _ _ _ _ _ _ _ _ _ _ Hf).
  eexists. split; [|by eapply fs_put_ic]. unfold iput. rewrite (bind_run _ _ _ _ _ (lock_quiet IcacheLock i s Hq)).
  set (s1 := set_s_core (acq IcacheLock (s_core s)) s). assert (Hic1 : s_ic s1 = ic) by exact Hic. unfold getip, gets, bind at 1. rewrite Hic1.
  assert (Ec : (i_ref (ic ip) =? 1) && negb (i_valid (ic ip) =? 0) && (i_nlink (ic ip) =? 0) = false).
  { destruct Hc as [Hc|Hc]; [by rewrite (proj2 (Z.eqb_neq _ _) Hc)|]. rewrite Hc. by rewrite andb_false_r. }
  rewrite Ec. unfold when, set_ip, modify, ret, bind. rewrite Hic1, (unlock_quiet _ i (s_core s)) by done. f_equal. by destruct s as [[]].
Qed.

(** ** dirlink() *)

(** The file after an entry was stored at place [k]. *)
Lemma splice_entry (L de : list byte) k j : length de = 16%nat -> (16 * k <= length L)%nat -> j <> k -> (16 * j + 16 <= length L)%nat ->
  take 16 (drop (16 * j) (take (16 * k) L ++ de ++ drop (16 * k + 16) L)) = take 16 (drop (16 * j) L).
Proof.
  intros Hd Hk Hne Hj. apply list_eq. intros a. destruct (decide (a < 16)%nat); [|by rewrite !lookup_take_ge by lia]. rewrite !lookup_take_lt, !lookup_drop by done.
  destruct (decide (j < k)%nat).
  - rewrite lookup_app_l by (rewrite length_take; lia). by rewrite lookup_take_lt by lia.
  - rewrite lookup_app_r, length_take_le, lookup_app_r, Hd, lookup_drop by (rewrite ?length_take_le; lia). f_equal. lia.
Qed.

Lemma new_entries V x V' x' de k : file_written sb nmeta V x (16 * Z.of_nat k) de V' x' -> length de = 16%nat -> 0 <= i_size x -> i_size x mod 16 = 0 -> 16 * Z.of_nat k <= i_size x ->
  i_size x' mod 16 = 0 /\ entry V' x' k = de /\ (k < Z.to_nat (i_size x' / 16))%nat /\ Z.to_nat (i_size x' / 16) = Nat.max (Z.to_nat (i_size x / 16)) (S k) /\
  forall j, (j < Z.to_nat (i_size x / 16))%nat -> j <> k -> entry V' x' j = entry V x j.
Proof.
  intros Hw Hd Hs Hm Hk. pose proof (Z.div_mod (i_size x) 16 ltac:(lia)) as Hdm. set (N := i_size x / 16) in *. assert (0 <= N) by (apply Z.div_pos; lia).
  assert (Es : i_size x' = 16 * Z.max N (Z.of_nat k + 1)) by (rewrite (fw_size _ _ _ _ _ _ _ _ Hw), Hd; lia).
  assert (Ed : i_size x' / 16 = Z.max N (Z.of_nat k + 1)) by (rewrite Es, Z.mul_comm; apply Z.div_mul; lia).
  assert (Hlen : length (file_bytes V x) = (16 * Z.to_nat N)%nat) by (unfold file_bytes; rewrite length_content; lia).
  assert (Hent : forall V x j, (16 * j + 16 <= Z.to_nat (i_size x))%nat -> entry V x j = take 16 (drop (16 * j) (file_bytes V x))).
  { intros W y j Hj. unfold entry, file_bytes. rewrite <- content_sub by lia. f_equal. lia. }
  assert (Hb := fw_bytes _ _ _ _ _ _ _ _ Hw). rewrite Hd in Hb. replace (Z.to_nat (16 * Z.of_nat k)) with (16 * k)%nat in Hb by lia. split_and!.
  - rewrite Es, Z.mul_comm. by apply Z.mod_mul.
  - rewrite Hent, Hb by lia. rewrite drop_app_length' by (rewrite length_take_le, ?Hlen; lia). by rewrite take_app_length' by done.
  - lia.
  - lia.
  - intros j Hj Hne. rewrite Hent, Hb by lia. rewrite splice_entry by (rewrite ?Hlen; lia). by rewrite Hent by lia.
Qed.

(** Where dirlink() stores: the first unused entry, or the end. *)
Lemma find_slot V bs ic s dp : fs V [] bs ic s -> dir_ok V (ic dp) -> (length bs < NBUF)%nat ->
  exists k s', loop (fun off =>
        let* size := getip dp i_size in
        if u32 off <? size then
          let* r := readi dp (Local []) off sizeof_dirent in
          let '(n, de) := r in
          if negb (n =? sizeof_dirent) then panic "dirlink read"
          else if de_inum de =? 0 then ret (inr off)
          else ret (inl (off + sizeof_dirent))
        else ret (inr off)) 0 s = Ok (16 * Z.of_nat k) s' /\ fs V [] bs ic s' /\ 16 * Z.of_nat k <= i_size (ic dp) /\
    ((k < Z.to_nat (i_size (ic dp) / 16))%nat -> de_inum (entry V (ic dp) k) = 0).
Proof.
  intros Hf Hdir Hbs. set (x := ic dp) in *. set (N := Z.to_nat (i_size x / 16)). pose proof Hdir as (_ & _ & [Hs _] & Hm).
  change (MAXFILE * BSIZE) with 274432 in Hs. pose proof (Z.div_mod (i_size x) 16 ltac:(lia)) as Hdm. assert (HN : i_size x = 16 * Z.of_nat N) by (unfold N; rewrite Z2Nat.id by (apply Z.div_pos; lia); lia).
  match goal with |- context [loop ?b 0 s] => enough (wp (loop b 0) (fun r s' => exists k, r = 16 * Z.of_nat k /\ fs V [] bs ic s' /\ 16 * Z.of_nat k <= i_size x /\ ((k < N)%nat -> de_inum (entry V x k) = 0)) s) as W end.
  { apply wp_elim in W as (r & s' & E & k & -> & Hr). eauto. }
  apply (wp_loop _ (fun j off s' => exists k, (k <= N)%nat /\ j = Z.of_nat (N - k) /\ off = 16 * Z.of_nat k /\ fs V [] bs ic s')) with (n := Z.of_nat N).
  - intros j off s' _ (k & Hk & -> & -> & F). run (fs_getip _ _ _ _ _ _ _ _ _ _ dp i_size F). fold x. rewrite u32_small by lia.
    destruct (Z.ltb_spec (16 * Z.of_nat k) (i_size x)) as [Hlt|Hge]; [|apply wp_ret; exists k; split_and!; [done|done|lia|lia]].
    destruct (read_entry V bs ic s' dp k F Hdir Hbs ltac:(fold x N; lia)) as (s1 & E1 & F1). run E1. fold x. cbn [Z.eqb negb sizeof_dirent Pos.eqb].
    destruct (Z.eqb_spec (de_inum (entry V x k)) 0) as [E0|E0]; apply wp_ret.
    + exists k. split_and!; [done|done|lia|done].
    + exists (Z.of_nat (N - S k)). split; [lia|]. exists (S k). split_and!; [lia|done|unfold sizeof_dirent; lia|done].
  - unfold N. lia.
  - exists 0%nat. split_and!; [lia|lia|done|done].
Qed.

Definition dirent (inum : Z) (name : list byte) : list byte := le_split 2 inum ++ strncpy_arr DIRSIZ name.

Lemma dirent_ok inum name : 0 < inum < 2 ^ 16 -> length (dirent inum name) = 16%nat /\ de_inum (dirent inum name) = inum /\ forall n2, matches n2 (dirent inum name) <-> same_name n2 name.
Proof.
  intros Hi. assert (E : de_inum (dirent inum name) = inum).
  { unfold de_inum, get_le, dirent. change (Z.to_nat 0) with 0%nat. rewrite drop_0, take_app_length' by by rewrite length_le_split. rewrite le_combine_split. apply Z.mod_small. change (Z.of_nat 2 * 8) with 16. lia. }
  split_and!; [unfold dirent; by rewrite length_app, length_le_split, length_strncpy|done|]. intros n2. unfold matches. rewrite E. unfold de_name, dirent, same_name.
  rewrite drop_app_length' by by rewrite length_le_split. rewrite cut_pad. split; [tauto|split; [lia|done]].
Qed.

(** The map after dirlink(). *)
Lemma map_insert l l' k inum name n2 : 0 < inum < 2 ^ 16 -> list_find (matches name) l = None -> (k <= length l)%nat -> (forall e, l !! k = Some e -> de_inum e = 0) ->
  l' !! k = Some (dirent inum name) -> (forall j, j <> k -> l' !! j = l !! j) ->
  (fun p : nat * list byte => de_inum p.2) <$> list_find (matches n2) l' =
  if decide (same_name n2 name) then Some inum else (fun p : nat * list byte => de_inum p.2) <$> list_find (matches n2) l.
Proof.
  intros Hi Hno Hk Hslot Hnew Hold. destruct (dirent_ok inum name Hi) as (_ & Ei & Hm). apply list_find_None in Hno. case_decide as Hs.
  - assert (Hn : none_before (matches n2) l' k).
    { intros j e Hj He [Hu Hn]. rewrite Hold in He by lia. rewrite Forall_forall in Hno. apply (Hno e); [by eapply list_elem_of_lookup_2|]. split; [done|]. unfold same_name in *. congruence. }
    rewrite (find_first _ _ k (dirent inum name)); [cbn; by rewrite Ei|done|done|by apply Hm].
  - assert (Hout : forall e, l !! k = Some e -> ~ matches n2 e) by (intros e He [Hu _]; by apply Hu, Hslot). destruct (list_find (matches n2) l) as [[j e]|] eqn:Ef.
    + apply list_find_Some in Ef as (He & Hme & Hb). assert (j <> k) by (intros ->; by apply (Hout e)).
      rewrite (find_first _ _ j e); [done| |by rewrite Hold|done]. intros a y Ha Hy. destruct (decide (a = k)) as [->|]; [|rewrite Hold in Hy by done; by apply (Hb a)].
      simplify_eq. by rewrite Hm.
    + apply list_find_None in Ef. rewrite find_nothing; [done|]. intros a y _ Hy. destruct (decide (a = k)) as [->|]; [simplify_eq; by rewrite Hm|].
      rewrite Hold in Hy by done. rewrite Forall_forall in Ef. apply Ef. by eapply list_elem_of_lookup_2.
Qed.

(** C10: dirlookup() reads a directory as a map from names to inode numbers.  If the
    map has the name, it returns an inode of the table with that number, with one
    more reference, and the offset of the entry; otherwise nothing, and the table
    of inodes is unchanged.  No block is modified. *)
Theorem dirlookup_correct V bs ic s dp name : fs V [] bs ic s -> dir_ok V (ic dp) -> (length bs < NBUF)%nat -> inode_room ic ->
  exists r s', dirlookup dp name s = Ok r s' /\
    match dir_lookup V (ic dp) name with
    | Some inum => exists ip off ic', r = Some (ip, off) /\ fs V [] bs ic' s' /\ i_inum (ic' ip) = inum /\ i_dev (ic' ip) = i_dev (ic dp) /\
        i_ref (ic' ip) = i_ref (ic ip) + 1 /\ (forall j, j <> ip -> ic' j = ic j)
    | None => r = None /\ fs V [] bs ic s'
    end.
Proof.
  intros Hf Hdir Hbs Hroom. destruct (dirlookup_ok V bs ic s dp name Hf Hdir Hbs Hroom) as (r & s' & E & Hr). exists r, s'. split; [done|].
  unfold looked_up in Hr. unfold dir_lookup. destruct (list_find _ _) as [[k e]|]; [|done]. destruct Hr as (ip & ic' & -> & F & _ & Hg). cbn [fmap option_fmap option_map snd].
  exists ip, (16 * Z.of_nat k), ic'. destruct Hg as [[Hi ->]|(_ & Hfr & ->)].
  - unfold is_inode in Hi. bools. rewrite fupd_eq. split_and!; try done. intros j Hj. by rewrite fupd_ne.
  - unfold is_free in Hfr. bools. rewrite fupd_eq. split_and!; try done; [cbn; lia|]. intros j Hj. by rewrite fupd_ne.
Qed.

(** C9: dirlink() adds a name to a directory.  If the map of the directory has the
    name it returns -1, and no block is modified; otherwise it returns 0, and the
    map of the directory is the old one with the name bound to the inode number,
    whether an unused entry is reused or the directory grows; every other name
    keeps its number. *)
Theorem dirlink_correct V bs ic s dp name inum : let x := ic dp in
  fs V [] bs ic s -> 1 <= o -> dir_ok V x -> meta_ok sb nmeta V -> 0 <= i_inum x < sb_ninodes sb -> inode_room ic -> 0 < inum < 2 ^ 16 ->
  i_size x + 16 <= MAXFILE * BSIZE -> Z.of_nat (length bs) + 6 <= LOGSIZE - 2 -> free_blocks sb nmeta V 2 ->
  exists r s', dirlink dp name inum s = Ok r s' /\
    match dir_lookup V x name with
    | Some _ => r = -1 /\ exists ic', fs V [] bs ic' s'
    | None => r = 0 /\ exists V' x' bs', fs V' [] bs' (fupd ic dp x') s' /\ dir_ok V' x' /\
        forall n2, dir_lookup V' x' n2 = if decide (same_name n2 name) then Some inum else dir_lookup V x n2
    end.
Proof.
  intros x Hf Ho Hdir Hmeta Hi Hroom Hinum Hsz Hlog Hfree. unfold LOGSIZE, MAXOPBLOCKS in Hlog. assert (Hbs : (length bs < NBUF)%nat) by (unfold NBUF; lia).
  destruct (dirlookup_ok V bs ic s dp name Hf Hdir Hbs Hroom) as (r & s1 & E1 & Hr). unfold looked_up in Hr. fold x in Hr. unfold dirlink. rewrite (bind_run _ _ _ _ _ E1).
  unfold dir_lookup at 1. destruct (list_find (matches name) (entries V x)) as [[k e]|] eqn:Ef; cbn [fmap option_fmap option_map].
  { destruct Hr as (ip & ic' & -> & F & _ & Hg). destruct (iput_stays V bs ic' s1 ip F) as (s2 & E2 & F2).
    { destruct Hg as [[Hm ->]|(_ & _ & ->)]; rewrite fupd_eq; [left|by right]. unfold is_inode in Hm. bools. cbn. lia. }
    exists (-1), s2. rewrite (bind_run _ _ _ _ _ E2). split; [done|]. split; [done|]. by eexists. }
  destruct Hr as [-> F1]. destruct (find_slot V bs ic s1 dp F1 Hdir Hbs) as (k & s2 & E2 & F2 & Hk & Hslot). fold x in Hk, Hslot. rewrite (bind_run _ _ _ _ _ E2).
  fold (dirent inum name). destruct (dirent_ok inum name Hinum) as (Hdl & _ & _). pose proof Hdir as (Ht & Hfile & Hsized & Hm). pose proof Hsized as [Hs _].
  pose proof (Z.div_mod (i_size x) 16 ltac:(lia)) as Hdm. assert (Hleft : left (dirent inum name) (16 * Z.of_nat k) 0 = 1).
  { unfold left. rewrite Hdl. change (Z.of_nat 16) with 16. change (0 <? 16) with true. cbv iota. rewrite Z.add_0_r.
    assert (H16 : 0 <= 16 * Z.of_nat k mod BSIZE <= BSIZE - 16).
    { unfold BSIZE. replace (16 * Z.of_nat k mod 1024) with (16 * (Z.of_nat k mod 64)) by (change 1024 with (16 * 64); by rewrite Z.mul_mod_distr_l). pose proof (Z.mod_pos_bound (Z.of_nat k) 64 ltac:(lia)). lia. }
    destruct (same_block (16 * Z.of_nat k) 15) as [E15 _]; [lia|lia|]. replace (16 * Z.of_nat k + 16 - 1) with (16 * Z.of_nat k + 15) by lia. lia. }
  destruct (writei_ok i start o sb s0 nmeta HL V bs ic s2 dp (dirent inum name) (16 * Z.of_nat k) F2 Ho Hfile Hsized Hmeta Hi) as (V' & x' & bs' & s3 & E3 & F3 & Hw);
    [split; [lia|exact Hk]|rewrite Hdl; lia|rewrite Hdl; lia|rewrite Hleft; unfold LOGSIZE, MAXOPBLOCKS; lia|by rewrite Hleft|].
  rewrite Hdl in E3. change (Z.of_nat 16) with sizeof_dirent in E3. rewrite (bind_run _ _ _ _ _ E3). cbn [Z.eqb sizeof_dirent Pos.eqb negb].
  exists 0, s3. split; [done|]. split; [done|]. exists V', x', bs'. split; [done|].
  destruct (new_entries V x V' x' (dirent inum name) k Hw Hdl) as (Hm' & Hek & Hkl & Hlen & Hej); [lia|done|done|]. destruct (fw_file _ _ _ _ _ _ _ _ Hw) as (Hf' & Hs' & _).
  split; [split_and!; [rewrite (fw_attr _ _ _ _ _ _ _ _ Hw); exact Ht|done|done|done]|]. intros n2. unfold dir_lookup. apply (map_insert _ _ k); [done|done|rewrite length_entries; lia| | |].
  - intros e He. assert (Hkn := lookup_lt_Some _ _ _ He). rewrite length_entries in Hkn. rewrite entries_lookup in He by done. simplify_eq. by apply Hslot.
  - rewrite entries_lookup by done. by rewrite Hek.
  - intros j Hj. destruct (decide (j < Z.to_nat (i_size x / 16))%nat) as [Hjn|Hjn]; [rewrite !entries_lookup by lia; by rewrite Hej|].
    rewrite !lookup_ge_None_2; [done|rewrite length_entries; lia..].
Qed.
End Dir.

(** ** Examples *)

Section Witness.
#[local] Existing Instances image8 world0 symbols0 ram_disk ram_disk_ok.

(** An empty directory in the first slot of the table of inodes. *)
Definition empty_dir : inode := set_i_type T_DIR empty_file.
Definition ic3 : nat -> inode := fupd (fun _ => mkinode 0 0 0 0 0 0 0 0 0 (List.repeat 0 13)) 0%nat empty_dir.
Definition st_dir : st := set_s_ic ic3 (st0 disk2).

Lemma idle_dir : idle 0 2 st_dir.
Proof. destruct idle2 as [Hb Ht Hh]. split; [|done|done]. apply (bio_frame 0 _ _ _ _ st2); done. Qed.

Lemma dir3 : dir_ok sb0 46 disk2 (ic3 0%nat).
Proof. destruct (file2 disk2) as [Hf Hs]. unfold ic3. rewrite fupd_eq. split_and!; [done|exact Hf|exact Hs|done]. Qed.

Lemma room3 : inode_room ic3.
Proof. exists 1%nat. by split; [unfold NINODE; lia|]. Qed.

Lemma dirlookup_correct_witness : exists s1 s2, begin_op st_dir = Ok tt s1 /\ dirlookup 0 [Byte.x61] s1 = Ok None s2.
Proof.
  destruct (begin_fs 0 2 sb0 st_dir idle_dir eq_refl) as (s1 & E1 & F1).
  destruct (dirlookup_correct 0 2 1 sb0 st_dir 46 layout0 disk2 [] ic3 s1 0 [Byte.x61] F1 dir3) as (r & s2 & E2 & Hr).
  - unfold NBUF. cbn. lia.
  - exact room3.
  - exists s1, s2. split; [exact E1|]. replace (dir_lookup disk2 (ic3 0%nat) [Byte.x61]) with (@None Z) in Hr by reflexivity. destruct Hr as [-> _]. exact E2.
Defined.

Lemma dirlink_correct_witness : exists s1 s2 V' x', begin_op st_dir = Ok tt s1 /\ dirlink 0 [Byte.x61] 7 s1 = Ok 0 s2 /\ s_ic s2 0%nat = x' /\
  dir_lookup V' x' [Byte.x61] = Some 7.
Proof.
  destruct (begin_fs 0 2 sb0 st_dir idle_dir eq_refl) as (s1 & E1 & F1).
  destruct (dirlink_correct 0 2 1 sb0 st_dir 46 layout0 disk2 [] ic3 s1 0 [Byte.x61] 7 F1) as (r & s2 & E2 & Hr).
  - lia.
  - exact dir3.
  - exact meta2.
  - by vm_compute.
  - exact room3.
  - lia.
  - by vm_compute.
  - by vm_compute.
  - exact free2.
  - replace (dir_lookup disk2 (ic3 0%nat) [Byte.x61]) with (@None Z) in Hr by reflexivity. destruct Hr as (-> & V' & x' & bs' & F2 & _ & Hm).
    exists s1, s2, V', x'. split; [exact E1|]. split; [exact E2|]. split; [rewrite (fs_ic _ _ _ _ _ _ _ _ _ _ F2); apply fupd_eq|].
    rewrite Hm. reflexivity.
Defined.
End Witness.
