(* ===== verification/Mkfs.v ===== *)
(** mkfs (mkfs/mkfs.c): the program that runs on the host and makes the disk
    image the kernel boots with.

    The image is a file of the host, kept as its sectors; what the host's system
    calls answer is the class [Host].  A struct dinode and a struct dirent are
    their bytes.  An assertion that fails and exit(1) are [Panic]; the
    progress messages are left out. *)

From stdpp Require Import base tactics list strings.
From Stdlib Require Import ZArith Lia.
From coqutil Require Import Byte Word.LittleEndianList.
From S2P Require Import Prelude Riscv Mem Core State Virtio Block Log Fs.

Local Open Scope Z_scope.
Local Open Scope kern_scope.

Definition NINODES : Z := 200.
Definition nbitmap : Z := FSSIZE / (BSIZE * 8) + 1.
Definition ninodeblocks : Z := NINODES / IPB + 1.
Definition nlog : Z := LOGSIZE.
Definition nmeta : Z := 2 + nlog + ninodeblocks + nbitmap.
Definition nblocks : Z := FSSIZE - nmeta.
Definition zeroes : list byte := List.repeat Byte.x00 (Z.to_nat BSIZE).

(** The global variables: the sectors of the image and how many the file has, the
    superblock, the next inode number and the next block. *)
Record image := mkimage {
  m_img : Z -> list byte;
  m_end : Z;
  m_sb : superblock;
  m_freeinode : Z;
  m_freeblock : Z
}.

Definition set_m_img img e (s : image) := mkimage img e (m_sb s) (m_freeinode s) (m_freeblock s).
Definition set_m_sb v (s : image) := mkimage (m_img s) (m_end s) v (m_freeinode s) (m_freeblock s).
Definition set_m_freeinode v (s : image) := mkimage (m_img s) (m_end s) (m_sb s) v (m_freeblock s).
Definition set_m_freeblock v (s : image) := mkimage (m_img s) (m_end s) (m_sb s) (m_freeinode s) v.

(** What the host answers: whether the image can be created; what lseek() and
    write() return for the image, and read() inside it; for a file to
    copy, nothing if open() fails, or else the bytes of each read() that
    returns some. *)
Class Host := {
  host_create : list byte -> bool;
  host_lseek : Z -> Z;
  host_write : Z -> Z;
  host_read : Z -> Z;
  host_file : list byte -> option (list (list byte));
}.

(** ** Byte order *)

Definition xshort (x : Z) : Z := le_combine [byte.of_Z x; byte.of_Z (Z.shiftr x 8)].
Definition xint (x : Z) : Z :=
  le_combine [byte.of_Z x; byte.of_Z (Z.shiftr x 8); byte.of_Z (Z.shiftr x 16); byte.of_Z (Z.shiftr x 24)].

(** din.size and din.addrs[i], and their updates *)
Definition din_size (din : list byte) : Z := get32 din 8.
Definition put_din_size (v : Z) (din : list byte) : list byte := put32 din 8 v.
Definition din_addr (din : list byte) (i : Z) : Z := get32 din (12 + 4 * i).
Definition put_din_addr (i v : Z) (din : list byte) : list byte := put32 din (12 + 4 * i) v.

Section Mkfs.
Context `{Host}.

(** ** Sectors *)

Definition wsect (sec : Z) (buf : list byte) : M image unit :=
  let off := u32 (sec * BSIZE) in
  if negb (host_lseek off =? off) then panic "lseek"
  else if negb (host_write off =? BSIZE) then panic "write"
  else modify (fun s => set_m_img (fupd (m_img s) (off / BSIZE) buf) (Z.max (m_end s) (off / BSIZE + 1)) s).

Definition rsect (sec : Z) : M image (list byte) :=
  let off := u32 (sec * BSIZE) in
  if negb (host_lseek off =? off) then panic "lseek"
  else
    let* e := gets m_end in
    if negb ((if off / BSIZE <? e then host_read off else 0) =? BSIZE) then panic "read"
    else gets (fun s => m_img s (off / BSIZE)).

(** ** Inodes *)

Definition winode (inum : Z) (ip : list byte) : M image unit :=
  let* sb := gets m_sb in
  let bn := IBLOCK inum sb in
  let* buf := rsect bn in
  wsect bn (put_bytes buf (inum mod IPB * sizeof_dinode) ip).

Definition rinode (inum : Z) : M image (list byte) :=
  let* sb := gets m_sb in
  let bn := IBLOCK inum sb in
  let* buf := rsect bn in
  ret (sub buf (inum mod IPB * sizeof_dinode) 64).

Definition ialloc (type : Z) : M image Z :=
  let* inum := gets m_freeinode in
  modify (set_m_freeinode (u32 (inum + 1))) ;;;
  let din := List.repeat Byte.x00 64 in
  let din := put_le din 0 2 (xshort type) in
  let din := put_le din 6 2 (xshort 1) in
  let din := put_din_size (xint 0) din in
  winode inum din ;;;
  ret inum.

(** ** Blocks *)

Definition balloc (used : Z) : M image unit :=
  if negb (used <? BSIZE * 8) then panic "used < BSIZE*8"
  else
    let* buf := loop (fun '(i, buf) =>
      if i <? used then ret (inl (i + 1, put_dbyte buf (i / 8) (Z.lor (dbyte buf (i / 8)) (Z.shiftl 1 (i mod 8)))))
      else ret (inr buf)) (0, List.repeat Byte.x00 (Z.to_nat BSIZE)) in
    let* sb := gets m_sb in
    wsect (sb_bmapstart sb) buf.

(** freeblock++ *)
Definition next_block : M image Z :=
  let* b := gets m_freeblock in
  modify (set_m_freeblock (u32 (b + 1))) ;;;
  ret b.

(** din.addrs[i], given a block if it has none. *)
Definition fill_addr (i : Z) (din : list byte) : M image (list byte) :=
  if xint (din_addr din i) =? 0 then
    let* b := next_block in
    ret (put_din_addr i (xint b) din)
  else ret din.

(** The block of the file that holds its [fbn]-th block. *)
Definition file_block (fbn : Z) (din : list byte) : M image (list byte * Z) :=
  if fbn <? NDIRECT then
    let* din := fill_addr fbn din in
    ret (din, xint (din_addr din fbn))
  else
    let* din := fill_addr NDIRECT din in
    let* indirect := rsect (xint (din_addr din NDIRECT)) in
    let* indirect :=
      (if get32 indirect (4 * (fbn - NDIRECT)) =? 0 then
         let* b := next_block in
         let indirect := put32 indirect (4 * (fbn - NDIRECT)) (xint b) in
         wsect (xint (din_addr din NDIRECT)) indirect ;;;
         ret indirect
       else ret indirect) in
    ret (din, xint (get32 indirect (4 * (fbn - NDIRECT)))).

Definition iappend (inum : Z) (p : list byte) (n : Z) : M image unit :=
  let* din := rinode inum in
  let off := xint (din_size din) in
  let* r := loop (fun '(n, off, p, din) =>
    if 0 <? n then
      let fbn := off / BSIZE in
      if negb (fbn <? MAXFILE) then panic "fbn < MAXFILE"
      else
        let* r := file_block fbn din in
        let '(din, x) := r in
        let n1 := Z.min n (u32 ((fbn + 1) * BSIZE - off)) in
        let* buf := rsect x in
        wsect x (put_bytes buf (off - fbn * BSIZE) (take (Z.to_nat n1) p)) ;;;
        ret (inl (n - n1, u32 (off + n1), drop (Z.to_nat n1) p, din))
    else ret (inr (off, din))) (n, off, p, din) in
  let '(off, din) := r in
  winode inum (put_din_size (xint off) din).

(** ** main() *)

(** The name a file gets in the image. *)
Definition strip_dir (arg : list byte) : list byte :=
  if strncmp_arr 5 arg [Byte.x75; Byte.x73; Byte.x65; Byte.x72; Byte.x2f] =? 0 then drop 5 arg else arg.
Definition strip_mark (name : list byte) : list byte :=
  match name with
  | c :: name' => if bool_decide (c = Byte.x5f) then name' else name
  | [] => []
  end.

Definition add_entry (rootino inum : Z) (name : list byte) : M image unit :=
  iappend rootino (le_split 2 (xshort inum) ++ strncpy_arr DIRSIZ name) sizeof_dirent.

Definition add_file (rootino : Z) (arg : list byte) : M image unit :=
  let shortname := strip_dir arg in
  if bool_decide (slash ∈ shortname) then panic "index(shortname, '/') == 0"
  else
    match host_file arg with
    | None => panic "open"
    | Some chunks =>
        let shortname := strip_mark shortname in
        let* inum := ialloc T_FILE in
        add_entry rootino inum shortname ;;;
        forM chunks (fun buf => iappend inum buf (Z.of_nat (length buf)))
    end.

Definition sb_image : superblock :=
  mksb FSMAGIC (xint FSSIZE) (xint nblocks) (xint NINODES) (xint nlog) (xint 2) (xint (2 + nlog)) (xint (2 + nlog + ninodeblocks)).

Definition superblock_bytes (sb : superblock) : list byte :=
  concat (List.map (le_split 4) [sb_magic sb; sb_size sb; sb_nblocks sb; sb_ninodes sb; sb_nlog sb; sb_logstart sb; sb_inodestart sb; sb_bmapstart sb]).

Definition main (argv : list (list byte)) : M image unit :=
  match argv with
  | _ :: img :: files =>
      if negb (host_create img) then panic "open"
      else
        modify (set_m_img (fun _ => zeroes) 0) ;;;
        modify (set_m_sb sb_image) ;;;
        modify (set_m_freeblock nmeta) ;;;
        forM (seq 0 (Z.to_nat FSSIZE)) (fun i => wsect (Z.of_nat i) zeroes) ;;;
        let* sb := gets m_sb in
        wsect 1 (put_bytes zeroes 0 (superblock_bytes sb)) ;;;
        let* rootino := ialloc T_DIR in
        if negb (rootino =? ROOTINO) then panic "rootino == ROOTINO"
        else
          add_entry rootino rootino [Byte.x2e] ;;;
          add_entry rootino rootino [Byte.x2e; Byte.x2e] ;;;
          forM files (add_file rootino) ;;;
          let* din := rinode rootino in
          let off := xint (din_size din) in
          let off := u32 ((off / BSIZE + 1) * BSIZE) in
          winode rootino (put_din_size (xint off) din) ;;;
          let* used := gets m_freeblock in
          balloc used
  | _ => panic "Usage: mkfs fs.img files..."
  end.
End Mkfs.

(** The initial values of the globals, before main(). *)
Definition image0 : image := mkimage (fun _ => zeroes) 0 (mksb 0 0 0 0 0 0 0 0) 1 0.
