(* ===== verification/MkfsOk.v ===== *)
(** mkfs appends to files correctly (mkfs/mkfs.c): iappend() does to the image what
    writei() of the kernel does to the disk.

    While mkfs runs, the blocks in use are those below freeblock, and the bitmap
    is written at the end.  [view] is the image with the bitmap as it would be
    written now; in that view taking the next block is the kernel's balloc(), so that
    the facts about files of FsOk.v and FsFile.v apply. *)

From Stdlib Require Import ZArith Lia FunctionalExtensionality.
From stdpp Require Import base tactics list strings.
From coqutil Require Import Byte Word.LittleEndianList.
From S2P Require Import Prelude Riscv Mem Core State Virtio Bio Block Log Fs FsOk FsFile FsCrash FsDir Mkfs.

Local Open Scope Z_scope.
Local Open Scope kern_scope.

(** ** Byte order and the bytes of an inode *)

Lemma xint_id x : 0 <= x < 2 ^ 32 -> xint x = x.
Proof.
  intros Hx. unfold xint. replace [_; _; _; _] with (le_split 4 x).
  - rewrite le_combine_split. by apply Z.mod_small.
  - change 24 with (8 + 8 + 8). change 16 with (8 + 8). by rewrite <- !Z.shiftr_shiftr by lia.
Qed.

Lemma xshort_id x : 0 <= x < 2 ^ 16 -> xshort x = x.
Proof.
  intros Hx. unfold xshort. replace [_; _] with (le_split 2 x) by done.
  rewrite le_combine_split. by apply Z.mod_small.
Qed.

Lemma take_words l k : (k < length l)%nat -> take 4 (drop (4 * k) (concat (List.map (le_split 4) l))) = le_split 4 (nth k l 0).
Proof.
  revert k. induction l as [|a l IH]; intros k Hk; [cbn in Hk; lia|]. cbn [List.map concat length] in *. destruct k as [|k].
  - cbn [nth]. rewrite Nat.mul_0_r, drop_0, take_app_le by (by rewrite length_le_split). by rewrite take_ge by (by rewrite length_le_split).
  - cbn [nth]. rewrite drop_app_ge by (rewrite length_le_split; lia). rewrite length_le_split. replace (4 * S k - 4)%nat with (4 * k)%nat by lia. apply IH. lia.
Qed.

Lemma put_words l k v : (k < length l)%nat ->
  let C := concat (List.map (le_split 4) l) in take (4 * k) C ++ le_split 4 v ++ drop (4 * k + 4) C = concat (List.map (le_split 4) (<[k := v]> l)).
Proof.
  cbv zeta. revert k. induction l as [|a l IH]; intros k Hk; [cbn in Hk; lia|]. destruct k as [|k].
  - cbn [List.map concat list_insert insert Nat.mul]. rewrite take_0, drop_app_ge by (by rewrite length_le_split). by rewrite length_le_split.
  - cbn [length] in Hk. change (<[S k := v]> (a :: l)) with (a :: <[k := v]> l). cbn [List.map concat]. rewrite <- (IH k) by lia.
    rewrite take_app_ge, drop_app_ge, length_le_split, <- app_assoc by (rewrite length_le_split; lia).
    replace (4 * S k - 4)%nat with (4 * k)%nat by lia. by replace (4 * S k + 4 - 4)%nat with (4 * k + 4)%nat by lia.
Qed.

(** The part of an inode before its size. *)
Definition din_head (x : inode) : list byte := le_split 2 (i_type x) ++ le_split 2 (i_major x) ++ le_split 2 (i_minor x) ++ le_split 2 (i_nlink x).
Lemma dinode_split x : dinode_bytes x = din_head x ++ le_split 4 (i_size x) ++ concat (List.map (le_split 4) (i_addrs x)).
Proof. unfold dinode_bytes, din_head. by rewrite <- !app_assoc. Qed.
Lemma length_head x : length (din_head x) = 8%nat.
Proof. unfold din_head. by rewrite !length_app, !length_le_split. Qed.

Section Dinode.
Context (x : inode).
Hypothesis Hl : length (i_addrs x) = 13%nat.

Lemma length_dinode : length (dinode_bytes x) = 64%nat.
Proof. by rewrite dinode_split, !length_app, length_head, length_le_split, length_addrs, Hl. Qed.

Lemma drop_dinode k : drop (12 + k) (dinode_bytes x) = drop k (concat (List.map (le_split 4) (i_addrs x))).
Proof.
  rewrite dinode_split, app_assoc, drop_app_ge by (rewrite length_app, length_head, length_le_split; lia).
  rewrite length_app, length_head, length_le_split. by replace (12 + k - (8 + 4))%nat with k by lia.
Qed.

Lemma take_dinode k : take (12 + k) (dinode_bytes x) = din_head x ++ le_split 4 (i_size x) ++ take k (concat (List.map (le_split 4) (i_addrs x))).
Proof.
  rewrite dinode_split, app_assoc, take_app_ge by (rewrite length_app, length_head, length_le_split; lia).
  rewrite length_app, length_head, length_le_split, <- app_assoc. by replace (12 + k - (8 + 4))%nat with k by lia.
Qed.

Lemma din_addr_at k : 0 <= k <= NDIRECT -> 0 <= addr_at x k < 2 ^ 32 -> din_addr (dinode_bytes x) k = addr_at x k.
Proof.
  unfold NDIRECT. intros Hk Ha. unfold din_addr, get32, get_le. replace (Z.to_nat (12 + 4 * k)) with (12 + 4 * Z.to_nat k)%nat by lia.
  rewrite drop_dinode, take_words by lia. rewrite le_combine_split. by apply Z.mod_small.
Qed.

Lemma din_put_addr k b : 0 <= k <= NDIRECT -> put_din_addr k b (dinode_bytes x) = dinode_bytes (put_addr k b x).
Proof.
  unfold NDIRECT. intros Hk. unfold put_din_addr, put32, put_le, put_bytes. rewrite length_le_split.
  replace (Z.to_nat (12 + 4 * k)) with (12 + 4 * Z.to_nat k)%nat by lia. rewrite <- Nat.add_assoc, drop_dinode, take_dinode, <- !app_assoc.
  rewrite put_words by lia. by rewrite dinode_split.
Qed.

Lemma din_get_size : 0 <= i_size x < 2 ^ 32 -> din_size (dinode_bytes x) = i_size x.
Proof.
  intros Hs. unfold din_size, get32, get_le. rewrite dinode_split, drop_app_ge, length_head by (by rewrite length_head). cbn [Nat.sub Z.to_nat Pos.to_nat Pos.iter_op Nat.add]. rewrite drop_0.
  rewrite take_app_le, take_ge by (by rewrite length_le_split). rewrite le_combine_split. by apply Z.mod_small.
Qed.

Lemma din_set_size z : put_din_size z (dinode_bytes x) = dinode_bytes (set_i_size z x).
Proof.
  unfold put_din_size, put32, put_le, put_bytes. rewrite length_le_split, (dinode_split (set_i_size z x)). rewrite dinode_split at 1. change (Z.to_nat 8) with 8%nat.
  rewrite take_app_le, take_ge by (by rewrite length_head). change (8 + 4)%nat with (12 + 0)%nat. by rewrite (drop_dinode 0), drop_0.
Qed.
End Dinode.

(** ** The layout of the image *)

Lemma sb_image_eq : sb_image = mksb FSMAGIC 1000 954 200 30 2 32 45.
Proof. reflexivity. Qed.
Lemma nmeta_eq : nmeta = 46.
Proof. reflexivity. Qed.

Lemma layout_image : layout 2 sb_image nmeta.
Proof. rewrite sb_image_eq, nmeta_eq. by split. Qed.

Lemma iblock_image inum : 0 <= inum < NINODES -> IBLOCK inum sb_image = inum / 16 + 32 /\ 32 <= IBLOCK inum sb_image < 45.
Proof.
  unfold NINODES. intros Hi. rewrite sb_image_eq. unfold IBLOCK. cbn [sb_inodestart]. change IPB with 16.
  assert (0 <= inum / 16 < 13) by (split; [apply Z.div_pos; lia|apply Z.div_lt_upper_bound; lia]). rewrite u32_small by lia. lia.
Qed.

Lemma bblock_image c : 0 <= c < FSSIZE -> BBLOCK c sb_image = 45.
Proof. unfold FSSIZE. intros Hc. rewrite sb_image_eq. unfold BBLOCK, BPB, BSIZE. cbn [sb_bmapstart]. by rewrite Z.div_small by lia. Qed.

(** The bitmap with the first [n] blocks in use. *)
Fixpoint bitmap (n : nat) : list byte :=
  match n with
  | O => zero_block
  | S n => mark (Z.of_nat n) (bitmap n)
  end.

Lemma length_bitmap n : length (bitmap n) = Z.to_nat BSIZE.
Proof. induction n as [|n IH]; [apply length_zero_block|]. cbn [bitmap]. by rewrite length_mark. Qed.

Lemma bitmap_bit n c : Z.of_nat n <= BPB -> 0 <= c < BPB -> Z.testbit (dbyte (bitmap n) (c / 8)) (c mod 8) = (c <? Z.of_nat n).
Proof.
  intros Hn Hc. induction n as [|n IH]; cbn [bitmap].
  - unfold dbyte, zero_block. rewrite nth_lookup. destruct (List.repeat Byte.x00 (Z.to_nat BSIZE) !! Z.to_nat (c / 8)) as [b|] eqn:E; cbn [default].
    + apply list_elem_of_lookup_2, list_elem_of_In, repeat_spec in E as ->. rewrite Z.bits_0. symmetry. apply Z.ltb_ge. lia.
    + rewrite Z.bits_0. symmetry. apply Z.ltb_ge. lia.
  - rewrite mark_bit; [|apply length_bitmap|lia|done]. rewrite IH by lia.
    destruct (Z.eqb_spec c (Z.of_nat n)), (Z.ltb_spec c (Z.of_nat n)), (Z.ltb_spec c (Z.of_nat (S n))); (done || lia).
Qed.

(** ** The host and the sectors *)

(** The host's file behaves like one: seeking goes where it is told, and a sector is
    transferred in full. *)
Class HostOk `{Host} := {
  lseek_ok : forall off, host_lseek off = off;
  write_ok : forall off, host_write off = BSIZE;
  read_ok : forall off, host_read off = BSIZE;
}.

Record mk_ok (s : image) : Prop := {
  mk_sb : m_sb s = sb_image;
  mk_end : m_end s = FSSIZE;
  mk_len : forall bn, length (m_img s bn) = Z.to_nat BSIZE;
  mk_free : nmeta <= m_freeblock s <= FSSIZE;
  mk_zero : forall c, m_freeblock s <= c < FSSIZE -> m_img s c = zero_block;
}.

(** The image with the bitmap of the blocks in use. *)
Definition view (s : image) : Z -> list byte := fupd (m_img s) 45 (bitmap (Z.to_nat (m_freeblock s))).

Definition put_sect (sec : Z) (buf : list byte) (s : image) : image := set_m_img (fupd (m_img s) sec buf) (m_end s) s.

Section Sectors.
Context `{HostOk}.

Lemma sect_off sec : 0 <= sec < FSSIZE -> u32 (sec * BSIZE) / BSIZE = sec.
Proof. unfold FSSIZE, BSIZE. intros Hs. rewrite u32_small by lia. by apply Z.div_mul. Qed.

Lemma wsect_run sec buf s : mk_ok s -> 0 <= sec < FSSIZE -> wsect sec buf s = Ok tt (put_sect sec buf s).
Proof.
  intros Hs Hsec. unfold wsect. rewrite lseek_ok, write_ok, !Z.eqb_refl, sect_off by done. unfold modify, put_sect. cbn [negb].
  rewrite (mk_end _ Hs), Z.max_l by lia. done.
Qed.

Lemma rsect_run sec s : mk_ok s -> 0 <= sec < FSSIZE -> rsect sec s = Ok (m_img s sec) s.
Proof.
  intros Hs Hsec. unfold rsect. rewrite lseek_ok, Z.eqb_refl. cbn [negb]. rewrite (bind_run (gets m_end) _ FSSIZE s s) by (unfold gets; by rewrite (mk_end _ Hs)).
  rewrite sect_off by done. rewrite (proj2 (Z.ltb_lt _ _)) by lia. by rewrite read_ok, Z.eqb_refl.
Qed.
End Sectors.

Section View.
Context (s : image).
Hypothesis Hs : mk_ok s.

Lemma free_range : 46 <= m_freeblock s <= 1000.
Proof. destruct Hs as [_ _ _ Hf _]. rewrite nmeta_eq in Hf. exact Hf. Qed.

Lemma mk_put sec buf : sec < m_freeblock s -> length buf = Z.to_nat BSIZE -> mk_ok (put_sect sec buf s).
Proof.
  intros Hsec Hb. destruct Hs as [H1 H2 H3 H4 H5]. split; cbn [m_sb m_end m_img m_freeblock put_sect set_m_img]; try done.
  - intros bn. unfold fupd. by case_decide.
  - intros c Hc. rewrite fupd_ne by lia. by apply H5.
Qed.

Lemma view_img c : c <> 45 -> view s c = m_img s c.
Proof. intros Hc. unfold view. by rewrite fupd_ne. Qed.

Lemma view_put sec buf : sec <> 45 -> view (put_sect sec buf s) = fupd (view s) sec buf.
Proof.
  intros Hne. apply functional_extensionality. intros c. unfold view. cbn [put_sect set_m_img m_img m_freeblock].
  destruct (decide (c = 45)) as [->|]; [by rewrite fupd_eq, fupd_ne, fupd_eq by done|]. rewrite fupd_ne by done.
  destruct (decide (c = sec)) as [->|]; [by rewrite !fupd_eq|]. by rewrite !fupd_ne.
Qed.

Lemma view_len bn : length (view s bn) = Z.to_nat BSIZE.
Proof. unfold view, fupd. case_decide; [apply length_bitmap|apply Hs]. Qed.

Lemma view_marked c : 0 <= c < FSSIZE -> marked sb_image (view s) c = (c <? m_freeblock s).
Proof.
  intros Hc. pose proof free_range. unfold marked. rewrite bblock_image by done. unfold view. rewrite fupd_eq. unfold FSSIZE in Hc.
  rewrite (Z.mod_small c BPB) by (unfold BPB, BSIZE; lia). rewrite bitmap_bit by (unfold BPB, BSIZE; lia). by rewrite Z2Nat.id by lia.
Qed.

Lemma view_meta : meta_ok sb_image nmeta (view s).
Proof. intros c Hc. rewrite nmeta_eq in Hc. pose proof free_range. rewrite view_marked by (unfold FSSIZE; lia). apply Z.ltb_lt. lia. Qed.

Lemma view_data c : data sb_image nmeta (view s) c <-> 46 <= c < m_freeblock s.
Proof.
  unfold data. rewrite nmeta_eq. change (sb_size sb_image) with 1000. pose proof free_range. split.
  - intros [Hc Hm]. rewrite view_marked in Hm by (unfold FSSIZE; lia). apply Z.ltb_lt in Hm. lia.
  - intros Hc. rewrite view_marked by (unfold FSSIZE; lia). rewrite Z.ltb_lt. lia.
Qed.

(** Taking the next block is what the kernel's allocator does. *)
Lemma next_block_run : m_freeblock s < FSSIZE -> let b := m_freeblock s in
  exists s', next_block s = Ok b s' /\ mk_ok s' /\ view s' = alloc sb_image (view s) b /\ m_freeblock s' = b + 1 /\ m_freeinode s' = m_freeinode s.
Proof.
  intros Hlt b. unfold FSSIZE in Hlt. pose proof free_range as Hfr. fold b in Hfr. exists (set_m_freeblock (b + 1) s). split_and!; [| | |done|done].
  - unfold next_block, gets, modify, bind. fold b. by rewrite u32_small by lia.
  - destruct Hs as [H1 H2 H3 H4 H5]. split; cbn [m_sb m_end m_img m_freeblock set_m_freeblock]; try done; [rewrite nmeta_eq; unfold FSSIZE; lia|].
    intros c Hc. apply H5. fold b. lia.
  - apply functional_extensionality. intros c. unfold alloc. rewrite bblock_image by (unfold FSSIZE; lia). unfold view at 1. cbn [set_m_freeblock m_img m_freeblock].
    rewrite (Z.mod_small b BPB) by (unfold BPB, BSIZE; lia). destruct (decide (c = b)) as [->|Hcb].
    + rewrite fupd_eq, fupd_ne by lia. apply (mk_zero _ Hs). unfold FSSIZE. fold b. lia.
    + rewrite (fupd_ne _ b) by done. destruct (decide (c = 45)) as [->|Hc].
      * rewrite !fupd_eq. unfold view. rewrite fupd_eq. fold b. replace (Z.to_nat (b + 1)) with (S (Z.to_nat b)) by lia. cbn [bitmap]. by rewrite Z2Nat.id by lia.
      * by rewrite !fupd_ne, view_img by done.
Qed.
End View.

(** ** A block of a file *)

Lemma bind_assoc_run {S A B C} (m : M S A) (k : A -> M S B) (k' : B -> M S C) s : bind (bind m k) k' s = bind m (fun a => bind (k a) k') s.
Proof. unfold bind. by destruct (m s). Qed.

Notation img_file_ok := (file_ok sb_image nmeta).
Notation img_grown := (grown sb_image nmeta).
Notation img_touched := (touched sb_image nmeta).

(** The file has exactly the blocks its first [z] bytes need. *)
Definition covers (V : Z -> list byte) (x : inode) (z : Z) : Prop :=
  (forall g, 0 <= g < MAXFILE -> blkno V x g <> 0 <-> g * BSIZE < z) /\ (addr_at x NDIRECT <> 0 <-> NDIRECT * BSIZE < z).

(** Blocks that have to be added before byte [z] can be appended. *)
Definition fresh (z : Z) : Z := (if z mod BSIZE =? 0 then 1 else 0) + (if z =? NDIRECT * BSIZE then 1 else 0).

Lemma addr_range V x k : img_file_ok V x -> 0 <= k <= NDIRECT -> 0 <= addr_at x k < 2 ^ 31.
Proof.
  intros (_ & _ & Hmo) Hk. assert (Hd : addr_at x k = 0 \/ data sb_image nmeta V (addr_at x k)).
  { destruct (decide (k = NDIRECT)) as [->|Hne]; [apply Hmo|]. pose proof (mo_blk _ _ _ _ _ Hmo k) as Hb. unfold blkno in Hb.
    rewrite (proj2 (Z.ltb_lt k NDIRECT)) in Hb by lia. apply Hb. change MAXFILE with 268. unfold NDIRECT in Hk. lia. }
  destruct Hd as [->|Hd]; [lia|]. pose proof (data_pos _ _ _ layout_image _ _ Hd). lia.
Qed.

(** A block of the image that is in use. *)
Lemma view_read `{HostOk} s c : mk_ok s -> data sb_image nmeta (view s) c -> rsect c s = Ok (view s c) s.
Proof.
  intros Hs Hd%(view_data s Hs). pose proof (free_range s Hs). rewrite (view_img s) by lia. apply rsect_run; [done|]. unfold FSSIZE. lia.
Qed.

Lemma view_write `{HostOk} s c d : mk_ok s -> data sb_image nmeta (view s) c -> length d = Z.to_nat BSIZE ->
  let s' := put_sect c d s in wsect c d s = Ok tt s' /\ mk_ok s' /\ view s' = fupd (view s) c d /\ m_freeblock s' = m_freeblock s /\ m_freeinode s' = m_freeinode s.
Proof.
  intros Hs Hc%(view_data s Hs) Hd s'. pose proof (free_range s Hs). split_and!; [apply wsect_run; [done|unfold FSSIZE; lia]|apply mk_put; [done|lia|done]|apply view_put; lia|done|done].
Qed.

Section Blocks.
Context `{HostOk} (s : image) (x : inode).
Hypothesis Hs : mk_ok s.
Hypothesis Hfile : img_file_ok (view s) x.

Let b := m_freeblock s.

Lemma new_block : b < FSSIZE -> nmeta <= b < sb_size sb_image /\ marked sb_image (view s) b = false.
Proof.
  intros Hlt. pose proof (mk_free _ Hs) as Hf. fold b in Hf. split; [change (sb_size sb_image) with FSSIZE; lia|]. rewrite nmeta_eq in Hf.
  rewrite view_marked by (done || lia). apply Z.ltb_irrefl.
Qed.

Lemma fill_addr_kept k : 0 <= k <= NDIRECT -> addr_at x k <> 0 -> fill_addr k (dinode_bytes x) s = Ok (dinode_bytes x) s.
Proof.
  intros Hk Hne. pose proof (addr_range _ _ k Hfile Hk). destruct Hfile as (_ & Hl & _). unfold fill_addr. rewrite din_addr_at, xint_id by (done || lia).
  by rewrite (proj2 (Z.eqb_neq _ _)).
Qed.

Lemma fill_addr_new k : 0 <= k <= NDIRECT -> addr_at x k = 0 -> b < FSSIZE ->
  exists s', fill_addr k (dinode_bytes x) s = Ok (dinode_bytes (put_addr k b x)) s' /\ mk_ok s' /\ view s' = alloc sb_image (view s) b /\
    m_freeblock s' = b + 1 /\ m_freeinode s' = m_freeinode s.
Proof.
  intros Hk E0 Hlt. destruct Hfile as (_ & Hl & _). pose proof (free_range s Hs) as Hfr. destruct (next_block_run s Hs Hlt) as (s' & E & Hs'). exists s'. split; [|exact Hs'].
  unfold fill_addr. rewrite din_addr_at by (done || lia). rewrite E0, xint_id by lia. cbn [Z.eqb]. rewrite (bind_run _ _ _ _ _ E).
  unfold ret. fold b in Hfr |- *. by rewrite xint_id, din_put_addr by (done || lia).
Qed.

Lemma put_addr_same k v : 0 <= k <= NDIRECT -> addr_at (put_addr k v x) k = v.
Proof. intros Hk. destruct Hfile as (_ & Hl & _). rewrite addr_put by (done || lia). by rewrite Z.eqb_refl. Qed.
End Blocks.

(** A state after a block [b] was found for block [fbn] of the file; [new] says
    that the block was added, and [k] is how many were. *)
Record got (s : image) (x : inode) (fbn : Z) (new : bool) (k : Z) (s' : image) (x' : inode) (b : Z) : Prop := {
  got_ok : mk_ok s';
  got_grown : img_grown (view s) x fbn (view s') x';
  got_blk : b = blkno (view s') x' fbn /\ b <> 0;
  got_free : m_freeblock s' = m_freeblock s + k /\ m_freeinode s' = m_freeinode s;
  got_zero : new = true -> view s' b = zero_block;
}.

Lemma indirect_ok `{HostOk} s x fbn : mk_ok s -> img_file_ok (view s) x -> NDIRECT <= fbn < MAXFILE -> addr_at x NDIRECT <> 0 ->
  let new := blkno (view s) x fbn =? 0 in let k := if new then 1 else 0 in m_freeblock s + k <= FSSIZE ->
  exists s' b, (let* indirect := rsect (xint (din_addr (dinode_bytes x) NDIRECT)) in
    let* indirect :=
      (if get32 indirect (4 * (fbn - NDIRECT)) =? 0 then
         let* b := next_block in
         let indirect := put32 indirect (4 * (fbn - NDIRECT)) (xint b) in
         wsect (xint (din_addr (dinode_bytes x) NDIRECT)) indirect ;;;
         ret indirect
       else ret indirect) in
    ret (dinode_bytes x, xint (get32 indirect (4 * (fbn - NDIRECT))))) s = Ok (dinode_bytes x, b) s' /\ got s x fbn new k s' x b.
Proof.
  intros Hs Hfile Hfbn Hi. pose proof Hfile as (_ & Hl & Hmo). set (ind := addr_at x NDIRECT) in *. set (V := view s) in *.
  assert (Hid : data sb_image nmeta V ind) by by destruct (mo_ind _ _ _ _ _ Hmo). pose proof (data_pos _ _ _ layout_image _ _ Hid) as Hip.
  assert (Eb : blkno V x fbn = get32 (V ind) (4 * (fbn - NDIRECT))).
  { unfold blkno. rewrite (proj2 (Z.ltb_ge fbn NDIRECT)) by lia. fold ind. by rewrite (proj2 (Z.eqb_neq ind 0)). }
  assert (Hf : 0 <= fbn < MAXFILE) by (unfold NDIRECT in *; lia). cbv zeta. fold V. rewrite Eb. intros Hroom.
  rewrite din_addr_at by (done || (fold ind; lia)). fold ind. rewrite xint_id by lia. rewrite (bind_run _ _ _ _ _ (view_read s ind Hs Hid)). fold V.
  revert Hroom. destruct (Z.eqb_spec (get32 (V ind) (4 * (fbn - NDIRECT))) 0) as [E0|E0]; intros Hroom; cbv iota in Hroom.
  - destruct (next_block_run s Hs ltac:(lia)) as (s1 & E1 & Hs1 & V1 & F1 & I1). set (b := m_freeblock s) in *. destruct (new_block s Hs ltac:(lia)) as [Hb Hnew]. fold b V in Hb, Hnew.
    pose proof (free_range s Hs) as Hfr. fold b in Hfr. rewrite bind_assoc_run, (bind_run _ _ _ _ _ E1), xint_id by lia. fold V in V1.
    assert (Hid1 : data sb_image nmeta (view s1) ind) by (rewrite V1; apply (data_alloc _ _ _ layout_image); [apply view_len; done|done|by right]).
    set (d := put32 (V ind) (4 * (fbn - NDIRECT)) b). assert (Hlv : length (V ind) = Z.to_nat BSIZE) by (by apply view_len).
    assert (Hd : length d = Z.to_nat BSIZE) by (unfold d, put32; rewrite length_put_le; [done|lia|rewrite Hlv; change MAXFILE with 268 in *; unfold NDIRECT, BSIZE in *; lia]).
    destruct (view_write s1 ind d Hs1 Hid1 Hd) as (E2 & Hs2 & V2 & F2 & I2). set (s2 := put_sect ind d s1) in *. exists s2, b.
    rewrite bind_assoc_run, (bind_run _ _ _ _ _ E2). unfold bind, ret.
    assert (Eg : get32 d (4 * (fbn - NDIRECT)) = b).
    { unfold d. rewrite get_put32; [by rewrite Z.eqb_refl|done|change NINDIRECT with 256; change MAXFILE with 268 in *; unfold NDIRECT in *; lia|change NINDIRECT with 256; change MAXFILE with 268 in *; unfold NDIRECT in *; lia|lia]. }
    rewrite Eg, xint_id by lia. split; [done|]. rewrite V1 in V2. split.
    + done.
    + rewrite V2. apply (grown_entry _ _ _ layout_image); try done; [by apply view_meta|by apply view_len|lia|by rewrite Eb].
    + rewrite V2. split; [|lia]. unfold blkno. rewrite (proj2 (Z.ltb_ge fbn NDIRECT)) by lia. fold ind. by rewrite (proj2 (Z.eqb_neq ind 0)), fupd_eq.
    + rewrite F2, I2. done.
    + intros _. rewrite V2, fupd_ne, alloc_zero; [done|]. intros E. rewrite <- E in Hid. apply (view_data s Hs) in Hid. fold b in Hid. lia.
  - assert (Hbd : data sb_image nmeta V (blkno V x fbn)) by (destruct (mo_blk _ _ _ _ _ Hmo fbn Hf) as [?|?]; [congruence|done]).
    pose proof (data_pos _ _ _ layout_image _ _ Hbd) as Hbp. rewrite Eb in Hbp. exists s, (get32 (V ind) (4 * (fbn - NDIRECT))). unfold bind, ret. rewrite xint_id by lia. split; [done|]. split.
    + done.
    + apply grown_refl; [done|by apply view_meta].
    + fold V. by split; [rewrite Eb|].
    + by rewrite Z.add_0_r.
    + done.
Qed.

Section FileBlock.
Context `{HostOk} (s : image) (x : inode) (z : Z).
Hypothesis Hs : mk_ok s.
Hypothesis Hfile : img_file_ok (view s) x.
Hypothesis Hcov : covers (view s) x z.
Hypothesis Hz : 0 <= z.
Let fbn := z / BSIZE.
Hypothesis Hmax : fbn < MAXFILE.
Hypothesis Hroom : m_freeblock s + fresh z <= FSSIZE.

Lemma fbn_range : 0 <= fbn < MAXFILE /\ 1024 * fbn <= z /\ 0 <= z mod 1024 < 1024 /\ z = 1024 * fbn + z mod 1024.
Proof.
  pose proof (Z.div_mod z BSIZE ltac:(done)) as Hdm. pose proof (Z.mod_pos_bound z BSIZE ltac:(done)). fold fbn in Hdm. unfold BSIZE in *.
  assert (0 <= fbn) by (by apply Z.div_pos). lia.
Qed.

Lemma old_block : blkno (view s) x fbn <> 0 <-> z mod 1024 <> 0.
Proof. destruct fbn_range as (Hf & ?). destruct Hcov as [Hc _]. rewrite Hc by done. unfold BSIZE. lia. Qed.

Lemma file_block_direct : fbn < NDIRECT ->
  exists s' x' b, file_block fbn (dinode_bytes x) s = Ok (dinode_bytes x', b) s' /\ got s x fbn (z mod BSIZE =? 0) (fresh z) s' x' b /\ (addr_at x' NDIRECT <> 0 <-> NDIRECT <= fbn).
Proof.
  intros Hd. destruct fbn_range as (Hf & Hfz & Hmod & Hdm). pose proof old_block as Hold. destruct Hcov as [_ Hci]. pose proof Hfile as (_ & Hl & Hmo). unfold fresh in *. unfold BSIZE in *.
  unfold file_block. rewrite (proj2 (Z.ltb_lt _ _) Hd). assert (Eb : blkno (view s) x fbn = addr_at x fbn) by (unfold blkno; by rewrite (proj2 (Z.ltb_lt _ _) Hd)).
  rewrite Eb in Hold. rewrite (proj2 (Z.eqb_neq z (NDIRECT * 1024))), Z.add_0_r in * by lia. destruct (Z.eqb_spec (z mod 1024) 0) as [E0|E0].
  - set (b := m_freeblock s) in *. assert (Ea : addr_at x fbn = 0) by lia. destruct (new_block s Hs ltac:(lia)) as [Hb Hnew]. fold b in Hb, Hnew. pose proof (free_range s Hs) as Hfr. fold b in Hfr.
    destruct (fill_addr_new s x Hs Hfile fbn ltac:(lia) Ea ltac:(lia)) as (s1 & E1 & Hs1 & V1 & F1 & I1). fold b in E1, V1, F1.
    exists s1, (put_addr fbn b x), b. rewrite (bind_run _ _ _ _ _ E1). unfold ret.
    assert (Hg : img_grown (view s) x fbn (view s1) (put_addr fbn b x)) by (rewrite V1; apply (grown_direct _ _ _ layout_image); try done; [by apply view_meta|by apply view_len]).
    assert (Hs' := put_addr_same s x Hfile fbn b ltac:(lia)). destruct (gr_file _ _ _ _ _ _ _ Hg) as (_ & Hl' & _).
    rewrite din_addr_at, Hs', xint_id by (rewrite ?Hs'; done || lia). split; [done|]. split; [split|].
    + done.
    + done.
    + split; [|lia]. unfold blkno. by rewrite (proj2 (Z.ltb_lt _ _) Hd).
    + done.
    + intros _. rewrite V1. apply alloc_zero.
    + rewrite addr_put by (done || unfold NDIRECT in *; lia). rewrite (proj2 (Z.eqb_neq NDIRECT fbn)) by lia. rewrite Hci. lia.
  - exists s, x, (addr_at x fbn). pose proof (addr_range _ _ fbn Hfile ltac:(lia)). assert (Ea : addr_at x fbn <> 0) by lia.
    rewrite (bind_run _ _ _ _ _ (fill_addr_kept s x Hfile fbn ltac:(lia) Ea)). unfold ret. rewrite din_addr_at, xint_id by (done || lia). split; [done|]. split; [split|].
    + done.
    + apply grown_refl; [done|by apply view_meta].
    + by rewrite Eb.
    + by rewrite Z.add_0_r.
    + done.
    + rewrite Hci. lia.
Qed.

Lemma file_block_indirect : NDIRECT <= fbn ->
  exists s' x' b, file_block fbn (dinode_bytes x) s = Ok (dinode_bytes x', b) s' /\ got s x fbn (z mod BSIZE =? 0) (fresh z) s' x' b /\ (addr_at x' NDIRECT <> 0 <-> NDIRECT <= fbn).
Proof.
  intros Hd. destruct fbn_range as (Hf & Hfz & Hmod & Hdm). pose proof old_block as Hold. destruct Hcov as [_ Hci]. pose proof Hfile as (_ & Hl & Hmo). unfold fresh in *. unfold BSIZE in *.
  unfold file_block. rewrite (proj2 (Z.ltb_ge _ _) Hd). destruct (Z.eqb_spec z (NDIRECT * 1024)) as [Ez|Ez].
  - assert (E0 : z mod 1024 = 0) by (rewrite Ez; by apply Z.mod_mul). rewrite E0 in *. cbn [Z.eqb] in *. set (b := m_freeblock s) in *. assert (Ea : addr_at x NDIRECT = 0) by lia.
    destruct (new_block s Hs ltac:(lia)) as [Hb Hnew]. fold b in Hb, Hnew. destruct (fill_addr_new s x Hs Hfile NDIRECT ltac:(done) Ea ltac:(lia)) as (s1 & E1 & Hs1 & V1 & F1 & I1). fold b in E1, V1, F1.
    assert (Hg : img_grown (view s) x fbn (view s1) (put_addr NDIRECT b x)) by (rewrite V1; apply (grown_indirect _ _ _ layout_image); try done; [by apply view_meta|by apply view_len]).
    assert (Ei := put_addr_same s x Hfile NDIRECT b ltac:(done)). pose proof (free_range s Hs) as Hfr. fold b in Hfr. set (x1 := put_addr NDIRECT b x) in *.
    assert (Eb : blkno (view s1) x1 fbn = 0).
    { unfold blkno. rewrite (proj2 (Z.ltb_ge _ _) Hd), Ei, (proj2 (Z.eqb_neq b 0)), V1, alloc_zero by lia. apply get32_zero. }
    destruct (indirect_ok s1 x1 fbn Hs1 (gr_file _ _ _ _ _ _ _ Hg) ltac:(lia)) as (s2 & b2 & E2 & G); [lia|rewrite Eb; cbn [Z.eqb]; lia|].
    exists s2, x1, b2. rewrite (bind_run _ _ _ _ _ E1). split; [exact E2|]. rewrite Eb in G. cbn [Z.eqb] in G. destruct G as [G1 G2 G3 [G4 G5] G6]. split; [split|].
    + done.
    + by eapply grown_trans.
    + done.
    + split; [lia|congruence].
    + done.
    + rewrite Ei. lia.
  - assert (Ea : addr_at x NDIRECT <> 0) by lia. destruct (indirect_ok s x fbn Hs Hfile ltac:(lia) Ea) as (s1 & b & E1 & G).
    { destruct (Z.eqb_spec (blkno (view s) x fbn) 0), (Z.eqb_spec (z mod 1024) 0); lia. }
    exists s1, x, b. rewrite (bind_run _ _ _ _ _ (fill_addr_kept s x Hfile NDIRECT ltac:(done) Ea)). split; [exact E1|]. split; [|by split].
    replace (z mod 1024 =? 0) with (blkno (view s) x fbn =? 0); [by rewrite Z.add_0_r|].
    destruct (Z.eqb_spec (blkno (view s) x fbn) 0), (Z.eqb_spec (z mod 1024) 0); (done || lia).
Qed.

Lemma file_block_ok :
  exists s' x' b, file_block fbn (dinode_bytes x) s = Ok (dinode_bytes x', b) s' /\ got s x fbn (z mod BSIZE =? 0) (fresh z) s' x' b /\ (addr_at x' NDIRECT <> 0 <-> NDIRECT <= fbn).
Proof. destruct (decide (fbn < NDIRECT)); [by apply file_block_direct|apply file_block_indirect; lia]. Qed.
End FileBlock.

(** ** iappend() *)

(** The file has the bytes [c], and zeroes after them in its last block. *)
Definition holds (V : Z -> list byte) (x : inode) (c : list byte) : Prop :=
  forall a, 0 <= a -> a / BSIZE < MAXFILE -> blkno V x (a / BSIZE) <> 0 -> fbyte V x a = nth (Z.to_nat a) c Byte.x00.
Definition stored (V : Z -> list byte) (x : inode) (c : list byte) : Prop :=
  img_file_ok V x /\ covers V x (Z.of_nat (length c)) /\ holds V x c.

Lemma nth_zero_block k : nth k zero_block Byte.x00 = Byte.x00.
Proof. apply nth_repeat. Qed.

Lemma nth_app_byte (c d : list byte) k : nth k (c ++ d) Byte.x00 = if decide (length c <= k < length c + length d)%nat then nth (k - length c) d Byte.x00 else nth k c Byte.x00.
Proof.
  case_decide as Hk; [by rewrite app_nth2 by lia|]. destruct (decide (k < length c)%nat); [by rewrite app_nth1|].
  rewrite !nth_overflow; [done|lia|rewrite length_app; lia].
Qed.

Section Chunk.
Context `{HostOk} (s s' : image) (x x' : inode) (c d : list byte) (b : Z).
Let z := Z.of_nat (length c).
Let fbn := z / BSIZE.
Let V2 := view s'.
Let V3 := fupd V2 b (put_bytes (V2 b) (z - fbn * BSIZE) d).
Hypothesis Hs : mk_ok s.
Hypothesis Hst : stored (view s) x c.
Hypothesis Hmax : fbn < MAXFILE.
Hypothesis Hd : 0 < Z.of_nat (length d) <= BSIZE - z mod BSIZE.
Hypothesis Hgot : got s x fbn (z mod BSIZE =? 0) (fresh z) s' x' b.
Hypothesis Hind : addr_at x' NDIRECT <> 0 <-> NDIRECT <= fbn.

Lemma chunk_range : 0 <= fbn < MAXFILE /\ 0 <= z mod 1024 < 1024 /\ z = 1024 * fbn + z mod 1024 /\ z - fbn * BSIZE = z mod 1024 /\ 0 < Z.of_nat (length d) <= 1024 - z mod 1024.
Proof. destruct (fbn_range z ltac:(lia) Hmax) as (Hf & ? & ? & E). fold fbn in Hf, E. unfold BSIZE in *. lia. Qed.

Lemma chunk_map g : blkno V3 x' g = blkno V2 x' g.
Proof.
  destruct chunk_range as (Hf & _). destruct Hgot as [G1 G2 [G3 G3'] G4 G5]. unfold V3. rewrite G3. apply (write_map sb_image nmeta); [apply G2|done|unfold V2; by rewrite <- G3].
Qed.

Lemma chunk_touched : img_touched (view s) x V3 x'.
Proof.
  destruct chunk_range as (Hf & _). destruct Hgot as [G1 G2 [G3 G3'] G4 G5]. apply (touched_trans _ _ _ _ V2 x'); [by apply (grown_touched _ _ _ layout_image _ _ fbn)|].
  unfold V3. rewrite G3. apply (write_touched _ _ _ layout_image); [apply G2|by apply view_meta|done|unfold V2; by rewrite <- G3].
Qed.

Lemma chunk_covers : covers V3 x' (Z.of_nat (length (c ++ d))).
Proof.
  destruct chunk_range as (Hf & Hm & Hz & _ & Hdl). destruct Hst as (_ & [Hc Hci] & _). rewrite length_app, Nat2Z.inj_add. fold z in Hc, Hci |- *. split.
  - intros g Hg. rewrite chunk_map. unfold V2. unfold BSIZE in *. destruct (decide (g = fbn)) as [->|Hne].
    + destruct (got_blk _ _ _ _ _ _ _ _ Hgot) as [-> ?]. split; [lia|done].
    + rewrite (gr_map _ _ _ _ _ _ _ (got_grown _ _ _ _ _ _ _ _ Hgot)) by (done || by left). rewrite Hc by done. lia.
  - rewrite Hind. unfold BSIZE in *. lia.
Qed.

Lemma chunk_holds : holds V3 x' (c ++ d).
Proof.
  destruct chunk_range as (Hf & Hm & Hz & Ep & Hdl). destruct Hst as (Hfile & [Hc _] & Hh). destruct Hgot as [G1 G2 [G3 G3'] G4 G5]. intros a Ha Hamax Hne. rewrite chunk_map in Hne.
  assert (Haf : 0 <= a / BSIZE < MAXFILE) by (split; [by apply Z.div_pos|done]). rewrite nth_app_byte. unfold V3. rewrite G3.
  rewrite (write_fbyte sb_image nmeta); [|apply G2|by apply view_len|done|unfold V2; by rewrite <- G3|rewrite Ep; unfold BSIZE; lia|done|done|done].
  replace (fbn * BSIZE + (z - fbn * BSIZE)) with z by lia. case_decide as D1; case_decide as D2; [|lia|lia|]; unfold z in D1, D2.
  { by replace (Z.to_nat (a - z)) with (Z.to_nat a - length c)%nat by (unfold z; lia). }
  destruct (decide (blkno (view s) x (a / BSIZE) = 0)) as [E0|E0].
  - assert (Eaf : a / BSIZE = fbn). { destruct (decide (a / BSIZE = fbn)) as [|Hn]; [done|]. destruct Hne. unfold V2. rewrite (gr_map _ _ _ _ _ _ _ G2); [done|done|by left]. }
    assert (Em : z mod 1024 = 0). { destruct (decide (z mod 1024 = 0)); [done|]. exfalso. apply (proj2 (Hc _ Haf)); [rewrite Eaf; unfold BSIZE; fold z; lia|done]. }
    unfold fbyte. rewrite Eaf, <- G3. unfold V2. rewrite G5 by (unfold BSIZE; by rewrite Em). rewrite nth_zero_block, nth_overflow; [done|].
    pose proof (Z.div_mod a BSIZE ltac:(done)). pose proof (Z.mod_pos_bound a BSIZE ltac:(done)). unfold BSIZE, z in *. lia.
  - rewrite (grown_fbyte _ _ _ _ _ _ _ _ G2 Hfile Haf E0). by apply Hh.
Qed.

Lemma chunk_stored : stored V3 x' (c ++ d).
Proof. split_and!; [apply chunk_touched|apply chunk_covers|apply chunk_holds]. Qed.
End Chunk.

(** The number of blocks of a file with [z] bytes, the indirect block included. *)
Definition nblk (z : Z) : Z := (z + 1023) / 1024 + (if NDIRECT * BSIZE <? z then 1 else 0).

Lemma nblk_step z n : 0 <= z -> 0 < n <= 1024 - z mod 1024 -> nblk (z + n) = nblk z + fresh z.
Proof.
  intros Hz Hn. unfold nblk, fresh, NDIRECT, BSIZE. pose proof (Z.div_mod z 1024 ltac:(lia)) as Hdm. pose proof (Z.mod_pos_bound z 1024 ltac:(lia)) as Hm.
  replace ((z + n + 1023) / 1024) with (z / 1024 + 1) by (apply (Z.div_unique _ _ _ (z mod 1024 + n - 1)); lia). destruct (Z.eqb_spec (z mod 1024) 0) as [E|E].
  - replace ((z + 1023) / 1024) with (z / 1024) by (apply (Z.div_unique _ _ _ 1023); lia).
    destruct (Z.ltb_spec (12 * 1024) z), (Z.ltb_spec (12 * 1024) (z + n)), (Z.eqb_spec z (12 * 1024)); lia.
  - replace ((z + 1023) / 1024) with (z / 1024 + 1) by (apply (Z.div_unique _ _ _ (z mod 1024 - 1)); lia).
    destruct (Z.ltb_spec (12 * 1024) z), (Z.ltb_spec (12 * 1024) (z + n)), (Z.eqb_spec z (12 * 1024)); lia.
Qed.

Lemma nblk_mono z z' : z <= z' -> nblk z <= nblk z'.
Proof.
  intros Hz. unfold nblk. assert ((z + 1023) / 1024 <= (z' + 1023) / 1024) by (apply Z.div_le_mono; lia).
  destruct (Z.ltb_spec (NDIRECT * BSIZE) z), (Z.ltb_spec (NDIRECT * BSIZE) z'); lia.
Qed.

Definition slot (inum : Z) : Z := inum mod IPB * sizeof_dinode.

Lemma slot_range inum : 0 <= slot inum <= 960.
Proof. unfold slot, sizeof_dinode. change IPB with 16. pose proof (Z.mod_pos_bound inum 16). lia. Qed.

Section Inodes.
Context `{HostOk} (s : image) (x : inode).
Hypothesis Hs : mk_ok s.
Hypothesis Hl : length (i_addrs x) = 13%nat.
Hypothesis Hi : 0 <= i_inum x < NINODES.
Let ib := IBLOCK (i_inum x) sb_image.

(** The image after the inode has been written. *)
Definition put_inode : Z -> list byte := fupd (view s) ib (put_bytes (view s ib) (slot (i_inum x)) (dinode_bytes x)).

Lemma rinode_run : on_disk sb_image (view s) x -> rinode (i_inum x) s = Ok (dinode_bytes x) s.
Proof.
  intros Ho. destruct (iblock_image _ Hi) as [_ Hib]. fold ib in Hib. unfold rinode. rewrite (bind_run (gets m_sb) _ sb_image s s) by (unfold gets; by rewrite (mk_sb _ Hs)).
  fold ib. rewrite (bind_run _ _ _ _ _ (rsect_run ib s Hs ltac:(unfold FSSIZE; lia))). unfold ret. unfold on_disk in Ho. fold ib in Ho. rewrite view_img in Ho by lia. by rewrite Ho.
Qed.

Lemma winode_run : exists s', winode (i_inum x) (dinode_bytes x) s = Ok tt s' /\ mk_ok s' /\ view s' = put_inode /\ m_freeblock s' = m_freeblock s /\ m_freeinode s' = m_freeinode s.
Proof.
  destruct (iblock_image _ Hi) as [_ Hib]. fold ib in Hib. set (d := put_bytes (view s ib) (slot (i_inum x)) (dinode_bytes x)). exists (put_sect ib d s). pose proof (slot_range (i_inum x)) as Hsl.
  assert (Hd : length d = Z.to_nat BSIZE) by (unfold d; rewrite length_put_bytes; rewrite ?view_len, ?length_dinode; (done || lia || unfold BSIZE; lia)). pose proof (free_range s Hs). split_and!; [| | |done|done].
  - unfold winode. rewrite (bind_run (gets m_sb) _ sb_image s s) by (unfold gets; by rewrite (mk_sb _ Hs)). fold ib. rewrite (bind_run _ _ _ _ _ (rsect_run ib s Hs ltac:(unfold FSSIZE; lia))).
    fold (slot (i_inum x)). rewrite <- (view_img s) by lia. fold d. apply wsect_run; [done|unfold FSSIZE; lia].
  - apply mk_put; [done|lia|done].
  - apply view_put. lia.
Qed.
End Inodes.

(** What iappend() does to the image: the file gets the bytes [c], and of the blocks in
    use only its own change, and the inode's. *)
Record appended (s : image) (x : inode) (c : list byte) (s' : image) (x' : inode) : Prop := {
  ap_ok : mk_ok s';
  ap_free : m_freeblock s' = m_freeblock s + nblk (Z.of_nat (length c)) - nblk (i_size x) /\ m_freeinode s' = m_freeinode s;
  ap_view : exists V1 x1, img_touched (view s) x V1 x1 /\ stored V1 x1 c /\ x' = set_i_size (Z.of_nat (length c)) x1 /\
    view s' = fupd V1 (IBLOCK (i_inum x) sb_image) (put_bytes (V1 (IBLOCK (i_inum x) sb_image)) (slot (i_inum x)) (dinode_bytes x'));
}.

(** One round of the loop of iappend(). *)
Lemma append_chunk `{HostOk} s x c p : let z := Z.of_nat (length c) in let fbn := z / BSIZE in let n1 := Z.min (Z.of_nat (length p)) (u32 ((fbn + 1) * BSIZE - z)) in
  mk_ok s -> stored (view s) x c -> 0 < Z.of_nat (length p) -> z + Z.of_nat (length p) <= 274432 -> m_freeblock s + fresh z <= FSSIZE ->
  exists s' x', 0 < n1 <= 1024 - z mod 1024 /\ mk_ok s' /\ stored (view s') x' (c ++ take (Z.to_nat n1) p) /\ img_touched (view s) x (view s') x' /\
    m_freeblock s' = m_freeblock s + fresh z /\ m_freeinode s' = m_freeinode s /\ forall A (f : list byte -> M image A),
    (let* r := file_block fbn (dinode_bytes x) in
     let '(din, b) := r in
     let* buf := rsect b in
     wsect b (put_bytes buf (z - fbn * BSIZE) (take (Z.to_nat n1) p)) ;;;
     f din) s = f (dinode_bytes x') s'.
Proof.
  intros z fbn n1 Hs Hst Hp Hz Hroom. assert (Hmax : fbn < MAXFILE) by (apply Z.div_lt_upper_bound; [done|change MAXFILE with 268; unfold BSIZE; lia]).
  destruct (fbn_range z ltac:(lia) Hmax) as (Hf & Hfz & Hm & Hdm). fold fbn in Hf, Hfz, Hdm. pose proof Hst as (Hfile & Hcov & _).
  assert (En1 : n1 = Z.min (Z.of_nat (length p)) (1024 - z mod 1024)) by (unfold n1, BSIZE; rewrite u32_small by lia; f_equal; lia). clearbody n1. set (d := take (Z.to_nat n1) p).
  assert (Hd : Z.of_nat (length d) = n1) by (unfold d; rewrite length_take; lia). assert (Hd' : 0 < Z.of_nat (length d) <= BSIZE - z mod BSIZE) by (unfold BSIZE; lia).
  destruct (file_block_ok s x z Hs Hfile Hcov ltac:(lia) Hmax Hroom) as (s1 & x1 & b & E1 & G & Hind). fold fbn in E1, G, Hind.
  destruct (got_blk _ _ _ _ _ _ _ _ G) as [Eb Hb0]. pose proof (got_ok _ _ _ _ _ _ _ _ G) as Hs1.
  assert (Hbd : data sb_image nmeta (view s1) b).
  { destruct (gr_file _ _ _ _ _ _ _ (got_grown _ _ _ _ _ _ _ _ G)) as (_ & _ & Hmo1). rewrite Eb. destruct (mo_blk _ _ _ _ _ Hmo1 fbn Hf) as [?|?]; [congruence|done]. }
  set (e := put_bytes (view s1 b) (z - fbn * BSIZE) d).
  destruct (view_write s1 b e Hs1 Hbd) as (E2 & Hs2 & V2 & F2 & I2); [unfold e; rewrite length_put_bytes; rewrite ?view_len by done; (done || (unfold BSIZE; lia))|].
  destruct (got_free _ _ _ _ _ _ _ _ G) as [F1 I1]. exists (put_sect b e s1), x1. rewrite V2. split_and!; [lia|lia|done| | |lia|congruence|].
  - by apply (chunk_stored s s1 x x1 c d b).
  - by apply (chunk_touched s s1 x x1 c d b).
  - intros A f. rewrite (bind_run _ _ _ _ _ E1), (bind_run _ _ _ _ _ (view_read s1 b Hs1 Hbd)). fold d e. by rewrite (bind_run _ _ _ _ _ E2).
Qed.

Lemma iappend_ok `{HostOk} s x c src : let n := Z.of_nat (length src) in
  mk_ok s -> stored (view s) x c -> i_size x = Z.of_nat (length c) -> on_disk sb_image (view s) x -> 0 <= i_inum x < NINODES ->
  i_size x + n <= MAXFILE * BSIZE -> m_freeblock s + nblk (i_size x + n) - nblk (i_size x) <= FSSIZE ->
  exists s' x', iappend (i_inum x) src n s = Ok tt s' /\ appended s x (c ++ src) s' x'.
Proof.
  intros n Hs Hst Hsize Hod Hi Hmax Hroom. set (z := i_size x) in *. change (MAXFILE * BSIZE) with 274432 in Hmax. pose proof Hst as ((Hdev & Hl & Hmo) & _).
  enough (wp (iappend (i_inum x) src n) (fun _ s' => exists x', appended s x (c ++ src) s' x') s) as W by (apply wp_elim in W as ([] & s' & E & x' & Ha); by exists s', x').
  unfold iappend. run (rinode_run s x Hs Hl Hi Hod). rewrite din_get_size by (done || (fold z; lia)). fold z. rewrite xint_id by lia. cbv zeta. apply wp_bind. eapply wp_mono.
  { apply (wp_loop _ (fun j '(n', off, p, din) s1 => exists k x1, 0 <= k <= n /\ j = n - k /\ n' = n - k /\ off = z + k /\ p = drop (Z.to_nat k) src /\ din = dinode_bytes x1 /\ mk_ok s1 /\
        stored (view s1) x1 (c ++ take (Z.to_nat k) src) /\ img_touched (view s) x (view s1) x1 /\ m_freeblock s1 = m_freeblock s + nblk (z + k) - nblk z /\ m_freeinode s1 = m_freeinode s)
      (fun r s1 => exists x1, r = (z + n, dinode_bytes x1) /\ mk_ok s1 /\ stored (view s1) x1 (c ++ src) /\ img_touched (view s) x (view s1) x1 /\
        m_freeblock s1 = m_freeblock s + nblk (z + n) - nblk z /\ m_freeinode s1 = m_freeinode s)) with (n := n).
    - intros j [[[n' off] p] din] s1 _ (k & x1 & Hk & -> & -> & -> & -> & -> & Hs1 & Hst1 & T1 & F1 & I1). destruct (Z.ltb_spec 0 (n - k)) as [Hlt|Hge].
      2: { apply wp_ret. exists x1. assert (k = n) as -> by lia. rewrite take_ge in Hst1 by lia. done. }
      set (c1 := c ++ take (Z.to_nat k) src) in *. assert (Hc1 : Z.of_nat (length c1) = z + k) by (unfold c1; rewrite length_app, length_take; lia).
      assert (Hp : Z.of_nat (length (drop (Z.to_nat k) src)) = n - k) by (rewrite length_drop; lia).
      assert (Hfr : m_freeblock s1 + fresh (z + k) <= FSSIZE).
      { pose proof (Z.mod_pos_bound (z + k) 1024). rewrite F1. pose proof (nblk_step (z + k) 1 ltac:(lia) ltac:(lia)). pose proof (nblk_mono (z + k + 1) (z + n) ltac:(lia)). lia. }
      destruct (append_chunk s1 x1 c1 (drop (Z.to_nat k) src) Hs1 Hst1) as (s2 & x2 & Hn1 & Hs2 & Hst2 & T2 & F2 & I2 & E); [lia|lia|by rewrite Hc1|].
      rewrite Hc1, Hp in *. cbv zeta in E. rewrite (proj2 (Z.ltb_lt _ MAXFILE)) by (apply Z.div_lt_upper_bound; [done|change MAXFILE with 268; unfold BSIZE; lia]). cbn [negb].
      set (n1 := Z.min (n - k) (u32 (((z + k) / BSIZE + 1) * BSIZE - (z + k)))) in *. unfold wp. rewrite E. cbn [ret]. exists (n - (k + n1)). split; [lia|]. exists (k + n1), x2.
      assert (Hst2' : stored (view s2) x2 (c ++ take (Z.to_nat (k + n1)) src)).
      { rewrite Z2Nat.inj_add, <- take_take_drop, app_assoc by lia. exact Hst2. }
      split_and!; try done; try lia; [by rewrite u32_small by lia; lia| |by eapply touched_trans|replace (z + (k + n1)) with (z + k + n1) by lia; rewrite nblk_step by lia; lia].
      rewrite drop_drop. f_equal. lia.
    - lia.
    - exists 0, x. rewrite take_0, app_nil_r. split_and!; try (done || lia); [apply touched_refl; [apply Hst|by apply view_meta]|rewrite Z.add_0_r; lia]. }
  intros r s1 (x1 & -> & Hs1 & Hst1 & T1 & F1 & I1). pose proof Hst1 as ((Hdev1 & Hl1 & _) & _). rewrite xint_id by lia. rewrite din_set_size by done. set (x' := set_i_size (z + n) x1).
  assert (Ein : i_inum x = i_inum x') by (unfold x'; cbn [i_inum set_i_size]; by rewrite (to_x _ _ _ _ _ _ T1)). rewrite Ein in Hi |- *.
  destruct (winode_run s1 x' Hs1 Hl1 Hi) as (s2 & E2 & Hs2 & V2 & F2 & I2). eapply wp_Ok; [exact E2|]. assert (Hlen : Z.of_nat (length (c ++ src)) = z + n) by (rewrite length_app; lia).
  exists x'. split; [done|rewrite Hlen, F2; fold z; split; [lia|congruence]|]. exists (view s1), x1. rewrite Hlen, V2, Ein. done.
Qed.
