(* ===== verification/MkfsImage.v ===== *)
(** The image mkfs makes (mkfs/mkfs.c), as the kernel reads it: the superblock, the
    bitmap, the root directory with a name for every file, and the files with their
    bytes. *)

From Stdlib Require Import ZArith Lia FunctionalExtensionality.
From stdpp Require Import base tactics list strings.
From coqutil Require Import Byte Word.LittleEndianList.
From S2P Require Import Prelude Riscv Mem Core State Virtio Bio Block Log Fs FsOk FsFile FsCrash FsDir Mkfs MkfsOk.

Local Open Scope Z_scope.
Local Open Scope kern_scope.

(** ** Files that a change does not concern *)

(** Nothing the file is stored in has changed. *)
Definition same_file (V V' : Z -> list byte) (y : inode) : Prop :=
  img_file_ok V' y /\ (forall g, blkno V' y g = blkno V y g) /\ (forall b, owns V y b -> V' b = V b).

Lemma same_file_trans V1 V2 V3 y : same_file V1 V2 y -> same_file V2 V3 y -> same_file V1 V3 y.
Proof.
  intros (A1 & A2 & A3) (B1 & B2 & B3). split_and!; [done|intros g; by rewrite B2|]. intros b Hb. rewrite B3; [by apply A3|]. unfold owns in *. by setoid_rewrite A2.
Qed.

Lemma same_stored V V' y c : same_file V V' y -> stored V y c -> stored V' y c.
Proof.
  intros (Hf & Hb & Hk) (_ & [Hc Hi] & Hh). split_and!; [done|split; [intros g Hg; by rewrite Hb, Hc|done]|]. intros a Ha Hm Hne. rewrite Hb in Hne. rewrite <- (Hh a Ha Hm Hne).
  unfold fbyte. rewrite Hb, Hk; [done|]. split; [done|]. right. exists (a / BSIZE). split; [|done]. split; [by apply Z.div_pos|done].
Qed.

Lemma same_owns V V' y b : same_file V V' y -> owns V' y b <-> owns V y b.
Proof. intros (_ & Hb & _). unfold owns. by setoid_rewrite Hb. Qed.

Lemma touched_same V x V' x' y : img_touched V x V' x' -> img_file_ok V y -> (forall b, owns V x b -> ~ owns V y b) -> same_file V V' y.
Proof. intros T Hy Hd. destruct (touched_keeps _ _ _ _ _ _ _ T Hy Hd) as (Hk & Hb & Hf). split_and!; [done|done|intros b Hb'; by apply Hk]. Qed.

Lemma low_same V c d y : img_file_ok V y -> c < 45 -> same_file V (fupd V c d) y.
Proof.
  intros Hy Hc. destruct (low_fupd _ _ _ layout_image V y c d Hy Hc) as (Hb & Hf & _). split_and!; [done|done|]. intros b Hb'. apply fupd_ne.
  assert (Hd : data sb_image nmeta V b).
  { destruct Hy as (_ & _ & Hmo). destruct Hb' as [Hne [->|(g & Hg & <-)]]; [by destruct (mo_ind _ _ _ _ _ Hmo)|by destruct (mo_blk _ _ _ _ _ Hmo g Hg)]. }
  destruct Hd as [Hd _]. rewrite nmeta_eq in Hd. lia.
Qed.

(** The inode of another file is in another place. *)
Lemma other_inode V d i y : (forall bn, length (V bn) = Z.to_nat BSIZE) -> length d = 64%nat -> 0 <= i < NINODES -> 0 <= i_inum y < NINODES -> i_inum y <> i -> on_disk sb_image V y ->
  on_disk sb_image (fupd V (IBLOCK i sb_image) (put_bytes (V (IBLOCK i sb_image)) (slot i) d)) y.
Proof.
  intros Hl Hd Hi Hy Hne Ho. unfold on_disk in *. destruct (iblock_image i Hi) as [Ei _]. destruct (iblock_image _ Hy) as [Ey _]. pose proof (slot_range i).
  destruct (decide (IBLOCK (i_inum y) sb_image = IBLOCK i sb_image)) as [E|E]; [|by rewrite fupd_ne]. rewrite E, fupd_eq in *. fold (slot (i_inum y)) in *. pose proof (slot_range (i_inum y)).
  rewrite sub_put_other; [done|lia|lia|rewrite Hl, Hd; unfold BSIZE; lia|]. rewrite Hd. unfold slot, sizeof_dinode in *. change IPB with 16 in *. pose proof (Z.div_mod i 16 ltac:(lia)). pose proof (Z.div_mod (i_inum y) 16 ltac:(lia)). lia.
Qed.

Lemma own_inode V y : (forall bn, length (V bn) = Z.to_nat BSIZE) -> length (i_addrs y) = 13%nat ->
  on_disk sb_image (fupd V (IBLOCK (i_inum y) sb_image) (put_bytes (V (IBLOCK (i_inum y) sb_image)) (slot (i_inum y)) (dinode_bytes y))) y.
Proof.
  intros Hl Hy. unfold on_disk. rewrite fupd_eq. fold (slot (i_inum y)). pose proof (slot_range (i_inum y)). pose proof (sub_put_same (V (IBLOCK (i_inum y) sb_image)) (slot (i_inum y)) (dinode_bytes y)) as E.
  rewrite length_dinode in E by done. apply E; [lia|rewrite Hl; unfold BSIZE; lia].
Qed.

(** ** The image as a list of files *)

(** The inode of file [k], of type [t], with the bytes [c]. *)
Definition good (V : Z -> list byte) (k : nat) (x : inode) (t : Z) (c : list byte) : Prop :=
  x = mkinode ROOTDEV (Z.of_nat k + 1) 0 0 t 0 0 1 (Z.of_nat (length c)) (i_addrs x) /\ stored V x c /\ on_disk sb_image V x.

Definition total (fs : list (Z * list byte)) : Z := foldr (fun f n => nblk (Z.of_nat (length f.2)) + n) 0 fs.

Definition sb_block : list byte := put_bytes zeroes 0 (superblock_bytes sb_image).

Record img (s : image) (xs : list inode) (fs : list (Z * list byte)) : Prop := {
  im_ok : mk_ok s;
  im_next : m_freeinode s = Z.of_nat (length xs) + 1;
  im_len : length xs = length fs;
  im_max : Z.of_nat (length xs) < NINODES;
  im_blocks : m_freeblock s = nmeta + total fs;
  im_super : m_img s 1 = sb_block;
  im_files : forall k x t c, xs !! k = Some x -> fs !! k = Some (t, c) -> good (view s) k x t c;
  im_apart : forall j k x y b, j <> k -> xs !! j = Some x -> xs !! k = Some y -> owns (view s) x b -> ~ owns (view s) y b;
}.

Lemma total_insert fs k f g : fs !! k = Some f -> total (<[k := g]> fs) = total fs + nblk (Z.of_nat (length g.2)) - nblk (Z.of_nat (length f.2)).
Proof.
  revert k. induction fs as [|h fs IH]; intros [|k] Hk; [done|done| |]; cbn in Hk.
  - injection Hk as ->. cbn. lia.
  - change (<[S k := g]> (h :: fs)) with (h :: <[k := g]> fs). cbn [total foldr]. fold (total (<[k := g]> fs)) (total fs). rewrite (IH k Hk). lia.
Qed.

Lemma total_app fs fs' : total (fs ++ fs') = total fs + total fs'.
Proof. induction fs as [|f fs IH]; [done|]. cbn [total foldr app]. fold (total (fs ++ fs')) (total fs). rewrite IH. lia. Qed.

Lemma nblk_0 : nblk 0 = 0.
Proof. done. Qed.

Lemma owns_data V y b : img_file_ok V y -> owns V y b -> data sb_image nmeta V b.
Proof. intros (_ & _ & Hmo) [Hne [->|(g & Hg & <-)]]; [by destruct (mo_ind _ _ _ _ _ Hmo)|by destruct (mo_blk _ _ _ _ _ Hmo g Hg)]. Qed.

(** A change of one file, [k], and of its inode. *)
Section Change.
Context (V V1 : Z -> list byte) (x x1 : inode) (z : Z) (k : nat).
Let x' := set_i_size z x1.
Let V' := fupd V1 (IBLOCK (Z.of_nat k + 1) sb_image) (put_bytes (V1 (IBLOCK (Z.of_nat k + 1) sb_image)) (slot (Z.of_nat k + 1)) (dinode_bytes x')).
Hypothesis Hk : Z.of_nat k + 1 < NINODES.
Hypothesis HlV : forall bn, length (V1 bn) = Z.to_nat BSIZE.
Hypothesis HT : img_touched V x V1 x1.

Lemma change_iblock : 32 <= IBLOCK (Z.of_nat k + 1) sb_image < 45.
Proof. apply iblock_image. lia. Qed.

Lemma change_self t c : x = mkinode ROOTDEV (Z.of_nat k + 1) 0 0 t 0 0 1 (i_size x) (i_addrs x) -> stored V1 x1 c -> z = Z.of_nat (length c) -> good V' k x' t c.
Proof.
  intros Ex Hst ->. pose proof change_iblock. assert (Ex' : x' = mkinode ROOTDEV (Z.of_nat k + 1) 0 0 t 0 0 1 (Z.of_nat (length c)) (i_addrs x')).
  { unfold x'. rewrite (to_x _ _ _ _ _ _ HT), Ex. done. }
  assert (Hst' : stored V1 x' c) by exact Hst. split_and!; [done| |].
  - eapply same_stored; [|exact Hst']. apply low_same; [apply Hst'|lia].
  - unfold V'. replace (Z.of_nat k + 1) with (i_inum x') by by rewrite Ex'. apply own_inode; [done|apply Hst'].
Qed.

Lemma change_other y : img_file_ok V y -> (forall b, owns V x b -> ~ owns V y b) -> same_file V V' y.
Proof.
  intros Hy Ha. pose proof change_iblock. pose proof (touched_same _ _ _ _ _ HT Hy Ha) as S1. eapply same_file_trans; [exact S1|]. apply low_same; [apply S1|lia].
Qed.

Lemma change_good j y t c : j <> k -> Z.of_nat j + 1 < NINODES -> (forall b, owns V x b -> ~ owns V y b) -> length (i_addrs x1) = 13%nat -> good V j y t c -> good V' j y t c.
Proof.
  intros Hj Hjm Ha Hl (Ey & Hst & Ho). split_and!; [done|eapply same_stored; [apply change_other|]; try done; apply Hst|]. assert (Ei : i_inum y = Z.of_nat j + 1) by by rewrite Ey.
  destruct (iblock_image (i_inum y) ltac:(lia)) as [_ Hib]. unfold V'. apply other_inode; [done|by apply length_dinode|lia|lia|lia|].
  unfold on_disk in *. by rewrite (to_low _ _ _ _ _ _ HT) by (change (sb_bmapstart sb_image) with 45; lia).
Qed.

Lemma change_apart y b : img_file_ok V1 x1 -> img_file_ok V y -> (forall b, owns V x b -> ~ owns V y b) -> owns V' x' b -> ~ owns V' y b.
Proof.
  intros Hx1 Hy Ha Hx' Hy'. apply (same_owns _ _ _ _ (change_other y Hy Ha)) in Hy'. pose proof change_iblock. assert (Hx1' : img_file_ok V1 x') by exact Hx1.
  assert (Sx : same_file V1 V' x') by (apply low_same; [done|lia]). apply (same_owns _ _ _ _ Sx) in Hx'. destruct (to_new _ _ _ _ _ _ HT b Hx') as [Hx|Hn]; [by apply (Ha b)|]. apply Hn. by eapply owns_data.
Qed.
End Change.

Lemma append_img `{HostOk} s xs fs k x t c src : let n := Z.of_nat (length src) in
  img s xs fs -> xs !! k = Some x -> fs !! k = Some (t, c) -> Z.of_nat (length (c ++ src)) <= MAXFILE * BSIZE -> total (<[k := (t, c ++ src)]> fs) <= nblocks ->
  exists s' x', iappend (Z.of_nat k + 1) src n s = Ok tt s' /\ img s' (<[k := x']> xs) (<[k := (t, c ++ src)]> fs).
Proof.
  intros n Hi Hx Hf Hmax Hroom. destruct Hi as [I1 I2 I3 I4 I5 I6 I7 I8]. destruct (I7 k x t c Hx Hf) as (Ex & Hst & Ho). assert (Hkm := lookup_lt_Some _ _ _ Hx).
  assert (Es : i_size x = Z.of_nat (length c)) by by rewrite Ex. assert (Ei : i_inum x = Z.of_nat k + 1) by by rewrite Ex. rewrite length_app in Hmax. rewrite (total_insert _ _ _ _ Hf) in Hroom. cbn [snd] in Hroom.
  change nblocks with 954 in Hroom. rewrite nmeta_eq in I5. destruct (iappend_ok s x c src I1 Hst Es Ho) as (s' & x' & E & [A1 [A2 A3] (V1 & x1 & T & St1 & -> & Vw)]);
    [lia|rewrite Es; lia|rewrite Es; unfold FSSIZE; rewrite length_app, Nat2Z.inj_add in Hroom; lia|].
  rewrite Ei in E, Vw. exists s', (set_i_size (Z.of_nat (length (c ++ src))) x1). split; [exact E|]. destruct (change_iblock k ltac:(lia)) as [Hib1 Hib2].
  assert (Hl1 : forall bn, length (V1 bn) = Z.to_nat BSIZE).
  { intros bn. destruct (decide (bn = IBLOCK (Z.of_nat k + 1) sb_image)) as [->|Hne]; [|rewrite <- (view_len s' A1 bn), Vw; by rewrite fupd_ne].
    rewrite (to_low _ _ _ _ _ _ T) by (change (sb_bmapstart sb_image) with 45; lia). by apply view_len. }
  assert (Hfile : forall j y, xs !! j = Some y -> img_file_ok (view s) y).
  { intros j y Hy. assert (Hj := lookup_lt_Some _ _ _ Hy). rewrite I3 in Hj. destruct (lookup_lt_is_Some_2 fs j Hj) as [[t' c'] Hf']. apply (I7 j y t' c' Hy Hf'). }
  assert (Hsame : forall j y, j <> k -> xs !! j = Some y -> same_file (view s) (view s') y).
  { intros j y Hj Hy. rewrite Vw. apply (change_other _ _ x x1); try done; [lia|by eapply Hfile|intros b; by eapply (I8 k j)]. }
  split.
  - done.
  - by rewrite length_insert, A3.
  - by rewrite !length_insert.
  - by rewrite length_insert.
  - rewrite (total_insert _ _ _ _ Hf), A2, Es, nmeta_eq, I5. cbn [snd]. lia.
  - rewrite <- (view_img s') by done. rewrite Vw, fupd_ne by lia. rewrite (to_low _ _ _ _ _ _ T) by done. by rewrite view_img.
  - intros j y t' c' Hy Hf'. rewrite Vw. destruct (decide (j = k)) as [->|Hne].
    + rewrite list_lookup_insert_eq in Hy by done. rewrite list_lookup_insert_eq in Hf' by lia. injection Hy as <-. injection Hf' as <- <-. apply (change_self (view s) V1 x); try done; [lia|by rewrite Es].
    + rewrite list_lookup_insert_ne in Hy by done. rewrite list_lookup_insert_ne in Hf' by done. apply (change_good (view s) V1 x); try done; [lia|apply lookup_lt_Some in Hy; lia|intros ?; by eapply (I8 k j)|apply St1|by apply I7].
  - intros i j y1 y2 b Hij H1 H2. rewrite Vw. destruct (decide (i = k)) as [->|Hik]; [|destruct (decide (j = k)) as [->|Hjk]].
    + rewrite list_lookup_insert_eq in H1 by done. injection H1 as <-. rewrite list_lookup_insert_ne in H2 by done. apply (change_apart (view s) V1 x); try done; [lia|apply St1|by eapply Hfile|intros ?; by eapply (I8 k j)].
    + rewrite list_lookup_insert_eq in H2 by done. injection H2 as <-. rewrite list_lookup_insert_ne in H1 by done. intros Ho1 Ho2. revert Ho1.
      apply (change_apart (view s) V1 x x1 _ k); try done; [lia|apply St1|by eapply Hfile|intros ?; by eapply (I8 k i)].
    + rewrite list_lookup_insert_ne in H1 by done. rewrite list_lookup_insert_ne in H2 by done. rewrite <- Vw.
      rewrite (same_owns _ _ _ _ (Hsame i y1 Hik H1)), (same_owns _ _ _ _ (Hsame j y2 Hjk H2)). by eapply (I8 i j).
Qed.

(** ** ialloc() *)

Definition new_inode (t : Z) (k : nat) : inode := mkinode ROOTDEV (Z.of_nat k + 1) 0 0 t 0 0 1 0 (List.repeat 0 13).

Lemma new_addr t k i : addr_at (new_inode t k) i = 0.
Proof. unfold addr_at. cbn [i_addrs new_inode]. apply nth_repeat. Qed.

Lemma new_blkno V t k g : blkno V (new_inode t k) g = 0.
Proof. unfold blkno. rewrite !new_addr. by destruct (g <? NDIRECT). Qed.

Lemma new_stored V t k : stored V (new_inode t k) [].
Proof.
  split_and!.
  - split_and!; [done|done|]. split; rewrite ?new_addr; [by left|intros g _; left; apply new_blkno| |]; intros g; rewrite new_blkno; done.
  - split; [|by rewrite new_addr]. intros g Hg. rewrite new_blkno. cbn. unfold BSIZE. lia.
  - intros a _ _ Hn. by rewrite new_blkno in Hn.
Qed.

Lemma new_owns V t k b : ~ owns V (new_inode t k) b.
Proof. intros [Hne [E|(g & _ & E)]]; [by rewrite new_addr in E|by rewrite new_blkno in E]. Qed.

Lemma new_bytes t k : 0 <= t < 2 ^ 16 ->
  put_din_size (xint 0) (put_le (put_le (List.repeat Byte.x00 64) 0 2 (xshort t)) 6 2 (xshort 1)) = dinode_bytes (new_inode t k).
Proof. intros Ht. rewrite xshort_id by done. reflexivity. Qed.

Lemma ialloc_img `{HostOk} s xs fs t : img s xs fs -> 0 <= t < 2 ^ 16 -> Z.of_nat (length xs) + 1 < NINODES ->
  exists s' x, ialloc t s = Ok (Z.of_nat (length xs) + 1) s' /\ img s' (xs ++ [x]) (fs ++ [(t, [])]).
Proof.
  intros [I1 I2 I3 I4 I5 I6 I7 I8] Ht Hmax. set (k := length xs) in *. set (x := new_inode t k). set (s0 := set_m_freeinode (u32 (Z.of_nat k + 1 + 1)) s). unfold NINODES in Hmax.
  assert (Hs0 : mk_ok s0) by (by destruct I1). destruct (winode_run s0 x Hs0) as (s' & E & Hs' & Vw & F' & N'); [done|cbn [i_inum x new_inode]; unfold NINODES; lia|].
  exists s', x. split.
  { unfold ialloc. rewrite (bind_run (gets m_freeinode) _ (Z.of_nat k + 1) s s) by (unfold gets; by rewrite I2). rewrite (bind_run (modify _) _ tt s s0) by done.
    cbv zeta. rewrite (new_bytes t k) by done. fold x. change (Z.of_nat k + 1) with (i_inum x) at 1. by rewrite (bind_run _ _ _ _ _ E). }
  assert (HT : img_touched (view s) x (view s) x) by (apply touched_refl; [apply new_stored|by apply view_meta]).
  change (view s' = fupd (view s) (IBLOCK (Z.of_nat k + 1) sb_image) (put_bytes (view s (IBLOCK (Z.of_nat k + 1) sb_image)) (slot (Z.of_nat k + 1)) (dinode_bytes (set_i_size 0 x)))) in Vw.
  assert (Hl := view_len s I1). destruct (change_iblock k ltac:(unfold NINODES; lia)) as [Hib1 Hib2]. assert (Hx : forall b, owns (view s) x b -> False) by (intros b; apply new_owns).
  assert (Hfile : forall j y, xs !! j = Some y -> img_file_ok (view s) y).
  { intros j y Hy. assert (Hj := lookup_lt_Some _ _ _ Hy). fold k in Hj. rewrite I3 in Hj. destruct (lookup_lt_is_Some_2 fs j Hj) as [[t' c'] Hf']. apply (I7 j y t' c' Hy Hf'). }
  assert (Hnew : forall j y b, (xs ++ [x]) !! j = Some y -> owns (view s') y b -> (j < k)%nat /\ xs !! j = Some y /\ owns (view s) y b).
  { intros j y b Hy Hb. destruct (decide (j < k)%nat) as [Hj|Hj].
    - rewrite lookup_app_l in Hy by done. split_and!; [done|done|]. rewrite Vw in Hb. rewrite (same_owns (view s)) in Hb; [done|]. apply (change_other _ _ x x 0 k); try done; [by eapply Hfile|intros b' Hb'; by destruct (Hx b')].
    - rewrite lookup_app_r in Hy by lia. fold k in Hy. apply list_lookup_singleton_Some in Hy as [_ <-]. by destruct (new_owns (view s') t k b). }
  split.
  - done.
  - rewrite N'. cbn [s0 set_m_freeinode m_freeinode]. rewrite length_app. cbn [length]. fold k. rewrite u32_small by lia. lia.
  - rewrite !length_app. cbn [length]. lia.
  - rewrite length_app. cbn [length]. fold k. unfold NINODES. lia.
  - rewrite total_app, F'. change (m_freeblock s0) with (m_freeblock s). rewrite I5. change (total [(t, [])]) with 0. lia.
  - rewrite <- (view_img s') by done. rewrite Vw, fupd_ne by lia. by rewrite view_img.
  - intros j y t' c' Hy Hf'. rewrite Vw. destruct (decide (j < k)%nat) as [Hj|Hj].
    + rewrite lookup_app_l in Hy by done. rewrite lookup_app_l in Hf' by lia. apply (change_good (view s) (view s) x x 0 k); try done; [lia|unfold NINODES; lia|intros b Hb; by destruct (Hx b)|by apply I7].
    + rewrite lookup_app_r in Hy by lia. rewrite lookup_app_r in Hf' by lia. fold k in Hy. rewrite <- I3 in Hf'. apply list_lookup_singleton_Some in Hy as [Ej <-]. apply list_lookup_singleton_Some in Hf' as [_ [= <- <-]].
      replace j with k by lia. change x with (set_i_size 0 x) at 2. apply (change_self (view s) (view s) x x 0 k); try done. apply new_stored.
  - intros i j y1 y2 b Hij H1 H2 O1 O2. destruct (Hnew i y1 b H1 O1) as (_ & H1' & O1'). destruct (Hnew j y2 b H2 O2) as (_ & H2' & O2'). by apply (I8 i j y1 y2 b).
Qed.
