(* ===== verification/MkfsSpec.v ===== *)
(** What mkfs promises the kernel (mkfs/mkfs.c against kernel/fs.c): the disk image
    holds the files it was given. *)

From Stdlib Require Import ZArith Lia FunctionalExtensionality.
From stdpp Require Import base tactics list strings.
From coqutil Require Import Byte Word.LittleEndianList.
From S2P Require Import Prelude Riscv Mem Core State Virtio Bio Block Log Fs FsOk FsFile FsCrash FsDir Mkfs MkfsOk MkfsImage.

Local Open Scope Z_scope.
Local Open Scope kern_scope.

(** ** Directory entries and files *)

(** The names in the root directory and the inodes they stand for; a file is
    its name and its bytes. *)
Definition table (files : list (list byte * list byte)) : list (list byte * Z) :=
  [([Byte.x2e], 1); ([Byte.x2e; Byte.x2e], 1)] ++ imap (fun i f => (f.1, Z.of_nat i + 2)) files.

Definition dir_bytes (l : list (list byte * Z)) : list byte := concat (List.map (fun e => dirent e.2 e.1) l).

Definition contents (files : list (list byte * list byte)) : list (Z * list byte) :=
  (T_DIR, dir_bytes (table files)) :: List.map (fun f => (T_FILE, f.2)) files.

Lemma length_dirent inum name : length (dirent inum name) = 16%nat.
Proof. unfold dirent. by rewrite length_app, length_le_split, length_strncpy. Qed.

Lemma length_dir l : length (dir_bytes l) = (16 * length l)%nat.
Proof. induction l as [|e l IH]; [done|]. unfold dir_bytes in *. cbn [List.map concat length]. rewrite length_app, IH, length_dirent. lia. Qed.

Lemma length_table files : length (table files) = (length files + 2)%nat.
Proof. unfold table. rewrite length_app, length_imap. cbn [length]. lia. Qed.

Lemma table_snoc files f : table (files ++ [f]) = table files ++ [(f.1, Z.of_nat (length files) + 2)].
Proof. unfold table. rewrite imap_app, app_assoc. cbn. by rewrite Nat.add_0_r. Qed.

Lemma dir_snoc l e : dir_bytes (l ++ [e]) = dir_bytes l ++ dirent e.2 e.1.
Proof. unfold dir_bytes. rewrite map_app, concat_app. cbn [List.map concat]. by rewrite app_nil_r. Qed.

Lemma contents_snoc files f : contents (files ++ [f]) = <[0%nat := (T_DIR, dir_bytes (table files) ++ dirent (Z.of_nat (length files) + 2) f.1)]> (contents files) ++ [(T_FILE, f.2)].
Proof. unfold contents. rewrite table_snoc, dir_snoc, map_app. done. Qed.

Lemma total_nonneg fs : 0 <= total fs.
Proof.
  induction fs as [|f fs IH]; [done|]. cbn [total foldr]. fold (total fs). assert (0 <= nblk (Z.of_nat (length f.2))); [|lia].
  change 0 with (nblk 0). apply nblk_mono. lia.
Qed.

Lemma total_contents files l : total (contents files) <= total (contents (files ++ l)).
Proof.
  unfold contents. cbn [total foldr]. fold (total (List.map (fun f : list byte * list byte => (T_FILE, f.2)) files)) (total (List.map (fun f : list byte * list byte => (T_FILE, f.2)) (files ++ l))).
  rewrite map_app, total_app. pose proof (total_nonneg (List.map (fun f : list byte * list byte => (T_FILE, f.2)) l)).
  assert (nblk (Z.of_nat (length (dir_bytes (table files)))) <= nblk (Z.of_nat (length (dir_bytes (table (files ++ l)))))) by (apply nblk_mono; rewrite !length_dir, !length_table, length_app; lia). cbn [snd]. lia.
Qed.

Section Files.
Context `{HostOk}.

(** Appending to a file a piece at a time. *)
Lemma chunks_img chunks k t c xs fs s : img s xs fs -> fs !! k = Some (t, c) -> Z.of_nat (length (c ++ concat chunks)) <= MAXFILE * BSIZE ->
  total (<[k := (t, c ++ concat chunks)]> fs) <= nblocks ->
  exists s' xs', forM chunks (fun buf => iappend (Z.of_nat k + 1) buf (Z.of_nat (length buf))) s = Ok tt s' /\ img s' xs' (<[k := (t, c ++ concat chunks)]> fs).
Proof.
  revert c xs fs s. induction chunks as [|b chunks IH]; intros c xs fs s Hi Hf Hmax Hroom; cbn [forM concat] in *.
  - exists s, xs. rewrite app_nil_r, list_insert_id by done. done.
  - assert (Hk : (k < length xs)%nat) by (rewrite (im_len _ _ _ Hi); by eapply lookup_lt_Some). destruct (lookup_lt_is_Some_2 xs k Hk) as [x Hx].
    rewrite app_assoc in Hmax, Hroom |- *. destruct (append_img s xs fs k x t c b Hi Hx Hf) as (s1 & x1 & E1 & Hi1).
    { rewrite length_app in Hmax. lia. }
    { rewrite (total_insert _ _ _ _ Hf) in Hroom. rewrite (total_insert _ _ _ _ Hf). cbn [snd] in *. pose proof (nblk_mono (Z.of_nat (length (c ++ b))) (Z.of_nat (length ((c ++ b) ++ concat chunks))) ltac:(rewrite (length_app (c ++ b)); lia)). lia. }
    destruct (IH (c ++ b) _ _ s1 Hi1) as (s2 & xs2 & E2 & Hi2); [by rewrite list_lookup_insert_eq by (by eapply lookup_lt_Some)|done|by rewrite list_insert_insert_eq|].
    exists s2, xs2. rewrite (bind_run _ _ _ _ _ E1). rewrite list_insert_insert_eq in Hi2. done.
Qed.

Lemma add_entry_img inum name c xs fs s : img s xs ((T_DIR, c) :: fs) -> 0 <= inum < 2 ^ 16 -> Z.of_nat (length c) + 16 <= MAXFILE * BSIZE -> total ((T_DIR, c ++ dirent inum name) :: fs) <= nblocks ->
  exists s' xs', add_entry ROOTINO inum name s = Ok tt s' /\ length xs' = length xs /\ img s' xs' ((T_DIR, c ++ dirent inum name) :: fs).
Proof.
  intros Hi Hinum Hmax Hroom. destruct xs as [|x xs]; [by pose proof (im_len _ _ _ Hi)|].
  destruct (append_img s (x :: xs) ((T_DIR, c) :: fs) 0 x T_DIR c (dirent inum name) Hi eq_refl eq_refl) as (s' & x' & E & Hi'); [rewrite length_app, length_dirent; lia|done|].
  exists s', (x' :: xs). split_and!; [|done|done]. unfold add_entry. rewrite xshort_id by done. fold (dirent inum name). rewrite length_dirent in E. exact E.
Qed.

Lemma add_file_img arg chunks files xs s : let f := (strip_mark (strip_dir arg), concat chunks) in
  img s xs (contents files) -> host_file arg = Some chunks -> slash ∉ strip_dir arg -> Z.of_nat (length (concat chunks)) <= MAXFILE * BSIZE ->
  Z.of_nat (length files) + 2 < NINODES -> total (contents (files ++ [f])) <= nblocks ->
  exists s' xs', add_file ROOTINO arg s = Ok tt s' /\ img s' xs' (contents (files ++ [f])).
Proof.
  intros f Hi Hh Hsl Hmax Hn Hroom. set (k := S (length files)). assert (Hk : length (contents files) = k) by (unfold contents; cbn [length]; by rewrite length_map).
  assert (Hxs : length xs = k) by (rewrite <- Hk; apply (im_len _ _ _ Hi)). unfold NINODES in Hn. rewrite contents_snoc in Hroom |- *. cbn [fst snd f] in *.
  set (d := dirent (Z.of_nat (length files) + 2) (strip_mark (strip_dir arg))) in *. set (c := dir_bytes (table files)) in *. set (rest := List.map (fun f : list byte * list byte => (T_FILE, f.2)) files).
  change (<[0%nat := (T_DIR, c ++ d)]> (contents files)) with ((T_DIR, c ++ d) :: rest) in *. rewrite total_app in Hroom.
  destruct (ialloc_img s xs (contents files) T_FILE Hi) as (s1 & x1 & E1 & Hi1); [done|rewrite Hxs; unfold NINODES, k; lia|].
  assert (Hlc : length c = (16 * (length files + 2))%nat) by (unfold c; by rewrite length_dir, length_table).
  assert (Ht1 : total [(T_FILE, concat chunks)] = nblk (Z.of_nat (length (concat chunks)))) by (cbn; lia).
  assert (Hn0 := nblk_mono 0 (Z.of_nat (length (concat chunks))) ltac:(lia)). change (nblk 0) with 0 in Hn0.
  destruct (add_entry_img (Z.of_nat (length files) + 2) (strip_mark (strip_dir arg)) c _ (rest ++ [(T_FILE, [])]) s1 Hi1) as (s2 & xs2 & E2 & Hx2 & Hi2);
    [lia|change (MAXFILE * BSIZE) with 274432; lia|fold d; change ((T_DIR, c ++ d) :: rest ++ [(T_FILE, [])]) with (((T_DIR, c ++ d) :: rest) ++ [(T_FILE, [])]); rewrite total_app; change (total [(T_FILE, [])]) with 0; lia|].
  fold d in Hi2. change ((T_DIR, c ++ d) :: rest ++ [(T_FILE, [])]) with (((T_DIR, c ++ d) :: rest) ++ [(T_FILE, [])]) in Hi2. set (fs := (T_DIR, c ++ d) :: rest) in *.
  assert (Hfs : length fs = k) by exact Hk. assert (Hins : <[k := (T_FILE, concat chunks)]> (fs ++ [(T_FILE, [])]) = fs ++ [(T_FILE, concat chunks)]) by (rewrite insert_app_r_alt, Hfs, Nat.sub_diag by lia; done).
  destruct (chunks_img chunks k T_FILE [] xs2 _ s2 Hi2) as (s3 & xs3 & E3 & Hi3); [rewrite lookup_app_r, Hfs, Nat.sub_diag by lia; done|done|cbn [app]; rewrite Hins, total_app; lia|].
  exists s3, xs3. cbn [app] in Hi3. rewrite Hins in Hi3. split; [|done].
  unfold add_file. rewrite bool_decide_eq_false_2 by done. rewrite Hh. rewrite (bind_run _ _ _ _ _ E1), Hxs. replace (Z.of_nat k + 1) with (Z.of_nat (length files) + 2) in * by (unfold k; lia).
  by rewrite (bind_run _ _ _ _ _ E2).
Qed.
End Files.

(** ** The files of the command line *)

(** The host has the file [arg] with the bytes [c], and its name in the image is [name]. *)
Definition host_has `{Host} (arg : list byte) (f : list byte * list byte) : Prop :=
  ~ (slash ∈ strip_dir arg) /\ f.1 = strip_mark (strip_dir arg) /\ exists chunks, host_file arg = Some chunks /\ f.2 = concat chunks.

Section Main.
Context `{HostOk}.

Lemma files_img args files done xs s : Forall2 host_has args files -> img s xs (contents done) -> Forall (fun f => Z.of_nat (length f.2) <= MAXFILE * BSIZE) files ->
  Z.of_nat (length done + length files) + 1 < NINODES -> total (contents (done ++ files)) <= nblocks ->
  exists s' xs', forM args (add_file ROOTINO) s = Ok tt s' /\ img s' xs' (contents (done ++ files)).
Proof.
  intros Hf. revert done xs s. induction Hf as [|arg [name c] args files (Hsl & En & chunks & Hh & Ec) _ IH]; intros done xs s Hi Hmax Hn Hroom; cbn [forM].
  - rewrite app_nil_r. by exists s, xs.
  - cbn [fst snd length] in *. subst name c. apply Forall_cons_1 in Hmax as [Hm1 Hm2]. cbn [snd] in Hm1. rewrite cons_middle, app_assoc in Hroom |- *.
    destruct (add_file_img arg chunks done xs s Hi Hh Hsl Hm1) as (s1 & xs1 & E1 & Hi1); [lia|etrans; [apply (total_contents _ files)|exact Hroom]|].
    destruct (IH _ xs1 s1 Hi1 Hm2) as (s2 & xs2 & E2 & Hi2); [rewrite length_app; cbn [length]; lia|exact Hroom|]. exists s2, xs2. by rewrite (bind_run _ _ _ _ _ E1).
Qed.

(** ** Before the first file *)

Lemma wsect_raw sec buf s : 0 <= sec < FSSIZE -> wsect sec buf s = Ok tt (set_m_img (fupd (m_img s) sec buf) (Z.max (m_end s) (sec + 1)) s).
Proof. intros Hsec. unfold wsect. rewrite lseek_ok, write_ok, !Z.eqb_refl, sect_off by done. done. Qed.

Lemma zero_all n a s : m_end s = Z.of_nat a -> Z.of_nat (a + n) <= FSSIZE -> (forall bn, m_img s bn = zeroes) ->
  exists f, forM (seq a n) (fun i => wsect (Z.of_nat i) zeroes) s = Ok tt (set_m_img f (Z.of_nat (a + n)) s) /\ forall bn, f bn = zeroes.
Proof.
  revert a s. induction n as [|n IH]; intros a s Ha Hn Hz; cbn [seq forM].
  - exists (m_img s). rewrite Nat.add_0_r, <- Ha. split; [|done]. by destruct s.
  - rewrite (bind_run _ _ _ _ _ (wsect_raw (Z.of_nat a) zeroes s ltac:(lia))). rewrite Ha, Z.max_r by lia.
    destruct (IH (S a) (set_m_img (fupd (m_img s) (Z.of_nat a) zeroes) (Z.of_nat a + 1) s)) as (f & E & Hf); [cbn; lia|lia|intros bn; cbn; unfold fupd; by case_decide|].
    exists f. rewrite E, <- Nat.add_succ_comm. done.
Qed.

Definition start_img (f : Z -> list byte) : image := mkimage (fupd f 1 sb_block) FSSIZE sb_image 1 nmeta.

Lemma start_ok f : (forall bn, f bn = zeroes) -> img (start_img f) [] [].
Proof.
  intros Hf. split; try done. split; cbn [start_img m_sb m_end m_img m_freeblock]; try done.
  - intros bn. unfold fupd. case_decide; [done|by rewrite Hf].
  - intros c Hc. rewrite nmeta_eq in Hc. rewrite fupd_ne by lia. apply Hf.
Qed.

(** ** The bitmap *)

Lemma balloc_run s : mk_ok s -> balloc (m_freeblock s) s = Ok tt (put_sect 45 (bitmap (Z.to_nat (m_freeblock s))) s).
Proof.
  intros Hs. pose proof (free_range s Hs) as Hfr. set (u := m_freeblock s) in *. unfold balloc. rewrite (proj2 (Z.ltb_lt u _)) by (unfold BSIZE; lia). cbn [negb].
  enough (wp (loop (fun '(i, buf) => if i <? u then ret (inl (i + 1, put_dbyte buf (i / 8) (Z.lor (dbyte buf (i / 8)) (Z.shiftl 1 (i mod 8))))) else ret (inr buf)) (0, List.repeat Byte.x00 (Z.to_nat BSIZE)))
      (fun buf s' => buf = bitmap (Z.to_nat u) /\ s' = s) s) as W.
  { apply wp_elim in W as (buf & s' & E & -> & ->). rewrite (bind_run _ _ _ _ _ E). rewrite (bind_run (gets m_sb) _ sb_image s s) by (unfold gets; by rewrite (mk_sb _ Hs)).
    apply wsect_run; [done|unfold FSSIZE; change (sb_bmapstart sb_image) with 45; lia]. }
  apply (wp_loop _ (fun j '(i, buf) s' => 0 <= i <= u /\ j = u - i /\ buf = bitmap (Z.to_nat i) /\ s' = s)) with (n := u).
  - intros j [i buf] s' _ (Hi & -> & -> & ->). destruct (Z.ltb_spec i u).
    + apply wp_ret. exists (u - (i + 1)). split; [lia|]. split_and!; [lia|lia|lia| |done]. replace (Z.to_nat (i + 1)) with (S (Z.to_nat i)) by lia. cbn [bitmap]. by rewrite Z2Nat.id by lia.
    + apply wp_ret. by replace i with u by lia.
  - lia.
  - split_and!; try done; lia.
Qed.
End Main.

(** ** Inodes and directories as the kernel reads them *)

(** The inode that ilock() reads. *)
Definition inode_at (sb : superblock) (D : Z -> list byte) (inum : Z) : inode :=
  let d := D (IBLOCK inum sb) in
  let off := inum mod IPB * sizeof_dinode in
  mkinode ROOTDEV inum 0 0 (dinode_type d off) (dinode_major d off) (dinode_minor d off) (dinode_nlink d off) (dinode_size d off) (dinode_addrs d off).

Lemma get_sub d off m a n : 0 <= off -> 0 <= a -> a + Z.of_nat n <= Z.of_nat m -> get_le d (off + a) n = get_le (sub d off m) a n.
Proof.
  intros Ho Ha Hm. unfold get_le. f_equal. fold (sub d (off + a) n) (sub (sub d off m) a n). apply list_eq. intros k. destruct (decide (k < n)%nat); [|by rewrite !lookup_sub_ge by lia].
  rewrite !lookup_sub by lia. f_equal. lia.
Qed.

Lemma get_head_word l (r : list byte) n v : get_le (l ++ le_split n v ++ r) (Z.of_nat (length l)) n = v mod 2 ^ (Z.of_nat n * 8).
Proof.
  unfold get_le. rewrite Nat2Z.id, drop_app_ge, Nat.sub_diag, drop_0 by lia. rewrite take_app_le, take_ge by (by rewrite length_le_split). apply le_combine_split.
Qed.

Lemma i16_small v : 0 <= v < 2 ^ 15 -> i16 v = v.
Proof. intros Hv. unfold i16. rewrite Z.mod_small by lia. lia. Qed.

Lemma inode_decode D i t z addrs : let x := mkinode ROOTDEV i 0 0 t 0 0 1 z addrs in
  on_disk sb_image D x -> 0 <= t < 2 ^ 15 -> 0 <= z < 2 ^ 32 -> length addrs = 13%nat -> (forall k, 0 <= k <= NDIRECT -> 0 <= addr_at x k < 2 ^ 32) -> inode_at sb_image D i = x.
Proof.
  intros x Ho Ht Hz Hl Ha. unfold on_disk in Ho. change (i_inum x) with i in Ho. unfold inode_at. fold (slot i) in *. set (d := D (IBLOCK i sb_image)) in *. pose proof (slot_range i) as Hs.
  assert (G : forall a n, 0 <= a -> a + Z.of_nat n <= 64 -> get_le d (slot i + a) n = get_le (dinode_bytes x) a n) by (intros a n ? ?; rewrite <- Ho; apply get_sub; lia).
  assert (G0 : get_le d (slot i) 2 = get_le (dinode_bytes x) 0 2) by (rewrite <- (Z.add_0_r (slot i)); by apply G).
  assert (E : dinode_type d (slot i) = t /\ dinode_major d (slot i) = 0 /\ dinode_minor d (slot i) = 0 /\ dinode_nlink d (slot i) = 1).
  { unfold dinode_type, dinode_major, dinode_minor, dinode_nlink. rewrite !G, G0 by lia. split_and!; [|done|done|done].
    change 0 with (Z.of_nat (length (@nil byte))) at 1. change (dinode_bytes x) with ([] ++ dinode_bytes x). unfold dinode_bytes. rewrite get_head_word. cbn [i_type x].
    rewrite Z.mod_small by (change (2 ^ (Z.of_nat 2 * 8)) with 65536; lia). by apply i16_small. }
  destruct E as (-> & -> & -> & ->). unfold x. f_equal.
  - unfold dinode_size, get32. rewrite G by lia. by apply (din_get_size x).
  - unfold dinode_addrs, get32. apply list_eq. intros k. destruct (decide (k < 13)%nat) as [Hk|Hk].
    + rewrite list_lookup_fmap, lookup_seq_lt by done. cbn [fmap option_fmap option_map Nat.add]. rewrite <- Z.add_assoc, G by lia.
      fold (get32 (dinode_bytes x) (12 + 4 * Z.of_nat k)). fold (din_addr (dinode_bytes x) (Z.of_nat k)). rewrite (din_addr_at x) by (done || (unfold NDIRECT; lia) || (apply Ha; unfold NDIRECT; lia)).
      unfold addr_at. cbn [i_addrs x]. rewrite Nat2Z.id, nth_lookup. destruct (lookup_lt_is_Some_2 addrs k) as [v Hv]; [lia|]. by rewrite Hv.
    + rewrite !lookup_ge_None_2; [done|lia|]. rewrite length_map, length_seq. lia.
Qed.

(** The inode number of a name, or nothing. *)
Definition find_name (name : list byte) (l : list (list byte * Z)) : option Z := (fun p => p.2.2) <$> list_find (fun e => same_name name e.1) l.

Lemma find_dirents name l m : Forall (fun e => 0 < e.2 < 2 ^ 16) l ->
  (fun p => de_inum p.2) <$> list_find (matches name) (List.map (fun e => dirent e.2 e.1) l ++ replicate m (List.repeat Byte.x00 16)) = find_name name l.
Proof.
  intros Hl. induction Hl as [|[n i] l Hi _ IH]; cbn [List.map app].
  - assert (E : list_find (matches name) (replicate m (List.repeat Byte.x00 16)) = None).
    { apply list_find_None, Forall_replicate. by intros [? _]. }
    by rewrite E.
  - cbn [fst snd] in *. destruct (dirent_ok i n Hi) as (_ & Ei & Hm). unfold find_name in *. cbn [list_find]. destruct (decide (same_name name n)) as [Hs|Hs].
    + rewrite decide_True by by apply Hm. rewrite decide_True by done. cbn. by rewrite Ei.
    + rewrite decide_False by by rewrite Hm. rewrite decide_False by done. 
      destruct (list_find (matches name) _) as [[]|], (list_find _ l) as [[]|]; cbn in IH |- *; congruence.
Qed.

Lemma repeat_lookup n (b : byte) i : (i < n)%nat -> List.repeat b n !! i = Some b.
Proof. revert i. induction n as [|n IH]; intros [|i] Hi; [lia|lia|done|]. apply IH. lia. Qed.

Lemma nth_dirents l k i e : l !! k = Some e -> (i < 16)%nat -> nth (16 * k + i) (dir_bytes l) Byte.x00 = nth i (dirent e.2 e.1) Byte.x00.
Proof.
  revert k. induction l as [|e' l IH]; intros [|k] Hk Hi; [done|done| |]; cbn in Hk; unfold dir_bytes; cbn [List.map concat]; fold (dir_bytes l).
  - injection Hk as ->. by rewrite app_nth1 by (rewrite length_dirent; lia).
  - rewrite app_nth2 by (rewrite length_dirent; lia). rewrite length_dirent. replace (16 * S k + i - 16)%nat with (16 * k + i)%nat by lia. by apply IH.
Qed.

(** The root directory with the entries [l], and the size it has at the end. *)
Section Root.
Context (V : Z -> list byte) (r : inode) (l : list (list byte * Z)).
Let N := length l.
Let sz := (Z.of_nat (16 * N) / BSIZE + 1) * BSIZE.
Let r' := set_i_size sz r.
Hypothesis Hst : stored V r (dir_bytes l).
Hypothesis HN : (N <= 300)%nat.

Lemma root_size : 0 < sz <= 8192 /\ Z.of_nat (16 * N) < sz /\ sz = 1024 * (Z.of_nat N / 64) + 1024.
Proof.
  unfold sz, BSIZE. replace (Z.of_nat (16 * N) / 1024) with (Z.of_nat N / 64) by (replace (Z.of_nat (16 * N)) with (Z.of_nat N * 16) by lia; change 1024 with (64 * 16); by rewrite Z.div_mul_cancel_r).
  pose proof (Z.div_mod (Z.of_nat N) 64 ltac:(lia)). pose proof (Z.mod_pos_bound (Z.of_nat N) 64 ltac:(lia)). assert (0 <= Z.of_nat N / 64 < 5) by (split; [apply Z.div_pos; lia|apply Z.div_lt_upper_bound; lia]). lia.
Qed.

Lemma mod64 : Z.of_nat N mod 64 = Z.of_nat (N mod 64).
Proof. by rewrite (Nat2Z.inj_mod N 64). Qed.

Lemma root_blocks g : 0 <= g -> g * BSIZE < sz -> blkno V r g <> 0 <-> g * 1024 < Z.of_nat (16 * N).
Proof.
  intros Hg Hlt. pose proof root_size. destruct Hst as (_ & [Hc _] & _). rewrite Hc by (change MAXFILE with 268; unfold BSIZE in *; lia). by rewrite length_dir.
Qed.

Lemma root_sized : (N mod 64 <> 0)%nat -> sized V r'.
Proof.
  intros HN0. destruct root_size as (H1 & H2 & H3). split; [change (MAXFILE * BSIZE) with 274432; cbn [i_size r' set_i_size]; lia|]. intros g Hg Hlt. change (blkno V r' g) with (blkno V r g).
  apply root_blocks; [done|done|]. cbn [i_size r' set_i_size] in Hlt. unfold BSIZE in Hlt. pose proof (Z.div_mod (Z.of_nat N) 64 ltac:(lia)). assert (Z.of_nat N mod 64 <> 0) by (rewrite mod64; lia).
  pose proof (Z.mod_pos_bound (Z.of_nat N) 64 ltac:(lia)). lia.
Qed.

Lemma root_hole : (N mod 64 = 0)%nat -> ~ sized V r'.
Proof.
  intros HN0 [_ Hs]. destruct root_size as (H1 & H2 & H3). assert (E : Z.of_nat N mod 64 = 0) by (rewrite mod64; lia). pose proof (Z.div_mod (Z.of_nat N) 64 ltac:(lia)).
  set (g := Z.of_nat N / 64) in *. assert (0 <= g) by (apply Z.div_pos; lia). specialize (Hs g ltac:(lia)). cbn [i_size r' set_i_size] in Hs.
  assert (g * BSIZE < sz) as Hg by (unfold BSIZE; lia). apply Hs in Hg as Hb. apply (root_blocks g) in Hb; [lia|done|done].
Qed.

Lemma root_entry k i : (N mod 64 <> 0)%nat -> (k < Z.to_nat (sz / 16))%nat -> (i < 16)%nat -> entry V r' k !! i = Some (nth (16 * k + i) (dir_bytes l) Byte.x00).
Proof.
  intros HN0 Hk Hi. destruct root_size as (H1 & H2 & H3). unfold entry. rewrite lookup_content by done. f_equal. set (a := 16 * Z.of_nat k + Z.of_nat i).
  assert (Ha : 0 <= a < sz). { pose proof (Z.div_mod sz 16 ltac:(lia)). pose proof (Z.mod_pos_bound sz 16 ltac:(lia)). unfold a. lia. }
  destruct (sized_block V r' a (root_sized HN0) Ha) as [Hr Hne]. destruct Hst as (_ & _ & Hh). change (fbyte V r' a) with (fbyte V r a). rewrite Hh; [|lia|apply Hr|exact Hne]. f_equal. unfold a. lia.
Qed.

Lemma root_entries : (N mod 64 <> 0)%nat -> entries V r' = List.map (fun e => dirent e.2 e.1) l ++ replicate (Z.to_nat (sz / 16) - N) (List.repeat Byte.x00 16).
Proof.
  intros HN0. destruct root_size as (H1 & H2 & H3). assert (HNs : (N <= Z.to_nat (sz / 16))%nat) by (apply Nat2Z.inj_le; rewrite Z2Nat.id by (apply Z.div_pos; lia); apply Z.div_le_lower_bound; lia).
  apply list_eq. intros k. destruct (decide (k < Z.to_nat (sz / 16))%nat) as [Hk|Hk].
  2: { rewrite !lookup_ge_None_2; [done| |rewrite length_entries; exact (proj1 (Nat.nlt_ge _ _) Hk)]. rewrite length_app, length_map, length_replicate. fold N. lia. }
  rewrite entries_lookup by exact Hk. destruct (decide (k < N)%nat) as [HkN|HkN].
  - destruct (lookup_lt_is_Some_2 l k HkN) as [e He]. rewrite lookup_app_l by (by rewrite length_map). rewrite list_lookup_fmap, He. cbn [fmap option_fmap option_map]. f_equal. apply list_eq. intros i.
    destruct (decide (i < 16)%nat) as [Hi|Hi]; [|rewrite !lookup_ge_None_2; [done|rewrite length_dirent; lia|unfold entry; rewrite length_content; lia]].
    rewrite root_entry by done. rewrite (nth_dirents l k i e He Hi), nth_lookup. destruct (lookup_lt_is_Some_2 (dirent e.2 e.1) i) as [b Hb]; [by rewrite length_dirent|]. by rewrite Hb.
  - rewrite lookup_app_r by (rewrite length_map; fold N; lia). rewrite lookup_replicate_2 by (rewrite length_map; fold N; lia). f_equal. apply list_eq. intros i.
    destruct (decide (i < 16)%nat) as [Hi|Hi]; [|rewrite !lookup_ge_None_2; [done|rewrite repeat_length; lia|unfold entry; rewrite length_content; lia]].
    rewrite root_entry by done. rewrite nth_overflow by (rewrite length_dir; fold N; lia). symmetry. apply (repeat_lookup 16 Byte.x00 i Hi).
Qed.

Lemma root_lookup name : (N mod 64 <> 0)%nat -> Forall (fun e => 0 < e.2 < 2 ^ 16) l -> dir_lookup V r' name = find_name name l.
Proof. intros HN0 Hl. unfold dir_lookup. rewrite root_entries by done. by apply find_dirents. Qed.
End Root.

(** ** The image *)

Lemma stored_bytes V x c : stored V x c -> i_size x = Z.of_nat (length c) -> Z.of_nat (length c) <= MAXFILE * BSIZE -> sized V x /\ file_bytes V x = c.
Proof.
  intros (_ & [Hc _] & Hh) Es Hmax. assert (Hs : sized V x).
  { split; [lia|]. intros g Hg Hlt. rewrite Es in Hlt. apply Hc; [|done]. change (MAXFILE * BSIZE) with 274432 in Hmax. change MAXFILE with 268. unfold BSIZE in Hlt. lia. }
  split; [done|]. apply list_eq. intros k. unfold file_bytes. rewrite Es, Nat2Z.id. destruct (decide (k < length c)%nat) as [Hk|Hk].
  - rewrite lookup_content by done. destruct (sized_block V x (0 + Z.of_nat k) Hs ltac:(lia)) as [Hr Hne]. rewrite Hh; [|lia|apply Hr|done]. rewrite Z.add_0_l, Nat2Z.id, nth_lookup.
    destruct (lookup_lt_is_Some_2 c k Hk) as [b Hb]. by rewrite Hb.
  - rewrite !lookup_ge_None_2; [done|lia|rewrite length_content; lia].
Qed.

Section Image.
Context `{HostOk} (files : list (list byte * list byte)).
Hypothesis Hn : Z.of_nat (length files) + 1 < NINODES.
Let n := (length files + 2)%nat.
Let sz := (Z.of_nat (16 * n) / BSIZE + 1) * BSIZE.

Lemma finish s xs : img s xs (contents files) -> exists r s', xs !! 0%nat = Some r /\
  (let* din := rinode ROOTINO in
   let off := xint (din_size din) in
   let off := u32 ((off / BSIZE + 1) * BSIZE) in
   winode ROOTINO (put_din_size (xint off) din) ;;;
   let* used := gets m_freeblock in
   balloc used) s = Ok tt s' /\ m_img s' = fupd (view s) (IBLOCK 1 sb_image) (put_bytes (view s (IBLOCK 1 sb_image)) (slot 1) (dinode_bytes (set_i_size sz r))).
Proof.
  intros Hi. destruct (lookup_lt_is_Some_2 xs 0) as [r Hr]; [rewrite (im_len _ _ _ Hi); cbn; lia|]. exists r. destruct (im_files _ _ _ Hi 0%nat r _ _ Hr eq_refl) as (Er & Hst & Ho).
  assert (Ei : i_inum r = 1) by by rewrite Er. assert (Es : i_size r = Z.of_nat (16 * n)) by (rewrite Er; cbn [i_size]; by rewrite length_dir, length_table).
  assert (Hl : length (i_addrs r) = 13%nat) by apply Hst. assert (Hs := im_ok _ _ _ Hi). unfold NINODES in Hn.
  destruct (root_size (table files)) as (Z1 & Z2 & _); [rewrite length_table; lia|]. rewrite length_table in Z1, Z2. fold n in Z1, Z2. fold sz in Z1, Z2.
  destruct (winode_run s (set_i_size sz r) Hs Hl) as (s1 & E1 & Hs1 & V1 & F1 & _); [cbn [i_inum set_i_size]; rewrite Ei; unfold NINODES; lia|].
  exists (put_sect 45 (bitmap (Z.to_nat (m_freeblock s1))) s1). cbn [i_inum set_i_size] in E1. rewrite Ei in E1. split_and!; [done| |].
  - change ROOTINO with 1. rewrite <- Ei at 1. rewrite (bind_run _ _ _ _ _ (rinode_run s r Hs Hl ltac:(rewrite Ei; unfold NINODES; lia) Ho)). rewrite din_get_size by (done || (rewrite Es; lia)).
    rewrite Es, xint_id by lia. cbv zeta. rewrite u32_small by (fold sz; lia). fold sz. rewrite xint_id by lia. rewrite din_set_size by done. rewrite (bind_run _ _ _ _ _ E1). by apply balloc_run.
  - change (view s1 = fupd (view s) (IBLOCK 1 sb_image) (put_bytes (view s (IBLOCK 1 sb_image)) (slot 1) (dinode_bytes (set_i_size sz r)))). rewrite V1. unfold put_inode. cbn [i_inum set_i_size]. by rewrite Ei.
Qed.
End Image.

Section MainImg.
Context `{HostOk} (args : list (list byte)) (files : list (list byte * list byte)).

(** Everything before the size of the root directory is rounded up. *)
Lemma main_img prog out : host_create out = true -> Forall2 host_has args files -> Forall (fun f => Z.of_nat (length f.2) <= MAXFILE * BSIZE) files ->
  Z.of_nat (length files) + 1 < NINODES -> total (contents files) <= nblocks ->
  exists s xs, img s xs (contents files) /\ main (prog :: out :: args) image0 =
    (let* din := rinode ROOTINO in
     let off := xint (din_size din) in
     let off := u32 ((off / BSIZE + 1) * BSIZE) in
     winode ROOTINO (put_din_size (xint off) din) ;;;
     let* used := gets m_freeblock in
     balloc used) s.
Proof.
  intros Ho Hf Hmax Hn Hroom. set (s0 := set_m_freeblock nmeta (set_m_sb sb_image (set_m_img (fun _ => zeroes) 0 image0))).
  destruct (zero_all (Z.to_nat FSSIZE) 0 s0) as (f & E0 & Hf0); [done|done|done|]. assert (Hi := start_ok f Hf0). pose proof (total_contents [] files) as Htot. cbn [app] in Htot.
  destruct (ialloc_img _ [] [] T_DIR Hi ltac:(done) ltac:(done)) as (s1 & x1 & E1 & Hi1). cbn [app] in Hi1. unfold nblocks in Hroom.
  destruct (add_entry_img 1 [Byte.x2e] [] [x1] [] s1 Hi1 ltac:(done)) as (s2 & xs2 & E2 & _ & Hi2); [done|done|].
  destruct (add_entry_img 1 [Byte.x2e; Byte.x2e] _ xs2 [] s2 Hi2 ltac:(done)) as (s3 & xs3 & E3 & _ & Hi3); [done|done|].
  destruct (files_img args files [] xs3 s3 Hf Hi3 Hmax ltac:(cbn [length]; lia) Hroom) as (s4 & xs4 & E4 & Hi4). exists s4, xs4. split; [exact Hi4|].
  unfold main. rewrite Ho. cbn [negb]. rewrite !(bind_run (modify _) _ tt _ _ eq_refl). fold s0. rewrite (bind_run _ _ _ _ _ E0). set (s00 := set_m_img f _ s0).
  rewrite (bind_run (gets m_sb) _ sb_image s00 s00 eq_refl). rewrite (bind_run _ _ _ _ _ (wsect_raw 1 _ s00 ltac:(done))). change (set_m_img _ _ s00) with (start_img f). rewrite (bind_run _ _ _ _ _ E1).
  change (Z.of_nat (length (@nil inode)) + 1) with ROOTINO. rewrite Z.eqb_refl. cbn [negb]. change 1 with ROOTINO in E2, E3. rewrite (bind_run _ _ _ _ _ E2), (bind_run _ _ _ _ _ E3). by rewrite (bind_run _ _ _ _ _ E4).
Qed.
End MainImg.

(** The image after the size of the root directory has been rounded up. *)
Section Final.
Context (s : image) (xs : list inode) (files : list (list byte * list byte)) (r : inode).
Hypothesis Hn : Z.of_nat (length files) + 1 < NINODES.
Hypothesis Hmax : Forall (fun f : list byte * list byte => Z.of_nat (length f.2) <= MAXFILE * BSIZE) files.
Hypothesis Hi : img s xs (contents files).
Hypothesis Hr : xs !! 0%nat = Some r.
Let sz := (Z.of_nat (16 * (length files + 2)) / BSIZE + 1) * BSIZE.
Let r' := set_i_size sz r.
Let D := fupd (view s) (IBLOCK 1 sb_image) (put_bytes (view s (IBLOCK 1 sb_image)) (slot 1) (dinode_bytes r')).

Lemma final_low c : c <> IBLOCK 1 sb_image -> D c = view s c.
Proof. apply fupd_ne. Qed.

Lemma root_good : good (view s) 0 r T_DIR (dir_bytes (table files)).
Proof. by apply (im_files _ _ _ Hi 0%nat r). Qed.

Lemma root_touched : img_touched (view s) r (view s) r.
Proof. apply touched_refl; [apply root_good|apply view_meta, Hi]. Qed.

Lemma root_stored : stored D r' (dir_bytes (table files)).
Proof.
  destruct root_good as (_ & Hst & _). assert (Hst' : stored (view s) r' (dir_bytes (table files))) by exact Hst. destruct (iblock_image 1 ltac:(done)) as [_ Hib].
  eapply same_stored; [|exact Hst']. apply low_same; [apply Hst'|lia].
Qed.

Lemma other_apart k y : (0 < k)%nat -> xs !! k = Some y -> forall b, owns (view s) r b -> ~ owns (view s) y b.
Proof. intros Hk Hy b. apply (im_apart _ _ _ Hi 0 k r y b); [lia|done|done]. Qed.

Lemma other_file_ok k y : xs !! k = Some y -> img_file_ok (view s) y.
Proof.
  intros Hy. assert (Hk := lookup_lt_Some _ _ _ Hy). rewrite (im_len _ _ _ Hi) in Hk. destruct (lookup_lt_is_Some_2 _ k Hk) as [[t c] Hf]. apply (im_files _ _ _ Hi k y t c Hy Hf).
Qed.

Lemma final_same k y : (0 < k)%nat -> xs !! k = Some y -> same_file (view s) D y.
Proof. intros Hk Hy. apply (change_other _ _ r r sz 0); [done|apply root_touched|by eapply other_file_ok|by eapply other_apart]. Qed.

Lemma final_good k y t c : (0 < k)%nat -> xs !! k = Some y -> contents files !! k = Some (t, c) -> good D k y t c.
Proof.
  intros Hk Hy Hf. pose proof (im_max _ _ _ Hi). apply lookup_lt_Some in Hy as Hlt. apply (change_good (view s) (view s) r r sz 0).
  - done.
  - apply view_len, Hi.
  - apply root_touched.
  - lia.
  - pose proof (im_len _ _ _ Hi) as E. cbn [contents length] in E. rewrite length_map in E. lia.
  - by eapply other_apart.
  - apply root_good.
  - by apply (im_files _ _ _ Hi).
Qed.

Lemma final_root : inode_at sb_image D ROOTINO = r'.
Proof.
  destruct root_good as (Er & Hst & _). assert (Er' : r' = mkinode ROOTDEV 1 0 0 T_DIR 0 0 1 sz (i_addrs r)) by (unfold r'; rewrite Er; done). unfold NINODES in Hn.
  destruct (root_size (table files)) as (Z1 & _); [rewrite length_table; lia|]. rewrite length_table in Z1. fold sz in Z1. rewrite Er'. apply inode_decode; try done; [|lia|apply Hst|].
  - rewrite <- Er'. unfold D. replace 1 with (i_inum r') by by rewrite Er'. apply own_inode; [apply view_len, Hi|apply Hst].
  - intros k Hk. assert (Hrange := addr_range _ r k (proj1 Hst) Hk). change (0 <= addr_at r k < 2 ^ 32). lia.
Qed.

Lemma final_at k y t c : (0 < k)%nat -> xs !! k = Some y -> contents files !! k = Some (t, c) -> Z.of_nat (length c) <= MAXFILE * BSIZE -> 0 <= t < 2 ^ 15 ->
  inode_at sb_image D (Z.of_nat k + 1) = y.
Proof.
  intros Hk Hy Hf Hm Ht. destruct (final_good k y t c Hk Hy Hf) as (Ey & Hst & Ho). change (MAXFILE * BSIZE) with 274432 in Hm. rewrite Ey. apply inode_decode; [by rewrite <- Ey|done|lia|apply Hst|].
  intros i Hi'. assert (Hrange := addr_range _ y i (proj1 Hst) Hi'). change (0 <= addr_at y i < 2 ^ 32). lia.
Qed.

Lemma contents_file i : contents files !! S i = (fun f => (T_FILE, f.2)) <$> files !! i.
Proof. unfold contents. cbn [lookup list_lookup]. apply list_lookup_fmap. Qed.

(** The [k]-th inode, in the image. *)
Lemma final_inode k : (k < length files + 1)%nat -> exists y, xs !! k = Some y /\ inode_at sb_image D (Z.of_nat k + 1) = (if decide (k = 0)%nat then r' else y).
Proof.
  intros Hk. destruct (lookup_lt_is_Some_2 xs k) as [y Hy]; [rewrite (im_len _ _ _ Hi); cbn [contents length]; rewrite length_map; lia|]. exists y. split; [done|]. case_decide as Hk0.
  - subst k. apply final_root.
  - destruct k as [|i]; [done|]. destruct (lookup_lt_is_Some_2 files i) as [f Hf]; [lia|]. apply (final_at _ _ T_FILE f.2); [lia|done|by rewrite contents_file, Hf| |done].
    by apply (proj1 (Forall_lookup _ _) Hmax i).
Qed.

Lemma final_apart i j b : (i < length files + 1)%nat -> (j < length files + 1)%nat -> i <> j -> owns D (inode_at sb_image D (Z.of_nat i + 1)) b -> ~ owns D (inode_at sb_image D (Z.of_nat j + 1)) b.
Proof.
  intros Hil Hjl Hij. destruct (final_inode i Hil) as (y1 & H1 & ->). destruct (final_inode j Hjl) as (y2 & H2 & ->). pose proof root_touched as HT. pose proof (view_len s (im_ok _ _ _ Hi)) as Hl.
  destruct (decide (i = 0)%nat) as [->|Hi0]; [|destruct (decide (j = 0)%nat) as [->|Hj0]].
  - rewrite decide_False by lia. apply (change_apart (view s) (view s) r r sz 0); [done|done|apply root_good|by eapply other_file_ok|apply (other_apart j); [lia|done]].
  - intros O1 O2. revert O1. apply (change_apart (view s) (view s) r r sz 0); [done|done|apply root_good|by eapply other_file_ok|apply (other_apart i); [lia|done]|done].
  - rewrite (same_owns _ _ _ _ (final_same i y1 ltac:(lia) H1)), (same_owns _ _ _ _ (final_same j y2 ltac:(lia) H2)). by apply (im_apart _ _ _ Hi i j).
Qed.
End Final.

Lemma table_inums files : Z.of_nat (length files) + 1 < NINODES -> Forall (fun e => 0 < e.2 < 2 ^ 16) (table files).
Proof.
  unfold NINODES. intros Hn. apply Forall_app. split; [by repeat constructor|]. apply Forall_lookup. intros k e He. rewrite list_lookup_imap in He.
  destruct (files !! k) as [f|] eqn:Ef; [|done]. injection He as <-. apply lookup_lt_Some in Ef. cbn [snd]. lia.
Qed.

Lemma sb_block_ok : superblock_at sb_block = sb_image.
Proof. by vm_compute. Qed.

(** C16: mkfs makes a disk image that holds the files it is given, as the kernel reads
    it.  main() succeeds, and in the image: the superblock is the one of the layout;
    the bitmap marks exactly the metadata and the blocks of the files; the inode of
    the i-th file is an ordinary file that consists of its bytes; no block belongs to
    two files; and looking up a name in the root directory gives the inode of the
    first file with that name, or 1 for . and .., or nothing.  The root directory is
    well formed unless the number of its entries is a multiple of 64: its
    size is rounded up past its last block then, to a block that does not exist. *)
Theorem mkfs_correct `{HostOk} prog out args files : host_create out = true -> Forall2 host_has args files -> Forall (fun f => Z.of_nat (length f.2) <= MAXFILE * BSIZE) files ->
  Z.of_nat (length files) + 1 < NINODES -> total (contents files) <= nblocks ->
  exists s, main (prog :: out :: args) image0 = Ok tt s /\ let D := m_img s in let x := inode_at sb_image D in
    superblock_at (D 1) = sb_image /\
    (forall b, 0 <= b < FSSIZE -> marked sb_image D b = (b <? nmeta + total (contents files))) /\
    (forall i f, files !! i = Some f -> let y := x (Z.of_nat i + 2) in i_type y = T_FILE /\ file_ok sb_image nmeta D y /\ sized D y /\ file_bytes D y = f.2) /\
    (forall i j b, (i < length files + 1)%nat -> (j < length files + 1)%nat -> i <> j -> owns D (x (Z.of_nat i + 1)) b -> ~ owns D (x (Z.of_nat j + 1)) b) /\
    if decide ((length files + 2) mod 64 = 0)%nat then ~ sized D (x ROOTINO)
    else dir_ok sb_image nmeta D (x ROOTINO) /\ forall name, dir_lookup D (x ROOTINO) name = find_name name (table files).
Proof.
  intros Ho Hf Hmax Hn Hroom. destruct (main_img args files prog out Ho Hf Hmax Hn Hroom) as (s & xs & Hi & ->). destruct (finish files Hn s xs Hi) as (r & s' & Hr & -> & ED).
  exists s'. split; [done|]. cbv zeta. rewrite ED. destruct (iblock_image 1 ltac:(done)) as [_ Hib]. pose proof (im_ok _ _ _ Hi) as Hs. split_and!.
  - rewrite final_low, view_img by (lia || done). rewrite (im_super _ _ _ Hi). apply sb_block_ok.
  - intros b Hb. rewrite <- (im_blocks _ _ _ Hi), <- view_marked by done. apply marked_ext. rewrite bblock_image by done. apply final_low. lia.
  - intros i f Hfi. assert (Hlt := lookup_lt_Some _ _ _ Hfi). destruct (final_inode s xs files r Hn Hmax Hi Hr (S i) ltac:(lia)) as (y & Hy & E). rewrite decide_False in E by done.
    replace (Z.of_nat i + 2) with (Z.of_nat (S i) + 1) by lia. rewrite E. assert (Hc : contents files !! S i = Some (T_FILE, f.2)) by (by rewrite contents_file, Hfi).
    destruct (final_good s xs files r Hi Hr (S i) y T_FILE f.2 ltac:(lia) Hy Hc) as (Ey & Hst & _). assert (Hm := proj1 (Forall_lookup _ _) Hmax i f Hfi).
    destruct (stored_bytes _ y f.2 Hst) as [Hsz Hby]; [by rewrite Ey|exact Hm|]. split_and!; [by rewrite Ey|apply Hst|done|done].
  - intros i j b. by apply (final_apart s xs files r).
  - rewrite (final_root s xs files r Hn Hi Hr). pose proof (root_stored s xs files r Hi Hr) as Hst. set (V := fupd _ _ _) in *. unfold NINODES in Hn.
    assert (HN : (length (table files) <= 300)%nat) by (rewrite length_table; lia). assert (El := length_table files). case_decide as Hd; rewrite <- El in Hd, Hst |- *.
    + exact (root_hole V _ (table files) Hst HN Hd).
    + split; [|intros name; exact (root_lookup V _ (table files) Hst HN name Hd (table_inums files Hn))]. split_and!; [|apply Hst|exact (root_sized V _ (table files) Hst HN Hd)|].
      * destruct (root_good s xs files r Hi Hr) as (-> & _). done.
      * cbn [i_size set_i_size]. unfold BSIZE. change 1024 with (64 * 16). rewrite Z.mul_assoc. by apply Z.mod_mul.
Qed.

(** ** Example *)

Section Witness.
(** A host on which every file has two bytes, read one at a time. *)
#[local] Instance two_bytes : Host :=
  {| host_create := fun _ => true; host_lseek := fun off => off; host_write := fun _ => BSIZE; host_read := fun _ => BSIZE;
     host_file := fun _ => Some [[Byte.x41]; [Byte.x42]] |}.
#[local] Instance two_bytes_ok : HostOk.
Proof. by split. Qed.

(** user/_cat becomes the file cat, inode 2. *)
Lemma mkfs_correct_witness : exists s, main [[]; []; [Byte.x75; Byte.x73; Byte.x65; Byte.x72; Byte.x2f; Byte.x5f; Byte.x63; Byte.x61; Byte.x74]] image0 = Ok tt s /\
  file_bytes (m_img s) (inode_at sb_image (m_img s) 2) = [Byte.x41; Byte.x42] /\ dir_lookup (m_img s) (inode_at sb_image (m_img s) ROOTINO) [Byte.x63; Byte.x61; Byte.x74] = Some 2.
Proof.
  destruct (mkfs_correct [] [] [[Byte.x75; Byte.x73; Byte.x65; Byte.x72; Byte.x2f; Byte.x5f; Byte.x63; Byte.x61; Byte.x74]] [([Byte.x63; Byte.x61; Byte.x74], [Byte.x41; Byte.x42])]) as (s & E & _ & _ & Hf & _ & Hd).
  - done.
  - constructor; [|constructor]. split; [|split; [done|by exists [[Byte.x41]; [Byte.x42]]]]. by apply (bool_decide_unpack _).
  - by repeat constructor.
  - done.
  - by vm_compute.
  - exists s. split; [exact E|]. destruct (Hf 0%nat _ eq_refl) as (_ & _ & _ & Hb). split; [exact Hb|]. rewrite decide_False in Hd by done. destruct Hd as [_ Hd]. rewrite Hd. reflexivity.
Defined.
End Witness.
