(* ===== verification/Pipe.v ===== *)
(** Pipes (kernel/pipe.c).  A pipe is named by the page it was allocated in;
    pipealloc() is in File.v, with the open files it creates. *)

From stdpp Require Import base tactics list strings.
From Stdlib Require Import ZArith Lia FunctionalExtensionality.
From coqutil Require Import Byte.
From S2P Require Import Prelude Riscv Mem Core Spinlock Kalloc Vm State Csr Proc.

Local Open Scope Z_scope.
Local Open Scope kern_scope.

Definition PIPESIZE : Z := 512.

Section Pipe.
Context `{KernelImage} `{World} `{Symbols}.

Definition getpi {A} (pi : Z) (f : pipe -> A) : M st A := gets (fun s => f (s_pipe s pi)).
Definition set_pi (pi : Z) (f : pipe -> pipe) : M st unit :=
  modify (fun s => set_s_pipe (fupd (s_pipe s) pi (f (s_pipe s pi))) s).

Definition pipeclose (pi : Z) (writable : bool) : M st unit :=
  lock_ (PipeLock pi) ;;;
  (if writable then
     set_pi pi (set_pi_writeopen 0) ;;;
     wakeup (ChPipeRead pi)
   else
     set_pi pi (set_pi_readopen 0) ;;;
     wakeup (ChPipeWrite pi)) ;;;
  let* p := getpi pi (fun p => p) in
  if (pi_readopen p =? 0) && (pi_writeopen p =? 0) then
    unlock_ (PipeLock pi) ;;;
    zoom (kfree pi)
  else unlock_ (PipeLock pi).

(** while(pi->nwrite == pi->nread + PIPESIZE): true if the writer has to give up. *)
Definition wait_room (pi : Z) (pr : nat) : M st bool :=
  loop (fun _ : unit =>
    let* p := getpi pi (fun p => p) in
    if pi_nwrite p =? u32 (pi_nread p + PIPESIZE) then
      let* k := getp pr killed in
      if (pi_readopen p =? 0) || negb (k =? 0) then ret (inr true)
      else
        wakeup (ChPipeRead pi) ;;;
        sleep (ChPipeWrite pi) (PipeLock pi) ;;;
        ret (inl tt)
    else ret (inr false)) tt.

(** pi->data[pi->nwrite++ % PIPESIZE] = ch; *)
Definition put_byte (pi : Z) (ch : byte) : M st unit :=
  set_pi pi (fun p => set_pi_nwrite (u32 (pi_nwrite p + 1))
    (set_pi_data (fupd (pi_data p) (pi_nwrite p mod PIPESIZE) ch) p)).

Definition pipewrite (pi addr n : Z) : M st Z :=
  let* pr := curproc in
  lock_ (PipeLock pi) ;;;
  loop (fun i =>
    if i <? n then
      let* giveup := wait_room pi pr in
      if giveup then
        unlock_ (PipeLock pi) ;;;
        ret (inr (-1))
      else
        let* pt := getp pr pagetable in
        let* r := zoom (copyin pt (u64 (addr + i)) 1) in
        let '(rc, bs) := r in
        if rc =? -1 then
          wakeup (ChPipeRead pi) ;;;
          unlock_ (PipeLock pi) ;;;
          ret (inr i)
        else
          put_byte pi (hd Byte.x00 bs) ;;;
          ret (inl (i + 1))
    else
      wakeup (ChPipeRead pi) ;;;
      unlock_ (PipeLock pi) ;;;
      ret (inr i)) 0.

(** while(pi->nread == pi->nwrite && pi->writeopen): true if the reader was killed. *)
Definition wait_data (pi : Z) (pr : nat) : M st bool :=
  loop (fun _ : unit =>
    let* p := getpi pi (fun p => p) in
    if (pi_nread p =? pi_nwrite p) && negb (pi_writeopen p =? 0) then
      let* k := getp pr killed in
      if negb (k =? 0) then ret (inr true)
      else
        sleep (ChPipeRead pi) (PipeLock pi) ;;;
        ret (inl tt)
    else ret (inr false)) tt.

(** ch = pi->data[pi->nread++ % PIPESIZE]; *)
Definition get_byte (pi : Z) : M st byte :=
  let* ch := getpi pi (fun p => pi_data p (pi_nread p mod PIPESIZE)) in
  set_pi pi (fun p => set_pi_nread (u32 (pi_nread p + 1)) p) ;;;
  ret ch.

Definition piperead (pi addr n : Z) : M st Z :=
  let* pr := curproc in
  lock_ (PipeLock pi) ;;;
  let* dead := wait_data pi pr in
  if dead then
    unlock_ (PipeLock pi) ;;;
    ret (-1)
  else
    let* i := loop (fun i =>
      if i <? n then
        let* p := getpi pi (fun p => p) in
        if pi_nread p =? pi_nwrite p then ret (inr i)
        else
          let* ch := get_byte pi in
          let* pt := getp pr pagetable in
          let* rc := zoom (copyout pt (u64 (addr + i)) [ch]) in
          if rc =? -1 then ret (inr i) else ret (inl (i + 1))
      else ret (inr i)) 0 in
    wakeup (ChPipeWrite pi) ;;;
    unlock_ (PipeLock pi) ;;;
    ret i.

End Pipe.
