(* ===== verification/PipeFifo.v ===== *)
(** A pipe is a bounded queue of bytes (kernel/pipe.c): pipewrite() appends
    what the writer has in its memory, piperead() moves the oldest bytes into
    the memory of the reader. *)

From stdpp Require Import base tactics list strings.
From Stdlib Require Import ZArith Lia FunctionalExtensionality.
From coqutil Require Import Byte.
From S2P Require Import Prelude Riscv Mem Core Spinlock Kalloc Vm Pt Uvm Machine Cow Copy Copyout State Csr Proc Sched Sleeplock Virtio Bio Dll Cache Block Log Sample Pipe.

Local Open Scope Z_scope.
Local Open Scope kern_scope.

(** ** The ring buffer *)

(** The number of bytes in the pipe, and the bytes, oldest first.  nread and
    nwrite are 32 bits wide and wrap around. *)
Definition filled (p : pipe) : Z := u32 (pi_nwrite p - pi_nread p).
Definition contents (p : pipe) : list byte :=
  List.map (fun k => pi_data p ((pi_nread p + Z.of_nat k) mod PIPESIZE)) (seq 0 (Z.to_nat (filled p))).

Definition pipe_ok (p : pipe) : Prop :=
  0 <= pi_nread p < 2 ^ 32 /\ 0 <= pi_nwrite p < 2 ^ 32 /\ filled p <= PIPESIZE.

Lemma filled_nonneg p : 0 <= filled p.
Proof. unfold filled, u32. apply Z.mod_pos_bound. done. Qed.

Lemma length_contents p : Z.of_nat (length (contents p)) = filled p.
Proof. unfold contents. rewrite length_map, length_seq. pose proof (filled_nonneg p). lia. Qed.

Lemma mod_ring x : u32 x mod PIPESIZE = x mod PIPESIZE.
Proof.
  unfold u32, PIPESIZE. apply Z.mod_mod_divide. by exists (2 ^ 23).
Qed.

Lemma nwrite_eq p : pipe_ok p -> pi_nwrite p = u32 (pi_nread p + filled p).
Proof.
  intros (Hr & Hw & _). unfold filled, u32. rewrite Zplus_mod_idemp_r.
  replace (pi_nread p + (pi_nwrite p - pi_nread p)) with (pi_nwrite p) by lia. by rewrite Z.mod_small.
Qed.

Lemma empty_iff p : pipe_ok p -> pi_nread p = pi_nwrite p <-> contents p = [].
Proof.
  intros Hp. pose proof (length_contents p) as Hl. rewrite (nwrite_eq p Hp). destruct Hp as (Hr & _ & Hf).
  pose proof (filled_nonneg p). unfold PIPESIZE in Hf. split.
  - intros E. apply length_zero_iff_nil. unfold u32 in E.
    destruct (Z.lt_ge_cases (pi_nread p + filled p) (2 ^ 32)).
    + rewrite Z.mod_small in E by lia. lia.
    + rewrite <- (Z_mod_plus_full _ (-1)), Z.mod_small in E by lia. lia.
  - intros E. rewrite E in Hl. simpl in Hl. rewrite <- Hl, Z.add_0_r. symmetry. by apply u32_small.
Qed.

Lemma full_iff p : pipe_ok p -> pi_nwrite p = u32 (pi_nread p + PIPESIZE) <-> filled p = PIPESIZE.
Proof.
  intros Hp. rewrite (nwrite_eq p Hp) at 1. destruct Hp as (Hr & _ & Hf). pose proof (filled_nonneg p).
  unfold PIPESIZE, u32 in *. split; [|by intros ->].
  intros E. pose proof (Z.div_mod (pi_nread p + filled p) (2 ^ 32) ltac:(done)).
  pose proof (Z.div_mod (pi_nread p + 512) (2 ^ 32) ltac:(done)).
  assert (pi_nread p + filled p - (pi_nread p + 512) =
    2 ^ 32 * ((pi_nread p + filled p) / 2 ^ 32 - (pi_nread p + 512) / 2 ^ 32)) by lia. nia.
Qed.

Definition put (b : byte) (p : pipe) : pipe :=
  set_pi_nwrite (u32 (pi_nwrite p + 1)) (set_pi_data (fupd (pi_data p) (pi_nwrite p mod PIPESIZE) b) p).
Definition get (p : pipe) : pipe := set_pi_nread (u32 (pi_nread p + 1)) p.

Lemma put_ok b p :
  pipe_ok p -> filled p < PIPESIZE -> pipe_ok (put b p) /\ contents (put b p) = contents p ++ [b].
Proof.
  intros Hp Hf. assert (Hw := nwrite_eq p Hp). pose proof (filled_nonneg p) as H0. destruct Hp as (Hr & Hw0 & _).
  assert (Ef : filled (put b p) = filled p + 1).
  { unfold put, filled in *. cbn. unfold u32 in *. rewrite Zminus_mod_idemp_l.
    replace (pi_nwrite p + 1 - pi_nread p) with (pi_nwrite p - pi_nread p + 1) by lia.
    rewrite <- Zplus_mod_idemp_l. apply Z.mod_small. unfold PIPESIZE in Hf. lia. }
  split.
  - split; [exact Hr|]. split; [apply u32_range|lia].
  - unfold contents. rewrite Ef. replace (Z.to_nat (filled p + 1)) with (Z.to_nat (filled p) + 1)%nat by lia.
    rewrite seq_app, List.map_app. simpl. f_equal.
    + apply List.map_ext_in. intros k Hk%in_seq. rewrite fupd_ne; [done|]. rewrite Hw, mod_ring.
      unfold PIPESIZE in *. intros E.
      pose proof (Z.div_mod (pi_nread p + Z.of_nat k) 512 ltac:(done)).
      pose proof (Z.div_mod (pi_nread p + filled p) 512 ltac:(done)). nia.
    + rewrite Z2Nat.id by lia. rewrite Hw, mod_ring. by rewrite fupd_eq.
Qed.

Lemma get_ok p b rest :
  pipe_ok p -> contents p = b :: rest ->
  pi_data p (pi_nread p mod PIPESIZE) = b /\ pipe_ok (get p) /\ contents (get p) = rest.
Proof.
  intros Hp Hc. pose proof (length_contents p) as Hl. rewrite Hc in Hl. simpl in Hl. destruct Hp as (Hr & Hw & Hf).
  assert (Ef : filled (get p) = filled p - 1).
  { unfold get, filled in *. cbn. unfold u32 in *. rewrite Zminus_mod_idemp_r.
    replace (pi_nwrite p - (pi_nread p + 1)) with (pi_nwrite p - pi_nread p - 1) by lia.
    rewrite <- Zminus_mod_idemp_l. apply Z.mod_small. unfold PIPESIZE in Hf. lia. }
  unfold contents in Hc. replace (Z.to_nat (filled p)) with (S (Z.to_nat (filled p - 1))) in Hc by lia.
  simpl in Hc. injection Hc as Hb Hrest. split; [|split].
  - by rewrite Z.add_0_r in Hb.
  - split; [apply u32_range|]. split; [exact Hw|lia].
  - rewrite <- Hrest. unfold contents. rewrite Ef. rewrite <- seq_shift, List.map_map. apply List.map_ext.
    intros k. unfold get. cbn. f_equal. rewrite <- (mod_ring (u32 _ + _)), <- (mod_ring (pi_nread p + _)).
    unfold u32. rewrite Zplus_mod_idemp_l. f_equal. f_equal. lia.
Qed.

(** ** pipewrite() and piperead() *)

Section PipeFifo.
Context `{KernelImage} `{World} `{Symbols}.


(** Process [i] makes a system call on pipe [pi]: no lock is held. *)
Record pipe_user (i : nat) (pi : Z) (s : st) : Prop := {
  pu_calm : calm (s_core s);
  pu_cur : cproc (ccpu (s_core s)) = Some i;
  pu_lock : free (PipeLock pi) (s_core s);
  pu_procs : procs_free (seq 0 NPROC) (s_core s);
  pu_ok : pipe_ok (s_pipe s pi);
  pu_pt : pt_ok (s_k s) (pagetable (procs (s_core s) i));
}.

(** Inside the critical section, with the pipe [p]; and after it, with the
    processes waiting on [ch] awake. *)
Definition inside (pi : Z) (p : pipe) (s : st) : st :=
  set_s_pipe (fupd (s_pipe s) pi p) (set_s_core (acq (PipeLock pi) (s_core s)) s).
Definition after (ch : chan) (pi : Z) (p : pipe) (s : st) : st :=
  set_s_pipe (fupd (s_pipe s) pi p)
    (set_s_core (set_procs (wake ch (seq 0 NPROC) (procs (s_core s))) (s_core s)) s).

Lemma lock_inside i pi s : pipe_user i pi s -> lock_ (PipeLock pi) s = Ok tt (inside pi (s_pipe s pi) s).
Proof.
  intros Hu. rewrite lock_eq by apply Hu. unfold inside. rewrite fupd_id. by destruct s as [[]].
Qed.

Lemma leave_inside {A} pi ch p (x : A) s :
  calm (s_core s) -> free (PipeLock pi) (s_core s) -> procs_free (seq 0 NPROC) (s_core s) ->
  (wakeup ch ;;; unlock_ (PipeLock pi) ;;; ret x) (inside pi p s) = Ok x (after ch pi p s).
Proof.
  intros Hc Hl Hf. unfold bind. rewrite wakeup_eq.
  - by rewrite (unlock_eq _ (set_procs (wake ch (seq 0 NPROC) (procs (s_core s))) (s_core s))).
  - by apply calm_acq.
  - intros j Hj. apply acq_free; [done|by apply Hf].
Qed.

Lemma copyin_byte root va k :
  pt_ok k root -> 0 <= va < 2 ^ 63 ->
  copyin root va 1 k = if umapped (k_mem k) root va then Ok (0, [ubyte (k_mem k) root va]) k else Ok (-1, []) k.
Proof.
  intros Hpt Hva.
  enough (wp (copyin root va 1) (fun r k' => k' = k /\
    r = if umapped (k_mem k) root va then (0, [ubyte (k_mem k) root va]) else (-1, [])) k) as W.
  { apply wp_elim in W as (r & k' & -> & -> & ->). by case_match. }
  assert (E1 : ubytes (k_mem k) root va (Z.to_nat 1) = [ubyte (k_mem k) root va]).
  { change (Z.to_nat 1) with 1%nat. unfold ubytes. simpl. by rewrite Z.add_0_r. }
  apply wp_copyin; [done|lia|lia|unfold PGSIZE; lia| |].
  - intros Hm. specialize (Hm 0%nat ltac:(lia)). rewrite Z.add_0_r in Hm. by rewrite Hm, E1.
  - intros j Hj [_ Hn]. assert (j = 0%nat) as -> by lia. rewrite Z.add_0_r in Hn. by rewrite Hn.
Qed.
Lemma wait_room_eq pi pr s :
  pipe_ok (s_pipe s pi) -> filled (s_pipe s pi) < PIPESIZE -> wait_room pi pr s = Ok false s.
Proof.
  intros Hp Hf. apply loop_once. unfold bind, getpi, gets.
  rewrite (proj2 (Z.eqb_neq _ _)); [done|]. intros E%full_iff; [lia|done].
Qed.

Lemma s_k_inside pi p s : s_k (inside pi p s) = set_core (acq (PipeLock pi) (s_core s)) (s_k s).
Proof. by destruct s as [[]]. Qed.

Lemma zoom_copyin root va pi p s :
  pt_ok (s_k s) root -> 0 <= va < 2 ^ 63 ->
  zoom (copyin root va 1) (inside pi p s) =
    Ok (if umapped (s_mem s) root va then (0, [ubyte (s_mem s) root va]) else (-1, [])) (inside pi p s).
Proof.
  intros Hpt Hva. unfold zoom. cbn [lget lput st_kst]. rewrite s_k_inside, copyin_byte; [|by eapply pt_ok_same; [|exact Hpt]|done].
  assert (E : set_s_k (set_core (acq (PipeLock pi) (s_core s)) (s_k s)) (inside pi p s) = inside pi p s)
    by (unfold inside; by destruct s as [[]]).
  change (k_mem (set_core _ (s_k s))) with (s_mem s).
  destruct (umapped (s_mem s) root va); exact (f_equal (Ok _) E).
Qed.

(** The loop of pipewrite(). *)
Definition write_body (pi addr n : Z) (pr : nat) (i : Z) : M st (Z + Z) :=
  if i <? n then
    let* giveup := wait_room pi pr in
    if giveup : bool then
      unlock_ (PipeLock pi) ;;;
      ret (inr (-1))
    else
      let* pt := getp pr pagetable in
      let* r := zoom (copyin pt (u64 (addr + i)) 1) in
      let '(rc, bs) := r in
      if rc =? -1 then
        wakeup (ChPipeRead pi) ;;;
        unlock_ (PipeLock pi) ;;;
        ret (inr i)
      else
        put_byte pi (hd Byte.x00 bs) ;;;
        ret (inl (i + 1))
  else
    wakeup (ChPipeRead pi) ;;;
    unlock_ (PipeLock pi) ;;;
    ret (inr i).

Lemma pipewrite_loop i pi addr n s :
  pipe_user i pi s -> pipewrite pi addr n s = loop (write_body pi addr n i) 0 (inside pi (s_pipe s pi) s).
Proof.
  intros Hu. unfold pipewrite. rewrite (bind_run _ _ _ _ _ (curproc_eq i s (pu_calm _ _ _ Hu) (pu_cur _ _ _ Hu))).
  by rewrite (bind_run _ _ _ _ _ (lock_inside i pi s Hu)).
Qed.

Lemma inside_pipe pi p s : s_pipe (inside pi p s) pi = p.
Proof. cbn. by rewrite fupd_eq. Qed.

(** What an iteration does when there is room: it moves one byte, or stops at
    an address that is not mapped. *)
Lemma write_step i pi addr n k p s :
  pipe_user i pi s -> pipe_ok p -> filled p < PIPESIZE -> 0 <= k < n -> 0 <= addr -> addr + n < 2 ^ 63 ->
  let root := pagetable (procs (s_core s) i) in
  write_body pi addr n i k (inside pi p s) =
    if umapped (s_mem s) root (addr + k) then Ok (inl (k + 1)) (inside pi (put (ubyte (s_mem s) root (addr + k)) p) s)
    else Ok (inr k) (after (ChPipeRead pi) pi p s).
Proof.
  intros Hu Hp Hf Hk Ha Han root. unfold write_body. rewrite (proj2 (Z.ltb_lt k n)) by lia.
  rewrite (bind_run _ _ _ _ _ (wait_room_eq pi i (inside pi p s) ltac:(by rewrite inside_pipe) ltac:(by rewrite inside_pipe))).
  cbn beta iota. unfold getp at 1. unfold bind at 1, gets. change (pagetable (procs (s_core (inside pi p s)) i)) with root.
  rewrite u64_small by lia.
  rewrite (bind_run _ _ _ _ _ (zoom_copyin root (addr + k) pi p s (pu_pt _ _ _ Hu) ltac:(lia))).
  destruct (umapped (s_mem s) root (addr + k)).
  - cbn [Z.eqb hd]. unfold put_byte, set_pi, bind, modify, ret. f_equal. rewrite inside_pipe. unfold inside. cbn.
    by rewrite fupd_fupd.
  - cbn [Z.eqb Pos.eqb]. apply leave_inside; apply Hu.
Qed.

(** The loop moves bytes until it has moved [n], the pipe is full, or the next
    address is not mapped. *)
Lemma write_prefix i pi addr n s :
  pipe_user i pi s -> 0 <= n -> 0 <= addr -> addr + n < 2 ^ 63 ->
  let root := pagetable (procs (s_core s) i) in
  exists k p, iterates (write_body pi addr n i) k 0 (inside pi (s_pipe s pi) s) (Z.of_nat k) (inside pi p s) /\
    Z.of_nat k <= n /\ pipe_ok p /\ pi_readopen p = pi_readopen (s_pipe s pi) /\
    (forall j, (j < k)%nat -> umapped (s_mem s) root (addr + Z.of_nat j) = true) /\
    contents p = contents (s_pipe s pi) ++ ubytes (s_mem s) root addr k /\
    (Z.of_nat k = n \/ filled p = PIPESIZE \/ umapped (s_mem s) root (addr + Z.of_nat k) = false).
Proof.
  intros Hu Hn Ha Han root.
  enough (forall d, exists k p, iterates (write_body pi addr n i) k 0 (inside pi (s_pipe s pi) s) (Z.of_nat k) (inside pi p s) /\
    Z.of_nat k <= n /\ pipe_ok p /\ pi_readopen p = pi_readopen (s_pipe s pi) /\
    (forall j, (j < k)%nat -> umapped (s_mem s) root (addr + Z.of_nat j) = true) /\
    contents p = contents (s_pipe s pi) ++ ubytes (s_mem s) root addr k /\
    (k = d \/ Z.of_nat k = n \/ filled p = PIPESIZE \/ umapped (s_mem s) root (addr + Z.of_nat k) = false)) as W.
  { destruct (W (S (Z.to_nat n))) as (k & p & W1 & W2 & W3 & W4 & W5 & W6 & W7). exists k, p. split_and!; try done.
    destruct W7 as [W7|W7]; [lia|done]. }
  induction d as [|d (k & p & Hit & Hk & Hp & Ho & Hm & Hc & Hd)].
  { exists 0%nat, (s_pipe s pi). split_and!; [constructor|lia|apply Hu..|done|lia|by rewrite app_nil_r|by left]. }
  destruct (decide (Z.of_nat k = n \/ filled p = PIPESIZE \/ umapped (s_mem s) root (addr + Z.of_nat k) = false)) as [Hs|Hs].
  { exists k, p. split_and!; auto. }
  destruct Hd as [->|?]; [|done]. apply Decidable.not_or in Hs as [Hs1 [Hs2 Hs3]%Decidable.not_or].
  apply not_false_is_true in Hs3. set (b := ubyte (s_mem s) root (addr + Z.of_nat d)).
  assert (Hf : filled p < PIPESIZE) by (destruct Hp as (_ & _ & ?); lia). destruct (put_ok b p Hp Hf) as [Hp' Hc'].
  exists (S d), (put b p). split_and!; [|lia|apply Hp'..|done| | |by left].
  - replace (Z.of_nat (S d)) with (Z.of_nat d + 1) by lia. eapply iterates_snoc; [exact Hit|].
    rewrite (write_step i) by (done || lia). fold root. by rewrite Hs3.
  - intros j Hj. destruct (decide (j = d)) as [->|]; [done|]. apply Hm. lia.
  - rewrite Hc', Hc, <- app_assoc. f_equal. replace (S d) with (d + 1)%nat by lia. rewrite ubytes_app. f_equal.
    unfold ubytes. simpl. by rewrite Z.add_0_r.
Qed.

Lemma wait_data_eq pi pr s :
  pipe_ok (s_pipe s pi) -> contents (s_pipe s pi) <> [] \/ pi_writeopen (s_pipe s pi) = 0 ->
  wait_data pi pr s = Ok false s.
Proof.
  intros Hp Hd. apply loop_once. unfold bind, getpi, gets. destruct Hd as [Hc| ->].
  - rewrite (proj2 (Z.eqb_neq (pi_nread _) _)); [done|]. by intros E%empty_iff.
  - by rewrite andb_false_r.
Qed.

(** The memory of the reader after some bytes have been moved to it. *)
Lemma own_range_next k i root va src j m lk :
  own_range k i root va (length src) -> stored (k_mem k) root va (take j src) m -> (j < length src)%nat ->
  own_range (set_core (acq lk (k_core k)) (set_mem m k)) i root (va + Z.of_nat j) 1.
Proof.
  intros Ho Hs Hj. destruct (own_range_stored _ _ _ _ _ _ _ Ho Hs) as [Hpt Hpte].
  assert (Ht : forall q, is_table m root q <-> is_table (k_mem k) root q).
  { apply is_table_same, tab_same. intros q Hq. eapply stored_tables; [exact Hs| |by apply (pt_page _ _ (or_pt _ _ _ _ _ Ho))|done].
    intros j' Hj'. rewrite length_take in Hj'. apply (or_page _ _ _ _ _ Ho). lia. }
  destruct Ho as [O1 O2 O3 O4 O5 O6]. split; [done|done|by eapply pt_ok_same; [|exact Hpt]|lia| |intros; lia].
  intros j' Hj'. assert (j' = 0%nat) as -> by lia. rewrite Z.add_0_r.
  destruct (O5 j Hj) as (p & f & E & Hp & Hf & HU & HC & Hn). exists p, f. cbn [k_mem set_core set_mem].
  rewrite Hpte, Ht. done.
Qed.

Lemma stored_snoc m root va bs b m1 m2 :
  stored m root va bs m1 -> (forall v, pte_of m1 root v = pte_of m root v) ->
  stored m1 root (va + Z.of_nat (length bs)) [b] m2 ->
  (forall j, (j < length bs)%nat -> uaddr m root (va + Z.of_nat j) <> uaddr m root (va + Z.of_nat (length bs))) ->
  stored m root va (bs ++ [b]) m2.
Proof.
  intros [Hin Hout] Hpte [Hin2 Hout2] Hne.
  assert (Hu : forall v, uaddr m1 root v = uaddr m root v) by (intros v; unfold uaddr; by rewrite Hpte).
  specialize (Hin2 0%nat b eq_refl). rewrite Z.add_0_r, Hu in Hin2.
  assert (Hout3 : forall x, x <> uaddr m root (va + Z.of_nat (length bs)) -> m2 x = m1 x).
  { intros x Hx. apply Hout2. intros j Hj. simpl in Hj. assert (j = 0%nat) as -> by lia. by rewrite Z.add_0_r, Hu. }
  split.
  - intros j c Hj. apply lookup_app_Some in Hj as [Hj|[Hj Hc]].
    + rewrite Hout3; [by apply Hin|]. apply Hne. by eapply lookup_lt_Some.
    + apply list_lookup_singleton_Some in Hc as [Hc ->]. by replace j with (length bs) by lia.
  - intros x Hx. rewrite length_app in Hx. simpl in Hx. rewrite Hout3 by (apply Hx; lia). apply Hout. intros j Hj. apply Hx. lia.
Qed.

Lemma zoom_copyout i root va src j b m pi p s :
  calm (s_core s) -> own_range (s_k s) i root va (length src) -> stored (s_mem s) root va (take j src) m ->
  src !! j = Some b ->
  exists m', zoom (copyout root (va + Z.of_nat j) [b]) (inside pi p (set_s_mem m s)) =
      Ok 0 (inside pi p (set_s_mem m' s)) /\ stored (s_mem s) root va (take (S j) src) m'.
Proof.
  intros Hc Ho Hs Hj. assert (Hjl := lookup_lt_Some _ _ _ Hj).
  destruct (copyout_own (set_core (acq (PipeLock pi) (s_core s)) (set_mem m (s_k s))) i root (va + Z.of_nat j) [b])
    as (m' & E & Hs').
  { by apply calm_acq. } { by eapply own_range_next. }
  exists m'. split.
  - unfold zoom. cbn [lget lput st_kst].
    assert (Ek : s_k (inside pi p (set_s_mem m s)) = set_core (acq (PipeLock pi) (s_core s)) (set_mem m (s_k s)))
      by (by destruct s as [[]]).
    rewrite Ek, E. apply (f_equal (Ok 0)). by destruct s as [[]].
  - rewrite (take_S_r _ _ _ Hj). destruct (own_range_stored _ _ _ _ _ _ _ Ho Hs) as [_ Hpte].
    assert (Hl : length (take j src) = j) by (rewrite length_take; lia).
    eapply stored_snoc; [exact Hs|exact Hpte|by rewrite Hl|]. rewrite Hl. intros j' Hj' E'.
    apply (or_inj _ _ _ _ _ Ho) in E'; lia.
Qed.

Lemma piperead_ok i pi addr n s :
  let root := pagetable (procs (s_core s) i) in
  let q := contents (s_pipe s pi) in
  let bs := take (Z.to_nat n) q in
  pipe_user i pi s -> 0 <= n < 2 ^ 31 -> q <> [] \/ pi_writeopen (s_pipe s pi) = 0 ->
  own_range (s_k s) i root addr (length bs) ->
  exists p m, piperead pi addr n s = Ok (Z.of_nat (length bs)) (after (ChPipeWrite pi) pi p (set_s_mem m s)) /\
    pipe_ok p /\ contents p = drop (length bs) q /\ stored (s_mem s) root addr bs m.
Proof.
  intros root q bs Hu Hn Hd Ho. assert (Hva := or_va _ _ _ _ _ Ho). rewrite MAXVA_eq in Hva.
  enough (wp (piperead pi addr n) (fun r s' => r = Z.of_nat (length bs) /\ exists p m, s' = after (ChPipeWrite pi) pi p (set_s_mem m s) /\
    pipe_ok p /\ contents p = drop (length bs) q /\ stored (s_mem s) root addr bs m) s) as W.
  { apply wp_elim in W as (r & s' & E & -> & p & m & -> & W). eauto. }
  unfold piperead. run (curproc_eq i s (pu_calm _ _ _ Hu) (pu_cur _ _ _ Hu)). run (lock_inside i pi s Hu).
  set (p0 := s_pipe s pi) in *.
  assert (Ep : forall p s', s_pipe (inside pi p s') pi = p) by (intros; cbn; by rewrite fupd_eq).
  run (wait_data_eq pi i (inside pi p0 s) ltac:(rewrite Ep; apply Hu) ltac:(by rewrite Ep)).
  assert (Hbl : length bs = (Z.to_nat n `min` length q)%nat) by apply length_take.
  apply wp_bind.
  apply (wp_loop _ (fun c j s' => exists k p m, j = Z.of_nat k /\ (k <= length bs)%nat /\ c = n - j /\
    s' = inside pi p (set_s_mem m s) /\ pipe_ok p /\ contents p = drop k q /\ stored (s_mem s) root addr (take k bs) m))
    with (n := n); [|lia|].
  - intros c j s' _ (k & p & m & -> & Hk & -> & -> & Hp & Hc & Hs).
    assert (Hend : Z.of_nat k = n \/ contents p = [] ->
      wp (wakeup (ChPipeWrite pi) ;;; unlock_ (PipeLock pi) ;;; ret (Z.of_nat k)) (fun r s' =>
        r = Z.of_nat (length bs) /\ exists p m, s' = after (ChPipeWrite pi) pi p (set_s_mem m s) /\
        pipe_ok p /\ contents p = drop (length bs) q /\ stored (s_mem s) root addr bs m) (inside pi p (set_s_mem m s))).
    { intros Hcase. assert (k = length bs) as Ek.
      { destruct Hcase as [?|E0]; [lia|]. rewrite Hc in E0. apply (f_equal length) in E0. rewrite length_drop in E0. simpl in E0. lia. }
      eapply wp_Ok; [apply leave_inside; apply Hu|]. split; [by rewrite Ek|]. exists p, m. rewrite Ek, firstn_all in Hs. subst k. done. }
    destruct (Z.ltb_spec (Z.of_nat k) n); [|apply wp_ret, Hend; lia].
    unfold getpi. apply wp_bind, wp_gets. rewrite Ep. destruct (Z.eqb_spec (pi_nread p) (pi_nwrite p)) as [E|E].
    { apply wp_ret, Hend. right. by apply empty_iff. }
    destruct (contents p) as [|b rest] eqn:Ec; [exfalso; by apply E, empty_iff|].
    destruct (get_ok p b rest Hp Ec) as (Hb & Hp' & Hc').
    assert (Eq : q !! k = Some b) by (rewrite <- (Nat.add_0_r k), <- lookup_drop, <- Hc; done).
    assert (Hbk : bs !! k = Some b) by (apply lookup_take_Some; split; [done|lia]).
    assert (Eg : get_byte pi (inside pi p (set_s_mem m s)) = Ok b (inside pi (get p) (set_s_mem m s))).
    { unfold get_byte, bind, getpi, gets, set_pi, modify, ret. rewrite Ep, Hb. f_equal. unfold inside. cbn. by rewrite fupd_fupd. }
    run Eg. unfold getp. apply wp_bind, wp_gets.
    change (pagetable (procs (s_core (inside pi (get p) (set_s_mem m s))) i)) with root.
    assert (Hkb := lookup_lt_Some _ _ _ Hbk). rewrite u64_small by lia.
    destruct (zoom_copyout i root addr bs k b m pi (get p) s (pu_calm _ _ _ Hu) Ho Hs Hbk) as (m' & E' & Hs').
    run E'. cbn [Z.eqb]. apply wp_ret. exists (n - Z.of_nat (S k)). split; [lia|].
    exists (S k), (get p), m'. split; [lia|]. split; [lia|]. split; [lia|]. split; [done|]. split; [done|]. split; [|done].
    rewrite Hc'. rewrite (drop_S _ _ _ Eq) in Hc. by injection Hc.
  - exists 0%nat, p0, (s_mem s). split; [done|]. split; [lia|]. split; [lia|]. split; [by destruct s as [[]]|].
    split; [apply Hu|]. split; [done|]. apply stored_nil.
Qed.

(** ** Properties *)

(** The writer goes to sleep: it has woken the readers, released the pipe, and
    gives the CPU away in sleep(). *)
Definition writer_asleep (i : nat) (pi : Z) (p : pipe) (s : st) : st :=
  let ps := wake (ChPipeRead pi) (seq 0 NPROC) (procs (s_core s)) in
  set_s_pipe (fupd (s_pipe s) pi p)
    (set_s_core (acq (ProcLock i)
      (set_procs (fupd ps i (set_state SLEEPING (set_chan (Some (ChPipeWrite pi)) (ps i)))) (s_core s))) s).

(** An iteration that finds the pipe full, with nobody left to read it. *)
Lemma write_giveup i pi addr n k p s :
  pipe_user i pi s -> pipe_ok p -> filled p = PIPESIZE -> k < n ->
  (pi_readopen p =? 0) || negb (killed (procs (s_core s) i) =? 0) = true ->
  write_body pi addr n i k (inside pi p s) = Ok (inr (-1)) (set_s_pipe (fupd (s_pipe s) pi p) s).
Proof.
  intros Hu Hp Hf Hk Hdead. unfold write_body. rewrite (proj2 (Z.ltb_lt k n)) by done.
  assert (Ew : wait_room pi i (inside pi p s) = Ok true (inside pi p s)).
  { apply loop_once. unfold bind, getpi, getp, gets. rewrite inside_pipe.
    rewrite (proj2 (Z.eqb_eq _ _)) by by apply full_iff.
    change (killed (procs (s_core (inside pi p s)) i)) with (killed (procs (s_core s) i)). by rewrite Hdead. }
  rewrite (bind_run _ _ _ _ _ Ew). unfold bind. rewrite (unlock_eq _ (s_core s)); [|done|apply Hu|apply Hu].
  unfold ret, inside. by destruct s as [[]].
Qed.

(** An iteration that finds it full, and waits for the reader. *)
Lemma write_sleeps i pi addr n k p s :
  pipe_user i pi s -> pipe_ok p -> filled p = PIPESIZE -> k < n ->
  (pi_readopen p =? 0) || negb (killed (procs (s_core s) i) =? 0) = false ->
  noff (ccpu (s_core s)) = 0 -> (i < NPROC)%nat -> others (writer_asleep i pi p s) = None ->
  write_body pi addr n i k (inside pi p s) = Sleep (writer_asleep i pi p s).
Proof.
  intros Hu Hp Hf Hk Halive Hn Hi Ho. unfold write_body. rewrite (proj2 (Z.ltb_lt k n)) by done.
  enough (Ew : wait_room pi i (inside pi p s) = Sleep (writer_asleep i pi p s)) by (unfold bind; by rewrite Ew).
  apply loop_sleep. unfold bind at 1 2, getpi, getp, gets. rewrite inside_pipe.
  rewrite (proj2 (Z.eqb_eq _ _)) by by apply full_iff.
  change (killed (procs (s_core (inside pi p s)) i)) with (killed (procs (s_core s) i)). rewrite Halive.
  unfold bind at 1. rewrite wakeup_eq; [|by apply calm_acq, Hu|intros j Hj; apply acq_free; [done|by apply Hu]].
  unfold bind. set (ps := wake (ChPipeRead pi) (seq 0 NPROC) (procs (s_core s))).
  rewrite (sleep_gives_up _ _ i (set_procs ps (s_core s))); [done|done|by apply Hu|done|apply Hu|apply Hu| |done|exact Ho].
  apply (pu_procs _ _ _ Hu). apply elem_of_seq. lia.
Qed.

(** C17: pipewrite() appends to the queue.  It takes the bytes at [addr] in the
    memory of the writer in order and appends them, until it has taken [n], or
    the next address is not mapped, or the pipe is full.  In the first two
    cases it wakes the readers, changes nothing else, and returns the number
    of bytes.  When the pipe is full before that, the bytes that fitted stay in
    the pipe; if there is no reader left or the writer has been killed, it
    returns -1 and changes nothing else, and otherwise it wakes the readers,
    releases the pipe and goes to sleep on pi->nwrite. *)
Theorem pipewrite_correct i pi addr n s :
  pipe_user i pi s -> 0 <= n -> 0 <= addr -> addr + n < 2 ^ 63 ->
  let root := pagetable (procs (s_core s) i) in
  let p0 := s_pipe s pi in
  let room := PIPESIZE - filled p0 in
  exists k p, Z.of_nat k <= Z.min n room /\ pipe_ok p /\
    (forall j, (j < k)%nat -> umapped (s_mem s) root (addr + Z.of_nat j) = true) /\
    contents p = contents p0 ++ ubytes (s_mem s) root addr k /\
    ((Z.of_nat k = n \/ Z.of_nat k < Z.min n room /\ umapped (s_mem s) root (addr + Z.of_nat k) = false) /\
     pipewrite pi addr n s = Ok (Z.of_nat k) (after (ChPipeRead pi) pi p s)
     \/
     Z.of_nat k = room /\ room < n /\
     if (pi_readopen p0 =? 0) || negb (killed (procs (s_core s) i) =? 0)
     then pipewrite pi addr n s = Ok (-1) (set_s_pipe (fupd (s_pipe s) pi p) s)
     else noff (ccpu (s_core s)) = 0 -> (i < NPROC)%nat -> others (writer_asleep i pi p s) = None ->
          pipewrite pi addr n s = Sleep (writer_asleep i pi p s)).
Proof.
  intros Hu Hn Ha Han root p0 room. rewrite (pipewrite_loop i) by done.
  destruct (write_prefix i pi addr n s Hu Hn Ha Han) as (k & p & Hit & Hk & Hp & Hro & Hm & Hc & Hstop).
  fold root p0 in Hm, Hc, Hstop, Hro, Hit |- *.
  assert (Hfill : filled p = filled p0 + Z.of_nat k).
  { rewrite <- !length_contents, Hc, length_app. unfold ubytes. rewrite length_map, length_seq. lia. }
  assert (Hr : filled p <= PIPESIZE) by apply Hp. exists k, p. split; [unfold room; lia|]. do 3 (split; [done|]).
  destruct (Z.eq_dec (Z.of_nat k) n) as [En|En].
  - left. split; [by left|]. eapply loop_exits; [exact Hit|lia|]. unfold write_body. rewrite (proj2 (Z.ltb_ge _ n)) by lia.
    rewrite (leave_inside pi); [done|apply Hu..].
  - destruct (Z.eq_dec (filled p) PIPESIZE) as [Ef|Ef].
    + right. split; [unfold room; lia|]. split; [unfold room; lia|]. rewrite <- Hro. case_match eqn:Ed.
      * eapply loop_exits; [exact Hit|lia|]. by rewrite (write_giveup i) by (done || lia).
      * intros Hno Hi Ho. eapply loop_exits; [exact Hit|lia|]. by rewrite (write_sleeps i) by (done || lia).
    + left. destruct Hstop as [?|[?|Hun]]; [done|done|]. split; [right; split; [unfold room; lia|done]|].
      eapply loop_exits; [exact Hit|lia|]. rewrite (write_step i) by (done || lia). fold root. by rewrite Hun.
Qed.

(** C18: piperead() takes from the front of the queue.  When there are bytes in
    the pipe, or no writer is left, it moves the oldest bytes, at most [n],
    to [addr] in the memory of the reader, leaves the rest in the pipe, wakes
    the writers and returns the number of bytes; 0 stands for end of file.
    When the pipe is empty with a writer left, and the reader has been killed,
    it returns -1 and changes nothing. *)
Theorem piperead_correct i pi addr n s :
  let root := pagetable (procs (s_core s) i) in
  let q := contents (s_pipe s pi) in
  let bs := take (Z.to_nat n) q in
  pipe_user i pi s -> 0 <= n < 2 ^ 31 -> own_range (s_k s) i root addr (length bs) ->
  (q <> [] \/ pi_writeopen (s_pipe s pi) = 0 ->
   exists p m, piperead pi addr n s = Ok (Z.of_nat (length bs)) (after (ChPipeWrite pi) pi p (set_s_mem m s)) /\
     pipe_ok p /\ contents p = drop (length bs) q /\
     ubytes m root addr (length bs) = bs /\
     (forall x, (forall j, (j < length bs)%nat -> x <> uaddr (s_mem s) root (addr + Z.of_nat j)) -> m x = s_mem s x)) /\
  (q = [] -> pi_writeopen (s_pipe s pi) <> 0 -> killed (procs (s_core s) i) <> 0 -> piperead pi addr n s = Ok (-1) s).
Proof.
  intros root q bs Hu Hn Ho. split.
  - intros Hd. destruct (piperead_ok i pi addr n s Hu Hn Hd Ho) as (p & m & E & Hp & Hc & Hs). exists p, m.
    split_and!; [exact E|apply Hp..|exact Hc| |apply Hs].
    apply (stored_ubytes (s_mem s)); [exact Hs|]. apply (own_range_stored (s_k s) i root addr bs (length bs) m Ho).
    by rewrite firstn_all.
  - intros Hq Hw Hk. unfold piperead, bind at 1. rewrite (curproc_eq i) by apply Hu. unfold bind at 1.
    rewrite (lock_inside i) by done.
    assert (Ew : wait_data pi i (inside pi (s_pipe s pi) s) = Ok true (inside pi (s_pipe s pi) s)).
    { apply loop_once. unfold bind, getpi, getp, gets. cbn [s_pipe inside set_s_pipe]. rewrite fupd_eq.
      rewrite (proj2 (Z.eqb_eq (pi_nread _) _)) by (apply empty_iff; [apply Hu|done]).
      rewrite (proj2 (Z.eqb_neq (pi_writeopen _) 0)) by done. cbn [andb negb].
      change (killed (procs (s_core (inside pi (s_pipe s pi) s)) i)) with (killed (procs (s_core s) i)).
      by rewrite (proj2 (Z.eqb_neq _ 0) Hk). }
    unfold bind. rewrite Ew. rewrite (unlock_eq _ (s_core s)); [|done|apply Hu|apply Hu].
    unfold ret, inside. rewrite fupd_id. by destruct s as [[]].
Qed.

End PipeFifo.

(** ** Examples *)

Section Witness.
#[local] Existing Instances image8 world0 symbols0.

(** A pipe with three bytes whose counters are about to wrap around. *)
Definition pipe3 : pipe :=
  mkpipe (fun k => if k =? 510 then Byte.x0a else if k =? 511 then Byte.x0b else Byte.x0c) (2 ^ 32 - 2) 1 1 1.
Definition stp : st := set_s_pipe (fun _ => pipe3) (set_s_k (calm8 user_rwx 1) (st0 (fun _ => []))).

Lemma user_stp : pipe_user 1 0 stp.
Proof.
  split; [by split|done|done|done| |apply (own8 1)].
  split; [vm_compute; split; [discriminate|done]|]. split; [vm_compute; split; [discriminate|done]|]. by vm_compute.
Qed.

Lemma contents_pipe3 : contents pipe3 = [Byte.x0a; Byte.x0b; Byte.x0c].
Proof. by vm_compute. Qed.

(** A full pipe but for one byte, and a write of two. *)
Definition pipe511 : pipe := mkpipe (fun _ => Byte.x01) 1 512 1 1.
Definition stq : st := set_s_pipe (fun _ => pipe511) stp.

Lemma pipewrite_correct_witness :
  exists p, contents p = contents pipe511 ++ ubytes (mem8 user_rwx) (pg 0) 7 1 /\
    pipewrite 0 7 2 stq = Sleep (writer_asleep 1 0 p stq).
Proof.
  destruct (pipewrite_correct 1 0 7 2 stq) as (k & p & Hk & _ & _ & Hc & W).
  - by destruct user_stp.
  - lia.
  - lia.
  - reflexivity.
  - change (filled (s_pipe stq 0)) with 511 in *. unfold PIPESIZE in *.
    destruct W as [[[W|[W1 W2]] _]|(E1 & E2 & W)].
    + lia.
    + assert (k = 0%nat) as -> by lia. vm_compute in W2. discriminate W2.
    + exists p. assert (k = 1%nat) as -> by lia. split; [exact Hc|]. apply W; [reflexivity|unfold NPROC; lia|reflexivity].
Defined.

Lemma piperead_correct_witness :
  exists p m, piperead 0 7 3 stp = Ok 3 (after (ChPipeWrite 0) 0 p (set_s_mem m stp)) /\
    contents p = [] /\ ubytes m (pg 0) 7 3 = [Byte.x0a; Byte.x0b; Byte.x0c].
Proof.
  assert (Eq : contents (s_pipe stp 0) = [Byte.x0a; Byte.x0b; Byte.x0c]) by exact contents_pipe3.
  assert (W := piperead_correct 1 0 7 3 stp). cbv zeta in W. rewrite Eq in W.
  destruct W as [W _].
  - exact user_stp.
  - lia.
  - exact (own8 1).
  - destruct W as (p & m & E & _ & Hc & Hb & _); [left; discriminate|].
    exists p, m. split; [exact E|]. split; [exact Hc|exact Hb].
Defined.
End Witness.
