(* ===== verification/File.v ===== *)
(** Open files (kernel/file.c, kernel/file.h), and pipealloc() of
    kernel/pipe.c. *)

From stdpp Require Import base tactics list strings.
From Stdlib Require Import ZArith Lia FunctionalExtensionality.
From coqutil Require Import Byte.
From S2P Require Import Prelude Riscv Mem Core Spinlock Kalloc Vm State Csr Proc Console Sleeplock Virtio Bio Block Log Fs Pipe.

Local Open Scope Z_scope.
Local Open Scope kern_scope.

Section File.
Context `{KernelImage} `{World} `{Symbols} `{BlockDev}.

Definition getf {A} (f : nat) (g : file -> A) : M st A := gets (fun s => g (s_ft s f)).
Definition set_f (f : nat) (g : file -> file) : M st unit :=
  modify (fun s => set_s_ft (fupd (s_ft s) f (g (s_ft s f))) s).

Definition fileinit : M st unit := zoom (initlock FtableLock).

Definition filealloc : M st (option nat) :=
  lock_ FtableLock ;;;
  let* r := findM (seq 0 NFILE) (fun f =>
    let* n := getf f f_ref in
    if n =? 0 then
      set_f f (set_f_ref 1) ;;;
      unlock_ FtableLock ;;;
      ret (Some f)
    else ret None) in
  match r with
  | Some f => ret (Some f)
  | None =>
      unlock_ FtableLock ;;;
      ret None
  end.

Definition filedup (f : nat) : M st nat :=
  lock_ FtableLock ;;;
  let* n := getf f f_ref in
  if n <? 1 then panic "filedup"
  else
    set_f f (fun x => set_f_ref (f_ref x + 1) x) ;;;
    unlock_ FtableLock ;;;
    ret f.

(** A pointer that the code dereferences. *)
Definition the {A} (p : option A) : M st A :=
  match p with Some a => ret a | None => undefined "null pointer" end.

Definition fileclose (f : nat) : M st unit :=
  lock_ FtableLock ;;;
  let* n := getf f f_ref in
  if n <? 1 then panic "fileclose"
  else
    set_f f (fun x => set_f_ref (f_ref x - 1) x) ;;;
    let* n := getf f f_ref in
    if 0 <? n then unlock_ FtableLock
    else
      let* ff := getf f (fun x => x) in
      set_f f (set_f_ref 0) ;;;
      set_f f (set_f_type FD_NONE) ;;;
      unlock_ FtableLock ;;;
      match f_type ff with
      | FD_PIPE => pipeclose (f_pipe ff) (negb (f_writable ff =? 0))
      | FD_INODE | FD_DEVICE =>
          begin_op ;;;
          let* ip := the (f_ip ff) in
          iput ip ;;;
          end_op
      | FD_NONE => ret tt
      end.

Definition filestat (f : nat) (addr : Z) : M st Z :=
  let* p := curproc in
  let* x := getf f (fun x => x) in
  match f_type x with
  | FD_INODE | FD_DEVICE =>
      ilock (f_ip x) ;;;
      let* ip := the (f_ip x) in
      let* st := stati ip in
      iunlock (f_ip x) ;;;
      let* pt := getp p pagetable in
      let* r := zoom (copyout pt addr st) in
      if r <? 0 then ret (-1) else ret 0
  | _ => ret (-1)
  end.

Definition fileread (f : nat) (addr n : Z) : M st Z :=
  let* x := getf f (fun x => x) in
  if f_readable x =? 0 then ret (-1)
  else
    match f_type x with
    | FD_PIPE => piperead (f_pipe x) addr n
    | FD_DEVICE =>
        if (f_major x <? 0) || (NDEV <=? f_major x) then ret (-1)
        else
          let* d := gets (fun s => s_devsw s (f_major x)) in
          match d_read d with
          | None => ret (-1)
          | Some Consoleread => consoleread (User addr) n
          end
    | FD_INODE =>
        ilock (f_ip x) ;;;
        let* ip := the (f_ip x) in
        let* off := getf f f_off in
        let* r := readi ip (User addr) off (u32 n) in
        let r := r.1 in
        when (0 <? r) (set_f f (fun x => set_f_off (u32 (f_off x + r)) x)) ;;;
        iunlock (f_ip x) ;;;
        ret r
    | FD_NONE => panic "fileread"
    end.

Definition filewrite_max : Z := Z.quot (MAXOPBLOCKS - 1 - 1 - 2) 2 * BSIZE.

Definition filewrite (f : nat) (addr n : Z) : M st Z :=
  let* x := getf f (fun x => x) in
  if f_writable x =? 0 then ret (-1)
  else
    match f_type x with
    | FD_PIPE => pipewrite (f_pipe x) addr n
    | FD_DEVICE =>
        if (f_major x <? 0) || (NDEV <=? f_major x) then ret (-1)
        else
          let* d := gets (fun s => s_devsw s (f_major x)) in
          match d_write d with
          | None => ret (-1)
          | Some Consolewrite => consolewrite (User addr) n
          end
    | FD_INODE =>
        let* i := loop (fun i =>
          if i <? n then
            let n1 := Z.min (n - i) filewrite_max in
            begin_op ;;;
            ilock (f_ip x) ;;;
            let* ip := the (f_ip x) in
            let* off := getf f f_off in
            let* r := writei ip (User (u64 (addr + i))) off (u32 n1) in
            when (0 <? r) (set_f f (fun x => set_f_off (u32 (f_off x + r)) x)) ;;;
            iunlock (f_ip x) ;;;
            end_op ;;;
            if r <? 0 then ret (inr i)
            else if negb (r =? n1) then panic "short filewrite"
            else ret (inl (i + r))
          else ret (inr i)) 0 in
        ret (if i =? n then n else -1)
    | FD_NONE => panic "filewrite"
    end.

(** The two ends of a new pipe, or None for -1; [bad] is the error path. *)
Definition pipealloc_bad (pi : Z) (f0 f1 : option nat) : M st (option (nat * nat)) :=
  when (negb (pi =? 0)) (zoom (kfree pi)) ;;;
  (match f0 with Some f => fileclose f | None => ret tt end) ;;;
  (match f1 with Some f => fileclose f | None => ret tt end) ;;;
  ret None.

Definition pipealloc : M st (option (nat * nat)) :=
  let* f0 := filealloc in
  match f0 with
  | None => pipealloc_bad 0 None None
  | Some a =>
      let* f1 := filealloc in
      match f1 with
      | None => pipealloc_bad 0 f0 None
      | Some b =>
          let* pi := zoom kalloc in
          if pi =? 0 then pipealloc_bad 0 f0 f1
          else
            set_pi pi (set_pi_readopen 1) ;;;
            set_pi pi (set_pi_writeopen 1) ;;;
            set_pi pi (set_pi_nwrite 0) ;;;
            set_pi pi (set_pi_nread 0) ;;;
            zoom (initlock (PipeLock pi)) ;;;
            set_f a (set_f_type FD_PIPE) ;;;
            set_f a (set_f_readable 1) ;;;
            set_f a (set_f_writable 0) ;;;
            set_f a (set_f_pipe pi) ;;;
            set_f b (set_f_type FD_PIPE) ;;;
            set_f b (set_f_readable 0) ;;;
            set_f b (set_f_writable 1) ;;;
            set_f b (set_f_pipe pi) ;;;
            ret (Some (a, b))
      end
  end.

End File.
