(* ===== verification/Process.v ===== *)
(** Process life cycle (kernel/proc.c): userinit(), fork(), exit(), wait(). *)

From stdpp Require Import base tactics list strings.
From Stdlib Require Import ZArith Lia FunctionalExtensionality.
From coqutil Require Import Byte Word.LittleEndianList.
From S2P Require Import Prelude Riscv Mem Core Spinlock Kalloc Vm State Csr Proc Printf Sleeplock Virtio Bio Block Log Fs Pipe File.

Local Open Scope Z_scope.
Local Open Scope kern_scope.

(** initcode[]: a user program that calls exec("/init"). *)
Definition initcode : list byte := List.map byte.of_Z
  [0x17; 0x05; 0x00; 0x00; 0x13; 0x05; 0x45; 0x02;
   0x97; 0x05; 0x00; 0x00; 0x93; 0x85; 0x35; 0x02;
   0x93; 0x08; 0x70; 0x00; 0x73; 0x00; 0x00; 0x00;
   0x93; 0x08; 0x20; 0x00; 0x73; 0x00; 0x00; 0x00;
   0xef; 0xf0; 0x9f; 0xff; 0x2f; 0x69; 0x6e; 0x69;
   0x74; 0x00; 0x00; 0x24; 0x00; 0x00; 0x00; 0x00;
   0x00; 0x00; 0x00; 0x00].

(** The bytes of a string literal. *)
Definition bytes_of (s : string) : list byte := List.map byte.of_Z (codes s).

Section Process.
Context `{KernelImage} `{World} `{Symbols} `{BlockDev}.

Definition userinit : M st unit :=
  let* r := allocproc in
  modify (fun s => set_s_core (set_initproc r (s_core s)) s) ;;;
  let* p := the r in
  let* pt := getp p pagetable in
  zoom (uvminit pt initcode) ;;;
  setp p (set_sz PGSIZE) ;;;
  tf_set p TF_epc 0 ;;;
  tf_set p TF_sp PGSIZE ;;;
  setp p (fun x => set_pname (safestrcpy_arr (pname x) (bytes_of "initcode") 16) x) ;;;
  let* ip := namei (bytes_of "/") in
  setp p (set_cwd ip) ;;;
  setp p (set_state RUNNABLE) ;;;
  unlock_ (ProcLock p).

Definition fork : M st Z :=
  let* p := curproc in
  let* r := allocproc in
  match r with
  | None => ret (-1)
  | Some np =>
      let* pt := getp p pagetable in
      let* npt := getp np pagetable in
      let* n := getp p sz in
      let* r := zoom (uvmcopy pt npt n) in
      if r <? 0 then
        freeproc np ;;;
        unlock_ (ProcLock np) ;;;
        ret (-1)
      else
        setp np (set_sz n) ;;;
        setp np (set_parent (Some p)) ;;;
        let* tf := getp p trapframe in
        let* ntf := getp np trapframe in
        zoom (memmove ntf tf sizeof_trapframe) ;;;
        tf_set np TF_a0 0 ;;;
        forM (seq 0 NOFILE) (fun i =>
          let* f := getp p (fun x => nth i (ofile x) None) in
          match f with
          | None => ret tt
          | Some f =>
              let* f := filedup f in
              setp np (fun x => set_ofile (<[i := Some f]> (ofile x)) x)
          end) ;;;
        let* cwd := getp p cwd in
        let* ip := the cwd in
        let* ip := idup ip in
        setp np (set_cwd (Some ip)) ;;;
        let* nm := getp p pname in
        setp np (fun x => set_pname (safestrcpy_arr (pname x) nm 16) x) ;;;
        let* pid := getp np pid in
        setp np (set_state RUNNABLE) ;;;
        unlock_ (ProcLock np) ;;;
        ret pid
  end.

(** exit() does not return: a zombie is never scheduled again, so that the
    run ends in [Sleep], in the state the scheduler takes over. *)
Definition exit {A} (status : Z) : M st A :=
  let* p := curproc in
  let* init := gets (fun s => initproc (s_core s)) in
  if bool_decide (init = Some p) then panic "init exiting"
  else
    forM (seq 0 NOFILE) (fun fd =>
      let* f := getp p (fun x => nth fd (ofile x) None) in
      match f with
      | None => ret tt
      | Some f =>
          fileclose f ;;;
          setp p (fun x => set_ofile (<[fd := None]> (ofile x)) x)
      end) ;;;
    begin_op ;;;
    let* cwd := getp p cwd in
    let* ip := the cwd in
    iput ip ;;;
    end_op ;;;
    setp p (set_cwd None) ;;;
    let* init := the init in
    lock_ (ProcLock init) ;;;
    wakeup1 init ;;;
    unlock_ (ProcLock init) ;;;
    lock_ (ProcLock p) ;;;
    let* parent := getp p parent in
    unlock_ (ProcLock p) ;;;
    let* original_parent := the parent in
    lock_ (ProcLock original_parent) ;;;
    lock_ (ProcLock p) ;;;
    reparent p ;;;
    wakeup1 original_parent ;;;
    setp p (set_xstate status) ;;;
    setp p (set_state ZOMBIE) ;;;
    unlock_ (ProcLock original_parent) ;;;
    sched ;;;
    panic "zombie exit".

(** One scan of wait() over the process table: the result of the call, or
    whether the process has children. *)
Definition wait_scan (p : nat) (addr : Z) : M st (bool + Z) :=
  scanM (seq 0 NPROC) false (fun np havekids =>
    let* par := getp np parent in
    if bool_decide (par = Some p) then
      lock_ (ProcLock np) ;;;
      let* st := getp np state in
      if bool_decide (st = ZOMBIE) then
        let* pid := getp np pid in
        let* xs := getp np xstate in
        let* pt := getp p pagetable in
        let* rc := (if negb (addr =? 0) then zoom (copyout pt addr (le_split 4 xs)) else ret 0) in
        if rc <? 0 then
          unlock_ (ProcLock np) ;;;
          unlock_ (ProcLock p) ;;;
          ret (inr (-1))
        else
          freeproc np ;;;
          unlock_ (ProcLock np) ;;;
          unlock_ (ProcLock p) ;;;
          ret (inr pid)
      else
        unlock_ (ProcLock np) ;;;
        ret (inl true)
    else ret (inl havekids)).

Definition wait (addr : Z) : M st Z :=
  let* p := curproc in
  lock_ (ProcLock p) ;;;
  loop (fun _ : unit =>
    let* r := wait_scan p addr in
    match r with
    | inr v => ret (inr v)
    | inl havekids =>
        let* k := getp p killed in
        if negb havekids || negb (k =? 0) then
          unlock_ (ProcLock p) ;;;
          ret (inr (-1))
        else
          sleep (ChProc p) (ProcLock p) ;;;
          ret (inl tt)
    end) tt.

End Process.
