(* ===== verification/Exec.v ===== *)
(** Loading programs (kernel/exec.c, kernel/elf.h).  argv[] is the list of
    the kernel pages that hold the argument strings. *)

From stdpp Require Import base tactics list strings.
From Stdlib Require Import ZArith Lia FunctionalExtensionality.
From coqutil Require Import Byte Word.LittleEndianList.
From S2P Require Import Prelude Riscv Mem StringC Core Spinlock Kalloc Vm State Csr Proc Sleeplock Virtio Bio Block Log Fs.

Local Open Scope Z_scope.
Local Open Scope kern_scope.

#[export] Instance st_mem : Lens st mem.
Proof.
  refine {| lget := fun s => k_mem (s_k s);
            lput := fun m s => set_s_k (set_mem m (s_k s)) s |};
  [done|by intros [[]]|done].
Defined.

Definition ELF_MAGIC : Z := 0x464C457F.
Definition ELF_PROG_LOAD : Z := 1.
Definition sizeof_elfhdr : Z := 64.
Definition sizeof_proghdr : Z := 56.

(** The fields of struct elfhdr and struct proghdr that exec() uses. *)
Record elfhdr := mkelf { elf_magic : Z; elf_entry : Z; elf_phoff : Z; elf_phnum : Z }.
Record proghdr := mkph {
  ph_type : Z; ph_off : Z; ph_vaddr : Z; ph_filesz : Z; ph_memsz : Z
}.

Definition elfhdr_of (d : list byte) : elfhdr :=
  mkelf (get_le d 0 4) (get_le d 24 8) (get_le d 32 8) (get_le d 56 2).
Definition proghdr_of (d : list byte) : proghdr :=
  mkph (get_le d 0 4) (get_le d 8 8) (get_le d 16 8) (get_le d 32 8) (get_le d 40 8).

(** The part of a path after its last slash. *)
Fixpoint last_elem (last path : list byte) : list byte :=
  match path with
  | [] => last
  | c :: path' => if bool_decide (c = slash) then last_elem path' path' else last_elem last path'
  end.

Section Exec.
Context `{KernelImage} `{World} `{Symbols} `{BlockDev}.

Definition loadseg (pagetable va : Z) (ip : nat) (offset sz : Z) : M st Z :=
  if negb (va mod PGSIZE =? 0) then panic "loadseg: va must be page aligned"
  else
    loop (fun i =>
      if i <? sz then
        let* pa := zoom (walkaddr pagetable (u64 (va + i))) in
        if pa =? 0 then panic "loadseg: address should exist"
        else
          let n := if u32 (sz - i) <? PGSIZE then u32 (sz - i) else PGSIZE in
          let* r := readi ip (Kernel pa) (u32 (offset + i)) n in
          if negb (u32 r.1 =? n) then ret (inr (-1))
          else ret (inl (u32 (i + PGSIZE)))
      else ret (inr 0)) 0.

(** bad: *)
Definition exec_bad (pagetable sz : Z) (ip : option nat) : M st Z :=
  when (negb (pagetable =? 0)) (proc_freepagetable pagetable sz) ;;;
  (match ip with
   | Some ip => iunlockput ip ;;; end_op
   | None => ret tt
   end) ;;;
  ret (-1).

(** The loop over the program headers: the size of the new image, or the
    size so far if something is wrong. *)
Definition load_segments (ip : nat) (pagetable : Z) (elf : elfhdr) : M st (Z + Z) :=
  loop (fun '(i, off, sz) =>
    if i <? elf_phnum elf then
      let* r := readi ip (Local []) (u32 off) sizeof_proghdr in
      let '(n, bs) := r in
      if negb (n =? sizeof_proghdr) then ret (inr (inr sz))
      else
        let ph := proghdr_of bs in
        if negb (ph_type ph =? ELF_PROG_LOAD) then
          ret (inl (i + 1, i32 (off + sizeof_proghdr), sz))
        else if ph_memsz ph <? ph_filesz ph then ret (inr (inr sz))
        else if u64 (ph_vaddr ph + ph_memsz ph) <? ph_vaddr ph then ret (inr (inr sz))
        else
          let* sz1 := zoom (uvmalloc pagetable sz (u64 (ph_vaddr ph + ph_memsz ph))) in
          if sz1 =? 0 then ret (inr (inr sz))
          else
            let sz := sz1 in
            if negb (ph_vaddr ph mod PGSIZE =? 0) then ret (inr (inr sz))
            else
              let* r := loadseg pagetable (ph_vaddr ph) ip (u32 (ph_off ph)) (u32 (ph_filesz ph)) in
              if r <? 0 then ret (inr (inr sz))
              else ret (inl (i + 1, i32 (off + sizeof_proghdr), sz))
    else ret (inr (inl sz))) (0, i32 (elf_phoff elf), 0).

(** Push the argument strings: the stack pointer and ustack[], or None. *)
Fixpoint push_args (pagetable stackbase : Z) (argv : list Z) (argc sp : Z) (ustack : list Z) :
    M st (option (Z * list Z)) :=
  match argv with
  | [] => ret (Some (sp, ustack))
  | arg :: argv' =>
      if Z.of_nat MAXARG <=? argc then ret None
      else
        let* len := zoom (strlen arg) in
        let sp := u64 (sp - (len + 1)) in
        let sp := u64 (sp - sp mod 16) in
        if sp <? stackbase then ret None
        else
          let* bs := gets (fun s => rd (s_mem s) arg (Z.to_nat (len + 1))) in
          let* r := zoom (copyout pagetable sp bs) in
          if r <? 0 then ret None
          else push_args pagetable stackbase argv' (argc + 1) sp (ustack ++ [sp])
  end.

Definition exec (path : list byte) (argv : list Z) : M st Z :=
  let* p := curproc in
  begin_op ;;;
  let* r := namei path in
  match r with
  | None =>
      end_op ;;;
      ret (-1)
  | Some ip =>
      ilock (Some ip) ;;;
      let* r := readi ip (Local []) 0 sizeof_elfhdr in
      let '(n, bs) := r in
      let elf := elfhdr_of bs in
      if negb (n =? sizeof_elfhdr) then exec_bad 0 0 (Some ip)
      else if negb (elf_magic elf =? ELF_MAGIC) then exec_bad 0 0 (Some ip)
      else
        let* pt := proc_pagetable p in
        if pt =? 0 then exec_bad 0 0 (Some ip)
        else
          let* r := load_segments ip pt elf in
          match r with
          | inr sz => exec_bad pt sz (Some ip)
          | inl sz =>
              iunlockput ip ;;;
              end_op ;;;
              let* p := curproc in
              let* oldsz := getp p Core.sz in
              let sz := PGROUNDUP sz in
              let* sz1 := zoom (uvmalloc pt sz (u64 (sz + 2 * PGSIZE))) in
              if sz1 =? 0 then exec_bad pt sz None
              else
                let sz := sz1 in
                zoom (uvmclear pt (u64 (sz - 2 * PGSIZE))) ;;;
                let stackbase := u64 (sz - PGSIZE) in
                let* r := push_args pt stackbase argv 0 sz [] in
                match r with
                | None => exec_bad pt sz None
                | Some (sp, ustack) =>
                    let argc := Z.of_nat (length ustack) in
                    let sp := u64 (sp - (argc + 1) * 8) in
                    let sp := u64 (sp - sp mod 16) in
                    if sp <? stackbase then exec_bad pt sz None
                    else
                      let* r := zoom (copyout pt sp (concat (List.map (le_split 8) (ustack ++ [0])))) in
                      if r <? 0 then exec_bad pt sz None
                      else
                        tf_set p TF_a1 sp ;;;
                        setp p (fun x => set_pname
                          (safestrcpy_arr (pname x) (last_elem path path) 16) x) ;;;
                        let* oldpagetable := getp p pagetable in
                        setp p (set_pagetable pt) ;;;
                        setp p (set_sz sz) ;;;
                        tf_set p TF_epc (elf_entry elf) ;;;
                        tf_set p TF_sp sp ;;;
                        proc_freepagetable oldpagetable oldsz ;;;
                        ret argc
                end
          end
  end.

End Exec.
