(* ===== verification/Sysfile.v ===== *)
(** System call arguments (kernel/syscall.c), and the system calls on files
    (kernel/sysfile.c, kernel/fcntl.h).

    A handler returns its C result; syscall() stores it in a0 as a uint64. *)

From stdpp Require Import base tactics list strings.
From Stdlib Require Import ZArith Lia FunctionalExtensionality.
From coqutil Require Import Byte Word.LittleEndianList.
From S2P Require Import Prelude Riscv Mem StringC Core Spinlock Kalloc Vm State Csr Proc Printf Sleeplock Virtio Bio Block Log Fs Pipe File Process Exec.

Local Open Scope Z_scope.
Local Open Scope kern_scope.

Definition O_RDONLY : Z := 0x000.
Definition O_WRONLY : Z := 0x001.
Definition O_RDWR : Z := 0x002.
Definition O_CREATE : Z := 0x200.
Definition O_TRUNC : Z := 0x400.

Section Sysfile.
Context `{KernelImage} `{World} `{Symbols} `{BlockDev}.

(** ** Arguments *)

(** The value at *ip, or None for -1. *)
Definition fetchaddr (addr : Z) : M st (option Z) :=
  let* i := curproc in
  let* p := getp i (fun p => p) in
  if (sz p <=? addr) || (sz p <? u64 (addr + 8)) then ret None
  else
    let* r := zoom (copyin (pagetable p) addr 8) in
    let '(rc, bs) := r in
    if negb (rc =? 0) then ret None else ret (Some (le_combine bs)).

(** The result, and the bytes stored in buf. *)
Definition fetchstr (addr max : Z) : M st (Z * list byte) :=
  let* i := curproc in
  let* pt := getp i pagetable in
  let* r := zoom (copyinstr pt addr max) in
  let '(err, bs) := r in
  if err <? 0 then ret (err, bs)
  else ret (Z.of_nat (length (cut (length bs) bs)), bs).

Definition argraw (n : Z) : M st Z :=
  let* i := curproc in
  if n =? 0 then tf_get i TF_a0
  else if n =? 1 then tf_get i TF_a1
  else if n =? 2 then tf_get i TF_a2
  else if n =? 3 then tf_get i TF_a3
  else if n =? 4 then tf_get i TF_a4
  else if n =? 5 then tf_get i TF_a5
  else panic "argraw".

(** These two always return 0; the result here is *ip. *)
Definition argint (n : Z) : M st Z := let* v := argraw n in ret (i32 v).
Definition argaddr (n : Z) : M st Z := argraw n.

(** The string without its NUL, or None for -1. *)
Definition argstr (n max : Z) : M st (option (list byte)) :=
  let* addr := argaddr n in
  let* r := fetchstr addr max in
  let '(rc, bs) := r in
  if rc <? 0 then ret None else ret (Some (cut (length bs) bs)).

(** ** File descriptors *)

Definition argfd (n : Z) : M st (option (Z * nat)) :=
  let* fd := argint n in
  if (fd <? 0) || (Z.of_nat NOFILE <=? fd) then ret None
  else
    let* i := curproc in
    let* f := getp i (fun p => nth (Z.to_nat fd) (ofile p) None) in
    match f with None => ret None | Some f => ret (Some (fd, f)) end.

(** p->ofile[fd] = f *)
Definition set_fd (i : nat) (fd : nat) (f : option nat) : M st unit :=
  setp i (fun p => set_ofile (<[fd := f]> (ofile p)) p).

Definition fdalloc (f : nat) : M st Z :=
  let* i := curproc in
  let* r := findM (seq 0 NOFILE) (fun fd =>
    let* o := getp i (fun p => nth fd (ofile p) None) in
    match o with
    | None => set_fd i fd (Some f) ;;; ret (Some (Z.of_nat fd))
    | Some _ => ret None
    end) in
  match r with Some fd => ret fd | None => ret (-1) end.

Definition sys_dup : M st Z :=
  let* a := argfd 0 in
  match a with
  | None => ret (-1)
  | Some (_, f) =>
      let* fd := fdalloc f in
      if fd <? 0 then ret (-1)
      else
        let* _ := filedup f in
        ret fd
  end.

Definition sys_read : M st Z :=
  let* a := argfd 0 in
  match a with
  | None => ret (-1)
  | Some (_, f) =>
      let* n := argint 2 in
      let* p := argaddr 1 in
      fileread f p n
  end.

Definition sys_write : M st Z :=
  let* a := argfd 0 in
  match a with
  | None => ret (-1)
  | Some (_, f) =>
      let* n := argint 2 in
      let* p := argaddr 1 in
      filewrite f p n
  end.

Definition sys_close : M st Z :=
  let* a := argfd 0 in
  match a with
  | None => ret (-1)
  | Some (fd, f) =>
      let* i := curproc in
      set_fd i (Z.to_nat fd) None ;;;
      fileclose f ;;;
      ret 0
  end.

Definition sys_fstat : M st Z :=
  let* a := argfd 0 in
  match a with
  | None => ret (-1)
  | Some (_, f) =>
      let* addr := argaddr 1 in
      filestat f addr
  end.

(** ** Links *)

(** ip->nlink is a short. *)
Definition add_nlink (ip : nat) (d : Z) : M st unit :=
  set_ip ip (fun x => set_i_nlink (i16 (i_nlink x + d)) x).

(** bad: of sys_link() *)
Definition link_bad (ip : nat) : M st Z :=
  ilock (Some ip) ;;;
  add_nlink ip (-1) ;;;
  iupdate ip ;;;
  iunlockput ip ;;;
  end_op ;;;
  ret (-1).

Definition sys_link : M st Z :=
  let* old := argstr 0 MAXPATH in
  match old with
  | None => ret (-1)
  | Some old =>
      let* new := argstr 1 MAXPATH in
      match new with
      | None => ret (-1)
      | Some new =>
          begin_op ;;;
          let* r := namei old in
          match r with
          | None => end_op ;;; ret (-1)
          | Some ip =>
              ilock (Some ip) ;;;
              let* t := getip ip i_type in
              if t =? T_DIR then
                iunlockput ip ;;;
                end_op ;;;
                ret (-1)
              else
                add_nlink ip 1 ;;;
                iupdate ip ;;;
                iunlock (Some ip) ;;;
                let* r := nameiparent new name_junk in
                let '(dp, name) := r in
                match dp with
                | None => link_bad ip
                | Some dp =>
                    ilock (Some dp) ;;;
                    let* d1 := getip dp i_dev in
                    let* d2 := getip ip i_dev in
                    let* inum := getip ip i_inum in
                    let* bad :=
                      (if negb (d1 =? d2) then ret true
                       else let* r := dirlink dp name inum in ret (r <? 0)) in
                    if bad : bool then
                      iunlockput dp ;;;
                      link_bad ip
                    else
                      iunlockput dp ;;;
                      iput ip ;;;
                      end_op ;;;
                      ret 0
                end
          end
      end
  end.

Definition isdirempty (dp : nat) : M st bool :=
  loop (fun off =>
    let* size := getip dp i_size in
    if off <? size then
      let* r := readi dp (Local []) off sizeof_dirent in
      let '(n, de) := r in
      if negb (n =? sizeof_dirent) then panic "isdirempty: readi"
      else if negb (de_inum de =? 0) then ret (inr false)
      else ret (inl (off + sizeof_dirent))
    else ret (inr true)) (2 * sizeof_dirent).

(** bad: of sys_unlink() *)
Definition unlink_bad (dp : nat) : M st Z :=
  iunlockput dp ;;;
  end_op ;;;
  ret (-1).

Definition sys_unlink : M st Z :=
  let* path := argstr 0 MAXPATH in
  match path with
  | None => ret (-1)
  | Some path =>
      begin_op ;;;
      let* r := nameiparent path name_junk in
      let '(dp, name) := r in
      match dp with
      | None => end_op ;;; ret (-1)
      | Some dp =>
          ilock (Some dp) ;;;
          if (namecmp name (bytes_of ".") =? 0) || (namecmp name (bytes_of "..") =? 0) then
            unlink_bad dp
          else
            let* r := dirlookup dp name in
            match r with
            | None => unlink_bad dp
            | Some (ip, off) =>
                ilock (Some ip) ;;;
                let* nlink := getip ip i_nlink in
                if nlink <? 1 then panic "unlink: nlink < 1"
                else
                  let* t := getip ip i_type in
                  let* full :=
                    (if t =? T_DIR then let* e := isdirempty ip in ret (negb e) else ret false) in
                  if full : bool then
                    iunlockput ip ;;;
                    unlink_bad dp
                  else
                    let de := List.repeat Byte.x00 (Z.to_nat sizeof_dirent) in
                    let* n := writei dp (Local de) off sizeof_dirent in
                    if negb (n =? sizeof_dirent) then panic "unlink: writei"
                    else
                      let* t := getip ip i_type in
                      when (t =? T_DIR)
                        (add_nlink dp (-1) ;;;
                         iupdate dp) ;;;
                      iunlockput dp ;;;
                      add_nlink ip (-1) ;;;
                      iupdate ip ;;;
                      iunlockput ip ;;;
                      end_op ;;;
                      ret 0
            end
      end
  end.

Definition create (path : list byte) (type major minor : Z) : M st (option nat) :=
  let* r := nameiparent path name_junk in
  let '(dp, name) := r in
  match dp with
  | None => ret None
  | Some dp =>
      ilock (Some dp) ;;;
      let* r := dirlookup dp name in
      match r with
      | Some (ip, _) =>
          iunlockput dp ;;;
          ilock (Some ip) ;;;
          let* t := getip ip i_type in
          if (type =? T_FILE) && ((t =? T_FILE) || (t =? T_DEVICE)) then ret (Some ip)
          else
            iunlockput ip ;;;
            ret None
      | None =>
          let* dev := getip dp i_dev in
          let* ip := ialloc dev type in
          ilock (Some ip) ;;;
          set_ip ip (set_i_major (i16 major)) ;;;
          set_ip ip (set_i_minor (i16 minor)) ;;;
          set_ip ip (set_i_nlink 1) ;;;
          iupdate ip ;;;
          let* inum := getip ip i_inum in
          when (type =? T_DIR)
            (add_nlink dp 1 ;;;
             iupdate dp ;;;
             let* r := dirlink ip (bytes_of ".") inum in
             if r <? 0 then panic "create dots"
             else
               let* dinum := getip dp i_inum in
               let* r := dirlink ip (bytes_of "..") dinum in
               if r <? 0 then panic "create dots" else ret tt) ;;;
          let* r := dirlink dp name inum in
          if r <? 0 then panic "create: dirlink"
          else
            iunlockput dp ;;;
            ret (Some ip)
      end
  end.

(** ** open() and the like *)

(** The first part of sys_open(): the inode, locked, or None after end_op(). *)
Definition open_inode (path : list byte) (omode : Z) : M st (option nat) :=
  if negb (Z.land omode O_CREATE =? 0) then
    let* r := create path T_FILE 0 0 in
    match r with
    | None => end_op ;;; ret None
    | Some ip => ret (Some ip)
    end
  else
    let* r := namei path in
    match r with
    | None => end_op ;;; ret None
    | Some ip =>
        ilock (Some ip) ;;;
        let* t := getip ip i_type in
        if (t =? T_DIR) && negb (omode =? O_RDONLY) then
          iunlockput ip ;;;
          end_op ;;;
          ret None
        else ret (Some ip)
    end.

Definition bool_int (b : bool) : Z := if b then 1 else 0.

Definition sys_open : M st Z :=
  let* path := argstr 0 MAXPATH in
  match path with
  | None => ret (-1)
  | Some path =>
      let* omode := argint 1 in
      begin_op ;;;
      let* r := open_inode path omode in
      match r with
      | None => ret (-1)
      | Some ip =>
          let* x := getip ip (fun x => x) in
          if (i_type x =? T_DEVICE) && ((i_major x <? 0) || (NDEV <=? i_major x)) then
            iunlockput ip ;;;
            end_op ;;;
            ret (-1)
          else
            let* f := filealloc in
            match f with
            | None =>
                iunlockput ip ;;;
                end_op ;;;
                ret (-1)
            | Some f =>
                let* fd := fdalloc f in
                if fd <? 0 then
                  fileclose f ;;;
                  iunlockput ip ;;;
                  end_op ;;;
                  ret (-1)
                else
                  (if i_type x =? T_DEVICE then
                     set_f f (set_f_type FD_DEVICE) ;;;
                     set_f f (set_f_major (i_major x))
                   else
                     set_f f (set_f_type FD_INODE) ;;;
                     set_f f (set_f_off 0)) ;;;
                  set_f f (set_f_ip (Some ip)) ;;;
                  set_f f (set_f_readable (bool_int (Z.land omode O_WRONLY =? 0))) ;;;
                  set_f f (set_f_writable (bool_int
                    (negb (Z.land omode O_WRONLY =? 0) || negb (Z.land omode O_RDWR =? 0)))) ;;;
                  when (negb (Z.land omode O_TRUNC =? 0) && (i_type x =? T_FILE)) (itrunc ip) ;;;
                  iunlock (Some ip) ;;;
                  end_op ;;;
                  ret fd
            end
      end
  end.

(** What sys_mkdir() and sys_mknod() do with the result of create(). *)
Definition finish_create (r : option nat) : M st Z :=
  match r with
  | None => end_op ;;; ret (-1)
  | Some ip =>
      iunlockput ip ;;;
      end_op ;;;
      ret 0
  end.

Definition sys_mkdir : M st Z :=
  begin_op ;;;
  let* path := argstr 0 MAXPATH in
  match path with
  | None => end_op ;;; ret (-1)
  | Some path => let* r := create path T_DIR 0 0 in finish_create r
  end.

Definition sys_mknod : M st Z :=
  begin_op ;;;
  let* path := argstr 0 MAXPATH in
  match path with
  | None => end_op ;;; ret (-1)
  | Some path =>
      let* major := argint 1 in
      let* minor := argint 2 in
      let* r := create path T_DEVICE (i16 major) (i16 minor) in
      finish_create r
  end.

Definition sys_chdir : M st Z :=
  let* p := curproc in
  begin_op ;;;
  let* path := argstr 0 MAXPATH in
  match path with
  | None => end_op ;;; ret (-1)
  | Some path =>
      let* r := namei path in
      match r with
      | None => end_op ;;; ret (-1)
      | Some ip =>
          ilock (Some ip) ;;;
          let* t := getip ip i_type in
          if negb (t =? T_DIR) then
            iunlockput ip ;;;
            end_op ;;;
            ret (-1)
          else
            iunlock (Some ip) ;;;
            let* old := getp p cwd in
            let* old := the old in
            iput old ;;;
            end_op ;;;
            setp p (set_cwd (Some ip)) ;;;
            ret 0
      end
  end.

(** ** exec() *)

(** The loop of sys_exec() that fetches the arguments: argv[], and whether
    it ended at a null pointer. *)
Definition fetch_args (uargv : Z) : M st (list Z * bool) :=
  loop (fun '(i, argv) =>
    if Z.of_nat MAXARG <=? i then ret (inr (argv, false))
    else
      let* a := fetchaddr (u64 (uargv + 8 * i)) in
      match a with
      | None => ret (inr (argv, false))
      | Some uarg =>
          if uarg =? 0 then ret (inr (argv, true))
          else
            let* pg := zoom kalloc in
            if pg =? 0 then ret (inr (argv, false))
            else
              let argv := argv ++ [pg] in
              let* r := fetchstr uarg PGSIZE in
              let '(rc, bs) := r in
              modify (fun s => set_s_mem (wr (s_mem s) pg bs) s) ;;;
              if rc <? 0 then ret (inr (argv, false)) else ret (inl (i + 1, argv))
      end) (0, []).

Definition sys_exec : M st Z :=
  let* path := argstr 0 MAXPATH in
  match path with
  | None => ret (-1)
  | Some path =>
      let* uargv := argaddr 1 in
      let* r := fetch_args uargv in
      let '(argv, ok) := r in
      let* rc := (if ok : bool then exec path argv else ret (-1)) in
      forM argv (fun pg => zoom (kfree pg)) ;;;
      ret rc
  end.

(** ** pipe() *)

Definition sys_pipe : M st Z :=
  let* p := curproc in
  let* fdarray := argaddr 0 in
  let* r := pipealloc in
  match r with
  | None => ret (-1)
  | Some (rf, wf) =>
      let* fd0 := fdalloc rf in
      let* fd1 := (if fd0 <? 0 then ret (-1) else fdalloc wf) in
      if (fd0 <? 0) || (fd1 <? 0) then
        when (0 <=? fd0) (set_fd p (Z.to_nat fd0) None) ;;;
        fileclose rf ;;;
        fileclose wf ;;;
        ret (-1)
      else
        let* pt := getp p pagetable in
        let* r0 := zoom (copyout pt fdarray (le_split 4 fd0)) in
        let* r1 := (if r0 <? 0 then ret r0
                    else zoom (copyout pt (u64 (fdarray + 4)) (le_split 4 fd1))) in
        if r1 <? 0 then
          set_fd p (Z.to_nat fd0) None ;;;
          set_fd p (Z.to_nat fd1) None ;;;
          fileclose rf ;;;
          fileclose wf ;;;
          ret (-1)
        else ret 0
  end.

End Sysfile.
