(* ===== verification/Trap.v ===== *)
(** Traps, interrupts and system call dispatch: kernel/sysproc.c, syscall()
    of kernel/syscall.c, kernel/plic.c, kernel/trap.c, forkret() of
    kernel/proc.c. *)

From stdpp Require Import base tactics list strings.
From Stdlib Require Import ZArith Lia FunctionalExtensionality.
From coqutil Require Import Byte Word.LittleEndianList.
From S2P Require Import Prelude Riscv Mem Core Spinlock Kalloc Vm State Csr Proc Uart Printf Console Sleeplock Virtio Bio Block Log Fs Pipe File Process Exec Sysfile.

Local Open Scope Z_scope.
Local Open Scope kern_scope.

(** kernel/syscall.h *)
Definition SYS_fork : Z := 1.
Definition SYS_exit : Z := 2.
Definition SYS_wait : Z := 3.
Definition SYS_pipe : Z := 4.
Definition SYS_read : Z := 5.
Definition SYS_kill : Z := 6.
Definition SYS_exec : Z := 7.
Definition SYS_fstat : Z := 8.
Definition SYS_chdir : Z := 9.
Definition SYS_dup : Z := 10.
Definition SYS_getpid : Z := 11.
Definition SYS_sbrk : Z := 12.
Definition SYS_sleep : Z := 13.
Definition SYS_uptime : Z := 14.
Definition SYS_open : Z := 15.
Definition SYS_write : Z := 16.
Definition SYS_mknod : Z := 17.
Definition SYS_unlink : Z := 18.
Definition SYS_link : Z := 19.
Definition SYS_mkdir : Z := 20.
Definition SYS_close : Z := 21.

Section Trap.
Context `{KernelImage} `{World} `{Symbols} `{BlockDev}.

(** ** kernel/sysproc.c *)

Definition sys_exit : M st Z := let* n := argint 0 in exit n.
Definition sys_getpid : M st Z := let* i := curproc in getp i pid.
Definition sys_fork : M st Z := fork.
Definition sys_wait : M st Z := let* p := argaddr 0 in wait p.

Definition sys_sbrk : M st Z :=
  let* n := argint 0 in
  let* i := curproc in
  let* s := getp i sz in
  let addr := i32 s in
  let* r := growproc n in
  if r <? 0 then ret (-1) else ret addr.

(** ticks - ticks0 < n compares unsigned. *)
Definition sys_sleep : M st Z :=
  let* n := argint 0 in
  lock_ TicksLock ;;;
  let* ticks0 := gets (fun s => ticks (s_core s)) in
  loop (fun _ : unit =>
    let* t := gets (fun s => ticks (s_core s)) in
    if u32 (t - ticks0) <? u32 n then
      let* i := curproc in
      let* k := getp i killed in
      if negb (k =? 0) then
        unlock_ TicksLock ;;;
        ret (inr (-1))
      else
        sleep ChTicks TicksLock ;;;
        ret (inl tt)
    else
      unlock_ TicksLock ;;;
      ret (inr 0)) tt.

Definition sys_kill : M st Z := let* pid := argint 0 in kill pid.

Definition sys_uptime : M st Z :=
  lock_ TicksLock ;;;
  let* t := gets (fun s => ticks (s_core s)) in
  unlock_ TicksLock ;;;
  ret t.

(** ** kernel/syscall.c *)

(** The table syscalls[]. *)
Definition syscalls (num : Z) : option (M st Z) :=
  if num =? SYS_fork then Some sys_fork
  else if num =? SYS_exit then Some sys_exit
  else if num =? SYS_wait then Some sys_wait
  else if num =? SYS_pipe then Some sys_pipe
  else if num =? SYS_read then Some sys_read
  else if num =? SYS_kill then Some sys_kill
  else if num =? SYS_exec then Some sys_exec
  else if num =? SYS_fstat then Some sys_fstat
  else if num =? SYS_chdir then Some sys_chdir
  else if num =? SYS_dup then Some sys_dup
  else if num =? SYS_getpid then Some sys_getpid
  else if num =? SYS_sbrk then Some sys_sbrk
  else if num =? SYS_sleep then Some sys_sleep
  else if num =? SYS_uptime then Some sys_uptime
  else if num =? SYS_open then Some sys_open
  else if num =? SYS_write then Some sys_write
  else if num =? SYS_mknod then Some sys_mknod
  else if num =? SYS_unlink then Some sys_unlink
  else if num =? SYS_link then Some sys_link
  else if num =? SYS_mkdir then Some sys_mkdir
  else if num =? SYS_close then Some sys_close
  else None.

Definition syscall : M st unit :=
  let* i := curproc in
  let* a7 := tf_get i TF_a7 in
  let num := i32 a7 in
  match syscalls num with
  | Some handler =>
      let* r := handler in
      tf_set i TF_a0 (u64 r)
  | None =>
      let* p := getp i (fun p => p) in
      printf (codes "%d %s: unknown sys call %d" ++ [nl])
        [AInt (pid p); AStr (chars (pname p)); AInt num] ;;;
      tf_set i TF_a0 (u64 (-1))
  end.

(** ** kernel/plic.c *)

Definition plicinit : M st unit :=
  WriteReg (PLIC + UART0_IRQ * 4) 1 ;;;
  WriteReg (PLIC + VIRTIO0_IRQ * 4) 1.

Definition plicinithart : M st unit :=
  let* hart := zoom cpuid in
  WriteReg (PLIC_SENABLE hart) (Z.lor (Z.shiftl 1 UART0_IRQ) (Z.shiftl 1 VIRTIO0_IRQ)) ;;;
  WriteReg (PLIC_SPRIORITY hart) 0.

Definition plic_claim : M st Z :=
  let* hart := zoom cpuid in
  let* irq := ReadReg (PLIC_SCLAIM hart) in
  ret (i32 irq).

Definition plic_complete (irq : Z) : M st unit :=
  let* hart := zoom cpuid in
  WriteReg (PLIC_SCLAIM hart) (u32 irq).

(** ** kernel/trap.c *)

Definition trapinit : M st unit := zoom (initlock TicksLock).
Definition trapinithart : M st unit := w_stvec sym_kernelvec.

Definition clockintr : M st unit :=
  lock_ TicksLock ;;;
  modify (fun s => set_s_core (set_ticks (u32 (ticks (s_core s) + 1)) (s_core s)) s) ;;;
  wakeup ChTicks ;;;
  unlock_ TicksLock.

Definition devintr : M st Z :=
  let* scause := r_scause in
  if negb (Z.land scause 0x8000000000000000 =? 0) && (Z.land scause 0xff =? 9) then
    let* irq := plic_claim in
    (if irq =? UART0_IRQ then uartintr
     else if irq =? VIRTIO0_IRQ then virtio_disk_intr
     else if negb (irq =? 0) then printf (codes "unexpected interrupt irq=%d" ++ [nl]) [AInt irq]
     else ret tt) ;;;
    when (negb (irq =? 0)) (plic_complete irq) ;;;
    ret 1
  else if scause =? 0x8000000000000001 then
    let* id := zoom cpuid in
    when (id =? 0) clockintr ;;;
    let* sip := r_sip in
    w_sip (Z.land sip (Z.lnot 2)) ;;;
    ret 2
  else ret 0.

(** The arguments of the final jump to userret: TRAPFRAME and the user
    page table, with the address jumped to. *)
Definition usertrapret : M st (Z * Z * Z) :=
  let* p := curproc in
  zoom intr_off ;;;
  w_stvec (TRAMPOLINE + (sym_uservec - trampoline)) ;;;
  let* satp := r_satp in
  tf_set p TF_kernel_satp satp ;;;
  let* ks := getp p kstack in
  tf_set p TF_kernel_sp (u64 (ks + PGSIZE)) ;;;
  tf_set p TF_kernel_trap sym_usertrap ;;;
  let* tp := r_tp in
  tf_set p TF_kernel_hartid tp ;;;
  let* x := r_sstatus in
  let x := Z.land x (Z.lnot SSTATUS_SPP) in
  let x := Z.lor x SSTATUS_SPIE in
  w_sstatus x ;;;
  let* epc := tf_get p TF_epc in
  w_sepc epc ;;;
  let* pt := getp p pagetable in
  let fn := TRAMPOLINE + (sym_userret - trampoline) in
  ret (fn, TRAPFRAME, MAKE_SATP pt).

Definition usertrap : M st (Z * Z * Z) :=
  let* ss := r_sstatus in
  if negb (Z.land ss SSTATUS_SPP =? 0) then panic "usertrap: not from user mode"
  else
    w_stvec sym_kernelvec ;;;
    let* p := curproc in
    let* sepc := r_sepc in
    tf_set p TF_epc sepc ;;;
    let* scause := r_scause in
    let* which_dev :=
      (if scause =? 8 then
         let* k := getp p killed in
         (if negb (k =? 0) then exit (-1) else ret tt) ;;;
         let* epc := tf_get p TF_epc in
         tf_set p TF_epc (u64 (epc + 4)) ;;;
         zoom intr_on ;;;
         syscall ;;;
         ret 0
       else
         let* which_dev := devintr in
         if negb (which_dev =? 0) then ret which_dev
         else
           let* scause := r_scause in
           (if (scause =? 13) || (scause =? 15) then
              let* va := r_stval in
              zoom (page_fault p va)
            else
              let* pid := getp p pid in
              printf (codes "usertrap(): unexpected scause %p pid=%d" ++ [nl]) [APtr scause; AInt pid] ;;;
              let* sepc := r_sepc in
              let* stval := r_stval in
              printf (codes "            sepc=%p stval=%p" ++ [nl]) [APtr sepc; APtr stval] ;;;
              setp p (set_killed 1)) ;;;
           ret which_dev) in
    let* k := getp p killed in
    (if negb (k =? 0) then exit (-1) else ret tt) ;;;
    when (which_dev =? 2) yield ;;;
    usertrapret.

Definition kerneltrap : M st unit :=
  let* sepc := r_sepc in
  let* sstatus := r_sstatus in
  let* scause := r_scause in
  if Z.land sstatus SSTATUS_SPP =? 0 then panic "kerneltrap: not from supervisor mode"
  else
    let* on := zoom intr_get in
    if on : bool then panic "kerneltrap: interrupts enabled"
    else
      let* which_dev := devintr in
      if which_dev =? 0 then
        printf (codes "scause %p" ++ [nl]) [APtr scause] ;;;
        let* epc := r_sepc in
        let* stval := r_stval in
        printf (codes "sepc=%p stval=%p" ++ [nl]) [APtr epc; APtr stval] ;;;
        panic "kerneltrap"
      else
        (if which_dev =? 2 then
           let* p := zoom (S := st) myproc in
           match p with
           | None => ret tt
           | Some _ =>
               let* i := curproc in
               let* st := getp i state in
               if bool_decide (st = RUNNING) then yield else ret tt
           end
         else ret tt) ;;;
        w_sepc sepc ;;;
        w_sstatus sstatus.

(** forkret() of kernel/proc.c *)
Definition forkret : M st (Z * Z * Z) :=
  let* i := curproc in
  unlock_ (ProcLock i) ;;;
  let* first := gets s_first in
  when first
    (modify (set_s_first false) ;;;
     fsinit ROOTDEV) ;;;
  usertrapret.

End Trap.
