(* ===== verification/Trampoline.v ===== *)
(** The way into the kernel and back: uservec and userret of trampoline.S
    around usertrapret() of trap.c, with the trapframe between them. *)

From stdpp Require Import base tactics list strings.
From Stdlib Require Import ZArith Lia FunctionalExtensionality.
From coqutil Require Import Byte.
From S2P Require Import Prelude Riscv Mem Core Spinlock Kalloc Vm Pt Cow Copyout Machine State Csr Proc Sched Virtio Bio Sample Trap Asm AsmOk.

Local Open Scope Z_scope.
Local Open Scope kern_scope.

(** ** The trapframe *)

(** The field of struct trapframe for a register. *)
Definition tf_reg (r : reg) : tfreg :=
  match r with
  | ra => TF_ra | sp => TF_sp | gp => TF_gp | tp => TF_tp | t0 => TF_t0 | t1 => TF_t1 | t2 => TF_t2 | s0 => TF_s0 | s1 => TF_s1
  | a0 => TF_a0 | a1 => TF_a1 | a2 => TF_a2 | a3 => TF_a3 | a4 => TF_a4 | a5 => TF_a5 | a6 => TF_a6 | a7 => TF_a7
  | s2 => TF_s2 | s3 => TF_s3 | s4 => TF_s4 | s5 => TF_s5 | s6 => TF_s6 | s7 => TF_s7 | s8 => TF_s8 | s9 => TF_s9
  | s10 => TF_s10 | s11 => TF_s11 | t3 => TF_t3 | t4 => TF_t4 | t5 => TF_t5 | t6 => TF_t6
  end.

(** The registers in the order in which the trampoline treats them. *)
Definition all_but_a0 : list reg :=
  [ra; sp; gp; tp; t0; t1; t2; s0; s1; a1; a2; a3; a4; a5; a6; a7; s2; s3; s4; s5; s6; s7; s8; s9; s10; s11; t3; t4; t5; t6].
Definition in_frame (r : reg) : reg * Z := (r, tf_off (tf_reg r)).

Lemma uservec_code :
  uservec = CSRRW a0 sscratch a0 :: saves (in_frame <$> all_but_a0) a0 ++ CSRR t0 sscratch :: saves [(t0, tf_off TF_a0)] a0 ++
    loads [(sp, tf_off TF_kernel_sp); (tp, tf_off TF_kernel_hartid); (t0, tf_off TF_kernel_trap); (t1, tf_off TF_kernel_satp)] a0 ++
    [CSRW satp t1; SFENCE_VMA; JR t0].
Proof. vm_compute. reflexivity. Qed.

Lemma userret_code :
  userret = CSRW satp a1 :: SFENCE_VMA :: loads [(t0, tf_off TF_a0)] a0 ++ CSRW sscratch t0 ::
    loads (in_frame <$> all_but_a0) a0 ++ [CSRRW a0 sscratch a0; SRET].
Proof. vm_compute. reflexivity. Qed.

Lemma all_regs r : r <> a0 -> r ∈ all_but_a0.
Proof.
  assert (bool_decide (r <> a0) = bool_decide (r ∈ all_but_a0)) as E by (destruct r; vm_compute; reflexivity).
  rewrite <- (bool_decide_eq_true (r <> a0)), <- (bool_decide_eq_true (r ∈ _)). by rewrite E.
Qed.

Lemma frame_fits : Forall (fits PGSIZE) (in_frame <$> all_but_a0).
Proof. apply fitsb_ok. vm_compute. reflexivity. Qed.

Lemma frame_nodup : NoDup (in_frame <$> all_but_a0).*2.
Proof. apply (bool_decide_unpack _). vm_compute. exact I. Qed.

Lemma elem_in_frame r : r <> a0 -> (r, tf_off (tf_reg r)) ∈ in_frame <$> all_but_a0.
Proof. intros Hr. change (r, tf_off (tf_reg r)) with (in_frame r). by apply list_elem_of_fmap_2, all_regs. Qed.

Lemma tf_off_bound f : 0 <= tf_off f /\ tf_off f + 8 <= 288 /\ tf_off f mod 8 = 0.
Proof. destruct f; by vm_compute. Qed.

Definition kernel_field (f : tfreg) : bool :=
  bool_decide (f ∈ [TF_kernel_satp; TF_kernel_sp; TF_kernel_trap; TF_epc; TF_kernel_hartid]).

Lemma kernel_field_off f :
  kernel_field f = true -> (tf_off f ∉ (in_frame <$> all_but_a0).*2) /\ (tf_off f ∉ [tf_off TF_a0]).
Proof.
  intros Hf. assert (bool_decide ((tf_off f ∉ (in_frame <$> all_but_a0).*2) /\ (tf_off f ∉ [tf_off TF_a0])) = true); [|by eapply bool_decide_eq_true].
  revert Hf. destruct f; by vm_compute.
Qed.

(** ** The user's page table *)

Section Trampoline.
Context `{KernelImage}.

(** The page table at [root] maps TRAPFRAME to the page [tf]. *)
Record user_vm (m : mem) (root tf : Z) : Prop := {
  uv_tables : forall q, is_table m root q -> page_ok q;
  uv_page : page_ok tf;
  uv_data : ~ is_table m root tf;
  uv_map : pte_of m root TRAPFRAME = mkpte tf (Z.lor PTE_R PTE_W);
}.

Lemma user_vm_same m m' root tf :
  (forall y, ~ (tf <= y < tf + PGSIZE) -> m' y = m y) -> user_vm m root tf -> user_vm m' root tf.
Proof.
  intros E [Ht Hp Hd Hm].
  assert (Hs : forall q, is_table m root q -> same_on m m' q PGSIZE).
  { intros q Hq y Hy. apply E. intros Hy'. assert (Hne : q <> tf) by by intros ->.
    destruct (page_ok_disjoint q tf (Ht q Hq) Hp Hne); lia. }
  assert (Hi : forall q, is_table m' root q <-> is_table m root q) by (apply is_table_same; by apply tab_same).
  split; [intros q Hq; by apply Ht, Hi|done|by rewrite Hi|]. by rewrite (pte_of_same m m').
Qed.

Lemma satp_root_make root : page_ok root -> satp_root (MAKE_SATP root) = root.
Proof.
  intros Hr. pose proof (page_ok_range root Hr) as Hb. destruct Hr as [Hm _]. unfold satp_root, MAKE_SATP, SATP_SV39.
  rewrite Z.land_lor_distr_l. change (Z.land (Z.shiftl 8 60) (Z.ones 44)) with 0. rewrite Z.lor_0_l.
  unfold PHYSTOP, KERNBASE, PGSIZE in *. rewrite Z.land_ones, Z.shiftr_div_pow2, Z.shiftl_mul_pow2 by done.
  change (2 ^ 12) with 4096. pose proof (Z.div_mod root 4096). rewrite Z.mod_small by lia. lia.
Qed.

Lemma make_satp_nonzero root : MAKE_SATP root <> 0.
Proof.
  intros E. apply (f_equal (fun z => Z.testbit z 63)) in E. unfold MAKE_SATP in E. rewrite Z.lor_spec in E.
  by change (Z.testbit SATP_SV39 63) with true in E.
Qed.

Lemma trapframe_window m root tf perm :
  user_vm m root tf -> perm = PTE_R \/ perm = PTE_W ->
  window (fun y => tf <= y < tf + PGSIZE) SupervisorMode (MAKE_SATP root) perm m TRAPFRAME PGSIZE tf.
Proof.
  intros Hv Hperm m' E off H0 Hn Hm. assert (Hv' : user_vm m' root tf) by by eapply user_vm_same. clear Hv E m.
  assert (Hr : page_ok root) by (apply (uv_tables _ _ _ Hv'), is_table_root).
  destruct Hv' as [_ Hp _ Hmap]. pose proof (page_ok_range tf Hp) as Hb. destruct Hp as [Hal _].
  assert (Ht : 0 <= TRAPFRAME + off < 2 ^ 38) by (unfold TRAPFRAME, TRAMPOLINE; rewrite MAXVA_eq; unfold PGSIZE in *; lia).
  assert (Hoff : (TRAPFRAME + off) mod PGSIZE = off) by (rewrite <- (Z.mod_small off PGSIZE) at 2 by lia;
    rewrite Zplus_mod; change (TRAPFRAME mod PGSIZE) with 0; by rewrite Z.add_0_l, Zmod_mod).
  rewrite u64_small by lia. unfold xlate.
  assert (H8 : (TRAPFRAME + off) mod 8 = 0) by (rewrite Zplus_mod, Hm; reflexivity). rewrite H8. cbn [Z.eqb negb].
  rewrite (proj2 (Z.eqb_neq _ 0) (make_satp_nonzero root)), satp_root_make by done.
  assert (Ep : pte_of m' root (TRAPFRAME + off) = mkpte tf (Z.lor PTE_R PTE_W)).
  { rewrite <- pte_of_page. assert (PGROUNDDOWN (TRAPFRAME + off) = TRAPFRAME) as ->; [|done].
    apply PGROUNDDOWN_iff; [done|]. lia. }
  rewrite Ep, Hoff, mkpte_V, mkpte_pa by (done || unfold PHYSTOP, KERNBASE in *; lia).
  assert (canonical (TRAPFRAME + off) = true) as -> by (unfold canonical; lia).
  rewrite (has_mkpte _ _ 4 ltac:(done) : has (mkpte tf _) PTE_U = _).
  destruct Hperm as [-> | ->].
  - by rewrite (has_mkpte _ _ 1 ltac:(done) : has (mkpte tf _) PTE_R = _).
  - by rewrite (has_mkpte _ _ 2 ltac:(done) : has (mkpte tf _) PTE_W = _).
Qed.

Section Vec.
Context (symbol : string -> Z) (cfun : string -> hart -> option hart).
#[local] Abbreviation run := (run symbol cfun SupervisorMode).

(** The registers a trapframe holds. *)
Definition frame_regs (m : mem) (tf : Z) : reg -> Z := fun r => load64 m (tf + tf_off (tf_reg r)).

Lemma frame_regs_ext m m' tf : same_on m m' tf PGSIZE -> frame_regs m' tf = frame_regs m tf.
Proof.
  intros E. extensionality r. apply load64_ext. pose proof (tf_off_bound (tf_reg r)). eapply same_on_sub; [exact E| |]; unfold PGSIZE; lia.
Qed.

Lemma run_csrrw rd c rs code h : run (CSRRW rd c rs :: code) h = run code (set_xr rd (cs h c) (set_cs c (xr h rs) h)).
Proof. done. Qed.

Lemma uservec_eq h root tf :
  regs_ok (xr h) -> cs h satp = MAKE_SATP root -> cs h sscratch = TRAPFRAME -> user_vm (hm h) root tf ->
  exists h1, run uservec h = Jumps (load64 (hm h) (tf + tf_off TF_kernel_trap)) h1 /\
    xr h1 sp = load64 (hm h) (tf + tf_off TF_kernel_sp) /\ xr h1 tp = load64 (hm h) (tf + tf_off TF_kernel_hartid) /\
    cs h1 satp = load64 (hm h) (tf + tf_off TF_kernel_satp) /\ frame_regs (hm h1) tf = xr h /\
    (forall f, kernel_field f = true -> load64 (hm h1) (tf + tf_off f) = load64 (hm h) (tf + tf_off f)) /\
    (forall y, ~ (tf <= y < tf + PGSIZE) -> hm h1 y = hm h y).
Proof.
  intros Hr Hsatp Hss Hv. set (R := fun y => tf <= y < tf + PGSIZE).
  set (x1 := fupd (xr h) a0 TRAPFRAME). set (m1 := save_all tf x1 (in_frame <$> all_but_a0) (hm h)).
  set (m2 := store64 m1 (tf + tf_off TF_a0) (xr h a0)). destruct (tf_off_bound TF_a0) as (B1 & B2 & B3).
  assert (M2 : forall y, ~ R y -> m2 y = hm h y).
  { intros y Hy. unfold m2. rewrite store64_out by (unfold R, PGSIZE in Hy; lia). by apply (save_all_out _ PGSIZE); [apply frame_fits|]. }
  assert (Ho : forall f, tf_off f <> tf_off TF_a0 -> load64 m2 (tf + tf_off f) = load64 m1 (tf + tf_off f)).
  { intros f Hf. destruct (tf_off_bound f) as (_ & _ & B4). apply load64_store64_other. apply Z.div_exact in B3, B4; lia. }
  assert (Hk : forall f, kernel_field f = true -> load64 m2 (tf + tf_off f) = load64 (hm h) (tf + tf_off f)).
  { intros f [Hf1 Hf2]%kernel_field_off. destruct (tf_off_bound f) as (_ & _ & Hf3). rewrite Ho by by rewrite list_elem_of_singleton in Hf2.
    apply (load_save_other _ PGSIZE); [apply frame_fits|done|done]. }
  assert (Hfr : frame_regs m2 tf = xr h).
  { extensionality r. unfold frame_regs. destruct (decide (r = a0)) as [->|Hra].
    - unfold m2. rewrite load64_store64_same. by apply u64_small.
    - rewrite Ho by (clear -Hra; destruct r; by vm_compute). unfold m1.
      rewrite (load_save _ PGSIZE) with (r := r); [|apply frame_fits|apply frame_nodup|by apply elem_in_frame].
      unfold x1. rewrite fupd_ne by done. by apply u64_small. }
  set (kl := [(sp, tf_off TF_kernel_sp); (tp, tf_off TF_kernel_hartid); (t0, tf_off TF_kernel_trap); (t1, tf_off TF_kernel_satp)]).
  set (h1 := mkhart x1 (fupd (cs h) sscratch (xr h a0)) (hm h)).
  assert (Hna : a0 ∉ kl.*1) by (apply (bool_decide_unpack _); by vm_compute).
  assert (E := run_save_swap symbol cfun SupervisorMode R (in_frame <$> all_but_a0) (tf_off TF_a0) kl [CSRW satp t1; SFENCE_VMA; JR t0] h1 PGSIZE tf).
  specialize (E ltac:(intros perm Hp; cbn [cs hm xr h1]; unfold x1; rewrite fupd_eq, fupd_ne, Hsatp by done; by apply trapframe_window) ltac:(done) frame_fits
    ltac:(by split; [|split; [unfold PGSIZE; simpl; lia|]]) ltac:(by apply fitsb_ok) Hna).
  change (hm h1) with (hm h) in E. change (xr h1) with x1 in E. change (cs h1 sscratch) with (fupd (cs h) sscratch (xr h a0) sscratch) in E.
  rewrite fupd_eq in E. fold m1 in E. fold m2 in E. cbv zeta in E.
  assert (E' : run uservec h = run [CSRW satp t1; SFENCE_VMA; JR t0] (mkhart (load_all tf m2 kl (fupd x1 t0 (xr h a0))) (cs h1) m2)).
  { rewrite uservec_code, run_csrrw, Hss. exact E. }
  assert (El : load_all tf m2 kl (fupd x1 t0 (xr h a0)) = fun r => if decide (r ∈ kl.*1) then load64 (hm h)
    (tf + tf_off (match r with sp => TF_kernel_sp | tp => TF_kernel_hartid | t0 => TF_kernel_trap | _ => TF_kernel_satp end))
    else fupd x1 t0 (xr h a0) r).
  { apply load_all_eq. intros r o Hin. repeat (apply elem_of_cons in Hin as [[= -> ->]|Hin]; [by apply Hk|]). by apply not_elem_of_nil in Hin. }
  rewrite El in E'. clear El E. clearbody m2. eexists. split; [exact E'|]. cbn [xr set_cs cs hm].
  split_and!; [done|done|by rewrite fupd_eq|exact Hfr|exact Hk|exact M2].
Qed.

Lemma userret_eq h root tf :
  xr h a0 = TRAPFRAME -> xr h a1 = MAKE_SATP root -> user_vm (hm h) root tf ->
  run userret h = Srets (mkhart (frame_regs (hm h) tf) (fupd (fupd (cs h) satp (MAKE_SATP root)) sscratch TRAPFRAME) (hm h)).
Proof.
  intros Ha0 Ha1 Hv. destruct (tf_off_bound TF_a0) as (? & ? & ?). set (c1 := fupd (cs h) satp (MAKE_SATP root)). set (h1 := mkhart (xr h) c1 (hm h)).
  assert (Hna : a0 ∉ (in_frame <$> all_but_a0).*1) by (apply (bool_decide_unpack _); by vm_compute).
  assert (E := run_load_swap symbol cfun SupervisorMode (fun y => tf <= y < tf + PGSIZE) (in_frame <$> all_but_a0) (tf_off TF_a0)
    [CSRRW a0 sscratch a0; SRET] h1 PGSIZE tf).
  specialize (E ltac:(cbn [cs hm xr h1]; unfold c1; rewrite fupd_eq, Ha0; apply trapframe_window; [done|by left]) frame_fits
    ltac:(by split; [|split; [unfold PGSIZE; simpl; lia|]]) Hna).
  cbv zeta in E. rewrite (load_all_eq _ _ _ _ (frame_regs (hm h) tf)) in E.
  2: { intros r o (r' & [= -> ->] & _)%list_elem_of_fmap. done. }
  rewrite run_csrrw in E. cbn [cs hm xr h1] in E. rewrite userret_code.
  assert (E0 : run (CSRW satp a1 :: SFENCE_VMA :: loads [(t0, tf_off TF_a0)] a0 ++ CSRW sscratch t0 ::
    loads (in_frame <$> all_but_a0) a0 ++ [CSRRW a0 sscratch a0; SRET]) h =
    run (loads [(t0, tf_off TF_a0)] a0 ++ CSRW sscratch t0 :: loads (in_frame <$> all_but_a0) a0 ++ [CSRRW a0 sscratch a0; SRET]) h1).
  { cbn [Asm.run]. by rewrite Ha1. }
  rewrite E0, E. cbn [Asm.run]. f_equal. unfold set_xr, set_cs. cbn [xr cs hm]. f_equal.
  - extensionality r. destruct (decide (r = a0)) as [->|Hr]; [by rewrite !fupd_eq|]. rewrite fupd_ne by done.
    rewrite decide_True; [done|]. by apply (list_elem_of_fmap_2 fst _ _ (elem_in_frame r Hr)).
  - rewrite decide_False by done. rewrite (fupd_ne _ t0 _ a0), Ha0 by done. apply fupd_fupd.
Qed.
End Vec.

(** ** Through the kernel *)

Section Return.
Context `{World} `{Symbols}.

(** The hart runs process [i] of [s] in user mode. *)
Record in_user (h : hart) (i : nat) (s : st) : Prop := {
  iu_regs : regs_ok (xr h);
  iu_mem : hm h = s_mem s;
  iu_satp : cs h satp = MAKE_SATP (pagetable (procs (s_core s) i));
  iu_scratch : cs h sscratch = TRAPFRAME;
  iu_vm : user_vm (s_mem s) (pagetable (procs (s_core s) i)) (trapframe (procs (s_core s) i));
}.

(** usertrapret() changes the kernel's memory and processor, and the control
    registers; each of its steps, on a state with these parts. *)
Section Steps.
Context (s : st).
Definition parts (k : kst) (c : csrs) : st := set_s_csr c (set_s_k k s).

Lemma parts_id : parts (s_k s) (s_csr s) = s.
Proof. unfold parts. by destruct s. Qed.
Lemma parts_csrw f k c : csrw f (parts k c) = Ok tt (parts k (f c)).
Proof. done. Qed.
Lemma parts_csrr f k c : csrr f (parts k c) = Ok (f c) (parts k c).
Proof. done. Qed.
Lemma parts_off k c :
  zoom intr_off (parts k c) = Ok tt (parts (set_core (set_ccpu (set_sie false (ccpu (k_core k))) (k_core k)) k) c).
Proof. done. Qed.
Lemma parts_set i f v k c :
  tf_set i f v (parts k c) = Ok tt (parts (set_mem (store64 (k_mem k) (trapframe (procs (k_core k) i) + tf_off f) v) k) c).
Proof. done. Qed.
Lemma parts_get i f k c : tf_get i f (parts k c) = Ok (load64 (k_mem k) (trapframe (procs (k_core k) i) + tf_off f)) (parts k c).
Proof. done. Qed.
Lemma parts_getp {A} i (f : proc -> A) k c : getp i f (parts k c) = Ok (f (procs (k_core k) i)) (parts k c).
Proof. done. Qed.
Lemma parts_tp k c : r_tp (parts k c) = Ok (hartid (k_core k)) (parts k c).
Proof. unfold parts. by destruct k. Qed.
Lemma parts_r_sstatus k c :
  r_sstatus (parts k c) =
  Ok (Z.lor (Z.land (c_sstatus c) (Z.lnot SSTATUS_SIE)) (if sie (ccpu (k_core k)) then SSTATUS_SIE else 0)) (parts k c).
Proof. unfold parts. by destruct k. Qed.
Lemma parts_w_sstatus x k c :
  w_sstatus x (parts k c) =
  Ok tt (parts (set_core (set_ccpu (set_sie (has x SSTATUS_SIE) (ccpu (k_core k))) (k_core k)) k) (set_c_sstatus x c)).
Proof. done. Qed.
End Steps.

(** The value usertrapret() writes to sstatus: user mode next, interrupts off
    until then. *)
Definition user_sstatus (x : Z) : Z :=
  Z.lor (Z.land (Z.lor (Z.land x (Z.lnot SSTATUS_SIE)) 0) (Z.lnot SSTATUS_SPP)) SSTATUS_SPIE.

Lemma user_sstatus_bits x : has (user_sstatus x) SSTATUS_SIE = false /\ has (user_sstatus x) SSTATUS_SPP = false.
Proof.
  unfold user_sstatus. split.
  - unfold SSTATUS_SIE at 2. rewrite has_bit by done. rewrite Z.lor_0_r, Z.lor_spec, !Z.land_spec, !Z.lnot_spec by done.
    change (Z.testbit SSTATUS_SIE 1) with true. by rewrite andb_false_r.
  - unfold SSTATUS_SPP at 2. rewrite has_bit by done. rewrite Z.lor_0_r, Z.lor_spec, !Z.land_spec, !Z.lnot_spec by done.
    change (Z.testbit SSTATUS_SPP 8) with true. by rewrite andb_false_r.
Qed.

Ltac run_step L := erewrite bind_run by apply L.

Lemma usertrapret_eq i s :
  calm (s_core s) -> cproc (ccpu (s_core s)) = Some i ->
  let p := procs (s_core s) i in
  let tf := trapframe p in
  let m := store64 (s_mem s) (tf + tf_off TF_kernel_satp) (c_satp (s_csr s)) in
  let m := store64 m (tf + tf_off TF_kernel_sp) (u64 (kstack p + PGSIZE)) in
  let m := store64 m (tf + tf_off TF_kernel_trap) sym_usertrap in
  let m := store64 m (tf + tf_off TF_kernel_hartid) (hartid (s_core s)) in
  exists s', usertrapret s = Ok (TRAMPOLINE + (sym_userret - trampoline), TRAPFRAME, MAKE_SATP (pagetable p)) s' /\
    s_mem s' = m /\ procs (s_core s') = procs (s_core s) /\ sie (ccpu (s_core s')) = false /\
    c_sepc (s_csr s') = load64 m (tf + tf_off TF_epc) /\ has (c_sstatus (s_csr s')) SSTATUS_SPP = false.
Proof.
  intros Hc Hi p tf m1 m2 m3 m4. destruct (user_sstatus_bits (c_sstatus (s_csr s))) as [B1 B2].
  unfold usertrapret. rewrite (bind_run _ _ _ _ _ (curproc_eq i s Hc Hi)).
  match goal with |- context [?f s = Ok _ _] => replace (f s) with (f (parts s (s_k s) (s_csr s))) by by rewrite parts_id end.
  run_step parts_off. unfold w_stvec. run_step parts_csrw. unfold r_satp. run_step parts_csrr. run_step parts_set.
  erewrite bind_run by apply (parts_getp s i kstack). run_step parts_set. run_step parts_set. run_step parts_tp. run_step parts_set.
  run_step parts_r_sstatus. cbv zeta. run_step parts_w_sstatus. run_step parts_get. unfold w_sepc. run_step parts_csrw.
  erewrite bind_run by apply (parts_getp s i pagetable).
  eexists. split; [reflexivity|]. split; [reflexivity|]. split; [reflexivity|]. split; [exact B1|]. split; [reflexivity|exact B2].
Qed.

Lemma tf_reg_off r : 40 <= tf_off (tf_reg r).
Proof. destruct r; by vm_compute. Qed.

(** C11: A trap is transparent to the user program.  When process [i] traps,
    uservec saves all its registers in the trapframe and enters the kernel at
    kernel_trap, on the kernel stack and page table the trapframe names.  When
    the kernel later runs usertrapret() for the process, the final userret
    returns to user mode at the saved program counter with exactly the
    registers the trapframe then holds, so those the kernel has not changed
    have the values they had; and everything the next trap relies on is in
    place again. *)
Theorem trap_roundtrip symbol cfun h i s :
  in_user h i s ->
  let root := pagetable (procs (s_core s) i) in
  let tf := trapframe (procs (s_core s) i) in
  exists h1, run symbol cfun SupervisorMode uservec h = Jumps (load64 (s_mem s) (tf + tf_off TF_kernel_trap)) h1 /\
    xr h1 sp = load64 (s_mem s) (tf + tf_off TF_kernel_sp) /\ xr h1 tp = load64 (s_mem s) (tf + tf_off TF_kernel_hartid) /\
    cs h1 satp = load64 (s_mem s) (tf + tf_off TF_kernel_satp) /\ frame_regs (hm h1) tf = xr h /\
    (forall y, ~ (tf <= y < tf + PGSIZE) -> hm h1 y = s_mem s y) /\
    forall s2, calm (s_core s2) -> cproc (ccpu (s_core s2)) = Some i ->
      pagetable (procs (s_core s2) i) = root -> trapframe (procs (s_core s2) i) = tf -> user_vm (s_mem s2) root tf ->
      exists s3, usertrapret s2 = Ok (TRAMPOLINE + (sym_userret - trampoline), TRAPFRAME, MAKE_SATP root) s3 /\
        c_sepc (s_csr s3) = load64 (s_mem s2) (tf + tf_off TF_epc) /\ has (c_sstatus (s_csr s3)) SSTATUS_SPP = false /\
        load64 (s_mem s3) (tf + tf_off TF_kernel_trap) = u64 sym_usertrap /\
        load64 (s_mem s3) (tf + tf_off TF_kernel_sp) = u64 (kstack (procs (s_core s2) i) + PGSIZE) /\
        forall h2, xr h2 a0 = TRAPFRAME -> xr h2 a1 = MAKE_SATP root -> hm h2 = s_mem s3 ->
          exists h3, run symbol cfun SupervisorMode userret h2 = Srets h3 /\
            xr h3 = frame_regs (s_mem s2) tf /\ in_user h3 i s3.
Proof.
  intros [Hr Hm Hsatp Hss Hv] root tf. fold root in Hsatp, Hv. fold tf in Hv. rewrite <- Hm in Hv |- *.
  destruct (uservec_eq symbol cfun h root tf Hr Hsatp Hss Hv) as (h1 & E1 & Esp & Etp & Esatp & Efr & _ & Emem).
  exists h1. split_and!; try done. intros s2 Hc2 Hi2 Hpt2 Htf2 Hv2.
  destruct (usertrapret_eq i s2 Hc2 Hi2) as (s3 & E & Em & Eps & _ & Eepc & Espp).
  rewrite Hpt2 in E. rewrite Htf2 in Em, Eepc.
  change (tf_off TF_kernel_satp) with 0 in *. change (tf_off TF_kernel_sp) with 8 in *. change (tf_off TF_kernel_trap) with 16 in *.
  change (tf_off TF_kernel_hartid) with 32 in *. change (tf_off TF_epc) with 24 in *.
  assert (Hv3 : user_vm (s_mem s3) root tf).
  { eapply user_vm_same; [|exact Hv2]. intros y Hy. unfold PGSIZE in Hy. rewrite Em. by rewrite !store64_out by lia. }
  assert (Hfr : frame_regs (s_mem s3) tf = frame_regs (s_mem s2) tf).
  { extensionality r. unfold frame_regs. pose proof (tf_reg_off r). rewrite Em. by rewrite !load64_store64_other by lia. }
  exists s3. split; [exact E|]. split; [rewrite Eepc; by rewrite !load64_store64_other by lia|]. split; [done|].
  split; [rewrite Em; rewrite load64_store64_other by lia; apply load64_store64_same|].
  split; [rewrite Em; rewrite !load64_store64_other by lia; rewrite load64_store64_same; apply u64_small, u64_range|].
  intros h2 Ha0 Ha1 Hm2. rewrite <- Hm2 in Hv3. eexists. split; [by apply (userret_eq symbol cfun h2 root tf)|]. cbn [xr].
  rewrite Hm2, Hfr. split; [done|]. split; cbn [xr hm cs].
  - intros r. apply load64_range.
  - done.
  - rewrite Eps, Hpt2, fupd_ne by done. by rewrite fupd_eq.
  - by rewrite fupd_eq.
  - rewrite Eps, Hpt2, Htf2, <- Hm2. done.
Qed.
End Return.
End Trampoline.

(** ** Example *)

Section Witness.
#[local] Existing Instances image8 world0 symbols0.

(** Pages 0 to 2 are a page table that maps TRAPFRAME to page 3. *)
Definition memt : mem :=
  store64 (store64 (store64 (fun _ => Byte.x00)
    (pg 0 + 8 * 255) (Z.lor (PA2PTE (pg 1)) PTE_V)) (pg 1 + 8 * 511) (Z.lor (PA2PTE (pg 2)) PTE_V))
    (pg 2 + 8 * 510) (mkpte (pg 3) (Z.lor PTE_R PTE_W)).

Lemma nextt k i : 0 <= k < 2 -> 0 <= i < 512 ->
  next memt (pg k) i = if i =? (if k =? 0 then 255 else 511) then Some (pg (k + 1)) else None.
Proof.
  intros Hk Hi. unfold next, memt. rewrite load64_store64_other by (unfold pg, PGSIZE; lia).
  assert (k = 0 \/ k = 1) as [-> | ->] by lia; cbn [Z.eqb].
  - rewrite load64_store64_other by (unfold pg, PGSIZE; lia). destruct (Z.eqb_spec i 255) as [->|Hne]; [reflexivity|].
    rewrite load64_store64_other by lia. reflexivity.
  - destruct (Z.eqb_spec i 511) as [->|Hne]; [reflexivity|].
    rewrite !load64_store64_other by (unfold pg, PGSIZE; lia). reflexivity.
Qed.

Lemma tablest q : is_table memt (pg 0) q -> exists k, 0 <= k < 3 /\ q = pg k.
Proof.
  intros (p & [Hp Hl] & E). destruct p as [|i [|j [|]]]; [| | |simpl in Hl; lia].
  - exists 0. injection E as <-. done.
  - rewrite Forall_singleton in Hp. cbn [tab] in E. rewrite nextt in E by lia. destruct (_ =? _); [|done]. exists 1. injection E as <-. done.
  - apply Forall_cons in Hp as [Hi Hj]. rewrite Forall_singleton in Hj. cbn [tab] in E. rewrite nextt in E by lia.
    destruct (_ =? _); [|done]. change (pg (0 + 1)) with (pg 1) in E. rewrite nextt in E by lia. destruct (_ =? _); [|done].
    exists 2. injection E as <-. done.
Qed.

Lemma vmt : user_vm memt (pg 0) (pg 3).
Proof.
  split.
  - intros q (k & Hk & ->)%tablest. apply pg_ok. lia.
  - by apply pg_ok.
  - intros (k & Hk & E%pg_inj)%tablest. lia.
  - unfold pte_of, slot. change (PX 2 TRAPFRAME) with 255. change (PX 1 TRAPFRAME) with 511. change (PX 0 TRAPFRAME) with 510.
    cbn [tab]. rewrite nextt by lia. cbn [Z.eqb Pos.eqb]. change (pg (0 + 1)) with (pg 1). rewrite nextt by lia.
    cbn [Z.eqb Pos.eqb]. unfold memt. change (pg (1 + 1)) with (pg 2). rewrite load64_store64_same. reflexivity.
Qed.

Definition trap_state : st :=
  set_s_k (mkkst (upd_proc 0 (set_pagetable (pg 0)) (upd_proc 0 (set_trapframe (pg 3)) core1)) memt 0 (fun _ => 0) 0) (st0 (fun _ => [])).
Definition trap_hart : hart :=
  mkhart (fun _ => 9) (fupd (fupd (fun _ => 0) satp (MAKE_SATP (pg 0))) sscratch TRAPFRAME) memt.

(** A program whose registers are all 9 traps and is resumed. *)
Lemma trap_roundtrip_witness :
  exists h1 s3 h2 h3, run (fun _ => 0) cfun0 SupervisorMode uservec trap_hart = Jumps 0 h1 /\
    usertrapret (set_s_mem (hm h1) trap_state) = Ok (TRAMPOLINE + (sym_userret - trampoline), TRAPFRAME, MAKE_SATP (pg 0)) s3 /\
    run (fun _ => 0) cfun0 SupervisorMode userret h2 = Srets h3 /\ xr h3 = fun _ => 9.
Proof.
  destruct (trap_roundtrip (fun _ => 0) cfun0 trap_hart 0 trap_state) as (h1 & E1 & _ & _ & _ & Hf & Hm & K).
  - split; [by intros r|done|done|done|exact vmt].
  - destruct (K (set_s_mem (hm h1) trap_state)) as (s3 & E2 & _ & _ & _ & _ & K2).
    + apply quiet_core1.
    + done.
    + done.
    + done.
    + eapply user_vm_same; [exact Hm|exact vmt].
    + destruct (K2 (mkhart (fupd (fupd (fun _ => 0) a0 TRAPFRAME) a1 (MAKE_SATP (pg 0))) (fun _ => 0) (s_mem s3))) as (h3 & E3 & X3 & _);
        [done|done|done|].
      eexists h1, s3, _, h3. split; [exact E1|]. split; [exact E2|]. split; [exact E3|]. rewrite X3. exact Hf.
Defined.
End Witness.
