(* ===== verification/Initcode.v ===== *)
(** The first user program: the machine code in initcode[] of kernel/proc.c,
    which is what user/initcode.S was assembled to.

    Only the four kinds of instruction it uses are decoded; anything else
    stops the program. *)

From stdpp Require Import base tactics list strings.
From Stdlib Require Import ZArith Lia.
From coqutil Require Import Byte Word.LittleEndianList.
From S2P Require Import Prelude Riscv Mem Core Virtio Bio Process Trap.

Local Open Scope Z_scope.

(** ** Decoding *)

Inductive uinstr :=
| AUIPC (rd imm : Z)
| ADDI (rd rs imm : Z)
| ECALL
| JAL (rd off : Z).

(** Bits [lo], ..., [lo + n - 1] of a word, and sign extension from [n] bits. *)
Definition field (w lo n : Z) : Z := Z.land (Z.shiftr w lo) (Z.ones n).
Definition sext (n z : Z) : Z := if Z.testbit z (n - 1) then z - 2 ^ n else z.

Definition decode (w : Z) : option uinstr :=
  let rd := field w 7 5 in
  match field w 0 7 with
  | 0x17 => Some (AUIPC rd (sext 32 (Z.shiftl (field w 12 20) 12)))
  | 0x13 => if field w 12 3 =? 0 then Some (ADDI rd (field w 15 5) (sext 12 (field w 20 12))) else None
  | 0x6f =>
      let imm := Z.shiftl (field w 31 1) 20 + Z.shiftl (field w 12 8) 12 + Z.shiftl (field w 20 1) 11 + Z.shiftl (field w 21 10) 1 in
      Some (JAL rd (sext 21 imm))
  | 0x73 => if w =? 0x73 then Some ECALL else None
  | _ => None
  end.

(** ** Running *)

Record ucpu := mkucpu { upc : Z; ux : Z -> Z }.

Definition setx (r v : Z) (x : Z -> Z) : Z -> Z := if r =? 0 then x else fupd x r v.

Section Exec.
Context (um : mem).  (** the memory of the process, by virtual address *)

Definition fetch (pc : Z) : option uinstr := decode (le_combine (rd um pc 4)).

(** One instruction; None if it is not one of the four or is the ecall. *)
Definition ustep (c : ucpu) : option ucpu :=
  match fetch (upc c) with
  | Some (AUIPC rd imm) => Some (mkucpu (upc c + 4) (setx rd (u64 (upc c + imm)) (ux c)))
  | Some (ADDI rd rs imm) => Some (mkucpu (upc c + 4) (setx rd (u64 ((if rs =? 0 then 0 else ux c rs) + imm)) (ux c)))
  | Some (JAL rd off) => Some (mkucpu (u64 (upc c + off)) (setx rd (upc c + 4) (ux c)))
  | _ => None
  end.

Inductive usteps : ucpu -> ucpu -> Prop :=
| usteps_refl c : usteps c c
| usteps_step c c1 c2 : ustep c = Some c1 -> usteps c1 c2 -> usteps c c2.

(** The program makes a system call. *)
Definition at_ecall (c : ucpu) : Prop := fetch (upc c) = Some ECALL.
End Exec.

(** Register numbers of the calling convention. *)
Definition x_a0 : Z := 10.
Definition x_a1 : Z := 11.
Definition x_a7 : Z := 17.

(** The memory of the first process, as userinit() sets it up: one page that
    starts with initcode[], the rest zero. *)
Definition first_page (um : mem) : Prop :=
  forall j, 0 <= j < PGSIZE -> um j = nth (Z.to_nat j) initcode Byte.x00.

Lemma first_rd um a n : first_page um -> 0 <= a -> a + Z.of_nat n <= PGSIZE ->
  rd um a n = List.map (fun k => nth (Z.to_nat a + k) initcode Byte.x00) (seq 0 n).
Proof.
  intros Hf Ha Hn. apply map_ext_in. intros k Hk%in_seq. rewrite Hf by lia. f_equal. lia.
Qed.

Lemma first_fetch um a :
  first_page um -> 0 <= a -> a + 4 <= PGSIZE ->
  fetch um a = decode (le_combine (List.map (fun k => nth (Z.to_nat a + k) initcode Byte.x00) (seq 0 4))).
Proof. intros Hf Ha Hn. unfold fetch. by rewrite first_rd by (done || lia). Qed.

Ltac fetches Hf := unfold ustep; cbn [upc ux]; rewrite (first_fetch _ _ Hf) by done; reflexivity.

(** C38: initcode[] does what it is there for.  Started at address 0, with any
    registers, it makes the system call exec("/init", argv), where argv is at
    address 43 and holds the address of the string and a null pointer.  If
    exec() returns, it calls exit(), and again whenever exit() returns. *)
Theorem initcode_execs um x :
  first_page um ->
  (exists c, usteps um (mkucpu 0 x) c /\ at_ecall um c /\ ux c x_a7 = SYS_exec /\
    ux c x_a0 = 36 /\ rd um 36 6 = bytes_of "/init" ++ [Byte.x00] /\
    ux c x_a1 = 43 /\ load64 um 43 = 36 /\ load64 um 51 = 0 /\
    forall y, exists c2, usteps um (mkucpu (upc c + 4) y) c2 /\ at_ecall um c2 /\ ux c2 x_a7 = SYS_exit /\
      forall z, exists c3, usteps um (mkucpu (upc c2 + 4) z) c3 /\ at_ecall um c3 /\ ux c3 x_a7 = SYS_exit).
Proof.
  intros Hf. eexists. split.
  { eapply usteps_step; [fetches Hf|]. eapply usteps_step; [fetches Hf|]. eapply usteps_step; [fetches Hf|].
    eapply usteps_step; [fetches Hf|]. eapply usteps_step; [fetches Hf|]. apply usteps_refl. }
  split; [unfold at_ecall; cbn [upc]; rewrite (first_fetch _ _ Hf) by done; reflexivity|].
  do 2 (split; [reflexivity|]). split; [rewrite (first_rd _ _ _ Hf) by done; reflexivity|]. split; [reflexivity|].
  split; [unfold load64; rewrite (first_rd _ _ _ Hf) by done; reflexivity|].
  split; [unfold load64; rewrite (first_rd _ _ _ Hf) by done; reflexivity|].
  intros y. eexists. split; [eapply usteps_step; [fetches Hf|]; apply usteps_refl|].
  split; [unfold at_ecall; cbn [upc]; rewrite (first_fetch _ _ Hf) by done; reflexivity|]. split; [reflexivity|].
  intros z. eexists. split; [eapply usteps_step; [fetches Hf|]; eapply usteps_step; [fetches Hf|]; apply usteps_refl|].
  split; [unfold at_ecall; cbn [upc]; rewrite (first_fetch _ _ Hf) by done; reflexivity|reflexivity].
Qed.

Lemma initcode_execs_witness :
  exists c, usteps (wr (fun _ => Byte.x00) 0 initcode) (mkucpu 0 (fun _ => 0)) c /\ ux c x_a7 = SYS_exec.
Proof.
  destruct (initcode_execs (wr (fun _ => Byte.x00) 0 initcode) (fun _ => 0)) as (c & Hs & _ & H7 & _).
  - intros j Hj. unfold wr. destruct (in_range 0 _ j) eqn:E.
    + f_equal. lia.
    + apply in_range_false in E. symmetry. apply nth_overflow. change (length initcode) with 52%nat in *. lia.
  - exists c. split; [exact Hs|exact H7].
Defined.
