(* ===== verification/Boot.v ===== *)
(** Booting: start() and timerinit() of kernel/start.c in machine mode, and
    main() of kernel/main.c. *)

From stdpp Require Import base tactics list strings.
From Stdlib Require Import ZArith Lia FunctionalExtensionality.
From coqutil Require Import Byte Word.LittleEndianList.
From S2P Require Import Prelude Riscv Mem Core Spinlock Kalloc Vm State Csr Proc Uart Printf Console Sleeplock Virtio Bio Block Log Fs Pipe File Process Exec Sysfile Trap.

Local Open Scope Z_scope.
Local Open Scope kern_scope.

Definition MSTATUS_MPP_MASK : Z := Z.shiftl 3 11.
Definition MSTATUS_MPP_M : Z := Z.shiftl 3 11.
Definition MSTATUS_MPP_S : Z := Z.shiftl 1 11.
Definition MSTATUS_MIE : Z := Z.shiftl 1 3.
Definition SIE_SEIE : Z := Z.shiftl 1 9.
Definition SIE_STIE : Z := Z.shiftl 1 5.
Definition SIE_SSIE : Z := Z.shiftl 1 1.
Definition MIE_MTIE : Z := Z.shiftl 1 7.

Section Boot.
Context `{KernelImage} `{World} `{Symbols} `{BlockDev}.
(** The address of mscratch0[]. *)
Context (mscratch0 : Z).

Definition timerinit : M st unit :=
  let* id := r_mhartid in
  let id := i32 id in
  let interval := 1000000 in
  let* now := ReadReg CLINT_MTIME in
  WriteReg (CLINT_MTIMECMP id) (u64 (now + interval)) ;;;
  let scratch := mscratch0 + 8 * (32 * id) in
  zoom (st64 (scratch + 8 * 4) (CLINT_MTIMECMP id)) ;;;
  zoom (st64 (scratch + 8 * 5) interval) ;;;
  w_mscratch scratch ;;;
  w_mtvec sym_timervec ;;;
  let* x := r_mstatus in
  w_mstatus (Z.lor x MSTATUS_MIE) ;;;
  let* x := r_mie in
  w_mie (Z.lor x MIE_MTIE).

(** Up to the mret, which enters main() in supervisor mode. *)
Definition start : M st unit :=
  let* x := r_mstatus in
  let x := Z.land x (Z.lnot MSTATUS_MPP_MASK) in
  let x := Z.lor x MSTATUS_MPP_S in
  w_mstatus x ;;;
  w_mepc sym_main ;;;
  w_satp 0 ;;;
  w_medeleg 0xffff ;;;
  w_mideleg 0xffff ;;;
  let* x := r_sie in
  w_sie (Z.lor (Z.lor (Z.lor x SIE_SEIE) SIE_STIE) SIE_SSIE) ;;;
  timerinit ;;;
  let* id := r_mhartid in
  w_tp (i32 id).

(** main(), with the first [rounds] rounds of the scheduler.  The other
    harts wait for [started]; as in [acquire], a hart that has to wait for
    another one makes no progress in this model. *)
Definition main (rounds : nat) : M st unit :=
  let* id := zoom cpuid in
  (if id =? 0 then
     consoleinit ;;;
     printfinit ;;;
     printf [nl] [] ;;;
     printf (codes "xv6 kernel is booting" ++ [nl]) [] ;;;
     printf [nl] [] ;;;
     zoom kinit ;;;
     zoom kvminit ;;;
     kvminithart ;;;
     procinit ;;;
     trapinit ;;;
     trapinithart ;;;
     plicinit ;;;
     plicinithart ;;;
     binit ;;;
     iinit ;;;
     fileinit ;;;
     virtio_disk_init ;;;
     userinit ;;;
     modify (set_s_started true)
   else
     let* go := gets s_started in
     if negb go then (fun s => Sleep s)
     else
       printf (codes "hart %d starting" ++ [nl]) [AInt id] ;;;
       kvminithart ;;;
       trapinithart ;;;
       plicinithart) ;;;
  scheduler rounds.

End Boot.
