(* ===== verification/User.v ===== *)
(** User programs: their memory, and the system calls as they see them
    (user/user.h).

    A program runs in its own memory; what the system calls do is a parameter,
    the class [Unix].  A call of exit() ends the program, so a function that
    may call it returns either an exit status or its result. *)

From stdpp Require Import base tactics list strings.
From Stdlib Require Import ZArith Lia.
From coqutil Require Import Byte.
From S2P Require Import Prelude Mem.

Local Open Scope Z_scope.
Local Open Scope kern_scope.

(** The bytes of a string constant, without its NUL. *)
Definition lit (s : string) : list byte := String.list_byte_of_string s.

Definition c_newline : byte := Byte.x0a.

Definition beq (a b : byte) : bool := bool_decide (a = b).

Lemma beq_true a b : beq a b = true <-> a = b.
Proof. apply bool_decide_eq_true. Qed.

(** strchr(s, c) != 0 for a string constant s *)
Definition occurs (s : list byte) (c : byte) : bool := existsb (beq c) s.

(** struct stat of kernel/stat.h *)
Record stat := mkstat { st_dev : Z; st_ino : Z; st_type : Z; st_nlink : Z; st_size : Z }.

(** The system calls: a result, and for read() and fstat() what is stored in
    the caller's memory.  Strings are without their NUL. *)
Class Unix := {
  os : Type;
  os_read : Z -> Z -> os -> Z * list byte * os;
  os_write : Z -> list byte -> os -> Z * os;
  os_open : list byte -> Z -> os -> Z * os;
  os_close : Z -> os -> Z * os;
  os_fstat : Z -> os -> Z * option stat * os;
  os_link : list byte -> list byte -> os -> Z * os;
  os_unlink : list byte -> os -> Z * os;
  os_mkdir : list byte -> os -> Z * os;
  os_chdir : list byte -> os -> Z * os;
  os_kill : Z -> os -> Z * os;
  os_sbrk : Z -> os -> Z * os;
}.

(** A computation that may end the program. *)
Definition program (S A : Type) : Type := M S (Z + A).

Definition exit {S A} (status : Z) : program S A := ret (inl status).
Definition continue {S A} (m : M S A) : program S A := let* a := m in ret (inr a).
Definition bindP {S A B} (m : program S A) (k : A -> program S B) : program S B :=
  let* r := m in
  match r with
  | inl status => ret (inl status)
  | inr a => k a
  end.

Notation "'let!' x ':=' m 'in' k" := (bindP m (fun x => k))
  (at level 10, x name, m at level 100, k at level 200) : kern_scope.
Notation "'let!' ' pat ':=' m 'in' k" := (bindP m (fun x => match x with pat => k end))
  (at level 10, pat pattern, m at level 100, k at level 200) : kern_scope.

(** A loop whose body may end the program. *)
Definition stepP {S A B} (body : A -> program S (A + B)) (a : A) : M S (A + (Z + B)) :=
  let* r := body a in
  match r with
  | inl status => ret (inr (inl status))
  | inr (inl a) => ret (inl a)
  | inr (inr b) => ret (inr (inr b))
  end.

Definition loopP {S A B} (body : A -> program S (A + B)) (a : A) : program S B := loop (stepP body) a.

Section RunP.
Context {S A B : Type}.

Lemma bindP_run (m : program S A) (k : A -> program S B) a u u' : m u = Ok (inr a) u' -> bindP m k u = k a u'.
Proof. intros E. unfold bindP. by rewrite (bind_run _ _ _ _ _ E). Qed.

Lemma bindP_exit (m : program S A) (k : A -> program S B) status u u' : m u = Ok (inl status) u' -> bindP m k u = Ok (inl status) u'.
Proof. intros E. unfold bindP. by rewrite (bind_run _ _ _ _ _ E). Qed.

Lemma bindP_eq (m m' : program S A) (k : A -> program S B) u u' : m u = m' u' -> bindP m k u = bindP m' k u'.
Proof. intros E. unfold bindP, bind. by rewrite E. Qed.

Lemma continue_run (m : M S A) a u u' : m u = Ok a u' -> continue m u = Ok (inr a) u'.
Proof. intros E. unfold continue. by rewrite (bind_run _ _ _ _ _ E). Qed.

Lemma stepP_more (body : A -> program S (A + B)) a a' u u' : body a u = Ok (inr (inl a')) u' -> stepP body a u = Ok (inl a') u'.
Proof. intros E. unfold stepP. by rewrite (bind_run _ _ _ _ _ E). Qed.

Lemma stepP_end (body : A -> program S (A + B)) a b u u' : body a u = Ok (inr (inr b)) u' -> stepP body a u = Ok (inr (inr b)) u'.
Proof. intros E. unfold stepP. by rewrite (bind_run _ _ _ _ _ E). Qed.

Lemma stepP_exit (body : A -> program S (A + B)) a status u u' : body a u = Ok (inl status) u' -> stepP body a u = Ok (inr (inl status)) u'.
Proof. intros E. unfold stepP. by rewrite (bind_run _ _ _ _ _ E). Qed.
End RunP.

Section User.
Context `{Unix}.

Record user := mkuser { u_mem : mem; u_os : os }.

Definition set_u_mem (m : mem) (u : user) : user := mkuser m (u_os u).
Definition set_u_os (o : os) (u : user) : user := mkuser (u_mem u) o.

#[export] Instance user_mem : Lens user mem.
Proof. refine {| lget := u_mem; lput := set_u_mem |}; [done|by intros []|done]. Defined.

(** A system call that only has a result. *)
Definition sys (f : os -> Z * os) : M user Z :=
  fun u => let '(r, o) := f (u_os u) in Ok r (set_u_os o u).

Definition write (fd buf n : Z) : M user Z :=
  let* m := gets u_mem in sys (os_write fd (rd m buf (Z.to_nat n))).
(** write() of a string constant or of a local variable. *)
Definition write_bytes (fd : Z) (bs : list byte) : M user Z := sys (os_write fd bs).
Definition read (fd buf n : Z) : M user Z :=
  fun u => let '(r, bs, o) := os_read fd n (u_os u) in Ok r (mkuser (wr (u_mem u) buf bs) o).
(** read() into a local variable. *)
Definition read_bytes (fd n : Z) : M user (Z * list byte) :=
  fun u => let '(r, bs, o) := os_read fd n (u_os u) in Ok (r, bs) (set_u_os o u).
Definition open (path : list byte) (omode : Z) : M user Z := sys (os_open path omode).
Definition close (fd : Z) : M user Z := sys (os_close fd).
Definition fstat (fd : Z) : M user (Z * option stat) :=
  fun u => let '(r, st, o) := os_fstat fd (u_os u) in Ok (r, st) (set_u_os o u).
Definition link (old new : list byte) : M user Z := sys (os_link old new).
Definition unlink (path : list byte) : M user Z := sys (os_unlink path).
Definition mkdir (path : list byte) : M user Z := sys (os_mkdir path).
Definition chdir (path : list byte) : M user Z := sys (os_chdir path).
Definition kill (pid : Z) : M user Z := sys (os_kill pid).
Definition sbrk (n : Z) : M user Z := sys (os_sbrk n).

Definition P (A : Type) : Type := program user A.

(** for(i = ...; i < argc; i++) over the remaining arguments. *)
Fixpoint for_args {A} (args : list A) (body : A -> P unit) : P unit :=
  match args with
  | [] => continue (ret tt)
  | a :: args => bindP (body a) (fun _ => for_args args body)
  end.
End User.

(** ** Files *)

(** Bytes written to a descriptor. *)
Definition on (fd : Z) (bs : list byte) : list (Z * byte) := pair fd <$> bs.

Lemma on_app fd bs cs : on fd (bs ++ cs) = on fd bs ++ on fd cs.
Proof. apply fmap_app. Qed.

(** What programs rely on when they open and read files, and write to standard
    output or standard error: open() succeeds exactly for the files there are
    and starts at their beginning; a read delivers some of the bytes that are
    left, none only at the end; a write is complete, and is not to a file that
    is read. *)
Class Streams `{Unix} := {
  contents : os -> list byte -> option (list byte);
  rest : Z -> os -> list byte;
  written : os -> list (Z * byte);
  open_file : forall path o, exists fd o', os_open path 0 o = (fd, o') /\
    (if contents o path is Some F then 0 <= fd /\ rest fd o' = F else fd < 0) /\
    written o' = written o /\ contents o' = contents o;
  close_file : forall fd o, exists r o', os_close fd o = (r, o') /\ written o' = written o /\ contents o' = contents o;
  read_some : forall fd n o, 0 < n -> exists k o', os_read fd n o = (Z.of_nat k, take k (rest fd o), o') /\
    Z.of_nat k <= n /\ (k <= length (rest fd o))%nat /\ (k = 0%nat -> rest fd o = []) /\
    rest fd o' = drop k (rest fd o) /\ written o' = written o /\ contents o' = contents o;
  read_none : forall fd o, os_read fd 0 o = (0, [], o);
  write_all : forall fd bs o, fd = 1 \/ fd = 2 -> exists o', os_write fd bs o = (Z.of_nat (length bs), o') /\
    written o' = written o ++ on fd bs /\ (forall d, rest d o' = rest d o) /\ contents o' = contents o;
}.

(** ** A concrete system, for examples *)

(** One file, which descriptor 3 reads; the other descriptors read standard
    input.  A read delivers at most three bytes. *)
Record tiny_os := mktiny { t_name : list byte; t_file : list byte; t_pos : list byte; t_in : list byte; t_out : list (Z * byte) }.

Definition tiny_rest (fd : Z) (o : tiny_os) : list byte := if fd =? 3 then t_pos o else t_in o.
Definition tiny_set_rest (fd : Z) (l : list byte) (o : tiny_os) : tiny_os :=
  if fd =? 3 then mktiny (t_name o) (t_file o) l (t_in o) (t_out o)
  else mktiny (t_name o) (t_file o) (t_pos o) l (t_out o).

Definition tiny : Unix := {|
  os := tiny_os;
  os_read fd n o := let k := Z.to_nat (Z.min n 3) in let l := take k (tiny_rest fd o) in
    (Z.of_nat (length l), l, tiny_set_rest fd (drop k (tiny_rest fd o)) o);
  os_write fd bs o := (Z.of_nat (length bs), mktiny (t_name o) (t_file o) (t_pos o) (t_in o) (t_out o ++ on fd bs));
  os_open path _ o := if bool_decide (path = t_name o) then (3, mktiny (t_name o) (t_file o) (t_file o) (t_in o) (t_out o)) else (-1, o);
  os_close _ o := (0, o);
  os_fstat _ o := (-1, None, o);
  os_link _ _ o := (-1, o);
  os_unlink _ o := (-1, o);
  os_mkdir _ o := (-1, o);
  os_chdir _ o := (-1, o);
  os_kill _ o := (-1, o);
  os_sbrk _ o := (-1, o);
|}.

Definition tiny_start (name file inp : list byte) : @user tiny := @mkuser tiny (fun _ => Byte.x00) (mktiny name file [] inp []).

Lemma tiny_read n (inp : list byte) : 0 < n -> let k := Z.to_nat (Z.min n 3) in
  take k inp = take (length (take k inp)) inp /\ drop k inp = drop (length (take k inp)) inp /\
  Z.of_nat (length (take k inp)) <= n /\ (length (take k inp) <= length inp)%nat /\ (length (take k inp) = 0%nat -> inp = []).
Proof.
  intros Hn k. rewrite length_take. destruct (decide (k <= length inp)%nat) as [Hk|Hk].
  - rewrite Nat.min_l by done. split_and!; [done|done|lia|lia|]. intros E. lia.
  - rewrite Nat.min_r by lia. rewrite take_ge, take_ge, drop_ge, drop_ge by lia. split_and!; [done|done|lia|lia|]. intros E. by destruct inp.
Qed.

#[export] Instance tiny_streams : @Streams tiny.
Proof.
  refine {| contents := fun (o : @os tiny) path => if bool_decide (path = t_name o) then Some (t_file o) else None;
            rest := tiny_rest : Z -> @os tiny -> _; written := t_out : @os tiny -> _ |}.
  - intros path o. cbn [os_open tiny]. case_bool_decide; eexists _, _; by split_and!.
  - intros fd o. eexists _, _. by split_and!.
  - intros fd n o Hn. destruct (tiny_read n (tiny_rest fd o) Hn) as (E1 & E2 & ? & ? & ?). cbn [os_read tiny].
    eexists _, _. split_and!; [rewrite E1 at 2; reflexivity|done|done|done| | |];
      unfold tiny_rest, tiny_set_rest in *; destruct (fd =? 3) eqn:E; cbn; rewrite ?E; done.
  - intros fd [n f p i w]. cbn. unfold tiny_rest, tiny_set_rest. by destruct (fd =? 3).
  - intros fd bs o _. eexists. by split_and!.
Defined.
