(* ===== verification/Ulib.v ===== *)
(** The C library of user programs (user/ulib.c), and what its routines
    compute.  The string routines are over the program's memory. *)

From stdpp Require Import base tactics list strings.
From Stdlib Require Import ZArith Lia FunctionalExtensionality.
From coqutil Require Import Byte.
From S2P Require Import Prelude Mem StringC User.

Local Open Scope Z_scope.
Local Open Scope kern_scope.

(** ** Definitions *)

Definition O_RDONLY : Z := 0.
Definition newline : Z := 10.
Definition return_ : Z := 13.

Definition strcpy (s t : Z) : M mem Z :=
  loop (fun '(s, t) =>
    let* b := getb t in
    putb s b ;;;
    if negb (b =? 0) then ret (inl (s + 1, t + 1)) else ret (inr tt)) (s, t) ;;;
  ret s.

Definition strcmp (p q : Z) : M mem Z :=
  let* r := loop (fun '(p, q) =>
    let* a := getb p in
    let* b := getb q in
    if negb (a =? 0) && (a =? b) then ret (inl (p + 1, q + 1)) else ret (inr (p, q))) (p, q) in
  let '(p, q) := r in
  let* a := getb p in
  let* b := getb q in
  ret (a - b).

Definition strlen (s : Z) : M mem Z :=
  let* n := loop (fun n =>
    let* b := getb (s + n) in
    if negb (b =? 0) then ret (inl (i32 (n + 1))) else ret (inr n)) 0 in
  ret (u32 n).

Definition memset (dst c n : Z) : M mem Z :=
  loop (fun i =>
    if u32 i <? n then putb (dst + i) c ;;; ret (inl (i32 (i + 1)))
    else ret (inr tt)) 0 ;;;
  ret dst.

(** A pointer, 0 if the character does not occur. *)
Definition strchr (s c : Z) : M mem Z :=
  loop (fun s =>
    let* b := getb s in
    if negb (b =? 0) then
      if b =? c then ret (inr s) else ret (inl (s + 1))
    else ret (inr 0)) s.

Definition is_digit (b : Z) : bool := (48 <=? b) && (b <=? 57).

Definition atoi (s : Z) : M mem Z :=
  loop (fun '(s, n) =>
    let* b := getb s in
    if is_digit b then ret (inl (s + 1, i32 (n * 10 + b - 48))) else ret (inr n)) (s, 0).

(** while(n-- > 0) with an int n *)
Definition memmove (vdst vsrc n : Z) : M mem Z :=
  (if vdst <? vsrc then
     loop (fun '(dst, src, n) =>
       if 0 <? n then
         let* b := getb src in
         putb dst b ;;;
         ret (inl (dst + 1, src + 1, n - 1))
       else ret (inr tt)) (vdst, vsrc, n)
   else
     loop (fun '(dst, src, n) =>
       if 0 <? n then
         let* b := getb (src - 1) in
         putb (dst - 1) b ;;;
         ret (inl (dst - 1, src - 1, n - 1))
       else ret (inr tt)) (vdst + n, vsrc + n, n)) ;;;
  ret vdst.

Definition memcmp (s1 s2 n : Z) : M mem Z :=
  loop (fun '(p1, p2, n) =>
    if 0 <? n then
      let* a := getb p1 in
      let* b := getb p2 in
      if negb (a =? b) then ret (inr (a - b))
      else ret (inl (p1 + 1, p2 + 1, u32 (n - 1)))
    else ret (inr 0)) (s1, s2, n).

Definition memcpy (dst src n : Z) : M mem Z := memmove dst src (i32 n).

Section Ulib.
Context `{Unix}.

(** gets(buf, max): c is a local variable, whose old value is kept when
    read() fails. *)
Definition gets_ (buf max : Z) : M user Z :=
  let* i := loop (fun i =>
    if i + 1 <? max then
      let* r := read_bytes 0 1 in
      let '(cc, bs) := r in
      if cc <? 1 then ret (inr i)
      else
        match bs with
        | [] => undefined "read() reported a byte it did not store"
        | c :: _ =>
            zoom (putb (buf + i) (byte.unsigned c)) ;;;
            if (byte.unsigned c =? newline) || (byte.unsigned c =? return_) then ret (inr (i + 1))
            else ret (inl (i + 1))
        end
    else ret (inr i)) 0 in
  zoom (putb (buf + i) 0) ;;;
  ret buf.

(** The result, and what has been stored in *st. *)
Definition stat_ (n : list byte) : M user (Z * option stat) :=
  let* fd := open n O_RDONLY in
  if fd <? 0 then ret (-1, None)
  else
    let* r := fstat fd in
    close fd ;;;
    ret r.
End Ulib.

(** ** Theorems *)

Lemma memmove_copy m dst src n :
  0 <= n < 2 ^ 31 -> memmove dst src n m = Ok dst (copy m dst src n).
Proof.
  intros Hn. enough (wp (memmove dst src n) (fun r m' => r = dst /\ m' = copy m dst src n) m) as W.
  { apply wp_elim in W as (? & ? & -> & -> & ->). done. }
  unfold memmove. wp_step. wp_step; bools.
  - apply wp_loop with (n := n)
      (I := fun k '(d', s', n') m' => 0 <= n' <= n /\ k = n' /\ d' = dst + (n - n') /\ s' = src + (n - n') /\ m' = copy m dst src (n - n')).
    + intros k [[d' s'] n'] m' Hk (Hn' & -> & -> & -> & ->). unfold getb, putb; wp_steps; bools.
      * exists (n' - 1). split_and!; try lia. rewrite byte.of_Z_unsigned, copy_out by lia. extensionality x. ranges.
      * assert (n' = 0) as -> by lia. by rewrite Z.sub_0_r.
    + lia.
    + split_and!; try lia. extensionality x. ranges.
  - apply wp_loop with (n := n)
      (I := fun k '(d', s', n') m' => 0 <= n' <= n /\ k = n' /\ d' = dst + n' /\ s' = src + n' /\ m' = copy m d' s' (n - n')).
    + intros k [[d' s'] n'] m' Hk (Hn' & -> & -> & -> & ->). unfold getb, putb; wp_steps; bools.
      * exists (n' - 1). split_and!; try lia. rewrite byte.of_Z_unsigned. rewrite copy_out by lia. extensionality x. ranges.
      * assert (n' = 0) as -> by lia. rewrite !Z.add_0_r. by rewrite Z.sub_0_r.
    + lia.
    + split_and!; try lia. extensionality x. ranges.
Qed.

(** The bytes from [s] on, as far as a search looks at them. *)
Lemma strchr_eq m s c n (stop : bool) :
  0 <= n < 2 ^ 63 -> c <> 0 -> (forall k, 0 <= k < n -> byte.unsigned (m (s + k)) <> 0 /\ byte.unsigned (m (s + k)) <> c) ->
  byte.unsigned (m (s + n)) = (if stop then 0 else c) ->
  strchr s c m = Ok (if stop then 0 else s + n) m.
Proof.
  intros Hn Hc Hk Hend. enough (wp (strchr s c) (fun r m' => r = (if stop then 0 else s + n) /\ m' = m) m) as W.
  { apply wp_elim in W as (? & ? & -> & -> & ->). done. }
  unfold strchr. apply wp_loop with (n := n) (I := fun k s' m' => 0 <= k <= n /\ s' = s + (n - k) /\ m' = m).
  - intros k s' m' _ (Hk' & -> & ->). unfold getb. wp_step. wp_step. destruct (decide (k = 0)) as [->|Hk0].
    + rewrite Z.sub_0_r, Hend. destruct stop; [by wp_steps|]. rewrite (proj2 (Z.eqb_neq c 0)), Z.eqb_refl by done. by wp_steps.
    + destruct (Hk (n - k)) as [H1 H2]; [lia|]. rewrite (proj2 (Z.eqb_neq _ _) H1), (proj2 (Z.eqb_neq _ _) H2). cbn [negb]. wp_step.
      exists (k - 1). split_and!; try lia. done.
  - lia.
  - split_and!; try lia. done.
Qed.

Lemma ustrlen_eq m s l : cstr m s l -> Z.of_nat (length l) < 2 ^ 31 -> strlen s m = Ok (Z.of_nat (length l)) m.
Proof.
  intros Hc Hl. assert (E := strlen_correct m s l Hc Hl). unfold strlen. unfold StringC.strlen in E. unfold bind at 1. rewrite E.
  unfold ret. f_equal. apply u32_small. lia.
Qed.

Lemma rd_S m a n : rd m a (S n) = m a :: rd m (a + 1) n.
Proof.
  unfold rd. cbn [seq List.map]. rewrite Z.add_0_r. f_equal. rewrite <- seq_shift, List.map_map. apply map_ext. intros k. f_equal. lia.
Qed.

Lemma rd_app m a n k : rd m a (n + k) = rd m a n ++ rd m (a + Z.of_nat n) k.
Proof.
  revert a. induction n as [|n IH]; intros a; [by rewrite Z.add_0_r|]. cbn [Nat.add]. rewrite !rd_S, IH. cbn [app].
  do 3 f_equal. lia.
Qed.

(** A string argument, as a list. *)
Definition cstring (p : Z) : M mem (list byte) := let* n := strlen p in gets (fun m => rd m p (Z.to_nat n)).

Lemma cstr_rd m p l :
  rd m p (length l) = l -> Forall (fun b => byte.unsigned b <> 0) l -> byte.unsigned (m (p + Z.of_nat (length l))) = 0 -> cstr m p l.
Proof.
  intros Hr Hn H0. split; [|done]. clear H0. revert p Hr. induction Hn as [|b l Hb Hn IH]; intros p Hr; [done|].
  cbn [length cname] in *. rewrite rd_S in Hr. injection Hr as E Hr. rewrite E, (proj2 (Z.eqb_neq _ _) Hb). f_equal. by apply IH.
Qed.

Lemma cstring_eq m p l :
  rd m p (length l) = l -> Forall (fun b => byte.unsigned b <> 0) l -> byte.unsigned (m (p + Z.of_nat (length l))) = 0 ->
  Z.of_nat (length l) < 2 ^ 31 -> cstring p m = Ok l m.
Proof.
  intros Hr Hn H0 Hl. unfold cstring, bind. rewrite (ustrlen_eq m p l) by (done || by apply cstr_rd).
  unfold gets. by rewrite Nat2Z.id, Hr.
Qed.
