(* ===== verification/Uprintf.v ===== *)
(** Formatted output of user programs (user/printf.c), and that what it
    prints for %d is the decimal numeral atoi() reads back.

    An argument of printf() is a register: a 64-bit word, or a pointer to a
    string, whose bytes are without the NUL. *)

From stdpp Require Import base tactics list strings pretty.
From Stdlib Require Import ZArith Lia.
From coqutil Require Import Byte.
From S2P Require Import Prelude Mem StringC User Ulib.

Local Open Scope Z_scope.
Local Open Scope kern_scope.

(** ** Definitions *)

Inductive arg := AWord (x : Z) | AStr (s : list byte).

Definition digits : list byte := lit "0123456789ABCDEF".
Definition digit (d : Z) : byte := nth (Z.to_nat d) digits Byte.x00.

Definition percent : byte := byte.of_Z 37.
Definition minus : byte := byte.of_Z 45.

Section Uprintf.
Context `{Unix}.

Definition putc (fd : Z) (c : byte) : M user unit := let* _ := write_bytes fd [c] in ret tt.

Fixpoint putcs (fd : Z) (bs : list byte) : M user unit :=
  match bs with
  | [] => ret tt
  | c :: bs => putc fd c ;;; putcs fd bs
  end.

(** buf[i++] = c with char buf[16]; the list is buf[0..i-1], last first. *)
Definition push (c : byte) (buf : list byte) : M user (list byte) :=
  if Z.of_nat (length buf) <? 16 then ret (c :: buf) else undefined "buf[16] overflows".

Definition printint_step (base : Z) (a : Z * list byte) : M user ((Z * list byte) + list byte) :=
  let '(x, buf) := a in
  let* buf := push (digit (x mod base)) buf in
  let x := x / base in
  if negb (x =? 0) then ret (inl (x, buf)) else ret (inr buf).

Definition printint (fd xx base : Z) (sgn : bool) : M user unit :=
  let neg := sgn && (xx <? 0) in
  let x := if neg then u32 (- xx) else u32 xx in
  let* buf := loop (printint_step base) (x, []) in
  let* buf := if neg then push minus buf else ret buf in
  putcs fd buf.

Fixpoint printptr_digits (n : nat) (x : Z) : list byte :=
  match n with
  | O => []
  | S n => digit (Z.shiftr x 60) :: printptr_digits n (u64 (Z.shiftl x 4))
  end.

Definition printptr (fd x : Z) : M user unit :=
  putc fd (byte.of_Z 48) ;;;
  putc fd (byte.of_Z 120) ;;;
  putcs fd (printptr_digits 16 x).

Definition va_word (ap : list arg) (k : Z -> list arg -> M user unit) : M user unit :=
  match ap with
  | AWord x :: ap => k x ap
  | _ => undefined "va_arg"
  end.

(** The loop of vprintf(); [state] is whether the last character was a %. *)
Fixpoint vprintf_loop (fd : Z) (state : bool) (fmt : list byte) (ap : list arg) : M user unit :=
  match fmt with
  | [] => ret tt
  | c :: fmt =>
      if negb state then
        if beq c percent then vprintf_loop fd true fmt ap
        else putc fd c ;;; vprintf_loop fd false fmt ap
      else if beq c (byte.of_Z 100) then
        va_word ap (fun x ap => printint fd (i32 x) 10 true ;;; vprintf_loop fd false fmt ap)
      else if beq c (byte.of_Z 108) then
        va_word ap (fun x ap => printint fd (i32 x) 10 false ;;; vprintf_loop fd false fmt ap)
      else if beq c (byte.of_Z 120) then
        va_word ap (fun x ap => printint fd (i32 x) 16 false ;;; vprintf_loop fd false fmt ap)
      else if beq c (byte.of_Z 112) then
        va_word ap (fun x ap => printptr fd x ;;; vprintf_loop fd false fmt ap)
      else if beq c (byte.of_Z 115) then
        match ap with
        | AStr s :: ap => putcs fd s ;;; vprintf_loop fd false fmt ap
        | AWord 0 :: ap => putcs fd (lit "(null)") ;;; vprintf_loop fd false fmt ap
        | _ => undefined "va_arg"
        end
      else if beq c (byte.of_Z 99) then
        va_word ap (fun x ap => putc fd (byte.of_Z x) ;;; vprintf_loop fd false fmt ap)
      else if beq c percent then putc fd c ;;; vprintf_loop fd false fmt ap
      else putc fd percent ;;; putc fd c ;;; vprintf_loop fd false fmt ap
  end.

Definition vprintf (fd : Z) (fmt : list byte) (ap : list arg) : M user unit := vprintf_loop fd false fmt ap.

Definition fprintf (fd : Z) (fmt : list byte) (ap : list arg) : M user unit := vprintf fd fmt ap.

Definition printf (fmt : list byte) (ap : list arg) : M user unit := vprintf 1 fmt ap.
End Uprintf.

(** ** Theorems *)

Lemma pretty_char d : 0 <= d < 10 -> Ascii.byte_of_ascii (pretty_N_char (Z.to_N d)) = digit d.
Proof.
  intros Hd. assert (d = 0 \/ d = 1 \/ d = 2 \/ d = 3 \/ d = 4 \/ d = 5 \/ d = 6 \/ d = 7 \/ d = 8 \/ d = 9) as Hd' by lia.
  repeat destruct Hd' as [->|Hd']; try subst d; reflexivity.
Qed.

Lemma lit_String c s : lit (String c s) = Ascii.byte_of_ascii c :: lit s.
Proof. done. Qed.

Lemma pretty_step x s : 0 < x ->
  lit (pretty_N_go (Z.to_N x) s) = lit (pretty_N_go (Z.to_N (x / 10)) (String (pretty_N_char (Z.to_N (x mod 10))) s)).
Proof. intros Hx. rewrite pretty_N_go_step by lia. by rewrite Z2N.inj_div, Z2N.inj_mod by lia. Qed.

Section PrintintOk.
Context `{Unix}.

Lemma push_eq c buf (u : user) : Z.of_nat (length buf) < 16 -> push c buf u = Ok (c :: buf) u.
Proof. intros Hb. unfold push. by rewrite (proj2 (Z.ltb_lt _ _) Hb). Qed.

(** The digits of a positive number that has at most [k] of them. *)
Lemma printint_loop (k : nat) x s (u : user) :
  0 < x < 10 ^ Z.of_nat k -> Z.of_nat (length (lit s)) + Z.of_nat k <= 16 ->
  exists j, loops (printint_step 10) j (x, lit s) u (lit (pretty_N_go (Z.to_N x) s)) u /\ (j <= k)%nat.
Proof.
  revert x s. induction k as [|k IH]; intros x s Hx Hs; [lia|].
  assert (Hd : 0 <= x mod 10 < 10) by (apply Z.mod_pos_bound; lia).
  assert (E : push (digit (x mod 10)) (lit s) u = Ok (lit (String (pretty_N_char (Z.to_N (x mod 10))) s)) u).
  { rewrite lit_String, pretty_char by done. apply push_eq. lia. }
  rewrite pretty_step by lia. destruct (decide (x / 10 = 0)) as [Hz|Hnz].
  - exists 0%nat. split; [|lia]. rewrite Hz. apply loops_end. unfold printint_step. by rewrite (bind_run _ _ _ _ _ E), Hz.
  - assert (0 <= x / 10) by (apply Z.div_pos; lia). rewrite Nat2Z.inj_succ, Z.pow_succ_r in Hx by lia.
    destruct (IH (x / 10) (String (pretty_N_char (Z.to_N (x mod 10))) s)) as (j & L & Hj).
    { split; [lia|]. apply Z.div_lt_upper_bound; lia. }
    { rewrite lit_String. cbn [length]. lia. }
    exists (S j). split; [|lia]. eapply loops_more; [|exact L]. unfold printint_step. rewrite (bind_run _ _ _ _ _ E).
    by rewrite (proj2 (Z.eqb_neq _ _) Hnz).
Qed.

Definition numeral (x : Z) : list byte := lit (pretty x).

Lemma printint_digits x (u : user) : 0 <= x < 2 ^ 32 -> loop (printint_step 10) (x, []) u = Ok (numeral x) u.
Proof.
  intros Hx. destruct (decide (x = 0)) as [->|Hnz]; [by apply (loops_loop _ 0); [apply loops_end|]|].
  destruct (printint_loop 10 x "" u) as (j & L & Hj); [lia|done|].
  apply (loops_loop _ j); [|lia]. replace (numeral x) with (lit (pretty_N_go (Z.to_N x) "")); [done|].
  destruct x as [|p|p]; [done| |lia]. unfold numeral, pretty, pretty_Z, pretty, pretty_positive, pretty, pretty_N. by rewrite decide_False.
Qed.

Lemma putcs_eq `{!Streams} fd bs (u : user) : fd = 1 \/ fd = 2 ->
  exists o, putcs fd bs u = Ok tt (set_u_os o u) /\ written o = written (u_os u) ++ on fd bs /\
    (forall d, rest d o = rest d (u_os u)) /\ contents o = contents (u_os u).
Proof.
  intros Hfd. revert u. induction bs as [|c bs IH]; intros u.
  - exists (u_os u). split_and!; [by destruct u|by rewrite app_nil_r|done|done].
  - destruct (write_all fd [c] (u_os u) Hfd) as (o1 & E1 & W1 & R1 & C1). destruct (IH (set_u_os o1 u)) as (o & E & W & R & C).
    exists o. cbn [u_os set_u_os] in *. split_and!.
    + cbn [putcs]. unfold putc, write_bytes, sys. unfold bind at 1 2. by rewrite E1.
    + rewrite W, W1, <- app_assoc. done.
    + intros d. by rewrite R, R1.
    + by rewrite C, C1.
Qed.

Lemma numeral_pos x : 0 < x -> numeral x = lit (pretty_N_go (Z.to_N x) "").
Proof.
  intros Hx. destruct x as [|p|p]; [lia| |lia]. unfold numeral, pretty, pretty_Z, pretty, pretty_positive, pretty, pretty_N.
  by rewrite decide_False.
Qed.

Lemma numeral_neg x : x < 0 -> numeral x = minus :: numeral (- x).
Proof. intros Hx. by destruct x as [|p|p]. Qed.

Lemma length_pretty (k : nat) x s : 0 <= x < 10 ^ Z.of_nat k -> (length (lit (pretty_N_go (Z.to_N x) s)) <= k + length (lit s))%nat.
Proof.
  revert x s. induction k as [|k IH]; intros x s Hx.
  { replace x with 0 by (change (10 ^ Z.of_nat 0) with 1 in Hx; lia). done. }
  destruct (decide (x = 0)) as [->|Hnz]; [change (Z.to_N 0) with 0%N; rewrite pretty_N_go_0; lia|]. rewrite pretty_step by lia.
  rewrite Nat2Z.inj_succ, Z.pow_succ_r in Hx by lia. etransitivity; [apply IH|rewrite lit_String; cbn [length]; lia].
  split; [apply Z.div_pos; lia|apply Z.div_lt_upper_bound; lia].
Qed.

Lemma length_numeral x : 0 <= x < 2 ^ 32 -> (length (numeral x) <= 10)%nat.
Proof.
  intros Hx. destruct (decide (x = 0)) as [->|Hnz]; [cbn; lia|]. rewrite numeral_pos by lia.
  etransitivity; [apply (length_pretty 10); lia|done].
Qed.

Lemma printint_numeral fd xx (u : user) : - 2 ^ 31 <= xx < 2 ^ 31 -> printint fd xx 10 true u = putcs fd (numeral xx) u.
Proof.
  intros Hx. unfold printint. cbn [andb]. destruct (Z.ltb_spec xx 0) as [Hn|Hn].
  - rewrite (u32_small (- xx)) by lia. rewrite (bind_run _ _ _ _ _ (printint_digits (- xx) u ltac:(lia))).
    pose proof (length_numeral (- xx) ltac:(lia)).
    rewrite (bind_run _ _ _ _ _ (push_eq minus (numeral (- xx)) u ltac:(lia))). by rewrite <- numeral_neg.
  - rewrite (u32_small xx) by lia. rewrite (bind_run _ _ _ _ _ (printint_digits xx u ltac:(lia))). done.
Qed.
End PrintintOk.

(** What a format that only has %d, %s and %% prints. *)
Fixpoint format (state : bool) (fmt : list byte) (ap : list arg) : option (list byte) :=
  match fmt with
  | [] => Some []
  | c :: fmt =>
      if negb state then
        if beq c percent then format true fmt ap else cons c <$> format false fmt ap
      else if beq c (byte.of_Z 100) then
        if ap is AWord x :: ap then app (numeral (i32 x)) <$> format false fmt ap else None
      else if beq c (byte.of_Z 115) then
        if ap is AStr s :: ap then app s <$> format false fmt ap else None
      else if beq c percent then cons c <$> format false fmt ap
      else None
  end.

Section Total.
Context `{Unix}.

(** [m] only makes system calls, and returns. *)
Definition returns_ (m : M user unit) : Prop := forall u, exists o, m u = Ok tt (set_u_os o u).

Lemma returns_bind m k : returns_ m -> returns_ k -> returns_ (m ;;; k).
Proof. intros Hm Hk u. destruct (Hm u) as (o1 & E1). destruct (Hk (set_u_os o1 u)) as (o & E). exists o. by rewrite (bind_run _ _ _ _ _ E1). Qed.

Lemma returns_putc fd c : returns_ (putc fd c).
Proof. intros u. unfold putc, write_bytes, sys, bind. destruct (os_write fd [c] (u_os u)) as [r o]. by exists o. Qed.

Lemma returns_putcs fd bs : returns_ (putcs fd bs).
Proof. induction bs as [|c bs IH]; [intros u; exists (u_os u); by destruct u|]. apply returns_bind; [apply returns_putc|done]. Qed.

Lemma returns_vprintf fd state fmt ap bs : format state fmt ap = Some bs -> returns_ (vprintf_loop fd state fmt ap).
Proof.
  revert state ap bs. induction fmt as [|c fmt IH]; intros state ap bs; cbn [format vprintf_loop].
  { intros _ u. exists (u_os u). by destruct u. }
  destruct (negb state); [destruct (beq c percent)|destruct (beq c (byte.of_Z 100)); [|destruct (beq c (byte.of_Z 115)) eqn:Es]].
  - apply IH.
  - intros (cs & Hcs & _)%fmap_Some. apply returns_bind; [apply returns_putc|by eapply IH].
  - destruct ap as [|[x|s] ap]; [done| |done]. intros (cs & Hcs & _)%fmap_Some. cbn [va_word]. apply returns_bind; [|by eapply IH].
    intros u. rewrite printint_numeral by apply i32_range. apply returns_putcs.
  - apply beq_true in Es as ->. destruct ap as [|[x|s] ap]; [done|done|]. intros (cs & Hcs & _)%fmap_Some.
    apply returns_bind; [apply returns_putcs|by eapply IH].
  - destruct (beq c percent) eqn:Ep; [|done]. intros (cs & Hcs & _)%fmap_Some. apply beq_true in Ep as ->.
    apply returns_bind; [apply returns_putc|by eapply IH].
Qed.
End Total.

Section Format.
Context `{Streams}.

(** [m] writes [bs] to [fd] and does nothing else. *)
Definition prints (fd : Z) (bs : list byte) (m : M user unit) : Prop :=
  forall u, exists o, m u = Ok tt (set_u_os o u) /\ written o = written (u_os u) ++ on fd bs /\
    (forall d, rest d o = rest d (u_os u)) /\ contents o = contents (u_os u).

Lemma prints_putcs fd bs : fd = 1 \/ fd = 2 -> prints fd bs (putcs fd bs).
Proof. intros Hfd u. by apply putcs_eq. Qed.

Lemma prints_bind fd bs cs m k : prints fd bs m -> prints fd cs k -> prints fd (bs ++ cs) (m ;;; k).
Proof.
  intros Hm Hk u. destruct (Hm u) as (o1 & E1 & W1 & R1 & C1). destruct (Hk (set_u_os o1 u)) as (o & E & W & R & C). cbn [u_os set_u_os] in *.
  exists o. rewrite (bind_run _ _ _ _ _ E1). split_and!; [done|by rewrite W, W1, on_app, <- app_assoc|intros d; by rewrite R|by rewrite C].
Qed.

Lemma prints_putc fd c : fd = 1 \/ fd = 2 -> prints fd [c] (putc fd c).
Proof.
  intros Hfd u. destruct (write_all fd [c] (u_os u) Hfd) as (o & E & W & R & C). exists o.
  split_and!; [|done|done|done]. unfold putc, write_bytes, sys, bind. by rewrite E.
Qed.

Lemma prints_vprintf fd state fmt ap bs : fd = 1 \/ fd = 2 ->
  format state fmt ap = Some bs -> prints fd bs (vprintf_loop fd state fmt ap).
Proof.
  intros Hfd. revert state ap bs. induction fmt as [|c fmt IH]; intros state ap bs; cbn [format vprintf_loop].
  { intros [= <-]. by apply prints_putcs with (bs := []). }
  destruct (negb state); [destruct (beq c percent) eqn:Ep|destruct (beq c (byte.of_Z 100)) eqn:Ed; [|destruct (beq c (byte.of_Z 115)) eqn:Es]].
  - apply IH.
  - intros (cs & Hcs & ->)%fmap_Some. apply (prints_bind fd [c]); [by apply prints_putc|by apply IH].
  - destruct ap as [|[x|s] ap]; [done| |done]. intros (cs & Hcs & ->)%fmap_Some. cbn [va_word]. apply prints_bind; [|by apply IH].
    intros u. rewrite printint_numeral by apply i32_range. by apply putcs_eq.
  - apply beq_true in Es as ->. destruct ap as [|[x|s] ap]; [done|done|]. intros (cs & Hcs & ->)%fmap_Some. 
    apply prints_bind; [by apply prints_putcs|by apply IH].
  - destruct (beq c percent) eqn:Ep; [|done]. intros (cs & Hcs & ->)%fmap_Some. apply beq_true in Ep as ->.
    apply (prints_bind fd [percent]); [by apply prints_putc|by apply IH].
Qed.
End Format.

(** The value of a digit sequence that follows one of value [n]. *)
Definition digits_value (n : Z) (bs : list byte) : Z := fold_left (fun n b => n * 10 + byte.unsigned b - 48) bs n.

Lemma digits_value_cons n b bs : digits_value n (b :: bs) = digits_value (n * 10 + byte.unsigned b - 48) bs.
Proof. done. Qed.

Lemma digit_code d : 0 <= d < 10 -> byte.unsigned (digit d) = 48 + d.
Proof.
  intros Hd. assert (d = 0 \/ d = 1 \/ d = 2 \/ d = 3 \/ d = 4 \/ d = 5 \/ d = 6 \/ d = 7 \/ d = 8 \/ d = 9) as Hd' by lia.
  repeat destruct Hd' as [->|Hd']; try subst d; reflexivity.
Qed.

Lemma digits_value_pretty x : 0 <= x -> forall s, digits_value 0 (lit (pretty_N_go (Z.to_N x) s)) = digits_value x (lit s).
Proof.
  revert x. refine (Zlt_0_ind _ _). intros x IH Hx s. destruct (decide (x = 0)) as [->|Hnz]; [done|].
  assert (Hd : 0 <= x mod 10 < 10) by (apply Z.mod_pos_bound; lia).
  rewrite pretty_step, IH by (lia || (split; [apply Z.div_pos|apply Z.div_lt]; lia)). rewrite lit_String, pretty_char by done.
  rewrite digits_value_cons, digit_code by done. f_equal. pose proof (Z.div_mod x 10 ltac:(done)). lia.
Qed.

Lemma pretty_digits x : 0 <= x -> forall s, Forall (fun b => is_digit (byte.unsigned b) = true) (lit s) ->
  Forall (fun b => is_digit (byte.unsigned b) = true) (lit (pretty_N_go (Z.to_N x) s)).
Proof.
  revert x. refine (Zlt_0_ind _ _). intros x IH Hx s Hs. destruct (decide (x = 0)) as [->|Hnz]; [done|].
  assert (Hd : 0 <= x mod 10 < 10) by (apply Z.mod_pos_bound; lia).
  rewrite pretty_step by lia. apply IH; [split; [apply Z.div_pos|apply Z.div_lt]; lia|].
  rewrite lit_String, pretty_char by done. constructor; [|done]. rewrite digit_code by done. unfold is_digit. lia.
Qed.

Lemma numeral_value x : 0 <= x -> digits_value 0 (numeral x) = x /\ Forall (fun b => is_digit (byte.unsigned b) = true) (numeral x).
Proof.
  intros Hx. destruct (decide (x = 0)) as [->|Hnz]; [split; [done|]; apply (bool_decide_unpack _); by vm_compute|].
  rewrite numeral_pos by lia. split; [by rewrite digits_value_pretty|by apply pretty_digits].
Qed.

Lemma digits_value_ge bs n : 0 <= n -> Forall (fun b => is_digit (byte.unsigned b) = true) bs -> n <= digits_value n bs.
Proof.
  intros Hn Hb. revert n Hn. induction Hb as [|b bs Hb Hbs IH]; intros n Hn; [done|].
  unfold is_digit in Hb. rewrite digits_value_cons. etransitivity; [|apply IH]; lia.
Qed.

Lemma atoi_value m bs s n :
  rd m s (length bs) = bs -> Forall (fun b => is_digit (byte.unsigned b) = true) bs ->
  is_digit (byte.unsigned (m (s + Z.of_nat (length bs)))) = false -> 0 <= n -> digits_value n bs < 2 ^ 31 ->
  exists j, loops (fun '(s, n) => let* b := getb s in
      if is_digit b then ret (inl (s + 1, i32 (n * 10 + b - 48))) else ret (inr n)) j (s, n) m (digits_value n bs) m /\ (j <= length bs)%nat.
Proof.
  intros Hr Hb. revert s n Hr. induction Hb as [|b bs Hb Hbs IH]; intros s n Hr Hz Hn Hv.
  - exists 0%nat. split; [|done]. apply loops_end. unfold getb, bind, Prelude.gets. cbn [length] in Hz. rewrite Z.add_0_r in Hz. by rewrite Hz.
  - cbn [length] in Hr, Hz. rewrite rd_S in Hr. injection Hr as Eb Hr.
    assert (Hge : n * 10 + byte.unsigned b - 48 <= digits_value (n * 10 + byte.unsigned b - 48) bs).
    { apply digits_value_ge; [|done]. unfold is_digit in Hb. lia. }
    assert (Hd : 48 <= byte.unsigned b <= 57) by (unfold is_digit in Hb; lia).
    rewrite digits_value_cons in Hv |- *.
    destruct (IH (s + 1) (n * 10 + byte.unsigned b - 48)) as (j & L & Hj); [done| |lia|lia|].
    { rewrite <- Hz. do 3 f_equal. lia. }
    exists (S j). split; [|cbn [length]; lia]. eapply loops_more; [|exact L]. unfold getb, bind, Prelude.gets.
    rewrite Eb, Hb, i32_small by lia. done.
Qed.

(** Printf() and atoi() agree on numbers: what %d prints for a number that
    is not negative is its decimal numeral, printed without a write outside
    buf[16], and atoi() of that text, followed by anything but a digit, is the
    number again. *)
Theorem printint_atoi `{Streams} fd x u :
  fd = 1 \/ fd = 2 -> 0 <= x < 2 ^ 31 ->
  exists o, printint fd x 10 true u = Ok tt (set_u_os o u) /\ written o = written (u_os u) ++ on fd (lit (pretty x)) /\
  forall m s, rd m s (length (lit (pretty x))) = lit (pretty x) ->
    is_digit (byte.unsigned (m (s + Z.of_nat (length (lit (pretty x)))))) = false -> atoi s m = Ok x m.
Proof.
  intros Hfd Hx. destruct (putcs_eq fd (numeral x) u Hfd) as (o & E & W & _). exists o.
  split_and!; [by rewrite printint_numeral by lia|done|]. intros m s Hr Hz. destruct (numeral_value x) as [Hv Hd]; [lia|].
  destruct (atoi_value m (numeral x) s 0) as (j & L & Hj); [done|done|done|lia|lia|]. rewrite Hv in L.
  pose proof (length_numeral x ltac:(lia)). apply (loops_loop _ j); [exact L|lia].
Qed.

Lemma printint_atoi_witness :
  exists o, printint 1 2025 10 true (tiny_start [] [] []) = Ok tt (set_u_os o (tiny_start [] [] [])) /\
    written o = on 1 (lit "2025") /\ atoi 0 (wr (fun _ => Byte.x00) 0 (lit "2025")) = Ok 2025 (wr (fun _ => Byte.x00) 0 (lit "2025")).
Proof.
  destruct (printint_atoi 1 2025 (tiny_start [] [] [])) as (o & E & W & A); [by left|lia|].
  exists o. split_and!; [exact E|exact W|]. apply A; by vm_compute.
Defined.
