(* ===== verification/Grep.v ===== *)
(** user/grep.c: the regular expression matcher, and the loop that applies it
    to the lines of a file. *)

From stdpp Require Import base tactics list strings.
From Stdlib Require Import ZArith Lia FunctionalExtensionality.
From coqutil Require Import Byte.
From S2P Require Import Prelude Mem StringC User Ulib.

Local Open Scope Z_scope.
Local Open Scope kern_scope.

(** ** The matcher *)

Definition c_star : byte := Byte.x2a.
Definition c_dot : byte := Byte.x2e.
Definition c_caret : byte := Byte.x5e.
Definition c_dollar : byte := Byte.x24.

(** A pointer into a string is the rest of the string; its end is the NUL.
    matchstar(c, re, text), where [here] is matchhere(re, -) *)
Fixpoint matchstar (c : byte) (here : list byte -> bool) (text : list byte) : bool :=
  here text ||
  match text with
  | [] => false
  | t :: text => (beq t c || beq c c_dot) && matchstar c here text
  end.

Fixpoint matchhere (re text : list byte) : bool :=
  match re with
  | [] => true
  | c :: re1 =>
      match re1 with
      | b :: re2 =>
          if beq b c_star then matchstar c (matchhere re2) text
          else
            match text with
            | [] => false
            | t :: text => (beq c c_dot || beq c t) && matchhere re1 text
            end
      | [] =>
          if beq c c_dollar then match text with [] => true | _ :: _ => false end
          else
            match text with
            | [] => false
            | t :: text => (beq c c_dot || beq c t) && matchhere re1 text
            end
      end
  end.

(** The do loop of match() *)
Fixpoint match_from (re text : list byte) : bool :=
  matchhere re text || match text with [] => false | _ :: text => match_from re text end.

Definition match_ (re text : list byte) : bool :=
  match re with
  | c :: re1 => if beq c c_caret then matchhere re1 text else match_from re text
  | [] => match_from re text
  end.

(** ** What a pattern means *)

Inductive item := One (c : byte) | Star (c : byte).

(** The items of a pattern, and whether it ends with an anchor. *)
Fixpoint parse (re : list byte) : list item * bool :=
  match re with
  | [] => ([], false)
  | c :: re1 =>
      match re1 with
      | [] => if beq c c_dollar then ([], true) else ([One c], false)
      | b :: re2 =>
          if beq b c_star then (Star c :: (parse re2).1, (parse re2).2)
          else (One c :: (parse re1).1, (parse re1).2)
      end
  end.

Definition accepts (c t : byte) : Prop := c = c_dot \/ c = t.

Inductive matches : list item -> list byte -> Prop :=
| matches_nil : matches [] []
| matches_one c t l s : accepts c t -> matches l s -> matches (One c :: l) (t :: s)
| matches_star c r l s : Forall (accepts c) r -> matches l s -> matches (Star c :: l) (r ++ s).

(** [text] has a prefix that matches, which is all of it if [anchored]. *)
Definition prefix_matches (p : list item * bool) (text : list byte) : Prop :=
  exists s post, text = s ++ post /\ matches p.1 s /\ (p.2 = true -> post = []).

Definition pattern_matches (re text : list byte) : Prop :=
  match re with
  | c :: re1 =>
      if beq c c_caret then prefix_matches (parse re1) text
      else exists pre rest, text = pre ++ rest /\ prefix_matches (parse re) rest
  | [] => True
  end.

(** ** The matcher is right *)


Lemma beq_accepts c t : beq c c_dot || beq c t = true <-> accepts c t.
Proof. unfold accepts. by rewrite orb_true_iff, !beq_true. Qed.

Lemma prefix_nil b text : prefix_matches ([], b) text <-> (b = true -> text = []).
Proof.
  split.
  - intros (s & post & -> & Hm & Hp). inversion Hm; subst. exact Hp.
  - intros Hb. exists [], text. split; [done|]. split; [constructor|exact Hb].
Qed.

Lemma prefix_one c p text :
  prefix_matches (One c :: p.1, p.2) text <-> exists t s, text = t :: s /\ accepts c t /\ prefix_matches p s.
Proof.
  split.
  - intros (s & post & -> & Hm & Hp). inversion Hm; subst. eexists _, _. split; [done|]. split; [done|]. by eexists _, _.
  - intros (t & s & -> & Ha & s' & post & -> & Hm & Hp). exists (t :: s'), post. split; [done|]. split; [by constructor|done].
Qed.

Lemma prefix_star c p text :
  prefix_matches (Star c :: p.1, p.2) text <-> exists r s, text = r ++ s /\ Forall (accepts c) r /\ prefix_matches p s.
Proof.
  split.
  - intros (s & post & -> & Hm & Hp). inversion Hm as [|? ? ? ? ?|? r ? s' Hr Hm']; subst.
    exists r, (s' ++ post). split; [by rewrite app_assoc|]. split; [done|]. by exists s', post.
  - intros (r & s & -> & Hr & s' & post & -> & Hm & Hp). exists (r ++ s'), post. split; [by rewrite app_assoc|].
    split; [by constructor|done].
Qed.

Lemma matchstar_iff c here (R : list byte -> Prop) text :
  (forall s, here s = true <-> R s) ->
  matchstar c here text = true <-> exists r s, text = r ++ s /\ Forall (accepts c) r /\ R s.
Proof.
  intros Hh. induction text as [|t text IH]; cbn [matchstar]; rewrite orb_true_iff, Hh.
  - split; [intros [H|?]; [by exists [], []|done]|]. intros (r & s & E & _ & Hs). symmetry in E. apply app_nil in E as [-> ->]. by left.
  - rewrite andb_true_iff, IH, orb_true_iff, !beq_true. split.
    + intros [H|[Ha (r & s & -> & Hr & Hs)]]; [by exists [], (t :: text)|]. exists (t :: r), s. split; [done|]. split; [|done].
      constructor; [|done]. destruct Ha as [-> |?]; [by right|by left].
    + intros (r & s & E & Hr & Hs). destruct r as [|t' r]; [left; by rewrite E|]. injection E as <- ->. right.
      apply Forall_cons in Hr as [Ha Hr]. split; [destruct Ha as [?| ->]; auto|]. by exists r, s.
Qed.

Lemma matchhere_iff re text : matchhere re text = true <-> prefix_matches (parse re) text.
Proof.
  assert (Hone : forall c re1 text, (forall t, matchhere re1 t = true <-> prefix_matches (parse re1) t) ->
    match text with [] => false | t :: text => (beq c c_dot || beq c t) && matchhere re1 text end = true <->
    prefix_matches (One c :: (parse re1).1, (parse re1).2) text).
  { intros c re1 [|t tx] IH; rewrite prefix_one; [split; [done|by intros (? & ? & ? & _)]|].
    rewrite andb_true_iff, beq_accepts, IH. split; [intros []; by eexists _, _|]. by intros (? & ? & [= <- <-] & ? & ?). }
  revert text. induction re as [re IH] using (induction_ltof1 _ length); intros text.
  destruct re as [|c re1]; [cbn [matchhere parse]; rewrite prefix_nil; by split|]. destruct re1 as [|b re2].
  - cbn [matchhere parse]. destruct (beq c c_dollar).
    + rewrite prefix_nil. destruct text; (split; [done|]); intros E; [done|by specialize (E eq_refl)].
    + apply (Hone c []). intros t. cbn [matchhere parse]. rewrite prefix_nil. by split.
  - change (matchhere (c :: b :: re2) text) with (if beq b c_star then matchstar c (matchhere re2) text
      else match text with [] => false | t :: text => (beq c c_dot || beq c t) && matchhere (b :: re2) text end).
    change (parse (c :: b :: re2)) with (if beq b c_star then (Star c :: (parse re2).1, (parse re2).2)
      else (One c :: (parse (b :: re2)).1, (parse (b :: re2)).2)).
    destruct (beq b c_star).
    + rewrite prefix_star. apply matchstar_iff. intros s. apply IH. unfold ltof. simpl. lia.
    + apply Hone. intros t. apply IH. unfold ltof. simpl. lia.
Qed.

Lemma match_from_iff re text :
  match_from re text = true <-> exists pre rest, text = pre ++ rest /\ prefix_matches (parse re) rest.
Proof.
  induction text as [|t text IH]; cbn [match_from]; rewrite orb_true_iff, matchhere_iff.
  - split; [intros [Hm|?]; [by exists [], []|done]|]. intros (pre & rest & E & Hm). symmetry in E. apply app_nil in E as [-> ->]. by left.
  - rewrite IH. split.
    + intros [Hm|(pre & rest & -> & Hm)]; [by exists [], (t :: text)|by exists (t :: pre), rest].
    + intros ([|t' pre] & rest & E & Hm); [left; by rewrite E|]. injection E as <- ->. right. by exists pre, rest.
Qed.

(** C39: The matcher of grep decides the meaning of a pattern.  match() returns
    1 exactly when some part of the text is a sequence of characters the items
    of the pattern accept, one for each plain item and any number for each
    starred one, where the part starts at the beginning of the text after a
    leading ^ and ends at its end before a final $.  It always terminates. *)
Theorem match_equiv re text : match_ re text = true <-> pattern_matches re text.
Proof.
  destruct re as [|c re1].
  - cbn [match_ pattern_matches]. rewrite match_from_iff. split; [done|]. intros _. exists text, []. rewrite app_nil_r.
    split; [done|]. cbn [parse]. by rewrite prefix_nil.
  - cbn [match_ pattern_matches]. destruct (beq c c_caret); [apply matchhere_iff|apply match_from_iff].
Qed.

(** ** The loop over lines *)

Section Grep.
Context `{Unix}.

Definition BUFSIZE : Z := 1024.

(** while((q = strchr(p, '\n')) != 0): one line, then the rest of the buffer
    from p on *)
Definition grep_step (pattern : list byte) (p : Z) : M user (Z + Z) :=
  let* q := zoom (strchr p newline) in
  if negb (q =? 0) then
    zoom (putb q 0) ;;;
    let* text := zoom (cstring p) in
    (if match_ pattern text then
       zoom (putb q newline) ;;;
       let* _ := write 1 p (q + 1 - p) in
       ret tt
     else ret tt) ;;;
    ret (inl (q + 1))
  else ret (inr p).

Definition grep_lines (pattern : list byte) (p : Z) : M user Z := loop (grep_step pattern) p.

Definition grep (buf : Z) (pattern : list byte) (fd : Z) : M user unit :=
  loop (fun m =>
    let* n := read fd (buf + m) (BUFSIZE - m - 1) in
    if 0 <? n then
      let m := i32 (m + n) in
      zoom (putb (buf + m) 0) ;;;
      let* p := grep_lines pattern buf in
      if 0 <? m then
        let m := i32 (m - (p - buf)) in
        zoom (memmove buf p m) ;;;
        ret (inl m)
      else ret (inl m)
    else ret (inr tt)) 0.

(** ** What grep prints *)

(** The complete lines of a file whose first line has begun with [cur]. *)
Fixpoint lines (cur F : list byte) : list (list byte) :=
  match F with
  | [] => []
  | b :: F => if beq b c_newline then cur :: lines [] F else lines (cur ++ [b]) F
  end.

Definition select (pattern : list byte) (ls : list (list byte)) : list byte :=
  concat ((fun l => if match_ pattern l then l ++ [c_newline] else []) <$> ls).

Definition no_nul (l : list byte) : Prop := Forall (fun b => byte.unsigned b <> 0) l.

Lemma lines_app cur l F : c_newline ∉ l -> lines cur (l ++ F) = lines (cur ++ l) F.
Proof.
  revert cur. induction l as [|b l IH]; intros cur Hn; [by rewrite app_nil_r|]. apply not_elem_of_cons in Hn as [Hb Hn].
  cbn [app lines]. destruct (beq b c_newline) eqn:E; [by apply beq_true in E|]. by rewrite IH, <- app_assoc.
Qed.

Lemma lines_line cur l F : c_newline ∉ l -> lines cur (l ++ c_newline :: F) = (cur ++ l) :: lines [] F.
Proof. intros Hn. by rewrite lines_app. Qed.

Lemma lines_none cur l : c_newline ∉ l -> lines cur l = [].
Proof. intros Hn. rewrite <- (app_nil_r l). by rewrite lines_app. Qed.

Lemma select_app pattern ls ls' : select pattern (ls ++ ls') = select pattern ls ++ select pattern ls'.
Proof. unfold select. by rewrite fmap_app, concat_app. Qed.

Lemma first_line R : c_newline ∉ R \/ exists l R2, R = l ++ c_newline :: R2 /\ c_newline ∉ l.
Proof.
  destruct (decide (c_newline ∈ R)) as [Hin|]; [right|by left]. apply list_elem_of_split_l in Hin as (l & R2 & -> & Hn). eauto.
Qed.

Context `{!Streams}.

(** The memory from [p] on holds the string [R]. *)
Definition holds_str (m : mem) (p : Z) (R : list byte) : Prop :=
  rd m p (length R) = R /\ byte.unsigned (m (p + Z.of_nat (length R))) = 0 /\ no_nul R.

Lemma holds_nth m p R k : holds_str m p R -> (k < length R)%nat -> m (p + Z.of_nat k) = nth k R Byte.x00 /\ byte.unsigned (m (p + Z.of_nat k)) <> 0.
Proof.
  intros (Hr & _ & Hn) Hk. assert (E : m (p + Z.of_nat k) = nth k R Byte.x00) by (rewrite <- (rd_nth m p (length R)) by done; by rewrite Hr).
  split; [done|]. rewrite E. apply (Forall_nth (fun b => byte.unsigned b <> 0) Byte.x00 R); [exact Hn|done].
Qed.

Lemma holds_split m p l R2 :
  holds_str m p (l ++ c_newline :: R2) ->
  rd m p (length l) = l /\ no_nul l /\ m (p + Z.of_nat (length l)) = c_newline /\ holds_str m (p + Z.of_nat (length l) + 1) R2.
Proof.
  intros (Hr & Hz & Hn). apply Forall_app in Hn as [Hl Hn]. apply Forall_cons in Hn as [_ Hn].
  rewrite length_app in Hr. cbn [length] in Hr. rewrite rd_app, rd_S in Hr. apply app_inj_1 in Hr as [Hr1 Hr2]; [|apply length_rd].
  injection Hr2 as Hnl Hr2. split_and!; [done|done|done|]. split_and!; [done| |done].
  rewrite <- Hz. do 2 f_equal. rewrite length_app. cbn [length]. lia.
Qed.

Lemma holds_ext m m' p R : (forall y, p <= y -> m' y = m y) -> holds_str m p R -> holds_str m' p R.
Proof.
  intros E (Hr & Hz & Hn). split_and!; [|by rewrite E by lia|done]. rewrite <- Hr at 2. apply rd_ext. intros y Hy. apply E. lia.
Qed.

Lemma zoom_mem {A} (f : M mem A) a m m' o : f m = Ok a m' -> zoom f (mkuser m o) = Ok a (mkuser m' o).
Proof. intros E. unfold zoom. cbn [lget user_mem u_mem]. by rewrite E. Qed.

Lemma newline_code : byte.unsigned c_newline = newline.
Proof. done. Qed.

Lemma not_newline l k : c_newline ∉ l -> (k < length l)%nat -> byte.unsigned (nth k l Byte.x00) <> newline.
Proof.
  intros Hn Hk E. rewrite <- newline_code in E. apply byte.unsigned_inj in E. apply Hn. rewrite <- E. apply list_elem_of_In, nth_In. done.
Qed.

(** One line. *)
Lemma grep_line pattern p l R2 m o :
  holds_str m p (l ++ c_newline :: R2) -> c_newline ∉ l -> 0 < p -> Z.of_nat (length l) < 2 ^ 31 ->
  exists m' o',
    grep_step pattern p (mkuser m o) = Ok (inl (p + Z.of_nat (length l) + 1)) (mkuser m' o') /\
    holds_str m' (p + Z.of_nat (length l) + 1) R2 /\
    written o' = written o ++ on 1 (select pattern [l]) /\ (forall fd, rest fd o' = rest fd o) /\ contents o' = contents o /\
    (forall y, ~ (p <= y <= p + Z.of_nat (length l)) -> m' y = m y).
Proof.
  intros Hh Hn Hp Hl. destruct (holds_split _ _ _ _ Hh) as (Hr & Hnl & Hq & H2). set (n := Z.of_nat (length l)) in *. set (q := p + n) in *.
  assert (Es : strchr p newline m = Ok q m).
  { apply (strchr_eq m p newline n false); [lia|done| |fold q; by rewrite Hq]. intros k Hk. rewrite <- (Z2Nat.id k) by lia.
    destruct (holds_nth _ _ _ (Z.to_nat k) Hh) as [E Hnz]; [rewrite length_app; lia|]. split; [done|]. rewrite E, app_nth1 by lia. apply not_newline; [done|lia]. }
  set (m1 := upd m q (byte.of_Z 0)).
  assert (Ec : cstring p m1 = Ok l m1).
  { apply cstring_eq; [|done|by unfold m1, upd; rewrite Z.eqb_refl|done]. rewrite <- Hr at 2. apply rd_ext. intros y Hy.
    unfold m1, upd. rewrite (proj2 (Z.eqb_neq _ _)); [done|lia]. }
  assert (H1 : forall y, y <> q -> m1 y = m y) by (intros y Hy; unfold m1, upd; by rewrite (proj2 (Z.eqb_neq _ _) Hy)).
  unfold grep_step. rewrite (bind_run _ _ _ _ _ (zoom_mem _ _ _ _ o Es)), (proj2 (Z.eqb_neq q 0)) by lia. cbn [negb].
  rewrite (bind_run _ _ tt _ (mkuser m1 o)) by done. rewrite (bind_run _ _ _ _ _ (zoom_mem _ _ _ _ o Ec)).
  unfold select. cbn [fmap list_fmap concat]. rewrite app_nil_r. destruct (match_ pattern l).
  - set (m2 := upd m1 q (byte.of_Z newline)).
    assert (E2 : m2 = m).
    { extensionality y. unfold m2, upd at 1. destruct (Z.eqb_spec y q) as [Hy|Hy]; [by rewrite Hy, Hq|by apply H1]. }
    assert (Er : rd m p (Z.to_nat (q + 1 - p)) = l ++ [c_newline]).
    { replace (Z.to_nat (q + 1 - p)) with (length l + 1)%nat by lia. rewrite rd_app, Hr, rd_S. fold n. fold q. by rewrite Hq. }
    destruct (write_all 1 (l ++ [c_newline]) o) as (o' & Ew & Ho & Hrest & Hcon); [by left|]. exists m, o'. split; [|by split_and!].
    unfold bind at 1 2. change (zoom (putb q newline) (mkuser m1 o)) with (Ok (S := user) tt (mkuser m2 o)). cbv iota beta. rewrite E2.
    unfold write, bind, gets, sys, ret. cbn [u_mem u_os]. rewrite Er, Ew. done.
  - exists m1, o. split; [done|]. split_and!; [|by rewrite app_nil_r|done|done|intros y Hy; apply H1; lia].
    eapply holds_ext; [|exact H2]. intros y Hy. apply H1. lia.
Qed.

(** All complete lines in the buffer; [T] is what is left of the last one. *)
Lemma grep_lines_ok pattern R p m o :
  holds_str m p R -> 0 < p -> Z.of_nat (length R) < 2 ^ 31 ->
  exists T m' o', grep_lines pattern p (mkuser m o) = Ok (p + Z.of_nat (length R) - Z.of_nat (length T)) (mkuser m' o') /\
    (length T <= length R)%nat /\ (c_newline ∉ T) /\ no_nul T /\ rd m' (p + Z.of_nat (length R) - Z.of_nat (length T)) (length T) = T /\
    written o' = written o ++ on 1 (select pattern (lines [] R)) /\ (forall fd, rest fd o' = rest fd o) /\ contents o' = contents o /\
    (forall F, lines [] (R ++ F) = lines [] R ++ lines T F) /\
    (forall y, ~ (p <= y < p + Z.of_nat (length R)) -> m' y = m y).
Proof.
  intros Hh Hp Hl. unfold grep_lines.
  enough (G : exists T m' o' j, loops (grep_step pattern) j p (mkuser m o) (p + Z.of_nat (length R) - Z.of_nat (length T)) (mkuser m' o') /\ (j <= length R)%nat /\
    (length T <= length R)%nat /\ (c_newline ∉ T) /\ no_nul T /\ rd m' (p + Z.of_nat (length R) - Z.of_nat (length T)) (length T) = T /\
    written o' = written o ++ on 1 (select pattern (lines [] R)) /\ (forall fd, rest fd o' = rest fd o) /\ contents o' = contents o /\
    (forall F, lines [] (R ++ F) = lines [] R ++ lines T F) /\
    (forall y, ~ (p <= y < p + Z.of_nat (length R)) -> m' y = m y)).
  { destruct G as (T & m' & o' & j & L & Hj & G). exists T, m', o'. split; [|exact G]. apply (loops_loop _ j); [exact L|lia]. }
  revert p m o Hh Hp Hl. induction R as [R IH] using (induction_ltof1 _ length); intros p m o Hh Hp Hl.
  destruct (first_line R) as [Hn|(l & R2 & -> & Hn)].
  - exists R, m, o, 0%nat. replace (p + Z.of_nat (length R) - Z.of_nat (length R)) with p by lia. pose proof Hh as (Hr & Hz & Hnn).
    rewrite (lines_none [] R) by done. split; [|split_and!; try done; [lia|by rewrite app_nil_r|intros F; by rewrite lines_app]].
    apply loops_end. unfold grep_step. assert (Es : strchr p newline m = Ok 0 m).
    { apply (strchr_eq m p newline (Z.of_nat (length R)) true); [lia|done| |done]. intros k Hk. rewrite <- (Z2Nat.id k) by lia.
      destruct (holds_nth _ _ _ (Z.to_nat k) Hh) as [E Hnz]; [lia|]. split; [done|]. rewrite E. apply not_newline; [done|lia]. }
    by rewrite (bind_run _ _ _ _ _ (zoom_mem _ _ _ _ o Es)).
  - rewrite length_app in Hl |- *. cbn [length] in Hl |- *. destruct (grep_line pattern p l R2 m o Hh Hn Hp ltac:(lia)) as (m1 & o1 & E1 & H1 & O1 & Hr1 & Hc1 & M1).
    destruct (IH R2) with (p := p + Z.of_nat (length l) + 1) (m := m1) (o := o1) as (T & m' & o' & j & L & Hj & HT & HnT & HzT & HrT & Ho & Hrest & Hcon & Hlin & Mm);
      [unfold ltof; rewrite length_app; simpl; lia|done|lia|lia|].
    replace (p + Z.of_nat (length l) + 1 + Z.of_nat (length R2)) with (p + Z.of_nat (length l + S (length R2))) in L, HrT by lia.
    exists T, m', o', (S j). split; [by eapply loops_more; [exact E1|exact L]|]. split_and!; [lia|lia|done|done|done| |intros fd; by rewrite Hrest, Hr1|by rewrite Hcon| |intros y Hy; rewrite Mm, M1 by lia; done].
    + rewrite Ho, O1, lines_line by done. by rewrite <- app_assoc, <- on_app, <- select_app.
    + intros F. rewrite <- app_assoc. cbn [app]. rewrite !lines_line by done. cbn [app]. by rewrite Hlin.
Qed.

(** read() appends to the buffer. *)
Lemma holds_read m buf T B :
  rd m buf (length T) = T -> no_nul (T ++ B) ->
  holds_str (upd (wr m (buf + Z.of_nat (length T)) B) (buf + Z.of_nat (length (T ++ B))) (byte.of_Z 0)) buf (T ++ B).
Proof.
  intros Hr Hn. split_and!; [|unfold upd; by rewrite Z.eqb_refl|done].
  transitivity (rd (wr m (buf + Z.of_nat (length T)) B) buf (length (T ++ B))).
  { apply rd_ext. intros y Hy. unfold upd. by rewrite (proj2 (Z.eqb_neq _ _)) by lia. }
  rewrite length_app, rd_app, rd_wr_same. f_equal. transitivity (rd m buf (length T)); [|exact Hr]. apply rd_ext. intros y Hy. apply wr_out. lia.
Qed.

(** For a file without NUL bytes whose lines fit into the buffer, grep() ends
    and has written exactly the complete lines that match the pattern; outside
    of the buffer it leaves memory alone. *)
Lemma grep_ok buf pattern fd u :
  let F := rest fd (u_os u) in
  0 < buf -> no_nul F -> Z.of_nat (length F) < 2 ^ 63 -> Forall (fun l => Z.of_nat (length l) < BUFSIZE - 1) (lines [] F) ->
  exists mm o, grep buf pattern fd u = Ok tt (mkuser mm o) /\ contents o = contents (u_os u) /\
    written o = written (u_os u) ++ on 1 (select pattern (lines [] F)) /\ (forall y, ~ (buf <= y < buf + BUFSIZE) -> mm y = u_mem u y).
Proof.
  intros F Hbuf HnF HlF HlinF.
  enough (W : wp (grep buf pattern fd) (fun _ u' => contents (u_os u') = contents (u_os u) /\ (forall y, ~ (buf <= y < buf + BUFSIZE) -> u_mem u' y = u_mem u y) /\ written (u_os u') = written (u_os u) ++ on 1 (select pattern (lines [] F))) u)
    by (apply wp_elim in W as ([] & [mm o] & E & ? & ? & ?); exists mm, o; by split_and!).
  apply (wp_loop _ (fun n m u' => exists T, m = Z.of_nat (length T) /\ m <= BUFSIZE - 1 /\ rd (u_mem u') buf (length T) = T /\
    (c_newline ∉ T) /\ no_nul (T ++ rest fd (u_os u')) /\ n = Z.of_nat (length (rest fd (u_os u'))) /\ contents (u_os u') = contents (u_os u) /\
    (forall y, ~ (buf <= y < buf + BUFSIZE) -> u_mem u' y = u_mem u y) /\ Forall (fun l => Z.of_nat (length l) < BUFSIZE - 1) (lines T (rest fd (u_os u'))) /\
    written (u_os u') ++ on 1 (select pattern (lines T (rest fd (u_os u')))) = written (u_os u) ++ on 1 (select pattern (lines [] F))))
    with (n := Z.of_nat (length F)).
  - intros n m [mm o] Hn0 (T & -> & Hm & Hr & HnT & Hnn & -> & Hcon & HM & Hlin & Hout). cbn [u_mem u_os] in *.
    unfold BUFSIZE in *. destruct (decide (Z.of_nat (length T) = 1023)) as [Hfull|Hroom].
    + (* no room: the first line is too long *)
      assert (El : lines T (rest fd o) = []).
      { destruct (first_line (rest fd o)) as [Hno|(l & R2 & E & Hl)]; [by apply lines_none|]. rewrite E, lines_line in Hlin by done.
        apply Forall_cons in Hlin as [Hlen _]. rewrite length_app in Hlen. lia. }
      rewrite El, app_nil_r in Hout. apply wp_bind. eapply wp_Ok.
      { unfold read. rewrite Hfull. change (1024 - 1023 - 1) with 0. rewrite read_none. reflexivity. }
      rewrite wr_nil. cbn [Z.ltb Z.compare]. cbv iota. by wp_step.
    + destruct (read_some fd (1024 - Z.of_nat (length T) - 1) o ltac:(lia)) as (k & o1 & E & Hk & Hkl & Hk0 & Hrest & Ho1 & Hc1).
      apply wp_bind. eapply wp_Ok; [unfold read; cbn [u_os u_mem]; rewrite E; reflexivity|]. destruct (decide (k = 0)%nat) as [->|Hkz].
      { change (0 <? Z.of_nat 0) with false. cbv iota. wp_step. cbn [u_os]. rewrite Ho1. rewrite Hk0 in Hout by done. rewrite app_nil_r in Hout. cbn [u_mem take].
        rewrite wr_nil. by rewrite Hc1. }
      rewrite (proj2 (Z.ltb_lt _ _)) by lia. rewrite i32_small by lia. set (B := take k (rest fd o)) in *.
      assert (HB : length B = k) by (unfold B; rewrite length_take; lia).
      assert (HTB : Z.of_nat (length T) + Z.of_nat k = Z.of_nat (length (T ++ B))) by (rewrite length_app; lia). rewrite HTB.
      assert (Hsplit : rest fd o = B ++ rest fd o1) by (rewrite Hrest; symmetry; apply take_drop).
      rewrite Hsplit, app_assoc in Hnn. pose proof Hnn as HnnTB. apply Forall_app in HnnTB as [HnTB Hn1].
      assert (Hh := holds_read mm buf T B Hr HnTB).
      apply wp_bind. eapply wp_Ok; [reflexivity|].
      destruct (grep_lines_ok pattern (T ++ B) buf _ o1 Hh Hbuf ltac:(lia)) as (T' & m2 & o2 & E2 & HT' & HnT' & HzT' & Hr2 & Ho2 & Hrest2 & Hc2 & Hlin2 & M2).
      apply wp_bind. eapply wp_Ok; [exact E2|]. rewrite (proj2 (Z.ltb_lt 0 _)) by lia.
      replace (Z.of_nat (length (T ++ B)) - (buf + Z.of_nat (length (T ++ B)) - Z.of_nat (length T') - buf)) with (Z.of_nat (length T')) by lia.
      rewrite i32_small by lia. apply wp_bind. eapply wp_Ok; [apply zoom_mem, memmove_copy; lia|]. wp_step.
      exists (Z.of_nat (length (rest fd o2))). rewrite Hrest2. split; [rewrite Hrest, length_drop; lia|]. exists T'. cbn [u_mem u_os].
      assert (Elin : lines T (rest fd o) = lines [] (T ++ B) ++ lines T' (rest fd o1)).
      { rewrite Hsplit, <- Hlin2, <- app_assoc, (lines_app [] T) by done. done. }
      rewrite Hrest2. rewrite Elin in Hlin, Hout. split_and!; [done|lia| |done|by apply Forall_app|done|by rewrite Hc2, Hc1| |by apply Forall_app in Hlin as []|].
      * etransitivity; [|exact Hr2]. unfold rd. apply map_ext_in. intros i Hi%in_seq. rewrite copy_in by lia. f_equal. lia.
      * intros y Hy. rewrite copy_out, M2 by lia. unfold upd. rewrite (proj2 (Z.eqb_neq _ _)) by lia. rewrite wr_out by lia. by apply HM.
      * rewrite Ho2, Ho1, <- Hout, <- app_assoc. f_equal. by rewrite select_app, on_app.
  - lia.
  - exists []. cbn [length app]. split_and!; [done|unfold BUFSIZE; lia|done|apply not_elem_of_nil|done|done|done|done|done|done].
Qed.
End Grep.
