(* ===== verification/Progs.v ===== *)
(** The user programs cat, wc, echo, kill, ln, mkdir, rm, ls and grep, and what
    cat, wc and echo print.

    argv[] is a list of pointers to strings in the program's memory; a static
    or local array is given by its address.  main() ends with exit(), so its
    outcome is the exit status. *)

From stdpp Require Import base tactics list strings pretty.
From Stdlib Require Import ZArith Lia.
From coqutil Require Import Byte Word.LittleEndianList.
From S2P Require Import Prelude Mem StringC User Ulib Uprintf Grep.

Local Open Scope Z_scope.
Local Open Scope kern_scope.

(** ** Definitions *)

Definition DIRSIZ : Z := 14.
Definition T_DIR : Z := 1.
Definition T_FILE : Z := 2.
Definition slash : Z := 47.

(** A line of text: a constant whose \n is written out. *)
Definition line (s : string) : list byte := lit s ++ [c_newline].

Section Progs.
Context `{Unix}.

(** A statement in a function that may call exit(). *)
Definition doP {A} (m : M user A) (k : P unit) : P unit := let! _ := continue m in k.

Definition argstring (a : Z) : M user (list byte) := zoom (cstring a).

(** *** cat.c *)

Definition cat_step (buf fd : Z) (_ : unit) : M user (unit + (Z + Z)) :=
  let* n := read fd buf 512 in
  if 0 <? n then
    let* w := write 1 buf n in
    if negb (w =? n) then
      fprintf 2 (line "cat: write error") [] ;;;
      ret (inr (inl 1))
    else ret (inl tt)
  else ret (inr (inr n)).

Definition cat (buf fd : Z) : P unit :=
  let! n := loop (cat_step buf fd) tt in
  if n <? 0 then
    doP (fprintf 2 (line "cat: read error") []) (exit 1)
  else continue (ret tt).

Definition cat_main (buf : Z) (argv : list Z) : P unit :=
  if Z.of_nat (length argv) <=? 1 then
    let! _ := cat buf 0 in
    exit 0
  else
    let! _ := for_args (drop 1 argv) (fun a =>
      let! path := continue (argstring a) in
      let! fd := continue (open path 0) in
      if fd <? 0 then
        doP (fprintf 2 (line "cat: cannot open %s") [AStr path]) (exit 1)
      else
        let! _ := cat buf fd in
        doP (close fd) (continue (ret tt))) in
    exit 0.

(** *** wc.c *)

Definition blanks : list byte := [Byte.x20; Byte.x0d; Byte.x09; Byte.x0a; Byte.x0b].

(** l, w, c and inword *)
Record counts := mkcounts { nl : Z; nw : Z; nc : Z; inword : bool }.

(** One round of the loop over the buffer. *)
Definition count1 (b : byte) (k : counts) : counts :=
  let k := mkcounts (nl k) (nw k) (i32 (nc k + 1)) (inword k) in
  let k := if beq b c_newline then mkcounts (i32 (nl k + 1)) (nw k) (nc k) (inword k) else k in
  if occurs blanks b then mkcounts (nl k) (nw k) (nc k) false
  else if negb (inword k) then mkcounts (nl k) (i32 (nw k + 1)) (nc k) true
  else k.

Definition wc_for (buf n : Z) (k : counts) : M user counts :=
  loop (fun '(i, k) =>
    if i <? n then
      let* m := gets u_mem in
      ret (inl (i + 1, count1 (m (buf + i)) k))
    else ret (inr k)) (0, k).

Definition wc_step (buf fd : Z) (k : counts) : M user (counts + (Z * counts)) :=
  let* n := read fd buf 512 in
  if 0 <? n then
    let* k := wc_for buf n k in
    ret (inl k)
  else ret (inr (n, k)).

Definition wc (buf fd : Z) (name : list byte) : P unit :=
  let! r := continue (loop (wc_step buf fd) (mkcounts 0 0 0 false)) in
  let '(n, k) := r in
  if n <? 0 then
    doP (printf (line "wc: read error") []) (exit 1)
  else
    continue (printf (line "%d %d %d %s") [AWord (nl k); AWord (nw k); AWord (nc k); AStr name]).

Definition wc_main (buf : Z) (argv : list Z) : P unit :=
  if Z.of_nat (length argv) <=? 1 then
    let! _ := wc buf 0 [] in
    exit 0
  else
    let! _ := for_args (drop 1 argv) (fun a =>
      let! path := continue (argstring a) in
      let! fd := continue (open path 0) in
      if fd <? 0 then
        doP (printf (line "wc: cannot open %s") [AStr path]) (exit 1)
      else
        let! _ := wc buf fd path in
        doP (close fd) (continue (ret tt))) in
    exit 0.

(** *** echo.c *)

Fixpoint echo_args (args : list Z) : M user unit :=
  match args with
  | [] => ret tt
  | a :: rest =>
      let* n := zoom (strlen a) in
      write 1 a n ;;;
      (match rest with
       | _ :: _ => write_bytes 1 (lit " ")
       | [] => write_bytes 1 [c_newline]
       end) ;;;
      echo_args rest
  end.

Definition echo_main (argv : list Z) : P unit := doP (echo_args (drop 1 argv)) (exit 0).

(** *** kill.c, ln.c, mkdir.c, rm.c *)

Definition kill_main (argv : list Z) : P unit :=
  if Z.of_nat (length argv) <? 2 then
    doP (fprintf 2 (line "usage: kill pid...") []) (exit 1)
  else
    let! _ := for_args (drop 1 argv) (fun a =>
      let! pid := continue (zoom (atoi a)) in
      doP (kill pid) (continue (ret tt))) in
    exit 0.

Definition ln_main (argv : list Z) : P unit :=
  match argv with
  | [_; a1; a2] =>
      let! old := continue (argstring a1) in
      let! new := continue (argstring a2) in
      let! r := continue (link old new) in
      if r <? 0 then
        doP (fprintf 2 (line "link %s %s: failed") [AStr old; AStr new]) (exit 0)
      else exit 0
  | _ => doP (fprintf 2 (line "Usage: ln old new") []) (exit 1)
  end.

(** for(i = 1; i < argc; i++) with a break at the first call that fails *)
Fixpoint each_path (call : list byte -> M user Z) (msg : list byte) (args : list Z) : M user unit :=
  match args with
  | [] => ret tt
  | a :: args =>
      let* path := argstring a in
      let* r := call path in
      if r <? 0 then fprintf 2 msg [AStr path] else each_path call msg args
  end.

Definition mkdir_main (argv : list Z) : P unit :=
  if Z.of_nat (length argv) <? 2 then
    doP (fprintf 2 (line "Usage: mkdir files...") []) (exit 1)
  else doP (each_path mkdir (line "mkdir: %s failed to create") (drop 1 argv)) (exit 0).

Definition rm_main (argv : list Z) : P unit :=
  if Z.of_nat (length argv) <? 2 then
    doP (fprintf 2 (line "Usage: rm files...") []) (exit 1)
  else doP (each_path unlink (line "rm: %s failed to delete") (drop 1 argv)) (exit 0).

(** *** grep.c: main() *)

Definition grep_main (buf : Z) (argv : list Z) : P unit :=
  match argv with
  | [] | [_] => doP (fprintf 2 (line "usage: grep pattern [file ...]") []) (exit 1)
  | _ :: pat :: files =>
      let! pattern := continue (argstring pat) in
      match files with
      | [] => doP (grep buf pattern 0) (exit 0)
      | _ :: _ =>
          let! _ := for_args files (fun a =>
            let! path := continue (argstring a) in
            let! fd := continue (open path 0) in
            if fd <? 0 then
              doP (printf (line "grep: cannot open %s") [AStr path]) (exit 1)
            else doP (grep buf pattern fd) (doP (close fd) (continue (ret tt)))) in
          exit 0
      end
  end.

(** *** ls.c *)

(** The static buf[] of fmtname() is at [sbuf]. *)
Definition fmtname (sbuf path : Z) : M mem Z :=
  let* n := strlen path in
  let* p := loop (fun p =>
    if path <=? p then
      let* b := getb p in
      if negb (b =? slash) then ret (inl (p - 1)) else ret (inr p)
    else ret (inr p)) (path + n) in
  let p := p + 1 in
  let* n := strlen p in
  if DIRSIZ <=? n then ret p
  else
    memmove sbuf p n ;;;
    memset (sbuf + n) 32 (DIRSIZ - n) ;;;
    ret sbuf.

(** The struct stat a successful fstat() has stored. *)
Definition stored (st : option stat) : M user stat :=
  match st with
  | Some st => ret st
  | None => undefined "fstat() stored nothing"
  end.

(** while(read(fd, &de, sizeof(de)) == sizeof(de)), where [de] is the address of
    the struct dirent and [p] points behind the directory's name and slash *)
Definition ls_entry (sbuf buf de fd p : Z) (_ : unit) : M user (unit + unit) :=
  let* r := read fd de 16 in
  if r =? 16 then
    let* m := gets u_mem in
    let inum := le_combine (rd m de 2) in
    if inum =? 0 then ret (inl tt)
    else
      zoom (memmove p (de + 2) DIRSIZ) ;;;
      zoom (putb (p + DIRSIZ) 0) ;;;
      let* path := argstring buf in
      let* s := stat_ path in
      if s.1 <? 0 then
        printf (line "ls: cannot stat %s") [AStr path] ;;;
        ret (inl tt)
      else
        let* st := stored s.2 in
        let* q := zoom (fmtname sbuf buf) in
        let* name := argstring q in
        printf (line "%s %d %d %d") [AStr name; AWord (st_type st); AWord (st_ino st); AWord (st_size st)] ;;;
        ret (inl tt)
  else ret (inr tt).

Definition ls (sbuf buf de path : Z) : M user unit :=
  let* name := argstring path in
  let* fd := open name 0 in
  if fd <? 0 then fprintf 2 (line "ls: cannot open %s") [AStr name]
  else
    let* s := fstat fd in
    if s.1 <? 0 then
      fprintf 2 (line "ls: cannot stat %s") [AStr name] ;;;
      close fd ;;;
      ret tt
    else
      let* st := stored s.2 in
      (if st_type st =? T_FILE then
         let* q := zoom (fmtname sbuf path) in
         let* fname := argstring q in
         printf (line "%s %d %d %l") [AStr fname; AWord (st_type st); AWord (st_ino st); AWord (st_size st)]
       else if st_type st =? T_DIR then
         let* n := zoom (strlen path) in
         if 512 <? n + 1 + DIRSIZ + 1 then printf (line "ls: path too long") []
         else
           zoom (strcpy buf path) ;;;
           let* k := zoom (strlen buf) in
           zoom (putb (buf + k) slash) ;;;
           loop (ls_entry sbuf buf de fd (buf + k + 1)) tt
       else ret tt) ;;;
      close fd ;;;
      ret tt.

(** "." is at address [dot]. *)
Definition ls_main (sbuf buf de dot : Z) (argv : list Z) : P unit :=
  if Z.of_nat (length argv) <? 2 then doP (ls sbuf buf de dot) (exit 0)
  else
    let! _ := for_args (drop 1 argv) (fun a => continue (ls sbuf buf de a)) in
    exit 0.
End Progs.
