(* ===== verification/ProgsOk.v ===== *)
(** What cat, wc, grep and echo print, for every division of the files into
    reads; the error paths included. *)

From stdpp Require Import base tactics list strings pretty.
From Stdlib Require Import ZArith Lia.
From coqutil Require Import Byte.
From S2P Require Import Prelude Mem StringC User Ulib Uprintf Grep Progs.

Local Open Scope Z_scope.
Local Open Scope kern_scope.

(** ** Specifications *)

(** A program that handles one file after the other and stops at the first that
    cannot be opened: its exit status and what it writes.  [fs] are the files,
    [err] the message about a file that cannot be opened, [res] the output for
    a file. *)
Fixpoint each_file (fs : list byte -> option (list byte)) (err : list byte -> list (Z * byte))
    (res : list byte -> list byte -> list byte) (names : list (list byte)) : Z * list (Z * byte) :=
  match names with
  | [] => (0, [])
  | n :: names =>
      match fs n with
      | None => (1, err n)
      | Some F => let r := each_file fs err res names in (r.1, on 1 (res n F) ++ r.2)
      end
  end.

(** The words of a text whose first word has begun with [cur]. *)
Fixpoint fields (cur F : list byte) : list (list byte) :=
  match F with
  | [] => if cur is [] then [] else [cur]
  | b :: F =>
      if occurs blanks b then (if cur is [] then [] else [cur]) ++ fields [] F
      else fields (cur ++ [b]) F
  end.

(** The line wc prints. *)
Definition wc_line (name F : list byte) : list byte :=
  numeral (Z.of_nat (length (filter (fun b => beq b c_newline) F))) ++ lit " " ++
  numeral (Z.of_nat (length (fields [] F))) ++ lit " " ++
  numeral (Z.of_nat (length F)) ++ lit " " ++ name ++ [c_newline].

(** The string [s] is at [a], outside of the buffer. *)
Definition arg_at (buf size : Z) (m : mem) (a : Z) (s : list byte) : Prop :=
  rd m a (length s) = s /\ no_nul s /\ byte.unsigned (m (a + Z.of_nat (length s))) = 0 /\ Z.of_nat (length s) < 2 ^ 31 /\
  (a + Z.of_nat (length s) < buf \/ buf + size <= a).

(** ** Programs over files *)

Section ProgsOk.
Context `{Streams}.

Lemma doP_run {A} (m : M user A) k a u u' : m u = Ok a u' -> doP m k u = k u'.
Proof. intros E. unfold doP. by apply (bindP_run _ _ a), continue_run. Qed.

Lemma arg_at_ext buf size m m' a s :
  (forall y, ~ (buf <= y < buf + size) -> m' y = m y) -> arg_at buf size m a s -> arg_at buf size m' a s.
Proof.
  intros E (Hr & Hn & Hz & Hl & Hd). split_and!; [|done| |done|done].
  - rewrite <- Hr at 2. apply rd_ext. intros y Hy. apply E. lia.
  - rewrite E by lia. done.
Qed.

Lemma argstring_eq buf size u a s : arg_at buf size (u_mem u) a s -> argstring a u = Ok s u.
Proof. intros (Hr & Hn & Hz & Hl & _). destruct u as [m o]. unfold argstring. by apply zoom_mem, cstring_eq. Qed.

(** What a program does with one file: it writes [bs], and changes memory only
    in its buffer. *)
Definition acts (buf size : Z) (bs : list byte) (m : P unit) (u : user) : Prop :=
  exists mm o, m u = Ok (inr tt) (mkuser mm o) /\ written o = written (u_os u) ++ on 1 bs /\ contents o = contents (u_os u) /\
    (forall y, ~ (buf <= y < buf + size) -> mm y = u_mem u y).

(** The body of the loop over the arguments. *)
Definition file_arg (efd : Z) (msg : list byte) (act : Z -> list byte -> P unit) (a : Z) : P unit :=
  let! path := continue (argstring a) in
  let! fd := continue (open path 0) in
  if fd <? 0 then doP (vprintf efd msg [AStr path]) (exit 1)
  else
    let! _ := act fd path in
    doP (close fd) (continue (ret tt)).

Lemma for_files buf size efd msg act err res (ok : list byte -> Prop) names args u :
  efd = 1 \/ efd = 2 -> (forall n, format false msg [AStr n] = Some (err n)) ->
  (forall fd n v, ok (rest fd (u_os v)) -> acts buf size (res n (rest fd (u_os v))) (act fd n) v) ->
  (forall n F, n ∈ names -> contents (u_os u) n = Some F -> ok F) ->
  Forall2 (arg_at buf size (u_mem u)) args names ->
  let r := each_file (contents (u_os u)) (fun n => on efd (err n)) res names in
  exists u', bindP (for_args args (file_arg efd msg act)) (fun _ => exit 0) u = Ok (inl r.1 : Z + unit) u' /\
    written (u_os u') = written (u_os u) ++ r.2.
Proof.
  intros Hefd Hmsg Hact. revert args u. induction names as [|n names IH]; intros args u Hok Hargs.
  { apply Forall2_nil_inv_r in Hargs as ->. exists u. split; [done|]. by rewrite app_nil_r. }
  apply Forall2_cons_inv_r in Hargs as (a & args' & Ha & Hargs & ->). cbn [each_file for_args].
  assert (Ea := argstring_eq _ _ _ _ _ Ha). destruct (open_file n (u_os u)) as (fd & o1 & Eo & Hfd & Wo & Co).
  assert (Eo' : open n 0 u = Ok fd (set_u_os o1 u)) by (unfold open, sys; by rewrite Eo).
  destruct (contents (u_os u) n) as [F|] eqn:EF.
  - destruct Hfd as [Hfd HF]. assert (HokF : ok (rest fd (u_os (set_u_os o1 u)))) by (cbn; rewrite HF; eapply Hok; [by left|done]).
    destruct (Hact fd n (set_u_os o1 u) HokF) as (mm & o2 & E2 & W2 & C2 & M2). cbn [u_os u_mem set_u_os] in *. rewrite HF in W2.
    destruct (close_file fd o2) as (r & o3 & E3 & W3 & C3).
    assert (Hc : contents o3 = contents (u_os u)) by congruence.
    destruct (IH args' (mkuser mm o3)) as (u' & E & W); cbn [u_os u_mem] in *.
    { intros n' F' Hn'. rewrite Hc. apply Hok. by right. }
    { eapply Forall2_impl; [exact Hargs|]. intros a' n'. by apply arg_at_ext. }
    rewrite Hc in E, W. exists u'. split.
    + etransitivity; [|exact E]. apply bindP_eq. rewrite (bindP_run _ _ tt _ (mkuser mm o3)); [reflexivity|]. unfold file_arg.
      rewrite (bindP_run _ _ _ _ _ (continue_run _ _ _ _ Ea)), (bindP_run _ _ _ _ _ (continue_run _ _ _ _ Eo')).
      rewrite (proj2 (Z.ltb_ge fd 0)) by lia. rewrite (bindP_run _ _ _ _ _ E2). erewrite doP_run; [reflexivity|].
      unfold close, sys. cbn [u_os]. rewrite E3. reflexivity.
    + rewrite W, W3, W2, Wo. cbn [snd]. by rewrite <- app_assoc.
  - destruct (prints_vprintf efd false msg [AStr n] (err n) Hefd (Hmsg n) (set_u_os o1 u)) as (o2 & E2 & W2 & _).
    exists (set_u_os o2 (set_u_os o1 u)). split; [apply bindP_exit, bindP_exit|cbn [snd u_os set_u_os] in *; by rewrite W2, Wo].
    unfold file_arg. rewrite (bindP_run _ _ _ _ _ (continue_run _ _ _ _ Ea)), (bindP_run _ _ _ _ _ (continue_run _ _ _ _ Eo')).
    rewrite (proj2 (Z.ltb_lt fd 0)) by lia. by rewrite (doP_run _ _ _ _ _ E2).
Qed.

Lemma fits_wr m buf bs size y : Z.of_nat (length bs) <= size -> ~ (buf <= y < buf + size) -> wr m buf bs y = m y.
Proof. intros Hl Hy. apply wr_out. lia. Qed.

(** *** cat *)

Lemma cat_acts buf fd u : Z.of_nat (length (rest fd (u_os u))) < 2 ^ 63 -> acts buf 512 (rest fd (u_os u)) (cat buf fd) u.
Proof.
  intros Hlen. set (F := rest fd (u_os u)) in *.
  enough (W : wp (loop (cat_step buf fd) tt) (fun r u' => r = inr 0 /\ written (u_os u') = written (u_os u) ++ on 1 F /\
    contents (u_os u') = contents (u_os u) /\ (forall y, ~ (buf <= y < buf + 512) -> u_mem u' y = u_mem u y)) u).
  { apply wp_elim in W as (r & [mm o] & E & -> & Wr & C & Mm). exists mm, o. split_and!; [|done|done|done].
    unfold cat. by rewrite (bindP_run _ _ _ _ _ E). }
  apply (wp_loop _ (fun k _ u' => k = Z.of_nat (length (rest fd (u_os u'))) /\
    written (u_os u') ++ on 1 (rest fd (u_os u')) = written (u_os u) ++ on 1 F /\
    contents (u_os u') = contents (u_os u) /\ (forall y, ~ (buf <= y < buf + 512) -> u_mem u' y = u_mem u y)))
    with (n := Z.of_nat (length F)); [|lia|by split_and!].
  intros k [] [mm o] _ (-> & Wr & C & Mm). cbn [u_os u_mem] in *.
  destruct (read_some fd 512 o ltac:(lia)) as (j & o1 & E1 & Hj & Hjl & Hj0 & R1 & W1 & C1).
  unfold cat_step. apply wp_bind. eapply wp_Ok; [unfold read; cbn [u_os u_mem]; rewrite E1; reflexivity|].
  set (B := take j (rest fd o)) in *. assert (HB : length B = j) by (unfold B; rewrite length_take; lia).
  destruct (decide (j = 0)%nat) as [->|Hnz].
  { change (0 <? Z.of_nat 0) with false. cbv iota. wp_step. cbn [u_os u_mem]. rewrite Hj0, app_nil_r in Wr by done.
    split_and!; [done|by rewrite W1|by rewrite C1|]. intros y Hy. rewrite (fits_wr _ _ _ 512) by (rewrite ?HB; lia). by apply Mm. }
  rewrite (proj2 (Z.ltb_lt _ _)) by lia. destruct (write_all 1 B o1) as (o2 & E2 & W2 & R2 & C2); [by left|].
  apply wp_bind. eapply wp_Ok.
  { unfold write, bind, gets, sys. cbn [u_os u_mem]. rewrite Nat2Z.id, <- HB, rd_wr_same, E2. reflexivity. }
  rewrite HB, Z.eqb_refl. cbn [negb]. wp_step. cbn [u_os u_mem set_u_os]. exists (Z.of_nat (length (rest fd o2))). rewrite R2, R1.
  split; [rewrite length_drop; lia|]. split_and!; [done| |congruence|].
  - rewrite W2, W1, <- Wr, <- app_assoc, <- on_app. unfold B. by rewrite take_drop.
  - intros y Hy. rewrite (fits_wr _ _ _ 512) by (rewrite ?HB; lia). by apply Mm.
Qed.

(** Cat prints the files, one after the other.  With file arguments main()
    ends; its exit status is 0 and it has written the contents of the files, in
    order, to standard output if all of them can be opened; at the first that
    cannot, it writes a message to standard error and exits with status 1. *)
Theorem cat_correct buf prog args names u :
  Forall2 (arg_at buf 512 (u_mem u)) args names -> args <> [] ->
  (forall n F, n ∈ names -> contents (u_os u) n = Some F -> Z.of_nat (length F) < 2 ^ 63) ->
  let r := each_file (contents (u_os u)) (fun n => on 2 (lit "cat: cannot open " ++ n ++ [c_newline])) (fun n F => F) names in
  exists u', cat_main buf (prog :: args) u = Ok (inl r.1) u' /\ written (u_os u') = written (u_os u) ++ r.2.
Proof.
  intros Hargs Hne Hlen. unfold cat_main. cbn [length drop]. rewrite (proj2 (Z.leb_gt _ 1)) by (destruct args; [done|cbn [length]; lia]).
  refine (for_files buf 512 2 (line "cat: cannot open %s") (fun fd _ => cat buf fd) (fun n => lit "cat: cannot open " ++ n ++ [c_newline])
    (fun n F => F) (fun F => Z.of_nat (length F) < 2 ^ 63) names args u (or_intror eq_refl) _ _ Hlen Hargs).
  - intros n. by vm_compute.
  - intros fd n v. exact (cat_acts buf fd v).
Qed.

(** *** wc *)

Definition count (F : list byte) (k : counts) : counts := fold_left (fun k b => count1 b k) F k.

Definition newlines (F : list byte) : Z := Z.of_nat (length (filter (fun b => beq b c_newline) F)).

Lemma newlines_cons b F : newlines (b :: F) = (if beq b c_newline then 1 else 0) + newlines F.
Proof. unfold newlines. rewrite filter_cons. destruct (beq b c_newline); case_decide; cbn [length]; try done; lia. Qed.

Lemma count_eq F cur k :
  inword k = (if cur is [] then false else true) -> 0 <= nl k -> 0 <= nw k -> 0 <= nc k ->
  nl k + Z.of_nat (length F) < 2 ^ 31 -> nw k + Z.of_nat (length F) < 2 ^ 31 -> nc k + Z.of_nat (length F) < 2 ^ 31 ->
  nl (count F k) = nl k + newlines F /\ nc (count F k) = nc k + Z.of_nat (length F) /\
  nw (count F k) = nw k + Z.of_nat (length (fields cur F)) - (if inword k then 1 else 0).
Proof.
  revert cur k. induction F as [|b F IH]; intros cur k Hin Hl Hw Hc Hl' Hw' Hc'.
  { change (newlines []) with 0. rewrite Hin. destruct cur; cbn; lia. }
  cbn [length] in *. change (count (b :: F) k) with (count F (count1 b k)). rewrite newlines_cons. cbn [fields].
  set (cur' := if occurs blanks b then [] else cur ++ [b]).
  assert (Hk : nl (count1 b k) = nl k + (if beq b c_newline then 1 else 0) /\ nc (count1 b k) = nc k + 1 /\
    inword (count1 b k) = (if cur' is [] then false else true) /\
    nw (count1 b k) = nw k + (if occurs blanks b then 0 else if inword k then 0 else 1)).
  { unfold count1, cur'. destruct k as [a w c i]. cbn [nl nw nc inword] in *.
    destruct (beq b c_newline), (occurs blanks b), i; cbn [nl nw nc inword negb]; rewrite ?i32_small by lia; split_and!; try lia; try done; destruct cur; done. }
  destruct Hk as (H1 & H2 & H3 & H4).
  destruct (IH cur' (count1 b k)) as (I1 & I2 & I3); try (destruct (beq b c_newline), (occurs blanks b), (inword k); lia); [done|].
  split_and!; [rewrite I1, H1; lia|rewrite I2, H2; lia|]. rewrite I3, H4, H3. unfold cur'. destruct (occurs blanks b).
  - rewrite Hin. destruct cur; cbn [app length]; lia.
  - rewrite Hin. destruct cur; cbn [app]; lia.
Qed.

Lemma wc_for_eq buf B k u : rd (u_mem u) buf (length B) = B -> Z.of_nat (length B) < 2 ^ 63 ->
  wc_for buf (Z.of_nat (length B)) k u = Ok (count B k) u.
Proof.
  intros Hr Hl. enough (W : wp (wc_for buf (Z.of_nat (length B)) k) (fun k' u' => k' = count B k /\ u' = u) u)
    by (apply wp_elim in W as (? & ? & ? & -> & ->); done).
  unfold wc_for. apply (wp_loop _ (fun n '(i, k') u' => n = Z.of_nat (length B) - i /\ 0 <= i /\ u' = u /\ k' = count (take (Z.to_nat i) B) k))
    with (n := Z.of_nat (length B)); [|lia|split_and!; [lia|lia|done|done]].
  intros n [i k'] u' Hn (-> & Hi & -> & ->). cbv beta iota. wp_step; bools.
  - wp_steps. exists (Z.of_nat (length B) - (i + 1)). split; [lia|]. split_and!; [lia|lia|done|].
    assert (Hlk : B !! Z.to_nat i = Some (u_mem u (buf + i))).
    { rewrite <- Hr at 1. unfold rd. rewrite list_lookup_fmap. rewrite lookup_seq_lt by lia. cbn. do 2 f_equal. lia. }
    replace (Z.to_nat (i + 1)) with (S (Z.to_nat i)) by lia. rewrite (take_S_r _ _ _ Hlk). unfold count. by rewrite fold_left_app.
  - wp_step. split; [|done]. by rewrite take_ge by lia.
Qed.

Lemma count_app F G k : count (F ++ G) k = count G (count F k).
Proof. apply fold_left_app. Qed.

Lemma wc_loop buf fd u : Z.of_nat (length (rest fd (u_os u))) < 2 ^ 63 ->
  exists mm o, loop (wc_step buf fd) (mkcounts 0 0 0 false) u = Ok (0, count (rest fd (u_os u)) (mkcounts 0 0 0 false)) (mkuser mm o) /\
    written o = written (u_os u) /\ contents o = contents (u_os u) /\ (forall y, ~ (buf <= y < buf + 512) -> mm y = u_mem u y).
Proof.
  intros Hlen. set (F := rest fd (u_os u)) in *. set (k0 := mkcounts 0 0 0 false).
  enough (W : wp (loop (wc_step buf fd) k0) (fun r u' => r = (0, count F k0) /\ written (u_os u') = written (u_os u) /\
    contents (u_os u') = contents (u_os u) /\ (forall y, ~ (buf <= y < buf + 512) -> u_mem u' y = u_mem u y)) u).
  { apply wp_elim in W as (r & [mm o] & E & -> & Wr & C & Mm). exists mm, o. by split_and!. }
  apply (wp_loop _ (fun n k u' => n = Z.of_nat (length (rest fd (u_os u'))) /\
    (exists G, F = G ++ rest fd (u_os u') /\ k = count G k0) /\ written (u_os u') = written (u_os u) /\
    contents (u_os u') = contents (u_os u) /\ (forall y, ~ (buf <= y < buf + 512) -> u_mem u' y = u_mem u y)))
    with (n := Z.of_nat (length F)); [|lia|split_and!; [done|by exists []|done|done|done]].
  intros k k' [mm o] _ (-> & (G & HF & ->) & Wr & C & Mm). cbn [u_os u_mem] in *.
  destruct (read_some fd 512 o ltac:(lia)) as (j & o1 & E1 & Hj & Hjl & Hj0 & R1 & W1 & C1).
  unfold wc_step. apply wp_bind. eapply wp_Ok; [unfold read; cbn [u_os u_mem]; rewrite E1; reflexivity|].
  set (B := take j (rest fd o)) in *. assert (HB : length B = j) by (unfold B; rewrite length_take; lia).
  assert (Mm' : forall y, ~ (buf <= y < buf + 512) -> wr mm buf B y = u_mem u y).
  { intros y Hy. rewrite (fits_wr _ _ _ 512) by (rewrite ?HB; lia). by apply Mm. }
  destruct (decide (j = 0)%nat) as [->|Hnz].
  { change (0 <? Z.of_nat 0) with false. cbv iota. wp_step. cbn [u_os u_mem]. rewrite Hj0, app_nil_r in HF by done.
    split_and!; [by rewrite HF|by rewrite W1|by rewrite C1|done]. }
  rewrite (proj2 (Z.ltb_lt _ _)) by lia. apply wp_bind. eapply wp_Ok.
  { rewrite <- HB. apply wc_for_eq; [cbn [u_mem]; apply rd_wr_same|lia]. }
  wp_step. cbn [u_os u_mem]. exists (Z.of_nat (length (rest fd o1))). rewrite R1.
  split; [rewrite length_drop; lia|]. split_and!; [done| |congruence|congruence|done].
  exists (G ++ B). rewrite count_app, <- app_assoc. unfold B. by rewrite take_drop.
Qed.

Lemma length_fields F cur : (length (fields cur F) <= (if cur is [] then 0 else 1) + length F)%nat.
Proof.
  revert cur. induction F as [|b F IH]; intros cur; [by destruct cur|]. cbn [fields length]. destruct (occurs blanks b).
  - rewrite length_app. specialize (IH []). destruct cur; cbn [length] in *; lia.
  - specialize (IH (cur ++ [b])). destruct cur; cbn [app] in *; lia.
Qed.

Lemma newlines_le F : 0 <= newlines F <= Z.of_nat (length F).
Proof. unfold newlines. pose proof (length_filter (fun b => beq b c_newline) F). lia. Qed.

Lemma wc_acts buf fd name u : Z.of_nat (length (rest fd (u_os u))) < 2 ^ 31 ->
  acts buf 512 (wc_line name (rest fd (u_os u))) (wc buf fd name) u.
Proof.
  intros Hlen. destruct (wc_loop buf fd u ltac:(lia)) as (mm & o & E & W & C & Mm). set (F := rest fd (u_os u)) in *.
  destruct (count_eq F [] (mkcounts 0 0 0 false)) as (H1 & H2 & H3); cbn [nl nw nc]; try lia; [done|]. cbn [nl nw nc inword] in *.
  set (k := count F (mkcounts 0 0 0 false)) in *.
  assert (Hf : format false (line "%d %d %d %s") [AWord (nl k); AWord (nw k); AWord (nc k); AStr name] =
    Some (numeral (i32 (nl k)) ++ Byte.x20 :: numeral (i32 (nw k)) ++ Byte.x20 :: numeral (i32 (nc k)) ++ Byte.x20 :: name ++ [c_newline])) by done.
  destruct (prints_vprintf 1 false _ _ _ (or_introl eq_refl) Hf (mkuser mm o)) as (o1 & E1 & W1 & _ & C1). cbn [u_os u_mem] in *.
  exists mm, o1. split_and!; [|rewrite W1, W|congruence|done].
  - unfold wc. rewrite (bindP_run _ _ _ _ _ (continue_run _ _ _ _ E)). cbn [Z.ltb Z.compare]. by apply continue_run.
  - do 2 f_equal. pose proof (newlines_le F). pose proof (length_fields F []). rewrite H1, H2, H3, !Z.add_0_l, Z.sub_0_r.
    cbn [Nat.add] in *. rewrite (i32_small (newlines F)), !(i32_small (Z.of_nat _)) by lia. done.
Qed.

(** Wc counts lines, words and characters.  With file arguments main()
    ends, and prints for each file, however its bytes are divided into reads,
    the number of its newlines, of its words (maximal sequences of characters
    that are not blank) and of its bytes, and its name; it stops with exit
    status 1 at a file that cannot be opened. *)
Theorem wc_correct buf prog args names u :
  Forall2 (arg_at buf 512 (u_mem u)) args names -> args <> [] ->
  (forall n F, n ∈ names -> contents (u_os u) n = Some F -> Z.of_nat (length F) < 2 ^ 31) ->
  let r := each_file (contents (u_os u)) (fun n => on 1 (lit "wc: cannot open " ++ n ++ [c_newline])) wc_line names in
  exists u', wc_main buf (prog :: args) u = Ok (inl r.1) u' /\ written (u_os u') = written (u_os u) ++ r.2.
Proof.
  intros Hargs Hne Hlen. unfold wc_main. cbn [length drop]. rewrite (proj2 (Z.leb_gt _ 1)) by (destruct args; [done|cbn [length]; lia]).
  refine (for_files buf 512 1 (line "wc: cannot open %s") (wc buf) (fun n => lit "wc: cannot open " ++ n ++ [c_newline])
    wc_line (fun F => Z.of_nat (length F) < 2 ^ 31) names args u (or_introl eq_refl) _ _ Hlen Hargs).
  - intros n. by vm_compute.
  - intros fd n v. exact (wc_acts buf fd n v).
Qed.

(** *** grep *)

(** A file grep can handle: no NUL, and its complete lines fit into the buffer. *)
Definition grep_file (F : list byte) : Prop :=
  no_nul F /\ Z.of_nat (length F) < 2 ^ 63 /\ Forall (fun l => Z.of_nat (length l) < BUFSIZE - 1) (lines [] F).

Lemma grep_acts buf pattern fd u : 0 < buf -> grep_file (rest fd (u_os u)) ->
  acts buf BUFSIZE (select pattern (lines [] (rest fd (u_os u)))) (continue (grep buf pattern fd)) u.
Proof.
  intros Hbuf (Hn & Hl & Hlin). destruct (grep_ok buf pattern fd u Hbuf Hn Hl Hlin) as (mm & o & E & C & W & Mm).
  exists mm, o. split_and!; [by apply continue_run|done|done|done].
Qed.

(** C40: grep prints the lines that match.  With file arguments main() ends; for
    files without NUL bytes whose lines fit into the buffer it has written
    exactly the complete lines that match the pattern, in order and each with
    its newline, however many bytes each read() delivers; it stops with exit
    status 1 at a file that cannot be opened.  A last line without a newline is
    not printed. *)
Theorem grep_correct buf prog pat pattern args names u :
  0 < buf -> arg_at buf BUFSIZE (u_mem u) pat pattern -> Forall2 (arg_at buf BUFSIZE (u_mem u)) args names -> args <> [] ->
  (forall n F, n ∈ names -> contents (u_os u) n = Some F -> grep_file F) ->
  let r := each_file (contents (u_os u)) (fun n => on 1 (lit "grep: cannot open " ++ n ++ [c_newline])) (fun n F => select pattern (lines [] F)) names in
  exists u', grep_main buf (prog :: pat :: args) u = Ok (inl r.1) u' /\ written (u_os u') = written (u_os u) ++ r.2.
Proof.
  intros Hbuf Hpat Hargs Hne Hlen. unfold grep_main. rewrite (bindP_run _ _ _ _ _ (continue_run _ _ _ _ (argstring_eq _ _ _ _ _ Hpat))).
  destruct args as [|a args]; [done|].
  refine (for_files buf BUFSIZE 1 (line "grep: cannot open %s") (fun fd _ => continue (grep buf pattern fd))
    (fun n => lit "grep: cannot open " ++ n ++ [c_newline])
    (fun n F => select pattern (lines [] F)) grep_file names (a :: args) u (or_introl eq_refl) _ _ Hlen Hargs).
  - intros n. by vm_compute.
  - intros fd n v. exact (grep_acts buf pattern fd v Hbuf).
Qed.

(** *** echo *)

(** The arguments, separated by spaces. *)
Fixpoint joined (names : list (list byte)) : list byte :=
  match names with
  | [] => []
  | [n] => n ++ [c_newline]
  | n :: names => n ++ lit " " ++ joined names
  end.

Lemma echo_ok args names u :
  Forall2 (arg_at 0 0 (u_mem u)) args names ->
  exists o, echo_args args u = Ok tt (set_u_os o u) /\ written o = written (u_os u) ++ on 1 (joined names).
Proof.
  intros Hargs. revert u Hargs. revert names. induction args as [|a args IH]; intros names u Hargs.
  { apply Forall2_nil_inv_l in Hargs as ->. exists (u_os u). split; [by destruct u|by rewrite app_nil_r]. }
  apply Forall2_cons_inv_l in Hargs as (n & names' & (Hr & Hn & Hz & Hl & _) & Hargs & ->). destruct u as [m o]. cbn [u_mem u_os] in *.
  destruct (write_all 1 n o) as (o1 & E1 & W1 & _); [by left|]. set (sep := if names' is [] then [c_newline] else lit " ").
  destruct (write_all 1 sep o1) as (o2 & E2 & W2 & _); [by left|]. destruct (IH names' (mkuser m o2) Hargs) as (o3 & E3 & W3). cbn [u_os] in *.
  exists o3. split.
  - cbn [echo_args]. replace (match args with [] => write_bytes 1 [c_newline] | _ :: _ => write_bytes 1 (lit " ") end) with (write_bytes 1 sep)
      by (unfold sep; by destruct Hargs).
    rewrite (bind_run _ _ _ _ _ (zoom_mem _ _ _ _ o (ustrlen_eq m a n (cstr_rd _ _ _ Hr Hn Hz) Hl))).
    unfold bind at 1. unfold write, bind at 1, gets, sys at 1. cbn [u_os u_mem]. rewrite Nat2Z.id, Hr, E1. cbn [set_u_os u_mem].
    rewrite (bind_run _ _ (Z.of_nat (length sep)) _ (mkuser m o2)); [exact E3|].
    unfold write_bytes, sys. cbn [u_os set_u_os]. by rewrite E2.
  - rewrite W3, W2, W1, <- !app_assoc, <- !on_app. do 2 f_equal. unfold sep. destruct names'; cbn [joined]; [by rewrite app_nil_r|done].
Qed.
End ProgsOk.

(** ** Examples *)

(** One file f, and the program's arguments f and a.c in its memory. *)
Definition demo_file : list byte := lit "xabc d
bc
ca-c
abc".

Definition demo : @user tiny :=
  @mkuser tiny (wr (wr (fun _ => Byte.x00) 16 (lit "f")) 24 (lit "a.c")) (mktiny (lit "f") demo_file [] [] []).

Lemma demo_args buf size : 64 <= buf -> arg_at buf size (u_mem demo) 16 (lit "f") /\ arg_at buf size (u_mem demo) 24 (lit "a.c").
Proof.
  intros Hb. unfold arg_at.
  repeat match goal with |- _ /\ _ => split end; try (apply (bool_decide_unpack _); by vm_compute); change (length (lit "f")) with 1%nat; change (length (lit "a.c")) with 3%nat; lia.
Qed.

Lemma demo_contents n F : contents (u_os demo) n = Some F -> F = demo_file.
Proof. cbn. case_bool_decide; [by intros [= <-]|done]. Qed.

Lemma cat_correct_witness :
  exists u', cat_main 4096 [8; 16; 24] demo = Ok (inl 1) u' /\
    written (u_os u') = on 1 demo_file ++ on 2 (lit "cat: cannot open a.c" ++ [c_newline]).
Proof.
  destruct (demo_args 4096 512) as [H1 H2]; [lia|].
  destruct (cat_correct 4096 8 [16; 24] [lit "f"; lit "a.c"] demo) as (u' & E & W).
  - by repeat constructor.
  - done.
  - intros n F _ ->%demo_contents. done.
  - exists u'. split; [exact E|exact W].
Defined.

Lemma wc_correct_witness :
  exists u', wc_main 4096 [8; 16] demo = Ok (inl 0) u' /\ written (u_os u') = on 1 (lit "3 5 18 f" ++ [c_newline]).
Proof.
  destruct (demo_args 4096 512) as [H1 H2]; [lia|].
  destruct (wc_correct 4096 8 [16] [lit "f"] demo) as (u' & E & W).
  - by repeat constructor.
  - done.
  - intros n F _ ->%demo_contents. done.
  - exists u'. split; [exact E|]. etransitivity; [exact W|]. by vm_compute.
Defined.

Lemma grep_correct_witness :
  exists u', grep_main 4096 [8; 24; 16] demo = Ok (inl 0) u' /\ written (u_os u') = on 1 (lit "xabc d
ca-c
").
Proof.
  destruct (demo_args 4096 BUFSIZE) as [H1 H2]; [lia|].
  destruct (grep_correct 4096 8 24 (lit "a.c") [16] [lit "f"] demo) as (u' & E & W).
  - lia.
  - exact H2.
  - by repeat constructor.
  - done.
  - intros n F _ ->%demo_contents. split_and!; try done; apply (bool_decide_unpack _); by vm_compute.
  - exists u'. split; [exact E|]. etransitivity; [exact W|]. by vm_compute.
Defined.
