(* ===== verification/Shell.v ===== *)
(** The shell (user/sh.c): the parser of command lines, and what running a
    command does to file descriptors and processes.

    The line is in the shell's memory, and words are pointers into it.  The
    nodes of the syntax tree are malloc()ed structures; a pointer to one is its
    number, counted from 1, and 0 is the null pointer.  The parser functions
    take the position *ps and return the new one with their result; they are
    mutually recursive, which [fuel] bounds. *)

From stdpp Require Import base tactics list strings.
From Stdlib Require Import ZArith Lia.
From coqutil Require Import Byte.
From S2P Require Import Prelude Mem StringC User Ulib Uprintf.

Local Open Scope Z_scope.
Local Open Scope kern_scope.

Definition MAXARGS : Z := 10.

Definition O_WRONLY : Z := 0x001.
Definition O_RDWR : Z := 0x002.
Definition O_CREATE : Z := 0x200.
Definition O_TRUNC : Z := 0x400.

Definition whitespace : list byte := [Byte.x20; Byte.x09; Byte.x0d; Byte.x0a; Byte.x0b].
Definition symbols : list byte := lit "<|>&;()".

(** struct execcmd, redircmd, pipecmd, listcmd and backcmd *)
Inductive node :=
  | Execcmd (argv eargv : list Z)
  | Redircmd (cmd file efile mode fd : Z)
  | Pipecmd (left right : Z)
  | Listcmd (left right : Z)
  | Backcmd (cmd : Z).

(** ** Tokens *)

(** while(s < es && strchr(whitespace, *s)) s++; *)
Definition skip_blanks (s es : Z) : M mem Z :=
  loop (fun s =>
    if s <? es then
      let* m := gets id in
      if occurs whitespace (m s) then ret (inl (s + 1)) else ret (inr s)
    else ret (inr s)) s.

Definition skip_word (s es : Z) : M mem Z :=
  loop (fun s =>
    if s <? es then
      let* m := gets id in
      if negb (occurs whitespace (m s)) && negb (occurs symbols (m s)) then ret (inl (s + 1)) else ret (inr s)
    else ret (inr s)) s.

(** The token: a character, + for >>, a for a word, 0 for the end; *q and *eq. *)
Record token := mktoken { tok : Z; tok_q : Z; tok_eq : Z }.

Definition tok_word : Z := 97.
Definition tok_append : Z := 43.
Definition gt : Z := 62.
Definition lt : Z := 60.

Definition gettoken (s es : Z) : M mem (Z * token) :=
  let* s := skip_blanks s es in
  let q := s in
  let* c := getb s in
  let* r :=
    if c =? 0 then ret (c, s)
    else if (c =? 124) || (c =? 40) || (c =? 41) || (c =? 59) || (c =? 38) || (c =? lt) then ret (c, s + 1)
    else if c =? gt then
      let* d := getb (s + 1) in
      if d =? gt then ret (tok_append, s + 2) else ret (c, s + 1)
    else
      let* s := skip_word s es in
      ret (tok_word, s) in
  let '(t, s) := r in
  let eq := s in
  let* s := skip_blanks s es in
  ret (s, mktoken t q eq).

(** The new *ps, and whether the next character is one of [toks]. *)
Definition peek (s es : Z) (toks : list byte) : M mem (Z * bool) :=
  let* s := skip_blanks s es in
  let* m := gets id in
  ret (s, negb (byte.unsigned (m s) =? 0) && occurs toks (m s)).

Section Shell.
Context `{Unix}.

Record sh := mksh { sh_user : user; sh_nodes : list node }.

Definition set_sh_user (u : user) (s : sh) : sh := mksh u (sh_nodes s).
Definition set_sh_nodes (ns : list node) (s : sh) : sh := mksh (sh_user s) ns.

#[export] Instance sh_user_lens : Lens sh user.
Proof. refine {| lget := sh_user; lput := set_sh_user |}; [done|by intros []|done]. Defined.

#[export] Instance sh_mem_lens : Lens sh mem.
Proof. refine {| lget := fun s => u_mem (sh_user s); lput := fun m s => set_sh_user (set_u_mem m (sh_user s)) s |}; [done|by intros [[]]|done]. Defined.

(** ** Errors and nodes *)

(** A call that cannot end the program. *)
Definition mem_op {A} (m : M mem A) : program sh A := continue (zoom m).
Definition node_op {A} (m : M sh A) : program sh A := continue m.

Definition panic {A} (msg : list byte) : program sh A :=
  let! _ := continue (zoom (fprintf 2 (lit "%s" ++ [c_newline]) [AStr msg])) in
  exit 1.

(** malloc() and the assignments to the fields. *)
Definition new_node (n : node) : M sh Z :=
  let* ns := gets sh_nodes in
  modify (set_sh_nodes (ns ++ [n])) ;;;
  ret (Z.of_nat (length ns) + 1).

Definition zeros : list Z := replicate (Z.to_nat MAXARGS) 0.

Definition execcmd : M sh Z := new_node (Execcmd zeros zeros).
Definition redircmd (subcmd file efile mode fd : Z) : M sh Z := new_node (Redircmd subcmd file efile mode fd).
Definition pipecmd (left right : Z) : M sh Z := new_node (Pipecmd left right).
Definition listcmd (left right : Z) : M sh Z := new_node (Listcmd left right).
Definition backcmd (subcmd : Z) : M sh Z := new_node (Backcmd subcmd).

(** cmd->argv[i] = q; cmd->eargv[i] = eq; *)
Definition set_arg (cmd i q eq : Z) : M sh unit :=
  let* ns := gets sh_nodes in
  match ns !! Z.to_nat (cmd - 1) with
  | Some (Execcmd argv eargv) =>
      if (0 <=? i) && (i <? MAXARGS) then
        modify (set_sh_nodes (<[Z.to_nat (cmd - 1) := Execcmd (<[Z.to_nat i := q]> argv) (<[Z.to_nat i := eq]> eargv)]> ns))
      else undefined "argv[] out of bounds"
  | _ => undefined "not an execcmd"
  end.

(** ** The parser *)

Definition redirs_step (es : Z) (a : Z * Z) : program sh ((Z * Z) + (Z * Z)) :=
  let '(s, cmd) := a in
  let! '(s, more) := mem_op (peek s es (lit "<>")) in
  if negb more then continue (ret (inr (s, cmd)))
  else
    let! '(s, t) := mem_op (gettoken s es) in
    let! '(s, w) := mem_op (gettoken s es) in
    if negb (tok w =? tok_word) then panic (lit "missing file for redirection")
    else
      let! cmd :=
        if tok t =? lt then node_op (redircmd cmd (tok_q w) (tok_eq w) O_RDONLY 0)
        else if tok t =? gt then node_op (redircmd cmd (tok_q w) (tok_eq w) (Z.lor (Z.lor O_WRONLY O_CREATE) O_TRUNC) 1)
        else if tok t =? tok_append then node_op (redircmd cmd (tok_q w) (tok_eq w) (Z.lor O_WRONLY O_CREATE) 1)
        else continue (ret cmd) in
      continue (ret (inl (s, cmd))).

Definition parseredirs (cmd s es : Z) : program sh (Z * Z) := loopP (redirs_step es) (s, cmd).

(** The loop over the arguments in parseexec(): *ps, ret and argc. *)
Definition args_step (cmd es : Z) (a : Z * Z * Z) : program sh ((Z * Z * Z) + (Z * Z * Z)) :=
  let '(s, r, argc) := a in
  let! '(s, stop) := mem_op (peek s es (lit "|)&;")) in
  if stop then continue (ret (inr (s, r, argc)))
  else
    let! '(s, t) := mem_op (gettoken s es) in
    if tok t =? 0 then continue (ret (inr (s, r, argc)))
    else if negb (tok t =? tok_word) then panic (lit "syntax")
    else
      let! _ := node_op (set_arg cmd argc (tok_q t) (tok_eq t)) in
      let argc := argc + 1 in
      if MAXARGS <=? argc then panic (lit "too many args")
      else
        let! '(s, r) := parseredirs r s es in
        continue (ret (inl (s, r, argc))).

(** while(peek(ps, es, "&")) *)
Definition backs_step (es : Z) (a : Z * Z) : program sh ((Z * Z) + (Z * Z)) :=
  let '(s, cmd) := a in
  let! '(s, more) := mem_op (peek s es (lit "&")) in
  if more then
    let! '(s, _) := mem_op (gettoken s es) in
    let! cmd := node_op (backcmd cmd) in
    continue (ret (inl (s, cmd)))
  else continue (ret (inr (s, cmd))).

Fixpoint parseline (fuel : nat) (s es : Z) : program sh (Z * Z) :=
  match fuel with
  | O => fun _ => Diverge
  | S fuel =>
      let! '(s, cmd) := parsepipe fuel s es in
      let! '(s, cmd) := loopP (backs_step es) (s, cmd) in
      let! '(s, more) := mem_op (peek s es (lit ";")) in
      if more then
        let! '(s, _) := mem_op (gettoken s es) in
        let! '(s, rcmd) := parseline fuel s es in
        let! cmd := node_op (listcmd cmd rcmd) in
        continue (ret (s, cmd))
      else continue (ret (s, cmd))
  end
with parsepipe (fuel : nat) (s es : Z) : program sh (Z * Z) :=
  match fuel with
  | O => fun _ => Diverge
  | S fuel =>
      let! '(s, cmd) := parseexec fuel s es in
      let! '(s, more) := mem_op (peek s es (lit "|")) in
      if more then
        let! '(s, _) := mem_op (gettoken s es) in
        let! '(s, rcmd) := parsepipe fuel s es in
        let! cmd := node_op (pipecmd cmd rcmd) in
        continue (ret (s, cmd))
      else continue (ret (s, cmd))
  end
with parseexec (fuel : nat) (s es : Z) : program sh (Z * Z) :=
  match fuel with
  | O => fun _ => Diverge
  | S fuel =>
      let! '(s, block) := mem_op (peek s es (lit "(")) in
      if block then parseblock fuel s es
      else
        let! cmd := node_op execcmd in
        let! '(s, r) := parseredirs cmd s es in
        let! '(s, r, argc) := loopP (args_step cmd es) (s, r, 0) in
        let! _ := node_op (set_arg cmd argc 0 0) in
        continue (ret (s, r))
  end
with parseblock (fuel : nat) (s es : Z) : program sh (Z * Z) :=
  match fuel with
  | O => fun _ => Diverge
  | S fuel =>
      let! '(s, ok) := mem_op (peek s es (lit "(")) in
      if negb ok then panic (lit "parseblock")
      else
        let! '(s, _) := mem_op (gettoken s es) in
        let! '(s, cmd) := parseline fuel s es in
        let! '(s, ok) := mem_op (peek s es (lit ")")) in
        if negb ok then panic (lit "syntax - missing )")
        else
          let! '(s, _) := mem_op (gettoken s es) in
          parseredirs cmd s es
  end.

(** for(i=0; ecmd->argv[i]; i++) *ecmd->eargv[i] = 0; *)
Fixpoint nulterminate_args (argv eargv : list Z) : M sh unit :=
  match argv, eargv with
  | q :: argv, eq :: eargv =>
      if negb (q =? 0) then
        zoom (putb eq 0) ;;;
        nulterminate_args argv eargv
      else ret tt
  | _, _ => undefined "argv[] out of bounds"
  end.

(** Structures point to older ones: [fuel] is the pointer. *)
Fixpoint nulterminate (fuel : nat) (cmd : Z) : M sh Z :=
  if cmd =? 0 then ret 0
  else
    match fuel with
    | O => fun _ => Diverge
    | S fuel =>
        let* ns := gets sh_nodes in
        match ns !! Z.to_nat (cmd - 1) with
        | Some (Execcmd argv eargv) => nulterminate_args argv eargv
        | Some (Redircmd c file efile mode fd) =>
            let* _ := nulterminate fuel c in
            zoom (putb efile 0)
        | Some (Pipecmd lcmd rcmd) | Some (Listcmd lcmd rcmd) =>
            let* _ := nulterminate fuel lcmd in
            let* _ := nulterminate fuel rcmd in
            ret tt
        | Some (Backcmd c) =>
            let* _ := nulterminate fuel c in
            ret tt
        | None => undefined "not a command"
        end ;;;
        ret cmd
    end.

(** The recursion has at most four levels for each character of the line. *)
Definition parse_fuel (n : Z) : nat := 4 * Z.to_nat n + 4.

Definition parsecmd (s : Z) : program sh Z :=
  let! n := mem_op (strlen s) in
  let es := s + n in
  let! '(s, cmd) := parseline (parse_fuel n) s es in
  let! '(s, _) := mem_op (peek s es []) in
  if negb (s =? es) then
    let! rest := mem_op (cstring s) in
    let! _ := continue (zoom (fprintf 2 (lit "leftovers: %s" ++ [c_newline]) [AStr rest])) in
    panic (lit "syntax")
  else
    let! _ := node_op (nulterminate (Z.to_nat cmd) cmd) in
    continue (ret cmd).

(** ** Reading a line *)

Definition getcmd (buf nbuf : Z) : M user Z :=
  fprintf 2 (lit "$ ") [] ;;;
  zoom (memset buf 0 nbuf) ;;;
  gets_ buf nbuf ;;;
  let* c := zoom (getb buf) in
  if c =? 0 then ret (-1) else ret 0.

End Shell.

(** ** Running a command *)

(** A process, as the system calls it makes; a call's result decides how it
    goes on.  exec() only returns when it fails. *)
Inductive proc :=
  | Exit (status : Z)
  | Exec (path : list byte) (argv : list (list byte)) (failed : proc)
  | Open (path : list byte) (mode : Z) (k : Z -> proc)
  | Close (fd : Z) (k : proc)
  | Dup (fd : Z) (k : Z -> proc)
  | Pipe (k : option (Z * Z) -> proc)
  | Fork (k : Z -> proc)
  | Wait (k : proc)
  | Fprintf (fd : Z) (fmt : list byte) (ap : list arg) (k : proc)
  | Stuck.

Definition proc_panic (msg : list byte) : proc := Fprintf 2 (lit "%s" ++ [c_newline]) [AStr msg] (Exit 1).

Definition fork1 (k : Z -> proc) : proc :=
  Fork (fun pid => if pid =? -1 then proc_panic (lit "fork") else k pid).

(** The string at [q]; exec() takes at most a page of an argument. *)
Definition string_at (m : mem) (q : Z) : list byte := cname m q 4096.

(** argv[] up to its null pointer. *)
Fixpoint arg_strings (m : mem) (argv : list Z) : list (list byte) :=
  match argv with
  | [] => []
  | q :: argv => if q =? 0 then [] else string_at m q :: arg_strings m argv
  end.

Fixpoint runcmd (fuel : nat) (m : mem) (ns : list node) (cmd : Z) : proc :=
  if cmd =? 0 then Exit 1
  else
    match fuel with
    | O => Stuck
    | S fuel =>
        match ns !! Z.to_nat (cmd - 1) with
        | Some (Execcmd argv _) =>
            match argv with
            | [] => Stuck
            | a0 :: _ =>
                if a0 =? 0 then Exit 1
                else
                  Exec (string_at m a0) (arg_strings m argv)
                    (Fprintf 2 (lit "exec %s failed" ++ [c_newline]) [AStr (string_at m a0)] (Exit 0))
            end
        | Some (Redircmd c file _ mode fd) =>
            Close fd (Open (string_at m file) mode (fun r =>
              if r <? 0 then Fprintf 2 (lit "open %s failed" ++ [c_newline]) [AStr (string_at m file)] (Exit 1)
              else runcmd fuel m ns c))
        | Some (Listcmd lcmd rcmd) =>
            fork1 (fun pid =>
              if pid =? 0 then runcmd fuel m ns lcmd
              else Wait (runcmd fuel m ns rcmd))
        | Some (Pipecmd lcmd rcmd) =>
            Pipe (fun p =>
              match p with
              | None => proc_panic (lit "pipe")
              | Some (p0, p1) =>
                  fork1 (fun pid =>
                    if pid =? 0 then Close 1 (Dup p1 (fun _ => Close p0 (Close p1 (runcmd fuel m ns lcmd))))
                    else
                      fork1 (fun pid =>
                        if pid =? 0 then Close 0 (Dup p0 (fun _ => Close p0 (Close p1 (runcmd fuel m ns rcmd))))
                        else Close p0 (Close p1 (Wait (Wait (Exit 0))))))
              end)
        | Some (Backcmd c) =>
            fork1 (fun pid => if pid =? 0 then runcmd fuel m ns c else Exit 0)
        | None => Stuck
        end
    end.

(** ** main() *)

Section Main.
Context `{Unix}.

(** The child, runcmd(parsecmd(buf)): the system after parsecmd(), which may have
    written a message, and the rest of the process. *)
Definition child (buf : Z) (s : sh) (o : os) : os * proc :=
  match parsecmd buf (mksh (mkuser (u_mem (sh_user s)) o) (sh_nodes s)) with
  | Ok (inr cmd) s => (u_os (sh_user s), runcmd (Z.to_nat cmd) (u_mem (sh_user s)) (sh_nodes s) cmd)
  | Ok (inl status) s => (u_os (sh_user s), Exit status)
  | _ => (o, Stuck)
  end.

(** fork() of a child and wait() for it: the result of fork(), after the child
    has ended. *)
Variable spawn : (os -> os * proc) -> os -> Z * os.

(** while((fd = open("console", O_RDWR)) >= 0) *)
Definition open_console : M user unit :=
  loop (fun _ : unit =>
    let* fd := open (lit "console") O_RDWR in
    if 0 <=? fd then
      if 3 <=? fd then
        let* _ := close fd in
        ret (inr tt)
      else ret (inl tt)
    else ret (inr tt)) tt.

(** One round of while(getcmd(buf, sizeof(buf)) >= 0) *)
Definition main_round (buf : Z) (_ : unit) : program sh (unit + unit) :=
  let! r := continue (zoom (getcmd buf 100)) in
  if 0 <=? r then
    let! c0 := mem_op (getb buf) in
    let! c1 := mem_op (getb (buf + 1)) in
    let! c2 := mem_op (getb (buf + 2)) in
    if (c0 =? 99) && (c1 =? 100) && (c2 =? 32) then
      let! n := mem_op (strlen buf) in
      let! _ := mem_op (putb (buf + n - 1) 0) in
      let! path := mem_op (cstring (buf + 3)) in
      let! r := continue (zoom (chdir path)) in
      if r <? 0 then
        let! _ := continue (zoom (fprintf 2 (lit "cannot cd %s" ++ [c_newline]) [AStr path])) in
        continue (ret (inl tt))
      else continue (ret (inl tt))
    else
      let! s := continue (gets id) in
      let! pid := continue (zoom (sys (spawn (child buf s)))) in
      if pid =? -1 then panic (lit "fork")
      else continue (ret (inl tt))
  else continue (ret (inr tt)).

Definition main (buf : Z) : program sh unit :=
  let! _ := continue (zoom open_console) in
  let! _ := loopP (main_round buf) tt in
  exit 0.
End Main.
