(* ===== verification/ShellParse.v ===== *)
(** The shell's parser over the line as a list of characters, and that the
    parser of sh.c computes the same: it builds the syntax tree in its nodes,
    with words that point into the line.

    A position in the line is the rest of the line from there on. *)

From stdpp Require Import base tactics list strings.
From Stdlib Require Import ZArith Lia.
From coqutil Require Import Byte.
From S2P Require Import Prelude Mem StringC User Ulib Uprintf Grep Shell.

Local Open Scope Z_scope.
Local Open Scope kern_scope.

(** ** Tokens *)

Definition blank (b : byte) : bool := occurs whitespace b.
Definition word_char (b : byte) : bool := negb (blank b) && negb (occurs symbols b).

Fixpoint skip (R : list byte) : list byte :=
  match R with
  | [] => []
  | b :: R' => if blank b then skip R' else R
  end.

Fixpoint span (R : list byte) : list byte * list byte :=
  match R with
  | [] => ([], [])
  | b :: R' => if word_char b then (b :: (span R').1, (span R').2) else ([], R)
  end.

(** The next token, its text, and the rest of the line. *)
Definition lex (R : list byte) : Z * list byte * list byte :=
  match skip R with
  | [] => (0, [], [])
  | c :: R1 =>
      let v := byte.unsigned c in
      if (v =? 124) || (v =? 40) || (v =? 41) || (v =? 59) || (v =? 38) || (v =? lt) then (v, [c], skip R1)
      else if v =? gt then
        match R1 with
        | d :: R2 => if byte.unsigned d =? gt then (tok_append, [c; d], skip R2) else (v, [c], skip R1)
        | [] => (v, [c], [])
        end
      else (tok_word, (span (c :: R1)).1, skip (span (c :: R1)).2)
  end.

Definition next_in (toks R : list byte) : bool :=
  match skip R with
  | [] => false
  | c :: _ => occurs toks c
  end.

Lemma skip_length R : (length (skip R) <= length R)%nat.
Proof. induction R as [|b R IH]; [done|]. cbn [skip]. destruct (blank b); cbn [length] in *; lia. Qed.

Lemma skip_idem R : skip (skip R) = skip R.
Proof. induction R as [|b R IH]; [done|]. cbn [skip]. destruct (blank b) eqn:E; [done|]. cbn [skip]. by rewrite E. Qed.

Lemma span_app R : (span R).1 ++ (span R).2 = R.
Proof. induction R as [|b R IH]; [done|]. cbn [span]. destruct (word_char b); [|done]. cbn [fst snd app]. by rewrite IH. Qed.

Lemma lex_rest R : exists R', (lex R).2 = skip R' /\ skip R = (lex R).1.2 ++ R'.
Proof.
  unfold lex. destruct (skip R) as [|c R1]; [by exists []|]. destruct (_ || _); [by exists R1|]. destruct (_ =? gt).
  - destruct R1 as [|d R2]; [by exists []|]. destruct (_ =? gt); [by exists R2|by exists (d :: R2)].
  - exists (span (c :: R1)).2. split; [done|]. symmetry. apply span_app.
Qed.

Lemma skip_head R c R1 : skip R = c :: R1 -> blank c = false.
Proof. induction R as [|b R IH]; [done|]. cbn [skip]. destruct (blank b) eqn:E; [done|]. by intros [= <- <-]. Qed.

Lemma lex_word R : (lex R).1.1 = tok_word -> exists c w, (lex R).1.2 = c :: w /\ Forall (fun b => word_char b = true) (c :: w).
Proof.
  assert (Hs : forall R, Forall (fun b => word_char b = true) (span R).1).
  { clear R. intros R. induction R as [|b R IH]; [constructor|]. cbn [span]. destruct (word_char b) eqn:E; [|constructor]. by constructor. }
  unfold lex. destruct (skip R) as [|c R1] eqn:E; [done|]. apply skip_head in E. intros Ht.
  destruct (_ || _) eqn:Ev; [cbn in Ht; rewrite Ht in Ev; done|]. destruct (_ =? gt) eqn:Eg.
  { destruct R1 as [|d R2]; [|destruct (byte.unsigned d =? gt)]; cbn in Ht; [rewrite Ht in Eg|..|rewrite Ht in Eg]; done. }
  cbn [fst snd]. specialize (Hs (c :: R1)). cbn [span] in *. destruct (word_char c) eqn:Ew; [by exists c, (span R1).1|].
  unfold word_char in Ew. rewrite E in Ew. cbn [negb andb] in Ew. apply negb_false_iff in Ew. cbn in Ew. rewrite !orb_true_iff in Ew.
  repeat destruct Ew as [->%beq_true|Ew]; done.
Qed.

Lemma lex_shrinks R : skip R <> [] -> (length (lex R).2 < length R)%nat.
Proof.
  intros Hne. destruct (lex_rest R) as (R' & -> & E). pose proof (skip_length R'). pose proof (skip_length R).
  apply (f_equal length) in E as El. rewrite length_app in El. enough (0 < length (lex R).1.2)%nat by lia.
  destruct (decide ((lex R).1.1 = tok_word)) as [(c & w & -> & _)%lex_word|Hw]; [cbn [length]; lia|].
  clear - Hne Hw. unfold lex in *. destruct (skip R) as [|c R1]; [done|]. destruct (_ || _); [cbn; lia|]. destruct (_ =? gt); [|done].
  destruct R1 as [|d R2]; [cbn; lia|]. destruct (_ =? gt); cbn; lia.
Qed.

Lemma lex_length R : (length (lex R).2 <= length R)%nat.
Proof.
  destruct (decide (skip R = [])) as [E|E]; [|apply lex_shrinks in E; lia]. unfold lex. rewrite E. cbn. lia.
Qed.

Lemma lex_skip R : lex (skip R) = lex R.
Proof. unfold lex. by rewrite skip_idem. Qed.

(** ** Tokens in memory *)

Section Lex.
Context (m : mem) (es : Z).

(** The rest of the line [R] is at [es - length R]. *)
Definition at_ (R : list byte) : Z := es - Z.of_nat (length R).

Definition line_at (R : list byte) : Prop := holds_str m (at_ R) R /\ Z.of_nat (length R) < 2 ^ 31.

Lemma line_tail b R : line_at (b :: R) -> m (at_ (b :: R)) = b /\ byte.unsigned b <> 0 /\ at_ (b :: R) + 1 = at_ R /\ line_at R.
Proof.
  intros [(Hr & Hz & Hn) Hl]. cbn [length] in *. rewrite rd_S in Hr. injection Hr as E Hr. apply Forall_cons in Hn as [Hb Hn].
  assert (Ea : at_ (b :: R) + 1 = at_ R) by (unfold at_; cbn [length]; lia). split_and!; [done|done|done|]. rewrite Ea in Hr.
  split; [|lia]. split_and!; [done| |done]. rewrite <- Hz. do 2 f_equal. unfold at_. cbn [length]. lia.
Qed.

Lemma line_end : line_at [] -> byte.unsigned (m es) = 0.
Proof. intros [(_ & Hz & _) _]. rewrite <- Hz. do 2 f_equal. unfold at_. cbn [length]. lia. Qed.

Lemma line_app w R : line_at (w ++ R) -> line_at R /\ at_ (w ++ R) + Z.of_nat (length w) = at_ R.
Proof.
  intros H. split; [|unfold at_; rewrite length_app; lia]. induction w as [|b w IH]; [done|]. apply IH. by apply line_tail in H as (_ & _ & _ & H).
Qed.

Lemma line_skip R : line_at R -> line_at (skip R).
Proof. induction R as [|b R IH]; [done|]. intros H. cbn [skip]. destruct (blank b); [|done]. apply IH. by apply line_tail in H as (_ & _ & _ & ?). Qed.

(** Both loops of the scanner. *)
Lemma scan_eq (f : byte -> bool) (g : list byte -> list byte) R :
  g [] = [] -> (forall b R', g (b :: R') = if f b then g R' else b :: R') -> line_at R ->
  loop (fun s => if s <? es then let* mm := gets id in if f (mm s) then ret (inl (s + 1)) else ret (inr s) else ret (inr s)) (at_ R) m = Ok (at_ (g R)) m.
Proof.
  intros Hg0 Hg H. assert (L : exists j, loops (fun s => if s <? es then let* mm := gets id in if f (mm s) then ret (inl (s + 1)) else ret (inr s) else ret (inr s))
    j (at_ R) m (at_ (g R)) m /\ (j <= length R)%nat).
  { induction R as [|b R IH].
    - exists 0%nat. split; [|done]. rewrite Hg0. apply loops_end. unfold at_. cbn [length]. by rewrite Z.sub_0_r, Z.ltb_irrefl.
    - destruct (line_tail _ _ H) as (Eb & _ & Ea & Ht). rewrite Hg. assert ((at_ (b :: R) <? es) = true) as El by (apply Z.ltb_lt; unfold at_; cbn [length]; lia).
      destruct (f b) eqn:Ef.
      + destruct (IH Ht) as (j & L & Hj). exists (S j). split; [|cbn [length]; lia]. eapply loops_more; [|exact L].
        rewrite El. unfold bind, gets, id. by rewrite Eb, Ef, Ea.
      + exists 0%nat. split; [|lia]. apply loops_end. rewrite El. unfold bind, gets, id. by rewrite Eb, Ef. }
  destruct L as (j & L & Hj). destruct H as [_ Hl]. apply (loops_loop _ j); [exact L|lia].
Qed.

Lemma skip_blanks_eq R : line_at R -> skip_blanks (at_ R) es m = Ok (at_ (skip R)) m.
Proof. by apply (scan_eq blank). Qed.

Lemma skip_word_eq R : line_at R -> skip_word (at_ R) es m = Ok (at_ (span R).2) m.
Proof. apply (scan_eq word_char (fun R => (span R).2)); [done|]. intros b R'. cbn [span]. by destruct (word_char b). Qed.

Lemma peek_eq R toks : line_at R -> peek (at_ R) es toks m = Ok (at_ (skip R), next_in toks R) m.
Proof.
  intros H. unfold peek. rewrite (bind_run _ _ _ _ _ (skip_blanks_eq R H)). unfold bind, gets, id, ret. do 2 f_equal.
  apply line_skip in H. unfold next_in. destruct (skip R) as [|c R1].
  - unfold at_. cbn [length]. rewrite Z.sub_0_r, line_end by done. done.
  - destruct (line_tail _ _ H) as (-> & Hnz & _). by rewrite (proj2 (Z.eqb_neq _ _) Hnz).
Qed.

Lemma gettoken_eq R : line_at R ->
  gettoken (at_ R) es m = Ok (at_ (lex R).2, mktoken (lex R).1.1 (at_ (skip R)) (at_ (skip R) + Z.of_nat (length (lex R).1.2))) m.
Proof.
  intros H. unfold gettoken. rewrite (bind_run _ _ _ _ _ (skip_blanks_eq R H)). apply line_skip in H. unfold lex.
  assert (G : forall t R', line_at R' -> (let* s := skip_blanks (at_ R') es in ret (s, mktoken t (at_ (skip R)) (at_ R'))) m =
    Ok (at_ (skip R'), mktoken t (at_ (skip R)) (at_ R')) m) by (intros t R' HR'; by rewrite (bind_run _ _ _ _ _ (skip_blanks_eq R' HR'))).
  destruct (skip R) as [|c R1] eqn:Es.
  - rewrite (bind_run _ _ 0 _ m) by (unfold getb, gets; f_equal; unfold at_; cbn [length]; rewrite Z.sub_0_r; by apply line_end).
    cbn [Z.eqb fst snd length]. rewrite (bind_run _ _ (0, at_ []) _ m) by done. cbv iota beta. rewrite Z.add_0_r. apply (G 0 []). done.
  - destruct (line_tail _ _ H) as (Ec & Hnz & Ea & H1). rewrite (bind_run _ _ (byte.unsigned c) _ m) by (unfold getb, gets; by rewrite Ec).
    rewrite (proj2 (Z.eqb_neq _ _) Hnz). destruct (_ || _).
    { rewrite (bind_run _ _ (byte.unsigned c, at_ R1) _ m) by (unfold ret; by rewrite Ea). cbn [fst snd length]. change (Z.of_nat 1) with 1. rewrite Ea. by apply G. }
    destruct (byte.unsigned c =? gt).
    + destruct R1 as [|d R2].
      * erewrite (bind_run _ _ (byte.unsigned c, at_ []) _ m); [cbn [fst snd length]; change (Z.of_nat 1) with 1; rewrite Ea; by apply (G _ [])|].
        unfold bind, getb, gets. rewrite Ea. unfold at_ at 1. cbn [length]. by rewrite Z.sub_0_r, line_end.
      * destruct (line_tail _ _ H1) as (Ed & _ & Ea2 & H2). destruct (byte.unsigned d =? gt) eqn:Eg.
        -- erewrite (bind_run _ _ (tok_append, at_ R2) _ m).
           { cbn [fst snd length]. replace (at_ (c :: d :: R2) + Z.of_nat 2) with (at_ R2) by lia. by apply G. }
           unfold bind, getb, gets, ret. rewrite Ea, Ed, Eg. do 2 f_equal. lia.
        -- erewrite (bind_run _ _ (byte.unsigned c, at_ (d :: R2)) _ m); [cbn [fst snd length]; change (Z.of_nat 1) with 1; rewrite Ea; by apply G|].
           unfold bind, getb, gets, ret. by rewrite Ea, Ed, Eg.
    + pose proof H as H'. rewrite <- (span_app (c :: R1)) in H'. destruct (line_app _ _ H') as [H3 E3]. rewrite span_app in E3.
      erewrite (bind_run _ _ (tok_word, at_ (span (c :: R1)).2) _ m); [cbn [fst snd]; rewrite E3; by apply G|].
      by rewrite (bind_run _ _ _ _ _ (skip_word_eq _ H)).
Qed.
End Lex.

(** ** The parser over lists *)

(** A word, and how much of the line is left where it begins. *)
Definition word : Type := list byte * Z.

Record redir := mkredir { rd_file : word; rd_mode : Z; rd_fd : Z }.

Inductive tree :=
  | TExec (args : list word)
  | TRedir (t : tree) (r : redir)
  | TPipe (l r : tree)
  | TList (l r : tree)
  | TBack (t : tree).

(** Out of fuel, a syntax error, or the rest of the line and a result. *)
Inductive res (A : Type) := Fuel | Err | Got (R : list byte) (a : A).
Arguments Fuel {A}.
Arguments Err {A}.
Arguments Got {A} R a.

Definition rbind {A B} (r : res A) (k : list byte -> A -> res B) : res B :=
  match r with
  | Fuel => Fuel
  | Err => Err
  | Got R a => k R a
  end.

(** What the token of a redirection asks for. *)
Definition redir_of (t : Z) (w : word) : redir :=
  if t =? lt then mkredir w O_RDONLY 0
  else if t =? gt then mkredir w (Z.lor (Z.lor O_WRONLY O_CREATE) O_TRUNC) 1
  else mkredir w (Z.lor O_WRONLY O_CREATE) 1.

Definition word_at (R : list byte) : word := ((lex R).1.2, Z.of_nat (length (skip R))).

Fixpoint p_redirs (n : nat) (R : list byte) : res (list redir) :=
  match n with
  | O => Fuel
  | S n =>
      if next_in (lit "<>") R then
        let R1 := (lex (skip R)).2 in
        if (lex R1).1.1 =? tok_word then
          rbind (p_redirs n (lex R1).2) (fun R' rs => Got R' (redir_of (lex (skip R)).1.1 (word_at R1) :: rs))
        else Err
      else Got (skip R) []
  end.

Fixpoint p_args (n : nat) (args : list word) (R : list byte) : res (list word * list redir) :=
  match n with
  | O => Fuel
  | S n =>
      if next_in (lit "|)&;") R then Got (skip R) (args, [])
      else
        let t := (lex (skip R)).1.1 in
        let R1 := (lex (skip R)).2 in
        if t =? 0 then Got R1 (args, [])
        else if negb (t =? tok_word) then Err
        else
          let args := args ++ [word_at (skip R)] in
          if MAXARGS <=? Z.of_nat (length args) then Err
          else
            rbind (p_redirs (S (length R1)) R1) (fun R2 rs =>
              rbind (p_args n args R2) (fun R3 a => Got R3 (a.1, rs ++ a.2)))
  end.

Fixpoint p_backs (n : nat) (t : tree) (R : list byte) : res tree :=
  match n with
  | O => Fuel
  | S n => if next_in (lit "&") R then p_backs n (TBack t) (lex (skip R)).2 else Got (skip R) t
  end.

Definition wrap (t : tree) (rs : list redir) : tree := fold_left TRedir rs t.

Fixpoint p_line (fuel : nat) (R : list byte) : res tree :=
  match fuel with
  | O => Fuel
  | S fuel =>
      rbind (p_pipe fuel R) (fun R t =>
        rbind (p_backs (S (length R)) t R) (fun R t =>
          if next_in (lit ";") R then
            rbind (p_line fuel (lex (skip R)).2) (fun R t' => Got R (TList t t'))
          else Got (skip R) t))
  end
with p_pipe (fuel : nat) (R : list byte) : res tree :=
  match fuel with
  | O => Fuel
  | S fuel =>
      rbind (p_exec fuel R) (fun R t =>
        if next_in (lit "|") R then
          rbind (p_pipe fuel (lex (skip R)).2) (fun R t' => Got R (TPipe t t'))
        else Got (skip R) t)
  end
with p_exec (fuel : nat) (R : list byte) : res tree :=
  match fuel with
  | O => Fuel
  | S fuel =>
      if next_in (lit "(") R then p_block fuel (skip R)
      else
        rbind (p_redirs (S (length R)) (skip R)) (fun R rs =>
          rbind (p_args (S (length R)) [] R) (fun R a => Got R (wrap (TExec a.1) (rs ++ a.2))))
  end
with p_block (fuel : nat) (R : list byte) : res tree :=
  match fuel with
  | O => Fuel
  | S fuel =>
      if negb (next_in (lit "(") R) then Err
      else
        rbind (p_line fuel (lex (skip R)).2) (fun R t =>
          if negb (next_in (lit ")") R) then Err
          else
            let R := (lex (skip R)).2 in
            rbind (p_redirs (S (length R)) R) (fun R rs => Got R (wrap t rs)))
  end.

(** ** The tree in the nodes *)

Section Repr.
Context (es : Z).

Definition word_q (w : word) : Z := es - w.2.
Definition word_eq (w : word) : Z := es - w.2 + Z.of_nat (length w.1).

Definition pad (l : list Z) : list Z := l ++ replicate (Z.to_nat MAXARGS - length l) 0.

Definition node_at (ns : list node) (p : Z) (n : node) : Prop := 0 < p /\ ns !! Z.to_nat (p - 1) = Some n.

Definition exec_node (args : list word) : node := Execcmd (pad (word_q <$> args)) (pad (word_eq <$> args)).
Definition redir_node (c : Z) (r : redir) : node := Redircmd c (word_q (rd_file r)) (word_eq (rd_file r)) (rd_mode r) (rd_fd r).

Fixpoint repr (ns : list node) (p : Z) (t : tree) : Prop :=
  match t with
  | TExec args => node_at ns p (exec_node args) /\ Z.of_nat (length args) < MAXARGS
  | TRedir t r => exists c, node_at ns p (redir_node c r) /\ c < p /\ repr ns c t
  | TPipe l r => exists pl pr, node_at ns p (Pipecmd pl pr) /\ pl < p /\ pr < p /\ repr ns pl l /\ repr ns pr r
  | TList l r => exists pl pr, node_at ns p (Listcmd pl pr) /\ pl < p /\ pr < p /\ repr ns pl l /\ repr ns pr r
  | TBack t => exists c, node_at ns p (Backcmd c) /\ c < p /\ repr ns c t
  end.

(** Redirections around the command at [p0]. *)
Fixpoint chain (ns : list node) (p0 p : Z) (rs : list redir) : Prop :=
  match rs with
  | [] => p = p0
  | r :: rs => exists c, node_at ns c (redir_node p0 r) /\ p0 < c /\ chain ns c p rs
  end.

Lemma node_at_app ns ns' p n : node_at ns p n -> node_at (ns ++ ns') p n.
Proof. intros [Hp H]. split; [done|]. by apply lookup_app_l_Some. Qed.

Lemma node_at_new ns n : node_at (ns ++ [n]) (Z.of_nat (length ns) + 1) n.
Proof.
  split; [lia|]. replace (Z.to_nat (Z.of_nat (length ns) + 1 - 1)) with (length ns) by lia. by rewrite lookup_app_r, Nat.sub_diag.
Qed.

Lemma node_at_le ns p n : node_at ns p n -> 0 < p <= Z.of_nat (length ns).
Proof. intros [Hp H]. apply lookup_lt_Some in H. lia. Qed.

Lemma repr_app ns ns' p t : repr ns p t -> repr (ns ++ ns') p t.
Proof.
  revert p. induction t; intros p; cbn [repr].
  - intros [H1 H2]. split; [by apply node_at_app|done].
  - intros (c & H1 & H2 & H3). exists c. eauto using node_at_app.
  - intros (pl & pr & H1 & H2 & H3 & H4 & H5). exists pl, pr. split_and!; eauto using node_at_app.
  - intros (pl & pr & H1 & H2 & H3 & H4 & H5). exists pl, pr. split_and!; eauto using node_at_app.
  - intros (c & H1 & H2 & H3). exists c. eauto using node_at_app.
Qed.

Lemma repr_le ns p t : repr ns p t -> 0 < p <= Z.of_nat (length ns).
Proof. destruct t; cbn [repr]; [intros [H _]|intros (? & H & _)|intros (? & ? & H & _)..|intros (? & H & _)]; by apply node_at_le in H. Qed.

Lemma chain_app ns p0 p p' rs rs' : chain ns p0 p rs -> chain ns p p' rs' -> chain ns p0 p' (rs ++ rs').
Proof.
  revert p0. induction rs as [|r rs IH]; intros p0; cbn [chain app]; [by intros ->|]. intros (c & H1 & H2 & H3) H4. exists c. eauto.
Qed.

Lemma chain_ext ns ns' p0 p rs : (forall q n, p0 < q -> node_at ns q n -> node_at ns' q n) -> chain ns p0 p rs -> chain ns' p0 p rs.
Proof.
  revert p0. induction rs as [|r rs IH]; intros p0 E; cbn [chain]; [done|]. intros (c & H1 & H2 & H3). exists c.
  split_and!; [by apply E|done|]. apply IH; [|done]. intros q n Hq. apply E. lia.
Qed.

Lemma chain_repr ns p0 p rs t : chain ns p0 p rs -> repr ns p0 t -> repr ns p (wrap t rs).
Proof.
  revert p0 t. induction rs as [|r rs IH]; intros p0 t; cbn [chain]; [by intros ->|]. intros (c & H1 & H2 & H3) Ht.
  apply (IH c); [done|]. exists p0. done.
Qed.
End Repr.

(** ** The parser of sh.c computes the same *)

Section Parse.
Context `{Unix} (u : user) (es : Z).

Local Notation at_ := (at_ es).
Local Notation line_at := (line_at (u_mem u) es).

Lemma line_lex R : line_at R -> line_at (lex R).2.
Proof.
  intros HR. apply line_skip in HR. destruct (lex_rest R) as (R' & -> & E). rewrite E in HR. apply line_app in HR as [HR _].
  by apply line_skip.
Qed.

Lemma mem_op_eq {A} (f : M mem A) a ns : f (u_mem u) = Ok a (u_mem u) -> mem_op f (mksh u ns) = Ok (inr a) (mksh u ns).
Proof. intros E. apply continue_run. unfold zoom. cbn [lget sh_mem_lens sh_user]. rewrite E. by destruct u. Qed.

Lemma mem_peek {B} R toks ns (k : Z * bool -> program sh B) : line_at R ->
  bindP (mem_op (peek (at_ R) es toks)) k (mksh u ns) = k (at_ (skip R), next_in toks R) (mksh u ns).
Proof. intros HR. apply bindP_run, mem_op_eq. by apply peek_eq. Qed.

Lemma mem_gettoken {B} R ns (k : Z * token -> program sh B) : line_at R ->
  bindP (mem_op (gettoken (at_ R) es)) k (mksh u ns) =
  k (at_ (lex R).2, mktoken (lex R).1.1 (at_ (skip R)) (at_ (skip R) + Z.of_nat (length (lex R).1.2))) (mksh u ns).
Proof. intros HR. apply bindP_run, mem_op_eq. by apply gettoken_eq. Qed.

Lemma says_eq {B} fmt ap bs s (k : unit -> program sh B) : format false fmt ap = Some bs ->
  exists s', bindP (continue (zoom (fprintf 2 fmt ap))) k s = k tt s'.
Proof.
  intros Hf. destruct (returns_vprintf 2 _ _ _ _ Hf (sh_user s)) as (o & E). exists (set_sh_user (set_u_os o (sh_user s)) s).
  apply bindP_run, continue_run. unfold zoom. cbn [lget sh_user_lens]. unfold fprintf, vprintf. by rewrite E.
Qed.

Lemma panic_eq {A} msg s : exists s', @panic _ A msg s = Ok (inl 1) s'.
Proof.
  unfold panic. destruct (says_eq (B := A) (lit "%s" ++ [c_newline]) [AStr msg] (msg ++ [c_newline]) s (fun _ => exit 1)) as (s' & ->); [done|by exists s'].
Qed.

Lemma node_new {B} n ns (k : Z -> program sh B) :
  bindP (node_op (new_node n)) k (mksh u ns) = k (Z.of_nat (length ns) + 1) (mksh u (ns ++ [n])).
Proof. done. Qed.

(** What a function returns, against the parser over lists. *)
Definition agrees {A} (Q : list node -> Z -> A -> Prop) (ns : list node) (o : outcome sh (Z + (Z * Z))) (r : res A) : Prop :=
  match r with
  | Fuel => True
  | Err => exists s, o = Ok (inl 1) s
  | Got R a => exists p ns', o = Ok (inr (at_ R, p)) (mksh u (ns ++ ns')) /\ Q (ns ++ ns') p a /\ line_at R
  end.

Lemma skip_nonempty toks R : next_in toks R = true -> exists c R1, skip R = c :: R1 /\ occurs toks c = true.
Proof. unfold next_in. destruct (skip R) as [|c R1]; [done|]. eauto. Qed.

Lemma redir_token R : next_in (lit "<>") R = true -> (lex (skip R)).1.1 = lt \/ (lex (skip R)).1.1 = gt \/ (lex (skip R)).1.1 = tok_append.
Proof.
  intros (c & R1 & E & Hc)%skip_nonempty. unfold lex. rewrite skip_idem, E. cbn in Hc. rewrite !orb_true_iff in Hc.
  destruct Hc as [->%beq_true|[->%beq_true|]]; [by left|right|done]. cbn. destruct R1 as [|d R2]; [by left|].
  destruct (byte.unsigned d =? gt); [by right|by left].
Qed.

Lemma redirs_step_eq R p ns : line_at R ->
  match (if next_in (lit "<>") R then
           let R1 := (lex (skip R)).2 in
           if (lex R1).1.1 =? tok_word then inl (Some ((lex R1).2, redir_of (lex (skip R)).1.1 (word_at R1))) else inl None
         else inr (skip R)) with
  | inl (Some (R2, r)) => redirs_step es (at_ R, p) (mksh u ns) = Ok (inr (inl (at_ R2, Z.of_nat (length ns) + 1))) (mksh u (ns ++ [redir_node es p r])) /\ line_at R2
  | inl None => exists s, redirs_step es (at_ R, p) (mksh u ns) = Ok (inl 1) s
  | inr R2 => redirs_step es (at_ R, p) (mksh u ns) = Ok (inr (inr (at_ R2, p))) (mksh u ns) /\ line_at R2
  end.
Proof.
  intros HR. unfold redirs_step. rewrite mem_peek by done. assert (HS := line_skip _ _ _ HR).
  destruct (next_in (lit "<>") R) eqn:En; cbn [negb]; [|by split].
  set (R1 := (lex (skip R)).2). cbv zeta. rewrite mem_gettoken by done. assert (H1 : line_at R1) by by apply line_lex.
  fold R1. rewrite mem_gettoken by done. cbn [tok tok_q tok_eq]. destruct (_ =? tok_word); cbn [negb]; [|apply panic_eq].
  split; [|by apply line_lex]. destruct (redir_token R En) as [->|[-> | ->]]; reflexivity.
Qed.

Lemma redirs_loop n R p ns : line_at R -> p <= Z.of_nat (length ns) -> p_redirs n R <> Fuel ->
  exists j r s, loops (stepP (redirs_step es)) j (at_ R, p) (mksh u ns) r s /\ (j < n)%nat /\
    agrees (fun ns p' rs => chain es ns p p' rs) ns (Ok r s) (p_redirs n R).
Proof.
  revert R p ns. induction n as [|n IH]; intros R p ns HR Hp; [done|]. cbn [p_redirs]. assert (Hs := redirs_step_eq R p ns HR). revert Hs.
  destruct (next_in (lit "<>") R); [|intros [E H2] _; exists 0%nat, (inr (at_ (skip R), p)), (mksh u ns); split_and!;
    [by apply loops_end, stepP_end|lia|exists p, []; by rewrite app_nil_r]].
  cbv zeta. set (R1 := (lex (skip R)).2). destruct (_ =? tok_word);
    [|intros [s E] _; exists 0%nat, (inl 1), s; split_and!; [by apply loops_end, stepP_exit|lia|by exists s]].
  intros [E H2] Hf. set (r := redir_of _ _) in *.
  destruct (IH _ (Z.of_nat (length ns) + 1) (ns ++ [redir_node es p r]) H2) as (j & o & s & L & Hj & Ha);
    [rewrite length_app; cbn [length]; lia|by destruct (p_redirs n _)|].
  exists (S j), o, s. split_and!; [by eapply loops_more; [apply stepP_more|exact L]|lia|].
  destruct (p_redirs n (lex R1).2); cbn [rbind]; [done|done|].
  destruct Ha as (p' & ns' & E' & Hc & HL). exists p', ([redir_node es p r] ++ ns'). rewrite (app_assoc ns). split_and!; [done| |done].
  exists (Z.of_nat (length ns) + 1). split_and!; [apply node_at_app, node_at_new|lia|done].
Qed.

Lemma parseredirs_eq R p ns n : line_at R -> p <= Z.of_nat (length ns) -> Z.of_nat n < 2 ^ 32 ->
  agrees (fun ns p' rs => chain es ns p p' rs) ns (parseredirs p (at_ R) es (mksh u ns)) (p_redirs n R).
Proof.
  intros HR Hp Hn. destruct (p_redirs n R) eqn:E; [done|..];
    (destruct (redirs_loop n R p ns HR Hp) as (j & o & s & L & Hj & Ha); [by rewrite E|]; rewrite E in Ha;
     unfold parseredirs, loopP; rewrite (loops_loop _ j _ _ _ _ L) by lia; exact Ha).
Qed.

Lemma chain_le ns p0 p rs : chain es ns p0 p rs -> p0 <= Z.of_nat (length ns) -> p0 <= p <= Z.of_nat (length ns).
Proof.
  revert p0. induction rs as [|r rs IH]; intros p0; cbn [chain]; [intros ->; lia|]. intros (c & Hc & Hlt & H') _.
  apply node_at_le in Hc. apply IH in H'; lia.
Qed.

Lemma pad_insert l q : Z.of_nat (length l) < MAXARGS -> <[length l := q]> (pad l) = pad (l ++ [q]).
Proof.
  intros Hl. unfold pad. rewrite length_app. cbn [length]. replace (Z.to_nat MAXARGS - length l)%nat with (S (Z.to_nat MAXARGS - (length l + 1)))%nat by (unfold MAXARGS in *; lia).
  cbn [replicate]. rewrite <- (Nat.add_0_r (length l)) at 1. rewrite insert_app_r. cbn. by rewrite <- app_assoc.
Qed.

Lemma pad_end l : Z.of_nat (length l) < MAXARGS -> <[length l := 0]> (pad l) = pad l.
Proof.
  intros Hl. rewrite pad_insert by done. unfold pad. rewrite length_app. cbn [length].
  replace (Z.to_nat MAXARGS - length l)%nat with (S (Z.to_nat MAXARGS - (length l + 1)))%nat by (unfold MAXARGS in *; lia).
  cbn [replicate]. by rewrite <- app_assoc.
Qed.

Lemma set_arg_eq ns pe args q eq : node_at ns pe (exec_node es args) -> Z.of_nat (length args) < MAXARGS ->
  set_arg pe (Z.of_nat (length args)) q eq (mksh u ns) =
  Ok tt (mksh u (<[Z.to_nat (pe - 1) := Execcmd (<[length args := q]> (pad (word_q es <$> args))) (<[length args := eq]> (pad (word_eq es <$> args)))]> ns)).
Proof.
  intros [_ Hn] Hl. unfold set_arg, bind, gets. cbn [sh_nodes]. rewrite Hn. unfold exec_node.
  rewrite (proj2 (Z.leb_le 0 _)), (proj2 (Z.ltb_lt _ MAXARGS)) by lia. cbn [andb]. by rewrite Nat2Z.id.
Qed.

Lemma set_arg_add ns pe args w : node_at ns pe (exec_node es args) -> Z.of_nat (length args) < MAXARGS ->
  set_arg pe (Z.of_nat (length args)) (word_q es w) (word_eq es w) (mksh u ns) = Ok tt (mksh u (<[Z.to_nat (pe - 1) := exec_node es (args ++ [w])]> ns)).
Proof.
  intros Hn Hl. rewrite set_arg_eq by done. unfold exec_node. rewrite !fmap_app.
  change (word_q es <$> [w]) with [word_q es w]. change (word_eq es <$> [w]) with [word_eq es w].
  rewrite <- (pad_insert (word_q es <$> args)), <- (pad_insert (word_eq es <$> args)) by (by rewrite length_fmap). by rewrite !length_fmap.
Qed.

Lemma set_arg_end ns pe args : node_at ns pe (exec_node es args) -> Z.of_nat (length args) < MAXARGS ->
  set_arg pe (Z.of_nat (length args)) 0 0 (mksh u ns) = Ok tt (mksh u ns).
Proof.
  intros Hn Hl. rewrite set_arg_eq by done. replace (Execcmd _ _) with (exec_node es args); [|unfold exec_node; f_equal].
  - rewrite list_insert_id; [done|]. by destruct Hn.
  - rewrite <- (length_fmap (word_q es) args). symmetry. apply pad_end. by rewrite length_fmap.
  - rewrite <- (length_fmap (word_eq es) args). symmetry. apply pad_end. by rewrite length_fmap.
Qed.

(** The state of the loop in parseexec(): the nodes [ns] from before, the exec
    node, and the redirections around it. *)
Definition execs (ns : list node) (args : list word) (rs : list redir) (r : Z) (s : sh) : Prop :=
  exists tl, s = mksh u (ns ++ tl) /\ node_at (ns ++ tl) (Z.of_nat (length ns) + 1) (exec_node es args) /\ Z.of_nat (length args) < MAXARGS /\
    chain es (ns ++ tl) (Z.of_nat (length ns) + 1) r rs.

Lemma args_step_eq ns args rs r R s : line_at R -> execs ns args rs r s -> Z.of_nat (length R) < 2 ^ 31 ->
  let pe := Z.of_nat (length ns) + 1 in
  let o := args_step pe es (at_ R, r, Z.of_nat (length args)) s in
  let t := (lex (skip R)).1.1 in
  let R1 := (lex (skip R)).2 in
  if next_in (lit "|)&;") R then o = Ok (inr (inr (at_ (skip R), r, Z.of_nat (length args)))) s /\ line_at (skip R)
  else if t =? 0 then o = Ok (inr (inr (at_ R1, r, Z.of_nat (length args)))) s /\ line_at R1
  else if negb (t =? tok_word) then exists s', o = Ok (inl 1) s'
  else
    let args := args ++ [word_at (skip R)] in
    if MAXARGS <=? Z.of_nat (length args) then exists s', o = Ok (inl 1) s'
    else
      match p_redirs (S (length R1)) R1 with
      | Fuel => True
      | Err => exists s', o = Ok (inl 1) s'
      | Got R2 rs' => exists r' s', o = Ok (inr (inl (at_ R2, r', Z.of_nat (length args)))) s' /\ execs ns args (rs ++ rs') r' s' /\ line_at R2
      end.
Proof.
  intros HR (tl & -> & Hn & Hl & Hc) HlR. cbv zeta. unfold args_step. rewrite mem_peek by done. assert (HS := line_skip _ _ _ HR).
  destruct (next_in (lit "|)&;") R); [done|]. rewrite mem_gettoken by done. assert (H1 := line_lex _ HS). cbn [tok tok_q tok_eq].
  destruct (_ =? 0); [done|]. destruct (_ =? tok_word); cbn [negb]; [|apply panic_eq]. rewrite skip_idem.
  change (at_ (skip R) + Z.of_nat (length (lex (skip R)).1.2)) with (at_ (skip R) + Z.of_nat (length (word_at (skip R)).1)).
  set (w := word_at (skip R)). replace (at_ (skip R)) with (word_q es w) by (unfold word_q, w, word_at; cbn [snd]; by rewrite skip_idem).
  change (word_q es w + Z.of_nat (length w.1)) with (word_eq es w).
  rewrite (bindP_run _ _ _ _ _ (continue_run _ _ _ _ (set_arg_add _ _ _ w Hn Hl))).
  replace (Z.of_nat (length args) + 1) with (Z.of_nat (length (args ++ [w]))) by (rewrite length_app; cbn [length]; lia).
  destruct (Z.leb_spec MAXARGS (Z.of_nat (length (args ++ [w])))) as [Hmax|Hmax]; [apply panic_eq|].
  set (pe := Z.of_nat (length ns) + 1) in *. set (ns1 := <[_ := _]> _).
  destruct (node_at_le _ _ _ Hn) as [_ Hle]. destruct (chain_le _ _ _ _ Hc Hle) as [_ Hr].
  assert (Hlen : length ns1 = length (ns ++ tl)) by apply length_insert.
  assert (Hns1 : ns1 = ns ++ <[0%nat := exec_node es (args ++ [w])]> tl).
  { unfold ns1. replace (Z.to_nat (pe - 1)) with (length ns + 0)%nat by (unfold pe; lia). apply insert_app_r. }
  assert (Hn1 : node_at ns1 pe (exec_node es (args ++ [w]))).
  { split; [lia|]. apply list_lookup_insert_eq. destruct Hn as [_ Hn]. by apply lookup_lt_Some in Hn. }
  assert (Hc1 : chain es ns1 pe r rs).
  { eapply chain_ext; [|exact Hc]. intros q n Hq [Hq0 Hqn]. split; [done|]. unfold ns1. rewrite list_lookup_insert_ne by lia. done. }
  assert (Ha := parseredirs_eq (lex (skip R)).2 r ns1 (S (length (lex (skip R)).2)) H1 ltac:(rewrite Hlen; lia)).
  pose proof (lex_length (skip R)) as Hl1. pose proof (skip_length R) as Hl2.
  specialize (Ha ltac:(lia)). destruct (p_redirs _ _) as [| |R2 rs']; [done| |].
  - destruct Ha as [s' E]. exists s'. by rewrite (bindP_exit _ _ _ _ _ E).
  - destruct Ha as (r' & ns' & E & Hc' & H2). exists r', (mksh u (ns1 ++ ns')). rewrite (bindP_run _ _ _ _ _ E). split_and!; [done| |done].
    rewrite Hns1 in *. eexists. rewrite <- app_assoc. split_and!; [done| |done|]; rewrite app_assoc.
    + by apply node_at_app.
    + eapply chain_app; [|exact Hc']. eapply chain_ext; [|exact Hc1]. intros q n _. apply node_at_app.
Qed.

Lemma args_loop n ns args rs r R s : line_at R -> execs ns args rs r s -> p_args n args R <> Fuel ->
  exists j o s', loops (stepP (args_step (Z.of_nat (length ns) + 1) es)) j (at_ R, r, Z.of_nat (length args)) s o s' /\ (j < n)%nat /\
    match p_args n args R with
    | Fuel => True
    | Err => o = inl 1
    | Got R' (args', rs') => exists r', o = inr (at_ R', r', Z.of_nat (length args')) /\ execs ns args' (rs ++ rs') r' s' /\ line_at R'
    end.
Proof.
  revert args rs r R s. induction n as [|n IH]; intros args rs r R s HR He; [done|]. cbn [p_args].
  assert (Hs := args_step_eq ns args rs r R s HR He ltac:(by destruct HR)). cbv zeta in *. revert Hs.
  destruct (next_in (lit "|)&;") R).
  { intros [E H1] _. exists 0%nat, (inr (at_ (skip R), r, Z.of_nat (length args))), s. split_and!; [by apply loops_end, stepP_end|lia|].
    exists r. by rewrite app_nil_r. }
  destruct (_ =? 0).
  { intros [E H1] _. exists 0%nat, (inr (at_ (lex (skip R)).2, r, Z.of_nat (length args))), s. split_and!; [by apply loops_end, stepP_end|lia|].
    exists r. by rewrite app_nil_r. }
  assert (Hx : forall s', args_step (Z.of_nat (length ns) + 1) es (at_ R, r, Z.of_nat (length args)) s = Ok (inl 1) s' ->
    exists j o s', loops (stepP (args_step (Z.of_nat (length ns) + 1) es)) j (at_ R, r, Z.of_nat (length args)) s o s' /\ (j < S n)%nat /\ o = inl 1).
  { intros s' E. exists 0%nat, (inl 1), s'. split_and!; [by apply loops_end, stepP_exit|lia|done]. }
  destruct (negb _); [intros [s' E] _; by apply (Hx s')|]. destruct (_ <=? _); [intros [s' E] _; by apply (Hx s')|].
  destruct (p_redirs _ _) as [| |R2 rs']; cbn [rbind]; [done|intros [s' E] _; by apply (Hx s')|].
  intros (r' & s' & E & He' & H2) Hf. destruct (IH _ _ _ R2 s' H2 He') as (j & o & s'' & L & Hj & Ho); [by destruct (p_args n _ R2)|].
  exists (S j), o, s''. split_and!; [by eapply loops_more; [apply stepP_more|exact L]|lia|].
  destruct (p_args n _ R2) as [| |R3 [args' rs'']]; cbn [rbind fst snd]; [done|done|]. by rewrite app_assoc.
Qed.

Lemma backs_loop n R p t ns : line_at R -> repr es ns p t -> p_backs n t R <> Fuel ->
  exists j r s, loops (stepP (backs_step es)) j (at_ R, p) (mksh u ns) r s /\ (j < n)%nat /\ agrees (repr es) ns (Ok r s) (p_backs n t R).
Proof.
  revert R p t ns. induction n as [|n IH]; intros R p t ns HR Hp; [done|]. cbn [p_backs]. assert (HS := line_skip _ _ _ HR).
  destruct (next_in (lit "&") R) eqn:En; intros Hf.
  - destruct (IH (lex (skip R)).2 (Z.of_nat (length ns) + 1) (TBack t) (ns ++ [Backcmd p])) as (j & o & s & L & Hj & Ha); [by apply line_lex| |done|].
    { exists p. split_and!; [apply node_at_new|apply repr_le in Hp; lia|by apply repr_app]. }
    exists (S j), o, s. split_and!; [|lia|].
    + eapply loops_more; [apply stepP_more|exact L]. unfold backs_step. rewrite mem_peek, En by done. rewrite mem_gettoken by done. reflexivity.
    + destruct (p_backs n _ _); [done|done|]. destruct Ha as (p' & ns' & E & Hr & H1). exists p', ([Backcmd p] ++ ns'). by rewrite app_assoc.
  - exists 0%nat, (inr (at_ (skip R), p)), (mksh u ns). split_and!; [|lia|exists p, []; by rewrite app_nil_r].
    apply loops_end, stepP_end. unfold backs_step. by rewrite mem_peek, En.
Qed.

Lemma fuel_dec {A} (r : res A) : r = Fuel \/ r <> Fuel.
Proof. destruct r; [by left|by right..]. Qed.

Lemma backs_eq R p t ns : line_at R -> repr es ns p t ->
  agrees (repr es) ns (loopP (backs_step es) (at_ R, p) (mksh u ns)) (p_backs (S (length R)) t R).
Proof.
  intros HR Hp. destruct (fuel_dec (p_backs (S (length R)) t R)) as [->|Hf]; [done|].
  destruct (backs_loop _ R p t ns HR Hp Hf) as (j & o & s & L & Hj & Ha). destruct HR as [_ Hl].
  unfold loopP. by rewrite (loops_loop _ j _ _ _ _ L) by lia.
Qed.

Lemma agrees_prefix {A} (Q : list node -> Z -> A -> Prop) ns ns1 o r : agrees Q (ns ++ ns1) o r -> agrees Q ns o r.
Proof. destruct r; [done|done|]. intros (p & ns' & E & HQ & HR). exists p, (ns1 ++ ns'). by rewrite app_assoc. Qed.

Lemma agrees_bind {A B} (Q : list node -> Z -> A -> Prop) (Q' : list node -> Z -> B -> Prop) ns m k r kr :
  agrees Q ns (m (mksh u ns)) r ->
  (forall R a p ns', Q (ns ++ ns') p a -> line_at R -> agrees Q' (ns ++ ns') (k (at_ R, p) (mksh u (ns ++ ns'))) (kr R a)) ->
  agrees Q' ns (bindP m k (mksh u ns)) (rbind r kr).
Proof.
  destruct r as [| |R a]; cbn [agrees rbind]; [done| |].
  - intros [s E] _. exists s. by rewrite (bindP_exit _ _ _ _ _ E).
  - intros (p & ns' & E & HQ & HR) Hk. rewrite (bindP_run _ _ _ _ _ E). eapply agrees_prefix. by apply Hk.
Qed.

Lemma agrees_got {A} (Q : list node -> Z -> A -> Prop) ns R p a : Q ns p a -> line_at R -> agrees Q ns (Ok (inr (at_ R, p)) (mksh u ns)) (Got R a).
Proof. intros HQ HR. exists p, []. by rewrite app_nil_r. Qed.

Lemma agrees_exec R ns : line_at R ->
  agrees (repr es) ns
    ((let! cmd := node_op execcmd in
      let! '(s, r) := parseredirs cmd (at_ (skip R)) es in
      let! '(s, r, argc) := loopP (args_step cmd es) (s, r, 0) in
      let! _ := node_op (set_arg cmd argc 0 0) in
      continue (ret (s, r))) (mksh u ns))
    (rbind (p_redirs (S (length R)) (skip R)) (fun R rs =>
       rbind (p_args (S (length R)) [] R) (fun R a => Got R (wrap (TExec a.1) (rs ++ a.2))))).
Proof.
  intros HR. assert (HS := line_skip _ _ _ HR). pose proof HR as [_ Hl]. set (pe := Z.of_nat (length ns) + 1). set (n0 := exec_node es []).
  change (bindP (node_op execcmd) ?k (mksh u ns)) with (k pe (mksh u (ns ++ [n0]))). cbv beta.
  assert (Ha := parseredirs_eq (skip R) pe (ns ++ [n0]) (S (length R)) HS ltac:(rewrite length_app; cbn [length]; lia) ltac:(lia)).
  destruct (p_redirs _ _) as [| |R1 rs]; cbn [rbind]; [done| |].
  { destruct Ha as [s E]. exists s. by rewrite (bindP_exit _ _ _ _ _ E). }
  destruct Ha as (r & ns1 & E & Hc & H1). rewrite (bindP_run _ _ _ _ _ E).
  assert (Hn : node_at ((ns ++ [n0]) ++ ns1) pe n0) by apply node_at_app, node_at_new.
  assert (He : execs ns [] rs r (mksh u ((ns ++ [n0]) ++ ns1))).
  { exists ([n0] ++ ns1). rewrite <- app_assoc in *. by split_and!. }
  destruct (fuel_dec (p_args (S (length R1)) [] R1)) as [->|Hf]; [done|]. pose proof H1 as [_ Hl1].
  destruct (args_loop _ ns [] rs r R1 _ H1 He Hf) as (j & o & s' & L & Hj & Ho). apply loops_loop in L; [|lia].
  destruct (p_args (S (length R1)) [] R1) as [| |R2 [args rs']]; cbn [rbind fst snd]; [done| |].
  - subst o. exists s'. by rewrite (bindP_exit _ _ _ _ _ L).
  - destruct Ho as (r' & -> & (tl & -> & Hn' & Hl' & Hc') & H2). rewrite (bindP_run _ _ _ _ _ L).
    rewrite (bindP_run _ _ _ _ _ (continue_run _ _ _ _ (set_arg_end _ _ _ Hn' Hl'))).
    exists r', tl. split_and!; [done| |done]. by eapply chain_repr.
Qed.

Theorem parser_eq fuel R ns : line_at R ->
  agrees (repr es) ns (parseline fuel (at_ R) es (mksh u ns)) (p_line fuel R) /\
  agrees (repr es) ns (parsepipe fuel (at_ R) es (mksh u ns)) (p_pipe fuel R) /\
  agrees (repr es) ns (parseexec fuel (at_ R) es (mksh u ns)) (p_exec fuel R) /\
  agrees (repr es) ns (parseblock fuel (at_ R) es (mksh u ns)) (p_block fuel R).
Proof.
  revert R ns. induction fuel as [|fuel IH]; intros R ns HR; [done|]. cbn [parseline p_line parsepipe p_pipe parseexec p_exec parseblock p_block].
  split_and!.
  - eapply agrees_bind; [by apply IH|]. cbv beta iota. intros R1 t p ns1 Hp H1. eapply agrees_bind; [by apply backs_eq|]. cbv beta iota.
    clear dependent R1 p t. intros R1 t p ns2 Hp H1. rewrite mem_peek by done. cbv beta iota. assert (HS := line_skip _ _ _ H1).
    destruct (next_in (lit ";") R1); [|by apply agrees_got]. rewrite mem_gettoken by done. cbv beta iota.
    eapply agrees_bind; [by apply IH, line_lex|]. cbv beta iota. intros R2 t' p' ns3 Hp' H2. unfold listcmd. rewrite node_new.
    eapply agrees_prefix, agrees_got; [|done]. apply (repr_app _ _ ns3) in Hp. exists p, p'.
    split_and!; [apply node_at_new|apply repr_le in Hp; lia|apply repr_le in Hp'; lia|by apply repr_app..].
  - eapply agrees_bind; [by apply IH|]. cbv beta iota. intros R1 t p ns2 Hp H1. rewrite mem_peek by done. cbv beta iota.
    assert (HS := line_skip _ _ _ H1). destruct (next_in (lit "|") R1); [|by apply agrees_got]. rewrite mem_gettoken by done. cbv beta iota.
    eapply agrees_bind; [by apply IH, line_lex|]. cbv beta iota. intros R2 t' p' ns3 Hp' H2. unfold pipecmd. rewrite node_new.
    eapply agrees_prefix, agrees_got; [|done]. apply (repr_app _ _ ns3) in Hp. exists p, p'.
    split_and!; [apply node_at_new|apply repr_le in Hp; lia|apply repr_le in Hp'; lia|by apply repr_app..].
  - rewrite mem_peek by done. cbv beta iota. destruct (next_in (lit "(") R); [by apply IH, line_skip|by apply agrees_exec].
  - rewrite mem_peek by done. cbv beta iota. destruct (next_in (lit "(") R); cbn [negb]; [|apply panic_eq].
    rewrite mem_gettoken by by apply line_skip. cbv beta iota. eapply agrees_bind; [by apply IH, line_lex, line_skip|]. cbv beta iota.
    intros R1 t p ns1 Hp H1. rewrite mem_peek by done. cbv beta iota. assert (HS := line_skip _ _ _ H1).
    destruct (next_in (lit ")") R1); cbn [negb]; [|apply panic_eq]. rewrite mem_gettoken by done. cbv beta iota zeta.
    assert (H2 := line_lex _ HS). pose proof H2 as [_ Hl].
    assert (Ha := parseredirs_eq (lex (skip R1)).2 p (ns ++ ns1) (S (length (lex (skip R1)).2)) H2 ltac:(apply repr_le in Hp; lia) ltac:(lia)).
    destruct (p_redirs _ _) as [| |R2 rs]; cbn [rbind]; [done|done|]. destruct Ha as (p' & ns2 & E & Hc & H3). exists p', ns2.
    split_and!; [done|eapply chain_repr; [done|by apply repr_app]|done].
Qed.
End Parse.
