(* ===== verification/ShellOk.v ===== *)
(** The shell's parser: it ends on every line, and the tree it returns has
    exactly the words of the line, each ended by a NUL. *)

From stdpp Require Import base tactics list strings sets.
From Stdlib Require Import ZArith Lia.
From coqutil Require Import Byte.
From S2P Require Import Prelude Mem StringC User Ulib Uprintf Grep Shell ShellParse.

Local Open Scope Z_scope.
Local Open Scope kern_scope.

(** ** Where the words are *)

Fixpoint words_of (t : tree) : list word :=
  match t with
  | TExec args => args
  | TRedir t r => words_of t ++ [rd_file r]
  | TPipe l r | TList l r => words_of l ++ words_of r
  | TBack t => words_of t
  end.

(** A word of the line [L]: it is followed by a character that is not of a
    word, or by the end of the line. *)
Definition placed (L : list byte) (w : word) : Prop :=
  exists pre post, L = pre ++ w.1 ++ post /\ w.2 = Z.of_nat (length (w.1 ++ post)) /\
    Forall (fun b => word_char b = true) w.1 /\ match post with [] => True | c :: _ => word_char c = false end.

Lemma suffix_skip R L : R `suffix_of` L -> skip R `suffix_of` L.
Proof.
  revert L. induction R as [|b R IH]; intros L; [done|]. intros [pre ->]. cbn [skip]. destruct (blank b); [|by exists pre].
  apply IH. exists (pre ++ [b]). by rewrite <- app_assoc.
Qed.

Lemma suffix_lex R L : R `suffix_of` L -> (lex R).2 `suffix_of` L.
Proof.
  intros H. destruct (lex_rest R) as (R' & -> & E). apply suffix_skip. apply suffix_skip in H. rewrite E in H. destruct H as [pre ->].
  exists (pre ++ (lex R).1.2). by rewrite app_assoc.
Qed.

Lemma span_rest R : match (span R).2 with [] => True | c :: _ => word_char c = false end.
Proof. induction R as [|b R IH]; [done|]. cbn [span]. destruct (word_char b) eqn:E; [done|exact E]. Qed.

Lemma lex_placed R L : R `suffix_of` L -> (lex R).1.1 = tok_word -> placed L (word_at R).
Proof.
  intros Hs Ht. pose proof (lex_word R Ht) as (c0 & w0 & Ew & Hw). apply suffix_skip in Hs as [pre ->].
  unfold placed, word_at. cbn [fst snd]. rewrite Ew in *. unfold lex in *. destruct (skip R) as [|c R1]; [done|].
  destruct (_ || _) eqn:Ev; [cbn in Ht; rewrite Ht in Ev; done|]. destruct (byte.unsigned c =? gt) eqn:Eg.
  { destruct R1 as [|d R2]; [|destruct (byte.unsigned d =? gt)]; cbn in Ht; [rewrite Ht in Eg|..|rewrite Ht in Eg]; done. }
  cbn [fst snd] in Ew. exists pre, (span (c :: R1)).2. rewrite <- Ew, span_app. split_and!; [done|done|by rewrite Ew|apply span_rest].
Qed.

(** ** The parser over lists ends *)

(** A result that consumes, and whose words are in the line. *)
Definition fine {A} (W : A -> list word) (L R : list byte) (r : res A) : Prop :=
  match r with
  | Fuel => False
  | Err => True
  | Got R' a => (length R' <= length R)%nat /\ R' `suffix_of` L /\ Forall (placed L) (W a)
  end.

Lemma fine_bind {A B} (W : A -> list word) (W' : B -> list word) L R R1 r (k : list byte -> A -> res B) :
  fine W L R1 r ->
  (forall R' a, (length R' <= length R1)%nat -> R' `suffix_of` L -> Forall (placed L) (W a) -> fine W' L R (k R' a)) ->
  fine W' L R (rbind r k).
Proof. destruct r as [| |R' a]; cbn [fine rbind]; [done|done|]. intros (H1 & H2 & H3) Hk. by apply Hk. Qed.

Lemma fine_le {A} (W : A -> list word) L R R' r : fine W L R' r -> (length R' <= length R)%nat -> fine W L R r.
Proof. destruct r; [done|done|]. intros (H1 & H2 & H3) Hle. split_and!; [lia|done|done]. Qed.

Lemma next_shrinks toks R : next_in toks R = true -> (length (lex (skip R)).2 < length R)%nat.
Proof. intros (c & R1 & E & _)%skip_nonempty. rewrite lex_skip. apply lex_shrinks. by rewrite E. Qed.

Lemma fine_redirs n L R : R `suffix_of` L -> (length R < n)%nat -> fine (fmap rd_file) L R (p_redirs n R).
Proof.
  revert R. induction n as [|n IH]; intros R HR Hn; [lia|]. cbn [p_redirs]. destruct (next_in (lit "<>") R) eqn:En.
  - cbv zeta. set (R1 := (lex (skip R)).2). apply next_shrinks in En. fold R1 in En. pose proof (lex_length R1).
    assert (H1 : R1 `suffix_of` L) by by apply suffix_lex, suffix_skip.
    destruct (Z.eqb_spec (lex R1).1.1 tok_word) as [Et|]; [|done].
    eapply fine_bind; [apply IH; [by apply suffix_lex|lia]|]. intros R' rs HR' Hs Hf. split_and!; [lia|done|].
    constructor; [|done]. unfold redir_of. destruct (_ =? lt); [|destruct (_ =? gt)]; by apply lex_placed.
  - split_and!; [apply skip_length|by apply suffix_skip|constructor].
Qed.

Lemma fine_args n L args R : R `suffix_of` L -> (length R < n)%nat -> Forall (placed L) args ->
  fine (fun a => a.1 ++ (rd_file <$> a.2)) L R (p_args n args R).
Proof.
  revert args R. induction n as [|n IH]; intros args R HR Hn Ha; [lia|]. cbn [p_args]. cbv zeta. destruct (next_in (lit "|)&;") R).
  { split_and!; [apply skip_length|by apply suffix_skip|by rewrite app_nil_r]. }
  set (R1 := (lex (skip R)).2). assert (H1 : R1 `suffix_of` L) by by apply suffix_lex, suffix_skip.
  destruct (Z.eqb_spec (lex (skip R)).1.1 0) as [|Hnz].
  { split_and!; [|done|by rewrite app_nil_r]. pose proof (lex_length (skip R)). pose proof (skip_length R). unfold R1. cbn [app]. lia. }
  assert (Hlt : (length R1 < length R)%nat).
  { unfold R1. rewrite lex_skip in *. apply lex_shrinks. intros E. apply Hnz. unfold lex. by rewrite E. }
  destruct (Z.eqb_spec (lex (skip R)).1.1 tok_word) as [Et|]; [|done]. cbn [negb]. destruct (_ <=? _); [done|].
  eapply fine_bind; [apply fine_redirs; [done|lia]|]. intros R2 rs Hl2 H2 Hrs.
  eapply fine_bind; [apply IH; [done|lia|apply Forall_app; split; [done|]; constructor; [|constructor]]|].
  { apply lex_placed; [by apply suffix_skip|done]. }
  intros R3 [args' rs'] Hl3 H3 Hf. cbn [fst snd] in *. apply Forall_app in Hf as [Hf1 Hf2].
  split_and!; [lia|done|]. cbn [fst snd]. rewrite fmap_app. by repeat (apply Forall_app; split).
Qed.

Lemma fine_backs n L t R : R `suffix_of` L -> (length R < n)%nat -> Forall (placed L) (words_of t) -> fine words_of L R (p_backs n t R).
Proof.
  revert t R. induction n as [|n IH]; intros t R HR Hn Ht; [lia|]. cbn [p_backs]. destruct (next_in (lit "&") R) eqn:En.
  - apply next_shrinks in En. eapply fine_le; [apply IH; [by apply suffix_lex, suffix_skip|lia|done]|lia].
  - split_and!; [apply skip_length|by apply suffix_skip|done].
Qed.

Lemma words_wrap t rs : words_of (wrap t rs) = words_of t ++ (rd_file <$> rs).
Proof.
  revert t. induction rs as [|r rs IH]; intros t; [by rewrite app_nil_r|]. cbn [wrap fold_left]. change (fold_left TRedir rs ?x) with (wrap x rs).
  rewrite IH. cbn [words_of]. by rewrite <- app_assoc.
Qed.

Lemma fine_parser fuel L R : R `suffix_of` L ->
  ((4 * length R + 4 <= fuel)%nat -> fine words_of L R (p_line fuel R)) /\
  ((4 * length R + 3 <= fuel)%nat -> fine words_of L R (p_pipe fuel R)) /\
  ((4 * length R + 2 <= fuel)%nat -> fine words_of L R (p_exec fuel R)) /\
  ((4 * length R + 1 <= fuel)%nat -> fine words_of L R (p_block fuel R)).
Proof.
  revert R. induction fuel as [|fuel IH]; intros R HR; [split_and!; lia|]. cbn [p_line p_pipe p_exec p_block]. split_and!; intros Hf.
  - eapply fine_bind; [apply IH; [done|lia]|]. intros R1 t Hl1 H1 Ht.
    eapply fine_bind; [apply fine_backs; [done|lia|done]|]. clear t Ht. intros R2 t Hl2 H2 Ht.
    destruct (next_in (lit ";") R2) eqn:En; [|split_and!; [pose proof (skip_length R2); lia|by apply suffix_skip|done]]. apply next_shrinks in En.
    eapply fine_bind; [apply IH; [by apply suffix_lex, suffix_skip|lia]|]. intros R3 t' Hl3 H3 Ht'. split_and!; [lia|done|by apply Forall_app].
  - eapply fine_bind; [apply IH; [done|lia]|]. intros R2 t Hl2 H2 Ht.
    destruct (next_in (lit "|") R2) eqn:En; [|split_and!; [pose proof (skip_length R2); lia|by apply suffix_skip|done]]. apply next_shrinks in En.
    eapply fine_bind; [apply IH; [by apply suffix_lex, suffix_skip|lia]|]. intros R3 t' Hl3 H3 Ht'. split_and!; [lia|done|by apply Forall_app].
  - pose proof (skip_length R). destruct (next_in (lit "(") R); [eapply fine_le; [apply IH; [by apply suffix_skip|lia]|lia]|].
    eapply fine_bind; [apply fine_redirs; [by apply suffix_skip|lia]|]. intros R1 rs Hl1 H1 Hrs.
    eapply fine_bind; [apply fine_args; [done|lia|constructor]|]. intros R2 [args rs'] Hl2 H2 Hf2. cbn [fst snd] in *.
    split_and!; [lia|done|]. cbn [fst snd]. rewrite words_wrap, fmap_app. apply Forall_app in Hf2 as [? ?]. by repeat (apply Forall_app; split).
  - destruct (next_in (lit "(") R) eqn:En; cbn [negb]; [|done]. apply next_shrinks in En.
    eapply fine_bind; [apply IH; [by apply suffix_lex, suffix_skip|lia]|]. intros R1 t Hl1 H1 Ht.
    destruct (next_in (lit ")") R1) eqn:En1; cbn [negb]; [|done]. apply next_shrinks in En1. cbv zeta.
    eapply fine_bind; [apply fine_redirs; [by apply suffix_lex, suffix_skip|lia]|]. intros R2 rs Hl2 H2 Hrs.
    split_and!; [lia|done|]. rewrite words_wrap. by apply Forall_app.
Qed.

(** ** nulterminate() *)

Definition zero_all (m : mem) (l : list Z) : mem := fold_left (fun m a => upd m a (byte.of_Z 0)) l m.

Lemma zero_all_app m l l' : zero_all m (l ++ l') = zero_all (zero_all m l) l'.
Proof. apply fold_left_app. Qed.

Lemma zero_all_out m l y : y ∉ l -> zero_all m l y = m y.
Proof.
  revert m. induction l as [|a l IH]; intros m Hy; [done|]. apply not_elem_of_cons in Hy as [Ha Hy]. cbn [zero_all fold_left].
  change (fold_left _ l ?x) with (zero_all x l). rewrite IH by done. unfold upd. by rewrite (proj2 (Z.eqb_neq y a) Ha).
Qed.

Lemma zero_all_in m l y : y ∈ l -> zero_all m l y = byte.of_Z 0.
Proof.
  revert m. induction l as [|a l IH]; intros m Hy; [by apply elem_of_nil in Hy|]. cbn [zero_all fold_left].
  change (fold_left _ l ?x) with (zero_all x l). destruct (decide (y ∈ l)) as [Hin|Hout]; [by apply IH|].
  rewrite zero_all_out by done. apply elem_of_cons in Hy as [->|]; [|done]. unfold upd. by rewrite Z.eqb_refl.
Qed.

Section Nul.
Context `{Unix} (es : Z).

Definition ends (t : tree) : list Z := word_eq es <$> words_of t.

(** Every word begins at an address that is not the null pointer. *)
Definition nonnull (t : tree) : Prop := Forall (fun w => word_q es w <> 0) (words_of t).

Lemma nulterminate_args_eq m o ns args : Forall (fun w => word_q es w <> 0) args -> Z.of_nat (length args) < MAXARGS ->
  nulterminate_args (pad (word_q es <$> args)) (pad (word_eq es <$> args)) (mksh (mkuser m o) ns) =
  Ok tt (mksh (mkuser (zero_all m (word_eq es <$> args)) o) ns).
Proof.
  intros Hn Hl. unfold pad. rewrite !length_fmap.
  assert (Hk : exists k, (Z.to_nat MAXARGS - length args)%nat = S k) by (exists (Z.to_nat MAXARGS - length args - 1)%nat; lia).
  destruct Hk as [k ->]. clear Hl. revert m. induction Hn as [|w args Hw Hn IH]; intros m; [done|].
  rewrite !fmap_cons. cbn [app nulterminate_args]. rewrite (proj2 (Z.eqb_neq _ _) Hw). cbn [negb].
  rewrite (bind_run _ _ tt _ (mksh (mkuser (upd m (word_eq es w) (byte.of_Z 0)) o) ns)) by done. apply IH.
Qed.

Lemma nulterminate_eq m o ns t fuel p : repr es ns p t -> nonnull t -> p <= Z.of_nat fuel ->
  nulterminate fuel p (mksh (mkuser m o) ns) = Ok p (mksh (mkuser (zero_all m (ends t)) o) ns).
Proof.
  revert m fuel p. induction t as [args|t IH r|l IHl r IHr|l IHl r IHr|t IH]; intros m fuel p Hr Hn Hf;
    pose proof (repr_le _ _ _ _ Hr) as Hp; destruct fuel as [|fuel]; try lia; cbn [nulterminate]; rewrite (proj2 (Z.eqb_neq p 0)) by lia;
    rewrite (bind_run _ _ _ _ _ (eq_refl : gets sh_nodes (mksh (mkuser m o) ns) = Ok ns _)); cbn [repr] in Hr; unfold ends, nonnull in *; cbn [words_of] in *.
  - destruct Hr as [[_ ->] Hl]. unfold exec_node. by rewrite (bind_run _ _ _ _ _ (nulterminate_args_eq m o ns args Hn Hl)).
  - destruct Hr as (c & [_ ->] & Hc & Hr). unfold redir_node. apply Forall_app in Hn as [Hn _]. rewrite fmap_app, zero_all_app.
    unfold bind at 1. rewrite (bind_run _ _ _ _ _ (IH m fuel c Hr Hn ltac:(lia))). done.
  - destruct Hr as (pl & pr & [_ ->] & Hl & Hrr & H1 & H2). apply Forall_app in Hn as [Hn1 Hn2]. rewrite fmap_app, zero_all_app.
    unfold bind at 1. rewrite (bind_run _ _ _ _ _ (IHl m fuel pl H1 Hn1 ltac:(lia))), (bind_run _ _ _ _ _ (IHr _ fuel pr H2 Hn2 ltac:(lia))). done.
  - destruct Hr as (pl & pr & [_ ->] & Hl & Hrr & H1 & H2). apply Forall_app in Hn as [Hn1 Hn2]. rewrite fmap_app, zero_all_app.
    unfold bind at 1. rewrite (bind_run _ _ _ _ _ (IHl m fuel pl H1 Hn1 ltac:(lia))), (bind_run _ _ _ _ _ (IHr _ fuel pr H2 Hn2 ltac:(lia))). done.
  - destruct Hr as (c & [_ ->] & Hc & Hr). unfold bind at 1. rewrite (bind_run _ _ _ _ _ (IH m fuel c Hr Hn ltac:(lia))). done.
Qed.
End Nul.

(** ** The command *)

Inductive cmd :=
  | CExec (argv : list (list byte))
  | CRedir (c : cmd) (file : list byte) (mode fd : Z)
  | CPipe (l r : cmd)
  | CList (l r : cmd)
  | CBack (c : cmd).

Fixpoint erase (t : tree) : cmd :=
  match t with
  | TExec args => CExec (args.*1)
  | TRedir t r => CRedir (erase t) (rd_file r).1 (rd_mode r) (rd_fd r)
  | TPipe l r => CPipe (erase l) (erase r)
  | TList l r => CList (erase l) (erase r)
  | TBack t => CBack (erase t)
  end.

(** argv[] has the strings [ws] and ends with a null pointer. *)
Definition argv_holds (m : mem) (argv : list Z) (ws : list (list byte)) : Prop :=
  exists qs rest, argv = qs ++ 0 :: rest /\ Forall2 (fun q w => q <> 0 /\ holds_str m q w) qs ws.

(** The command at [p] is [c]: its strings are in memory, each with its NUL. *)
Fixpoint holds_cmd (m : mem) (ns : list node) (p : Z) (c : cmd) : Prop :=
  match c with
  | CExec ws => exists argv eargv, node_at ns p (Execcmd argv eargv) /\ argv_holds m argv ws
  | CRedir c file mode fd => exists pc q eq, node_at ns p (Redircmd pc q eq mode fd) /\ pc < p /\ holds_str m q file /\ holds_cmd m ns pc c
  | CPipe l r => exists pl pr, node_at ns p (Pipecmd pl pr) /\ pl < p /\ pr < p /\ holds_cmd m ns pl l /\ holds_cmd m ns pr r
  | CList l r => exists pl pr, node_at ns p (Listcmd pl pr) /\ pl < p /\ pr < p /\ holds_cmd m ns pl l /\ holds_cmd m ns pr r
  | CBack c => exists pc, node_at ns p (Backcmd pc) /\ pc < p /\ holds_cmd m ns pc c
  end.

Section Holds.
Context `{Unix} (m : mem) (s : Z) (L : list byte).
Hypothesis line : holds_str m s L.
Hypothesis positive : 0 < s.

(** [es] of the line *)
Definition stop : Z := s + Z.of_nat (length L).

Lemma placed_range w : placed L w -> s <= word_q stop w /\ word_eq stop w <= stop.
Proof.
  intros (pre & post & EL & E2 & _). assert (El := f_equal length EL). unfold word_q, word_eq, stop.
  rewrite !length_app in *. lia.
Qed.

Lemma placed_char w i : placed L w -> (i < length w.1)%nat ->
  exists b, m (word_q stop w + Z.of_nat i) = b /\ w.1 !! i = Some b /\ word_char b = true /\ byte.unsigned b <> 0.
Proof.
  intros (pre & post & EL & E2 & Hw & _) Hi. assert (El := f_equal length EL). rewrite !length_app in *.
  destruct (lookup_lt_is_Some_2 w.1 i Hi) as [b Hb]. exists b.
  assert (Hk : (length pre + i < length L)%nat) by lia. destruct (holds_nth _ _ _ _ line Hk) as [Em Hnz].
  assert (EL' : nth (length pre + i) L Byte.x00 = b).
  { apply nth_lookup_Some. rewrite EL, lookup_app_r by lia. replace (length pre + i - length pre)%nat with i by lia. by apply lookup_app_l_Some. }
  rewrite EL' in Em. split_and!; [|done| |by rewrite <- Em].
  - rewrite <- Em. f_equal. unfold word_q, stop. lia.
  - rewrite Forall_lookup in Hw. by apply (Hw i).
Qed.

(** The end of a word is not in a word. *)
Lemma placed_end w w' i : placed L w -> placed L w' -> (i < length w.1)%nat -> word_q stop w + Z.of_nat i <> word_eq stop w'.
Proof.
  intros Hw Hw' Hi E. destruct (placed_char w i Hw Hi) as (b & Em & _ & Hb & _). destruct Hw as (pre & post & EL & E2 & _).
  destruct Hw' as (pre' & post' & EL' & E2' & _ & Hp). destruct post' as [|c post'].
  - apply (f_equal length) in EL, EL'. rewrite !length_app in *. cbn [length] in *. unfold word_q, word_eq, stop in *. lia.
  - assert (Hk : (length pre' + length w'.1 < length L)%nat) by (rewrite EL', !length_app; cbn [length]; lia).
    destruct (holds_nth _ _ _ _ line Hk) as [Em' _].
    replace (nth _ L _) with c in Em'.
    + rewrite E in Em. replace (word_eq stop w') with (s + Z.of_nat (length pre' + length w'.1)) in Em.
      * rewrite Em' in Em. congruence.
      * apply (f_equal length) in EL'. rewrite !length_app in *. cbn [length] in *. unfold word_eq, stop. lia.
    + symmetry. apply nth_lookup_Some. rewrite EL', app_assoc, lookup_app_r by (rewrite length_app; lia).
      by rewrite length_app, Nat.sub_diag.
Qed.

Lemma placed_holds ws w : Forall (placed L) ws -> w ∈ ws -> holds_str (zero_all m (word_eq stop <$> ws)) (word_q stop w) w.1.
Proof.
  intros Hws Hw. assert (Hp : placed L w) by (rewrite Forall_forall in Hws; by apply Hws).
  assert (Hout : forall i, (i < length w.1)%nat -> zero_all m (word_eq stop <$> ws) (word_q stop w + Z.of_nat i) = m (word_q stop w + Z.of_nat i)).
  { intros i Hi. apply zero_all_out. intros (w' & E & Hw')%list_elem_of_fmap. rewrite Forall_forall in Hws.
    by apply (placed_end w w' i Hp (Hws _ Hw') Hi). }
  split_and!.
  - apply list_eq. intros i. destruct (decide (i < length w.1)%nat) as [Hi|Hi].
    + unfold rd. rewrite list_lookup_fmap, lookup_seq_lt by done. cbn. rewrite Hout by done.
      destruct (placed_char w i Hp Hi) as (b & -> & -> & _). done.
    + rewrite !lookup_ge_None_2; [done|lia|rewrite length_rd; lia].
  - change (word_q stop w + Z.of_nat (length w.1)) with (word_eq stop w). rewrite zero_all_in; [done|]. by apply list_elem_of_fmap_2.
  - apply Forall_lookup. intros i b Hb. destruct (placed_char w i Hp (lookup_lt_Some _ _ _ Hb)) as (b' & _ & Hb' & _ & Hnz). congruence.
Qed.

Lemma repr_holds ns p t ws : repr stop ns p t -> Forall (placed L) ws -> words_of t ⊆ ws ->
  holds_cmd (zero_all m (word_eq stop <$> ws)) ns p (erase t).
Proof.
  intros Hr Hws. revert p Hr. induction t as [args|t IH r|l IHl r IHr|l IHl r IHr|t IH]; intros p Hr Hin; cbn [repr holds_cmd erase words_of] in *.
  - destruct Hr as [Hn Hl]. unfold exec_node in Hn. eexists _, _. split; [exact Hn|]. unfold pad. rewrite length_fmap.
    destruct (Z.to_nat MAXARGS - length args)%nat as [|k] eqn:Ek; [lia|]. exists (word_q stop <$> args), (replicate k 0). split; [done|].
    apply Forall2_fmap, Forall_Forall2_diag, Forall_forall. intros w Hw. split; [|apply placed_holds; [done|by apply Hin]].
    rewrite Forall_forall in Hws. destruct (placed_range w) as [? _]; [by apply Hws, Hin|lia].
  - destruct Hr as (c & Hn & Hc & Hr). eexists _, _, _. split_and!; [exact Hn|done|apply placed_holds; [done|]|apply IH; [done|]]; set_solver.
  - destruct Hr as (pl & pr & Hn & ? & ? & H1 & H2). exists pl, pr. split_and!; [done|done|done|apply IHl; [done|]|apply IHr; [done|]]; set_solver.
  - destruct Hr as (pl & pr & Hn & ? & ? & H1 & H2). exists pl, pr. split_and!; [done|done|done|apply IHl; [done|]|apply IHr; [done|]]; set_solver.
  - destruct Hr as (c & Hn & Hc & Hr). exists c. split_and!; [done|done|by apply IH].
Qed.
End Holds.

(** ** parsecmd() *)

(** The command on a line, if it has the shell's syntax. *)
Definition parse (L : list byte) : option cmd :=
  match p_line (parse_fuel (Z.of_nat (length L))) L with
  | Got R t => match skip R with [] => Some (erase t) | _ :: _ => None end
  | _ => None
  end.

Section Parsecmd.
Context `{Unix}.

Lemma leftovers_eq {A} rest (s : sh) :
  exists s', (let! _ := continue (zoom (fprintf 2 (lit "leftovers: %s" ++ [c_newline]) [AStr rest])) in panic (A := A) (lit "syntax")) s = Ok (inl 1) s'.
Proof.
  destruct (says_eq (B := A) (lit "leftovers: %s" ++ [c_newline]) [AStr rest] (lit "leftovers: " ++ rest ++ [c_newline]) s (fun _ => panic (lit "syntax"))) as (s' & ->);
    [by vm_compute|apply panic_eq].
Qed.

Lemma ends_range s L t y : 0 < s -> Forall (placed L) (words_of t) -> y ∈ ends (stop s L) t -> s <= y <= stop s L.
Proof.
  intros Hs Ht (w & -> & Hw)%list_elem_of_fmap. rewrite Forall_forall in Ht. pose proof (placed_range s L w (Ht _ Hw)) as [? ?].
  unfold word_eq, word_q in *. lia.
Qed.

(** A line the parser accepts. *)
Lemma parsecmd_ok m o ns s L c :
  holds_str m s L -> 0 < s -> Z.of_nat (length L) < 2 ^ 31 -> parse L = Some c ->
  exists p m' ns', parsecmd s (mksh (mkuser m o) ns) = Ok (inr p) (mksh (mkuser m' o) (ns ++ ns')) /\
    holds_cmd m' (ns ++ ns') p c /\ (forall y, ~ (s <= y <= s + Z.of_nat (length L)) -> m' y = m y).
Proof.
  intros Hh Hs Hl Hp. unfold parse in Hp. set (fuel := parse_fuel (Z.of_nat (length L))) in *. set (u := mkuser m o).
  assert (HL : line_at (u_mem u) (stop s L) L). { split; [|done]. unfold at_, stop. replace (_ - _) with s by lia. exact Hh. }
  assert (Ha : at_ (stop s L) L = s) by (unfold at_, stop; lia).
  destruct (fine_parser fuel L L) as [Hf _]; [by exists []|]. specialize (Hf ltac:(unfold fuel, parse_fuel; lia)).
  destruct (parser_eq u (stop s L) fuel L ns HL) as [Hg _]. rewrite Ha in Hg.
  destruct (p_line fuel L) as [| |R t] eqn:Ep; [done|done|]. destruct (skip R) as [|b R'] eqn:Es; [|done]. injection Hp as <-.
  destruct Hg as (p & ns' & E & Hr & HR). destruct Hf as (_ & _ & Hw).
  assert (En : mem_op (strlen s) (mksh u ns) = Ok (inr (Z.of_nat (length L))) (mksh u ns)).
  { apply mem_op_eq. destruct Hh as (H1 & H2 & H3). apply ustrlen_eq; [by apply cstr_rd|done]. }
  exists p, (zero_all m (ends (stop s L) t)), ns'. split_and!.
  - unfold parsecmd. rewrite (bindP_run _ _ _ _ _ En). fold (stop s L) fuel. rewrite (bindP_run _ _ _ _ _ E).
    rewrite mem_peek by done. rewrite Es. replace (at_ (stop s L) []) with (stop s L) by (unfold at_; cbn [length]; lia). rewrite Z.eqb_refl. cbn [negb].
    erewrite (bindP_run _ _ p); [reflexivity|]. apply continue_run, nulterminate_eq; [done| |lia].
    apply Forall_forall. intros w Hin. rewrite Forall_forall in Hw. destruct (placed_range s L w); [by apply Hw|lia].
  - by apply repr_holds.
  - intros y Hy. apply zero_all_out. intros Hin. by apply (ends_range s L t y Hs Hw) in Hin.
Qed.

(** A line the parser rejects. *)
Lemma parsecmd_err m o ns s L :
  holds_str m s L -> 0 < s -> Z.of_nat (length L) < 2 ^ 31 -> parse L = None -> exists st, parsecmd s (mksh (mkuser m o) ns) = Ok (inl 1) st.
Proof.
  intros Hh Hs Hl Hp. unfold parse in Hp. set (fuel := parse_fuel (Z.of_nat (length L))) in *. set (u := mkuser m o).
  assert (HL : line_at (u_mem u) (stop s L) L). { split; [|done]. unfold at_, stop. replace (_ - _) with s by lia. exact Hh. }
  assert (Ha : at_ (stop s L) L = s) by (unfold at_, stop; lia).
  destruct (fine_parser fuel L L) as [Hf _]; [by exists []|]. specialize (Hf ltac:(unfold fuel, parse_fuel; lia)).
  destruct (parser_eq u (stop s L) fuel L ns HL) as [Hg _]. rewrite Ha in Hg.
  assert (En : mem_op (strlen s) (mksh u ns) = Ok (inr (Z.of_nat (length L))) (mksh u ns)).
  { apply mem_op_eq. destruct Hh as (H1 & H2 & H3). apply ustrlen_eq; [by apply cstr_rd|done]. }
  unfold parsecmd. rewrite (bindP_run _ _ _ _ _ En). fold (stop s L) fuel.
  destruct (p_line fuel L) as [| |R t] eqn:Ep; [done| |].
  - destruct Hg as [st E]. exists st. by rewrite (bindP_exit _ _ _ _ _ E).
  - destruct (skip R) as [|b R'] eqn:Es; [done|]. destruct Hg as (p & ns' & E & Hr & HR). rewrite (bindP_run _ _ _ _ _ E).
    rewrite mem_peek by done. rewrite Es. rewrite (proj2 (Z.eqb_neq _ _)) by (unfold at_; cbn [length]; lia). cbn [negb].
    apply line_skip in HR. rewrite Es in HR. destruct HR as [(H1 & H2 & H3) H4].
    erewrite (bindP_run _ _ (b :: R')); [apply leftovers_eq|]. apply mem_op_eq. by apply cstring_eq.
Qed.
End Parsecmd.

(** C19: the shell's parser is total and computes the parse.  For every line in
    the shell's memory parsecmd() returns: if the line has the syntax of a
    command, it returns a tree of that command, whose words are strings in
    memory, each ended by a NUL, and it has changed nothing outside of the line;
    otherwise it ends the process with exit status 1. *)
Theorem parsecmd_total `{Unix} m o ns s L :
  holds_str m s L -> 0 < s -> Z.of_nat (length L) < 2 ^ 31 ->
  match parse L with
  | Some c => exists p m' ns', parsecmd s (mksh (mkuser m o) ns) = Ok (inr p) (mksh (mkuser m' o) (ns ++ ns')) /\
      holds_cmd m' (ns ++ ns') p c /\ (forall y, ~ (s <= y <= s + Z.of_nat (length L)) -> m' y = m y)
  | None => exists st, parsecmd s (mksh (mkuser m o) ns) = Ok (inl 1) st
  end.
Proof. intros Hh Hs Hl. destruct (parse L) eqn:E; [by apply (parsecmd_ok m o ns s L)|by apply (parsecmd_err m o ns s L)]. Qed.

(** A line with everything the syntax has, and one that is cut off. *)
Definition demo_line : list byte := lit "(cat<a b; ls)>out | grep -x y >> log &; wc".

Lemma demo_holds L : no_nul L -> holds_str (wr (fun _ => Byte.x00) 4096 L) 4096 L.
Proof.
  intros Hn. split_and!; [apply rd_wr_same| |done]. rewrite wr_out by lia. done.
Qed.

Definition demo_cmd : cmd :=
  CList (CBack (CPipe (CRedir (CList (CRedir (CExec [lit "cat"; lit "b"]) (lit "a") 0 0) (CExec [lit "ls"])) (lit "out") 1537 1)
    (CRedir (CExec [lit "grep"; lit "-x"; lit "y"]) (lit "log") 513 1))) (CExec [lit "wc"]).

Lemma parsecmd_total_witness :
  let u := wr (fun _ => Byte.x00) 4096 in let o := mktiny [] [] [] [] [] in
  (exists p m' ns, parsecmd 4096 (@mksh tiny (@mkuser tiny (u demo_line) o) []) = Ok (inr p) (@mksh tiny (@mkuser tiny m' o) ns) /\
     holds_cmd m' ns p demo_cmd) /\
  (exists st, parsecmd 4096 (@mksh tiny (@mkuser tiny (u (lit "ls | (wc")) o) []) = Ok (inl 1) st).
Proof.
  cbv zeta. assert (E : parse demo_line = Some demo_cmd) by by vm_compute. assert (E2 : parse (lit "ls | (wc") = None) by by vm_compute.
  assert (H1 : holds_str (wr (fun _ => Byte.x00) 4096 demo_line) 4096 demo_line) by (apply demo_holds, (bool_decide_unpack _); by vm_compute).
  assert (H2 : holds_str (wr (fun _ => Byte.x00) 4096 (lit "ls | (wc")) 4096 (lit "ls | (wc")) by (apply demo_holds, (bool_decide_unpack _); by vm_compute).
  pose proof (@parsecmd_total tiny _ (mktiny [] [] [] [] []) [] 4096 demo_line H1 ltac:(lia) ltac:(by vm_compute)) as T1. rewrite E in T1.
  pose proof (@parsecmd_total tiny _ (mktiny [] [] [] [] []) [] 4096 (lit "ls | (wc") H2 ltac:(lia) ltac:(by vm_compute)) as T2. rewrite E2 in T2.
  split; [|exact T2]. destruct T1 as (p & m' & ns' & E1 & Hc & _). exists p, m', ns'. split; [exact E1|exact Hc].
Defined.
