(* ===== verification/ShellSyntax.v ===== *)
(** The syntax of command lines as a grammar, and that the shell's parser
    inverts its printer: every phrase of the grammar, written with a space
    after each token, is parsed as the command it means. *)

From stdpp Require Import base tactics list strings.
From Stdlib Require Import ZArith Lia.
From coqutil Require Import Byte.
From S2P Require Import Prelude Mem StringC User Ulib Uprintf Grep Shell ShellParse ShellOk.

Local Open Scope Z_scope.

(** ** The grammar *)

Inductive rop := RIn | ROut | RAppend.

Definition redirection : Type := rop * list byte.

(** A line is pipelines, each with a number of &, separated by semicolons; a
    simple command is words and redirections, or a block. *)
Inductive line :=
  | LEnd (p : pipeline) (bg : nat)
  | LSeq (p : pipeline) (bg : nat) (l : line)
with pipeline :=
  | POne (e : simple)
  | PCons (e : simple) (p : pipeline)
with simple :=
  | SExec (rs : list redirection) (args : list (list byte * list redirection))
  | SBlock (l : line) (rs : list redirection).

Scheme line_mut := Induction for line Sort Prop
  with pipeline_mut := Induction for pipeline Sort Prop
  with simple_mut := Induction for simple Sort Prop.
Combined Scheme syntax_ind from line_mut, pipeline_mut, simple_mut.

Definition sp : byte := Byte.x20.

Definition op_text (o : rop) : list byte :=
  match o with RIn => lit "<" | ROut => lit ">" | RAppend => lit ">>" end.

Definition print_redir (r : redirection) : list byte := op_text r.1 ++ sp :: r.2 ++ [sp].
Definition print_redirs (rs : list redirection) : list byte := concat (print_redir <$> rs).
Definition print_arg (a : list byte * list redirection) : list byte := a.1 ++ sp :: print_redirs a.2.
Definition print_args (args : list (list byte * list redirection)) : list byte := concat (print_arg <$> args).
Definition print_bg (n : nat) : list byte := concat (replicate n (lit "& ")).

Fixpoint print_line (l : line) : list byte :=
  match l with
  | LEnd p n => print_pipeline p ++ print_bg n
  | LSeq p n l => print_pipeline p ++ print_bg n ++ lit "; " ++ print_line l
  end
with print_pipeline (p : pipeline) : list byte :=
  match p with
  | POne e => print_simple e
  | PCons e p => print_simple e ++ lit "| " ++ print_pipeline p
  end
with print_simple (e : simple) : list byte :=
  match e with
  | SExec rs args => print_redirs rs ++ print_args args
  | SBlock l rs => lit "( " ++ print_line l ++ lit ") " ++ print_redirs rs
  end.

(** What a phrase means. *)
Definition op_mode (o : rop) : Z :=
  match o with RIn => O_RDONLY | ROut => Z.lor (Z.lor O_WRONLY O_CREATE) O_TRUNC | RAppend => Z.lor O_WRONLY O_CREATE end.
Definition op_fd (o : rop) : Z := match o with RIn => 0 | _ => 1 end.

Definition redirect (c : cmd) (r : redirection) : cmd := CRedir c r.2 (op_mode r.1) (op_fd r.1).

Fixpoint line_cmd (l : line) : cmd :=
  match l with
  | LEnd p n => Nat.iter n CBack (pipeline_cmd p)
  | LSeq p n l => CList (Nat.iter n CBack (pipeline_cmd p)) (line_cmd l)
  end
with pipeline_cmd (p : pipeline) : cmd :=
  match p with
  | POne e => simple_cmd e
  | PCons e p => CPipe (simple_cmd e) (pipeline_cmd p)
  end
with simple_cmd (e : simple) : cmd :=
  match e with
  | SExec rs args => fold_left redirect (rs ++ concat args.*2) (CExec args.*1)
  | SBlock l rs => fold_left redirect rs (line_cmd l)
  end.

(** Words are words, and a command has fewer than MAXARGS of them. *)
Definition word_ok (w : list byte) : Prop := w <> [] /\ Forall (fun b => word_char b = true /\ byte.unsigned b <> 0) w.
Definition redirs_ok (rs : list redirection) : Prop := Forall (fun r => word_ok r.2) rs.

Fixpoint line_ok (l : line) : Prop :=
  match l with
  | LEnd p n => pipeline_ok p
  | LSeq p n l => pipeline_ok p /\ line_ok l
  end
with pipeline_ok (p : pipeline) : Prop :=
  match p with
  | POne e => simple_ok e
  | PCons e p => simple_ok e /\ pipeline_ok p
  end
with simple_ok (e : simple) : Prop :=
  match e with
  | SExec rs args => redirs_ok rs /\ Forall (fun a => word_ok a.1 /\ redirs_ok a.2) args /\ Z.of_nat (length args) < MAXARGS
  | SBlock l rs => line_ok l /\ redirs_ok rs
  end.

(** ** Tokens of printed text *)

(** No blank to skip. *)
Definition ready (R : list byte) : Prop := skip R = R.

Lemma ready_cons c R : blank c = false -> ready (c :: R).
Proof. intros Hc. unfold ready. cbn [skip]. by rewrite Hc. Qed.

Lemma next_in_cons toks c R : blank c = false -> next_in toks (c :: R) = occurs toks c.
Proof. intros Hc. unfold next_in. cbn [skip]. by rewrite Hc. Qed.

Lemma skip_sp R : ready R -> skip (sp :: R) = R.
Proof. intros HR. exact HR. Qed.

Lemma word_cons w : word_ok w -> exists c w', w = c :: w' /\ word_char c = true /\ blank c = false /\ occurs symbols c = false.
Proof.
  intros [Hne Hf]. destruct w as [|c w']; [done|]. exists c, w'. apply Forall_cons in Hf as [[Hc _] _]. split_and!; [done|done|..];
    unfold word_char in Hc; apply andb_true_iff in Hc as [H1 H2]; by apply negb_true_iff.
Qed.

Lemma span_word w R : Forall (fun b => word_char b = true /\ byte.unsigned b <> 0) w -> span (w ++ sp :: R) = (w, sp :: R).
Proof. induction 1 as [|b w [Hb _] Hw IH]; [done|]. cbn [app span]. by rewrite Hb, IH. Qed.

Lemma not_symbol c b : occurs symbols c = false -> occurs symbols b = true -> (byte.unsigned c =? byte.unsigned b) = false.
Proof. intros Hc Hb. apply Z.eqb_neq. intros E. apply byte.unsigned_inj in E as ->. congruence. Qed.

Lemma lex_printed_word w R : word_ok w -> ready R -> lex (w ++ sp :: R) = (tok_word, w, R).
Proof.
  intros Hw HR. destruct (word_cons w Hw) as (c & w' & -> & Hc & Hb & Hs). destruct Hw as [_ Hf]. unfold lex.
  rewrite <- app_comm_cons. change (skip (c :: w' ++ sp :: R)) with (if blank c then skip (w' ++ sp :: R) else c :: w' ++ sp :: R). rewrite Hb.
  cbv zeta. change 124 with (byte.unsigned Byte.x7c). change 40 with (byte.unsigned Byte.x28). change 41 with (byte.unsigned Byte.x29).
  change 59 with (byte.unsigned Byte.x3b). change 38 with (byte.unsigned Byte.x26). change lt with (byte.unsigned Byte.x3c). change gt with (byte.unsigned Byte.x3e).
  rewrite !(not_symbol c) by (exact Hs || reflexivity). cbn [orb].
  rewrite app_comm_cons, span_word by done. cbn [fst snd]. by rewrite skip_sp.
Qed.

Lemma lex_printed_sym c R : occurs (lit "|();&<>") c = true -> ready R -> lex (c :: sp :: R) = (byte.unsigned c, [c], R).
Proof.
  intros Hc HR. transitivity (byte.unsigned c, [c], skip R); [|by rewrite HR]. cbn in Hc. rewrite !orb_true_iff in Hc.
  repeat destruct Hc as [->%beq_true|Hc]; [reflexivity..|done].
Qed.

Lemma lex_printed_append R : ready R -> lex (lit ">>" ++ sp :: R) = (tok_append, lit ">>", R).
Proof. intros HR. transitivity (tok_append, lit ">>", skip R); [reflexivity|by rewrite HR]. Qed.

(** ** What follows a phrase *)

(** The text ends, or goes on with one of [toks]. *)
Definition stops (toks R : list byte) : Prop := match R with [] => True | c :: _ => occurs toks c = true end.

Lemma occurs_forallb (f : byte -> bool) toks c : forallb f toks = true -> occurs toks c = true -> f c = true.
Proof.
  unfold occurs. rewrite forallb_forall, existsb_exists. intros Hf (b & Hb & ->%beq_true). by apply Hf.
Qed.

Lemma stops_ready toks R : forallb (fun b => negb (blank b)) toks = true -> stops toks R -> ready R.
Proof. destruct R as [|c R]; [done|]. intros Hf Hs. apply ready_cons. by apply negb_true_iff, (occurs_forallb (fun b => negb (blank b)) toks). Qed.

Lemma stops_mono toks toks' R : forallb (occurs toks') toks = true -> stops toks R -> stops toks' R.
Proof. destruct R as [|c R]; [done|]. intros Hf Hs. by apply (occurs_forallb (occurs toks') toks). Qed.

Lemma stops_not_in toks toks' R : forallb (fun b => negb (blank b)) toks = true -> forallb (fun b => negb (occurs toks' b)) toks = true ->
  stops toks R -> next_in toks' R = false.
Proof.
  destruct R as [|c R]; [done|]. intros Hb Hf Hs. rewrite next_in_cons by (by apply negb_true_iff, (occurs_forallb (fun b => negb (blank b)) toks)).
  by apply negb_true_iff, (occurs_forallb (fun b => negb (occurs toks' b)) toks).
Qed.

Lemma stops_in toks R : forallb (fun b => negb (blank b)) toks = true -> stops toks R -> R = [] \/ next_in toks R = true.
Proof.
  destruct R as [|c R]; [by left|]. intros Hb Hs. right. by rewrite next_in_cons by (by apply negb_true_iff, (occurs_forallb (fun b => negb (blank b)) toks)).
Qed.

(** ** Redirections and arguments *)

Definition same_redirs (rs' : list redir) (rs : list redirection) : Prop :=
  (fun r => ((rd_file r).1, rd_mode r, rd_fd r)) <$> rs' = (fun r => (r.2, op_mode r.1, op_fd r.1)) <$> rs.

Lemma erase_wrap t rs' rs : same_redirs rs' rs -> erase (wrap t rs') = fold_left redirect rs (erase t).
Proof.
  revert t rs. unfold same_redirs. induction rs' as [|r' rs' IH]; intros t [|r rs]; try done. rewrite !fmap_cons. intros [= H1 H2 H3 H4].
  cbn [wrap fold_left]. change (fold_left TRedir rs' ?x) with (wrap x rs'). rewrite (IH _ rs H4). f_equal. cbn [erase]. unfold redirect. congruence.
Qed.

Lemma same_redirs_app rs1' rs1 rs2' rs2 : same_redirs rs1' rs1 -> same_redirs rs2' rs2 -> same_redirs (rs1' ++ rs2') (rs1 ++ rs2).
Proof. unfold same_redirs. rewrite !fmap_app. congruence. Qed.

Lemma ready_word w R : word_ok w -> ready (w ++ R).
Proof. intros Hw. destruct (word_cons w Hw) as (c & w' & -> & _ & Hb & _). by apply ready_cons. Qed.

Lemma word_not_in w R toks : word_ok w -> forallb (occurs symbols) toks = true -> next_in toks (w ++ R) = false.
Proof.
  intros Hw Hf. destruct (word_cons w Hw) as (c & w' & -> & _ & Hb & Hs). rewrite <- app_comm_cons, next_in_cons by done.
  apply not_true_iff_false. intros Ho. apply (occurs_forallb _ _ _ Hf) in Ho. congruence.
Qed.

Lemma print_redirs_cons o f rs R : print_redirs ((o, f) :: rs) ++ R = op_text o ++ sp :: f ++ sp :: print_redirs rs ++ R.
Proof. unfold print_redirs. rewrite fmap_cons. cbn [concat]. unfold print_redir. cbn [fst snd]. by repeat (rewrite <- app_assoc || rewrite <- app_comm_cons). Qed.

Lemma ready_redirs rs R : ready R -> ready (print_redirs rs ++ R).
Proof. destruct rs as [|[[] f] rs]; [done|..]; intros _; rewrite print_redirs_cons; by apply ready_cons. Qed.

(** The token of a redirection. *)
Lemma lex_op o R : ready R -> next_in (lit "<>") (op_text o ++ sp :: R) = true /\ skip (op_text o ++ sp :: R) = op_text o ++ sp :: R /\
  (lex (op_text o ++ sp :: R)).2 = R /\ forall w, redir_of (lex (op_text o ++ sp :: R)).1.1 w = mkredir w (op_mode o) (op_fd o).
Proof.
  intros HR. destruct o.
  - cbn [op_text]. change (lit "<" ++ sp :: R) with (Byte.x3c :: sp :: R). rewrite lex_printed_sym by done. done.
  - cbn [op_text]. change (lit ">" ++ sp :: R) with (Byte.x3e :: sp :: R). rewrite lex_printed_sym by done. done.
  - cbn [op_text]. rewrite lex_printed_append by done. done.
Qed.

Lemma parse_redirs n rs R : redirs_ok rs -> ready R -> next_in (lit "<>") R = false -> p_redirs n (print_redirs rs ++ R) <> Fuel ->
  exists rs', p_redirs n (print_redirs rs ++ R) = Got R rs' /\ same_redirs rs' rs.
Proof.
  intros Hrs HR Hn. revert n. induction Hrs as [|[o f] rs Hf Hrs IH]; intros [|n]; try done.
  { cbn [print_redirs fmap list_fmap concat app p_redirs]. rewrite Hn, HR. intros _. by exists []. }
  cbn [snd] in Hf. rewrite print_redirs_cons. assert (H1 := ready_redirs rs R HR). assert (H2 := ready_word f (sp :: print_redirs rs ++ R) Hf).
  destruct (lex_op o _ H2) as (E1 & E2 & E3 & E4). cbn [p_redirs]. rewrite E1, E2, E3, E4. cbv zeta. unfold word_at. rewrite lex_printed_word by done.
  cbn [fst snd]. rewrite Z.eqb_refl. intros Hne. destruct (IH n) as (rs' & E & Hs); [by destruct (p_redirs n _)|]. rewrite E. eexists. split; [reflexivity|].
  unfold same_redirs in *. rewrite !fmap_cons, Hs. done.
Qed.

Lemma print_args_cons w rs args R : print_args ((w, rs) :: args) ++ R = w ++ sp :: print_redirs rs ++ print_args args ++ R.
Proof. unfold print_args. rewrite fmap_cons. cbn [concat]. unfold print_arg. cbn [fst snd]. by repeat (rewrite <- app_assoc || rewrite <- app_comm_cons). Qed.

Definition args_ok (args : list (list byte * list redirection)) : Prop := Forall (fun a => word_ok a.1 /\ redirs_ok a.2) args.

Lemma args_start args R : args_ok args -> stops (lit "|)&;") R -> ready (print_args args ++ R) /\ next_in (lit "<>") (print_args args ++ R) = false.
Proof.
  intros Ha HR. destruct Ha as [|[w rs] args [Hw _] Ha]; [split; [by apply (stops_ready (lit "|)&;"))|by apply (stops_not_in (lit "|)&;"))]|].
  rewrite print_args_cons. split; [by apply ready_word|by apply word_not_in].
Qed.

Lemma parse_args n args0 args R : args_ok args -> stops (lit "|)&;") R -> Z.of_nat (length args0 + length args) < MAXARGS ->
  p_args n args0 (print_args args ++ R) <> Fuel ->
  exists args' rs', p_args n args0 (print_args args ++ R) = Got R (args', rs') /\ args'.*1 = args0.*1 ++ args.*1 /\ same_redirs rs' (concat args.*2).
Proof.
  intros Ha HR. revert n args0. induction Ha as [|[w rs] args [Hw Hrs] Ha IH]; intros [|n] args0 Hl; try done.
  - cbn [print_args fmap list_fmap concat app p_args]. intros _. assert (Hr := stops_ready (lit "|)&;") R eq_refl HR). exists args0, []. rewrite app_nil_r.
    destruct (stops_in (lit "|)&;") R eq_refl HR) as [->|E]; [done|]. rewrite E, Hr. done.
  - cbn [fst snd length] in *. destruct (args_start args R Ha HR) as [H1 H2]. assert (H3 := ready_redirs rs _ H1).
    rewrite print_args_cons. cbn [p_args]. rewrite (word_not_in w) by done. rewrite (ready_word w _ Hw). cbv zeta. unfold word_at.
    rewrite lex_printed_word by done. cbn [fst snd]. rewrite (proj2 (Z.eqb_neq tok_word 0)), Z.eqb_refl by done. cbn [negb].
    rewrite (proj2 (Z.leb_gt MAXARGS _)) by (rewrite length_app; cbn [length]; lia). intros Hne.
    destruct (parse_redirs (S (length (print_redirs rs ++ print_args args ++ R))) rs (print_args args ++ R)) as (rs' & E & Hs); [done|done|done|by destruct (p_redirs _ _)|].
    rewrite E in Hne |- *. cbn [rbind] in Hne |- *. match goal with |- context [p_args n (args0 ++ [?x]) _] => set (w' := x) in * end.
    destruct (IH n (args0 ++ [w'])) as (args' & rs'' & E2 & Hw' & Hs'); [rewrite length_app; cbn [length]; lia|by destruct (p_args _ _ _)|].
    exists args', (rs' ++ rs''). split; [exact (f_equal (fun r => rbind r _) E2)|]. split; [|by apply same_redirs_app]. rewrite Hw', fmap_app, <- app_assoc. done.
Qed.

(** ** Commands *)

Lemma exec_start rs args R : redirs_ok rs -> args_ok args -> stops (lit "|)&;") R -> next_in (lit "(") (print_redirs rs ++ print_args args ++ R) = false.
Proof.
  intros Hrs Ha HR. destruct rs as [|[[] f] rs]; [|by rewrite print_redirs_cons..]. cbn [print_redirs fmap list_fmap concat app].
  destruct Ha as [|[w rs] args [Hw _] Ha]; [by apply (stops_not_in (lit "|)&;"))|]. rewrite print_args_cons. by apply word_not_in.
Qed.

Lemma print_bg_S k R : print_bg (S k) ++ R = Byte.x26 :: sp :: print_bg k ++ R.
Proof. unfold print_bg. cbn [replicate concat]. by rewrite <- app_assoc. Qed.

Lemma bg_stops k toks R : occurs toks Byte.x26 = true -> stops toks R -> stops toks (print_bg k ++ R).
Proof. intros Ho HR. destruct k as [|k]; [done|]. rewrite print_bg_S. exact Ho. Qed.

Lemma parse_backs n k t R : stops (lit ");") R -> p_backs n t (print_bg k ++ R) <> Fuel ->
  p_backs n t (print_bg k ++ R) = Got R (Nat.iter k TBack t).
Proof.
  intros HR. revert n t. induction k as [|k IH]; intros [|n] t; try done.
  - cbn [print_bg replicate concat app p_backs]. rewrite (stops_not_in (lit ");")), (stops_ready (lit ");")) by done. done.
  - rewrite print_bg_S. cbn [p_backs]. rewrite next_in_cons by done. cbn [occurs existsb]. change (occurs (lit "&") Byte.x26) with true. cbv iota.
    rewrite ready_cons by done. rewrite lex_printed_sym; [|done|by apply (stops_ready (lit ");&")), bg_stops; [..|apply (stops_mono (lit ");"))]]. cbn [snd]. intros Hne.
    rewrite IH by done. by rewrite Nat.iter_succ_r.
Qed.

Lemma erase_iter k t : erase (Nat.iter k TBack t) = Nat.iter k CBack (erase t).
Proof. induction k as [|k IH]; [done|]. change (CBack (erase (Nat.iter k TBack t)) = CBack (Nat.iter k CBack (erase t))). by rewrite IH. Qed.

(** A separator after a phrase. *)
Lemma sym_next c R : occurs (lit "|();&<>") c = true -> blank c = false ->
  ready R -> next_in [c] (c :: sp :: R) = true /\ (lex (skip (c :: sp :: R))).2 = R.
Proof.
  intros Hc Hb HR. rewrite next_in_cons, ready_cons, lex_printed_sym by done. split; [|done]. unfold occurs, beq. cbn. by rewrite bool_decide_eq_true_2.
Qed.

Lemma ready_args args R : args_ok args -> ready R -> ready (print_args args ++ R).
Proof. intros Ha HR. destruct Ha as [|[w rs] args [Hw _] Ha]; [done|]. rewrite print_args_cons. by apply ready_word. Qed.

Lemma ready_syntax :
  (forall l R, line_ok l -> ready R -> ready (print_line l ++ R)) /\
  (forall p R, pipeline_ok p -> ready R -> ready (print_pipeline p ++ R)) /\
  (forall e R, simple_ok e -> ready R -> ready (print_simple e ++ R)).
Proof.
  assert (Hbg : forall n R, ready R -> ready (print_bg n ++ R)).
  { intros [|n] R HR; [done|]. rewrite print_bg_S. by apply ready_cons. }
  apply syntax_ind; cbn [print_line print_pipeline print_simple line_ok pipeline_ok simple_ok].
  - intros p IH n R Hok HR. rewrite <- app_assoc. auto.
  - intros p IH n l _ R [Hok _] HR. rewrite <- !app_assoc. apply IH; [done|]. apply Hbg. by apply ready_cons.
  - auto.
  - intros e IH p _ R [Hok _] HR. rewrite <- !app_assoc. apply IH; [done|]. by apply ready_cons.
  - intros rs args R (Hrs & Ha & _) HR. rewrite <- app_assoc. by apply ready_redirs, ready_args.
  - intros l _ rs R _ _. by apply ready_cons.
Qed.

Lemma parse_simple fuel rs args R : redirs_ok rs -> args_ok args -> Z.of_nat (length args) < MAXARGS -> stops (lit "|)&;") R ->
  p_exec fuel (print_simple (SExec rs args) ++ R) <> Fuel ->
  exists t, p_exec fuel (print_simple (SExec rs args) ++ R) = Got R t /\ erase t = simple_cmd (SExec rs args).
Proof.
  intros Hrs Ha Hl HR. cbn [print_simple]. rewrite <- app_assoc. destruct fuel as [|fuel]; [done|]. cbn [p_exec]. rewrite exec_start by done.
  destruct (args_start args R Ha HR) as [H1 H2]. rewrite (ready_redirs rs) by done. intros Hne.
  destruct (parse_redirs (S (length (print_redirs rs ++ print_args args ++ R))) rs (print_args args ++ R)) as (rs' & E & Hs); [done|done|done|by destruct (p_redirs _ _)|].
  rewrite E in Hne |- *. cbn [rbind] in Hne |- *.
  destruct (parse_args (S (length (print_args args ++ R))) [] args R) as (args' & rs'' & E2 & Hw & Hs'); [done|done|cbn [length]; lia|by destruct (p_args _ _ _)|].
  rewrite E2. cbn [rbind fst snd]. eexists. split; [reflexivity|]. cbn [simple_cmd]. rewrite (erase_wrap _ _ (rs ++ concat args.*2)) by by apply same_redirs_app.
  cbn [erase]. by rewrite Hw.
Qed.

Lemma parse_syntax :
  (forall l, line_ok l -> forall fuel R, stops (lit ")") R -> p_line fuel (print_line l ++ R) <> Fuel ->
     exists t, p_line fuel (print_line l ++ R) = Got R t /\ erase t = line_cmd l) /\
  (forall p, pipeline_ok p -> forall fuel R, stops (lit ")&;") R -> p_pipe fuel (print_pipeline p ++ R) <> Fuel ->
     exists t, p_pipe fuel (print_pipeline p ++ R) = Got R t /\ erase t = pipeline_cmd p) /\
  (forall e, simple_ok e -> forall fuel R, stops (lit "|)&;") R -> p_exec fuel (print_simple e ++ R) <> Fuel ->
     exists t, p_exec fuel (print_simple e ++ R) = Got R t /\ erase t = simple_cmd e).
Proof.
  destruct ready_syntax as (Rl & Rp & Rs). apply syntax_ind.
  - intros p IH n Hok [|fuel] R HR; [done|]. cbn [print_line p_line line_cmd]. rewrite <- app_assoc. intros Hne.
    destruct (IH Hok fuel (print_bg n ++ R)) as (t & E & Et); [by apply bg_stops, (stops_mono (lit ")"))|by destruct (p_pipe _ _)|].
    rewrite E in Hne |- *. cbn [rbind] in Hne |- *. assert (H1 : stops (lit ");") R) by by apply (stops_mono (lit ")")).
    rewrite parse_backs in Hne |- * by (done || by destruct (p_backs _ _ _)). cbn [rbind].
    rewrite (stops_not_in (lit ")")), (stops_ready (lit ")")) by done. eexists. split; [done|]. by rewrite erase_iter, Et.
  - intros p IH n l IHl [Hp Hl] [|fuel] R HR; [done|]. cbn [print_line p_line line_cmd]. rewrite <- !app_assoc. intros Hne.
    change (lit "; " ++ print_line l ++ R) with (Byte.x3b :: sp :: print_line l ++ R) in *.
    destruct (IH Hp fuel (print_bg n ++ Byte.x3b :: sp :: print_line l ++ R)) as (t & E & Et); [by apply bg_stops|by destruct (p_pipe _ _)|].
    rewrite E in Hne |- *. cbn [rbind] in Hne |- *. rewrite parse_backs in Hne |- * by (done || by destruct (p_backs _ _ _)). cbn [rbind] in Hne |- *.
    assert (HR' := Rl l R Hl (stops_ready (lit ")") R eq_refl HR)). destruct (sym_next Byte.x3b (print_line l ++ R)) as [E1 E2]; [done..|].
    change (lit ";") with [Byte.x3b] in *. rewrite E1, E2 in Hne |- *. destruct (IHl Hl fuel R HR) as (t' & E' & Et'); [by destruct (p_line _ _)|].
    rewrite E'. cbn [rbind]. eexists. split; [done|]. cbn [erase]. by rewrite erase_iter, Et, Et'.
  - intros e IH Hok [|fuel] R HR; [done|]. cbn [print_pipeline p_pipe pipeline_cmd]. intros Hne.
    destruct (IH Hok fuel R) as (t & E & Et); [by apply (stops_mono (lit ")&;"))|by destruct (p_exec _ _)|].
    rewrite E. cbn [rbind]. rewrite (stops_not_in (lit ")&;")), (stops_ready (lit ")&;")) by done. by exists t.
  - intros e IH p IHp [He Hp] [|fuel] R HR; [done|]. cbn [print_pipeline p_pipe pipeline_cmd]. rewrite <- !app_assoc. intros Hne.
    change (lit "| " ++ print_pipeline p ++ R) with (Byte.x7c :: sp :: print_pipeline p ++ R) in *.
    destruct (IH He fuel (Byte.x7c :: sp :: print_pipeline p ++ R)) as (t & E & Et); [done|by destruct (p_exec _ _)|].
    rewrite E in Hne |- *. cbn [rbind] in Hne |- *.
    assert (HR' := Rp p R Hp (stops_ready (lit ")&;") R eq_refl HR)). destruct (sym_next Byte.x7c (print_pipeline p ++ R)) as [E1 E2]; [done..|].
    change (lit "|") with [Byte.x7c] in *. rewrite E1, E2 in Hne |- *. destruct (IHp Hp fuel R HR) as (t' & E' & Et'); [by destruct (p_pipe _ _)|].
    rewrite E'. cbn [rbind]. eexists. split; [done|]. cbn [erase]. by rewrite Et, Et'.
  - intros rs args (Hrs & Ha & Hl) fuel R HR. by apply parse_simple.
  - intros l IH rs [Hl Hrs] [|fuel] R HR; [done|]. cbn [print_simple p_exec simple_cmd]. rewrite <- !app_assoc.
    change (lit "( " ++ ?X) with (Byte.x28 :: sp :: X). change (lit ") " ++ ?X) with (Byte.x29 :: sp :: X).
    assert (HR1 : ready (print_redirs rs ++ R)) by by apply ready_redirs, (stops_ready (lit "|)&;")).
    assert (HR2 : ready (print_line l ++ Byte.x29 :: sp :: print_redirs rs ++ R)) by (apply Rl; [done|by apply ready_cons]).
    destruct (sym_next Byte.x28 _ eq_refl eq_refl HR2) as [E1 E2]. destruct (sym_next Byte.x29 _ eq_refl eq_refl HR1) as [E3 E4].
    assert (ES := ready_cons Byte.x28 (sp :: print_line l ++ Byte.x29 :: sp :: print_redirs rs ++ R) eq_refl). unfold ready in ES.
    change (lit "(") with [Byte.x28]. intros Hne. rewrite E1, ES in Hne |- *. destruct fuel as [|fuel]; [done|]. cbn [p_block] in *.
    change (lit "(") with [Byte.x28] in *. rewrite E1, E2 in Hne |- *. cbn [negb] in *.
    destruct (IH Hl fuel (Byte.x29 :: sp :: print_redirs rs ++ R)) as (t & E & Et); [done|by destruct (p_line _ _)|].
    rewrite E in Hne |- *. cbn [rbind] in Hne |- *. change (lit ")") with [Byte.x29] in *. rewrite E3, E4 in Hne |- *. cbn [negb] in Hne |- *. cbv zeta in *.
    destruct (parse_redirs (S (length (print_redirs rs ++ R))) rs R) as (rs' & E' & Hs);
      [done|by apply (stops_ready (lit "|)&;"))|by apply (stops_not_in (lit "|)&;"))|by destruct (p_redirs _ _)|].
    rewrite E'. cbn [rbind]. eexists. split; [done|]. by rewrite (erase_wrap _ _ rs), Et.
Qed.

Lemma parse_print l : line_ok l -> parse (print_line l) = Some (line_cmd l).
Proof.
  intros Hok. unfold parse. set (fuel := parse_fuel _). destruct (fine_parser fuel (print_line l) (print_line l)) as [Hf _]; [by exists []|].
  specialize (Hf ltac:(unfold fuel, parse_fuel; lia)). destruct parse_syntax as (P & _ & _). specialize (P l Hok fuel []). rewrite app_nil_r in P.
  destruct P as (t & E & Et); [done|by destruct (p_line _ _)|]. rewrite E. cbn [skip]. by rewrite Et.
Qed.

Lemma print_no_nul :
  (forall l, line_ok l -> no_nul (print_line l)) /\ (forall p, pipeline_ok p -> no_nul (print_pipeline p)) /\ (forall e, simple_ok e -> no_nul (print_simple e)).
Proof.
  unfold no_nul. assert (Hw : forall w, word_ok w -> Forall (fun b => byte.unsigned b <> 0) w) by (intros w [_ H]; eapply Forall_impl; [exact H|by intros b []]).
  assert (Hl : forall s, forallb (fun b => negb (byte.unsigned b =? 0)) s = true -> Forall (fun b => byte.unsigned b <> 0) s).
  { intros s. rewrite forallb_forall. intros H. apply Forall_forall. intros b Hb. apply list_elem_of_In, H in Hb. by apply Z.eqb_neq, negb_true_iff. }
  assert (Hr : forall rs, redirs_ok rs -> Forall (fun b => byte.unsigned b <> 0) (print_redirs rs)).
  { intros rs Hrs. apply Forall_concat, Forall_fmap. eapply Forall_impl; [exact Hrs|]. intros [o f] Hf. cbn. unfold print_redir. cbn [fst snd].
    apply Forall_app. split; [destruct o; by apply Hl|]. constructor; [done|]. apply Forall_app. split; [by apply Hw|by apply Hl]. }
  apply syntax_ind; cbn [print_line print_pipeline print_simple line_ok pipeline_ok simple_ok].
  - intros p IH n Hok. apply Forall_app. split; [auto|]. apply Forall_concat, Forall_replicate. by apply Hl.
  - intros p IH n l IHl [Hp H]. repeat (apply Forall_app; split); [by apply IH| |by apply Hl|by apply IHl]. apply Forall_concat, Forall_replicate. by apply Hl.
  - auto.
  - intros e IH p IHp [He Hp]. repeat (apply Forall_app; split); [by apply IH|by apply Hl|by apply IHp].
  - intros rs args (Hrs & Ha & _). apply Forall_app. split; [auto|]. apply Forall_concat, Forall_fmap. eapply Forall_impl; [exact Ha|].
    intros [w rs'] [H1 H2]. cbn. unfold print_arg. cbn [fst snd] in *. apply Forall_app. split; [by apply Hw|]. constructor; [done|by apply Hr].
  - intros l IH rs [H1 H2]. repeat (apply Forall_app; split); [by apply Hl|by apply IH|by apply Hl|by apply Hr].
Qed.

(** C20: the shell's parser inverts the printer.  A phrase of the grammar of
    command lines (pipelines, background and sequencing, blocks, redirections
    anywhere between the words), written with a space after each token, is
    parsed as the command it means: parsecmd() returns a tree of that command,
    with its words as strings in memory. *)
Theorem parsecmd_print `{Unix} m o ns s l :
  line_ok l -> rd m s (length (print_line l)) = print_line l -> byte.unsigned (m (s + Z.of_nat (length (print_line l)))) = 0 ->
  0 < s -> Z.of_nat (length (print_line l)) < 2 ^ 31 ->
  exists p m' ns', parsecmd s (mksh (mkuser m o) ns) = Ok (inr p) (mksh (mkuser m' o) (ns ++ ns')) /\ holds_cmd m' (ns ++ ns') p (line_cmd l).
Proof.
  intros Hok Hr Hz Hs Hl. destruct print_no_nul as (N & _ & _). 
  destruct (parsecmd_ok m o ns s (print_line l) (line_cmd l)) as (p & m' & ns' & E & Hc & _); [by split_and!; [..|apply N]|done|done|by apply parse_print|].
  by exists p, m', ns'.
Qed.

Definition demo_syntax : line :=
  LSeq (PCons (SBlock (LSeq (POne (SExec [(RIn, lit "in")] [(lit "cat", [(RAppend, lit "log")]); (lit "-n", [])])) 0 (LEnd (POne (SExec [] [(lit "ls", [])])) 0)) [(ROut, lit "out")])
    (POne (SExec [] [(lit "wc", [])]))) 2 (LEnd (POne (SExec [] [(lit "echo", []); (lit "done", [])])) 0).

Lemma parsecmd_print_witness :
  exists p m' ns, parsecmd 4096 (@mksh tiny (@mkuser tiny (wr (fun _ => Byte.x00) 4096 (print_line demo_syntax)) (mktiny [] [] [] [] [])) []) =
    Ok (inr p) (@mksh tiny (@mkuser tiny m' (mktiny [] [] [] [] [])) ns) /\ holds_cmd m' ns p (line_cmd demo_syntax).
Proof.
  destruct (@parsecmd_print tiny (wr (fun _ => Byte.x00) 4096 (print_line demo_syntax)) (mktiny [] [] [] [] []) [] 4096 demo_syntax) as (p & m' & ns & E & Hc).
  - cbn [demo_syntax line_ok pipeline_ok simple_ok]. split_and!; try done; repeat constructor; try done; apply (bool_decide_unpack _); by vm_compute.
  - apply rd_wr_same.
  - by vm_compute.
  - lia.
  - by vm_compute.
  - exists p, m', ns. split; [exact E|exact Hc].
Defined.
