(* ===== verification/ShellRun.v ===== *)
(** Running a command: the processes runcmd() of the shell creates, and the
    descriptors each program starts with.

    The specification says what redirections and pipes mean; the theorem is
    that the shell's sequence of close(), open(), pipe(), dup() and fork() gives
    every program exactly its three descriptors, and leaves none of the pipes'
    other descriptors open in it. *)

From stdpp Require Import base tactics list strings.
From Stdlib Require Import ZArith Lia.
From coqutil Require Import Byte.
From S2P Require Import Prelude Mem StringC User Ulib Uprintf Grep Shell ShellParse ShellOk ShellSyntax.

Local Open Scope Z_scope.

(** ** Descriptors *)

Inductive obj :=
  | OOpen (path : list byte) (mode : Z)
  | OPipeR (id : nat)
  | OPipeW (id : nat)
  | OOther (id : nat).

Definition table : Type := list (option obj).

(** The lowest free descriptor. *)
Fixpoint fdalloc (T : table) (o : obj) : option (nat * table) :=
  match T with
  | [] => None
  | None :: T => Some (0%nat, Some o :: T)
  | Some x :: T => match fdalloc T o with Some (fd, T) => Some (S fd, Some x :: T) | None => None end
  end.

Definition fdclose (T : table) (fd : Z) : table := <[Z.to_nat fd := None]> T.

(** Standard input, output and error, and 13 free descriptors: NOFILE is 16. *)
Definition std (i o e : obj) : table := [Some i; Some o; Some e] ++ replicate 13 None.

(** A program that starts: its path, its arguments and its descriptors. *)
Definition start : Type := list byte * list (list byte) * table.

(** The programs that a process and its children start, when its system calls
    succeed; [n] numbers the pipes.  [None] is for a process that is stuck. *)
Fixpoint starts (p : proc) (T : table) (n : nat) : option (list start * nat) :=
  match p with
  | Exit _ => Some ([], n)
  | Exec path argv _ => Some ([(path, argv, T)], n)
  | Open path mode k =>
      match fdalloc T (OOpen path mode) with
      | Some (fd, T) => starts (k (Z.of_nat fd)) T n
      | None => starts (k (-1)) T n
      end
  | Close fd k => starts k (fdclose T fd) n
  | Dup fd k =>
      match T !! Z.to_nat fd with
      | Some (Some o) =>
          match fdalloc T o with
          | Some (fd, T) => starts (k (Z.of_nat fd)) T n
          | None => starts (k (-1)) T n
          end
      | _ => starts (k (-1)) T n
      end
  | Pipe k =>
      match fdalloc T (OPipeR n) with
      | None => starts (k None) T n
      | Some (p0, T0) =>
          match fdalloc T0 (OPipeW n) with
          | None => starts (k None) T n
          | Some (p1, T1) => starts (k (Some (Z.of_nat p0, Z.of_nat p1))) T1 (S n)
          end
      end
  | Fork k =>
      match starts (k 0) T n with
      | None => None
      | Some (l1, n1) =>
          match starts (k 1) T n1 with
          | None => None
          | Some (l2, n2) => Some (l1 ++ l2, n2)
          end
      end
  | Wait k => starts k T n
  | Fprintf _ _ _ k => starts k T n
  | Stuck => None
  end.

(** ** What a command means *)

Fixpoint wires (c : cmd) (i o e : obj) (n : nat) : list start * nat :=
  match c with
  | CExec ws => match ws with [] => ([], n) | w :: _ => ([(w, ws, std i o e)], n) end
  | CRedir c file mode fd => if fd =? 0 then wires c (OOpen file mode) o e n else wires c i (OOpen file mode) e n
  | CPipe l r =>
      let a := wires l i (OPipeW n) e (S n) in
      let b := wires r (OPipeR n) o e a.2 in
      (a.1 ++ b.1, b.2)
  | CList l r =>
      let a := wires l i o e n in
      let b := wires r i o e a.2 in
      (a.1 ++ b.1, b.2)
  | CBack c => wires c i o e n
  end.

(** Words fit into a page, and only standard input and output are redirected,
    as in what the parser returns. *)
Definition small (w : list byte) : Prop := (length w <= 4096)%nat.

Fixpoint cmd_ok (c : cmd) : Prop :=
  match c with
  | CExec ws => Forall small ws
  | CRedir c file mode fd => cmd_ok c /\ small file /\ (fd = 0 \/ fd = 1)
  | CPipe l r | CList l r => cmd_ok l /\ cmd_ok r
  | CBack c => cmd_ok c
  end.

(** ** Theorems *)

Lemma holds_string m q w : holds_str m q w -> small w -> string_at m q = w.
Proof.
  intros (Hr & Hz & Hn). unfold small, string_at. generalize 4096%nat. revert q Hr Hz. induction Hn as [|b w Hb Hn IH]; intros q Hr Hz n Hl.
  - destruct n as [|n]; [done|]. cbn [length cname] in *. rewrite Z.add_0_r in Hz. by rewrite Hz.
  - cbn [length] in *. destruct n as [|n]; [lia|]. rewrite rd_S in Hr. injection Hr as E Hr. cbn [cname]. rewrite E.
    rewrite (proj2 (Z.eqb_neq _ _) Hb). f_equal. apply IH; [done| |lia]. rewrite <- Hz. do 2 f_equal. lia.
Qed.

Lemma argv_strings m argv ws : argv_holds m argv ws -> Forall small ws ->
  arg_strings m argv = ws /\ exists q rest, argv = q :: rest /\ (if ws is w :: _ then q <> 0 /\ string_at m q = w else q = 0).
Proof.
  intros (qs & rest & -> & H) Hs. split.
  - induction H as [|q w qs ws [Hq Hw] H IH]; [done|]. apply Forall_cons in Hs as [Hs1 Hs]. cbn [app arg_strings].
    rewrite (proj2 (Z.eqb_neq _ _) Hq), IH by done. by rewrite (holds_string m q w).
  - destruct H as [|q w qs ws [Hq Hw] H]; [by exists 0, rest|]. apply Forall_cons in Hs as [Hs _]. exists q, (qs ++ 0 :: rest).
    split_and!; [done|done|by apply holds_string].
Qed.

Lemma holds_cmd_pos m ns p c : holds_cmd m ns p c -> 0 < p.
Proof. destruct c; cbn [holds_cmd]; [intros (? & ? & [H _] & _)|intros (? & ? & ? & [H _] & _)|intros (? & ? & [H _] & _)..|intros (? & [H _] & _)]; exact H. Qed.

(** The table after pipe(). *)
Definition with_pipe (i o e : obj) (n : nat) : table := [Some i; Some o; Some e; Some (OPipeR n); Some (OPipeW n)] ++ replicate 11 None.

Lemma starts_pipe k i o e n : starts (Pipe k) (std i o e) n = starts (k (Some (3, 4))) (with_pipe i o e n) (S n).
Proof. reflexivity. Qed.

Lemma starts_writer k i o e n n' : starts (Close 1 (Dup 4 (fun _ => Close 3 (Close 4 k)))) (with_pipe i o e n) n' = starts k (std i (OPipeW n) e) n'.
Proof. reflexivity. Qed.

Lemma starts_reader k i o e n n' : starts (Close 0 (Dup 3 (fun _ => Close 3 (Close 4 k)))) (with_pipe i o e n) n' = starts k (std (OPipeR n) o e) n'.
Proof. reflexivity. Qed.

Lemma starts_fork1 k T n l1 n1 l2 n2 : starts (k 0) T n = Some (l1, n1) -> starts (k 1) T n1 = Some (l2, n2) -> starts (fork1 k) T n = Some (l1 ++ l2, n2).
Proof. intros E1 E2. cbn [fork1 starts]. cbn [Z.eqb]. by rewrite E1, E2. Qed.

(** runcmd() of a command tree starts the programs of the command with the
    descriptors the specification says. *)
Lemma runcmd_ok m ns p c i o e n fuel :
  holds_cmd m ns p c -> cmd_ok c -> p <= Z.of_nat fuel ->
  starts (runcmd fuel m ns p) (std i o e) n = Some (wires c i o e n).
Proof.
  revert p i o e n fuel. induction c as [ws|c IH file mode fd|l IHl r IHr|l IHl r IHr|c IH]; intros p i o e n fuel Hh Hok Hf;
    pose proof (holds_cmd_pos _ _ _ _ Hh) as Hp; destruct fuel as [|fuel]; try lia; cbn [runcmd];
    rewrite (proj2 (Z.eqb_neq p 0)) by lia; cbn [holds_cmd cmd_ok] in Hh, Hok.
  - destruct Hh as (argv & eargv & [_ ->] & Ha). destruct (argv_strings m argv ws Ha Hok) as (Es & q & rest & -> & Hq).
    cbn [wires]. destruct ws as [|w ws]; [by subst q|]. destruct Hq as [Hq Ew]. rewrite (proj2 (Z.eqb_neq _ _) Hq). cbn [starts]. by rewrite Ew, Es.
  - destruct Hh as (pc & q & eq & [_ ->] & Hpc & Hs & Hh). destruct Hok as (Hok & Hsm & Hfd). rewrite (holds_string m q file Hs Hsm).
    destruct Hfd as [-> | ->]; cbn [wires Z.eqb].
    + rewrite <- (IH pc (OOpen file mode) o e n fuel) by (done || lia). reflexivity.
    + rewrite <- (IH pc i (OOpen file mode) e n fuel) by (done || lia). reflexivity.
  - destruct Hh as (pl & pr & [_ ->] & Hpl & Hpr & Hl & Hr). destruct Hok as [Hok1 Hok2]. cbn [wires].
    assert (El := IHl pl i (OPipeW n) e (S n) fuel Hl Hok1 ltac:(lia)). destruct (wires l i (OPipeW n) e (S n)) as [l1 n1].
    assert (Er := IHr pr (OPipeR n) o e n1 fuel Hr Hok2 ltac:(lia)). cbn [fst snd]. destruct (wires r (OPipeR n) o e n1) as [l2 n2]. cbn [fst snd].
    rewrite starts_pipe, <- (app_nil_r l2). apply (starts_fork1 _ _ _ _ n1); cbn [Z.eqb]; [by rewrite starts_writer|].
    apply (starts_fork1 _ _ _ _ n2); cbn [Z.eqb]; [by rewrite starts_reader|done].
  - destruct Hh as (pl & pr & [_ ->] & Hpl & Hpr & Hl & Hr). destruct Hok as [Hok1 Hok2]. cbn [wires].
    assert (El := IHl pl i o e n fuel Hl Hok1 ltac:(lia)). destruct (wires l i o e n) as [l1 n1].
    assert (Er := IHr pr i o e n1 fuel Hr Hok2 ltac:(lia)). cbn [fst snd]. destruct (wires r i o e n1) as [l2 n2].
    apply (starts_fork1 _ _ _ _ n1); cbn [Z.eqb]; [exact El|exact Er].
  - destruct Hh as (pc & [_ ->] & Hpc & Hh). cbn [wires]. assert (E := IH pc i o e n fuel Hh Hok ltac:(lia)).
    destruct (wires c i o e n) as [l1 n1]. rewrite <- (app_nil_r l1). by apply (starts_fork1 _ _ _ _ n1).
Qed.

(** The words of a phrase are shorter than the phrase. *)
Lemma small_redirs rs c : (length (print_redirs rs) <= 4096)%nat -> cmd_ok c -> cmd_ok (fold_left redirect rs c).
Proof.
  revert c. induction rs as [|[o f] rs IH]; intros c Hl Hc; [done|]. rewrite <- (app_nil_r (print_redirs _)), print_redirs_cons, app_nil_r in Hl.
  rewrite !length_app in Hl. cbn [length] in Hl. rewrite length_app in Hl. cbn [length] in Hl. cbn [fold_left]. apply IH; [lia|].
  split_and!; [done|unfold small; cbn [snd]; lia|by destruct o; [left|right..]].
Qed.

Lemma small_args args : (length (print_args args) <= 4096)%nat -> Forall small args.*1 /\ (length (print_redirs (concat args.*2)) <= length (print_args args))%nat.
Proof.
  induction args as [|[w rs] args IH]; intros Hl; [by split; [constructor|cbn; lia]|].
  rewrite <- (app_nil_r (print_args _)), print_args_cons, app_nil_r in *. rewrite !length_app in *. cbn [length] in *. rewrite length_app in *.
  destruct IH as [H1 H2]; [lia|]. split; [constructor; [unfold small; cbn; lia|done]|].
  rewrite fmap_cons. cbn [concat snd]. unfold print_redirs in *. rewrite fmap_app, concat_app, length_app. lia.
Qed.

Lemma small_line :
  (forall l, (length (print_line l) <= 4096)%nat -> cmd_ok (line_cmd l)) /\
  (forall p, (length (print_pipeline p) <= 4096)%nat -> cmd_ok (pipeline_cmd p)) /\
  (forall e, (length (print_simple e) <= 4096)%nat -> cmd_ok (simple_cmd e)).
Proof.
  assert (Hb : forall n c, cmd_ok c -> cmd_ok (Nat.iter n CBack c)) by (intros n c Hc; by induction n as [|n IH]).
  apply syntax_ind; cbn [print_line print_pipeline print_simple line_cmd pipeline_cmd simple_cmd].
  - intros p IH n Hl. rewrite length_app in Hl. apply Hb, IH. lia.
  - intros p IH n l IHl Hl. rewrite !length_app in Hl. split; [apply Hb, IH; lia|apply IHl; lia].
  - done.
  - intros e IH p IHp Hl. rewrite !length_app in Hl. split; [apply IH; lia|apply IHp; lia].
  - intros rs args Hl. rewrite length_app in Hl. destruct (small_args args) as [H1 H2]; [lia|]. apply small_redirs; [|done].
    unfold print_redirs in *. rewrite fmap_app, concat_app, length_app. lia.
  - intros l IH rs Hl. rewrite !length_app in Hl. apply small_redirs; [lia|]. apply IH. lia.
Qed.

(** C21: the shell runs a line the way its redirections and pipes are meant.  For
    a phrase of the grammar of command lines in the shell's buffer, the child
    the shell forks and the processes that one forks start exactly the programs
    of the line, each with standard input, output and error as the redirections
    and pipes around it say, and with no other descriptor open: no process keeps
    an end of a pipe that is not its own. *)
Theorem shell_line_refines `{Unix} m o ns buf l si so se n :
  line_ok l -> rd m buf (length (print_line l)) = print_line l -> byte.unsigned (m (buf + Z.of_nat (length (print_line l)))) = 0 ->
  0 < buf -> (length (print_line l) <= 4096)%nat ->
  starts (child buf (mksh (mkuser m o) ns) o).2 (std si so se) n = Some (wires (line_cmd l) si so se n).
Proof.
  intros Hok Hr Hz Hb Hl. destruct print_no_nul as (N & _ & _). destruct small_line as (Sm & _ & _).
  destruct (parsecmd_ok m o ns buf (print_line l) (line_cmd l)) as (p & m' & ns' & E & Hc & _);
    [by split_and!; [..|apply N]|done|lia|by apply parse_print|].
  unfold child. cbn [sh_user sh_nodes u_mem]. rewrite E. cbn [sh_user sh_nodes u_mem snd]. apply runcmd_ok; [done|by apply Sm|lia].
Qed.

(** ls < in | wc >> log *)
Definition demo_pipe : line :=
  LEnd (PCons (SExec [] [(lit "ls", [(RIn, lit "in")])]) (POne (SExec [] [(lit "wc", [(RAppend, lit "log")])]))) 0.

Lemma shell_line_refines_witness :
  starts (@child tiny 4096 (@mksh tiny (@mkuser tiny (wr (fun _ => Byte.x00) 4096 (print_line demo_pipe)) (mktiny [] [] [] [] [])) []) (mktiny [] [] [] [] [])).2
    (std (OOther 0) (OOther 1) (OOther 2)) 7 =
  Some ([(lit "ls", [lit "ls"], std (OOpen (lit "in") O_RDONLY) (OPipeW 7) (OOther 2));
         (lit "wc", [lit "wc"], std (OPipeR 7) (OOpen (lit "log") (Z.lor O_WRONLY O_CREATE)) (OOther 2))], 8%nat).
Proof.
  apply (@shell_line_refines tiny (wr (fun _ => Byte.x00) 4096 (print_line demo_pipe)) (mktiny [] [] [] [] []) [] 4096 demo_pipe).
  - cbn [demo_pipe line_ok pipeline_ok simple_ok]. split_and!; try done; repeat constructor; try done; apply (bool_decide_unpack _); by vm_compute.
  - apply rd_wr_same.
  - by vm_compute.
  - lia.
  - apply (bool_decide_unpack _). by vm_compute.
Defined.
