(* ===== verification/Umalloc.v ===== *)
(** The user-level memory allocator, user/umalloc.c: malloc(), free() and
    morecore() over the headers in memory.

    A header is 16 bytes at the address of a block: the pointer to the next free
    block, and the block's size in units of a header at offset 8.  [base] is the
    address of the static header of the same name; [freep] is a field of the
    state.  A pointer is its address. *)

From stdpp Require Import base tactics list.
From Stdlib Require Import ZArith Lia.
From coqutil Require Import Byte Word.LittleEndianList.
From S2P Require Import Prelude Mem User.

Local Open Scope Z_scope.
Local Open Scope kern_scope.

Definition load32 (m : mem) (a : Z) : Z := le_combine (rd m a 4).
Definition store32 (m : mem) (a v : Z) : mem := wr m a (le_split 4 v).

(** sizeof(Header) *)
Definition Header : Z := 16.

Section Umalloc.
Context `{Unix}.

Record heap := mkheap { h_user : user; h_freep : Z }.

Definition h_mem (h : heap) : mem := u_mem (h_user h).
Definition set_h_mem (m : mem) (h : heap) : heap := mkheap (set_u_mem m (h_user h)) (h_freep h).

#[export] Instance heap_user : Lens heap user.
Proof. refine {| lget := h_user; lput u h := mkheap u (h_freep h) |}; [done|by intros []|done]. Defined.

Definition freep : M heap Z := gets h_freep.
Definition set_freep (p : Z) : M heap unit := modify (fun h => mkheap (h_user h) p).

(** p->s.ptr and p->s.size *)
Definition ptr (p : Z) : M heap Z := gets (fun h => load64 (h_mem h) p).
Definition set_ptr (p v : Z) : M heap unit := modify (fun h => set_h_mem (store64 (h_mem h) p v) h).
Definition size (p : Z) : M heap Z := gets (fun h => load32 (h_mem h) (p + 8)).
Definition set_size (p v : Z) : M heap unit := modify (fun h => set_h_mem (store32 (h_mem h) (p + 8) v) h).

(** p + n for a Header *p *)
Definition offset (p n : Z) : Z := u64 (p + Header * n).

(** The search of free() for the place of a block. *)
Definition free_step (bp p : Z) : M heap (Z + Z) :=
  let* next := ptr p in
  if (p <? bp) && (bp <? next) then ret (inr p)
  else if (next <=? p) && ((p <? bp) || (bp <? next)) then ret (inr p)
  else ret (inl next).

Definition free (ap : Z) : M heap unit :=
  let bp := offset ap (-1) in
  let* start := freep in
  let* p := loop (free_step bp) start in
  let* bsize := size bp in
  let* next := ptr p in
  (if offset bp bsize =? next then
     let* nsize := size next in
     set_size bp (u32 (bsize + nsize)) ;;;
     let* nnext := ptr next in
     set_ptr bp nnext
   else set_ptr bp next) ;;;
  let* psize := size p in
  (if offset p psize =? bp then
     let* bsize := size bp in
     set_size p (u32 (psize + bsize)) ;;;
     let* bnext := ptr bp in
     set_ptr p bnext
   else set_ptr p bp) ;;;
  set_freep p.

Definition morecore (nu : Z) : M heap Z :=
  let nu := if nu <? 4096 then 4096 else nu in
  let* p := zoom (sbrk (i32 (u64 (nu * Header)))) in
  if p =? -1 then ret 0
  else
    set_size p nu ;;;
    free (offset p 1) ;;;
    freep.

(** The number of units for [nbytes] bytes and the header. *)
Definition units (nbytes : Z) : Z := u32 (u64 (nbytes + Header - 1) / Header + 1).

(** One round of the loop of malloc(), with the variables [prevp] and [p]. *)
Definition malloc_step (nunits : Z) (v : Z * Z) : M heap (Z * Z + Z) :=
  let '(prevp, p) := v in
  let* psize := size p in
  if nunits <=? psize then
    let* p :=
      if psize =? nunits then
        let* next := ptr p in
        set_ptr prevp next ;;;
        ret p
      else
        set_size p (u32 (psize - nunits)) ;;;
        let* psize := size p in
        let p := offset p psize in
        set_size p nunits ;;;
        ret p in
    set_freep prevp ;;;
    ret (inr (offset p 1))
  else
    let* fp := freep in
    if p =? fp then
      let* p := morecore nunits in
      if p =? 0 then ret (inr 0)
      else
        let* next := ptr p in
        ret (inl (p, next))
    else
      let* next := ptr p in
      ret (inl (p, next)).

Variable base : Z.

Definition malloc (nbytes : Z) : M heap Z :=
  let nunits := units nbytes in
  let* fp := freep in
  let* prevp :=
    if fp =? 0 then
      set_freep base ;;;
      set_ptr base base ;;;
      set_size base 0 ;;;
      ret base
    else ret fp in
  let* p := ptr prevp in
  loop (malloc_step nunits) (prevp, p).
End Umalloc.
