(* ===== verification/UmallocOk.v ===== *)
(** The user-level allocator is correct: the circular free list in memory is the
    address-ordered list of maximal free blocks, malloc() returns memory nobody
    else has, free() gives it back, and both loops end. *)

From stdpp Require Import base tactics list.
From Stdlib Require Import ZArith Lia.
From coqutil Require Import Byte Word.LittleEndianList.
From S2P Require Import Prelude Mem User Umalloc.

Local Open Scope Z_scope.

(** ** The free list *)

(** A free block: its address and its size in units. *)
Notation block := (Z * Z)%type.

Definition in_block (b : block) (x : Z) : Prop := b.1 <= x < b.1 + 16 * b.2.
Definition free_at (F : list block) (x : Z) : Prop := Exists (fun b => in_block b x) F.

(** Blocks between [lo] and [hi] in address order, with a gap before each. *)
Fixpoint sep (lo : Z) (F : list block) (hi : Z) : Prop :=
  match F with
  | [] => lo <= hi
  | (a, s) :: F => lo < a /\ 0 < s /\ sep (a + 16 * s) F hi
  end.

Definition nxt (F : list block) (e : Z) : Z := match F with [] => e | b :: _ => b.1 end.

(** The headers of the blocks in memory, linked, the last to [e]. *)
Fixpoint chain (m : mem) (F : list block) (e : Z) : Prop :=
  match F with
  | [] => True
  | (a, s) :: F => load64 m a = nxt F e /\ load32 m (a + 8) = s /\ chain m F e
  end.

(** The ring: the static header of size 0, then the free blocks. *)
Definition ring (base : Z) (F : list block) : list block := (base, 0) :: F.

(** Addresses of the heap are below this. *)
Definition top : Z := 2 ^ 31.

(** The free list of a heap that ends at [hi]. *)
Definition freelist (m : mem) (base fp : Z) (F : list block) (hi : Z) : Prop :=
  0 < base /\ sep (base + 15) F hi /\ hi <= top /\ chain m (ring base F) base /\ fp ∈ (ring base F).*1.

(** ** Headers *)

Lemma store32_out m a v x : ~ (a <= x < a + 4) -> store32 m a v x = m x.
Proof. intros. apply wr_out. rewrite length_le_split. lia. Qed.

Lemma load32_store32_same m a v : load32 (store32 m a v) a = u32 v.
Proof.
  unfold load32, store32. pose proof (rd_wr_same m a (le_split 4 v)) as E. rewrite length_le_split in E. rewrite E. apply le_combine_split.
Qed.

Lemma load32_ext m m' a : same_on m m' a 4 -> load32 m' a = load32 m a.
Proof. intros E. unfold load32. by rewrite (rd_ext m m'). Qed.

Lemma load32_store32_other m a b v : a + 4 <= b \/ b + 4 <= a -> load32 (store32 m a v) b = load32 m b.
Proof. intros E. apply load32_ext. intros x Hx. apply store32_out. lia. Qed.

Lemma load32_store64_other m a b v : a + 8 <= b \/ b + 4 <= a -> load32 (store64 m a v) b = load32 m b.
Proof. intros E. apply load32_ext. intros x Hx. apply store64_out. lia. Qed.

Lemma load64_store32_other m a b v : a + 4 <= b \/ b + 8 <= a -> load64 (store32 m a v) b = load64 m b.
Proof. intros E. apply load64_ext. intros x Hx. apply store32_out. lia. Qed.

(** Reads a header after writes to headers. *)
Ltac hdr :=
  repeat first
    [ rewrite load64_store64_same | rewrite load32_store32_same
    | rewrite load64_store64_other by lia | rewrite load32_store64_other by lia
    | rewrite load64_store32_other by lia | rewrite load32_store32_other by lia ].

(** ** Lists of blocks *)

Lemma sep_lo lo lo' F hi : lo' <= lo -> sep lo F hi -> sep lo' F hi.
Proof. destruct F as [|[a s] F]; cbn [sep]; [lia|]. intros ? (? & ? & ?). split_and!; [lia|done|done]. Qed.

Lemma sep_hi lo F hi hi' : hi <= hi' -> sep lo F hi -> sep lo F hi'.
Proof. revert lo. induction F as [|[a s] F IH]; intros lo Hle; cbn [sep]; [lia|]. intros (? & ? & ?). split_and!; [done|done|by apply IH]. Qed.

Lemma sep_le lo F hi : sep lo F hi -> lo <= hi.
Proof. revert lo. induction F as [|[a s] F IH]; intros lo; cbn [sep]; [done|]. intros (? & ? & E%IH). lia. Qed.

Lemma sep_app lo F G hi : sep lo (F ++ G) hi <-> exists mid, sep lo F mid /\ sep mid G hi.
Proof.
  revert lo. induction F as [|[a s] F IH]; intros lo; cbn [app sep].
  - split; [intros E; by exists lo|]. intros (mid & E1 & E2). by apply (sep_lo mid).
  - rewrite IH. naive_solver.
Qed.

Lemma sep_in lo F hi b : sep lo F hi -> b ∈ F -> lo < b.1 /\ 0 < b.2 /\ b.1 + 16 * b.2 <= hi.
Proof.
  revert lo. induction F as [|[a s] F IH]; intros lo Hs Hb; [by apply elem_of_nil in Hb|]. destruct Hs as (H1 & H2 & Hs).
  apply elem_of_cons in Hb as [->|Hb]; cbn [fst snd].
  - apply sep_le in Hs. lia.
  - destruct (IH _ Hs Hb) as (? & ? & ?). lia.
Qed.

Lemma sep_length lo F hi : sep lo F hi -> 16 * Z.of_nat (length F) <= hi - lo.
Proof. revert lo. induction F as [|[a s] F IH]; intros lo; cbn [sep length]; [lia|]. intros (? & ? & E%IH). lia. Qed.

(** The place of a block that overlaps none. *)
Lemma sep_place lo F hi b s : sep lo F hi -> lo < b -> 0 < s -> b + 16 * s <= hi -> (forall x, in_block (b, s) x -> ~ free_at F x) ->
  exists A B, F = A ++ B /\ sep lo A b /\ sep (b + 16 * s - 1) B hi.
Proof.
  revert lo. induction F as [|[a t] F IH]; intros lo Hs Hlo Hp Hhi Hd.
  - exists [], []. split_and!; [done|cbn; lia|cbn; lia].
  - destruct Hs as (H1 & H2 & Hs). destruct (Z.lt_ge_cases b a) as [Hba|Hba].
    + exists [], ((a, t) :: F). split_and!; [done|cbn; lia|]. cbn [sep]. split_and!; [|done|done].
      destruct (Z.lt_ge_cases (b + 16 * s - 1) a) as [|Ha]; [done|]. exfalso.
      apply (Hd a); [unfold in_block; cbn; lia|]. apply Exists_cons_hd. unfold in_block; cbn; lia.
    + assert (Hb : a + 16 * t <= b).
      { apply Z.nlt_ge. intros Hb. apply (Hd b); [unfold in_block; cbn; lia|]. apply Exists_cons_hd. unfold in_block; cbn; lia. }
      destruct (decide (a + 16 * t = b)) as [<-|Hne].
      * exists [(a, t)], F. split_and!; [done|cbn; lia|]. destruct F as [|[a' t'] F]; cbn [sep] in *; [lia|].
        split_and!; [|naive_solver..]. apply Z.nle_gt. intros Ha. destruct Hs as (? & ? & ?).
        apply (Hd a'); [unfold in_block; cbn; lia|]. apply Exists_cons_tl, Exists_cons_hd. unfold in_block; cbn; lia.
      * destruct (IH (a + 16 * t) Hs) as (A & B & -> & HA & HB); [lia|done|done| |].
        { intros x Hx Hf. apply (Hd x Hx). by apply Exists_cons_tl. }
        exists ((a, t) :: A), B. split_and!; [done|done|done].
Qed.

Lemma nxt_app F G e : nxt (F ++ G) e = nxt F (nxt G e).
Proof. by destruct F. Qed.

Lemma blocks_app m F G e : chain m (F ++ G) e <-> chain m F (nxt G e) /\ chain m G e.
Proof.
  induction F as [|[a s] F IH]; cbn [app chain]; [naive_solver|]. rewrite IH, nxt_app. naive_solver.
Qed.

Lemma blocks_ext m m' F e : (forall b, b ∈ F -> load64 m' b.1 = load64 m b.1 /\ load32 m' (b.1 + 8) = load32 m (b.1 + 8)) -> chain m F e -> chain m' F e.
Proof.
  induction F as [|[a s] F IH]; intros He; [done|]. cbn [chain]. destruct (He (a, s)) as [E1 E2]; [left|]. cbn [fst] in *. rewrite E1, E2.
  intros (? & ? & ?). split_and!; [done|done|]. apply IH; [|done]. intros b Hb. apply He. by right.
Qed.

(** Addresses in increasing order, all below [e]. *)
Fixpoint asc (F : list block) (e : Z) : Prop :=
  match F with
  | [] => True
  | (a, s) :: F => a < nxt F e /\ asc F e
  end.

Lemma asc_nxt F e : asc F e -> nxt F e <= e.
Proof. induction F as [|[a s] F IH]; cbn [asc nxt fst]; [lia|]. intros [? ?%IH]. lia. Qed.

Lemma sep_nxt lo F hi e : sep lo F hi -> hi < e -> lo < nxt F e.
Proof. intros Hs He. destruct F as [|[a s] F]; cbn [sep nxt fst] in *; [lia|]. by destruct Hs. Qed.

Lemma sep_asc lo F hi e : sep lo F hi -> hi < e -> asc F e.
Proof.
  revert lo. induction F as [|[a s] F IH]; intros lo; cbn [sep asc]; [done|]. intros (H1 & H2 & Hs) He. split; [|by apply (IH _ Hs)].
  pose proof (sep_nxt _ _ _ e Hs He). lia.
Qed.

Lemma asc_app F G e : asc (F ++ G) e -> asc F (nxt G e) /\ asc G e.
Proof. induction F as [|[a s] F IH]; cbn [app asc]; [done|]. rewrite nxt_app. intros [? ?%IH]. naive_solver. Qed.

(** The last header before an address: of the ring's blocks below [b]. *)
Lemma ring_last base A b : sep (base + 15) A b -> base + 16 <= b ->
  exists X p s, ring base A = X ++ [(p, s)] /\ asc X p /\ p + 16 * s <= b /\ p + 16 <= b /\ base <= p /\ 0 <= s /\
    (forall c, c ∈ X -> c.1 + 16 <= p /\ c.1 + 16 * c.2 <= p /\ base <= c.1).
Proof.
  intros Hs Hb. destruct A as [|[a s] A _] using rev_ind.
  - exists [], base, 0. split_and!; try done; try lia. intros c Hc. by apply elem_of_nil in Hc.
  - apply sep_app in Hs as (mid & HA & H1 & H2 & H3). cbn [sep] in H3. exists (ring base A), a, s.
    pose proof (sep_le _ _ _ HA). split_and!; try done; try lia.
    + cbn [asc]. split; [|by apply (sep_asc _ _ _ _ HA)]. pose proof (sep_nxt _ _ _ a HA H1). lia.
    + intros c [->|Hc]%elem_of_cons; cbn [fst snd]; [lia|]. pose proof (sep_in _ _ _ _ HA Hc). lia.
Qed.

Section Heap.
Context `{Unix}.

(** ** The search of free() *)

Lemma free_step_run bp p h next : load64 (h_mem h) p = next ->
  free_step bp p h = Ok (if (p <? bp) && (bp <? next) then inr p else if (next <=? p) && ((p <? bp) || (bp <? next)) then inr p else inl next) h.
Proof. intros <-. unfold free_step, ptr, gets, bind. destruct (_ && _); [done|]. by destruct (_ && _). Qed.

Ltac cmp := repeat match goal with
  | |- context [?a <? ?b] => destruct (Z.ltb_spec a b)
  | |- context [?a <=? ?b] => destruct (Z.leb_spec a b)
  end; cbn [andb orb]; try lia.

Lemma walk_below h bp F e q n : chain (h_mem h) F e -> asc F e -> e < bp ->
  loops (free_step bp) n e h q h -> loops (free_step bp) (length F + n) (nxt F e) h q h.
Proof.
  intros Hc Ha He Hl. induction F as [|[a s] F IH]; [done|]. destruct Hc as (E & _ & Hc), Ha as [Ha1 Ha]. cbn [nxt fst].
  pose proof (asc_nxt _ _ Ha). eapply loops_more; [|by apply IH]. rewrite (free_step_run _ _ _ _ E). by cmp.
Qed.

Lemma walk_above h bp base F lo hi q n : chain (h_mem h) F base -> sep lo F hi -> bp <= lo -> base < bp ->
  loops (free_step bp) n base h q h -> loops (free_step bp) (length F + n) (nxt F base) h q h.
Proof.
  intros Hc Hs Hlo Hb Hl. revert lo Hlo Hs. induction F as [|[a s] F IH]; intros lo Hlo Hs; [done|].
  destruct Hc as (E & _ & Hc), Hs as (H1 & H2 & Hs). cbn [nxt fst]. eapply loops_more; [|apply (IH Hc (a + 16 * s)); [lia|done]].
  rewrite (free_step_run _ _ _ _ E). assert (a < nxt F base \/ nxt F base = base).
  { destruct F as [|[a' s'] F]; [by right|left]. destruct Hs as (? & _). cbn. lia. }
  by cmp.
Qed.

Lemma free_search h base hi A B b s X p sp :
  freelist (h_mem h) base (h_freep h) (A ++ B) hi -> sep (base + 15) A b -> sep (b + 16 * s - 1) B hi -> 0 < s -> base + 16 <= b ->
  ring base A = X ++ [(p, sp)] -> asc X p -> p < b -> base <= p ->
  loop (free_step b) (h_freep h) h = Ok p h.
Proof.
  intros (Hb & Hs & Ht & Hc & Hf) HA HB Hp Hbb EX HX Hpb Hbp. change (ring base (A ++ B)) with (ring base A ++ B) in *.
  rewrite EX, <- app_assoc in Hc, Hf. apply blocks_app in Hc as [HcX HcB]. cbn [app nxt fst] in HcX, HcB.
  destruct HcB as (Ep & _ & HcB). pose proof (sep_length _ _ _ HA) as LA. pose proof (sep_length _ _ _ HB) as LB. pose proof (sep_le _ _ _ HB).
  apply (f_equal length) in EX as LX. rewrite length_app in LX. cbn [ring length] in LX. unfold top in Ht.
  assert (L0 : loops (free_step b) 0 p h p h).
  { apply loops_end. rewrite (free_step_run _ _ _ _ Ep). pose proof (fun H => sep_nxt _ _ _ (hi + 1) HB H).
    destruct B as [|[q t] B]; cbn [nxt fst sep] in *; by cmp. }
  assert (L1 : loops (free_step b) (length X + 0) (nxt X p) h p h) by (apply walk_below; done).
  assert (E0 : nxt X p = base). { clear - EX. unfold ring in EX. destruct X as [|[c t] X]; cbn [app nxt fst] in *; by injection EX. }
  rewrite E0 in L1. rewrite !fmap_app, !elem_of_app in Hf. destruct Hf as [Hf|[Hf|Hf]].
  - apply list_elem_of_fmap in Hf as ([a t] & -> & Hf). apply list_elem_of_split in Hf as (X1 & X2 & ->).
    apply blocks_app in HcX as [_ HcX]. apply asc_app in HX as [_ HX]. rewrite length_app in LX.
    apply (loops_loop _ (length ((a, t) :: X2) + 0)); [by apply (walk_below h b ((a, t) :: X2) p)|]. cbn [length] in *. lia.
  - apply list_elem_of_singleton in Hf as ->. by apply (loops_loop _ 0).
  - apply list_elem_of_fmap in Hf as ([a t] & -> & Hf). apply list_elem_of_split in Hf as (B1 & B2 & ->).
    apply blocks_app in HcB as [_ HcB]. apply sep_app in HB as (mid & HB1 & HB). pose proof (sep_le _ _ _ HB1). rewrite length_app in LB.
    apply (loops_loop _ (length ((a, t) :: B2) + (length X + 0))); [|cbn [length] in *; lia].
    apply (walk_above h b base ((a, t) :: B2) mid hi); [done|done|lia|lia|done].
Qed.

(** ** Joining a block with its neighbours *)

(** The memory after the first and after the second [if] of free(). *)
Definition join_up (m : mem) (b p : Z) : mem :=
  let s := load32 m (b + 8) in
  let next := load64 m p in
  if offset b s =? next then
    let m := store32 m (b + 8) (u32 (s + load32 m (next + 8))) in
    store64 m b (load64 m next)
  else store64 m b next.

Definition join_down (m : mem) (b p : Z) : mem :=
  let s := load32 m (p + 8) in
  if offset p s =? b then
    let m := store32 m (p + 8) (u32 (s + load32 m (b + 8))) in
    store64 m p (load64 m b)
  else store64 m p b.

Lemma free_run h ap p : loop (free_step (offset ap (-1))) (h_freep h) h = Ok p h ->
  let b := offset ap (-1) in
  free ap h = Ok tt (mkheap (mkuser (join_down (join_up (h_mem h) b p) b p) (u_os (h_user h))) p).
Proof.
  intros E b. unfold free. cbv zeta. rewrite (bind_run freep _ (h_freep h) h h eq_refl), (bind_run _ _ _ _ _ E).
  fold b. unfold join_up, join_down, size, ptr, set_size, set_ptr, set_freep, gets, modify, bind.
  destruct h as [[m o] fp]. unfold h_mem. cbn [h_user u_mem u_os h_freep set_h_mem set_u_mem].
  destruct (_ =? _); unfold set_h_mem, set_u_mem; cbn [h_user u_mem u_os h_freep]; by destruct (_ =? b).
Qed.

Lemma offset_small p n : 0 <= p + 16 * n <= top -> offset p n = p + 16 * n.
Proof. intros Hp. unfold offset, Header, top in *. apply u64_small. lia. Qed.

Lemma join_up_ok m base b s B hi p : chain m B base -> load64 m p = nxt B base -> load32 m (b + 8) = s -> sep (b + 16 * s - 1) B hi ->
  0 < s -> 0 < base < b -> b + 16 * s <= hi <= top ->
  exists s' B', 0 < s' /\ sep (b + 16 * s') B' hi /\ chain (join_up m b p) ((b, s') :: B') base /\
    (forall x, free_at ((b, s') :: B') x <-> in_block (b, s) x \/ free_at B x) /\ (forall x, ~ (b <= x < b + 16) -> join_up m b p x = m x).
Proof.
  intros Hc Ep Es Hs Hp Hb Ht. unfold join_up. rewrite Ep, Es. cbv zeta. pose proof (sep_le _ _ _ Hs). unfold top in Ht.
  rewrite offset_small by (unfold top; lia). destruct (Z.eqb_spec (b + 16 * s) (nxt B base)) as [E|E].
  - destruct B as [|[q t] B]; cbn [nxt fst] in E; [lia|]. subst q. destruct Hc as (Eq & Et & Hc), Hs as (_ & Ht' & Hs). cbn [nxt fst].
    pose proof (sep_le _ _ _ Hs). exists (s + t), B. rewrite Et. rewrite (u32_small (s + t)) by lia. rewrite load64_store32_other by lia. rewrite Eq.
    split_and!; [lia|by replace (b + 16 * (s + t)) with (b + 16 * s + 16 * t) by lia| | |].
    + cbn [chain]. hdr. split_and!.
      * apply u64_small. destruct B as [|[q r] B]; cbn [nxt fst sep] in *; [lia|]. destruct Hs as (? & ? & ?%sep_le). lia.
      * rewrite u32_small; lia.
      * apply (blocks_ext m); [|done]. intros c Hc'. destruct (sep_in _ _ _ _ Hs Hc') as (? & ? & ?). by hdr.
    + intros x. unfold free_at. rewrite !Exists_cons. unfold in_block. cbn [fst snd]. intuition lia.
    + intros x Hx. rewrite store64_out by lia. by rewrite store32_out by lia.
  - exists s, B. split_and!; [done| | | |].
    + destruct B as [|[q t] B]; cbn [sep nxt fst] in *; [lia|]. destruct Hs as (? & ? & ?). split_and!; [lia|done|done].
    + cbn [chain]. hdr. split_and!; [|done|].
      * apply u64_small. destruct B as [|[q r] B]; cbn [nxt fst sep] in *; [lia|]. destruct Hs as (? & ? & ?%sep_le). lia.
      * apply (blocks_ext m); [|done]. intros c Hc'. destruct (sep_in _ _ _ _ Hs Hc') as (? & ? & ?). by hdr.
    + intros x. unfold free_at. by rewrite !Exists_cons.
    + intros x Hx. by rewrite store64_out by lia.
Qed.

Lemma free_at_app F G x : free_at (F ++ G) x <-> free_at F x \/ free_at G x.
Proof. apply Exists_app. Qed.

(** The blocks below end before [b], or the last one ends at it and is joined. *)
Lemma join_down_ok m base A X p sp b s B hi :
  ring base A = X ++ [(p, sp)] -> sep (base + 15) A b -> base + 16 <= b -> p + 16 <= b -> p + 16 * sp <= b ->
  chain m X p -> load32 m (p + 8) = sp -> chain m ((b, s) :: B) base -> 0 < s -> sep (b + 16 * s) B hi -> 0 < base -> hi <= top ->
  (forall c, c ∈ X -> c.1 + 16 <= p) ->
  exists F, freelist (join_down m b p) base p F hi /\ (forall x, free_at F x <-> free_at A x \/ free_at ((b, s) :: B) x) /\
    (forall x, ~ (p <= x < p + 16) -> join_down m b p x = m x).
Proof.
  intros EX HA Hbb Hpb Hspb HcX Esp (Eb & Es & HcB) Hs HB Hb Ht HX. pose proof (sep_le _ _ _ HB). unfold top in Ht.
  assert (Hn : 0 <= nxt B base <= hi).
  { destruct B as [|[q r] B]; cbn [nxt fst sep] in *; [lia|]. destruct HB as (? & ? & ?%sep_le). lia. }
  assert (Hsp : 0 <= sp /\ base <= p).
  { destruct (ring_last base A b HA Hbb) as (X' & p' & sp' & EX' & _ & _ & _ & ? & ? & _). rewrite EX' in EX. apply app_inj_tail in EX as [_ EX]. simplify_eq. lia. }
  assert (HXm : forall m', (forall x, ~ (p <= x < p + 16) -> m' x = m x) -> chain m' X p /\ chain m' B base).
  { intros m' E. split; apply (blocks_ext m); try done; intros c Hc.
    - pose proof (HX c Hc). split; [apply load64_ext|apply load32_ext]; intros x Hx; apply E; lia.
    - destruct (sep_in _ _ _ _ HB Hc) as (? & ? & ?). split; [apply load64_ext|apply load32_ext]; intros x Hx; apply E; lia. }
  unfold join_down. rewrite Esp. cbv zeta. rewrite offset_small by (unfold top; lia). destruct (Z.eqb_spec (p + 16 * sp) b) as [E|E].
  - destruct A as [|c A _] using rev_ind.
    { apply (app_inj_tail []) in EX as [_ EX]. simplify_eq. lia. }
    change (ring base (A ++ [c])) with (ring base A ++ [c]) in EX. apply app_inj_tail in EX as [<- ->].
    exists (A ++ (p, sp + s) :: B). rewrite Es, (u32_small (sp + s)) by lia. rewrite load64_store32_other, Eb by lia.
    assert (Eo : forall x, ~ (p <= x < p + 16) -> store64 (store32 m (p + 8) (sp + s)) p (nxt B base) x = m x).
    { intros x Hx. rewrite store64_out by lia. by rewrite store32_out by lia. }
    destruct (HXm _ Eo) as [HcX' HcB']. split_and!; [| |done].
    + split_and!; [done| |done| |].
      * apply sep_app in HA as (mid & HA1 & HA2 & HA3 & _). apply sep_app. exists mid. split; [done|]. cbn [sep]. split_and!; [done|lia|].
        by replace (p + 16 * (sp + s)) with (b + 16 * s) by lia.
      * change (ring base (A ++ (p, sp + s) :: B)) with (ring base A ++ (p, sp + s) :: B). apply blocks_app. split; [done|].
        cbn [chain]. hdr. split_and!; [apply u64_small; lia|apply u32_small; lia|done].
      * change (ring base (A ++ (p, sp + s) :: B)) with (ring base A ++ (p, sp + s) :: B). rewrite fmap_app. apply elem_of_app. right. left.
    + intros x. rewrite !free_at_app. unfold free_at. rewrite !Exists_cons, Exists_nil. unfold in_block. cbn [fst snd]. intuition lia.
  - exists (A ++ (b, s) :: B).
    assert (Eo : forall x, ~ (p <= x < p + 16) -> store64 m p b x = m x) by (intros x Hx; by rewrite store64_out by lia).
    destruct (HXm _ Eo) as [HcX' HcB'].
    assert (ER : ring base (A ++ (b, s) :: B) = X ++ (p, sp) :: (b, s) :: B).
    { change (ring base A ++ (b, s) :: B = X ++ (p, sp) :: (b, s) :: B). by rewrite EX, <- app_assoc. }
    split_and!; [| |done].
    + split_and!; [done| |done| |].
      * apply sep_app. exists (b - 1). split; [|cbn [sep]; split_and!; [lia|done|done]].
        destruct A as [|c A _] using rev_ind; [cbn [sep]; lia|].
        change (ring base (A ++ [c])) with (ring base A ++ [c]) in EX. apply app_inj_tail in EX as [_ ->].
        apply sep_app in HA as (mid & HA1 & HA2 & HA3 & _). apply sep_app. exists mid. split; [done|]. cbn [sep]. split_and!; [done|done|lia].
      * rewrite ER. apply blocks_app. split; [done|]. cbn [chain nxt fst]. hdr. split_and!; [apply u64_small; lia|done|done|done|done].
      * rewrite ER, fmap_app. apply elem_of_app. right. left.
    + intros x. by rewrite free_at_app.
Qed.

Lemma free_ok h base hi F b s :
  freelist (h_mem h) base (h_freep h) F hi -> base + 16 <= b -> 0 < s -> b + 16 * s <= hi -> load32 (h_mem h) (b + 8) = s ->
  (forall x, in_block (b, s) x -> ~ free_at F x) ->
  exists m p F', free (b + 16) h = Ok tt (mkheap (mkuser m (u_os (h_user h))) p) /\ freelist m base p F' hi /\
    (forall x, free_at F' x <-> free_at F x \/ in_block (b, s) x) /\
    (forall x, ~ free_at F' x -> ~ (base <= x < base + 16) -> m x = h_mem h x).
Proof.
  intros HF Hb Hs Hhi Es Hd. pose proof HF as (Hb0 & HsF & Ht & HcF & _).
  destruct (sep_place _ _ _ b s HsF) as (A & B & -> & HA & HB); [lia|done|done|done|].
  destruct (ring_last base A b HA Hb) as (X & p & sp & EX & HX & Hspb & Hpb & Hbp & Hsp & HXb).
  assert (Eo : offset (b + 16) (-1) = b) by (rewrite offset_small; lia).
  assert (EL := free_search h base hi A B b s X p sp HF HA HB Hs Hb EX HX ltac:(lia) Hbp).
  assert (ER := free_run h (b + 16) p). rewrite Eo in ER. specialize (ER EL). cbv zeta in ER.
  change (ring base (A ++ B)) with (ring base A ++ B) in HcF. rewrite EX, <- app_assoc in HcF. apply blocks_app in HcF as [HcX (Ep & Esp & HcB)]. cbn [app nxt fst] in *.
  destruct (join_up_ok (h_mem h) base b s B hi p) as (s' & B' & Hs' & HB' & Hc' & Hat & Hup); [done|done|done|done|done|lia|lia|].
  set (m1 := join_up (h_mem h) b p) in *.
  destruct (join_down_ok m1 base A X p sp b s' B' hi) as (F' & HF' & Hat' & Hdown); try done.
  { apply (blocks_ext (h_mem h)); [|done]. intros c Hc. destruct (HXb c Hc) as (? & ? & ?).
    split; [apply load64_ext|apply load32_ext]; intros x Hx; apply Hup; lia. }
  { rewrite <- Esp. apply load32_ext. intros x Hx. apply Hup. lia. }
  { intros c Hc. by apply HXb. }
  assert (Hcov : forall x, free_at F' x <-> free_at (A ++ B) x \/ in_block (b, s) x).
  { intros x. rewrite Hat', Hat, free_at_app. tauto. }
  exists (join_down m1 b p), p, F'. split_and!; [done|done|done|]. intros x Hx Hxb. rewrite Hdown, Hup; [done|..].
  - intros Hx'. apply Hx, Hcov. right. unfold in_block. cbn [fst snd]. lia.
  - intros Hx'. apply Hx, Hcov. left. rewrite free_at_app. left. destruct A as [|c A _] using rev_ind.
    { apply (app_inj_tail []) in EX as [_ EX]. simplify_eq. done. }
    change (ring base (A ++ [c])) with (ring base A ++ [c]) in EX. apply app_inj_tail in EX as [_ ->].
    apply free_at_app. right. apply Exists_cons_hd. unfold in_block. cbn [fst snd]. apply sep_app in HA as (_ & _ & _ & ? & _). lia.
Qed.

(** ** The search of malloc() *)

(** [k] rounds of the loop lead from [v] to [v'] without a change of the state. *)
Definition walks (n : Z) (h : heap) (k : nat) (v v' : Z * Z) : Prop :=
  forall j r h', loops (malloc_step n) j v' h r h' -> loops (malloc_step n) (k + j) v h r h'.

Lemma walks_trans n h k1 k2 v1 v2 v3 : walks n h k1 v1 v2 -> walks n h k2 v2 v3 -> walks n h (k1 + k2) v1 v3.
Proof. intros H1 H2 j r h' Hl. rewrite <- Nat.add_assoc. by apply H1, H2. Qed.

Lemma malloc_pass n h prevp p s next : load32 (h_mem h) (p + 8) = s -> load64 (h_mem h) p = next -> s < n -> p <> h_freep h ->
  walks n h 1 (prevp, p) (p, next).
Proof.
  intros Es En Hs Hp j r h' Hl. eapply loops_more; [|exact Hl]. unfold malloc_step, size, ptr, freep, gets, bind. rewrite Es.
  destruct (Z.leb_spec n s); [lia|]. rewrite (proj2 (Z.eqb_neq _ _) Hp). cbn. by rewrite En.
Qed.

(** A segment of the ring without the block the search started at: a block is
    found in it, or all its blocks are too small and the search goes on. *)
Lemma malloc_walk h base R n S T A q :
  chain (h_mem h) R base -> R = A ++ q :: S ++ T -> h_freep h ∉ S.*1 ->
  (exists k b B A' q', (k <= length S)%nat /\ n <= b.2 /\ R = A' ++ q' :: b :: B /\ walks n h k (q.1, nxt (S ++ T) base) (q'.1, b.1)) \/
  (Forall (fun b => b.2 < n) S /\ exists q', walks n h (length S) (q.1, nxt (S ++ T) base) (q', nxt T base) /\ (exists A' s, R = A' ++ (q', s) :: T)).
Proof.
  intros Hc. revert A q. induction S as [|[a s] S IH]; intros A q HR Hf.
  - right. split; [constructor|]. exists q.1. split; [by intros j r h' Hl|]. exists A, q.2. by destruct q.
  - destruct (Z.le_gt_cases n s) as [Hn|Hn].
    { left. exists 0%nat, (a, s), (S ++ T), A, q. split_and!; [lia|done|done|by intros j r h' Hl]. }
    rewrite fmap_cons, not_elem_of_cons in Hf. destruct Hf as [Hfa Hf]. cbn [fst] in Hfa.
    assert (Hc2 := Hc). rewrite HR in Hc2. apply blocks_app in Hc2 as [_ Hc2]. destruct q as [q sq]. destruct Hc2 as (_ & _ & Ea & Es & _).
    assert (W : walks n h 1 (q, a) (a, nxt (S ++ T) base)) by (apply (malloc_pass n h q a s); try done; by apply not_eq_sym).
    destruct (IH (A ++ [(q, sq)]) (a, s)) as [(k & b & B & A' & q' & Hk & Hb & HR' & W')|(HS & q' & W' & HR')]; [by rewrite HR, <- app_assoc|done|..].
    + left. exists (1 + k)%nat, b, B, A', q'. split_and!; [cbn [length]; lia|done|done|]. by apply (walks_trans _ _ 1 k _ _ _ W).
    + right. split; [by constructor|]. exists q'. split; [|done]. by apply (walks_trans _ _ 1 _ _ _ _ W).
Qed.

Lemma asc_in F e c : asc F e -> c ∈ F -> nxt F e <= c.1 < e.
Proof.
  induction F as [|[a s] F IH]; intros Ha Hc; [by apply elem_of_nil in Hc|]. destruct Ha as [Ha1 Ha]. pose proof (asc_nxt _ _ Ha).
  apply elem_of_cons in Hc as [->|Hc]; cbn [nxt fst]; [lia|]. pose proof (IH Ha Hc). lia.
Qed.

Lemma asc_nodup A b B e : asc (A ++ b :: B) e -> b.1 ∉ A.*1 /\ b.1 ∉ B.*1.
Proof.
  intros [HA HB]%asc_app. destruct b as [a s]. destruct HB as [H1 HB]. split; intros ([c t] & E & Hc)%list_elem_of_fmap; cbn [fst] in *; subst c.
  - pose proof (asc_in _ _ _ HA Hc) as E. cbn [nxt fst] in E. lia.
  - pose proof (asc_in _ _ _ HB Hc) as E. cbn [fst] in E. lia.
Qed.

Lemma ring_asc base F hi : sep (base + 15) F hi -> asc (ring base F) (hi + 1).
Proof. intros Hs. cbn [ring asc]. split; [|by apply (sep_asc _ _ _ _ Hs); lia]. pose proof (sep_nxt _ _ _ (hi + 1) Hs). lia. Qed.

(** One round: a block that fits, or none does and the search is back at its
    start. *)
Lemma malloc_search h base F hi n : freelist (h_mem h) base (h_freep h) F hi -> 0 < n ->
  let v := (h_freep h, load64 (h_mem h) (h_freep h)) in
  exists k, (k <= S (length F))%nat /\
  ((exists A q b B, n <= b.2 /\ ring base F = A ++ q :: b :: B /\ walks n h k v (q.1, b.1)) \/
   (Forall (fun b => b.2 < n) F /\ (exists s, (h_freep h, s) ∈ ring base F) /\ exists q, walks n h k v (q, h_freep h))).
Proof.
  intros (Hb & Hs & Ht & Hc & Hf) Hn v. apply list_elem_of_fmap in Hf as ([fp s] & Efp & Hf). cbn [fst] in Efp.
  assert (Hin : exists s, (h_freep h, s) ∈ ring base F) by (exists s; by rewrite Efp).
  apply list_elem_of_split in Hf as (A & B & ER). assert (HA := ring_asc _ _ _ Hs). rewrite ER in HA. apply asc_nodup in HA as [NA NB]. cbn [fst] in NA, NB.
  assert (Hc2 := Hc). rewrite ER in Hc2. apply blocks_app in Hc2 as [HcA (Efn & Es & _)].
  assert (Ev : v = (fp, nxt (B ++ []) base)) by (unfold v; by rewrite app_nil_r, Efp, Efn).
  assert (EL := f_equal length ER). rewrite length_app in EL. cbn [ring length] in EL.
  destruct (malloc_walk h base (ring base F) n B [] A (fp, s) Hc) as [(k & b & B' & A' & q' & Hk & Hb' & HR & W)|(HB & q' & W & _)];
    [by rewrite app_nil_r|by rewrite Efp|..].
  { exists k. split; [lia|]. left. exists A', q', b, B'. rewrite Ev. done. }
  destruct A as [|c A].
  { exists (length B). cbn [ring app] in ER. split; [lia|right]. unfold ring in ER. injection ER as <- <- ->. rewrite Ev, Efp. split_and!; [done| |by exists q'].
    rewrite Efp in Hin. exact Hin. }
  unfold ring in ER. cbn [app] in ER. injection ER as <- ->. destruct HcA as (Eb & Esb & HcA). rewrite fmap_cons, not_elem_of_cons in NA. destruct NA as [NA0 NA].
  assert (W2 : walks n h 1 (q', base) (base, nxt (A ++ (fp, s) :: B) base)).
  { apply (malloc_pass n h q' base 0); [done| |lia|rewrite Efp; by apply not_eq_sym]. by rewrite nxt_app, Eb. }
  assert (W12 := walks_trans _ _ _ _ _ _ _ W W2). cbn [fst] in W12. rewrite <- Ev in W12.
  destruct (malloc_walk h base (ring base (A ++ (fp, s) :: B)) n A ((fp, s) :: B) [] (base, 0) Hc) as [(k & b & B' & A' & q2 & Hk & Hb' & HR & W3)|(HA & q2 & W3 & A' & s' & HR)];
    [done|by rewrite Efp|..].
  { exists (length B + 1 + k)%nat. cbn [length] in EL. split; [rewrite length_app; cbn [length]; lia|]. left. exists A', q2, b, B'. split_and!; [done|done|]. by apply (walks_trans _ _ _ _ _ _ _ W12). }
  exists (length B + 1 + length A)%nat. split; [rewrite length_app; cbn [length]; lia|].
  assert (W13 := walks_trans _ _ _ _ _ _ _ W12 W3). destruct (Z.le_gt_cases n s) as [Hns|Hns].
  - left. exists A', (q2, s'), (fp, s), B. done.
  - right. split_and!; [|exact Hin|exists q2; by rewrite Efp]. apply Forall_app. split; [done|]. by constructor.
Qed.

(** A block of the ring with the block before it, as a block of the list. *)
Lemma ring_block base F A q b B : ring base F = A ++ q :: b :: B -> exists G, F = G ++ b :: B /\ ring base G = A ++ [q].
Proof.
  unfold ring. intros E. destruct A as [|c A]; injection E as <- ->; [by exists []|]. exists (A ++ [q]). by rewrite <- app_assoc.
Qed.

Lemma ring_app base G B : ring base (G ++ B) = ring base G ++ B.
Proof. done. Qed.

(** What the rounds of malloc() read and write of a header, as one step. *)
Lemma malloc_take_run n h q a t : load32 (h_mem h) (a + 8) = t -> n <= t ->
  malloc_step n (q, a) h =
  let m := h_mem h in
  if t =? n then Ok (inr (offset a 1)) (mkheap (mkuser (store64 m q (load64 m a)) (u_os (h_user h))) q)
  else
    let m1 := store32 m (a + 8) (u32 (t - n)) in
    let r := offset a (load32 m1 (a + 8)) in
    Ok (inr (offset r 1)) (mkheap (mkuser (store32 m1 (r + 8) n) (u_os (h_user h))) q).
Proof.
  intros Et Hn. unfold malloc_step, size, ptr, set_ptr, set_size, set_freep, gets, modify, bind. rewrite Et. rewrite (proj2 (Z.leb_le _ _) Hn). cbv zeta.
  by destruct (t =? n).
Qed.

Lemma free_at_range lo F hi x : sep lo F hi -> free_at F x -> lo < x < hi.
Proof. intros Hs (b & Hb & Hx)%Exists_exists. destruct (sep_in _ _ _ _ Hs Hb) as (? & ? & ?). unfold in_block in Hx. lia. Qed.

Lemma malloc_take h base F hi n A q a t B :
  freelist (h_mem h) base (h_freep h) F hi -> ring base F = A ++ q :: (a, t) :: B -> 0 < n <= t ->
  let r := a + 16 * (t - n) in
  exists m F', malloc_step n (q.1, a) h = Ok (inr (r + 16)) (mkheap (mkuser m (u_os (h_user h))) q.1) /\
    freelist m base q.1 F' hi /\ load32 m (r + 8) = n /\ base + 16 <= r /\ r + 16 * n <= hi /\
    (forall x, free_at F x <-> free_at F' x \/ in_block (r, n) x) /\ (forall x, in_block (r, n) x -> ~ free_at F' x) /\
    (forall x, ~ free_at F x -> ~ (base <= x < base + 16) -> m x = h_mem h x).
Proof.
  intros (Hb & Hs & Ht & Hc & Hf) ER Hn r. destruct (ring_block _ _ _ _ _ _ ER) as (G & -> & EG). destruct q as [q sq]. cbn [fst].
  apply sep_app in Hs as (mid & HG & Ha & Ht0 & HB). pose proof (sep_le _ _ _ HG). pose proof (sep_le _ _ _ HB). unfold top in Ht.
  assert (Hq : q + 16 <= a /\ base <= q /\ (forall c, c ∈ A -> c.1 + 16 <= q) /\ (forall x, q <= x < q + 16 -> ~ (base <= x < base + 16) -> free_at G x)).
  { destruct (ring_last base G a) as (X & p & s & EX & _ & ? & ? & ? & ? & HX); [apply (sep_hi _ _ mid); [lia|done]|lia|].
    rewrite EG in EX. apply app_inj_tail in EX as [<- [= <- <-]]. split_and!; [lia|lia|intros c Hc'; by apply HX|].
    intros x Hx Hq. destruct G as [|c G _] using rev_ind; [apply (app_inj_tail []) in EG as [_ [= <- _]]; lia|].
    rewrite ring_app in EG. apply app_inj_tail in EG as [_ ->]. apply free_at_app. right. apply Exists_cons_hd. unfold in_block. cbn [fst snd].
    apply sep_app in HG as (_ & _ & _ & ? & _). lia. }
  destruct Hq as (Hqa & Hbq & HA & HqG). rewrite ring_app, EG, <- app_assoc in Hc. apply blocks_app in Hc as [HcA (Eq & Esq & Ea & Et & HcB)]. cbn [app nxt fst] in *.
  assert (Hn' : 0 <= nxt B base < 2 ^ 64).
  { destruct B as [|[b' t'] B]; cbn [nxt fst sep] in *; [lia|]. destruct HB as (? & ? & ?%sep_le). lia. }
  rewrite (malloc_take_run n h q a t Et) by lia. cbv zeta. destruct (Z.eqb_spec t n) as [->|Hne].
  - replace r with a by (unfold r; lia). rewrite offset_small, Ea by (unfold top; lia). rewrite Z.mul_1_r.
    exists (store64 (h_mem h) q (nxt B base)), (G ++ B). split_and!; [done| |by hdr|lia|lia| | |].
    + split_and!; [done| |done| |].
      * apply sep_app. exists mid. split; [done|]. apply (sep_lo (a + 16 * n)); [lia|done].
      * rewrite ring_app, EG, <- app_assoc. apply blocks_app. split; [|cbn [app chain]; hdr; split_and!; [by apply u64_small|done|]].
        -- apply (blocks_ext (h_mem h)); [|done]. intros c Hc'. pose proof (HA c Hc'). by hdr.
        -- apply (blocks_ext (h_mem h)); [|done]. intros c Hc'. destruct (sep_in _ _ _ _ HB Hc') as (? & ? & ?). by hdr.
      * rewrite ring_app, EG, <- app_assoc, fmap_app. apply elem_of_app. right. left.
    + intros x. rewrite !free_at_app. unfold free_at. rewrite Exists_cons. tauto.
    + intros x Hx. rewrite free_at_app. unfold in_block in Hx. cbn [fst snd] in Hx. intros [Hx'|Hx']; eapply free_at_range in Hx'; [|done| |done]; lia.
    + intros x Hx Hxb. apply store64_out. intros Hx'. apply Hx, free_at_app. left. apply HqG; [lia|done].
  - hdr. rewrite (u32_small (t - n)) by lia. rewrite u32_small by lia. rewrite (offset_small a) by (unfold top; lia). fold r.
    assert (Hr : a + 16 <= r /\ r + 16 * n = a + 16 * t) by (unfold r; lia). rewrite (offset_small r) by (unfold top; lia). rewrite Z.mul_1_r.
    eexists _, (G ++ (a, t - n) :: B). split_and!; [done| |hdr; apply u32_small; lia|lia|lia| | |].
    + split_and!; [done| |done| |].
      * apply sep_app. exists mid. split; [done|]. cbn [sep]. split_and!; [done|lia|]. apply (sep_lo (a + 16 * t)); [lia|done].
      * rewrite ring_app, EG, <- app_assoc. apply blocks_app. split; [|cbn [app chain nxt fst]; hdr; split_and!; [done|done|done|apply u32_small; lia|]].
        -- apply (blocks_ext (h_mem h)); [|done]. intros c Hc'. pose proof (HA c Hc'). by hdr.
        -- apply (blocks_ext (h_mem h)); [|done]. intros c Hc'. destruct (sep_in _ _ _ _ HB Hc') as (? & ? & ?). by hdr.
      * rewrite ring_app, EG, <- app_assoc, fmap_app. apply elem_of_app. right. left.
    + intros x. rewrite !free_at_app. unfold free_at. rewrite !Exists_cons. unfold in_block. cbn [fst snd]. unfold r in *. intuition lia.
    + intros x Hx. rewrite free_at_app. unfold in_block in Hx. cbn [fst snd] in Hx. unfold free_at. rewrite Exists_cons. unfold in_block at 2. cbn [fst snd]. fold r.
      intros [Hx'|[Hx'|Hx']]; [eapply free_at_range in Hx'; [|done]; lia|lia|eapply free_at_range in Hx'; [|exact HB]; lia].
    + intros x Hx Hxb. assert (Hx2 : ~ (a <= x < a + 16 * t)).
      { intros Hx'. apply Hx, free_at_app. right. by apply Exists_cons_hd. }
      rewrite store32_out by lia. by rewrite store32_out by lia.
Qed.

(** Blocks have gaps between them, so free memory without a gap is in one. *)
Lemma free_interval lo F hi a k : sep lo F hi -> 0 < k -> (forall x, a <= x < a + k -> free_at F x) -> Exists (fun b => b.1 <= a /\ a + k <= b.1 + 16 * b.2) F.
Proof.
  revert lo. induction F as [|[b s] F IH]; intros lo Hs Hk Hat; [by destruct (proj1 (Exists_nil _) (Hat a ltac:(lia)))|]. destruct Hs as (H1 & H2 & Hs).
  assert (Hat' : forall x, a <= x < a + k -> b <= x < b + 16 * s \/ free_at F x /\ b + 16 * s < x).
  { intros x Hx. destruct (proj1 (Exists_cons _ _ _) (Hat x Hx)) as [?|Hx']; [by left|right]. split; [done|]. apply (free_at_range _ _ _ _ Hs) in Hx'. lia. }
  destruct (Z.lt_ge_cases a (b + 16 * s)) as [Ha|Ha].
  - apply Exists_cons_hd. cbn [fst snd]. destruct (Hat' a ltac:(lia)); [|lia]. split; [lia|]. apply Z.nlt_ge. intros Hk'.
    destruct (Hat' (b + 16 * s)); lia.
  - apply Exists_cons_tl, (IH _ Hs Hk). intros x Hx. destruct (Hat' x Hx) as [?|[? _]]; [lia|done].
Qed.
End Heap.

(** ** The break *)

(** What the allocator relies on: sbrk(n) for n >= 0 either fails, or returns the
    break and moves it up by n.  Addresses are ints to sys_sbrk(). *)
Class Break `{Unix} := {
  brk : os -> Z;
  sbrk_grows : forall n o, 0 <= n < 2 ^ 31 -> exists r o', os_sbrk n o = (r, o') /\
    ((r = -1 /\ brk o' = brk o) \/ (r = brk o /\ brk o' = brk o + n /\ brk o' <= top));
}.

Section Malloc.
Context `{Break}.

Lemma freelist_ext m m' base fp F hi hi' : freelist m base fp F hi -> hi <= hi' <= top -> (forall x, x < hi -> m' x = m x) -> freelist m' base fp F hi'.
Proof.
  intros (Hb & Hs & Ht & Hc & Hf) Hhi E. pose proof (sep_le _ _ _ Hs). split_and!; [done|apply (sep_hi _ _ hi); [lia|done]|lia| |done].
  apply (blocks_ext m); [|done]. intros c Hc'. assert (c.1 + 16 <= hi + 1) as Hc1.
  { apply elem_of_cons in Hc' as [->|Hc']; cbn [fst]; [lia|]. destruct (sep_in _ _ _ _ Hs Hc') as (? & ? & ?). lia. }
  split; [apply load64_ext|apply load32_ext]; intros x Hx; apply E; lia.
Qed.

Lemma freelist_fp m base fp F hi : freelist m base fp F hi -> 0 < fp.
Proof.
  intros (Hb & Hs & _ & _ & Hf). apply list_elem_of_fmap in Hf as ([a t] & -> & Hf). apply elem_of_cons in Hf as [[= -> _]|Hf]; [done|].
  destruct (sep_in _ _ _ _ Hs Hf) as (? & _). cbn [fst] in *. lia.
Qed.

(** Writes outside free memory and the static header. *)
Lemma freelist_frame m m' base fp F hi : freelist m base fp F hi -> (forall x, free_at F x \/ base <= x < base + 16 -> m' x = m x) -> freelist m' base fp F hi.
Proof.
  intros (Hb & Hs & Ht & Hc & Hf) E. split_and!; [done|done|done| |done]. apply (blocks_ext m); [|done]. intros c Hc'.
  assert (Hh : forall x, c.1 <= x < c.1 + 16 -> m' x = m x).
  { intros x Hx. apply E. apply elem_of_cons in Hc' as [->|Hc']; [by right|left]. apply Exists_exists. exists c. split; [done|].
    destruct (sep_in _ _ _ _ Hs Hc') as (? & ? & ?). unfold in_block. lia. }
  split; [apply load64_ext|apply load32_ext]; intros x Hx; apply Hh; lia.
Qed.

Lemma morecore_ok base F n m o fp : freelist m base fp F (brk o) -> base + 16 <= brk o -> 0 < n -> 16 * n < 2 ^ 31 ->
  exists m' o' fp' F', morecore n (mkheap (mkuser m o) fp) = Ok (if brk o' =? brk o then 0 else fp') (mkheap (mkuser m' o') fp') /\
    brk o <= brk o' /\ freelist m' base fp' F' (brk o') /\ (brk o < brk o' -> Exists (fun b => n <= b.2) F') /\
    (forall x, free_at F' x <-> free_at F x \/ brk o <= x < brk o') /\
    (forall x, x < brk o -> ~ free_at F x -> ~ (base <= x < base + 16) -> m' x = m x).
Proof.
  intros HF Hb Hn Hn2. unfold morecore. set (nu := if n <? 4096 then 4096 else n).
  assert (Hnu : n <= nu /\ 0 <= 16 * nu < 2 ^ 31) by (unfold nu; destruct (Z.ltb_spec n 4096); lia).
  unfold Header. replace (i32 (u64 (nu * 16))) with (16 * nu) by (rewrite u64_small, i32_small; lia).
  destruct (sbrk_grows (16 * nu) o) as (r & o' & E & Hr); [lia|].
  assert (ES : zoom (sbrk (16 * nu)) (mkheap (mkuser m o) fp) = Ok r (mkheap (mkuser m o') fp)).
  { unfold zoom, sbrk, sys. cbn. by rewrite E. }
  rewrite (bind_run _ _ _ _ _ ES). destruct Hr as [[-> Eb]|(-> & Eb & Hb')].
  - exists m, o', fp, F. rewrite Eb, (Z.eqb_refl (brk o)). split_and!; [done|lia|done|lia| |done]. intros x. intuition lia.
  - rewrite (proj2 (Z.eqb_neq (brk o) (-1))) by (destruct HF; lia). set (p := brk o) in *. set (m1 := store32 m (p + 8) nu).
    rewrite (bind_run (set_size p nu) _ tt (mkheap (mkuser m o') fp) (mkheap (mkuser m1 o') fp) eq_refl). assert (Hp : 0 < base) by apply HF. rewrite offset_small by lia.
    destruct (free_ok (mkheap (mkuser m1 o') fp) base (brk o') F p nu) as (m' & fp' & F' & Ef & HF' & Hat & Hfr); cbn [h_mem h_user u_mem h_freep].
    + apply (freelist_ext m _ _ _ _ p); [done|lia|]. intros x Hx. apply store32_out. lia.
    + done.
    + lia.
    + lia.
    + unfold m1. rewrite load32_store32_same. apply u32_small. lia.
    + intros x Hx Hx'. unfold in_block in Hx. cbn [fst snd] in Hx. destruct HF as (_ & Hs & _). apply (free_at_range _ _ _ _ Hs) in Hx'. lia.
    + rewrite Z.mul_1_r, (bind_run _ _ _ _ _ Ef). exists m', o', fp', F'. rewrite (proj2 (Z.eqb_neq (brk o') p)) by lia.
      split_and!; [done|lia|done| | |].
      * intros _. destruct HF' as (_ & Hs' & _). eapply Exists_impl; [apply (free_interval _ _ _ p (16 * nu) Hs'); [lia|]|].
        -- intros x Hx. apply Hat. by right.
        -- intros b Hx. cbn beta in *. lia.
      * intros x. rewrite Hat. unfold in_block. cbn [fst snd]. intuition lia.
      * intros x Hx Hx1 Hx2. rewrite Hfr; [unfold m1; apply store32_out; lia| |done]. rewrite Hat. unfold in_block. cbn [fst snd]. intuition lia.
Qed.

Lemma chain_in m F e a s : chain m F e -> (a, s) ∈ F -> load32 m (a + 8) = s.
Proof.
  induction F as [|[b t] F IH]; intros Hc Hin; [by apply elem_of_nil in Hin|]. destruct Hc as (_ & Et & Hc).
  apply elem_of_cons in Hin as [[= -> ->]|Hin]; [done|by apply IH].
Qed.

(** What malloc() for [n] units does to the memory: block [b] is taken from what
    was free or new, and everything that was not free is as before. *)
Definition taken (base n : Z) (m : mem) (F : list block) (hi : Z) (m' : mem) (F' : list block) (hi' r : Z) : Prop :=
  exists b, r = b + 16 /\ base + 16 <= b /\ b + 16 * n <= hi' /\ load32 m' (b + 8) = n /\
    (forall x, free_at F' x \/ in_block (b, n) x <-> free_at F x \/ hi <= x < hi') /\ (forall x, in_block (b, n) x -> ~ free_at F' x).

Lemma found_ok h base F hi n k v A q b B : freelist (h_mem h) base (h_freep h) F hi -> 0 < n -> n <= b.2 -> ring base F = A ++ q :: b :: B -> walks n h k v (q.1, b.1) ->
  exists m' fp' F' r, loops (malloc_step n) k v h r (mkheap (mkuser m' (u_os (h_user h))) fp') /\ freelist m' base fp' F' hi /\ taken base n (h_mem h) F hi m' F' hi r /\
    (forall x, ~ free_at F x -> ~ (base <= x < base + 16) -> m' x = h_mem h x).
Proof.
  intros HF Hn Hb ER W. destruct b as [a t]. cbn [fst snd] in *.
  destruct (malloc_take h base F hi n A q a t B HF ER) as (m' & F' & E & HF' & Es & Hb1 & Hb2 & Hat & Hd & Hfr); [lia|].
  exists m', q.1, F', (a + 16 * (t - n) + 16). split_and!; [|done| |done].
  - rewrite <- (Nat.add_0_r k). apply W. by apply loops_end.
  - exists (a + 16 * (t - n)). split_and!; try done. intros x. rewrite Hat. intuition lia.
Qed.

Lemma malloc_loop base F n m o fp : freelist m base fp F (brk o) -> base + 16 <= brk o -> 0 < n -> 16 * n < 2 ^ 31 ->
  exists m' o' fp' F' r, loop (malloc_step n) (fp, load64 m fp) (mkheap (mkuser m o) fp) = Ok r (mkheap (mkuser m' o') fp') /\
    freelist m' base fp' F' (brk o') /\ brk o <= brk o' /\
    ((r = 0 /\ brk o' = brk o /\ forall x, free_at F' x <-> free_at F x) \/ taken base n m F (brk o) m' F' (brk o') r) /\
    (forall x, x < brk o -> ~ free_at F x -> ~ (base <= x < base + 16) -> m' x = m x).
Proof.
  intros HF Hb Hn Hn2. set (h := mkheap (mkuser m o) fp). pose proof HF as (Hb0 & Hs & Ht & Hc & _). pose proof (sep_length _ _ _ Hs). unfold top in Ht.
  destruct (malloc_search h base F (brk o) n HF Hn) as (k & Hk & [(A & q & b & B & Hb' & ER & W)|(HF0 & (s & Hin) & q & W)]).
  { destruct (found_ok h base F (brk o) n k _ A q b B HF Hn Hb' ER W) as (m' & fp' & F' & r & Hl & HF' & Htk & Hfr).
    exists m', o, fp', F', r. split_and!; [apply (loops_loop _ k); [exact Hl|lia]|done|lia|by right|]. intros x _. apply Hfr. }
  assert (Es := chain_in _ _ _ _ _ Hc Hin). change (load32 m (fp + 8) = s) in Es. assert (Hsn : s < n).
  { apply elem_of_cons in Hin as [[= _ ->]|Hin]; [done|]. rewrite Forall_forall in HF0. exact (HF0 _ Hin). }
  destruct (morecore_ok base F n m o fp HF Hb Hn Hn2) as (m1 & o1 & fp1 & F1 & E1 & Hge & HF1 & Hex & Hat1 & Hfr1). fold h in E1.
  set (h1 := mkheap (mkuser m1 o1) fp1) in *.
  assert (ES : malloc_step n (q, fp) h = if brk o1 =? brk o then Ok (inr 0) h1 else Ok (inl (fp1, load64 m1 fp1)) h1).
  { unfold malloc_step, size, freep, gets. unfold bind at 1. change (load32 (h_mem h) (fp + 8)) with (load32 m (fp + 8)). rewrite Es.
    destruct (Z.leb_spec n s); [lia|]. unfold bind at 1. cbn [h_freep h]. rewrite Z.eqb_refl.
    rewrite (bind_run _ _ _ _ _ E1). destruct (brk o1 =? brk o); [done|]. rewrite (proj2 (Z.eqb_neq fp1 0)); [done|].
    apply freelist_fp in HF1. lia. }
  destruct (Z.eqb_spec (brk o1) (brk o)) as [Eb|Eb].
  { exists m1, o1, fp1, F1, 0. split_and!; [|done|done| |done].
    - apply (loops_loop _ (k + 0)); [|lia]. apply W. by apply loops_end.
    - left. split_and!; [done|done|]. intros x. rewrite Hat1. intuition lia. }
  pose proof HF1 as (_ & Hs1 & Ht1 & _). pose proof (sep_length _ _ _ Hs1). unfold top in Ht1.
  destruct (malloc_search h1 base F1 (brk o1) n HF1 Hn) as (k1 & Hk1 & [(A & q1 & b & B & Hb' & ER & W1)|(HF0' & _)]).
  - destruct (found_ok h1 base F1 (brk o1) n k1 _ A q1 b B HF1 Hn Hb' ER W1) as (m' & fp' & F' & r & Hl & HF' & (c & Hc1 & Hc2 & Hc3 & Hc4 & Hc5 & Hc6) & Hfr).
    exists m', o1, fp', F', r. split_and!; [|done|done| |].
    + apply (loops_loop _ (k + S k1)); [|lia]. apply W. by eapply loops_more.
    + right. exists c. split_and!; try done. intros x. rewrite Hc5, Hat1. intuition lia.
    + intros x Hx Hx1 Hx2. rewrite (Hfr x); [by apply Hfr1| |done]. cbn [h_mem h_user u_mem h1]. rewrite Hat1. intuition lia.
  - exfalso. specialize (Hex ltac:(lia)). apply Exists_exists in Hex as (b & Hbin & Hb'). rewrite Forall_forall in HF0'. specialize (HF0' b Hbin). cbn beta in *. lia.
Qed.
End Malloc.
