(* ===== verification/UmallocSpec.v ===== *)
(** What malloc() and free() promise a program: blocks that behave like separate
    arrays.

    The abstract state is the blocks the program has, each an address and its
    bytes.  The theorem is a simulation: from a state of the allocator that
    represents the blocks, each call the program may make returns, and does what
    the abstract operation says; no byte of the heap is ever lost. *)

From stdpp Require Import base tactics list.
From Stdlib Require Import ZArith Lia.
From coqutil Require Import Byte.
From S2P Require Import Prelude Mem User Umalloc UmallocOk.

Local Open Scope Z_scope.

(** ** The abstract heap *)

(** A block the program has: its address and its bytes. *)
Notation array := (Z * list byte)%type.

Inductive op :=
  | Malloc (n : Z)
  | Free (p : Z)
  | Store (p : Z) (i : nat) (b : byte)
  | Load (p : Z) (i : nat).

(** Requests are below this: more is not an int to sbrk(). *)
Definition limit : Z := 2 ^ 31 - 32.

(** What a program may do: free a block it has, use the bytes of a block it has. *)
Definition allowed (L : list array) (o : op) : Prop :=
  match o with
  | Malloc n => 0 <= n < limit
  | Free p => exists c, (p, c) ∈ L
  | Store p i _ | Load p i => exists c, (p, c) ∈ L /\ (i < length c)%nat
  end.

(** The data of two arrays does not overlap. *)
Definition apart (a b : array) : Prop := a.1 + Z.of_nat (length a.2) <= b.1 \/ b.1 + Z.of_nat (length b.2) <= a.1.

Inductive effect : list array -> op -> Z -> list array -> Prop :=
  | malloc_fails L n : effect L (Malloc n) 0 L
  | malloc_gives L n p c : p <> 0 -> Z.of_nat (length c) = n -> Forall (apart (p, c)) L -> effect L (Malloc n) p ((p, c) :: L)
  | free_takes L p c L' : L ≡ₚ (p, c) :: L' -> effect L (Free p) 0 L'
  | store_writes L p c i b L' : L ≡ₚ (p, c) :: L' -> (i < length c)%nat -> effect L (Store p i b) 0 ((p, <[i := b]> c) :: L')
  | load_reads L p c i b : (p, c) ∈ L -> c !! i = Some b -> effect L (Load p i) (byte.unsigned b) L.

(** ** The allocator *)

Section Client.
Context `{Break}.
Variables base start : Z.

(** The operations of the program, run. *)
Definition run (o : op) : M heap Z :=
  match o with
  | Malloc n => malloc base n
  | Free p => let* _ := free p in ret 0
  | Store p i b => let* _ := modify (fun h => set_h_mem (upd (h_mem h) (p + Z.of_nat i) b) h) in ret 0
  | Load p i => gets (fun h => byte.unsigned (h_mem h (p + Z.of_nat i)))
  end%kern.

Definition h_brk (h : heap) : Z := brk (u_os (h_user h)).

(** The free list; none before the first call. *)
Definition heap_ok (F : list block) (h : heap) : Prop :=
  0 < base /\ base + 16 <= h_brk h <= top /\
  if h_freep h =? 0 then F = [] else freelist (h_mem h) base (h_freep h) F (h_brk h).

(** The block of an array: header and data. *)
Definition owned (a : array) : block := (a.1 - 16, units (Z.of_nat (length a.2))).

Definition array_ok (F : list block) (h : heap) (a : array) : Prop :=
  Z.of_nat (length a.2) < limit /\ base + 16 <= a.1 - 16 /\ a.1 - 16 + 16 * (owned a).2 <= h_brk h /\ h_freep h <> 0 /\
  load32 (h_mem h) (a.1 - 16 + 8) = (owned a).2 /\ rd (h_mem h) a.1 (length a.2) = a.2 /\
  (forall x, in_block (owned a) x -> ~ free_at F x).

Fixpoint disjoint (L : list array) : Prop :=
  match L with
  | [] => True
  | a :: L => Forall (fun b => forall x, in_block (owned a) x -> ~ in_block (owned b) x) L /\ disjoint L
  end.

(** The heap represents the arrays, and every byte from where the heap started
    to the break is free or of an array. *)
Definition represents (h : heap) (L : list array) : Prop :=
  start <= h_brk h /\ exists F, heap_ok F h /\ Forall (array_ok F h) L /\ disjoint L /\
    (forall x, free_at F x \/ Exists (fun a => in_block (owned a) x) L <-> start <= x < h_brk h).

Lemma units_ok n : 0 <= n < limit -> 0 < units n /\ 16 * units n < 2 ^ 31 /\ n + 16 <= 16 * units n.
Proof.
  intros Hn. unfold limit in Hn. unfold units, Header. rewrite u64_small by lia. pose proof (Z.div_mod (n + 16 - 1) 16 ltac:(lia)).
  pose proof (Z.mod_pos_bound (n + 16 - 1) 16 ltac:(lia)). rewrite u32_small; lia.
Qed.

Lemma disjoint_perm L L' : L ≡ₚ L' -> disjoint L -> disjoint L'.
Proof.
  induction 1 as [|a L L' E IH|a b L|L1 L2 L3 E1 IH1 E2 IH2]; cbn [disjoint]; [done| | |tauto].
  - intros [H1 H2]. split; [by rewrite <- E|by apply IH].
  - intros [[H1 H2]%Forall_cons [H3 H4]]. split_and!; [|done|done]. constructor; [|done]. intros x Hx Hx'. by apply (H1 x).
Qed.

Lemma represents_perm h L L' : L ≡ₚ L' -> represents h L -> represents h L'.
Proof.
  intros E (Hst & F & H1 & H2 & H3 & H4). split; [done|]. exists F. split_and!; [done|by rewrite <- E|by apply (disjoint_perm L)|].
  intros x. rewrite <- H4. by rewrite E.
Qed.

Lemma malloc_start F h n : heap_ok F h -> exists m fp,
  malloc base n h = loop (malloc_step (units n)) (fp, load64 m fp) (mkheap (mkuser m (u_os (h_user h))) fp) /\
  freelist m base fp F (h_brk h) /\ (forall x, ~ (base <= x < base + 16) -> m x = h_mem h x).
Proof.
  intros (Hb & Hbrk & HF). unfold top in Hbrk. destruct h as [[m o] fp]. unfold malloc. cbv zeta. rewrite (bind_run freep _ fp (mkheap (mkuser m o) fp) (mkheap (mkuser m o) fp) eq_refl).
  cbn [h_freep h_mem h_user u_mem u_os] in *. destruct (fp =? 0).
  - subst F. exists (store32 (store64 m base base) (base + 8) 0), base. split_and!; [done| |].
    + split_and!; [done|cbn [sep]; lia|unfold top; lia| |left]. cbn [ring chain nxt]. hdr. by rewrite u64_small by lia.
    + intros x Hx. rewrite store32_out by lia. by rewrite store64_out by lia.
  - by exists m, fp.
Qed.

Lemma malloc_ok F h n : heap_ok F h -> 0 <= n < limit -> exists h' F' r, malloc base n h = Ok r h' /\ heap_ok F' h' /\ h_freep h' <> 0 /\ h_brk h <= h_brk h' /\
  ((r = 0 /\ h_brk h' = h_brk h /\ forall x, free_at F' x <-> free_at F x) \/ taken base (units n) (h_mem h) F (h_brk h) (h_mem h') F' (h_brk h') r) /\
  (forall x, x < h_brk h -> ~ free_at F x -> ~ (base <= x < base + 16) -> h_mem h' x = h_mem h x).
Proof.
  intros Hh Hn. destruct (units_ok n Hn) as (Hu1 & Hu2 & _). destruct (malloc_start F h n Hh) as (m & fp & E & HF & Hm). destruct Hh as (Hb & Hbrk & _).
  destruct (malloc_loop base F (units n) m (u_os (h_user h)) fp HF ltac:(apply Hbrk) Hu1 Hu2) as (m' & o' & fp' & F' & r & El & HF' & Hge & Hr & Hfr).
  exists (mkheap (mkuser m' o') fp'), F', r. pose proof (freelist_fp _ _ _ _ _ HF'). fold (h_brk h) in *. split_and!; [by rewrite E| |cbn; lia|done|done|].
  - split_and!; [done|unfold h_brk in *; cbn [h_user u_os]; lia|apply HF'|]. cbn [h_freep]. rewrite (proj2 (Z.eqb_neq fp' 0)) by lia. exact HF'.
  - intros x Hx Hx1 Hx2. rewrite <- (Hm x Hx2). by apply Hfr.
Qed.

Lemma array_ok_ext F h F' h' a : array_ok F h a -> h_freep h' <> 0 -> h_brk h <= h_brk h' ->
  (forall x, in_block (owned a) x -> h_mem h' x = h_mem h x /\ ~ free_at F' x) -> array_ok F' h' a.
Proof.
  intros (H1 & H2 & H3 & H4 & H5 & H6 & H7) Hf Hb E. destruct (units_ok (Z.of_nat (length a.2))) as (Hu1 & Hu2 & Hu3); [lia|].
  assert (Em : forall x, a.1 - 16 <= x < a.1 + Z.of_nat (length a.2) -> h_mem h' x = h_mem h x).
  { intros x Hx. apply E. unfold in_block, owned. cbn [fst snd]. lia. }
  split_and!; [done|done|lia|done| | |intros x Hx; by apply E].
  - rewrite <- H5. apply load32_ext. intros x Hx. apply Em. lia.
  - rewrite <- H6 at 2. apply rd_ext. intros x Hx. apply Em. lia.
Qed.

Lemma array_free F h L x : Forall (array_ok F h) L -> Exists (fun a => in_block (owned a) x) L -> ~ free_at F x /\ base + 16 <= x < h_brk h.
Proof.
  intros HL (a & Ha & Hx)%Exists_exists. rewrite Forall_forall in HL. destruct (HL a Ha) as (_ & H1 & H2 & _ & _ & _ & H3). split; [by apply H3|].
  unfold in_block, owned in *. cbn [fst snd] in *. lia.
Qed.

(** Two blocks that share no address are one after the other. *)
Lemma blocks_apart (a b : array) : 0 < (owned a).2 -> 0 < (owned b).2 -> (forall x, in_block (owned a) x -> ~ in_block (owned b) x) ->
  Z.of_nat (length a.2) + 16 <= 16 * (owned a).2 -> Z.of_nat (length b.2) + 16 <= 16 * (owned b).2 -> apart a b.
Proof.
  unfold apart, in_block, owned. cbn [fst snd]. intros Ha Hb Hd La Lb. specialize (Hd (Z.max (a.1 - 16) (b.1 - 16))). lia.
Qed.

Lemma malloc_sim h L n : represents h L -> 0 <= n < limit -> exists r h' L', malloc base n h = Ok r h' /\ effect L (Malloc n) r L' /\ represents h' L'.
Proof.
  intros (Hst & F & Hh & HL & Hd & Hat) Hn. destruct (malloc_ok F h n Hh Hn) as (h' & F' & r & E & Hh' & Hfp & Hge & Hr & Hfr).
  assert (HL' : (forall x, free_at F' x -> free_at F x \/ h_brk h <= x) -> Forall (array_ok F' h') L).
  { intros HF. rewrite !Forall_forall in *. intros a Ha. apply (array_ok_ext F h); [by apply HL|done|done|]. intros x Hx.
    destruct (array_free F h L x) as [Hx1 Hx2]; [by rewrite Forall_forall|apply Exists_exists; by exists a|]. split; [apply Hfr; [lia|done|lia]|].
    intros [?|?]%HF; [done|lia]. }
  destruct Hr as [(-> & Eb & Hat')|(b & -> & Hb1 & Hb2 & Hb3 & Hb4 & Hb5)].
  - exists 0, h', L. split_and!; [done|constructor|]. split; [lia|]. exists F'. split_and!; [done| |done|].
    + apply HL'. intros x Hx. left. by apply Hat'.
    + intros x. rewrite Hat', Eb. apply Hat.
  - set (c := rd (h_mem h') (b + 16) (Z.to_nat n)). assert (Lc : Z.of_nat (length c) = n) by (unfold c; rewrite length_rd; lia).
    assert (Eo : owned (b + 16, c) = (b, units n)) by (unfold owned; cbn [fst snd]; rewrite Lc; f_equal; lia).
    assert (Hnew : Forall (fun a => forall x, in_block (owned (b + 16, c)) x -> ~ in_block (owned a) x) L).
    { apply Forall_forall. intros a Ha x Hx Hx'. rewrite Eo in Hx. destruct (array_free F h L x HL) as [Hx1 Hx2]; [apply Exists_exists; by exists a|].
      destruct (proj1 (Hb4 x) (or_intror Hx)); [done|lia]. }
    destruct Hh as (Hb0 & _). exists (b + 16), h', ((b + 16, c) :: L). split_and!; [done|constructor; [lia|done|]|].
    + rewrite Forall_forall in *. intros a Ha. destruct (HL a Ha) as (Hla & _). destruct (units_ok (Z.of_nat (length a.2))) as (? & ? & ?); [lia|].
      destruct (units_ok n Hn) as (? & ? & ?). apply blocks_apart; [rewrite Eo; done|done|by apply Hnew|rewrite Eo; cbn [snd]; lia|done].
    + split; [lia|]. exists F'. split_and!; [done| |by split|].
      * constructor; [|apply HL'; intros x Hx; destruct (proj1 (Hb4 x) (or_introl Hx)); [by left|right; lia]].
        unfold array_ok. rewrite Eo. cbn [fst snd]. replace (b + 16 - 16) with b by lia. split_and!; [lia|lia|lia|done|done| |done].
        unfold c. by rewrite length_rd.
      * intros x. rewrite Exists_cons, Eo. specialize (Hat x). specialize (Hb4 x).
        assert (Q : start <= x < h_brk h' <-> start <= x < h_brk h \/ h_brk h <= x < h_brk h') by lia. rewrite Q, <- Hat. tauto.
Qed.

Lemma free_sim h L p c : represents h ((p, c) :: L) -> exists h', free p h = Ok tt h' /\ represents h' L.
Proof.
  intros (Hst & F & Hh & [Ha HL]%Forall_cons & [Hda Hd] & Hat). pose proof Ha as (H1 & H2 & H3 & H4 & H5 & H6 & H7). destruct Hh as (Hb & Hbrk & HF).
  rewrite (proj2 (Z.eqb_neq _ _) H4) in HF. destruct (units_ok (Z.of_nat (length c))) as (Hu1 & Hu2 & Hu3); [cbn [snd] in *; lia|].
  cbn [fst snd] in *. destruct (free_ok h base (h_brk h) F (p - 16) (units (Z.of_nat (length c))) HF H2 Hu1 H3 H5 H7) as (m & fp & F' & E & HF' & Hat' & Hfr).
  replace (p - 16 + 16) with p in E by lia. pose proof (freelist_fp _ _ _ _ _ HF') as Hfp. set (h' := mkheap (mkuser m (u_os (h_user h))) fp) in *.
  exists h'. split; [done|]. split; [done|]. exists F'. split_and!; [|  |done|].
  - split_and!; [done|apply Hbrk|apply Hbrk|]. cbn [h_freep h']. by rewrite (proj2 (Z.eqb_neq fp 0)) by lia.
  - rewrite !Forall_forall in *. intros a Hin. apply (array_ok_ext F h); [by apply HL|cbn; lia|done|]. intros x Hx.
    destruct (array_free F h L x) as [Hx1 Hx2]; [by rewrite Forall_forall|apply Exists_exists; by exists a|].
    assert (Hx3 : ~ free_at F' x). { rewrite Hat'. intros [?|Hx']; [done|]. by apply (Hda a Hin x Hx'). }
    split; [apply Hfr; [done|lia]|done].
  - intros x. specialize (Hat x). rewrite Exists_cons in Hat. rewrite Hat'. change (h_brk h') with (h_brk h). unfold owned in Hat at 1. cbn [fst snd] in Hat. tauto.
Qed.

Lemma rd_lookup m p k i : (i < k)%nat -> rd m p k !! i = Some (m (p + Z.of_nat i)).
Proof.
  intros Hi. destruct (lookup_lt_is_Some_2 (rd m p k) i) as [b E]; [by rewrite length_rd|]. by rewrite <- (rd_nth m p k i Hi), (nth_lookup_Some _ _ _ _ E).
Qed.

Lemma rd_upd m p k i b : (i < k)%nat -> rd (upd m (p + Z.of_nat i) b) p k = <[i := b]> (rd m p k).
Proof.
  intros Hi. apply list_eq. intros j. destruct (decide (j < k)%nat) as [Hj|Hj].
  - rewrite rd_lookup by done. unfold upd. destruct (decide (i = j)) as [->|Hne].
    + rewrite Z.eqb_refl, list_lookup_insert_eq by (by rewrite length_rd). done.
    + rewrite list_lookup_insert_ne, rd_lookup by done. by rewrite (proj2 (Z.eqb_neq _ _)) by lia.
  - rewrite !lookup_ge_None_2; [done|rewrite ?length_insert, length_rd; lia..].
Qed.

Lemma store_sim h L p c i b : represents h ((p, c) :: L) -> (i < length c)%nat ->
  represents (set_h_mem (upd (h_mem h) (p + Z.of_nat i) b) h) ((p, <[i := b]> c) :: L).
Proof.
  intros (Hst & F & Hh & [Ha HL]%Forall_cons & [Hda Hd] & Hat) Hi. pose proof Ha as (H1 & H2 & H3 & H4 & H5 & H6 & H7). cbn [fst snd] in *.
  destruct (units_ok (Z.of_nat (length c))) as (Hu1 & Hu2 & Hu3); [lia|]. set (y := p + Z.of_nat i) in *. set (h' := set_h_mem _ h).
  assert (Eo : owned (p, <[i := b]> c) = owned (p, c)) by (unfold owned; cbn [fst snd]; by rewrite length_insert).
  assert (Hy : in_block (owned (p, c)) y) by (unfold in_block, owned; cbn [fst snd]; unfold y; lia).
  assert (Em : forall x, x <> y -> h_mem h' x = h_mem h x).
  { intros x Hx. cbn. unfold upd. by rewrite (proj2 (Z.eqb_neq _ _) Hx). }
  split; [done|]. exists F. split_and!; [|constructor| |].
  - destruct Hh as (Hb & Hbrk & HF). split_and!; [done|apply Hbrk|apply Hbrk|]. cbn [h_freep h' set_h_mem]. rewrite (proj2 (Z.eqb_neq _ _) H4) in *.
    apply (freelist_frame (h_mem h)); [exact HF|]. intros x Hx. apply Em. intros ->. destruct Hx as [Hx|Hx]; [by apply (H7 y)|unfold y in Hx; lia].
  - unfold array_ok. rewrite Eo. cbn [fst snd]. rewrite length_insert. split_and!; [done|done|done|done| | |done].
    + rewrite <- H5. apply load32_ext. intros x Hx. apply Em. unfold y. lia.
    + rewrite <- H6 at 2. by apply rd_upd.
  - rewrite !Forall_forall in *. intros a Hin. apply (array_ok_ext F h); [by apply HL|done|done|]. intros x Hx.
    split; [apply Em; intros ->; by apply (Hda a Hin y Hy)|]. by apply (HL a Hin).
  - split; [|done]. by rewrite Eo.
  - intros x. specialize (Hat x). rewrite Exists_cons in *. rewrite Eo. exact Hat.
Qed.

(** C23: malloc() and free() give a program separate arrays.  From a heap that
    represents the program's blocks, each call the program may make (malloc() of
    less than 2^31 - 32 bytes, free() of a block it has, a store to or a load
    from a byte of one) returns, and does what the abstract operation says: a
    block of malloc() overlaps no other, blocks keep their bytes until the
    program writes or frees them.  The heap represents the new blocks, and every
    byte between the heap's start and the break is in exactly one of the free
    list and the blocks: none is lost. *)
Theorem umalloc_refines h L o : represents h L -> allowed L o ->
  exists r h' L', run o h = Ok r h' /\ effect L o r L' /\ represents h' L'.
Proof.
  intros HR. destruct o as [n|p|p i b|p i]; cbn [allowed run].
  - by apply malloc_sim.
  - intros (c & (L' & E)%elem_of_Permutation). apply (represents_perm _ _ _ E) in HR. destruct (free_sim h L' p c HR) as (h' & Ef & HR').
    exists 0, h', L'. split_and!; [by rewrite (bind_run _ _ _ _ _ Ef)|by apply (free_takes _ _ c)|done].
  - intros (c & (L' & E)%elem_of_Permutation & Hi). apply (represents_perm _ _ _ E) in HR.
    exists 0. eexists _, _. split_and!; [reflexivity|by apply (store_writes _ _ c _ _ L')|by apply store_sim].
  - intros (c & Hin & Hi). exists (byte.unsigned (h_mem h (p + Z.of_nat i))), h, L. split_and!; [done| |done]. apply (load_reads _ _ c); [done|].
    destruct HR as (_ & F & _ & HL & _). rewrite Forall_forall in HL. destruct (HL _ Hin) as (_ & _ & _ & _ & _ & E & _). cbn [fst snd] in E.
    rewrite <- E at 1. by apply rd_lookup.
Qed.
End Client.

(** ** A concrete break *)

(** A system that only has a break, at most 1 MB. *)
Definition grow : Unix := {|
  os := Z;
  os_read _ _ o := (-1, [], o); os_write _ _ o := (-1, o); os_open _ _ o := (-1, o); os_close _ o := (-1, o);
  os_fstat _ o := (-1, None, o); os_link _ _ o := (-1, o); os_unlink _ o := (-1, o); os_mkdir _ o := (-1, o); os_chdir _ o := (-1, o); os_kill _ o := (-1, o);
  os_sbrk n o := if o + n <=? 2 ^ 20 then (o, o + n) else (-1, o);
|}.

#[export] Instance grow_break : @Break grow.
Proof.
  refine (@Build_Break grow (fun o : Z => o) _). intros n o Hn. cbn. destruct (Z.leb_spec (o + n) (2 ^ 20)).
  - exists o, (o + n). split; [done|right]. unfold top. lia.
  - exists (-1), o. split; [done|by left].
Defined.

Definition fresh : @heap grow := @mkheap grow (@mkuser grow (fun _ => Byte.x00) 8192) 0.

Lemma umalloc_refines_witness : exists r h' L', @malloc grow 4096 100 fresh = Ok r h' /\ effect [] (Malloc 100) r L' /\ represents 4096 8192 h' L'.
Proof.
  apply (umalloc_refines 4096 8192 fresh [] (Malloc 100)).
  - split; [done|]. exists []. split_and!; [done|constructor|done|]. intros x. unfold free_at. rewrite !Exists_nil. cbn. lia.
  - unfold allowed, limit. lia.
Defined.

(** A request for nearly 4 GB: the number of bytes for sbrk() is an int and
    wraps around to 16, so malloc() succeeds with a block of no bytes at the
    break. *)
Theorem malloc_wraps : wp (@malloc grow 4096 (2 ^ 32 - 1)) (fun r h => r = 8192 + 16 /\ h_brk h = 8192 + 16) fresh.
Proof. by vm_compute. Qed.
